(* ===== verification/_CoqProject ===== *)
-Q . S2P
Prelude.v
PyFloat.v
Hashes.v
Json.v
JsonFacts.v
Protocol6.v
Protocol6Facts.v
Samples.v
Protocol6Codec.v
Protocol6Spec.v
Ledger.v
LedgerFacts.v
Manifests.v
Uuid.v
WorkerSession.v
WorkerSessionSpec.v
WorkerConnection.v
WorkerConnectionSpec.v
LedgerSpec.v
ODict.v
PyInt.v
Encodings.v
Totp.v
RateLimit.v
FrameBatch.v
FrameBatchSpec.v
MemoryLadder.v
KeyRing.v
KeyRingSpec.v
Transactions.v
AccountStore.v
AuthSessions.v
Accounts.v
AccountsFacts.v
AccountsSpec.v
AuthSessionsSpec.v
CommandTables.v
CommandSubjects.v
CommandStore.v
CommandFacts.v
CommandJournal.v
CommandCodec.v
CommandSamples.v
CommandStoreSpec.v
SchedulerLease.v
LeaseFacts.v
SchedulerLeaseSpec.v
SessionAuthority.v
WorkerReports.v
ReportFacts.v
ReportSystem.v
WorkerReportsSpec.v
Tasks.v
JobTables.v
Jobs.v
JobSystem.v
JobFacts.v
JobBase.v
JobObjects.v
JobSamples.v
JobsSpec.v
Relay.v
RelaySystem.v
RelayFacts.v
RelaySegments.v
RelayHandlers.v
RelaySamples.v
RelaySpec.v
SignInTables.v
Factors.v
SignIn.v
Setup.v
SignInSystem.v
SignInFacts.v
SignInReach.v
SignInSamples.v
SignInSpec.v
EntrySpec.v
FactorsSpec.v
