(* ===== verification/Prelude.v ===== *)
(** * The control plane of Potocolom: model and theorems

    Potocolom is a studio whose web API (src/backend/app) hands image jobs and
    realtime sessions to GPU workers (src/worker/worker).  The two sides speak
    "protocol 6", a closed set of JSON controls over a WebSocket.  This library
    models the parts that decide what runs, where, for whom and how often, and
    proves what makes them correct.

    ** Parts and files

    Foundations.  [Prelude]: results, list lemmas, tactics and the hint
    database.  [PyFloat], [PyInt], [ODict], [Encodings], [Uuid], [Hashes],
    [Json]: the values of Python and the standard library the code computes
    with, executable.  [JsonFacts]: the round trip of the JSON codec.
    [Transactions]: a database transaction as a state function that raises or
    commits, a handler as a sequence of transactions.

    Wire protocol (protocol6.py, the same file on both sides).  [Protocol6]:
    shapes, canonical bytes, decoding, validation.  [Protocol6Facts],
    [Protocol6Codec], [Protocol6Spec]: inversion of the validator, what is sent
    decodes as sent, a validated command has the shape of its kind, its counters
    and identifiers are what they should be and it carries its own hash.

    Worker.  [Ledger] (client.py: CommandLedger, _command_identity, enrich):
    a command runs once and in sequence order.  [WorkerSession] (client.py:
    JobRun, SessionRunner) and [WorkerConnection] (client.py: SessionManager,
    _serve_protocol6): the table of realtime sessions, fenced by generation,
    and the loop that feeds it through the ledger.  [Manifests] (manifests.py),
    [FrameBatch] (frame_batch.py), [MemoryLadder] (memory_ladder.py).

    Backend, accounts.  [AccountStore] (tables.py, account_lock.py),
    [AuthSessions] (sessions.py), [Accounts] (roles.py, states.py, deletion.py,
    jobs.cancel), [RateLimit] (rate_limit.py), [Totp] (totp.py), [KeyRing]
    (keyring.py).

    Backend, commands.  [CommandTables] (migrations 0029 to 0034): the rows and
    their CHECK constraints.  [CommandSubjects] (command_subjects.py): who may
    command what, and the claim a command makes on its session or job.
    [CommandStore] (command_store.py): the durable journal, one per worker
    incarnation, from commit to acknowledgement.  [CommandFacts],
    [CommandJournal], [CommandCodec]: inversion of each transaction, the
    journal's invariant, the codec of a sealed command.

    Backend, workers (worker_authority.py).  [SchedulerLease]: the lease a
    scheduler holds on a region and the loop that keeps it, registration,
    activation, heartbeats and grants.  [SessionAuthority]: a session that
    becomes live, ends, is abandoned, or loses its connection.
    [WorkerReports]: what a report counts, its receipt, and the end of its
    session or job.  [LeaseFacts], [ReportFacts], [ReportSystem]: inversion of
    each transaction and the systems they step in.

    Backend, tasks.  [Tasks]: an asyncio handler as the sequence of what it
    awaits, a pool of handlers that step in any order, and a rely-guarantee
    triple with its adequacy; such a pool, executed.

    Backend, jobs (jobs.py, tables.py).  [JobTables]: the rows of jobs, assets
    and owed deletes and each transaction on them.  [Jobs]: the queue, what is
    in flight, dispatch for both protocols, reports, sweeps, recovery, cleanup.
    [JobSystem]: the system they step in.  [JobFacts], [JobBase], [JobObjects]:
    its invariants.  [JobSamples]: executed schedules.

    Backend, relay (realtime.py).  [Relay]: browser sessions, the slot each
    holds on a worker, mailboxes, the queue, placement and its retries,
    shedding, idle release, revocation.  [RelaySystem]: the system.
    [RelayFacts], [RelaySegments], [RelayHandlers]: its invariant, through each
    update, each stretch between two awaits and each task.  [RelaySamples]:
    executed schedules.

    Backend, ways in.  [SignInTables] (tables.py, passwords.py, auth.py,
    mail.py): the rows of the ways into an account with their constraints, the
    password policy, the principal of a request.  [Factors] (factors.py,
    operator.py: clear_factor): the gate of a sign-in, challenges, what proves a
    factor.  [SignIn] (accounts.py: login, credentials.py, recovery.py,
    invitations.py, oauth.py) and [Setup] (enable.py): the other routes.
    [SignInSystem]: the requests interleaved, over the accounts of [Accounts].
    [SignInFacts], [SignInReach]: the invariant of the tables, and what no step
    undoes, through each statement, transaction and request.  [EntrySpec]: a
    request as it walks through its operations, and who it opens a session for.
    [SignInSamples]: executed schedules.

    A command travels: a handler commits it to the journal ([CommandStore]);
    delivery reads the head back, opens it with the ring ([KeyRing]) and sends
    its bytes ([Protocol6]); the worker's ledger ([Ledger]) applies it to the
    sessions ([WorkerConnection]) and answers with an acknowledgement, which
    the journal matches against the row and which raises the floor.

    ** Theorems

    Files named [...Spec] hold the properties, in the order of the claims:
    exactly-once and in-order execution at the worker, a dense and bounded
    journal, ordered delivery, exact read back of a sealed command, an
    acknowledgement that counts once, erasure, fencing of sessions by
    generation, newest input wins, the last administrator, single winner of a
    session rotation, the sign-in ceiling, the deletion window, a grant that
    ends with its lease, one scheduler per region, a report that counts once,
    attempts that count what their range counts, a job's verdict that stands
    and its one output, slots that cover their sessions, a worker that is never
    overbooked, a session that only moves on, a session opened only for what was
    proved, links and codes that work once, a way in that is kept, guesses that
    are bounded, and so on.
    Invariants are proved for a transition system whose steps are the modelled
    transactions in any order, by induction over its runs.  Where the code
    departs from what its documents say, the theorem states what the code does.

    ** Conventions and bounds

    Integers are [Z]; where Python would raise or a column would overflow, the
    raise is a value of [result].  Text is its UTF-8 bytes.  JSON decoding
    recurses on fuel equal to the length of its input, which every call of the
    decoder consumes from; SHA-256 is computed, not assumed.  The loop that
    raises the journal's floor recurses on the rows between floor and next
    sequence, and [CommandStoreSpec.floor_loop_finishes] proves that is enough.
    HKDF, AES-GCM, pydantic, the database driver's conversions and the engine
    are parameters; a theorem that needs a law of theirs states it, and its
    witness instantiates it.  A transaction is atomic and holds its rows to its
    end; interleaving is between transactions.  The round trip of the codec is
    for values in which no object has a key twice and each float is read back from
    its [repr], which [JsonFacts.float_reads] decides of a float.  The loops of Jobs.v
    and Relay.v that have no measure (a dispatch pass, the retries of a
    placement, a browser's messages) take a bound as an argument, and every
    theorem holds for all bounds; where one is used up the task stops at an
    operation that never answers.  Ghost fields of the job system ([st_issued],
    [st_forfeited], [st_doubtful]) record which ids were drawn and which
    outcomes are unknown; no definition of Jobs.v reads them.  Those of the ways
    in ([drawn], [hashes]) record which identifiers and tokens were drawn, which
    are never drawn twice; what a transaction draws is chosen by its step.
    argon2 and the database's lower-casing are parameters.  A challenge is
    bounded over its ten minutes, by guesses counted as the code counts them.

    ** Not modelled

    Of the job scheduler: the checks that create a generation's row, listings
    and lineage, the event stream's endpoint.  Of the relay: the handshakes
    before an open or a hello is read, the tasks that own the delivery of a
    command, the cancellation of a browser's writer.  A JSON schema check is a
    parameter.  Shutdown is not a step.  The account gate and
    the row locks order transactions and are not steps.  Of the ways in: cookies,
    origin and CSRF checks (an argument of the handler), URLs and the text around
    a sealed enrolment, the exchange with a provider (an operation with any
    answer), the sweep that delivers mail, collapse, reclaim and rotation at the
    machine, the copy of the mode a process keeps.  Tensor code, object
    storage, HTTP wiring, process and device glue, the
    front end and the scripts are outside: they call what is modelled here or
    only move bytes. *)

From stdpp Require Export base tactics option list numbers strings gmap sets fin_maps sorting.
From Stdlib Require Export ZArith Lia Ascii.


#[export] Set Warnings "-clear-no-such-hyp".

(** ** Results: a computation that returns a value or raises *)

Inductive result (E A : Type) : Type :=
| Ok (a : A)
| Err (e : E).
Global Arguments Ok {E A} a.
Global Arguments Err {E A} e.

Global Instance result_ret {E} : MRet (result E) := fun A a => Ok a.
Global Instance result_bind {E} : MBind (result E) := fun A B k m =>
  match m with Ok a => k a | Err e => Err e end.
Global Instance result_map {E} : FMap (result E) := fun A B f m =>
  match m with Ok a => Ok (f a) | Err e => Err e end.

(** [if not b: raise e] *)
Definition require {E} (b : bool) (e : E) : result E unit :=
  if b then Ok tt else Err e.

(** [if b: raise e] *)
Definition refuse_if {E} (b : bool) (e : E) : result E unit :=
  if b then Err e else Ok tt.

Definition is_ok {E A} (m : result E A) : bool :=
  match m with Ok _ => true | Err _ => false end.

(** A loop over a list whose body may raise. *)
Definition each {E A} (f : A -> result E unit) : list A -> result E unit :=
  fix go l := match l with [] => Ok tt | x :: l => _ ← f x; go l end.

Definition traverse {E A B} (f : A -> result E B) : list A -> result E (list B) :=
  fix go l := match l with [] => Ok [] | x :: l => y ← f x; ys ← go l; Ok (y :: ys) end.

(** ** Python exceptions

    [Protocol6Error] is the class of app/protocol6.py, a subclass of
    [ValueError]; the others are the built-in classes the modelled code can
    raise. *)

Inductive exn : Type :=
| Protocol6Error (msg : string)
| ValueError (msg : string)
| TypeError (msg : string)
| KeyError (key : string)
| AttributeError (msg : string)
| OverflowError
| StructError (msg : string)
| KeyRingError (msg : string)
| IntegrityError (constraint : string)
| RuntimeError (msg : string)
| CommandRefused (msg : string)
| AuthorityUnavailable (msg : string)
| ProtocolError (msg : string)
| IndexError (msg : string)
| TimeoutError
| WebSocketDisconnect
| HTTPException (status : Z) (detail : string).

Global Instance exn_eq_dec : EqDecision exn.
Proof. solve_decision. Defined.

(** Caught by [except ValueError]. *)
Definition is_value_error (e : exn) : bool :=
  match e with Protocol6Error _ | ValueError _ => true | _ => false end.

(** ** Inversion of successful computations *)

Lemma bind_ok {E A B} (m : result E A) (k : A -> result E B) b :
  (m ≫= k) = Ok b <-> exists a, m = Ok a /\ k a = Ok b.
Proof. destruct m; simpl; naive_solver. Qed.

Lemma require_ok {E} b (e : E) u : require b e = Ok u <-> b = true.
Proof. destruct b, u; simpl; split; congruence. Qed.

Lemma refuse_if_ok {E} b (e : E) u : refuse_if b e = Ok u <-> b = false.
Proof. destruct b, u; simpl; split; congruence. Qed.

Lemma each_ok {E A} (f : A -> result E unit) l :
  each f l = Ok tt <-> Forall (fun x => f x = Ok tt) l.
Proof.
  induction l as [|x l IH]; simpl; [split; auto|].
  rewrite bind_ok, Forall_cons, <- IH. split.
  - by intros ([] & -> & ->).
  - intros [-> ->]. by exists tt.
Qed.

Lemma traverse_ok {E A B} (f : A -> result E B) l ys :
  traverse f l = Ok ys <-> Forall2 (fun x y => f x = Ok y) l ys.
Proof.
  revert ys; induction l as [|x l IH]; intros ys; simpl.
  - split; [by intros [= <-]|]. by inversion 1.
  - rewrite bind_ok. setoid_rewrite bind_ok. setoid_rewrite IH. split.
    + intros (y & Hy & ys' & Hys & [= <-]). by constructor.
    + inversion 1; subst. eauto 6.
Qed.

(** ** What a computation can raise *)

Definition raises_only {A} (P : exn -> bool) (m : result exn A) : Prop :=
  forall e, m = Err e -> P e = true.

Definition is_key_ring_error (e : exn) : bool :=
  match e with KeyRingError _ => true | _ => false end.

Lemma raises_only_bind {A B} P (m : result exn A) (k : A -> result exn B) :
  raises_only P m -> (forall a, raises_only P (k a)) -> raises_only P (m ≫= k).
Proof.
  intros Hm Hk e. destruct m as [a|e']; cbn [mbind result_bind]; [exact (Hk a e)|].
  intros [= ->]. exact (Hm e eq_refl).
Qed.
Lemma raises_only_ok {A} P (a : A) : raises_only P (Ok a).
Proof. done. Qed.
Lemma raises_only_err {A} P e : P e = true -> raises_only P (@Err exn A e).
Proof. by intros H e' [= <-]. Qed.
Lemma raises_only_require P b e : P e = true -> raises_only P (require b e).
Proof. destruct b; [done|]. apply raises_only_err. Qed.
Lemma raises_only_refuse P b e : P e = true -> raises_only P (refuse_if b e).
Proof. destruct b; [|done]. apply raises_only_err. Qed.
Lemma raises_only_each {A} P (f : A -> result exn unit) l :
  (forall x, raises_only P (f x)) -> raises_only P (each f l).
Proof. intros Hf. induction l as [|x l IH]; [done|]. by apply raises_only_bind. Qed.

Create HintDb raises.
#[export] Hint Resolve raises_only_bind raises_only_ok raises_only_err raises_only_require
  raises_only_refuse raises_only_each : raises.
#[export] Hint Extern 5 (_ = true) => reflexivity : raises.

(** Turn [Ok] hypotheses about binds and guards into their parts. *)
Ltac ok_inv :=
  repeat match goal with
  | H : (_ ≫= _) = Ok _ |- _ =>
      let a := fresh "v" in let Ha := fresh "Hv" in
      apply bind_ok in H as (a & Ha & H)
  | H : require _ _ = Ok _ |- _ => apply require_ok in H
  | H : refuse_if _ _ = Ok _ |- _ => apply refuse_if_ok in H
  | H : Ok _ = Ok _ |- _ => injection H as H
  | H : Err _ = Ok _ |- _ => discriminate H
  | u : unit |- _ => destruct u
  end; subst.

(** Case analysis on the scrutinee of the first [if] or [match] of a
    hypothesis. *)
Ltac split_in H :=
  match type of H with
  | context [match ?x with _ => _ end] =>
      first [is_var x; destruct x | let E := fresh "E" in destruct x eqn:E]
  end.

(** The cases of membership in a literal list. *)
Ltac each_kind H :=
  repeat (apply elem_of_cons in H as [->|H]; [|]); [..|by apply elem_of_nil in H].
