(* ===== verification/PyFloat.v ===== *)
(** * Python floats

    A Python [float] is an IEEE 754 double.  It is represented by the
    Standard Library's [spec_float], with 53 bits of precision and the
    exponent bound 1024.  This file gives the operations of CPython that the
    modelled code uses: correctly rounded conversion of a ratio of integers,
    comparison with integers, [int()], [math.isfinite], [is_integer] and the
    shortest representation [repr] that [json.dumps] writes. *)

From S2P Require Import Prelude.
From Stdlib Require Import SpecFloat DecimalString.
Open Scope Z_scope.

Definition float_prec : Z := 53.
Definition float_emax : Z := 1024.

Abbreviation float := spec_float.

Global Instance float_eq_dec : EqDecision float.
Proof. intros x y. unfold Decision. repeat decide equality. Defined.

Definition isfinite (f : float) : bool :=
  match f with S754_zero _ | S754_finite _ _ _ => true | _ => false end.

(** The double nearest to [num / den] (ties to even); infinite on overflow. *)
Definition float_of_ratio (neg : bool) (num den : positive) : float :=
  let shift := Z.max 0 (56 + Z.log2 (Zpos den) - Z.log2 (Zpos num)) in
  let scaled := Z.shiftl (Zpos num) shift in
  let q := scaled / Zpos den in
  let r := scaled mod Zpos den in
  let loc := if r =? 0 then loc_Exact else loc_Inexact (Z.compare (2 * r) (Zpos den)) in
  binary_round_aux float_prec float_emax neg q (- shift) loc.

(** The exact value of a finite double, as sign and ratio. *)
Definition exact_ratio (m : positive) (e : Z) : positive * positive :=
  match e with
  | Zneg p => (m, Z.to_pos (2 ^ Zpos p))
  | _ => (Z.to_pos (Zpos m * 2 ^ e), 1%positive)
  end.

(** [float(z)]; [None] is the OverflowError of an integer too large. *)
Definition float_of_Z (z : Z) : option float :=
  match z with
  | 0 => Some (S754_zero false)
  | Zpos p => let f := float_of_ratio false p 1 in if isfinite f then Some f else None
  | Zneg p => let f := float_of_ratio true p 1 in if isfinite f then Some f else None
  end.

(** Comparison of a double with an integer is exact in Python.  [None] when
    the double is a NaN, for which every comparison is false. *)
Definition float_cmp_Z (f : float) (z : Z) : option comparison :=
  match f with
  | S754_nan => None
  | S754_infinity true => Some Lt
  | S754_infinity false => Some Gt
  | S754_zero _ => Some (0 ?= z)
  | S754_finite s m e =>
      let (num, den) := exact_ratio m e in
      Some ((if s then Zneg num else Zpos num) ?= z * Zpos den)
  end.

Definition float_lt_Z (f : float) (z : Z) : bool :=
  match float_cmp_Z f z with Some Lt => true | _ => false end.
Definition float_le_Z (f : float) (z : Z) : bool :=
  match float_cmp_Z f z with Some Lt | Some Eq => true | _ => false end.
Definition float_ge_Z (f : float) (z : Z) : bool :=
  match float_cmp_Z f z with Some Gt | Some Eq => true | _ => false end.

(** [f.is_integer()] and [int(f)] (truncation; [None] for the exceptions on
    an infinity and on a NaN). *)
Definition float_is_integer (f : float) : bool :=
  match f with
  | S754_zero _ => true
  | S754_finite _ m e =>
      let (num, den) := exact_ratio m e in Zpos num mod Zpos den =? 0
  | _ => false
  end.
Definition int_of_float (f : float) : option Z :=
  match f with
  | S754_zero _ => Some 0
  | S754_finite s m e =>
      let (num, den) := exact_ratio m e in
      let q := Zpos num / Zpos den in Some (if s then - q else q)
  | _ => None
  end.

(** ** [repr(f)] *)

Definition dec_string (z : Z) : string := NilZero.string_of_int (Z.to_int z).

Fixpoint zeros (n : nat) : string :=
  match n with O => "" | S n => String "0"%char (zeros n) end.

Fixpoint strip_zeros (fuel : nat) (c : Z) : Z :=
  match fuel with
  | O => c
  | S fuel => if (c mod 10 =? 0) && negb (c =? 0) then strip_zeros fuel (c / 10) else c
  end.

(** [c * 10 ^ k] as a ratio. *)
Definition decimal_ratio (c k : Z) : positive * positive :=
  if k <? 0 then (Z.to_pos c, Z.to_pos (10 ^ (- k))) else (Z.to_pos (c * 10 ^ k), 1%positive).

(** The least [k] with [num / den < 10 ^ k], searched upwards from a lower
    bound. *)
Fixpoint decimal_point (fuel : nat) (num den k : Z) : Z :=
  match fuel with
  | O => k
  | S fuel =>
      let below := if k <? 0 then num * 10 ^ (- k) <? den else num <? den * 10 ^ k in
      if below then k else decimal_point fuel num den (k + 1)
  end.

(** The shortest digits that read back as the double, tried with 1, 2, ... 17
    digits; of two candidates the one nearer to the exact value. *)
Fixpoint shortest (fuel : nat) (f : float) (num den k n : Z) : Z * Z :=
  let up := Z.max 0 (n - k) in
  let down := Z.max 0 (k - n) in
  let a := num * 10 ^ up in
  let b := den * 10 ^ down in
  let c := a / b in
  let reads x := match x with
                 | Zpos _ => let (p, q) := decimal_ratio x (k - n) in
                             bool_decide (float_of_ratio false p q = f)
                 | _ => false end in
  let low := reads c in
  let high := reads (c + 1) in
  let near_high := b <? 2 * (a mod b) in
  match fuel with
  | O => (c, n)
  | S fuel =>
      if low && high then (if near_high then c + 1 else c, n)
      else if low then (c, n)
      else if high then (c + 1, n)
      else shortest fuel f num den k (n + 1)
  end.

Definition exponent_string (e : Z) : string :=
  (if e <? 0 then "e-" else "e+")
  +:+ (if Z.abs e <? 10 then "0" else "") +:+ dec_string (Z.abs e).

Definition repr_positive (m : positive) (e : Z) : string :=
  let f := S754_finite false m e in
  let (num, den) := exact_ratio m e in
  let low := (Z.log2 (Zpos num) - Z.log2 (Zpos den) - 1) * 30103 / 100000 - 1 in
  let k0 := decimal_point 8 (Zpos num) (Zpos den) low in
  let (c, n) := shortest 17 f (Zpos num) (Zpos den) k0 1 in
  let ds := dec_string c in
  let len := Z.of_nat (String.length ds) in
  (* a carry to a further digit moves the point *)
  let k := k0 + (len - n) in
  let ds := dec_string (strip_zeros 20 c) in
  let len := Z.of_nat (String.length ds) in
  if (k <=? -4) || (16 <? k) then
    String.substring 0 1 ds
    +:+ (if 1 <? len then "." +:+ String.substring 1 (Z.to_nat (len - 1)) ds else "")
    +:+ exponent_string (k - 1)
  else if k <=? 0 then "0." +:+ zeros (Z.to_nat (- k)) +:+ ds
  else if len <=? k then ds +:+ zeros (Z.to_nat (k - len)) +:+ ".0"
  else String.substring 0 (Z.to_nat k) ds +:+ "." +:+ String.substring (Z.to_nat k) (Z.to_nat (len - k)) ds.

Definition float_repr (f : float) : string :=
  match f with
  | S754_zero s => if s then "-0.0" else "0.0"
  | S754_infinity s => if s then "-inf" else "inf"
  | S754_nan => "nan"
  | S754_finite s m e => (if s then "-" else "") +:+ repr_positive m e
  end.
