(* ===== verification/Hashes.v ===== *)
(** * SHA-256, SHA-1 and HMAC

    The digests that [hashlib] and [hmac] compute, written out after FIPS 180-4
    and RFC 2104 so that body hashes, report hashes and one time passwords
    evaluate on concrete inputs.  Byte strings are [string]s, one character per
    byte; a 32-bit word is a [Z] in [0, 2^32). *)

From S2P Require Import Prelude.
Open Scope Z_scope.

Definition word (z : Z) : Z := Z.land z 0xFFFFFFFF.
Definition rotr (n x : Z) : Z := word (Z.lor (Z.shiftr x n) (Z.shiftl x (32 - n))).
Definition rotl (n x : Z) : Z := rotr (32 - n) x.
Definition lnot32 (x : Z) : Z := Z.lxor x 0xFFFFFFFF.

Definition byte_val (c : ascii) : Z := Z.of_N (N_of_ascii c).
Definition val_byte (z : Z) : ascii := ascii_of_N (Z.to_N z).

Fixpoint bytes_of_string (s : string) : list Z :=
  match s with String.EmptyString => [] | String.String c s => byte_val c :: bytes_of_string s end.
Fixpoint string_of_bytes (l : list Z) : string :=
  match l with [] => String.EmptyString | z :: l => String.String (val_byte z) (string_of_bytes l) end.

(** [n] bytes of [z], most significant first. *)
Fixpoint be_bytes (n : nat) (z : Z) : list Z :=
  match n with
  | O => []
  | S k => Z.land (Z.shiftr z (8 * Z.of_nat k)) 255 :: be_bytes k z
  end.
Definition be_val (l : list Z) : Z := fold_left (fun a b => a * 256 + b) l 0.

(** ** Padding to 64-byte blocks of sixteen words *)

Definition padded (msg : list Z) : list Z :=
  let len := Z.of_nat (length msg) in
  msg ++ 128 :: replicate (Z.to_nat ((55 - len) mod 64)) 0 ++ be_bytes 8 (8 * len).

Fixpoint words (l : list Z) : list Z :=
  match l with
  | a :: b :: c :: d :: l => be_val [a; b; c; d] :: words l
  | _ => []
  end.

Fixpoint blocks (fuel : nat) (l : list Z) : list (list Z) :=
  match fuel with
  | O => []
  | S fuel => match l with [] => [] | _ => take 16 l :: blocks fuel (drop 16 l) end
  end.

Definition message_blocks (msg : list Z) : list (list Z) :=
  let ws := words (padded msg) in blocks (length ws) ws.

(** ** SHA-256 *)

Definition is_prime (n : nat) : bool :=
  forallb (fun d => negb (Nat.eqb (Nat.modulo n d) 0)) (seq 2 (n - 2)).
Definition first_primes (k : nat) : list Z := take k (map Z.of_nat (List.filter is_prime (seq 2 310))).

(** The integer cube root, bit by bit from [2 ^ k]. *)
Fixpoint cube_root (k : nat) (n r : Z) : Z :=
  let r' := r + 2 ^ Z.of_nat k in
  let r := if r' ^ 3 <=? n then r' else r in
  match k with O => r | S k => cube_root k n r end.

(** The constants of the standard: the first 32 bits of the fractional parts
    of the cube roots of the first 64 primes and of the square roots of the
    first 8. *)
Definition K256 : list Z :=
  Eval vm_compute in map (fun p => word (cube_root 36 (p * 2 ^ 96) 0)) (first_primes 64).
Definition H256 : list Z :=
  Eval vm_compute in map (fun p => word (Z.sqrt (p * 2 ^ 64))) (first_primes 8).

Definition xor3 (a b c : Z) : Z := Z.lxor a (Z.lxor b c).
Definition ch (x y z : Z) : Z := Z.lxor (Z.land x y) (Z.land (lnot32 x) z).
Definition maj (x y z : Z) : Z := xor3 (Z.land x y) (Z.land x z) (Z.land y z).
Definition Sig0 x := xor3 (rotr 2 x) (rotr 13 x) (rotr 22 x).
Definition Sig1 x := xor3 (rotr 6 x) (rotr 11 x) (rotr 25 x).
Definition sig0 x := xor3 (rotr 7 x) (rotr 18 x) (Z.shiftr x 3).
Definition sig1 x := xor3 (rotr 17 x) (rotr 19 x) (Z.shiftr x 10).

(** The schedule is kept newest first while it grows. *)
Fixpoint extend256 (n : nat) (rev_w : list Z) : list Z :=
  match n with
  | O => rev_w
  | S n =>
      let w := word (sig1 (nth 1 rev_w 0) + nth 6 rev_w 0 + sig0 (nth 14 rev_w 0) + nth 15 rev_w 0)
      in extend256 n (w :: rev_w)
  end.

Definition round256 (st : list Z) (kw : Z * Z) : list Z :=
  match st with
  | [a; b; c; d; e; f; g; h] =>
      let t1 := h + Sig1 e + ch e f g + kw.1 + kw.2 in
      let t2 := Sig0 a + maj a b c in
      [word (t1 + t2); a; b; c; word (d + t1); e; f; g]
  | _ => st
  end.

Definition add_words (l k : list Z) : list Z := zip_with (fun a b => word (a + b)) l k.

Definition block256 (st blk : list Z) : list Z :=
  let ws := rev (extend256 48 (rev blk)) in
  add_words st (fold_left round256 (zip K256 ws) st).

Definition sha256_bytes (msg : list Z) : list Z :=
  mjoin (map (be_bytes 4) (fold_left block256 (message_blocks msg) H256)).

(** ** SHA-1 *)

Fixpoint extend1 (n : nat) (rev_w : list Z) : list Z :=
  match n with
  | O => rev_w
  | S n =>
      let w := rotl 1 (Z.lxor (nth 2 rev_w 0)
                        (xor3 (nth 7 rev_w 0) (nth 13 rev_w 0) (nth 15 rev_w 0)))
      in extend1 n (w :: rev_w)
  end.

Definition round1 (st : list Z) (tw : nat * Z) : list Z :=
  match st with
  | [a; b; c; d; e] =>
      let '(f, k) :=
        if Nat.ltb tw.1 20 then (ch b c d, 0x5a827999)
        else if Nat.ltb tw.1 40 then (xor3 b c d, 0x6ed9eba1)
        else if Nat.ltb tw.1 60 then (maj b c d, 0x8f1bbcdc)
        else (xor3 b c d, 0xca62c1d6) in
      [word (rotl 5 a + f + e + k + tw.2); a; rotl 30 b; c; d]
  | _ => st
  end.

Definition block1 (st blk : list Z) : list Z :=
  let ws := rev (extend1 64 (rev blk)) in
  add_words st (fold_left round1 (zip (seq 0 80) ws) st).

Definition sha1_bytes (msg : list Z) : list Z :=
  mjoin (map (be_bytes 4)
    (fold_left block1 (message_blocks msg)
       [0x67452301;0xefcdab89;0x98badcfe;0x10325476;0xc3d2e1f0])).

(** ** HMAC with SHA-1 *)

Definition hmac_sha1 (key msg : list Z) : list Z :=
  let key := if Nat.ltb 64 (length key) then sha1_bytes key else key in
  let key := key ++ replicate (64 - length key) 0 in
  sha1_bytes (map (Z.lxor 0x5c) key ++ sha1_bytes (map (Z.lxor 0x36) key ++ msg)).

(** ** [hexdigest()] *)

Definition hex_digit (z : Z) : ascii :=
  if z <? 10 then val_byte (48 + z) else val_byte (87 + z).
Fixpoint hex_string (l : list Z) : string :=
  match l with
  | [] => String.EmptyString
  | b :: l => String.String (hex_digit (b / 16)) (String.String (hex_digit (b mod 16)) (hex_string l))
  end.

(** [hashlib.sha256(data).hexdigest()] *)
Definition sha256 (data : string) : string := hex_string (sha256_bytes (bytes_of_string data)).

Example sha256_abc :
  sha256 "abc" = "ba7816bf8f01cfea414140de5dae2223b00361a396177a9cb410ff61f20015ad".
Proof. vm_compute. reflexivity. Qed.

Example sha256_two_blocks :
  sha256 "abcdbcdecdefdefgefghfghighijhijkijkljklmklmnlmnomnopnopq"
  = "248d6a61d20638b8e5c026930c3e6039a33ce45964ff2167f6ecedd419db06c1".
Proof. vm_compute. reflexivity. Qed.

Example sha1_abc :
  hex_string (sha1_bytes (bytes_of_string "abc")) = "a9993e364706816aba3e25717850c26c9cd0d89d".
Proof. vm_compute. reflexivity. Qed.

Example hmac_sha1_jefe :
  hex_string (hmac_sha1 (bytes_of_string "Jefe") (bytes_of_string "what do ya want for nothing?"))
  = "effcdf6ae5eb2fa2d27416d5f184df9c259a7c79".
Proof. vm_compute. reflexivity. Qed.

(** ** Facts the clients use *)

Lemma be_bytes_length n z : length (be_bytes n z) = n.
Proof. induction n; simpl; congruence. Qed.

Lemma length_string_app s t : String.length (s +:+ t) = (String.length s + String.length t)%nat.
Proof.
  induction s as [|c s IH]; [done|].
  change (S (String.length (s +:+ t)) = S (String.length s + String.length t)%nat). by rewrite IH.
Qed.
