(* ===== verification/Json.v ===== *)
(** * Python values, JSON encoding and decoding

    The values the control plane handles: what [json.loads] produces and what
    [json.dumps] accepts.  Text is represented by its UTF-8 bytes; a lone
    surrogate, which a Python [str] may hold, is represented by the three bytes
    that UTF-8 would use for its code point (the [surrogatepass] encoding).
    This representation is injective, keeps the order of code points, and makes
    [len(text.encode())] the length of the string.

    A [dict] is an association list in insertion order; its keys are [str], as
    in every object the code builds or decodes.  [JOpaque] is any value outside
    the JSON types. *)

From S2P Require Import Prelude PyFloat Hashes.
From Stdlib Require Import SpecFloat DecimalString.
Open Scope Z_scope.

#[warnings="-register-all"]
Inductive json : Type :=
| JNull
| JBool (b : bool)
| JInt (z : Z)
| JFloat (f : float)
| JStr (s : string)
| JList (l : list json)
| JDict (d : list (string * json))
| JOpaque.

(** The induction principle with hypotheses for the elements. *)
Section Induction.
Variable P : json -> Prop.
Hypothesis Hnull : P JNull.
Hypothesis Hbool : forall b, P (JBool b).
Hypothesis Hint : forall z, P (JInt z).
Hypothesis Hfloat : forall f, P (JFloat f).
Hypothesis Hstr : forall s, P (JStr s).
Hypothesis Hlist : forall l, Forall P l -> P (JList l).
Hypothesis Hdict : forall d, Forall (fun kv => P kv.2) d -> P (JDict d).
Hypothesis Hopaque : P JOpaque.

Fixpoint json_ind' (v : json) : P v :=
match v with
| JNull => Hnull
| JBool b => Hbool b
| JInt z => Hint z
| JFloat f => Hfloat f
| JStr s => Hstr s
| JList l => Hlist l
    ((fix go l : Forall P l :=
        match l with
        | [] => @List.Forall_nil _ _
        | x :: l => @List.Forall_cons _ _ x l (json_ind' x) (go l)
        end) l)
| JDict d => Hdict d
    ((fix go d : Forall (fun kv => P kv.2) d :=
        match d with
        | [] => @List.Forall_nil _ _
        | kv :: d => @List.Forall_cons _ _ kv d (json_ind' kv.2) (go d)
        end) d)
| JOpaque => Hopaque
end.
End Induction.

Fixpoint json_eqb (x y : json) : bool :=
  match x, y with
  | JNull, JNull | JOpaque, JOpaque => true
  | JBool a, JBool b => Bool.eqb a b
  | JInt a, JInt b => a =? b
  | JFloat a, JFloat b => bool_decide (a = b)
  | JStr a, JStr b => bool_decide (a = b)
  | JList a, JList b =>
      (fix go l k := match l, k with
        | [], [] => true
        | x :: l, y :: k => json_eqb x y && go l k
        | _, _ => false end) a b
  | JDict a, JDict b =>
      (fix go l k := match l, k with
        | [], [] => true
        | x :: l, y :: k => bool_decide (x.1 = y.1) && json_eqb x.2 y.2 && go l k
        | _, _ => false end) a b
  | _, _ => false
  end.

Lemma json_eqb_eq x y : json_eqb x y = true <-> x = y.
Proof.
  revert y. induction x as [|b|z|f|s|l IH|d IH|] using json_ind';
    intros y; destruct y; simpl; try (split; [discriminate|discriminate]); try done.
  - rewrite Bool.eqb_true_iff. naive_solver.
  - rewrite Z.eqb_eq. naive_solver.
  - rewrite bool_decide_eq_true. naive_solver.
  - rewrite bool_decide_eq_true. naive_solver.
  - revert l0; induction IH as [|x l Hx _ IHl]; intros [|y k]; try done.
    rewrite andb_true_iff, Hx, IHl. split; [by intros [-> [= ->]] | by intros [= -> ->]].
  - revert d0; induction IH as [|[s x] l Hx _ IHl]; intros [|[t y] k]; try done.
    simpl in *. rewrite !andb_true_iff, Hx, IHl, bool_decide_eq_true. split; [by intros [[-> ->] [= ->]] | by intros [= -> -> ->]].
Qed.

Global Instance json_eq_dec : EqDecision json.
Proof.
  intros x y. destruct (json_eqb x y) eqn:E.
  - left. by apply json_eqb_eq.
  - right. intros H%json_eqb_eq. congruence.
Defined.

(** ** Dictionaries *)

Abbreviation dict := (list (string * json)).

(** [d.get(k)], distinguishing an absent key from a [None] value. *)
Fixpoint lookup_key (k : string) (d : dict) : option json :=
  match d with
  | [] => None
  | (k', v) :: d => if decide (k' = k) then Some v else lookup_key k d
  end.

(** [d.get(k)] *)
Definition get (d : dict) (k : string) : json := default JNull (lookup_key k d).

(** [d[k]] *)
Definition item (d : dict) (k : string) : result exn json :=
  match lookup_key k d with Some v => Ok v | None => Err (KeyError k) end.

(** [k in d] *)
Definition has_key (k : string) (d : dict) : bool := bool_decide (is_Some (lookup_key k d)).

(** [d[k] = v]: in place when the key is there, appended otherwise. *)
Fixpoint set_key (k : string) (v : json) (d : dict) : dict :=
  match d with
  | [] => [(k, v)]
  | (k', v') :: d => if decide (k' = k) then (k', v) :: d else (k', v') :: set_key k v d
  end.

(** [{key: item for key, item in d.items() if key != k}], and [d.pop(k)]. *)
Definition without (k : string) (d : dict) : dict :=
  filter (fun kv => kv.1 <> k) d.

(** [d.update(e)] *)
Definition update_with (e d : dict) : dict :=
  fold_left (fun d kv => set_key kv.1 kv.2 d) e d.

(** [d.setdefault(k, v)] as a statement. *)
Definition set_default (k : string) (v : json) (d : dict) : dict :=
  if has_key k d then d else set_key k v d.

Definition keys (d : dict) : list string := d.*1.

(** [a == b]: numbers compare by value, [True] and [False] as 1 and 0. *)
Fixpoint py_eq (a b : json) {struct a} : bool :=
  match a, b with
  | JNull, JNull => true
  | JBool x, JBool y => Bool.eqb x y
  | JBool x, JInt z | JInt z, JBool x => z =? Z.b2z x
  | JInt x, JInt y => x =? y
  | JFloat f, JInt z | JInt z, JFloat f => bool_decide (float_cmp_Z f z = Some Eq)
  | JFloat f, JBool x | JBool x, JFloat f => bool_decide (float_cmp_Z f (Z.b2z x) = Some Eq)
  | JFloat f, JFloat g => SFeqb f g
  | JStr s, JStr t => bool_decide (s = t)
  | JList l, JList k =>
      (fix go (l k : list json) : bool :=
         match l, k with
         | [], [] => true
         | x :: l, y :: k => py_eq x y && go l k
         | _, _ => false
         end) l k
  | JDict d, JDict e =>
      Nat.eqb (length d) (length e)
      && (fix go (d : list (string * json)) : bool :=
            match d with
            | [] => true
            | (k, v) :: d =>
                match lookup_key k e with Some w => py_eq v w | None => false end && go d
            end) d
  | _, _ => false
  end.

(** ** UTF-8 *)

Definition is_cont (c : ascii) : bool := (128 <=? byte_val c) && (byte_val c <? 192).

(** A surrogate is written 0xED followed by a byte of at least 0xA0. *)
Fixpoint has_surrogate (s : string) : bool :=
  match s with
  | String.String c ((String.String c' _) as s') =>
      (byte_val c =? 0xED) && (0xA0 <=? byte_val c') || has_surrogate s'
  | _ => false
  end.

(** [len(s)] counts code points. *)
Fixpoint text_length (s : string) : Z :=
  match s with
  | String.EmptyString => 0
  | String.String c s => (if is_cont c then 0 else 1) + text_length s
  end.

Definition utf8 (cp : Z) : list Z :=
  if cp <? 0x80 then [cp]
  else if cp <? 0x800 then [0xC0 + Z.shiftr cp 6; 0x80 + Z.land cp 63]
  else if cp <? 0x10000 then
    [0xE0 + Z.shiftr cp 12; 0x80 + Z.land (Z.shiftr cp 6) 63; 0x80 + Z.land cp 63]
  else [0xF0 + Z.shiftr cp 18; 0x80 + Z.land (Z.shiftr cp 12) 63;
        0x80 + Z.land (Z.shiftr cp 6) 63; 0x80 + Z.land cp 63].

(** Strict UTF-8 decoding succeeds on these byte strings: shortest form, no
    surrogate, at most U+10FFFF. *)
Fixpoint utf8_valid (s : string) : bool :=
  match s with
  | String.EmptyString => true
  | String.String a s1 =>
      let x := byte_val a in
      if x <? 0x80 then utf8_valid s1
      else match s1 with
      | String.EmptyString => false
      | String.String b s2 =>
          let y := byte_val b in
          if (0xC2 <=? x) && (x <? 0xE0) then is_cont b && utf8_valid s2
          else match s2 with
          | String.EmptyString => false
          | String.String c s3 =>
              if (0xE0 <=? x) && (x <? 0xF0) then
                is_cont b && is_cont c && negb ((x =? 0xE0) && (y <? 0xA0))
                && negb ((x =? 0xED) && (0xA0 <=? y)) && utf8_valid s3
              else match s3 with
              | String.EmptyString => false
              | String.String d s4 =>
                  (0xF0 <=? x) && (x <? 0xF5) && is_cont b && is_cont c && is_cont d
                  && negb ((x =? 0xF0) && (y <? 0x90)) && negb ((x =? 0xF4) && (0x90 <=? y))
                  && utf8_valid s4
              end
          end
      end
  end.

(** ** [json.dumps(value, sort_keys=True, separators=(",", ":"), ensure_ascii=False)] *)

Definition quote : ascii := val_byte 34.
Definition backslash : ascii := val_byte 92.

Definition hex4 (z : Z) : string := hex_string (be_bytes 2 z).

(** The escapes of the encoder: quote, backslash and the control characters. *)
Definition escape_char (c : ascii) : string :=
  let z := byte_val c in
  if z =? 34 then String.String backslash (String.String quote "")
  else if z =? 92 then String.String backslash (String.String backslash "")
  else if z =? 8 then String.String backslash "b"
  else if z =? 9 then String.String backslash "t"
  else if z =? 10 then String.String backslash "n"
  else if z =? 12 then String.String backslash "f"
  else if z =? 13 then String.String backslash "r"
  else if z <? 32 then String.String backslash ("u" +:+ hex4 z)
  else String.String c "".

Fixpoint escape (s : string) : string :=
  match s with
  | String.EmptyString => ""
  | String.String c s => escape_char c +:+ escape s
  end.

Definition dump_string (s : string) : string :=
  String.String quote (escape s +:+ String.String quote "").

(** Python refuses to print or read an integer of more than 4300 digits. *)
Definition max_str_digits : nat := 4300.
Definition dump_int (z : Z) : result exn string :=
  if Nat.ltb max_str_digits (String.length (dec_string (Z.abs z)))
  then Err (ValueError "Exceeds the limit for integer string conversion")
  else Ok (dec_string z).

Fixpoint join (sep : string) (l : list string) : string :=
  match l with
  | [] => ""
  | [x] => x
  | x :: l => x +:+ sep +:+ join sep l
  end.

(** Order of keys: code points, which is the order of their UTF-8 bytes. *)
Fixpoint insert_item {A} (x : string * A) (d : list (string * A)) : list (string * A) :=
  match d with
  | [] => [x]
  | y :: d' => if String.leb x.1 y.1 then x :: d else y :: insert_item x d'
  end.
(** [sorted(d.items())] of a dict: its keys are distinct. *)
Definition sort_items {A} (d : list (string * A)) : list (string * A) := foldr insert_item [] d.

Definition dump_pair (kv : string * string) : string := dump_string kv.1 +:+ ":" +:+ kv.2.

Fixpoint dumps (v : json) : result exn string :=
  match v with
  | JNull => Ok "null"
  | JBool b => Ok (if b then "true" else "false")
  | JInt z => dump_int z
  | JFloat f => if isfinite f then Ok (float_repr f)
                else Err (ValueError "Out of range float values are not JSON compliant")
  | JStr s => Ok (dump_string s)
  | JList l => items ← traverse dumps l; Ok ("[" +:+ join "," items +:+ "]")
  | JDict d =>
      items ← traverse (fun kv => s ← dumps kv.2; Ok (kv.1, s)) d;
      Ok ("{" +:+ join "," (map dump_pair (sort_items items)) +:+ "}")
  | JOpaque => Err (TypeError "Object is not JSON serializable")
  end.

(** ** [json.loads] *)

Definition is_ws (c : ascii) : bool :=
  let z := byte_val c in (z =? 32) || (z =? 9) || (z =? 10) || (z =? 13).
Fixpoint skip_ws (s : string) : string :=
  match s with
  | String.String c s' => if is_ws c then skip_ws s' else s
  | String.EmptyString => s
  end.

Definition hex_val (c : ascii) : option Z :=
  let z := byte_val c in
  if (48 <=? z) && (z <=? 57) then Some (z - 48)
  else if (65 <=? z) && (z <=? 70) then Some (z - 55)
  else if (97 <=? z) && (z <=? 102) then Some (z - 87)
  else None.

Definition read_hex4 (a b c d : ascii) : option Z :=
  x ← hex_val a; y ← hex_val b; z ← hex_val c; w ← hex_val d;
  Some (((x * 16 + y) * 16 + z) * 16 + w).

Definition is_high (z : Z) : bool := (0xD800 <=? z) && (z <=? 0xDBFF).
Definition is_low (z : Z) : bool := (0xDC00 <=? z) && (z <=? 0xDFFF).

Definition unescape (c : ascii) : option ascii :=
  let z := byte_val c in
  if (z =? 34) || (z =? 92) || (z =? 47) then Some c
  else if z =? 98 then Some (val_byte 8)
  else if z =? 102 then Some (val_byte 12)
  else if z =? 110 then Some (val_byte 10)
  else if z =? 114 then Some (val_byte 13)
  else if z =? 116 then Some (val_byte 9)
  else None.

Definition prepend (p : string) (r : option (string * string)) : option (string * string) :=
  match r with Some (t, rest) => Some (p +:+ t, rest) | None => None end.

(** The text after an opening quote, up to and past the closing one.  A high
    surrogate escape followed by a low one is a single code point. *)
Fixpoint scan_string (s : string) : option (string * string) :=
  match s with
  | String.EmptyString => None
  | String.String c s1 =>
      if byte_val c =? 34 then Some ("", s1)
      else if byte_val c <? 32 then None
      else if byte_val c =? 92 then
        match s1 with
        | String.String e s2 =>
            if byte_val e =? 117 then
              match s2 with
              | String.String h1 (String.String h2 (String.String h3 (String.String h4 s3))) =>
                  match read_hex4 h1 h2 h3 h4 with
                  | None => None
                  | Some cp =>
                      let alone := prepend (string_of_bytes (utf8 cp)) (scan_string s3) in
                      if is_high cp then
                        match s3 with
                        | String.String b (String.String u (String.String g1 (String.String g2
                            (String.String g3 (String.String g4 s4))))) =>
                            if (byte_val b =? 92) && (byte_val u =? 117) then
                              match read_hex4 g1 g2 g3 g4 with
                              | None => None
                              | Some lo =>
                                  if is_low lo then
                                    prepend (string_of_bytes (utf8 (0x10000
                                      + Z.lor (Z.shiftl (cp - 0xD800) 10) (lo - 0xDC00))))
                                      (scan_string s4)
                                  else alone
                              end
                            else alone
                        | _ => alone
                        end
                      else alone
                  end
              | _ => None
              end
            else match unescape e with
                 | Some e' => prepend (String.String e' "") (scan_string s2)
                 | None => None
                 end
        | String.EmptyString => None
        end
      else prepend (String.String c "") (scan_string s1)
  end.

Definition is_digit (c : ascii) : bool := (48 <=? byte_val c) && (byte_val c <=? 57).

Fixpoint span_digits (s : string) : string * string :=
  match s with
  | String.String c s' =>
      if is_digit c then let (ds, rest) := span_digits s' in (String.String c ds, rest)
      else ("", s)
  | String.EmptyString => ("", "")
  end.

Definition decimal_val (ds : string) : Z :=
  match NilEmpty.uint_of_string ds with Some u => Z.of_uint u | None => 0 end.

(** [float(text)] of [ds * 10 ^ k]. *)
Definition float_of_decimal (neg : bool) (ds : string) (k : Z) : float :=
  match decimal_val ds with
  | Zpos _ as c =>
      if 400 <? k + Z.of_nat (String.length ds) then
        (if 400 <? k + Z.of_nat (String.length (dec_string c)) then S754_infinity neg
         else let (p, q) := decimal_ratio c k in float_of_ratio neg p q)
      else if k + Z.of_nat (String.length ds) <? -400 then S754_zero neg
      else let (p, q) := decimal_ratio c k in float_of_ratio neg p q
  | _ => S754_zero neg
  end.

(** The fraction and exponent parts; [None] when the part is absent. *)
Definition scan_fraction (s : string) : option (string * string) :=
  match s with
  | String.String c s1 =>
      if byte_val c =? 46 then
        match span_digits s1 with ("", _) => None | (ds, rest) => Some (ds, rest) end
      else None
  | _ => None
  end.

Definition scan_exponent (s : string) : option (Z * string) :=
  match s with
  | String.String c s1 =>
      if (byte_val c =? 69) || (byte_val c =? 101) then
        let '(sign, s2) :=
          match s1 with
          | String.String d s2 =>
              if byte_val d =? 45 then (-1, s2)
              else if byte_val d =? 43 then (1, s2) else (1, s1)
          | _ => (1, s1)
          end in
        match span_digits s2 with
        | ("", _) => None
        | (ds, rest) => Some (sign * decimal_val ds, rest)
        end
      else None
  | _ => None
  end.

Definition malformed : exn := ValueError "malformed JSON".

(** A number after its optional minus sign. *)
Definition scan_number (neg : bool) (s : string) : result exn (json * string) :=
  let '(ds, rest) :=
    match s with
    | String.String c s1 =>
        if byte_val c =? 48 then (String.String c "", s1) else span_digits s
    | _ => ("", s)
    end in
  match ds with
  | String.EmptyString => Err malformed
  | _ =>
      match scan_fraction rest, scan_exponent rest with
      | Some (fs, rest1), _ =>
          match scan_exponent rest1 with
          | Some (e, rest2) =>
              Ok (JFloat (float_of_decimal neg (ds +:+ fs) (e - Z.of_nat (String.length fs))), rest2)
          | None =>
              Ok (JFloat (float_of_decimal neg (ds +:+ fs) (- Z.of_nat (String.length fs))), rest1)
          end
      | None, Some (e, rest1) => Ok (JFloat (float_of_decimal neg ds e), rest1)
      | None, None =>
          if Nat.ltb max_str_digits (String.length ds) then Err malformed
          else Ok (JInt (if neg then - decimal_val ds else decimal_val ds), rest)
      end
  end.

Fixpoint strip_prefix (p s : string) : option string :=
  match p, s with
  | String.EmptyString, _ => Some s
  | String.String a p, String.String b s => if decide (a = b) then strip_prefix p s else None
  | _, _ => None
  end.

(** The scanner, with [object_pairs_hook] and [parse_constant] as arguments.
    Two nested calls consume a character at least, so two units of fuel per
    character are enough. *)
Section Loads.
Variable pairs_hook : dict -> result exn dict.
Variable constant_hook : result exn json.

Fixpoint scan_value (fuel : nat) (s : string) : result exn (json * string) :=
match fuel with
| O => Err malformed
| S fuel =>
  match s with
  | String.EmptyString => Err malformed
  | String.String c rest =>
    let z := byte_val c in
    if z =? 34 then
      match scan_string rest with
      | Some (t, rest) => Ok (JStr t, rest)
      | None => Err malformed
      end
    else if z =? 123 then
      let s1 := skip_ws rest in
      match strip_prefix "}" s1 with
      | Some s2 => d ← pairs_hook []; Ok (JDict d, s2)
      | None =>
          r ← scan_members fuel s1;
          d ← pairs_hook r.1; Ok (JDict d, r.2)
      end
    else if z =? 91 then
      let s1 := skip_ws rest in
      match strip_prefix "]" s1 with
      | Some s2 => Ok (JList [], s2)
      | None => r ← scan_elements fuel s1; Ok (JList r.1, r.2)
      end
    else match strip_prefix "null" s with Some r => Ok (JNull, r) | None =>
    match strip_prefix "true" s with Some r => Ok (JBool true, r) | None =>
    match strip_prefix "false" s with Some r => Ok (JBool false, r) | None =>
    match strip_prefix "NaN" s with Some r => v ← constant_hook; Ok (v, r) | None =>
    match strip_prefix "Infinity" s with Some r => v ← constant_hook; Ok (v, r) | None =>
    match strip_prefix "-Infinity" s with Some r => v ← constant_hook; Ok (v, r) | None =>
      if z =? 45 then scan_number true rest else scan_number false s
    end end end end end end
  end
end
(** Elements up to the closing bracket. *)
with scan_elements (fuel : nat) (s : string) : result exn (list json * string) :=
match fuel with
| O => Err malformed
| S fuel =>
    r ← scan_value fuel s;
    let s1 := skip_ws r.2 in
    match strip_prefix "]" s1 with
    | Some s2 => Ok ([r.1], s2)
    | None =>
        match strip_prefix "," s1 with
        | Some s2 => q ← scan_elements fuel (skip_ws s2); Ok (r.1 :: q.1, q.2)
        | None => Err malformed
        end
    end
end
(** Members up to the closing brace. *)
with scan_members (fuel : nat) (s : string) : result exn (dict * string) :=
match fuel with
| O => Err malformed
| S fuel =>
    match strip_prefix (String.String quote "") s with
    | None => Err malformed
    | Some s1 =>
      match scan_string s1 with
      | None => Err malformed
      | Some (k, s2) =>
        match strip_prefix ":" (skip_ws s2) with
        | None => Err malformed
        | Some s3 =>
            r ← scan_value fuel (skip_ws s3);
            let s4 := skip_ws r.2 in
            match strip_prefix "}" s4 with
            | Some s5 => Ok ([(k, r.1)], s5)
            | None =>
                match strip_prefix "," s4 with
                | Some s5 => q ← scan_members fuel (skip_ws s5); Ok ((k, r.1) :: q.1, q.2)
                | None => Err malformed
                end
            end
        end
      end
    end
end.

Definition loads (text : string) : result exn json :=
r ← scan_value (2 * String.length text + 2) (skip_ws text);
match skip_ws r.2 with
| String.EmptyString => Ok r.1
| _ => Err malformed
end.
End Loads.

(** [bool(v)] *)
Definition truthy (v : json) : bool :=
  match v with
  | JNull => false
  | JBool b => b
  | JInt z => negb (z =? 0)
  | JFloat f => negb (bool_decide (float_cmp_Z f 0 = Some Eq))
  | JStr s => negb (bool_decide (s = ""))
  | JList l => negb (bool_decide (l = []))
  | JDict d => negb (bool_decide (d = []))
  | JOpaque => true
  end.
(** [v or {}] *)
Definition or_empty (v : json) : json := if truthy v then v else JDict [].
