(* ===== verification/JsonFacts.v ===== *)
(** * Facts about the JSON codec

    Keys sorted at every level ([norm]), the round trip
    [loads (dumps v) = norm v] for values without repeated keys, whose floats
    are read back from what [repr] writes, and the injectivity of the canonical
    encoding. *)

From S2P Require Import Prelude PyFloat Hashes Json.
From Stdlib Require Import SpecFloat DecimalString DecimalZ DecimalFacts.
Open Scope Z_scope.

Lemma append_nil_r (s : string) : s +:+ "" = s.
Proof. induction s as [|c s IH]; [done|]. change (String.String c (s +:+ "") = String.String c s). by rewrite IH. Qed.
Lemma append_assoc (s t u : string) : (s +:+ t) +:+ u = s +:+ (t +:+ u).
Proof. induction s as [|c s IH]; [done|]. change (String.String c ((s +:+ t) +:+ u) = String.String c (s +:+ (t +:+ u))). by rewrite IH. Qed.
Lemma append_cons (c : ascii) (s t : string) : String.String c s +:+ t = String.String c (s +:+ t).
Proof. done. Qed.
Lemma append_empty (s : string) : "" +:+ s = s.
Proof. done. Qed.

Lemma byte_val_range c : 0 <= byte_val c < 256.
Proof.
  unfold byte_val. pose proof (N_ascii_bounded c). lia.
Qed.
Lemma val_byte_val c : val_byte (byte_val c) = c.
Proof. unfold val_byte, byte_val. rewrite N2Z.id. apply ascii_N_embedding. Qed.
Lemma byte_val_inj c d : byte_val c = byte_val d -> c = d.
Proof. intros H. by rewrite <- (val_byte_val c), <- (val_byte_val d), H. Qed.

Lemma strip_prefix_app p s : strip_prefix p (p +:+ s) = Some s.
Proof.
  induction p as [|c p IH]; [by destruct s|].
  rewrite append_cons. simpl. destruct (decide (c = c)); [done|congruence].
Qed.

(** ** Sorting keys *)

Lemma insert_item_map {A B} (f : A -> B) x (d : list (string * A)) :
  insert_item (x.1, f x.2) (map (fun kv => (kv.1, f kv.2)) d)
  = map (fun kv => (kv.1, f kv.2)) (insert_item x d).
Proof. induction d as [|y d IH]; simpl; [done|]. destruct (String.leb x.1 y.1); simpl; congruence. Qed.

Lemma sort_items_map {A B} (f : A -> B) (d : list (string * A)) :
  sort_items (map (fun kv => (kv.1, f kv.2)) d) = map (fun kv => (kv.1, f kv.2)) (sort_items d).
Proof.
  induction d as [|x d IH]; [done|].
  change (insert_item (x.1, f x.2) (sort_items (map (fun kv => (kv.1, f kv.2)) d))
          = map (fun kv => (kv.1, f kv.2)) (insert_item x (sort_items d))).
  by rewrite IH, insert_item_map.
Qed.

Lemma insert_item_perm {A} (x : string * A) d : insert_item x d ≡ₚ x :: d.
Proof.
  induction d as [|y d IH]; simpl; [done|]. destruct (String.leb x.1 y.1); [done|].
  rewrite IH. apply Permutation_swap.
Qed.
Lemma sort_items_perm {A} (d : list (string * A)) : sort_items d ≡ₚ d.
Proof.
  induction d as [|x d IH]; [done|].
  change (insert_item x (sort_items d) ≡ₚ x :: d). by rewrite insert_item_perm, IH.
Qed.

Fixpoint norm (v : json) : json :=
  match v with
  | JList l => JList (map norm l)
  | JDict d => JDict (sort_items (map (fun kv => (kv.1, norm kv.2)) d))
  | _ => v
  end.

(** The number [json.loads] finds at the start of a text. *)
Definition scan_signed (s : string) : result exn (json * string) :=
  match s with
  | String.EmptyString => Err malformed
  | String.String c t => if byte_val c =? 45 then scan_number true t else scan_number false s
  end.
(** What [repr] writes for a finite float is read back as that float: Python's
    documentation promises it of each of them, this decides it of one. *)
Definition float_reads (f : float) : bool :=
  match scan_signed (float_repr f) with
  | Ok (JFloat g, String.EmptyString) => bool_decide (g = f)
  | _ => false
  end.

(** A value Python may hold and JSON can write: no foreign object, no key
    twice in a dict, and floats that are finite and read back. *)
#[warnings="-register-all"]
Inductive clean : json -> Prop :=
| clean_float f : float_reads f = true -> clean (JFloat f)
| clean_null : clean JNull
| clean_bool b : clean (JBool b)
| clean_int z : clean (JInt z)
| clean_str s : clean (JStr s)
| clean_list l : Forall clean l -> clean (JList l)
| clean_dict d : NoDup (keys d) -> Forall (fun kv => clean kv.2) d -> clean (JDict d).

(** ** Strings *)

Ltac byte_cases c :=
  destruct c as [[] [] [] [] [] [] [] []].

Lemma scan_escape_char c t :
  scan_string (escape_char c +:+ t) = prepend (String.String c "") (scan_string t).
Proof. byte_cases c; reflexivity. Qed.

Lemma scan_escape s rest :
  scan_string (escape s +:+ String.String quote rest) = Some (s, rest).
Proof.
  induction s as [|c s IH]; [done|].
  change (escape (String.String c s)) with (escape_char c +:+ escape s).
  by rewrite append_assoc, scan_escape_char, IH.
Qed.

(** ** Integers *)

Definition number_end (s : string) : Prop :=
  match s with
  | String.EmptyString => True
  | String.String c _ => is_digit c = false /\ byte_val c <> 46 /\ byte_val c <> 69 /\ byte_val c <> 101
  end.

Lemma span_digits_app u rest :
  number_end rest ->
  span_digits (NilEmpty.string_of_uint u +:+ rest) = (NilEmpty.string_of_uint u, rest).
Proof.
  intros Hr. induction u; cbn [NilEmpty.string_of_uint];
    try (rewrite append_cons; cbn [span_digits is_digit]; simpl; by rewrite IHu).
  rewrite append_empty. destruct rest as [|c rest]; [done|]. simpl. by destruct Hr as [-> _].
Qed.

Lemma scan_fraction_end s : number_end s -> scan_fraction s = None.
Proof.
  destruct s as [|c s]; [done|]. intros (_ & H & _). simpl.
  by apply Z.eqb_neq in H as ->.
Qed.
Lemma scan_exponent_end s : number_end s -> scan_exponent s = None.
Proof.
  destruct s as [|c s]; [done|]. intros (_ & _ & H1 & H2). simpl.
  apply Z.eqb_neq in H1 as ->. by apply Z.eqb_neq in H2 as ->.
Qed.

(** ** Floats *)

Lemma span_digits_rest s rest :
  number_end rest -> span_digits (s +:+ rest) = ((span_digits s).1, (span_digits s).2 +:+ rest).
Proof.
  intros Hr. induction s as [|c s IH]; [destruct rest as [|c rest]; [done|]; simpl; by destruct Hr as [-> _]|].
  rewrite append_cons. cbn [span_digits]. destruct (is_digit c); [|done]. rewrite IH. by destruct (span_digits s).
Qed.
Lemma scan_fraction_rest s fs r rest :
  number_end rest -> scan_fraction s = Some (fs, r) -> scan_fraction (s +:+ rest) = Some (fs, r +:+ rest).
Proof.
  intros Hr. destruct s as [|c s]; [done|]. rewrite append_cons. cbn [scan_fraction].
  destruct (_ =? _); [|done]. rewrite span_digits_rest by done. destruct (span_digits s) as [ds r0]. cbn [fst snd].
  destruct ds; [done|]. by intros [= <- <-].
Qed.
(** The digits of an exponent are there before the text ends. *)
Lemma scan_exponent_rest s e r rest :
  number_end rest -> scan_exponent s = Some (e, r) -> scan_exponent (s +:+ rest) = Some (e, r +:+ rest).
Proof.
  intros Hr. destruct s as [|c s]; [done|]. rewrite append_cons. cbn [scan_exponent].
  destruct (_ || _); [|done]. destruct s as [|d s]; [done|]. rewrite append_cons.
  set (p := if byte_val d =? 45 then _ else _). set (q := if byte_val d =? 45 then _ else _).
  assert (Hq : q = (p.1, p.2 +:+ rest)) by (unfold p, q; repeat case_match; done). rewrite Hq. clearbody p. clear Hq q.
  destruct p as [sign t]. cbn [fst snd]. rewrite span_digits_rest by done. destruct (span_digits t) as [ds r0]. cbn [fst snd].
  destruct ds; [done|]. by intros [= <- <-].
Qed.
Lemma scan_fraction_none s e r rest :
  scan_fraction s = None -> scan_exponent s = Some (e, r) -> scan_fraction (s +:+ rest) = None.
Proof.
  destruct s as [|c s]; [done|]. rewrite append_cons. cbn [scan_fraction scan_exponent]. intros _.
  destruct (byte_val c =? 46) eqn:E; [|done]. apply Z.eqb_eq in E. by rewrite E.
Qed.
Lemma scan_number_rest neg s g rest :
  number_end rest -> scan_number neg s = Ok (JFloat g, "") -> scan_number neg (s +:+ rest) = Ok (JFloat g, rest).
Proof.
  intros Hr. destruct s as [|c s]; [done|]. unfold scan_number. rewrite append_cons.
  set (p := if byte_val c =? 48 then _ else _). set (q := if byte_val c =? 48 then _ else _).
  assert (Hq : q = (p.1, p.2 +:+ rest)).
  { unfold p, q. case_match; [done|]. by rewrite <- (span_digits_rest (String.String c s)). }
  rewrite Hq. clearbody p. clear Hq q. destruct p as [[|d ds] t]; cbn [fst snd]; [done|].
  destruct (scan_fraction t) as [[fs r1]|] eqn:Ef.
  - rewrite (scan_fraction_rest _ _ _ _ Hr Ef). destruct (scan_exponent r1) as [[e r2]|] eqn:Ee.
    + rewrite (scan_exponent_rest _ _ _ _ Hr Ee). by intros [= -> ->].
    + intros [= -> ->]. by rewrite append_empty, (scan_exponent_end _ Hr).
  - destruct (scan_exponent t) as [[e r2]|] eqn:Ee; [|by case_match].
    rewrite (scan_fraction_none _ _ _ _ Ef Ee), (scan_exponent_rest _ _ _ _ Hr Ee). by intros [= -> ->].
Qed.
(** A number starts with a digit. *)
Lemma scan_number_start neg s x : scan_number neg s = Ok x -> exists c t, s = String.String c t /\ is_digit c = true.
Proof.
  destruct s as [|c s]; [done|]. intros H. exists c, s. split; [done|]. unfold scan_number in H.
  destruct (byte_val c =? 48) eqn:E; [apply Z.eqb_eq in E; unfold is_digit; by rewrite E|].
  cbn [span_digits] in H. by destruct (is_digit c).
Qed.

Lemma float_reads_spec f :
  float_reads f = true -> scan_signed (float_repr f) = Ok (JFloat f, "").
Proof.
  unfold float_reads. destruct (scan_signed _) as [[[| | |g| | | |] [|]]|]; try done. by intros ->%bool_decide_eq_true_1.
Qed.
(** The text is that of a number, with or without a sign. *)
Lemma float_text f : float_reads f = true ->
  (exists c t, float_repr f = String.String c t /\ is_digit c = true /\ scan_number false (float_repr f) = Ok (JFloat f, ""))
  \/ (exists c t, float_repr f = String.String (val_byte 45) (String.String c t) /\ is_digit c = true
        /\ scan_number true (String.String c t) = Ok (JFloat f, "")).
Proof.
  intros H%float_reads_spec. unfold scan_signed in H. destruct (float_repr f) as [|c t] eqn:Et; [done|].
  destruct (byte_val c =? 45) eqn:E.
  - right. apply Z.eqb_eq in E. destruct (scan_number_start _ _ _ H) as (d & t' & -> & Hd). exists d, t'.
    split; [|done]. f_equal. by apply byte_val_inj.
  - left. destruct (scan_number_start _ _ _ H) as (d & t' & [= <- <-] & Hd). by exists c, t.
Qed.

Lemma decimal_val_string u : decimal_val (NilEmpty.string_of_uint u) = Z.of_uint u.
Proof. unfold decimal_val. by rewrite NilEmpty.usu. Qed.

(** The digits of a positive number: not empty, no leading zero. *)
Lemma to_uint_shape p :
  exists u, Pos.to_uint p = u /\ Z.of_uint u = Zpos p /\ u <> Decimal.Nil
            /\ (forall v, u <> Decimal.D0 v).
Proof.
  exists (Pos.to_uint p). split; [done|]. split; [exact (DecimalZ.of_to (Zpos p))|].
  split; [apply DecimalPos.Unsigned.to_uint_nonnil|]. intros v Hv.
  pose proof (DecimalPos.Unsigned.to_of (Pos.to_uint p)) as H.
  rewrite DecimalPos.Unsigned.of_to in H. change (N.to_uint (N.pos p)) with (Pos.to_uint p) in H.
  unfold Decimal.unorm in H. destruct (Decimal.nzhead (Pos.to_uint p)) eqn:E;
    [by apply DecimalPos.Unsigned.to_uint_nonzero in H|..];
    rewrite H in Hv; try discriminate.
  by apply DecimalFacts.nzhead_nonzero in E.
Qed.

Lemma dec_string_pos p :
  exists u, dec_string (Zpos p) = NilEmpty.string_of_uint u /\ Z.of_uint u = Zpos p
            /\ u <> Decimal.Nil /\ (forall v, u <> Decimal.D0 v).
Proof.
  destruct (to_uint_shape p) as (u & Hu & Hv & Hn & H0).
  exists u. split; [|done]. unfold dec_string, NilZero.string_of_int, Z.to_int.
  rewrite Hu. unfold NilZero.string_of_uint. by destruct u.
Qed.

(** Scanning a number whose text is all of its digits. *)
Lemma scan_number_span neg c s ds rest :
  byte_val c <> 48 -> span_digits (String.String c s) = (ds, rest) -> ds <> "" ->
  number_end rest -> (String.length ds <= max_str_digits)%nat ->
  scan_number neg (String.String c s)
  = Ok (JInt (if neg then - decimal_val ds else decimal_val ds), rest).
Proof.
  intros Hc Hs Hne Hr Hlen. unfold scan_number.
  rewrite Hs. apply Z.eqb_neq in Hc as ->.
  rewrite scan_fraction_end, scan_exponent_end by done.
  apply Nat.ltb_ge in Hlen as ->. by destruct ds.
Qed.

Lemma scan_number_pos neg p rest :
  number_end rest ->
  (String.length (dec_string (Zpos p)) <= max_str_digits)%nat ->
  scan_number neg (dec_string (Zpos p) +:+ rest)
  = Ok (JInt (if neg then Zneg p else Zpos p), rest).
Proof.
  intros Hr Hlen. destruct (dec_string_pos p) as (u & Hs & Hv & Hn & H0). rewrite Hs in *.
  pose proof (span_digits_app u rest Hr) as Hspan.
  assert (Hval : decimal_val (NilEmpty.string_of_uint u) = Zpos p)
    by (by rewrite decimal_val_string).
  destruct u; try done; try (by destruct (H0 u));
    cbn [NilEmpty.string_of_uint] in Hspan |- *; rewrite append_cons in Hspan |- *;
    (erewrite scan_number_span; [|..|exact Hspan| | |]; [|done..|exact Hlen]);
    cbn [NilEmpty.string_of_uint] in Hval; rewrite Hval; by destruct neg.
Qed.

Lemma dec_string_neg p : dec_string (Zneg p) = String.String (val_byte 45) (dec_string (Zpos p)).
Proof. reflexivity. Qed.

Lemma dec_string_pos_start p :
  exists c t, dec_string (Zpos p) = String.String c t /\ is_digit c = true.
Proof.
  destruct (dec_string_pos p) as (u & Hu & _ & Hn & _). rewrite Hu.
  destruct u; try done; by eexists _, _.
Qed.

Lemma dump_int_start z t :
  dump_int z = Ok t ->
  exists c t', t = String.String c t' /\ (is_digit c = true \/ c = val_byte 45).
Proof.
  unfold dump_int. destruct (Nat.ltb _ _); [discriminate|]. intros [= <-].
  destruct z as [|p|p].
  - by eexists _, _; split; [done|left].
  - destruct (dec_string_pos_start p) as (c & t & -> & Hc). by eexists _, _; split; [done|left].
  - eexists _, _; split; [apply dec_string_neg|by right].
Qed.

(** ** The scanner reads back what the encoder writes *)

(** A text that starts with neither white space nor a closing bracket. *)
Definition value_start (t : string) : Prop :=
  match t with
  | String.EmptyString => False
  | String.String c _ => is_ws c = false /\ byte_val c <> 93 /\ byte_val c <> 125
  end.

Lemma is_digit_start c : is_digit c = true -> is_ws c = false /\ byte_val c <> 93 /\ byte_val c <> 125.
Proof. byte_cases c; intros H; try discriminate H; repeat split; discriminate. Qed.

Lemma dumps_start v t : clean v -> dumps v = Ok t -> value_start t.
Proof.
  intros Hc. destruct Hc as [f Hf| |[]|z|s|l _|d _ _]; cbn [dumps]; intros H;
    try (injection H as <-; done); try (ok_inv; done).
  { destruct (isfinite f); [|done]. injection H as <-.
    destruct (float_text f Hf) as [(c & t' & -> & Hc & _)|(c & t' & -> & _)]; [by apply is_digit_start|done]. }
  destruct (dump_int_start z t H) as (c & t' & -> & [Hc| ->]); [by apply is_digit_start|done].
Qed.

Lemma skip_ws_start t s : value_start t -> skip_ws (t +:+ s) = t +:+ s.
Proof. destruct t as [|c t]; [done|]. rewrite append_cons. simpl. by intros (-> & _). Qed.

Lemma strip_bracket_start c t s :
  byte_val c = 93 \/ byte_val c = 125 ->
  value_start t -> strip_prefix (String.String c "") (t +:+ s) = None.
Proof.
  destruct t as [|c' t]; [done|]. rewrite append_cons. simpl. intros Hc (_ & H1 & H2).
  destruct (decide (c = c')) as [->|]; [|done]. destruct Hc; congruence.
Qed.

Lemma length_cons c s : String.length (String.String c s) = S (String.length s).
Proof. done. Qed.

Lemma join_cons2 sep (x y : string) l : join sep (x :: y :: l) = x +:+ sep +:+ join sep (y :: l).
Proof. done. Qed.

Lemma value_start_app t s : value_start t -> value_start (t +:+ s).
Proof. by destruct t. Qed.
Lemma join_start sep t ts : value_start t -> value_start (join sep (t :: ts)).
Proof. destruct ts; [done|]. rewrite join_cons2. apply value_start_app. Qed.

Section RoundTrip.
Variable pairs_hook : dict -> result exn dict.
Variable constant_hook : result exn json.
Hypothesis hook_ok : forall d, NoDup (keys d) -> pairs_hook d = Ok d.

Abbreviation scan := (scan_value pairs_hook constant_hook).
Abbreviation elements := (scan_elements pairs_hook constant_hook).
Abbreviation members := (scan_members pairs_hook constant_hook).

(** [v] is written as [t] and [t] is read back. *)
Definition reads (v : json) (t : string) : Prop :=
value_start t /\
forall n rest, number_end rest -> (2 * String.length t <= n)%nat ->
  scan n (t +:+ rest) = Ok (norm v, rest).

Lemma elements_ok l ts n rest :
Forall2 reads l ts -> l <> [] ->
(2 * String.length (join "," ts) + 1 <= n)%nat ->
elements n (join "," ts +:+ "]" +:+ rest) = Ok (map norm l, rest).
Proof.
intros H. revert n. induction H as [|v t l ts [Hs Hv] Hl IH]; intros n Hne Hn; [done|].
destruct n as [|n]; [lia|]. cbn [scan_elements]. destruct ts as [|t' ts].
- inversion Hl; subst. simpl join in *. rewrite Hv by (try lia; done).
  cbn [mbind result_bind fst snd]. change (skip_ws ("]" +:+ ?x)) with ("]" +:+ x).
  by rewrite strip_prefix_app.
- destruct l as [|v' l]; [by inversion Hl|].
  rewrite join_cons2, !append_assoc in *.
  rewrite !length_string_app in Hn. change (String.length ",") with 1%nat in Hn.
  rewrite Hv by (try lia; done). cbn [mbind result_bind fst snd].
  change (skip_ws ("," +:+ ?x)) with ("," +:+ x).
  inversion Hl as [|? ? ? ? [Hs' _]]; subst.
  assert (Hskip : skip_ws (join "," (t' :: ts) +:+ "]" +:+ rest)
                  = join "," (t' :: ts) +:+ "]" +:+ rest).
  { destruct ts as [|t2 ts]; [by apply skip_ws_start|].
    rewrite join_cons2, !append_assoc. by apply skip_ws_start. }
  change (strip_prefix "]" ("," +:+ ?x)) with (@None string).
  rewrite strip_prefix_app, Hskip, IH by (try lia; done). done.
Qed.

(** Members carry their key, value and written value. *)
Abbreviation entry := (string * (json * string))%type.
Definition member_text (e : entry) : string := dump_pair (e.1, e.2.2).
Definition member_pair (e : entry) : string * json := (e.1, norm e.2.1).

Lemma member_text_eq e rest :
member_text e +:+ rest
= String.String quote (escape e.1 +:+ String.String quote (":" +:+ e.2.2 +:+ rest)).
Proof.
unfold member_text, dump_pair, dump_string. cbn [fst snd].
by rewrite !append_assoc, append_cons, !append_assoc, append_cons, append_empty.
Qed.

Lemma member_text_length e :
(String.length (member_text e) >= String.length e.2.2 + 3)%nat.
Proof.
rewrite <- (append_nil_r (member_text e)), member_text_eq, append_nil_r.
rewrite length_cons, length_string_app, length_cons, length_string_app.
simpl. lia.
Qed.

Lemma members_ok (es : list entry) n rest :
Forall (fun e => reads e.2.1 e.2.2) es -> es <> [] ->
(2 * String.length (join "," (map member_text es)) + 1 <= n)%nat ->
members n (join "," (map member_text es) +:+ "}" +:+ rest) = Ok (map member_pair es, rest).
Proof.
intros H. revert n. induction H as [|e es [Hs Hv] Hl IH]; intros n Hne Hn; [done|].
destruct n as [|n]; [lia|]. pose proof (member_text_length e) as Hlen.
cbn [scan_members]. destruct es as [|e' es].
- simpl join in *. rewrite member_text_eq.
  change (strip_prefix (String.String quote "") (String.String quote ?x)) with (Some x).
  cbv beta iota. rewrite scan_escape. cbv beta iota.
  change (skip_ws (":" +:+ ?x)) with (":" +:+ x).
  rewrite strip_prefix_app, skip_ws_start by done.
  rewrite Hv by (try lia; done).
  cbn [mbind result_bind fst snd]. change (skip_ws ("}" +:+ ?x)) with ("}" +:+ x).
  by rewrite strip_prefix_app.
- rewrite !map_cons, join_cons2, !append_assoc, member_text_eq.
  rewrite !map_cons, join_cons2, !length_string_app in Hn. change (String.length ",") with 1%nat in Hn.
  change (strip_prefix (String.String quote "") (String.String quote ?x)) with (Some x).
  cbv beta iota. rewrite scan_escape. cbv beta iota.
  change (skip_ws (":" +:+ ?x)) with (":" +:+ x).
  rewrite strip_prefix_app, skip_ws_start by done.
  rewrite Hv by (try lia; done). cbn [mbind result_bind fst snd].
  change (skip_ws ("," +:+ ?x)) with ("," +:+ x).
  change (strip_prefix "}" ("," +:+ ?x)) with (@None string).
  rewrite strip_prefix_app.
  assert (Hskip : skip_ws (join "," (member_text e' :: map member_text es) +:+ "}" +:+ rest)
                  = join "," (member_text e' :: map member_text es) +:+ "}" +:+ rest).
  { destruct es as [|e2 es];
      [change (join "," (member_text e' :: map member_text [])) with (member_text e')
      |rewrite map_cons, join_cons2, !append_assoc];
    by rewrite member_text_eq. }
  rewrite Hskip. change (member_text e' :: map member_text es) with (map member_text (e' :: es)).
  rewrite IH by (try done; simpl in *; lia). done.
Qed.

(** The encoder's items, paired with the values they come from. *)
Lemma dumped_entries (d : dict) (items : list (string * string)) :
Forall2 (fun kv it => (s ← dumps kv.2; Ok (kv.1, s)) = Ok it) d items ->
exists es : list entry,
  d = map (fun e => (e.1, e.2.1)) es /\ items = map (fun e => (e.1, e.2.2)) es
  /\ Forall (fun e => dumps e.2.1 = Ok e.2.2) es.
Proof.
induction 1 as [|[k v] it d items H _ (es & -> & -> & Hes)]; [by exists []|].
cbn [fst snd] in H. ok_inv. exists ((k, (v, v0)) :: es).
split; [done|]. split; [done|]. by constructor.
Qed.

Lemma string_leb_total x y : String.leb x y = false -> String.leb y x = true.
Proof. intros H. by destruct (String.leb_total x y) as [H'|H']; [congruence|]. Qed.

Lemma scan_digit n c s :
is_digit c = true -> scan (S n) (String.String c s) = scan_number false (String.String c s).
Proof. byte_cases c; intros H; try discriminate H; reflexivity. Qed.
Lemma scan_minus n c s :
is_digit c = true ->
scan (S n) (String.String (val_byte 45) (String.String c s))
= scan_number true (String.String c s).
Proof. byte_cases c; intros H; try discriminate H; reflexivity. Qed.

(** A dumped integer is read back. *)
Lemma scan_int z t n rest :
dump_int z = Ok t -> number_end rest -> scan (S n) (t +:+ rest) = Ok (JInt z, rest).
Proof.
unfold dump_int. destruct (Nat.ltb _ _) eqn:Hlen; [discriminate|].
intros [= <-] Hr. apply Nat.ltb_ge in Hlen. destruct z as [|p|p].
- change (dec_string 0) with "0". rewrite append_cons, append_empty, scan_digit by done.
  unfold scan_number. simpl Z.eqb. cbv match.
  by rewrite scan_fraction_end, scan_exponent_end.
- simpl Z.abs in Hlen. rewrite <- (scan_number_pos false p rest Hr Hlen).
  destruct (dec_string_pos_start p) as (c & t & -> & Hc). by apply scan_digit.
- simpl Z.abs in Hlen. rewrite dec_string_neg.
  rewrite <- (scan_number_pos true p rest Hr Hlen).
  destruct (dec_string_pos_start p) as (c & t & -> & Hc). by apply scan_minus.
Qed.

(** So is a float. *)
Lemma scan_float f n rest :
float_reads f = true -> number_end rest -> scan (S n) (float_repr f +:+ rest) = Ok (JFloat f, rest).
Proof.
intros Hf Hr. destruct (float_text f Hf) as [(c & t & Et & Hc & Hs)|(c & t & Et & Hc & Hs)]; rewrite Et in *.
- rewrite append_cons, scan_digit by done. by rewrite <- append_cons, (scan_number_rest _ _ _ _ Hr Hs).
- rewrite !append_cons, scan_minus by done. by rewrite <- append_cons, (scan_number_rest _ _ _ _ Hr Hs).
Qed.

Lemma keys_entries (es : list entry) f :
keys (map (fun e : entry => (e.1, f e)) es) = es.*1.
Proof. unfold keys. rewrite <- list_fmap_compose. by apply list_fmap_ext. Qed.

Lemma norm_entries (es : list entry) :
norm (JDict (map (fun e => (e.1, e.2.1)) es)) = JDict (map member_pair (sort_items es)).
Proof.
cbn [norm]. rewrite map_map. f_equal.
exact (sort_items_map (fun p : json * string => norm p.1) es).
Qed.

Lemma text_entries (es : list entry) :
map dump_pair (sort_items (map (fun e => (e.1, e.2.2)) es)) = map member_text (sort_items es).
Proof.
rewrite (sort_items_map (fun p : json * string => p.2) es), map_map. reflexivity.
Qed.

Lemma reads_list l t :
(forall v t, v ∈ l -> dumps v = Ok t -> reads v t) ->
dumps (JList l) = Ok t -> reads (JList l) t.
Proof.
cbn [dumps]. intros Hl Ht. ok_inv. rename v into ts.
assert (Hts : Forall2 reads l ts).
{ apply traverse_ok in Hv. clear -Hl Hv.
  induction Hv as [|x y l ts Hx _ IH]; constructor.
  - apply Hl; [set_solver|done].
  - apply IH. set_solver. }
split; [done|]. intros n rest Hr Hn.
rewrite !length_string_app in Hn. change (String.length "[") with 1%nat in Hn.
change (String.length "]") with 1%nat in Hn.
destruct n as [|n]; [lia|]. rewrite !append_assoc. destruct l as [|x l].
- inversion Hts; subst. reflexivity.
- inversion Hts as [|? y ? ts' Hx]; subst.
  change (scan (S n) ("[" +:+ ?s)) with
    (match strip_prefix "]" (skip_ws s) with
     | Some s2 => Ok (JList [], s2)
     | None => r ← elements n (skip_ws s); Ok (JList r.1, r.2) end).
  pose proof (join_start "," y ts' (proj1 Hx)) as Hstart.
  rewrite skip_ws_start, strip_bracket_start by (by left || done).
  by rewrite (elements_ok (x :: l) (y :: ts')) by (done || lia).
Qed.

Lemma reads_dict d t :
NoDup (keys d) ->
(forall kv t, kv ∈ d -> dumps kv.2 = Ok t -> reads kv.2 t) ->
dumps (JDict d) = Ok t -> reads (JDict d) t.
Proof.
cbn [dumps]. intros Hnd Hd Ht. ok_inv. rename v into items.
apply traverse_ok, dumped_entries in Hv as (es & -> & -> & Hes).
rewrite keys_entries in Hnd. rewrite text_entries. 
assert (Hread : Forall (fun e => reads e.2.1 e.2.2) (sort_items es)).
{ rewrite sort_items_perm. rewrite Forall_forall in *. intros e He.
  apply (Hd (e.1, e.2.1)); [|by apply Hes]. 
  exact (list_elem_of_fmap_2 (fun e : entry => (e.1, e.2.1)) _ _ He). }
assert (Hnd' : NoDup (keys (map member_pair (sort_items es)))).
{ unfold member_pair. rewrite keys_entries. by rewrite sort_items_perm. }
split; [done|]. intros n rest Hr Hn. rewrite norm_entries.
rewrite !length_string_app in Hn. change (String.length "{") with 1%nat in Hn.
change (String.length "}") with 1%nat in Hn.
destruct n as [|n]; [lia|]. rewrite !append_assoc.
change (scan (S n) ("{" +:+ ?s)) with
  (match strip_prefix "}" (skip_ws s) with
   | Some s2 => d ← pairs_hook []; Ok (JDict d, s2)
   | None => r ← members n (skip_ws s); d ← pairs_hook r.1; Ok (JDict d, r.2) end).
destruct (sort_items es) as [|e es'] eqn:Ees.
- cbn [map join]. rewrite append_empty.
  change (skip_ws ("}" +:+ ?x)) with ("}" +:+ x). rewrite strip_prefix_app.
  rewrite hook_ok; [done|constructor].
- assert (Hstart : value_start (join "," (map member_text (e :: es')))).
  { simpl map. apply join_start.
    rewrite <- (append_nil_r (member_text e)), member_text_eq. done. }
  rewrite skip_ws_start, strip_bracket_start by (by right || done).
  rewrite members_ok by (done || lia). simpl. by rewrite hook_ok.
Qed.

Lemma reads_dumps v t : clean v -> dumps v = Ok t -> reads v t.
Proof.
revert t. induction v as [|b|z|f|s|l IH|d IH|] using json_ind'; intros t Hc Ht;
  inversion Hc as [? Hf| |?|?|?|? Hcl|? Hnd Hcd]; subst.
- injection Ht as <-. split; [done|]. intros [|n] rest _ Hn; [simpl in Hn; lia|done].
- injection Ht as <-. split; [by destruct b|].
  intros [|n] rest _ Hn; [destruct b; simpl in Hn; lia|by destruct b].
- split; [by eapply dumps_start|]. intros [|n] rest Hr Hn; [|by apply scan_int].
  destruct (dump_int_start z t Ht) as (c & t' & -> & _). simpl in Hn. lia.
- split; [by eapply dumps_start|]. cbn [dumps] in Ht. destruct (isfinite f); [|done]. injection Ht as <-.
  intros [|n] rest Hr Hn; [|by apply scan_float].
  destruct (float_text f Hf) as [(c & t' & Et & _)|(c & t' & Et & _)]; rewrite Et in Hn; simpl in Hn; lia.
- injection Ht as <-. split; [done|]. intros [|n] rest Hr Hn; [simpl in Hn; lia|].
  unfold dump_string. rewrite append_cons, append_assoc, append_cons, append_empty.
  change (scan (S n) (String.String quote ?x)) with
    (match scan_string x with Some (t, rest) => Ok (JStr t, rest) | None => Err malformed end).
  by rewrite scan_escape.
- apply reads_list; [|done]. rewrite Forall_forall in *. auto.
- apply reads_dict; [done| |done]. rewrite Forall_forall in *. auto.
Qed.

(** The round trip. *)
Lemma loads_dumps v t :
clean v -> dumps v = Ok t -> loads pairs_hook constant_hook t = Ok (norm v).
Proof.
intros Hc Ht. destruct (reads_dumps v t Hc Ht) as [Hs Hr]. unfold loads.
rewrite <- (append_nil_r t), skip_ws_start, append_nil_r by done.
rewrite <- (append_nil_r t) at 2. rewrite Hr by (done || lia). done.
Qed.
End RoundTrip.

(** The encoding determines the value up to the order of keys. *)
Lemma dumps_inj v w t :
  clean v -> clean w -> dumps v = Ok t -> dumps w = Ok t -> norm v = norm w.
Proof.
  intros Hv Hw Hdv Hdw.
  pose proof (loads_dumps Ok (Err malformed) (fun _ _ => eq_refl) v t Hv Hdv) as H1.
  pose proof (loads_dumps Ok (Err malformed) (fun _ _ => eq_refl) w t Hw Hdw) as H2.
  congruence.
Qed.
