(* ===== verification/Protocol6.v ===== *)
(** * Protocol 6 control messages

    Models app/protocol6.py (worker/worker/protocol6.py is the same file): the
    closed message shapes, the canonical JSON bytes that body and report hashes
    are taken over, the decoding of a raw control and the validation of a
    message.  A [uuid.UUID] is represented by its canonical text [str(u)]. *)

From S2P Require Import Prelude PyFloat Hashes Json JsonFacts.
From Stdlib Require Import SpecFloat.
Open Scope Z_scope.

Definition MAX_HELLO_BYTES : Z := 2 * 1024 * 1024.
Definition MAX_PARAMETER_CONTROL_BYTES : Z := 1024 * 1024.
Definition MAX_WORKER_CONTROL_BYTES : Z := 16 * 1024.
Definition MAX_COUNTER : Z := 2 ^ 63 - 1.

(** Closed fields of the message catalogue: type, required and optional
    fields, as comma separated names. *)
Definition SHAPE_ROWS : list (string * string * string) := [
  ("open_session",
   "attempt_id,body_hash,command_id,command_sequence,control_generation,grant_nonce,incarnation,lease_expires_at,lease_id,model_id,owner_epoch,params,region,session_id,type,work_budget,worker_id",
   "");
  ("update_session",
   "attempt_id,body_hash,command_id,command_sequence,control_generation,grant_nonce,incarnation,lease_expires_at,lease_id,model_id,owner_epoch,params,params_revision,region,session_id,type,worker_id",
   "");
  ("close_session",
   "attempt_id,body_hash,command_id,command_sequence,control_generation,grant_nonce,incarnation,lease_expires_at,lease_id,owner_epoch,region,session_id,type,worker_id",
   "");
  ("dispatch_job",
   "body_hash,command_id,command_sequence,dispatch_sequence,dispatch_token,grant_nonce,incarnation,job_id,lease_expires_at,lease_id,model_id,owner_epoch,params,region,type,upload,work_budget,worker_id",
   "input,thumb_upload");
  ("cancel_job",
   "body_hash,command_id,command_sequence,dispatch_sequence,dispatch_token,grant_nonce,incarnation,job_id,lease_expires_at,lease_id,owner_epoch,region,type,worker_id",
   "");
  ("pause_job",
   "body_hash,command_id,command_sequence,dispatch_sequence,dispatch_token,grant_nonce,incarnation,job_id,lease_expires_at,lease_id,owner_epoch,region,type,worker_id",
   "");
  ("resume_job",
   "body_hash,checkpoint,command_id,command_sequence,dispatch_sequence,dispatch_token,grant_nonce,incarnation,job_id,lease_expires_at,lease_id,model_id,owner_epoch,params,parent_dispatch_sequence,region,type,upload,work_budget,worker_id",
   "input,thumb_upload");
  ("drain_worker",
   "body_hash,command_id,command_sequence,grant_nonce,incarnation,lease_expires_at,lease_id,owner_epoch,region,type,worker_id",
   "");
  ("hello",
   "capabilities,compatible_versions,device,grant_nonce,incarnation,memory_mode,models,protocol_version,realtime_slots,type,worker_id",
   "previous_incarnation,realtime_batch_ms,realtime_p95_ms");
  ("registered",
   "grant_nonce,incarnation,lease_expires_at,lease_id,owner_epoch,protocol_version,ready,region,remaining_ms,transport_owner_id,type,worker_id",
   "model_store");
  ("grant_request",
   "grant_nonce,incarnation,region,type,worker_id",
   "");
  ("work_grant",
   "grant_nonce,incarnation,lease_expires_at,lease_id,owner_epoch,ready,region,remaining_ms,type,worker_id",
   "");
  ("command_ack",
   "attempt_id,body_hash,command_id,command_sequence,control_generation,grant_nonce,incarnation,lease_expires_at,lease_id,owner_epoch,region,session_id,status,type,worker_id",
   "");
  ("checkpoint",
   "attempt_id,control_generation,duration_ms,frames,gpu_ms,incarnation,owner_epoch,range_id,region,report_hash,report_sequence,session_id,type,worker_id",
   "");
  ("checkpoint_ack",
   "attempt_id,control_generation,duration_ms,frames,gpu_ms,incarnation,owner_epoch,range_id,region,report_hash,report_sequence,session_id,status,type,worker_id",
   "");
  ("rejected",
   "min_supported_version,reason,type",
   "");
  ("heartbeat",
   "frame_p95_ms,gpu,incarnation,loaded_models,region,slots_in_use,type,worker_id",
   "memory_mode");
  ("session_ready",
   "attempt_id,control_generation,grant_nonce,incarnation,lease_expires_at,lease_id,owner_epoch,params_revision,region,session_id,type,worker_id",
   "");
  ("session_refused",
   "attempt_id,code,control_generation,grant_nonce,incarnation,lease_expires_at,lease_id,owner_epoch,region,session_id,type,worker_id",
   "");
  ("session_closed",
   "attempt_id,category,control_generation,duration_ms,frames,gpu_ms,grant_nonce,incarnation,lease_expires_at,lease_id,owner_epoch,physical_complete,range_id,region,report_hash,report_sequence,session_id,type,worker_id",
   "category_score");
  ("job_done",
   "category,dispatch_sequence,dispatch_token,duration_ms,gpu_ms,grant_nonce,height,images,incarnation,job_id,lease_expires_at,lease_id,owner_epoch,physical_complete,range_id,region,report_hash,report_sequence,type,width,worker_id",
   "category_score,has_thumbnail,input_fetch_ms,load_ms,postprocess_ms");
  ("job_failed",
   "dispatch_sequence,dispatch_token,duration_ms,failure_code,gpu_ms,grant_nonce,images,incarnation,job_id,lease_expires_at,lease_id,owner_epoch,physical_complete,range_id,reason,region,report_hash,report_sequence,type,worker_id",
   "");
  ("job_cancelled",
   "dispatch_sequence,dispatch_token,duration_ms,gpu_ms,grant_nonce,images,incarnation,job_id,lease_expires_at,lease_id,owner_epoch,physical_complete,range_id,region,report_hash,report_sequence,type,worker_id",
   "");
  ("job_paused",
   "checkpoint,dispatch_sequence,dispatch_token,duration_ms,gpu_ms,grant_nonce,images,incarnation,job_id,lease_expires_at,lease_id,owner_epoch,physical_complete,range_id,region,report_hash,report_sequence,type,worker_id",
   "");
  ("job_progress",
   "dispatch_sequence,dispatch_token,grant_nonce,incarnation,job_id,lease_expires_at,lease_id,owner_epoch,phase,progress,region,step,steps,type,worker_id",
   "");
  ("worker_drained",
   "active_attempt_count,drain_id,final_reports,incarnation,owner_epoch,physical_complete,region,type,worker_id",
   "");
  ("predecessor_report",
   "incarnation,previous_incarnation,region,report,type,worker_id",
   "");
  ("prepare_realtime_class",
   "attempt_id,control_generation,envelope_revision,grant_nonce,incarnation,lease_expires_at,lease_id,model_id,model_revision,owner_epoch,params,params_hash,params_revision,region,request_id,session_id,type,worker_id",
   "");
  ("class_prepared",
   "attempt_id,class_components,class_id,control_generation,envelope_revision,grant_nonce,incarnation,lease_expires_at,lease_id,measured_envelope_id,model_id,model_revision,owner_epoch,params_hash,params_revision,region,request_id,serial_cost_ms,session_id,type,worker_id",
   "");
  ("class_refused",
   "attempt_id,code,control_generation,envelope_revision,grant_nonce,incarnation,lease_expires_at,lease_id,model_id,model_revision,owner_epoch,params_hash,params_revision,region,request_id,session_id,type,worker_id",
   "");
  ("gpu_status",
   "incarnation,region,request_id,type,worker_id",
   "");
  ("install_model",
   "incarnation,model_id,type,worker_id",
   "op_id");
  ("cancel_install",
   "incarnation,model_id,type,worker_id",
   "op_id");
  ("remove_model",
   "incarnation,model_id,type,worker_id",
   "op_id");
  ("store_status",
   "disk_free_bytes,downloads,incarnation,type,worker_id",
   "");
  ("store_inventory",
   "catalog,hardware,incarnation,op_id,type,worker_id",
   "");
  ("models_changed",
   "catalog,incarnation,models,type,worker_id",
   "");
  ("gpu_status",
   "envelope_revision,gpu,incarnation,loaded_models,region,request_id,type,worker_id",
   "");
  ("load_model",
   "body_hash,command_id,command_sequence,grant_nonce,incarnation,lease_expires_at,lease_id,model_id,model_revision,owner_epoch,profile,region,request_id,type,worker_id",
   "");
  ("unload_model",
   "body_hash,command_id,command_sequence,grant_nonce,incarnation,lease_expires_at,lease_id,model_id,owner_epoch,region,request_id,type,worker_id",
   "");
  ("model_loaded",
   "envelope_revision,grant_nonce,incarnation,lease_expires_at,lease_id,loaded_models,model_id,owner_epoch,region,request_id,type,worker_id",
   "load_ms");
  ("model_unloaded",
   "envelope_revision,grant_nonce,incarnation,lease_expires_at,lease_id,loaded_models,model_id,owner_epoch,region,request_id,type,worker_id",
   "");
  ("gpu_error",
   "envelope_revision,failure_code,grant_nonce,incarnation,lease_expires_at,lease_id,loaded_models,model_id,owner_epoch,reason,region,request_id,type,worker_id",
   "");
  ("checkpoint_ack",
   "attempt_id,code,control_generation,duration_ms,frames,gpu_ms,incarnation,owner_epoch,range_id,region,report_hash,report_sequence,session_id,status,type,worker_id",
   "");
  ("command_ack",
   "attempt_id,body_hash,code,command_id,command_sequence,control_generation,grant_nonce,incarnation,lease_expires_at,lease_id,owner_epoch,region,session_id,status,type,worker_id",
   "");
  ("command_ack",
   "attempt_id,body_hash,code,command_id,command_sequence,control_generation,expected_sequence,grant_nonce,incarnation,lease_expires_at,lease_id,owner_epoch,region,session_id,status,type,worker_id",
   "");
  ("registered",
   "protocol_version,type",
   "");
  ("checkpoint",
   "dispatch_sequence,duration_ms,gpu_ms,images,incarnation,job_id,owner_epoch,range_id,region,report_hash,report_sequence,type,worker_id",
   "");
  ("checkpoint_ack",
   "dispatch_sequence,duration_ms,gpu_ms,images,incarnation,job_id,owner_epoch,range_id,region,report_hash,report_sequence,status,type,worker_id",
   "");
  ("checkpoint_ack",
   "code,dispatch_sequence,duration_ms,gpu_ms,images,incarnation,job_id,owner_epoch,range_id,region,report_hash,report_sequence,status,type,worker_id",
   "");
  ("command_ack",
   "body_hash,command_id,command_sequence,dispatch_sequence,grant_nonce,incarnation,job_id,lease_expires_at,lease_id,owner_epoch,region,status,type,worker_id",
   "");
  ("command_ack",
   "body_hash,code,command_id,command_sequence,dispatch_sequence,grant_nonce,incarnation,job_id,lease_expires_at,lease_id,owner_epoch,region,status,type,worker_id",
   "");
  ("command_ack",
   "body_hash,command_id,command_sequence,grant_nonce,incarnation,lease_expires_at,lease_id,model_id,owner_epoch,region,request_id,status,type,worker_id",
   "");
  ("command_ack",
   "body_hash,code,command_id,command_sequence,grant_nonce,incarnation,lease_expires_at,lease_id,model_id,owner_epoch,region,request_id,status,type,worker_id",
   "");
  ("command_ack",
   "body_hash,code,command_id,command_sequence,dispatch_sequence,expected_sequence,grant_nonce,incarnation,job_id,lease_expires_at,lease_id,owner_epoch,region,status,type,worker_id",
   "");
  ("command_ack",
   "body_hash,code,command_id,command_sequence,expected_sequence,grant_nonce,incarnation,lease_expires_at,lease_id,model_id,owner_epoch,region,request_id,status,type,worker_id",
   "");
  ("command_ack",
   "body_hash,command_id,command_sequence,grant_nonce,incarnation,lease_expires_at,lease_id,owner_epoch,region,status,type,worker_id",
   "");
  ("command_ack",
   "body_hash,code,command_id,command_sequence,grant_nonce,incarnation,lease_expires_at,lease_id,owner_epoch,region,status,type,worker_id",
   "");
  ("command_ack",
   "body_hash,code,command_id,command_sequence,expected_sequence,grant_nonce,incarnation,lease_expires_at,lease_id,owner_epoch,region,status,type,worker_id",
   "")
].

(** [text.split(",")]: the empty text gives one empty name. *)
Fixpoint split_comma (s : string) : list string :=
  match s with
  | String.EmptyString => [""]
  | String.String c s =>
      if byte_val c =? 44 then "" :: split_comma s
      else match split_comma s with
           | x :: l => String.String c x :: l
           | [] => [String.String c ""]
           end
  end.

(** [_SHAPES.get(kind)]: the variants of a type in catalogue order, [None]
    for a type without a row. *)
Definition SHAPES (kind : string) : option (list (list string * list string)) :=
  match filter (fun row : string * string * string => row.1.1 = kind) SHAPE_ROWS with
  | [] => None
  | rows => Some (map (fun row => (split_comma row.1.2, split_comma row.2)) rows)
  end.

Definition err {A} (msg : string) : result exn A := Err (Protocol6Error msg).

(** Set tests on names. *)
Definition within (l k : list string) : bool := forallb (fun x => bool_decide (x ∈ k)) l.

(** [_pairs]: the object hook of the decoder. *)
Definition pairs (ps : dict) : result exn dict :=
  fold_left (fun acc kv =>
    result ← acc;
    if has_key kv.1 result then err "duplicate JSON object key"
    else Ok (set_key kv.1 kv.2 result)) ps (Ok []).

(** [_constant] *)
Definition constant : result exn json := err "non-finite JSON number".

Fixpoint check_json (value : json) (depth : Z) : result exn unit :=
  if 64 <? depth then err "JSON value is too deeply nested"
  else match value with
  | JNull | JBool _ | JInt _ => Ok tt
  | JFloat f => require (isfinite f) (Protocol6Error "non-finite JSON number")
  | JStr s => refuse_if (has_surrogate s) (Protocol6Error "invalid Unicode")
  | JList l => each (fun item => check_json item (depth + 1)) l
  | JDict d => each (fun kv =>
      _ ← (if 64 <? depth + 1 then err "JSON value is too deeply nested"
           else refuse_if (has_surrogate kv.1) (Protocol6Error "invalid Unicode"));
      check_json kv.2 (depth + 1)) d
  | JOpaque => err "value is not JSON"
  end.

Definition canonical_bytes (value : json) : result exn string :=
  _ ← check_json value 0;
  match dumps value with
  | Ok text => Ok text
  | Err _ => err "value has no canonical JSON encoding"
  end.

(** [v in names], for a set of names: a list or a dict is not hashable. *)
Definition in_set (v : json) (names : list string) : result exn bool :=
  match v with
  | JStr s => Ok (bool_decide (s ∈ names))
  | JList _ | JDict _ => Err (TypeError "unhashable type")
  | _ => Ok false
  end.

Definition message_limit (control : dict) : result exn Z :=
  let kind := get control "type" in
  hello ← in_set kind ["hello"; "models_changed"; "store_inventory"];
  if (hello : bool) then Ok MAX_HELLO_BYTES
  else
    parameter ← in_set kind ["open_session"; "update_session"; "dispatch_job"; "resume_job";
                             "prepare_realtime_class"];
    if (parameter : bool) then Ok MAX_PARAMETER_CONTROL_BYTES else Ok MAX_WORKER_CONTROL_BYTES.

Definition blen (s : string) : Z := Z.of_nat (String.length s).

(** What a socket delivers. *)
Inductive raw_control : Type :=
| RawBytes (data : string)
| RawStr (text : string)
| RawOther.

(** A nesting deeper than the interpreter's recursion limit is refused by the
    decoder itself; here it is decoded and refused by [check_json]. *)
Definition decode_control (raw : raw_control) : result exn dict :=
  data ← match raw with
         | RawBytes data => if utf8_valid data then Ok data else err "invalid UTF-8"
         | RawStr text => if has_surrogate text then err "invalid Unicode" else Ok text
         | RawOther => err "control must be UTF-8 text"
         end;
  _ ← refuse_if ((blen data =? 0) || (MAX_HELLO_BYTES <? blen data))
        (Protocol6Error "control size is invalid");
  value ← match loads pairs constant data with
          | Ok value => Ok value
          | Err (Protocol6Error msg) => err msg
          | Err _ => err "malformed JSON"
          end;
  match value with
  | JDict control =>
      _ ← check_json (JDict control) 0;
      limit ← message_limit control;
      _ ← refuse_if (limit <? blen data)
            (Protocol6Error "control exceeds its byte limit");
      Ok control
  | _ => err "control must be an object"
  end.

Definition UUID_FIELDS : list string := [
  "incarnation"; "previous_incarnation"; "grant_nonce"; "lease_id"; "transport_owner_id";
  "command_id"; "session_id"; "attempt_id"; "job_id"; "range_id"; "drain_id"; "request_id";
  "measured_envelope_id"
].

Definition POSITIVE : list string := [
  "protocol_version"; "owner_epoch"; "command_sequence"; "control_generation";
  "params_revision"; "dispatch_sequence"; "parent_dispatch_sequence"; "report_sequence";
  "expected_sequence"; "envelope_revision"; "schema_version"; "max_bytes"; "width";
  "height"; "steps"; "serial_cost_ms"
].

Definition NONNEGATIVE : list string := [
  "min_supported_version"; "realtime_slots"; "slots_in_use"; "gpu_ms"; "frames"; "images";
  "duration_ms"; "active_attempt_count"; "input_fetch_ms"; "load_ms"; "postprocess_ms";
  "vram_used_bytes"; "vram_total_bytes"; "util_pct"; "vram_used_pct"; "remaining_ms";
  "start_gpu_ms"; "byte_size"; "disk_free_bytes"; "disk_total_bytes"; "download_bytes";
  "bytes_done"; "bytes_total"
].

Definition HASH_FIELDS : list string := [
  "body_hash"; "report_hash"; "params_hash"; "class_id"; "checkpoint_hash"; "sha256"
].

Definition STRING_FIELDS : list string := [
  "worker_id"; "region"; "device"; "model_id"; "model_revision"; "memory_mode"; "reason";
  "status"; "code"; "category"; "phase"; "failure_code"; "dispatch_token"; "profile";
  "selection"; "dtype"; "guidance_mode"; "kind"; "compatibility_id"; "url"; "name"; "type"
].

Definition is_lower_hex (c : ascii) : bool :=
  is_digit c || (97 <=? byte_val c) && (byte_val c <=? 102).

Fixpoint all_chars (p : ascii -> bool) (s : string) : bool :=
  match s with
  | String.EmptyString => true
  | String.String c s => p c && all_chars p s
  end.

(** [_HEX64.fullmatch] *)
Definition HEX64 (s : string) : bool := (blen s =? 64) && all_chars is_lower_hex s.

(** A text against a pattern of one class per character: 'd' a digit, 'x' a
    lowercase hexadecimal digit, any other character itself. *)
Fixpoint matches (pat s : string) : option string :=
  match pat, s with
  | String.EmptyString, _ => Some s
  | String.String p pat, String.String c s =>
      if (if byte_val p =? 100 then is_digit c
          else if byte_val p =? 120 then is_lower_hex c else bool_decide (c = p))
      then matches pat s else None
  | _, _ => None
  end.

(** [_RFC3339.fullmatch] *)
Definition RFC3339 (s : string) : bool :=
  match matches "dddd-dd-ddTdd:dd:dd" s with
  | None => false
  | Some rest =>
      bool_decide (rest = "Z")
      || match strip_prefix "." rest with
         | Some frac => let (ds, tail) := span_digits frac in
                        negb (blen ds =? 0) && bool_decide (tail = "Z")
         | None => false
         end
  end.

(** [_integer]; a [bool] is not an integer here. *)
Definition integer (value : json) (positive : bool) : bool :=
  match value with
  | JInt z => (if positive then 0 <? z else 0 <=? z) && (z <=? MAX_COUNTER)
  | _ => false
  end.

(** [str(uuid.UUID(value)) == value]: the text is a canonical UUID. *)
Definition uuid_text (s : string) : bool :=
  match matches "xxxxxxxx-xxxx-xxxx-xxxx-xxxxxxxxxxxx" s with
  | Some rest => bool_decide (rest = "") | None => false end.
Definition uuid (value : json) : bool :=
  match value with JStr s => uuid_text s | _ => false end.

Definition is_str (v : json) : bool := match v with JStr _ => true | _ => false end.
Definition is_bool (v : json) : bool := match v with JBool _ => true | _ => false end.
Definition is_null (v : json) : bool := match v with JNull => true | _ => false end.

(** [not isinstance(v, bool) and isinstance(v, (int, float)) and
    math.isfinite(v)]; the conversion of a huge integer overflows. *)
Definition finite_number (v : json) : result exn bool :=
  match v with
  | JInt z => match float_of_Z z with Some _ => Ok true | None => Err OverflowError end
  | JFloat f => Ok (isfinite f)
  | _ => Ok false
  end.
Definition number_ge (v : json) (z : Z) : bool :=
  match v with JInt n => z <=? n | JFloat f => float_ge_Z f z | _ => false end.
Definition number_le (v : json) (z : Z) : bool :=
  match v with JInt n => n <=? z | JFloat f => float_le_Z f z | _ => false end.

Definition is_in (key : string) (names : list string) : bool := bool_decide (key ∈ names).

(** [if cond: raise Protocol6Error(msg)] *)
Definition refuse (cond : bool) (msg : string) : result exn unit :=
  refuse_if cond (Protocol6Error msg).

(** A score in [0, 1]. *)
Definition unit_interval (value : json) (msg : string) : result exn unit :=
  finite ← finite_number value;
  refuse (negb finite || negb (number_ge value 0 && number_le value 1)) msg.

Fixpoint validate_types (value : json) (key : string) : result exn unit :=
  _ ← refuse (bool_decide (key = "op_id") && negb (is_null value) && negb (is_str value))
        "op_id must be a string or null";
  _ ← refuse (is_in key UUID_FIELDS && negb (uuid value)) "identity must be a canonical UUID";
  _ ← refuse (is_in key POSITIVE && negb (integer value true))
        "counter must be a positive signed63 integer";
  _ ← refuse (is_in key NONNEGATIVE && negb (integer value false))
        "counter must be a nonnegative signed63 integer";
  _ ← refuse (is_in key HASH_FIELDS
              && negb match value with JStr s => HEX64 s | _ => false end)
        "hash must be lowercase SHA256 hex";
  _ ← refuse (is_in key STRING_FIELDS && negb (is_str value)) "field must be a string";
  _ ← refuse (bool_decide (key = "lease_expires_at")
              && negb match value with JStr s => RFC3339 s | _ => false end)
        "lease expiry must be UTC RFC3339";
  _ ← refuse (is_in key ["gpu_ms_limit"; "remaining_wall_ms"]
              && negb (is_null value) && negb (integer value false))
        "work limit must be a nonnegative signed63 integer or null";
  _ ← (if decide (key = "category_score")
       then unit_interval value "category score is invalid" else Ok tt);
  _ ← (if decide (key = "progress")
       then unit_interval value "progress is invalid" else Ok tt);
  _ ← refuse (is_in key ["ready"; "available"; "has_thumbnail"; "physical_complete";
                         "batch_eligible"] && negb (is_bool value))
        "observation must be a boolean";
  match value with
  | JDict d =>
      if is_in key [""; "class_components"; "checkpoint"; "gpu"; "work_budget"]
      then each (fun kv => validate_types kv.2 kv.1) d
      else Ok tt
  | _ => Ok tt
  end.

Definition digest (value : dict) (field : string) : result exn unit :=
  source ← canonical_bytes (JDict (without field value));
  refuse (negb (bool_decide (get value field = JStr (sha256 source))))
    (field +:+ " does not match canonical source bytes").

(** ** Final reports of a drained worker *)

Definition session_report_fields : list string :=
  ["kind"; "session_id"; "attempt_id"; "control_generation"; "range_id";
   "report_sequence"; "report_hash"].
Definition job_report_fields : list string :=
  ["kind"; "job_id"; "dispatch_sequence"; "range_id"; "report_sequence"; "report_hash"].

Definition report_fields (kind : json) : list string :=
  if decide (kind = JStr "session") then session_report_fields
  else if decide (kind = JStr "job") then job_report_fields
  else [].

Definition same_names (l k : list string) : bool := within l k && within k l.

(** The identity of a final report, and its place in the canonical order:
    kind, subject, attempt (a session's attempt id or a job's dispatch
    sequence), range. *)
Record report_key := { rk_kind : string; rk_subject : string; rk_attempt : json;
                       rk_range : string }.

Global Instance report_key_eq_dec : EqDecision report_key.
Proof. solve_decision. Defined.

Definition text_of (v : json) : string := match v with JStr s => s | _ => "" end.

(** [attempt or dispatch]: the empty text of a job report is falsy. *)
Definition report_order (report : dict) : report_key :=
  let attempt := default (JStr "") (lookup_key "attempt_id" report) in
  let dispatch := default (JInt 0) (lookup_key "dispatch_sequence" report) in
  {| rk_kind := text_of (get report "kind");
     rk_subject := text_of (default (get report "job_id") (lookup_key "session_id" report));
     rk_attempt := if decide (attempt = JStr "") then dispatch else attempt;
     rk_range := text_of (get report "range_id") |}.
Definition report_identity (report : dict) : report_key :=
  let key := report_order report in
  {| rk_kind := rk_kind key; rk_subject := rk_subject key;
     rk_attempt := default (JStr "") (lookup_key "attempt_id" report);
     rk_range := rk_range key |}.

(** Comparison of tuples; the third components are two texts or two
    integers when the kinds agree. *)
Definition compare_attempt (a b : json) : comparison :=
  match a, b with
  | JStr s, JStr t => String.compare s t
  | JInt m, JInt n => m ?= n
  | _, _ => Eq
  end.
Definition then_compare (c d : comparison) : comparison :=
  match c with Eq => d | _ => c end.
Definition report_key_compare (a b : report_key) : comparison :=
  then_compare (String.compare (rk_kind a) (rk_kind b))
    (then_compare (String.compare (rk_subject a) (rk_subject b))
       (then_compare (compare_attempt (rk_attempt a) (rk_attempt b))
          (String.compare (rk_range a) (rk_range b)))).

(** [order == sorted(order)]: no element is greater than its successor. *)
Fixpoint in_order (l : list report_key) : bool :=
  match l with
  | a :: (b :: _) as l' =>
      match report_key_compare a b with Gt => false | _ => in_order l' end
  | _ => true
  end.

(** One round of the loop over the reports: the keys seen so far. *)
Definition inventory_step (acc : result exn (list report_key * list report_key)) (report : json)
  : result exn (list report_key * list report_key) :=
  st ← acc;
  match report with
  | JDict r =>
      let fields := report_fields (get r "kind") in
      _ ← refuse (bool_decide (fields = []) || negb (same_names (keys r) fields))
            "final report shape is invalid";
      _ ← validate_types report "";
      _ ← refuse (bool_decide (report_identity r ∈ st.1)) "final report identity is duplicated";
      Ok (report_identity r :: st.1, st.2 ++ [report_order r])
  | _ => err "final report must be an object"
  end.

Definition inventory (value : dict) : result exn unit :=
  match get value "final_reports" with
  | JList reports =>
      st ← fold_left inventory_step reports (Ok ([], []));
      refuse (negb (in_order st.2)) "final reports are not in canonical order"
  | _ => err "final reports must be an array"
  end.

(** ** [validate_message] *)

Definition DIGESTED_COMMANDS : list string :=
  ["open_session"; "update_session"; "close_session"; "dispatch_job"; "cancel_job";
   "pause_job"; "resume_job"; "drain_worker"; "load_model"; "unload_model"].
Definition DIGESTED_REPORTS : list string :=
  ["checkpoint"; "session_closed"; "job_done"; "job_failed"; "job_cancelled"; "job_paused"].

(** Some variant of the type has its required fields, and no others than the
    optional ones. *)
Definition shape_matches (kind : string) (actual : list string) : bool :=
  match SHAPES kind with
  | None => false
  | Some variants =>
      existsb (fun v => within v.1 actual && within actual (v.1 ++ v.2)) variants
  end.

Definition check_download (entry : json) : result exn unit :=
  match entry with
  | JDict e =>
      _ ← refuse (negb match get e "kind" with
                       | JStr k => is_in k ["install"; "remove"; "cancel"]
                       | _ => false end) "download kind is invalid";
      match lookup_key "op_id" e with
      | Some op => validate_types op "op_id"
      | None => Ok tt
      end
  | _ => err "download kind is invalid"
  end.

Definition check_store_status (control : dict) : result exn unit :=
  match get control "downloads" with
  | JList downloads => each check_download downloads
  | _ => Ok tt
  end.

Definition check_command_ack (control : dict) : result exn unit :=
  let status := get control "status" in
  let code := get control "code" in
  let expected := get control "expected_sequence" in
  known ← in_set status ["accepted"; "refused"];
  _ ← refuse (negb known) "command ACK status is invalid";
  let accepted := bool_decide (status = JStr "accepted") in
  let refused := bool_decide (status = JStr "refused") in
  _ ← refuse (accepted && (negb (is_null code) || negb (is_null expected))
              || refused && negb (is_str code)
              || negb (Bool.eqb (bool_decide (code = JStr "sequence_gap"))
                                (negb (is_null expected))))
        "command ACK conditional fields are invalid";
  let job := has_key "job_id" control in
  let session := has_key "session_id" control in
  let request := has_key "request_id" control in
  refuse (job && (session || request) || session && job || request && (session || job))
    "command ACK subject is ambiguous".

Definition check_checkpoint_ack (control : dict) : result exn unit :=
  let refused := bool_decide (get control "status" = JStr "refused") in
  refuse (refused && negb (is_str (get control "code"))
          || negb refused && has_key "code" control)
    "checkpoint ACK conditional fields are invalid".

Definition GPU_FIELDS : list string :=
  ["device"; "available"; "util_pct"; "vram_used_pct"; "vram_used_bytes";
   "vram_total_bytes"; "temperature_c"; "power_w"].

Definition check_measurement (gpu : dict) (key : string) (lower : option Z) : result exn unit :=
  match lookup_key key gpu with
  | None => Ok tt
  | Some v =>
      finite ← finite_number v;
      refuse (negb finite || match lower with Some z => negb (number_ge v z) | None => false end)
        "GPU measurement is invalid"
  end.

Definition check_heartbeat (control : dict) : result exn unit :=
  _ ← match get control "frame_p95_ms" with
      | JDict samples =>
          refuse (existsb (fun kv => negb (integer kv.2 true)
                                     || negb (number_le kv.2 60000)) samples)
            "frame p95 observation is invalid"
      | _ => err "frame p95 observation is invalid"
      end;
  match get control "gpu" with
  | JNull => Ok tt
  | JDict gpu =>
      _ ← refuse (negb (has_key "device" gpu) || negb (within (keys gpu) GPU_FIELDS))
            "GPU observation shape is invalid";
      _ ← check_measurement gpu "power_w" (Some 0);
      check_measurement gpu "temperature_c" None
  | _ => err "GPU observation shape is invalid"
  end.

Definition check_class_prepared (control : dict) : result exn unit :=
  components ← item control "class_components";
  match components with
  | JDict cs =>
      class_id ← item control "class_id";
      source ← canonical_bytes components;
      _ ← refuse (negb (bool_decide (class_id = JStr (sha256 source))))
            "class identity is invalid";
      each (fun key =>
        shape ← item cs key;
        match shape with
        | JList parts =>
            refuse (Nat.ltb 8 (length parts)
                    || existsb (fun part => negb (integer part true)) parts)
              "class chunk shape is invalid"
        | _ => err "class chunk shape is invalid"
        end) ["positive_chunks"; "negative_chunks"; "edit_chunks"]
  | _ => err "class identity is invalid"
  end.

(** The checks, with the validator of a predecessor's nested report as an
    argument. *)
Definition validate_message_with
    (nested : json -> option string -> option string -> result exn unit)
    (message : json) (expected_worker_id expected_incarnation : option string)
  : result exn unit :=
  match message with
  | JDict control =>
    match get control "type" with
    | JStr kind =>
      _ ← check_json message 0;
      _ ← refuse (negb (shape_matches kind (keys control)))
            "control fields do not match a closed message shape";
      _ ← validate_types message "";
      _ ← (if decide (kind = "store_status") then check_store_status control else Ok tt);
      _ ← match expected_worker_id with
          | Some w => refuse (negb (bool_decide (get control "worker_id" = JStr w)))
                        "control targets a different worker"
          | None => Ok tt
          end;
      _ ← match expected_incarnation with
          | Some i =>
              refuse (negb (bool_decide (kind = "hello"))
                      && negb (bool_decide (get control "incarnation" = JStr i)))
                "control incarnation does not match connection"
          | None => Ok tt
          end;
      _ ← (if is_in kind DIGESTED_COMMANDS then digest control "body_hash" else Ok tt);
      _ ← (if is_in kind DIGESTED_REPORTS then digest control "report_hash" else Ok tt);
      _ ← (if decide (kind = "command_ack") then check_command_ack control else Ok tt);
      _ ← (if decide (kind = "checkpoint_ack") then check_checkpoint_ack control else Ok tt);
      _ ← (if decide (kind = "heartbeat") then check_heartbeat control else Ok tt);
      _ ← (if decide (kind = "worker_drained") then inventory control else Ok tt);
      _ ← (if decide (kind = "predecessor_report") then
             report ← item control "report";
             match report with
             | JDict r =>
                 known ← in_set (get r "type") ["checkpoint"; "worker_drained"];
                 _ ← refuse (negb known) "predecessor report type is invalid";
                 match get control "previous_incarnation" with
                 | JStr previous =>
                     if uuid_text previous then
                       worker ← item control "worker_id";
                       match worker with
                       | JStr w => nested report (Some w) (Some previous)
                       | _ => err "control targets a different worker"
                       end
                     else err "predecessor incarnation is invalid"
                 | _ => err "predecessor incarnation is invalid"
                 end
             | _ => err "predecessor report type is invalid"
             end
           else Ok tt);
      _ ← (if is_in kind ["open_session"; "dispatch_job"; "resume_job"] then
             budget ← item control "work_budget"; validate_types budget ""
           else Ok tt);
      _ ← (if is_in kind ["resume_job"; "job_paused"] then
             match lookup_key "checkpoint" control with
             | Some checkpoint => validate_types checkpoint ""
             | None => Ok tt
             end
           else Ok tt);
      if decide (kind = "class_prepared") then check_class_prepared control else Ok tt
    | _ => err "control type is missing"
    end
  | _ => err "control type is missing"
  end.

(** A nested report is a checkpoint or a drain report, which nests nothing. *)
Fixpoint validate_message_fuel (depth : nat) (message : json)
    (expected_worker_id expected_incarnation : option string) : result exn unit :=
  match depth with
  | O => err "predecessor report type is invalid"
  | S depth =>
      validate_message_with (validate_message_fuel depth) message
        expected_worker_id expected_incarnation
  end.
Definition validate_message := validate_message_fuel 2.

Definition preflight_worker_control (control : json)
    (expected_worker_id expected_incarnation : option string) : result exn string :=
  _ ← validate_message control expected_worker_id expected_incarnation;
  body ← canonical_bytes control;
  limit ← match control with JDict d => message_limit d | _ => err "control type is missing" end;
  _ ← refuse (limit <? blen body) "control exceeds byte limit";
  Ok body.
