(* ===== verification/Protocol6Facts.v ===== *)
(** * What a validated control guarantees

    Inversion of [validate_message], and the properties of the codec and of
    the validator. *)

From S2P Require Import Prelude PyFloat Hashes Json JsonFacts Protocol6.
From Stdlib Require Import SpecFloat.
Open Scope Z_scope.

(** ** Dictionaries *)

Lemma lookup_key_elem k v (d : dict) : lookup_key k d = Some v -> (k, v) ∈ d.
Proof.
  induction d as [|[k' v'] d IH]; [done|]. simpl. destruct (decide (k' = k)) as [->|].
  - intros [= ->]. left.
  - intros H. right. auto.
Qed.

Lemma lookup_key_keys k (d : dict) : k ∈ keys d <-> is_Some (lookup_key k d).
Proof.
  unfold keys. induction d as [|[k' v'] d IH]; simpl; [set_solver by eauto using is_Some_None|].
  destruct (decide (k' = k)) as [->|]; [|set_solver].
  split; [eauto|set_solver].
Qed.

Lemma get_lookup k v (d : dict) : lookup_key k d = Some v -> get d k = v.
Proof. unfold get. by intros ->. Qed.
Lemma item_lookup k v (d : dict) : item d k = Ok v <-> lookup_key k d = Some v.
Proof. unfold item. destruct (lookup_key k d); naive_solver. Qed.
Lemma has_key_true k (d : dict) : has_key k d = true <-> is_Some (lookup_key k d).
Proof. unfold has_key. apply bool_decide_eq_true. Qed.

Lemma lookup_set_key k v (d : dict) : lookup_key k (set_key k v d) = Some v.
Proof.
  induction d as [|[k' v'] d IH]; cbn [set_key lookup_key]; [by rewrite decide_True|].
  destruct (decide (k' = k)) as [->|]; cbn [lookup_key].
  - by rewrite decide_True.
  - by rewrite decide_False.
Qed.
Lemma lookup_set_key_ne k k' v (d : dict) :
  k <> k' -> lookup_key k (set_key k' v d) = lookup_key k d.
Proof.
  intros Hne. induction d as [|[k2 v2] d IH]; cbn [set_key lookup_key]; [by rewrite decide_False|].
  destruct (decide (k2 = k')) as [->|]; cbn [lookup_key]; [by rewrite !decide_False by done|].
  destruct (decide (k2 = k)); [done|exact IH].
Qed.
Lemma without_set_key k v (d : dict) : without k (set_key k v d) = without k d.
Proof.
  unfold without. induction d as [|[k' v'] d IH]; cbn [set_key].
  - rewrite filter_cons_False by (cbn; tauto). done.
  - destruct (decide (k' = k)) as [->|].
    + by rewrite !filter_cons_False by (cbn; tauto).
    + rewrite !filter_cons_True by done. by rewrite IH.
Qed.
Lemma lookup_update_with_ne k (e d : dict) :
  k ∉ keys e -> lookup_key k (update_with e d) = lookup_key k d.
Proof.
  unfold update_with. revert d. induction e as [|[k' v'] e IH]; intros d Hk; [done|].
  cbn [keys fmap list_fmap fst] in Hk. apply not_elem_of_cons in Hk as [Hne Hk].
  cbn [fold_left fst snd]. rewrite IH by done. by apply lookup_set_key_ne.
Qed.
Lemma item_set_key_ne k k' v (d : dict) : k <> k' -> item (set_key k' v d) k = item d k.
Proof. intros H. unfold item. by rewrite lookup_set_key_ne. Qed.

Lemma set_key_fresh k v d : k ∉ keys d -> set_key k v d = d ++ [(k, v)].
Proof.
  induction d as [|[k' v'] d IH]; [done|]. unfold keys. rewrite fmap_cons. intros Hn.
  cbn [set_key fst]. destruct (decide (k' = k)) as [->|]; [set_solver|].
  by rewrite IH by set_solver.
Qed.

Lemma lookup_key_app k d e :
  lookup_key k (d ++ e) = match lookup_key k d with Some v => Some v | None => lookup_key k e end.
Proof. induction d as [|[k' v'] d IH]; [done|]. simpl. by destruct (decide _). Qed.

Lemma lookup_key_none k d : k ∉ keys d -> lookup_key k d = None.
Proof.
  intros H. destruct (lookup_key k d) eqn:E; [|done].
  destruct H. apply lookup_key_keys. eauto.
Qed.

Lemma within_spec l k : within l k = true <-> forall x, x ∈ l -> x ∈ k.
Proof.
  unfold within. rewrite forallb_forall. setoid_rewrite bool_decide_eq_true.
  by setoid_rewrite list_elem_of_In.
Qed.

Lemma refuse_ok b msg : refuse b msg = Ok tt <-> b = false.
Proof. apply refuse_if_ok. Qed.

Ltac p6_inv :=
  repeat match goal with
  | H : refuse _ _ = Ok _ |- _ => apply refuse_if_ok in H
  | H : err _ = Ok _ |- _ => discriminate H
  | H : (_ || _) = false |- _ => apply orb_false_iff in H as [? ?]
  | H : (_ && _) = true |- _ => apply andb_true_iff in H as [? ?]
  | H : negb _ = false |- _ => apply negb_false_iff in H
  | H : bool_decide _ = true |- _ => apply bool_decide_eq_true in H
  | _ => progress ok_inv
  end.

(** ** The checks of a validated message *)

Record validated (control : dict) (kind : string) (worker incarnation : option string) : Prop := {
  val_type : get control "type" = JStr kind;
  val_json : check_json (JDict control) 0 = Ok tt;
  val_shape : shape_matches kind (keys control) = true;
  val_types : validate_types (JDict control) "" = Ok tt;
  val_worker : forall w, worker = Some w -> get control "worker_id" = JStr w;
  val_incarnation : forall i, incarnation = Some i -> kind <> "hello" ->
                    get control "incarnation" = JStr i;
  val_body : is_in kind DIGESTED_COMMANDS = true -> digest control "body_hash" = Ok tt;
  val_report : is_in kind DIGESTED_REPORTS = true -> digest control "report_hash" = Ok tt;
  val_ack : kind = "command_ack" -> check_command_ack control = Ok tt;
  val_heartbeat : kind = "heartbeat" -> check_heartbeat control = Ok tt;
  val_inventory : kind = "worker_drained" -> inventory control = Ok tt;
  val_class : kind = "class_prepared" -> check_class_prepared control = Ok tt
}.

Lemma validate_message_inv message w i :
  validate_message message w i = Ok tt ->
  exists control kind, message = JDict control /\ validated control kind w i.
Proof.
  unfold validate_message. set (nested := validate_message_fuel 1).
  change (validate_message_fuel 2) with (validate_message_with nested).
  destruct message as [| | | | | |control|]; try discriminate.
  unfold validate_message_with. destruct (get control "type") as [| | | |kind| | |] eqn:Ht;
    try discriminate.
  intros H. ok_inv. exists control, kind. split; [done|]. p6_inv.
  split; try done.
  - intros w' ->. by p6_inv.
  - intros i' -> Hk. p6_inv. apply andb_false_iff in Hv4 as [Hv4|Hv4]; [|by p6_inv].
    apply negb_false_iff, bool_decide_eq_true in Hv4. done.
  - intros Hb. by rewrite Hb in *.
  - intros Hb. by rewrite Hb in *.
  - intros ->. by destruct (decide _).
  - intros ->. by destruct (decide _).
  - intros ->. by destruct (decide _).
  - intros ->. by destruct (decide _).
Qed.

(** Every field of a validated message was checked under its name. *)
Lemma validate_types_field control k v :
  validate_types (JDict control) "" = Ok tt -> lookup_key k control = Some v ->
  validate_types v k = Ok tt.
Proof.
  intros H Hk. cbn [validate_types] in H. ok_inv.
  change (is_in "" ["" ; "class_components"; "checkpoint"; "gpu"; "work_budget"]) with true in H.
  apply each_ok in H. rewrite Forall_forall in H.
  exact (H _ (lookup_key_elem _ _ _ Hk)).
Qed.

Lemma check_json_field control k v n :
  check_json (JDict control) n = Ok tt -> lookup_key k control = Some v ->
  check_json v (n + 1) = Ok tt.
Proof.
  intros H Hk. cbn [check_json] in H. destruct (64 <? n); [discriminate|].
  apply each_ok in H. rewrite Forall_forall in H.
  specialize (H _ (lookup_key_elem _ _ _ Hk)). by ok_inv.
Qed.

(** The required fields of a type with a single variant. *)
Definition required (kind : string) : list string :=
  match SHAPES kind with Some [(req, _)] => req | _ => [] end.

Lemma shape_required kind actual k :
  shape_matches kind actual = true -> k ∈ required kind -> k ∈ actual.
Proof.
  unfold shape_matches, required. destruct (SHAPES kind) as [[|[req opt] [|]]|];
    try (intros _ H; by apply elem_of_nil in H).
  intros H Hk. cbn [existsb] in H.
  apply orb_true_iff in H as [H|H]; [|discriminate H]. apply andb_true_iff in H as [H _].
  cbn [fst] in H. rewrite within_spec in H. auto.
Qed.

Lemma shape_known kind actual : shape_matches kind actual = true -> is_Some (SHAPES kind).
Proof. unfold shape_matches. destruct (SHAPES kind); [eauto|discriminate]. Qed.

(** ** Field types *)

Lemma is_in_spec k l : is_in k l = true <-> k ∈ l.
Proof. apply bool_decide_eq_true. Qed.

Lemma guarded b c : b && negb c = false -> b = true -> c = true.
Proof. destruct b, c; naive_solver. Qed.

Record typed (v : json) (k : string) : Prop := {
  typed_uuid : k ∈ UUID_FIELDS -> uuid v = true;
  typed_positive : k ∈ POSITIVE -> integer v true = true;
  typed_nonnegative : k ∈ NONNEGATIVE -> integer v false = true;
  typed_hash : k ∈ HASH_FIELDS -> exists s, v = JStr s /\ HEX64 s = true;
  typed_string : k ∈ STRING_FIELDS -> is_str v = true;
  typed_expiry : k = "lease_expires_at" -> exists s, v = JStr s /\ RFC3339 s = true
}.

Lemma validate_types_typed v k : validate_types v k = Ok tt -> typed v k.
Proof.
  intros H.
  assert (Hs : forall (p : string -> bool),
    match v with JStr s => p s | _ => false end = true -> exists s, v = JStr s /\ p s = true)
    by (intros p; destruct v; naive_solver).
  destruct v; cbn [validate_types] in H; ok_inv; unfold refuse in *; ok_inv;
    (split; intros Hk; [..|assert (bool_decide (k = "lease_expires_at") = true) as Hk'
        by (by apply bool_decide_eq_true_2); clear Hk; rename Hk' into Hk];
     try apply is_in_spec in Hk;
     repeat match goal with
     | H : (?b && negb ?c) = false |- _ =>
         match type of Hk with b = true => pose proof (guarded _ _ H Hk); clear Hk end
     end; auto).
Qed.

Lemma integer_true v (p : bool) :
  integer v p = true -> exists n, v = JInt n /\ (if p then 1 else 0) <= n <= MAX_COUNTER.
Proof. destruct v; try discriminate. simpl. intros H. exists z. split; [done|]. destruct p; simpl in *; apply andb_true_iff in H as [??]; lia. Qed.

Lemma positive_field v k : typed v k -> k ∈ POSITIVE -> exists n, v = JInt n /\ 1 <= n < 2 ^ 63.
Proof.
  intros Ht Hk. destruct (integer_true v true (typed_positive _ _ Ht Hk)) as (n & -> & Hn).
  exists n. split; [done|]. unfold MAX_COUNTER in Hn. lia.
Qed.
Lemma uuid_field v k : typed v k -> k ∈ UUID_FIELDS -> exists u, v = JStr u /\ uuid_text u = true.
Proof. intros Ht Hk. pose proof (typed_uuid _ _ Ht Hk) as Hu. destruct v; try discriminate Hu. by eexists. Qed.
(** The fields of a work budget are checked as those of the message are. *)
Lemma budget_field budget k v :
  validate_types (JDict budget) "work_budget" = Ok tt -> lookup_key k budget = Some v -> validate_types v k = Ok tt.
Proof.
  intros H Hk. cbn [validate_types] in H. ok_inv.
  change (is_in "work_budget" ["" ; "class_components"; "checkpoint"; "gpu"; "work_budget"]) with true in H.
  apply each_ok in H. rewrite Forall_forall in H. exact (H _ (lookup_key_elem _ _ _ Hk)).
Qed.
