(* ===== verification/Samples.v ===== *)
(** * Concrete controls

    Messages of the shapes the protocol defines, on which the witnesses of the
    protocol and ledger theorems evaluate. *)

From S2P Require Import Prelude PyFloat Hashes Json Protocol6.
Open Scope Z_scope.

Definition WORKER : string := "worker-rocm".
Definition INCARNATION : string := "11111111-1111-4111-8111-111111111111".

(** A text in which an apostrophe stands for a quotation mark. *)
Fixpoint quoted (s : string) : string :=
  match s with
  | String.EmptyString => ""
  | String.String c s => String.String (if decide (c = "'"%char) then quote else c) (quoted s)
  end.

(** Adds the hash of the canonical bytes under [field]. *)
Definition hashed (field : string) (d : dict) : dict :=
  match canonical_bytes (JDict (without field d)) with
  | Ok source => set_key field (JStr (sha256 source)) d
  | Err _ => d
  end.

Definition lease_fields : dict :=
  [("worker_id", JStr WORKER); ("incarnation", JStr INCARNATION); ("region", JStr "local");
   ("owner_epoch", JInt 7); ("grant_nonce", JStr "44444444-4444-4444-8444-444444444444");
   ("lease_id", JStr "33333333-3333-4333-8333-333333333333");
   ("lease_expires_at", JStr "2026-10-03T00:00:10Z")].

Definition close_command (sequence : Z) (command_id : string) : dict :=
  hashed "body_hash"
    (("type", JStr "close_session") :: lease_fields ++
     [("session_id", JStr "55555555-5555-4555-8555-555555555555");
      ("attempt_id", JStr "66666666-6666-4666-8666-666666666666");
      ("control_generation", JInt 1); ("command_sequence", JInt sequence);
      ("command_id", JStr command_id)]).

Definition close_1 : dict := close_command 1 "99999999-9999-4999-8999-000000000001".
Definition close_2 : dict := close_command 2 "99999999-9999-4999-8999-000000000002".

(** The identity of the open session a report answers. *)
Definition session_identity : dict :=
  lease_fields ++
  [("session_id", JStr "55555555-5555-4555-8555-555555555555");
   ("attempt_id", JStr "66666666-6666-4666-8666-666666666666");
   ("control_generation", JInt 1);
   ("range_id", JStr "77777777-7777-4777-8777-777777777777")].

Definition session_report (range_id : string) (sequence : Z) : dict :=
  [("kind", JStr "session"); ("session_id", JStr "55555555-5555-4555-8555-555555555555");
   ("attempt_id", JStr "66666666-6666-4666-8666-666666666666"); ("control_generation", JInt 1);
   ("range_id", JStr range_id); ("report_sequence", JInt sequence);
   ("report_hash", JStr "0f2fab800b335f872a1fb033574c2e5cb25eb5b248af563e9c747012628fed17")].

Example close_1_valid :
  validate_message (JDict close_1) (Some WORKER) (Some INCARNATION) = Ok tt.
Proof. vm_compute. reflexivity. Qed.
