(* ===== verification/Protocol6Codec.v ===== *)
(** * The codec of the protocol: round trip and size agreement

    What [preflight_worker_control] sends, [decode_control] reads back as the
    same object with its keys sorted; the canonical bytes determine the
    object. *)

From S2P Require Import Prelude PyFloat Hashes Json JsonFacts Protocol6 Protocol6Facts Samples.
From Stdlib Require Import DecimalString.
Open Scope Z_scope.

(** ** The encoder writes no surrogate *)

(** The first byte, if there is one, is ASCII. *)
Definition ascii_start (t : string) : bool :=
  match t with String.String c _ => byte_val c <? 128 | String.EmptyString => true end.

Record tame (t : string) : Prop := {
  tame_start : ascii_start t = true;
  tame_none : has_surrogate t = false
}.

Lemma surrogate_cons c t :
  has_surrogate t = false -> ascii_start t = true -> has_surrogate (String.String c t) = false.
Proof.
  destruct t as [|c' t]; [done|]. intros H Hs. cbn [has_surrogate] in *. rewrite H.
  cbn [ascii_start] in Hs. rewrite (proj2 (Z.leb_gt _ _)) by lia. by rewrite andb_false_r.
Qed.

Lemma surrogate_app s t :
  has_surrogate s = false -> tame t -> has_surrogate (s +:+ t) = false.
Proof.
  intros Hs [Ht1 Ht2]. induction s as [|c s IH]; [done|]. rewrite append_cons.
  destruct s as [|c' s]; [by apply surrogate_cons|].
  rewrite append_cons in *. cbn [has_surrogate] in *.
  apply orb_false_iff in Hs as [-> Hs]. by apply IH.
Qed.

Lemma tame_app s t : tame s -> tame t -> tame (s +:+ t).
Proof.
  intros [Hs1 Hs2] Ht. split; [|by apply surrogate_app]. by destruct s; [destruct Ht|].
Qed.

Lemma tame_cons c t : byte_val c < 128 -> tame t -> tame (String.String c t).
Proof. intros Hc [H1 H2]. split; [simpl; lia|by apply surrogate_cons]. Qed.

Definition ascii_text : string -> bool := all_chars (fun c => byte_val c <? 128).

Lemma surrogate_ascii u t : ascii_text u = true -> has_surrogate (u +:+ t) = has_surrogate t.
Proof.
  induction u as [|c u IH]; [done|]. unfold ascii_text in *. cbn [all_chars].
  intros [Hc Hu]%andb_true_iff. rewrite append_cons, <- IH by done.
  destruct (u +:+ t); [done|]. cbn [has_surrogate].
  rewrite (proj2 (Z.eqb_neq _ _)) by lia. done.
Qed.

Lemma tame_ascii u : ascii_text u = true -> tame u.
Proof.
  intros H. split.
  - destruct u; [done|]. unfold ascii_text in H. cbn [all_chars] in H.
    by apply andb_true_iff in H as [H _].
  - by rewrite <- (append_nil_r u), surrogate_ascii.
Qed.

Lemma escape_char_cases c :
  escape_char c = String.String c ""
  \/ ascii_text (escape_char c) = true /\ exists u, escape_char c = String.String backslash u.
Proof.
  byte_cases c; try (by left); right; (split; [vm_compute; reflexivity|by eexists]).
Qed.

Lemma surrogate_escape s t :
  has_surrogate s = false -> tame t -> has_surrogate (escape s +:+ t) = false.
Proof.
  intros Hs Ht. induction s as [|c s IH]; [by destruct Ht|].
  assert (Hs' : has_surrogate s = false).
  { destruct s as [|c' s]; [done|]. cbn [has_surrogate] in Hs. by apply orb_false_iff in Hs as [_ Hs]. }
  specialize (IH Hs'). cbn [escape]. rewrite append_assoc.
  destruct (escape_char_cases c) as [->|[Ha _]]; [|by rewrite surrogate_ascii].
  rewrite append_cons, append_empty.
  destruct s as [|c' s]; [by apply surrogate_cons; destruct Ht|].
  cbn [escape] in *. rewrite append_assoc in *. cbn [has_surrogate] in Hs.
  apply orb_false_iff in Hs as [Hs _].
  destruct (escape_char_cases c') as [He|[_ [u He]]]; rewrite He, append_cons in *.
  - rewrite append_empty in *. cbn [has_surrogate] in *. by rewrite Hs, IH.
  - cbn [has_surrogate] in *. rewrite IH. change (0xA0 <=? byte_val backslash) with false.
    by rewrite andb_false_r.
Qed.

Lemma tame_string s : has_surrogate s = false -> tame (dump_string s).
Proof.
  intros Hs. unfold dump_string. split; [done|].
  change (String.String quote ?t) with (String.String quote "" +:+ t).
  rewrite surrogate_ascii by done. apply surrogate_escape; [done|by apply tame_ascii].
Qed.

Lemma tame_join sep ts : ascii_text sep = true -> Forall tame ts -> tame (join sep ts).
Proof.
  intros Hsep. induction 1 as [|t ts Ht Hts IH]; [by apply tame_ascii|].
  destruct ts as [|t' ts]; [done|]. rewrite join_cons2.
  apply tame_app; [done|]. apply tame_app; [by apply tame_ascii|done].
Qed.

Lemma digits_ascii u : ascii_text (NilEmpty.string_of_uint u) = true.
Proof. induction u as [|u IH|u IH|u IH|u IH|u IH|u IH|u IH|u IH|u IH|u IH]; [done|exact IH..]. Qed.

Lemma tame_int z t : dump_int z = Ok t -> tame t.
Proof.
  unfold dump_int. destruct (Nat.ltb _ _); [discriminate|]. intros [= <-]. apply tame_ascii.
  destruct z as [|p|p]; [done| |rewrite dec_string_neg];
    destruct (dec_string_pos p) as (u & -> & _); [|change (ascii_text (String.String _ ?t)) with (ascii_text t)];
    apply digits_ascii.
Qed.

Lemma ascii_app u t : ascii_text (u +:+ t) = ascii_text u && ascii_text t.
Proof.
  induction u as [|c u IH]; [done|]. rewrite append_cons. unfold ascii_text in *. cbn [all_chars]. by rewrite IH, andb_assoc.
Qed.
Lemma span_digits_ascii s : exists u, s = u +:+ (span_digits s).2 /\ ascii_text u = true.
Proof.
  induction s as [|c s (u & Hu & Ha)]; [by exists ""|]. cbn [span_digits]. destruct (is_digit c) eqn:Ec; [|by exists ""].
  destruct (span_digits s) as [ds r]. cbn [snd] in *. exists (String.String c u). rewrite append_cons. split; [by f_equal|].
  unfold ascii_text in *. cbn [all_chars]. unfold is_digit in Ec. rewrite Ha, andb_true_r. lia.
Qed.
Lemma scan_fraction_ascii s fs r : scan_fraction s = Some (fs, r) -> exists u, s = u +:+ r /\ ascii_text u = true.
Proof.
  destruct s as [|c s]; [done|]. cbn [scan_fraction]. destruct (_ =? _) eqn:Ec; [|done]. apply Z.eqb_eq in Ec.
  destruct (span_digits_ascii s) as (u & Hu & Ha). destruct (span_digits s) as [[|d ds] r0]; [done|]. intros [= _ <-].
  exists (String.String c u). rewrite append_cons. split; [by f_equal|]. unfold ascii_text in *. cbn [all_chars]. by rewrite Ec, Ha.
Qed.
Lemma scan_exponent_ascii s e r : scan_exponent s = Some (e, r) -> exists u, s = u +:+ r /\ ascii_text u = true.
Proof.
  destruct s as [|c s]; [done|]. cbn [scan_exponent]. destruct (_ || _) eqn:Ec; [|done].
  set (p := match s with String.String d s2 => _ | String.EmptyString => _ end).
  assert (Hp : exists v, s = v +:+ p.2 /\ ascii_text v = true).
  { unfold p. destruct s as [|d s]; [by exists ""|]. destruct (byte_val d =? 45) eqn:E1; [|destruct (byte_val d =? 43) eqn:E2].
    - apply Z.eqb_eq in E1. exists (String.String d ""). split; [done|]. unfold ascii_text. cbn. by rewrite E1.
    - apply Z.eqb_eq in E2. exists (String.String d ""). split; [done|]. unfold ascii_text. cbn. by rewrite E2.
    - by exists "". }
  clearbody p. destruct Hp as (v & Hv & Hva), p as [sign t]. cbn [snd] in Hv.
  destruct (span_digits_ascii t) as (u & Hu & Ha). destruct (span_digits t) as [[|d ds] r0]; [done|]. intros [= _ <-].
  exists (String.String c (v +:+ u)). rewrite append_cons, append_assoc. cbn [snd] in Hu. split; [congruence|].
  change (ascii_text (String.String c ?x)) with ((byte_val c <? 128) && ascii_text x). rewrite ascii_app, Hva, Ha, !andb_true_r. lia.
Qed.
Lemma scan_number_ascii neg s g : scan_number neg s = Ok (JFloat g, "") -> ascii_text s = true.
Proof.
  destruct s as [|c s]; [done|]. unfold scan_number. set (p := if byte_val c =? 48 then _ else _).
  assert (Hp : exists u, String.String c s = u +:+ p.2 /\ ascii_text u = true).
  { unfold p. destruct (byte_val c =? 48) eqn:E; [|apply span_digits_ascii]. exists (String.String c ""). split; [done|].
    apply Z.eqb_eq in E. unfold ascii_text. cbn. by rewrite E. }
  clearbody p. destruct Hp as (u & -> & Hu), p as [[|d ds] t]; cbn [snd]; [done|]. rewrite ascii_app, Hu. cbn [andb].
  destruct (scan_fraction t) as [[fs r1]|] eqn:Ef.
  - destruct (scan_fraction_ascii _ _ _ Ef) as (v & -> & Hv). rewrite ascii_app, Hv.
    destruct (scan_exponent r1) as [[e r2]|] eqn:Ee; [|by intros [= _ ->]].
    destruct (scan_exponent_ascii _ _ _ Ee) as (w & -> & Hw). intros [= _ ->]. by rewrite ascii_app, Hw.
  - destruct (scan_exponent t) as [[e r2]|] eqn:Ee; [|by case_match].
    destruct (scan_exponent_ascii _ _ _ Ee) as (w & -> & Hw). intros [= _ ->]. by rewrite ascii_app, Hw.
Qed.
Lemma float_ascii f : float_reads f = true -> ascii_text (float_repr f) = true.
Proof.
  intros Hf. destruct (float_text f Hf) as [(c & t & Et & _ & Hs)|(c & t & Et & _ & Hs)]; [by eapply scan_number_ascii|].
  rewrite Et. change (ascii_text (String.String _ ?x)) with (ascii_text x). by eapply scan_number_ascii.
Qed.

Lemma tame_dumps v n t : clean v -> check_json v n = Ok tt -> dumps v = Ok t -> tame t.
Proof.
  revert n t. induction v as [|b|z|f|s|l IH|d IH|] using json_ind'; intros n t Hc Hj Ht;
    inversion Hc as [? Hf| |?|?|?|? Hcl|? Hnd Hcd]; subst; cbn [check_json dumps] in Hj, Ht;
    (destruct (64 <? n); [discriminate|]).
  - injection Ht as <-. by apply tame_ascii.
  - injection Ht as <-. by destruct b; apply tame_ascii.
  - by eapply tame_int.
  - destruct (isfinite f); [|done]. injection Ht as <-. by apply tame_ascii, float_ascii.
  - injection Ht as <-. apply tame_string. by apply refuse_if_ok in Hj.
  - apply bind_ok in Ht as (ts & Hts & [= <-]). apply each_ok in Hj. apply traverse_ok in Hts.
    apply tame_app; [by apply tame_ascii|]. apply tame_app; [|by apply tame_ascii].
    apply tame_join; [done|]. clear Hc.
    induction Hts as [|v t l ts Hv Hts IHl]; [constructor|].
    rewrite !Forall_cons in *. destruct IH, Hcl, Hj. eauto.
  - apply bind_ok in Ht as (ts & Hts & [= <-]). apply each_ok in Hj. apply traverse_ok in Hts.
    apply tame_app; [by apply tame_ascii|]. apply tame_app; [|by apply tame_ascii].
    apply tame_join; [done|]. rewrite Forall_fmap, sort_items_perm. clear Hc Hnd.
    induction Hts as [|[k v] [k' t] l ts Hv Hts IHl]; [constructor|].
    rewrite !Forall_cons in *. destruct IH as [IHv IH], Hcd as [Hcv Hcd], Hj as [Hjv Hj].
    cbn [fst snd] in *. apply bind_ok in Hv as (t' & Ht' & [= <- <-]).
    apply bind_ok in Hjv as ([] & Hk & Hjv). destruct (64 <? n + 1); [discriminate|].
    apply refuse_if_ok in Hk. split; [|eauto].
    unfold dump_pair, compose. cbn [fst snd]. apply tame_app; [by apply tame_string|].
    apply tame_app; [by apply tame_ascii|]. by eapply IHv.
Qed.

(** ** The receiver's checks on the sorted object *)

Lemma check_json_norm v n : check_json v n = Ok tt -> check_json (norm v) n = Ok tt.
Proof.
  revert n. induction v as [|b|z|f|s|l IH|d IH|] using json_ind'; intros n; try done;
    cbn [check_json norm]; (destruct (64 <? n); [done|]); rewrite !each_ok.
  - change (map norm l) with (norm <$> l). rewrite Forall_fmap. rewrite !Forall_forall in *. unfold compose. eauto.
  - rewrite sort_items_perm. change (map ?f d) with (f <$> d). rewrite Forall_fmap.
    rewrite !Forall_forall in *. unfold compose. cbn [fst snd].
    intros H kv Hin. specialize (H kv Hin). apply bind_ok in H as ([] & Hk & Hv).
    rewrite Hk. cbn [mbind result_bind]. by apply IH.
Qed.

Lemma pairs_step (done rest : dict) :
  NoDup (keys (done ++ rest)) ->
  fold_left (fun acc kv =>
    result ← acc;
    if has_key kv.1 result then err "duplicate JSON object key"
    else Ok (set_key kv.1 kv.2 result)) rest (Ok done) = Ok (done ++ rest).
Proof.
  revert done. induction rest as [|[k v] rest IH]; intros done Hnd; [by rewrite app_nil_r|].
  cbn [fold_left mbind result_bind fst snd].
  assert (Hk : k ∉ keys done).
  { unfold keys in *. rewrite fmap_app, fmap_cons in Hnd.
    apply NoDup_app in Hnd as (_ & Hd & _). intros Hin. apply (Hd k Hin). left. }
  destruct (has_key k done) eqn:E.
  { apply has_key_true, lookup_key_keys in E. done. }
  rewrite set_key_fresh by done. rewrite IH; [by rewrite <- app_assoc|].
  by rewrite <- app_assoc.
Qed.

Lemma pairs_ok d : NoDup (keys d) -> pairs d = Ok d.
Proof. intros H. exact (pairs_step [] d H). Qed.

(** ** The order of keys does not matter *)

Lemma leb_le s t : String.leb s t = true <-> String.le s t.
Proof. unfold String.le. by rewrite Is_true_true. Qed.

Lemma insert_item_swap {A} (x y : string * A) (l : list (string * A)) :
  x.1 <> y.1 -> insert_item x (insert_item y l) = insert_item y (insert_item x l).
Proof.
  intros Hne. induction l as [|z l IH]; cbn [insert_item].
  - destruct (String.leb x.1 y.1) eqn:E1, (String.leb y.1 x.1) eqn:E2; try done.
    + by destruct Hne; apply String.leb_antisym.
    + apply string_leb_total in E1. congruence.
  - destruct (String.leb y.1 z.1) eqn:Eyz, (String.leb x.1 z.1) eqn:Exz; cbn [insert_item];
      rewrite ?Eyz, ?Exz.
    + destruct (String.leb x.1 y.1) eqn:E1, (String.leb y.1 x.1) eqn:E2; rewrite ?Eyz, ?Exz; try done.
      * by destruct Hne; apply String.leb_antisym.
      * apply string_leb_total in E1. congruence.
    + destruct (String.leb x.1 y.1) eqn:E1; rewrite ?Exz; [|done].
      apply leb_le in E1, Eyz. pose proof (transitivity E1 Eyz) as H%leb_le. congruence.
    + destruct (String.leb y.1 x.1) eqn:E1; rewrite ?Eyz; [|done].
      apply leb_le in E1, Exz. pose proof (transitivity E1 Exz) as H%leb_le. congruence.
    + by rewrite IH.
Qed.

Lemma sort_items_permuted {A} (d e : list (string * A)) :
  d ≡ₚ e -> NoDup d.*1 -> sort_items d = sort_items e.
Proof.
  induction 1 as [|x d e Hp IH|x y d|d e f H1 IH1 H2 IH2]; intros Hnd.
  - done.
  - cbn. apply NoDup_cons in Hnd as [_ Hnd]. f_equal. by apply IH.
  - cbn. apply insert_item_swap. rewrite !fmap_cons in Hnd.
    apply NoDup_cons in Hnd as [Hn _]. set_solver.
  - rewrite IH1 by done. apply IH2. by rewrite <- H1.
Qed.

Lemma traverse_permuted {A B} (f : A -> result exn B) (l k : list A) ys :
  l ≡ₚ k -> traverse f l = Ok ys -> exists zs, traverse f k = Ok zs /\ ys ≡ₚ zs.
Proof.
  intros Hp Hl. apply traverse_ok in Hl.
  destruct (Permutation_Forall2 Hp Hl) as (zs & Hys & Hzs). exists zs.
  by rewrite traverse_ok.
Qed.

Lemma dumps_permuted (d e : dict) t :
  d ≡ₚ e -> NoDup (keys d) -> dumps (JDict d) = Ok t -> dumps (JDict e) = Ok t.
Proof.
  intros Hp Hnd Hd. cbn [dumps] in *. apply bind_ok in Hd as (items & Hi & Hd).
  destruct (traverse_permuted _ _ _ _ Hp Hi) as (items' & -> & Hp'). cbn [mbind result_bind].
  rewrite <- Hd. do 3 f_equal. do 2 f_equal. symmetry. apply sort_items_permuted; [done|].
  assert (Hk : items.*1 = keys d); [|by rewrite Hk].
  apply traverse_ok in Hi. clear -Hi. induction Hi as [|kv it d items H _ IH]; [done|].
  ok_inv. unfold keys in *. rewrite !fmap_cons. by rewrite IH.
Qed.

Lemma check_json_permuted (d e : dict) n :
  d ≡ₚ e -> check_json (JDict d) n = Ok tt -> check_json (JDict e) n = Ok tt.
Proof. intros Hp. cbn [check_json]. destruct (64 <? n); [done|]. by rewrite !each_ok, Hp. Qed.

(** ** Lookup in the sorted object *)

Lemma lookup_key_spec k v (d : dict) :
  NoDup (keys d) -> lookup_key k d = Some v <-> (k, v) ∈ d.
Proof.
  intros Hnd. split; [apply lookup_key_elem|].
  induction d as [|[k' v'] d IH]; [by intros ?%elem_of_nil|].
  unfold keys in Hnd. rewrite fmap_cons in Hnd. apply NoDup_cons in Hnd as [Hn Hnd].
  cbn [lookup_key]. intros [[= -> ->]|Hin]%elem_of_cons; [by rewrite decide_True|].
  rewrite decide_False; [by apply IH|]. intros ->. apply Hn.
  by apply (list_elem_of_fmap_2 fst) in Hin.
Qed.

Definition sorted_dict (d : dict) : dict := sort_items (map (fun kv => (kv.1, norm kv.2)) d).

Lemma keys_sorted d : keys (sorted_dict d) ≡ₚ keys d.
Proof.
  unfold keys, sorted_dict. rewrite sort_items_perm. change (map ?f d) with (f <$> d).
  by rewrite <- list_fmap_compose.
Qed.

Lemma lookup_sorted k (d : dict) :
  NoDup (keys d) -> lookup_key k (sorted_dict d) = norm <$> lookup_key k d.
Proof.
  intros Hnd. assert (Hnd' : NoDup (keys (sorted_dict d))) by (by rewrite keys_sorted).
  destruct (lookup_key k d) as [v|] eqn:E; cbn [fmap option_fmap option_map].
  - apply lookup_key_spec; [done|]. apply lookup_key_elem in E. unfold sorted_dict.
    rewrite sort_items_perm. change (map ?f d) with (f <$> d).
    apply list_elem_of_fmap. by exists (k, v).
  - apply lookup_key_none. rewrite keys_sorted. rewrite lookup_key_keys, E. by intros [? [=]].
Qed.

(** ** What was let out reads back *)

Lemma message_limit_range d limit : message_limit d = Ok limit -> 0 < limit <= MAX_HELLO_BYTES.
Proof.
  unfold message_limit. intros H. apply bind_ok in H as (b & _ & H).
  destruct b; [by injection H as <-|]. apply bind_ok in H as (c & _ & H).
  by destruct c; injection H as <-.
Qed.

Lemma message_limit_type d e : get d "type" = get e "type" -> message_limit d = message_limit e.
Proof. unfold message_limit. by intros ->. Qed.

Lemma preflight_decodes d worker incarnation text :
  clean (JDict d) -> preflight_worker_control (JDict d) worker incarnation = Ok text ->
  decode_control (RawStr text) = Ok (sorted_dict d).
Proof.
  intros Hc H. unfold preflight_worker_control in H. ok_inv. p6_inv.
  destruct (validate_message_inv _ _ _ Hv) as (? & kind & [= <-] & Hval).
  pose proof (val_json _ _ _ _ Hval) as Hj. pose proof (val_type _ _ _ _ Hval) as Ht.
  unfold canonical_bytes in Hv0. rewrite Hj in Hv0. cbn [mbind result_bind] in Hv0.
  destruct (dumps (JDict d)) as [t|] eqn:Hd; [|discriminate]. injection Hv0 as ->.
  destruct (tame_dumps _ 0 _ Hc Hj Hd) as [_ Hs]. inversion Hc as [| | | | | |? Hnd _]; subst.
  pose proof (loads_dumps pairs constant pairs_ok _ _ Hc Hd) as Hl.
  pose proof (message_limit_range _ _ Hv1) as Hrange.
  assert (Hlen : 0 < blen text).
  { cbn [dumps] in Hd. apply bind_ok in Hd as (? & _ & [= <-]). done. }
  unfold decode_control. rewrite Hs. cbn [mbind result_bind].
  rewrite (proj2 (Z.eqb_neq _ _)) by lia. rewrite (proj2 (Z.ltb_ge _ _)) by lia.
  cbn [orb refuse_if mbind result_bind]. rewrite Hl. cbn [norm mbind result_bind].
  change (check_json (norm (JDict d)) 0) with (check_json (JDict (sorted_dict d)) 0).
  fold (sorted_dict d).
  pose proof (check_json_norm _ _ Hj) as Hjn. change (norm (JDict d)) with (JDict (sorted_dict d)) in Hjn.
  rewrite Hjn. cbn [mbind result_bind].
  rewrite (message_limit_type (sorted_dict d) d), Hv1.
  - cbn [mbind result_bind]. by rewrite (proj2 (Z.ltb_ge _ _)) by lia.
  - unfold get in *. rewrite lookup_sorted by done.
    destruct (lookup_key "type" d) as [v|]; [|done]. cbn in *. by subst v.
Qed.
