(* ===== verification/Protocol6Spec.v ===== *)
(** * Properties of the wire protocol *)

From S2P Require Import Prelude PyFloat Hashes Json JsonFacts Protocol6 Protocol6Facts.
From S2P Require Import Protocol6Codec Samples.
Open Scope Z_scope.

(** C33 What the worker sends, the backend reads back: the text that
    [preflight_worker_control] lets out is within the receiver's limit and
    decodes to the same object, its keys sorted at every level.  It holds of
    every message that is a Python object, floats included: no dict in it has a
    key twice, and each float is read back from its [repr] ([clean]; Python
    documents this of every finite float, and [float_reads] decides it of
    one). *)
Theorem sent_control_decodes d worker incarnation text :
  clean (JDict d) -> preflight_worker_control (JDict d) worker incarnation = Ok text ->
  decode_control (RawStr text) = Ok (sorted_dict d).
Proof. apply preflight_decodes. Qed.

(** The progress of a job, with a fraction. *)
Definition progress_message : dict :=
  ("type", JStr "job_progress") :: lease_fields ++
  [("job_id", JStr "22222222-2222-4222-8222-222222222222"); ("dispatch_sequence", JInt 1);
   ("dispatch_token", JStr "token"); ("phase", JStr "denoise"); ("step", JInt 7); ("steps", JInt 30);
   ("progress", JFloat (float_of_ratio false 233 1000))].

Lemma sent_control_decodes_witness :
  exists text, preflight_worker_control (JDict progress_message) (Some WORKER) (Some INCARNATION) = Ok text
    /\ decode_control (RawStr text) = Ok (sorted_dict progress_message).
Proof.
  destruct (preflight_worker_control (JDict progress_message) (Some WORKER) (Some INCARNATION)) as [text|] eqn:H;
    [|vm_compute in H; discriminate].
  exists text. split; [done|].
  apply (sent_control_decodes progress_message (Some WORKER) (Some INCARNATION)); [|done].
  apply clean_dict.
  - apply (bool_decide_unpack _). vm_compute. exact I.
  - let l := eval vm_compute in progress_message in change progress_message with l.
    repeat constructor; vm_compute; reflexivity.
Defined.

(** The canonical bytes of an object do not depend on the order its keys
    were set in, and determine it up to that order. *)
Theorem canonical_bytes_identify (d e : dict) text :
  clean (JDict d) -> clean (JDict e) -> canonical_bytes (JDict d) = Ok text ->
  (d ≡ₚ e -> canonical_bytes (JDict e) = Ok text)
  /\ (canonical_bytes (JDict e) = Ok text -> norm (JDict d) = norm (JDict e)).
Proof.
  intros Hd He H. unfold canonical_bytes in *. ok_inv.
  destruct (dumps (JDict d)) as [t|] eqn:Ht; [|discriminate]. injection H as ->. split.
  - intros Hp. rewrite (check_json_permuted d e) by done. cbn [mbind result_bind].
    inversion Hd; subst. by rewrite (dumps_permuted d e text).
  - intros H. ok_inv. destruct (dumps (JDict e)) as [t|] eqn:Ht'; [|discriminate].
    injection H as ->. by apply (dumps_inj _ _ text).
Qed.

Lemma canonical_bytes_identify_witness :
  canonical_bytes (JDict [("b", JInt 1); ("a", JNull)]) = Ok (quoted "{'a':null,'b':1}").
Proof.
  apply (canonical_bytes_identify [("a", JNull); ("b", JInt 1)]); try reflexivity.
  - repeat constructor; by apply (bool_decide_unpack _); vm_compute.
  - repeat constructor; by apply (bool_decide_unpack _); vm_compute.
  - by apply perm_swap.
Defined.





(** ** Final reports *)

Lemma inventory_fold reports st st' :
  fold_left inventory_step reports (Ok st) = Ok st' ->
  exists rs, reports = map JDict rs
    /\ Forall (fun r => exists kind, get r "kind" = kind /\ report_fields kind <> []
                 /\ (forall k, k ∈ keys r <-> k ∈ report_fields kind)) rs
    /\ (NoDup st.1 -> NoDup st'.1) /\ st'.1 = reverse (map report_identity rs) ++ st.1
    /\ st'.2 = st.2 ++ map report_order rs.
Proof.
  assert (Herr : forall l (e : exn), fold_left inventory_step l (Err e) = Err e).
  { induction l as [|x l IH]; intros e; [done|]. cbn [fold_left]. apply IH. }
  revert st. induction reports as [|report reports IH]; intros [seen order] H; cbn [fold_left] in H.
  - injection H as <-. exists []. repeat split; auto; cbn; by rewrite ?app_nil_r.
  - destruct (inventory_step (Ok (seen, order)) report) as [st1|e] eqn:Hs; [|by rewrite Herr in H].
    unfold inventory_step in Hs. cbn [mbind result_bind fst snd] in Hs.
    destruct report as [| | | | | |r|]; try discriminate Hs. p6_inv.
    destruct (IH _ H) as (rs & -> & Hrs & Hnd & Hseen & Horder). cbn [fst snd] in *.
    exists (r :: rs). split; [done|]. split; [|split; [|split]].
    + constructor; [|done]. exists (get r "kind"). split; [done|].
      match goal with Hb : bool_decide (report_fields _ = []) = false |- _ =>
        apply bool_decide_eq_false in Hb; split; [exact Hb|] end.
      match goal with Hb : same_names _ _ = true |- _ =>
        unfold same_names in Hb; apply andb_true_iff in Hb as [H1 H2] end.
      rewrite within_spec in H1, H2. split; auto.
    + intros Hn. apply Hnd. apply NoDup_cons. split; [|done].
      match goal with Hb : bool_decide (report_identity _ ∈ _) = false |- _ =>
        by apply bool_decide_eq_false in Hb end.
    + rewrite Hseen. cbn [map]. rewrite reverse_cons, <- app_assoc. done.
    + rewrite Horder. cbn [map]. by rewrite <- app_assoc.
Qed.

Definition not_after (a b : report_key) : Prop := report_key_compare a b <> Gt.

Lemma in_order_sorted l : in_order l = true <-> Sorted not_after l.
Proof.
  induction l as [|a l IH]; [split; [constructor|done]|].
  destruct l as [|b l]; [split; [repeat constructor|done]|].
  change (in_order (a :: b :: l))
    with (match report_key_compare a b with Gt => false | _ => in_order (b :: l) end).
  unfold not_after in *. split.
  - intros H. constructor; [apply IH; by destruct (report_key_compare a b)|].
    constructor. intros Hgt. by rewrite Hgt in H.
  - intros H. inversion H as [|? ? Hs Hd]; subst. inversion Hd; subst.
    apply IH in Hs. by destruct (report_key_compare a b).
Qed.

(** The drain report of a worker lists each finished range once: the final
    reports of a validated [worker_drained] have exactly the fields of their
    kind, no two have the same identity (kind, subject, attempt and range),
    and they stand in the canonical order. *)
Theorem drained_inventory_unique d w i :
  validate_message (JDict d) w i = Ok tt -> get d "type" = JStr "worker_drained" ->
  exists rs, get d "final_reports" = JList (map JDict rs)
    /\ Forall (fun r => exists kind, get r "kind" = kind /\ report_fields kind <> []
                 /\ (forall k, k ∈ keys r <-> k ∈ report_fields kind)) rs
    /\ NoDup (map report_identity rs)
    /\ Sorted not_after (map report_order rs).
Proof.
  intros Hval Ht. destruct (validate_message_inv _ _ _ Hval) as (? & kind & [= <-] & Hv).
  pose proof (val_type _ _ _ _ Hv) as Ht'. rewrite Ht in Ht'. injection Ht' as <-.
  pose proof (val_inventory _ _ _ _ Hv eq_refl) as Hinv. unfold inventory in Hinv.
  destruct (get d "final_reports") as [| | | | |reports| |]; try discriminate Hinv.
  apply bind_ok in Hinv as (st & Hf & Hinv). p6_inv.
  destruct (inventory_fold _ _ _ Hf) as (rs & -> & Hrs & Hnd & Hseen & Horder).
  cbn [fst snd] in *. exists rs. split; [done|]. split; [done|].
  rewrite app_nil_r in Hseen. split.
  - specialize (Hnd (NoDup_nil_2)). rewrite Hseen in Hnd.
    by rewrite reverse_Permutation in Hnd.
  - apply in_order_sorted. by rewrite <- (app_nil_l (map report_order rs)), <- Horder.
Qed.

Definition drained : dict :=
  [("type", JStr "worker_drained"); ("worker_id", JStr WORKER); ("incarnation", JStr INCARNATION);
   ("region", JStr "local"); ("owner_epoch", JInt 7);
   ("drain_id", JStr "88888888-8888-4888-8888-888888888888");
   ("physical_complete", JBool true); ("active_attempt_count", JInt 0);
   ("final_reports", JList [JDict (session_report "77777777-7777-4777-8777-777777777777" 1);
                            JDict (session_report "77777777-7777-4777-8777-777777777778" 2)])].

Lemma drained_inventory_unique_witness :
  exists rs, get drained "final_reports" = JList (map JDict rs)
    /\ NoDup (map report_identity rs).
Proof.
  destruct (drained_inventory_unique drained (Some WORKER) (Some INCARNATION)) as (rs & H & _ & Hn & _);
    [vm_compute; reflexivity|reflexivity|by exists rs].
Defined.

(** ** Errors *)

Definition is_protocol6_error (e : exn) : bool :=
  match e with Protocol6Error _ => true | _ => false end.

Lemma each_err {A} (f : A -> result exn unit) (P : exn -> Prop) l e :
  each f l = Err e -> Forall (fun x => forall e, f x = Err e -> P e) l -> P e.
Proof.
  induction l as [|x l IH]; [done|]. cbn [each]. rewrite Forall_cons. intros H [Hx Hl].
  destruct (f x) as [[]|e'] eqn:E; [by apply IH|]. injection H as <-. by apply Hx.
Qed.

Lemma check_json_err v n e : check_json v n = Err e -> is_protocol6_error e = true.
Proof.
  revert n e. induction v as [|b|z|f|s|l IH|d IH|] using json_ind'; intros n e; cbn [check_json];
    (destruct (64 <? n); [by intros [= <-]|]); try done.
  - unfold require. destruct (isfinite f); [done|]. by intros [= <-].
  - unfold refuse_if. destruct (has_surrogate s); [|done]. by intros [= <-].
  - intros H. apply (each_err _ (fun e => is_protocol6_error e = true) _ _ H). rewrite Forall_forall in *. eauto.
  - intros H. apply (each_err _ (fun e => is_protocol6_error e = true) _ _ H). rewrite Forall_forall in *. intros kv Hin e'.
    destruct (64 <? n + 1); [by intros [= <-]|]. unfold refuse_if.
    destruct (has_surrogate kv.1); cbn [mbind result_bind]; [by intros [= <-]|]. eauto.
  - by intros [= <-].
Qed.

(** The decoded type can be looked up in a set. *)
Definition hashable (v : json) : bool :=
  match v with JList _ | JDict _ => false | _ => true end.

Lemma in_set_hashable v names : hashable v = true -> exists b, in_set v names = Ok b.
Proof. destruct v; try discriminate; by eexists. Qed.

(** The decoder refuses with the protocol's own error and nothing else,
    but for one case: an object whose [type] is itself an array or an object
    raises the [TypeError] of an unhashable key. *)
Theorem decode_control_errors raw e :
  decode_control raw = Err e ->
  is_protocol6_error e = true
  \/ e = TypeError "unhashable type"
     /\ exists text d, loads pairs constant text = Ok (JDict d) /\ hashable (get d "type") = false.
Proof.
  unfold decode_control. intros H.
  destruct (match raw with RawBytes _ => _ | RawStr _ => _ | RawOther => _ end) as [data|e1] eqn:Hraw.
  2:{ injection H as <-. left. destruct raw as [t|t|]; [| |by injection Hraw as <-].
      - destruct (utf8_valid t); [done|]. by injection Hraw as <-.
      - destruct (has_surrogate t); [|done]. by injection Hraw as <-. }
  cbn [mbind result_bind] in H. unfold refuse_if in H.
  destruct (_ || _); cbn [mbind result_bind] in H; [left; by injection H as <-|].
  destruct (loads pairs constant data) as [v|e1] eqn:Hl; cbn [mbind result_bind] in H;
    [|left; destruct e1; by injection H as <-].
  destruct v as [| | | | | |d|]; try (left; by injection H as <-).
  destruct (check_json (JDict d) 0) as [[]|e1] eqn:Hj; cbn [mbind result_bind] in H.
  2:{ injection H as <-. left. by apply check_json_err in Hj. }
  destruct (hashable (get d "type")) eqn:Hh.
  - left. unfold message_limit in H.
    destruct (in_set_hashable _ ["hello"; "models_changed"; "store_inventory"] Hh) as [b Hb].
    destruct (in_set_hashable _ ["open_session"; "update_session"; "dispatch_job"; "resume_job";
                                 "prepare_realtime_class"] Hh) as [c Hc].
    rewrite Hb, Hc in H. cbn [mbind result_bind] in H. destruct b, c; cbn [mbind result_bind] in H;
      destruct (_ <? _) in H; try discriminate H; by injection H as <-.
  - right. split; [|by exists data, d]. unfold message_limit, in_set in H.
    destruct (get d "type"); try discriminate Hh; by injection H as <-.
Qed.

Lemma decode_control_errors_witness :
  decode_control (RawStr (quoted "{'type':['hello']}")) = Err (TypeError "unhashable type")
  /\ exists text d, loads pairs constant text = Ok (JDict d) /\ hashable (get d "type") = false.
Proof.
  split; [vm_compute; reflexivity|].
  destruct (decode_control_errors (RawStr (quoted "{'type':['hello']}")) (TypeError "unhashable type"))
    as [H|[_ H]]; [vm_compute; reflexivity|discriminate H|exact H].
Defined.

(** The validator of a class report reads a component it has not checked is
    there, and hands integers of any size to [math.isfinite]. *)
Example class_report_raises_key_error :
  check_class_prepared [("class_components", JDict []);
    ("class_id", JStr (sha256 "{}"))] = Err (KeyError "positive_chunks").
Proof. vm_compute. reflexivity. Qed.
Example huge_number_raises_overflow :
  validate_types (JInt (10 ^ 400)) "progress" = Err OverflowError.
Proof. vm_compute. reflexivity. Qed.
