(* ===== verification/Ledger.v ===== *)
(** * The worker's command ledger and report stamping

    Models the protocol 6 part of worker/worker/client.py: the identity a
    command carries, the acknowledgement built for it, the ledger that runs
    every command once and answers a redelivery with the saved bytes, and the
    stamping of the reports a worker sends. *)

From S2P Require Import Prelude PyFloat Hashes Json JsonFacts Protocol6.
Open Scope Z_scope.

(** ** Identity and acknowledgement of a command *)

Definition IDENTITY_FIELDS : list string :=
  ["worker_id"; "incarnation"; "region"; "lease_id"; "owner_epoch"; "grant_nonce";
   "lease_expires_at"; "session_id"; "attempt_id"; "control_generation";
   "params_revision"; "job_id"; "dispatch_sequence"; "dispatch_token"].

(** [{key: d[key] for key in names if key in d}] *)
Definition project (names : list string) (d : dict) : dict :=
  omap (fun k => v ← lookup_key k d; Some (k, v)) names.

Definition command_identity (command : dict) : result exn dict :=
  let identity := project IDENTITY_FIELDS command in
  match get command "work_budget" with
  | JDict budget => range_id ← item budget "range_id"; Ok (set_key "range_id" range_id identity)
  | _ => Ok identity
  end.

Definition ACK_FIELDS : list string :=
  ["worker_id"; "incarnation"; "region"; "owner_epoch"; "lease_id"; "lease_expires_at";
   "grant_nonce"; "command_sequence"; "command_id"; "body_hash"].

Definition ack_subject_fields (kind : json) : list string :=
  match kind with
  | JStr k =>
      if is_in k ["open_session"; "update_session"; "close_session"]
      then ["session_id"; "attempt_id"; "control_generation"]
      else if is_in k ["dispatch_job"; "cancel_job"] then ["job_id"; "dispatch_sequence"]
      else []
  | _ => []
  end.

(** [d[k]] for each name, in order. *)
Definition copy_fields (names : list string) (d : dict) : result exn dict :=
  traverse (fun k => v ← item d k; Ok (k, v)) names.

Definition command_ack_fields (command : dict) : result exn dict :=
  common ← copy_fields ACK_FIELDS command;
  kind ← item command "type";
  subject ← copy_fields (ack_subject_fields kind) command;
  Ok (("type", JStr "command_ack") :: common ++ subject).

(** ** The ledger *)

Definition MAX_RETAINED : nat := 256.
Definition MAX_SEQUENCE : Z := 2 ^ 63 - 1.

Record saved_result := { saved_id : json; saved_hash : json; saved_ack : string }.

(** [results] is in insertion order. *)
Record ledger := { next_sequence : Z; results : list (Z * saved_result) }.

Definition new_ledger : ledger := {| next_sequence := 1; results := [] |}.

Definition saved (sequence : Z) (l : ledger) : option saved_result :=
  snd <$> List.find (fun r => r.1 =? sequence) (results l).

Definition encode_ack (ack : dict) (worker_id incarnation : string) : result exn string :=
  _ ← validate_message (JDict ack) (Some worker_id) (Some incarnation);
  preflight_worker_control (JDict ack) (Some worker_id) (Some incarnation).

Definition refused_ack (command : dict) (code : string) (expected : option Z)
    (worker_id incarnation : string) : result exn string :=
  fields ← command_ack_fields command;
  let ack := set_key "code" (JStr code) (set_key "status" (JStr "refused") fields) in
  encode_ack (match expected with
              | Some n => set_key "expected_sequence" (JInt n) ack
              | None => ack end) worker_id incarnation.

(** The acknowledgement of a command that ran. *)
Definition ack_message (command : dict) (outcome : string * option string) : result exn dict :=
  fields ← command_ack_fields command;
  let ack := set_key "status" (JStr outcome.1) fields in
  Ok (match outcome.2 with
      | Some code => set_key "code" (JStr code) ack
      | None => ack end).
Definition outcome_ack (command : dict) (outcome : string * option string)
    (worker_id incarnation : string) : result exn string :=
  ack ← ack_message command outcome;
  encode_ack ack worker_id incarnation.

(** [results[sequence] = r], then the oldest entry goes when there are too
    many. *)
Definition retain (sequence : Z) (r : saved_result) (rs : list (Z * saved_result)) :=
  let rs := rs ++ [(sequence, r)] in
  if Nat.ltb MAX_RETAINED (length rs) then drop 1 rs else rs.

(** [handle], over the state [W] of everything the command acts on.  [apply]
    may raise; what it did to [W] stays done. *)
Section Handle.
Context {W : Type}.
Variable apply : dict -> W -> result exn (string * option string) * W.
Variables worker_id incarnation : string.

Definition handle (command : dict) (l : ledger) (w : W) : result exn string * (ledger * W) :=
match item command "command_sequence", item command "command_id" with
| Err e, _ | Ok _, Err e => (Err e, (l, w))
| Ok (JInt sequence), Ok command_id =>
    match saved sequence l with
    | Some r =>
        (body_hash ← item command "body_hash";
         if decide (saved_id r = command_id /\ saved_hash r = body_hash) then Ok (saved_ack r)
         else refused_ack command "sequence_gap" (Some (Z.min (next_sequence l) MAX_SEQUENCE))
                worker_id incarnation, (l, w))
    | None =>
        if sequence <? next_sequence l then
          (refused_ack command "stale_sequence" None worker_id incarnation, (l, w))
        else if next_sequence l <? sequence then
          (refused_ack command "sequence_gap" (Some (next_sequence l)) worker_id incarnation,
           (l, w))
        else
          let (outcome, w') := apply command w in
          match outcome with
          | Err e => (Err e, (l, w'))
          | Ok outcome =>
              match outcome_ack command outcome worker_id incarnation,
                    item command "body_hash" with
              | Err e, _ | Ok _, Err e => (Err e, (l, w'))
              | Ok text, Ok body_hash =>
                  (Ok text,
                   ({| next_sequence := Z.min (sequence + 1) MAX_SEQUENCE;
                       results := retain sequence
                         {| saved_id := command_id; saved_hash := body_hash;
                            saved_ack := text |} (results l) |}, w'))
              end
          end
    end
| Ok _, Ok _ => (Err (TypeError "command_sequence"), (l, w))
end.
End Handle.

(** ** Stamping reports *)

Definition report_hash (message : dict) : result exn string :=
  source ← canonical_bytes (JDict (without "report_hash" message));
  Ok (sha256 source).

Definition COMMON_IDENTITY : list string :=
  ["worker_id"; "incarnation"; "region"; "owner_epoch"; "grant_nonce"; "lease_id";
   "lease_expires_at"].

Definition SESSION_REPORTS : list string := ["session_ready"; "session_refused"; "session_closed"].
Definition JOB_REPORTS : list string := ["job_done"; "job_failed"; "job_cancelled"].

(** The identity fields a message of this kind is stamped with. *)
Definition stamped_fields (kind : string) : list string :=
  if is_in kind SESSION_REPORTS then
    COMMON_IDENTITY ++ ["session_id"; "attempt_id"; "control_generation"]
    ++ (if decide (kind = "session_ready") then ["params_revision"] else [])
  else if is_in kind ("job_progress" :: JOB_REPORTS) then
    COMMON_IDENTITY ++ ["job_id"; "dispatch_sequence"; "dispatch_token"]
  else COMMON_IDENTITY.

(** [identity.setdefault(key, 1)]: the value, and the identity afterwards. *)
Definition sequence_of (key : string) (identity : dict) : json * dict :=
  match lookup_key key identity with
  | Some v => (v, identity)
  | None => (JInt 1, identity ++ [(key, JInt 1)])
  end.

Definition refusal_code (reason : json) : result exn string :=
  match reason with
  | JStr r => Ok (if decide (r = "invalid_params") then "invalid_params" else "model_unavailable")
  | JList _ | JDict _ => Err (TypeError "unhashable type")
  | _ => Ok "model_unavailable"
  end.

(** The message stamped from the identity of the command it answers, and the
    identity afterwards, which the stamping may extend. *)
Definition enrich (message identity : dict) : result exn (dict * dict) :=
  _ ← in_set (get message "type") SESSION_REPORTS;
  let kind := text_of (get message "type") in
  let result := update_with (project (stamped_fields kind) identity) message in
  let result := if decide (kind = "session_ready")
    then set_default "params_revision"
           (default (JInt 1) (lookup_key "params_revision" identity)) result
    else result in
  result ← (if decide (kind = "session_refused") then
      let reason := default (JStr "model_unavailable") (lookup_key "reason" result) in
      code ← refusal_code reason;
      Ok (set_default "code" (JStr code) (without "reason" result))
    else Ok result);
  '(result, identity) ← (if decide (kind = "session_closed") then
      range_id ← item identity "range_id";
      let (n, identity) := sequence_of "session_report_sequence" identity in
      Ok (update_with [("range_id", range_id); ("report_sequence", n);
                       ("physical_complete", JBool true)] result, identity)
    else Ok (result, identity));
  result ← (if is_in kind ("job_progress" :: JOB_REPORTS) then
      dispatch ← item identity "dispatch_sequence";
      token ← item identity "dispatch_token";
      Ok (set_default "dispatch_token" token (set_default "dispatch_sequence" dispatch result))
    else Ok result);
  let result := if decide (kind = "job_failed")
    then set_default "failure_code" (JStr "generation_failed") result else result in
  '(result, identity) ← (if is_in kind JOB_REPORTS then
      range_id ← item identity "range_id";
      let (n, identity) := sequence_of "job_report_sequence" identity in
      Ok (update_with
            [("range_id", range_id); ("report_sequence", n);
             ("gpu_ms", default (JInt 0) (lookup_key "gpu_ms" result));
             ("duration_ms", default (JInt 0) (lookup_key "duration_ms" result));
             ("images", default (JInt (if decide (kind = "job_done") then 1 else 0))
                          (lookup_key "images" result));
             ("physical_complete", JBool true)] result, identity)
    else Ok (result, identity));
  if is_in kind ("session_closed" :: JOB_REPORTS) then
    hash ← report_hash result;
    Ok (set_key "report_hash" (JStr hash) result, identity)
  else Ok (result, identity).

(** What the socket of [Protocol6WebSocket] sends for a control object: the
    message is stamped when an identity is set, validated, and encoded. *)
Definition send_control (message : dict) (identity : option dict)
    (worker_id incarnation : string) : result exn (string * option dict) :=
  '(message, identity) ← match identity with
      | Some i => r ← enrich message i; Ok (r.1, Some r.2)
      | None => Ok (message, None)
      end;
  _ ← validate_message (JDict message) (Some worker_id) (Some incarnation);
  encoded ← preflight_worker_control (JDict message) (Some worker_id) (Some incarnation);
  Ok (encoded, identity).
