(* ===== verification/LedgerFacts.v ===== *)
(** * Properties of the command ledger

    The acknowledgement of every validated command is itself a valid message;
    a command runs once, in sequence order, whatever is redelivered or
    reordered; a redelivery within the retention window is answered with the
    bytes of the first answer and changes nothing; the stamped reports carry
    the hash of their own canonical bytes. *)

From S2P Require Import Prelude PyFloat Hashes Json JsonFacts Protocol6 Protocol6Facts Ledger.
Open Scope Z_scope.

(** ** Copied fields *)

Lemma copy_fields_ok names d fs :
  copy_fields names d = Ok fs ->
  keys fs = names /\ Forall (fun kv => lookup_key kv.1 d = Some kv.2) fs.
Proof.
  unfold copy_fields. intros H%traverse_ok.
  induction H as [|k kv names fs Hk _ [IHk IHf]]; [done|].
  ok_inv. apply item_lookup in Hv. split; [done|by constructor].
Qed.

Lemma copy_fields_total names d :
  (forall k, k ∈ names -> k ∈ keys d) -> exists fs, copy_fields names d = Ok fs.
Proof.
  unfold copy_fields. induction names as [|k names IH]; intros H; [by exists []|].
  destruct IH as [fs Hfs]; [intros; apply H; by right|].
  destruct (proj1 (lookup_key_keys k d)) as [v Hv]; [apply H; left|].
  exists ((k, v) :: fs). apply item_lookup in Hv. simpl. rewrite Hv. simpl. by rewrite Hfs.
Qed.

Lemma copied_lookup (fs d : dict) k :
  Forall (fun kv => lookup_key kv.1 d = Some kv.2) fs -> k ∈ keys fs ->
  lookup_key k fs = lookup_key k d.
Proof.
  intros H Hk. apply lookup_key_keys in Hk as [v Hv]. rewrite Hv.
  apply lookup_key_elem in Hv. rewrite Forall_forall in H. symmetry. exact (H _ Hv).
Qed.

(** ** Acknowledgements are valid *)

Definition LEDGER_COMMANDS : list string :=
  ["open_session"; "update_session"; "close_session"; "dispatch_job"; "cancel_job"].

(** What [apply_command] returns. *)
Definition outcome_ok (o : string * option string) : Prop :=
  o = ("accepted", None)
  \/ exists code, o = ("refused", Some code) /\ code <> "sequence_gap" /\ has_surrogate code = false.

(** A field that passes the checks of a message it appears in. *)
Definition field_ok (kv : string * json) : Prop :=
  has_surrogate kv.1 = false /\ check_json kv.2 1 = Ok tt /\ validate_types kv.2 kv.1 = Ok tt.

Lemma fields_ok_checks d :
  Forall field_ok d -> check_json (JDict d) 0 = Ok tt /\ validate_types (JDict d) "" = Ok tt.
Proof.
  intros H. split.
  - cbn [check_json]. apply each_ok. eapply Forall_impl; [exact H|].
    intros kv (Hs & Hc & _). simpl. rewrite Hs. exact Hc.
  - change (each (fun kv => validate_types kv.2 kv.1) d = Ok tt).
    apply each_ok. eapply Forall_impl; [exact H|]. by intros kv (_ & _ & Ht).
Qed.

Lemma checked_field_ok d k v :
  check_json (JDict d) 0 = Ok tt -> validate_types (JDict d) "" = Ok tt ->
  lookup_key k d = Some v -> field_ok (k, v).
Proof.
  intros Hc Ht Hk. split; [|split].
  - cbn [check_json] in Hc. apply each_ok in Hc. rewrite Forall_forall in Hc.
    specialize (Hc _ (lookup_key_elem _ _ _ Hk)). apply bind_ok in Hc as ([] & Hc & _).
    change (refuse_if (has_surrogate k) (Protocol6Error "invalid Unicode") = Ok tt) in Hc.
    by apply refuse_if_ok in Hc.
  - by eapply (check_json_field _ _ _ 0).
  - by eapply validate_types_field.
Qed.

Section AckValid.
Variables (command : dict) (kind w i : string).
Hypothesis valid : validated command kind (Some w) (Some i).

Definition ack_names : list string := ACK_FIELDS ++ ack_subject_fields (JStr kind).

(** The acknowledgement fields are among the required fields of the kind. *)
Lemma ack_names_present : kind ∈ LEDGER_COMMANDS -> forall k, k ∈ ack_names -> k ∈ keys command.
Proof.
intros Hkind k Hk. eapply shape_required; [exact (val_shape _ _ _ _ valid)|].
revert k Hk. apply within_spec. unfold ack_names. clear valid.
assert (Hall : forallb (fun kind => within (ACK_FIELDS ++ ack_subject_fields (JStr kind))
                 (required kind)) LEDGER_COMMANDS = true) by (vm_compute; reflexivity).
rewrite forallb_forall in Hall. by apply Hall, list_elem_of_In.
Qed.

Lemma command_ack_fields_ok :
kind ∈ LEDGER_COMMANDS ->
exists fs, command_ack_fields command = Ok (("type", JStr "command_ack") :: fs)
           /\ keys fs = ack_names
           /\ Forall (fun kv => lookup_key kv.1 command = Some kv.2) fs.
Proof.
intros Hk. pose proof (ack_names_present Hk) as Hin.
destruct (copy_fields_total ACK_FIELDS command) as [f1 H1];
  [intros k ?; apply Hin, elem_of_app; by left|].
destruct (copy_fields_total (ack_subject_fields (JStr kind)) command) as [f2 H2];
  [intros k ?; apply Hin, elem_of_app; by right|].
assert (Htype : item command "type" = Ok (JStr kind)).
{ apply item_lookup. pose proof (val_type _ _ _ _ valid) as Ht. unfold get in Ht.
  destruct (lookup_key "type" command); [by rewrite <- Ht|discriminate]. }
unfold command_ack_fields. rewrite H1. cbn [mbind result_bind]. rewrite Htype.
cbn [mbind result_bind]. rewrite H2. cbn [mbind result_bind].
apply copy_fields_ok in H1 as [K1 F1], H2 as [K2 F2].
exists (f1 ++ f2). split; [done|]. split; [|by apply Forall_app].
unfold keys, ack_names in *. rewrite fmap_app. by f_equal.
Qed.

Lemma from_command (fs : dict) :
Forall (fun kv => lookup_key kv.1 command = Some kv.2) fs -> Forall field_ok fs.
Proof.
intros H. eapply Forall_impl; [exact H|]. intros [k v] Hk.
eapply checked_field_ok; [exact (val_json _ _ _ _ valid)|exact (val_types _ _ _ _ valid)|].
exact Hk.
Qed.
End AckValid.

(** The fields an acknowledgement adds to those it copies. *)
Definition outcome_fields (o : string * option string) : dict :=
  ("status", JStr o.1) :: match o.2 with Some code => [("code", JStr code)] | None => [] end.

Lemma outcome_fields_ok o : outcome_ok o -> Forall field_ok (outcome_fields o).
Proof.
  intros [->|(code & -> & _ & Hs)]; unfold outcome_fields; cbn [fst snd];
    repeat constructor; try (vm_compute; reflexivity).
  - simpl. by rewrite Hs.
Qed.

Lemma ack_shapes kind :
  kind ∈ LEDGER_COMMANDS ->
  shape_matches "command_ack" ("type" :: ack_names kind ++ ["status"]) = true
  /\ shape_matches "command_ack" ("type" :: ack_names kind ++ ["status"; "code"]) = true.
Proof. intros H. each_kind H; split; vm_compute; reflexivity. Qed.

(** More than one subject among the names. *)
Definition ambiguous (names : list string) : bool :=
  is_in "job_id" names && (is_in "session_id" names || is_in "request_id" names)
  || is_in "session_id" names && is_in "job_id" names
  || is_in "request_id" names && (is_in "session_id" names || is_in "job_id" names).

Lemma ack_subjects kind :
  kind ∈ LEDGER_COMMANDS ->
  ambiguous ("type" :: ack_names kind ++ ["status"]) = false
  /\ ambiguous ("type" :: ack_names kind ++ ["status"; "code"]) = false.
Proof. intros H. each_kind H; split; vm_compute; reflexivity. Qed.

Section AckMessage.
Variables (command : dict) (kind w i : string) (o : string * option string).
Hypothesis valid : validated command kind (Some w) (Some i).
Hypothesis kind_known : kind ∈ LEDGER_COMMANDS.
Hypothesis outcome : outcome_ok o.

Lemma ack_message_shape :
exists fs, ack_message command o = Ok (("type", JStr "command_ack") :: fs ++ outcome_fields o)
           /\ keys fs = ack_names kind
           /\ Forall (fun kv => lookup_key kv.1 command = Some kv.2) fs.
Proof.
destruct (command_ack_fields_ok command kind w i valid kind_known) as (fs & Hf & Hk & Hfs).
exists fs. split; [|done]. unfold ack_message. rewrite Hf. cbn [mbind result_bind].
assert (Hn : forall k, k = "status" \/ k = "code" -> k ∉ "type" :: keys fs).
{ intros k Hk'. rewrite Hk. clear -Hk' kind_known.
  assert (Hall : forallb (fun kind => negb (is_in k ("type" :: ack_names kind)))
                   LEDGER_COMMANDS = true) by (by destruct Hk' as [->| ->]; vm_compute).
  rewrite forallb_forall in Hall. apply list_elem_of_In in kind_known.
  specialize (Hall _ kind_known). apply negb_true_iff in Hall.
  intros H%is_in_spec. congruence. }
rewrite set_key_fresh by (apply Hn; by left). unfold outcome_fields.
destruct (o.2) as [code|]; [|done].
rewrite set_key_fresh; [by rewrite <- app_assoc|].
unfold keys. rewrite fmap_app. cbn. pose proof (Hn "code" (or_intror eq_refl)) as Hc.
set_solver.
Qed.

(** Names that are in no acknowledgement before the outcome is added. *)
Lemma not_copied k :
forallb (fun kind => negb (is_in k ("type" :: ack_names kind))) LEDGER_COMMANDS = true ->
k ∉ "type" :: ack_names kind.
Proof.
clear valid. intros Hall. rewrite forallb_forall in Hall.
apply list_elem_of_In in kind_known. specialize (Hall _ kind_known).
apply negb_true_iff in Hall. intros H%is_in_spec. congruence.
Qed.

Lemma get_outcome fs k :
keys fs = ack_names kind -> k ∉ "type" :: ack_names kind ->
get (("type", JStr "command_ack") :: fs ++ outcome_fields o) k = get (outcome_fields o) k.
Proof.
intros Hk Hn. unfold get. cbn [lookup_key]. rewrite decide_False by set_solver.
rewrite lookup_key_app, lookup_key_none by (rewrite Hk; set_solver). done.
Qed.

Lemma get_copied fs k :
Forall (fun kv => lookup_key kv.1 command = Some kv.2) fs -> k ∈ keys fs -> k <> "type" ->
get (("type", JStr "command_ack") :: fs ++ outcome_fields o) k = get command k.
Proof.
intros Hfs Hin Hne. pose proof (copied_lookup _ _ _ Hfs Hin) as He.
apply lookup_key_keys in Hin as [v Hv]. unfold get. cbn [lookup_key].
rewrite decide_False by done. by rewrite lookup_key_app, <- He, Hv.
Qed.

Lemma ack_keys fs :
keys fs = ack_names kind ->
keys (("type", JStr "command_ack") :: fs ++ outcome_fields o)
= "type" :: ack_names kind ++ keys (outcome_fields o).
Proof. intros H. unfold keys in *. rewrite fmap_cons, fmap_app, H. done. Qed.

Lemma outcome_keys :
keys (outcome_fields o) = ["status"] \/ keys (outcome_fields o) = ["status"; "code"].
Proof. destruct outcome as [->|(code & -> & _)]; auto. Qed.

Lemma ack_shape fs :
keys fs = ack_names kind ->
shape_matches "command_ack" (keys (("type", JStr "command_ack") :: fs ++ outcome_fields o)) = true.
Proof.
intros H. rewrite ack_keys by exact H. destruct (ack_shapes kind kind_known) as [H1 H2].
destruct outcome_keys as [E|E]; rewrite E; [exact H1|exact H2].
Qed.

Lemma ack_has_key fs k :
keys fs = ack_names kind ->
has_key k (("type", JStr "command_ack") :: fs ++ outcome_fields o)
= is_in k ("type" :: ack_names kind ++ keys (outcome_fields o)).
Proof.
intros H. rewrite <- (ack_keys fs H). unfold has_key, is_in.
apply bool_decide_ext. symmetry. apply lookup_key_keys.
Qed.

Lemma ack_conditional fs :
keys fs = ack_names kind ->
check_command_ack (("type", JStr "command_ack") :: fs ++ outcome_fields o) = Ok tt.
Proof.
intros H. unfold check_command_ack. rewrite (ack_has_key fs "job_id" H), (ack_has_key fs "session_id" H),
  (ack_has_key fs "request_id" H).
rewrite (get_outcome fs "status" H), (get_outcome fs "code" H),
  (get_outcome fs "expected_sequence" H) by (apply not_copied; vm_compute; reflexivity).
destruct (ack_subjects kind kind_known) as [H1 H2]. unfold ambiguous in H1, H2.
destruct outcome as [-> |(code & -> & Hc & _)].
- change (keys (outcome_fields ("accepted", None))) with ["status"]. rewrite H1. reflexivity.
- change (keys (outcome_fields ("refused", Some code))) with ["status"; "code"]. rewrite H2.
  change (get (outcome_fields ("refused", Some code)) "code") with (JStr code).
  rewrite (bool_decide_eq_false_2 (JStr code = JStr "sequence_gap")) by congruence.
  reflexivity.
Qed.

(** The validator accepts the acknowledgement. *)
Lemma ack_message_valid :
exists ack, ack_message command o = Ok ack
            /\ validate_message (JDict ack) (Some w) (Some i) = Ok tt.
Proof.
destruct ack_message_shape as (fs & Ha & Hk & Hfs).
eexists. split; [exact Ha|]. clear Ha.
assert (Hok : Forall field_ok (("type", JStr "command_ack") :: fs ++ outcome_fields o)).
{ constructor; [repeat split|]. apply Forall_app. split; [by eapply from_command|].
  by apply outcome_fields_ok. }
apply fields_ok_checks in Hok as [Hjson Htypes].
pose proof (ack_shape fs Hk) as Hshape. pose proof (ack_conditional fs Hk) as Hcond.
assert (Hw : get (("type", JStr "command_ack") :: fs ++ outcome_fields o) "worker_id" = JStr w).
{ rewrite get_copied; [by apply (val_worker _ _ _ _ valid)|done| |done].
  rewrite Hk. apply elem_of_app. left. by apply is_in_spec. }
assert (Hi : get (("type", JStr "command_ack") :: fs ++ outcome_fields o) "incarnation" = JStr i).
{ rewrite get_copied; [|done| |done].
  - apply (val_incarnation _ _ _ _ valid); [done|]. intros ->. by apply is_in_spec in kind_known.
  - rewrite Hk. apply elem_of_app. left. by apply is_in_spec. }
change (validate_message (JDict ?m)) with (validate_message_with (validate_message_fuel 1) (JDict m)).
unfold validate_message_with.
change (get (("type", JStr "command_ack") :: fs ++ outcome_fields o) "type")
  with (JStr "command_ack").
cbv iota beta. rewrite Hjson, Hshape, Htypes, Hw, Hi, Hcond.
rewrite (bool_decide_eq_true_2 (JStr w = JStr w)) by done.
rewrite (bool_decide_eq_true_2 (JStr i = JStr i)) by done. reflexivity.
Qed.
End AckMessage.

(** ** A command runs once, in sequence order *)

Definition seq_of (command : dict) : Z :=
  match get command "command_sequence" with JInt n => n | _ => 0 end.

(** The retained results are those of the last commands, at most 256. *)
Record ledger_inv (last : Z) (l : ledger) : Prop := {
  inv_range : 0 <= last <= MAX_SEQUENCE;
  inv_next : next_sequence l = Z.min (last + 1) MAX_SEQUENCE;
  inv_length : Z.of_nat (length (results l)) = Z.min last (Z.of_nat MAX_RETAINED);
  inv_results : (results l).*1 = seqZ (last + 1 - Z.of_nat (length (results l)))
                                      (Z.of_nat (length (results l)))
}.

Lemma ledger_inv_new : ledger_inv 0 new_ledger.
Proof. split; done. Qed.

Lemma saved_none sequence l : saved sequence l = None -> sequence ∉ (results l).*1.
Proof.
  unfold saved. intros H Hin. apply list_elem_of_fmap in Hin as ([n r] & -> & Hin).
  destruct (List.find _ _) eqn:E; [discriminate|].
  eapply find_none in E; [|by apply list_elem_of_In]. simpl in E. lia.
Qed.

Lemma retain_inv last l r :
  ledger_inv last l -> last < MAX_SEQUENCE ->
  ledger_inv (last + 1) {| next_sequence := Z.min (last + 2) MAX_SEQUENCE;
                           results := retain (last + 1) r (results l) |}.
Proof.
  intros [Hr Hn Hl Hres] Hlt.
  assert (Happ : (results l ++ [(last + 1, r)]).*1
                 = seqZ (last + 1 - Z.of_nat (length (results l)))
                        (Z.of_nat (length (results l)) + 1)).
  { rewrite fmap_app, Hres. cbn [fmap list_fmap fst].
    rewrite (seqZ_app _ (Z.of_nat (length (results l))) 1) by lia. f_equal.
    replace (last + 1 - Z.of_nat (length (results l)) + Z.of_nat (length (results l)))
      with (last + 1) by lia. reflexivity. }
  unfold retain. rewrite length_app. cbn [length].
  unfold MAX_RETAINED in *.
  destruct (Nat.ltb_spec 256 (length (results l) + 1)) as [Hbig|Hsmall]; split;
    cbn [next_sequence results]; unfold MAX_RETAINED; try lia; rewrite ?length_drop, ?length_app; cbn [length].
  - lia.
  - destruct (results l) as [|x rs] eqn:E; [simpl in Hbig; lia|].
    cbn [app drop length] in *. rewrite fmap_cons in Happ.
    rewrite seqZ_cons in Happ by lia. injection Happ as _ Happ. rewrite drop_0, Happ.
    f_equal; lia.
  - lia.
  - rewrite Happ. f_equal; lia.
Qed.

Lemma saved_retain last l r n next :
  ledger_inv last l -> last + 1 - n < Z.of_nat MAX_RETAINED -> n <= last ->
  saved n {| next_sequence := next; results := retain (last + 1) r (results l) |} = saved n l.
Proof.
  intros [Hr Hn Hl Hres] Hw Hle. unfold saved, retain. cbn [results].
  assert (Hfind : forall rs : list (Z * saved_result),
    List.find (fun r => r.1 =? n) (rs ++ [(last + 1, r)]) = List.find (fun r => r.1 =? n) rs).
  { induction rs as [|y rs IH]; cbn [List.find app fst].
    - by rewrite (proj2 (Z.eqb_neq _ _)) by lia.
    - by rewrite IH. }
  destruct (Nat.ltb_spec MAX_RETAINED (length (results l ++ [(last + 1, r)]))) as [Hbig|_];
    [|by rewrite Hfind].
  rewrite length_app in Hbig. cbn [length] in Hbig.
  destruct (results l) as [|y rs]; [cbn in Hbig; unfold MAX_RETAINED in *; lia|].
  cbn [app drop]. rewrite drop_0, Hfind. cbn [List.find].
  rewrite fmap_cons, seqZ_cons in Hres by (cbn; lia). injection Hres as Hy _.
  rewrite Hy, (proj2 (Z.eqb_neq _ _)); [done|]. cbn [length] in *. unfold MAX_RETAINED in *. lia.
Qed.

Lemma saved_retain_new last l r next :
  ledger_inv last l -> last < MAX_SEQUENCE ->
  saved (last + 1) {| next_sequence := next; results := retain (last + 1) r (results l) |} = Some r.
Proof.
  intros [Hr Hn Hl Hres] Hlt. unfold saved, retain. cbn [results].
  assert (Hfind : forall rs : list (Z * saved_result),
    last + 1 ∉ rs.*1 -> List.find (fun r => r.1 =? last + 1) (rs ++ [(last + 1, r)])
                        = Some (last + 1, r)).
  { induction rs as [|y rs IH]; cbn [List.find app fst].
    - by rewrite Z.eqb_refl.
    - rewrite fmap_cons. intros Hn'. rewrite (proj2 (Z.eqb_neq _ _)) by set_solver.
      apply IH. set_solver. }
  assert (Hnot : last + 1 ∉ (results l).*1) by (rewrite Hres, elem_of_seqZ; lia).
  destruct (Nat.ltb_spec MAX_RETAINED (length (results l ++ [(last + 1, r)]))) as [Hbig|_];
    [|by rewrite Hfind].
  rewrite length_app in Hbig. cbn [length] in Hbig.
  destruct (results l) as [|y rs]; [cbn in Hbig; unfold MAX_RETAINED in *; lia|].
  cbn [app drop]. rewrite drop_0, Hfind; [done|]. rewrite fmap_cons in Hnot. set_solver.
Qed.

(** What applying a command came to, and a command with it. *)
Abbreviation outcome := (result exn (string * option string)).
Abbreviation ran := (dict * outcome)%type.

Section Trace.
Context {W : Type}.
Variable apply : dict -> W -> result exn (string * option string) * W.
Variables worker_id incarnation : string.

(** The worker's handler, with a log of the commands it ran and what they came
  to. *)
Definition logged (c : dict) (s : W * list ran) : outcome * (W * list ran) :=
let (o, w) := apply c s.1 in (o, (w, s.2 ++ [(c, o)])).

Abbreviation step := (handle logged worker_id incarnation).

(** The deliveries of a connection: the texts they are answered with, the
  exception that ends it, and the state then. *)
Fixpoint serve (cs : list dict) (l : ledger) (s : W * list ran)
: (list string * option exn) * (ledger * (W * list ran)) :=
match cs with
| [] => (([], None), (l, s))
| c :: cs =>
    match step c l s with
    | (Ok text, (l, s)) => let '((texts, raised), st) := serve cs l s in ((text :: texts, raised), st)
    | (Err e, st) => (([], Some e), st)
    end
end.

(** Commands applied one after the other. *)
Fixpoint apply_all (cs : list dict) (w : W) : list outcome * W :=
match cs with
| [] => ([], w)
| c :: cs => let (o, w) := apply c w in let (os, w) := apply_all cs w in (o :: os, w)
end.

(** The command was answered with the acknowledgement of its outcome. *)
Definition acknowledged (texts : list string) (r : ran) : Prop :=
exists o text, r.2 = Ok o /\ outcome_ack r.1 o worker_id incarnation = Ok text /\ text ∈ texts.

(** A delivery leaves everything as it was, or runs the next command. *)
Lemma handle_step last c l s answer l' s' :
ledger_inv last l -> step c l s = (answer, (l', s')) ->
(l' = l /\ s' = s)
\/ (seq_of c = last + 1 /\ last < MAX_SEQUENCE
    /\ exists o, apply c s.1 = (o, s'.1) /\ s'.2 = s.2 ++ [(c, o)]
    /\ ((exists oc r, o = Ok oc /\ answer = Ok (saved_ack r)
            /\ outcome_ack c oc worker_id incarnation = Ok (saved_ack r)
            /\ item c "command_id" = Ok (saved_id r) /\ item c "body_hash" = Ok (saved_hash r)
            /\ results l' = retain (last + 1) r (results l) /\ ledger_inv (last + 1) l')
        \/ (exists e, answer = Err e /\ l' = l /\ forall e', o = Err e' -> e' = e))).
Proof.
intros Hinv. pose proof Hinv as [Hr Hn Hl Hres]. unfold handle.
destruct (item c "command_sequence") as [v|e] eqn:Hs; [|by intros [= <- <- <-]; left].
destruct (item c "command_id") as [cid|e]; [|by destruct v; intros [= <- <- <-]; left].
destruct v as [| |n| | | | |]; try (by intros [= <- <- <-]; left).
destruct (saved n l) eqn:Hsaved; [by intros [= <- <- <-]; left|].
destruct (n <? next_sequence l) eqn:Hlt; [by intros [= <- <- <-]; left|].
destruct (next_sequence l <? n) eqn:Hgt; [by intros [= <- <- <-]; left|].
assert (Hseq : seq_of c = n).
{ unfold seq_of. apply item_lookup, get_lookup in Hs. by rewrite Hs. }
assert (Heq : n = next_sequence l) by lia.
assert (Hlast : last < MAX_SEQUENCE).
{ destruct (decide (last = MAX_SEQUENCE)) as [->|]; [|lia]. exfalso.
  apply (saved_none _ _ Hsaved). rewrite Hres, elem_of_seqZ.
  unfold MAX_SEQUENCE, MAX_RETAINED in *. lia. }
unfold logged. destruct (apply c s.1) as [[o|e] w'] eqn:Ea;
  [destruct (outcome_ack c o worker_id incarnation) as [text|e] eqn:Ho;
    [destruct (item c "body_hash") as [bh|e]|]|].
2-4: intros [= <- <- <-]; right; split; [lia|]; split; [done|]; eexists; split; [done|]; split; [done|];
  right; eexists; split; [done|]; split; [done|]; by intros e' [= ->].
intros [= <- <- <-]. right. split; [lia|]. split; [done|]. eexists; split; [done|]; split; [done|]. left.
replace n with (last + 1) by lia. replace (last + 1 + 1) with (last + 2) by lia.
exists o, {| saved_id := cid; saved_hash := bh; saved_ack := text |}.
do 6 (split; [done|]). by apply retain_inv.
Qed.

(** Each of the commands applied, where its turn comes. *)
Lemma apply_all_at (rs : list ran) w w' i c o :
apply_all rs.*1 w = (rs.*2, w') -> rs !! i = Some (c, o) -> exists w1 w2, apply c w1 = (o, w2).
Proof.
revert w i. induction rs as [|[c0 o0] rs IH]; intros w i; [done|]. cbn. destruct (apply c0 w) as [o1 w1] eqn:Ea.
destruct (apply_all rs.*1 w1) as [os w2] eqn:Er. intros [= -> Hos ->]. destruct i as [|i]; cbn.
- intros [= <- <-]. by exists w, w1.
- intros Hi. apply (IH w1 i); [by rewrite Er, Hos|done].
Qed.

(** What a connection comes to from a ledger after [last] commands: [done_]
  are the commands that ran and were answered; one more may have run whose
  answer raised. *)
Record served (last : Z) (l' : ledger) (s s' : W * list ran) (texts : list string) (raised : option exn)
  (done_ rest : list ran) : Prop := {
sv_log : s'.2 = s.2 ++ done_ ++ rest;
sv_order : map seq_of (done_ ++ rest).*1 = seqZ (last + 1) (Z.of_nat (length (done_ ++ rest)));
sv_ledger : ledger_inv (last + Z.of_nat (length done_)) l';
sv_effect : apply_all (done_ ++ rest).*1 s.1 = ((done_ ++ rest).*2, s'.1);
sv_answers : Forall (acknowledged texts) done_;
sv_rest : rest = [] \/ exists r e, rest = [r] /\ raised = Some e /\ forall e', r.2 = Err e' -> e' = e
}.

Lemma acknowledged_more text texts r : acknowledged texts r -> acknowledged (text :: texts) r.
Proof. intros (o & t & ? & ? & ?). exists o, t. split; [done|]. split; [done|]. by right. Qed.

Lemma serve_inv cs last l s texts raised l' s' :
ledger_inv last l -> serve cs l s = ((texts, raised), (l', s')) ->
exists done_ rest, served last l' s s' texts raised done_ rest.
Proof.
revert last l s texts. induction cs as [|c cs IH]; intros last l s texts Hinv; cbn [serve].
- intros [= <- <- <- <-]. exists [], []. split; cbn; rewrite ?app_nil_r, ?Z.add_0_r; auto.
- destruct (step c l s) as [answer [l1 s1]] eqn:Hstep.
  destruct (handle_step _ _ _ _ _ _ _ Hinv Hstep)
    as [[-> ->]|(Hseq & _ & o & Ha & Hlog & [(oc & r1 & -> & -> & Hack & _ & _ & _ & Hinv1)|(e & -> & -> & He)])].
  + destruct answer as [text|e].
    * destruct (serve cs l s) as [[texts1 raised1] [l2 s2]] eqn:Hrun. intros [= <- <- <- <-].
      destruct (IH _ _ _ _ Hinv Hrun) as (ds & rest & []). exists ds, rest. split; try done.
      eapply Forall_impl; [done|]. intros. by apply acknowledged_more.
    * intros [= <- <- <- <-]. exists [], []. split; cbn; rewrite ?app_nil_r, ?Z.add_0_r; auto.
  + destruct (serve cs l1 s1) as [[texts1 raised1] [l2 s2]] eqn:Hrun. intros [= <- <- <- <-].
    destruct (IH _ _ _ _ Hinv1 Hrun) as (ds & rest & [Hl Hm Hi He Hx Hr]). exists ((c, Ok oc) :: ds), rest.
    split; [| | | | |done].
    * by rewrite Hl, Hlog, <- app_assoc.
    * cbn [app fmap list_fmap map fst length]. rewrite Hseq. cbn [fmap list_fmap] in Hm. rewrite Hm.
      rewrite (seqZ_cons (last + 1)) by lia. f_equal. f_equal; lia.
    * cbn [length]. by replace (last + Z.of_nat (S (length ds))) with (last + 1 + Z.of_nat (length ds)) by lia.
    * cbn. by rewrite Ha, He.
    * constructor; [exists oc, (saved_ack r1); by split_and!; [| |left]|].
      eapply Forall_impl; [done|]. intros. by apply acknowledged_more.
  + intros [= <- <- <- <-]. exists [], [(c, o)]. split; cbn; rewrite ?Z.add_0_r, ?Hseq; auto.
    * by rewrite Ha.
    * right. exists (c, o), e. by split_and!.
Qed.

(** Retained answers stay until 256 later commands have run. *)
Lemma saved_kept cs last l s texts l' s' n r :
ledger_inv last l -> serve cs l s = ((texts, None), (l', s')) ->
saved n l = Some r -> n <= last ->
(Z.of_nat (length s'.2) - Z.of_nat (length s.2)) + last - n < Z.of_nat MAX_RETAINED ->
saved n l' = Some r.
Proof.
revert last l s texts. induction cs as [|c cs IH]; intros last l s texts Hinv; cbn [serve].
- by intros [= <- <- <-].
- destruct (step c l s) as [answer [l1 s1]] eqn:Hstep. destruct answer as [text|e]; [|done].
  destruct (serve cs l1 s1) as [[texts1 raised1] [l2 s2]] eqn:Hrun. intros [= <- -> <- <-] Hs Hle Hn.
  destruct (handle_step _ _ _ _ _ _ _ Hinv Hstep)
    as [[-> ->]|(Hseq & Hlt & o & Ha & Hlog & [(oc & r1 & _ & _ & _ & _ & _ & Hret & Hinv1)|(e & [=] & _)])].
  + by apply (IH last l s texts1).
  + destruct (serve_inv _ _ _ _ _ _ _ _ Hinv1 Hrun) as (ds & rest & [Hlog2 _ _ _ _ _]).
    apply (IH (last + 1) l1 s1 texts1); try done; [|lia|rewrite Hlog, length_app; simpl; lia].
    rewrite Hlog2, Hlog, !length_app in Hn. cbn [length] in Hn.
    destruct l1 as [next rs]. cbn [results] in Hret. subst rs.
    rewrite (saved_retain last l r1 n next) by (done || lia). done.
Qed.

Lemma replayed c n r l s :
item c "command_sequence" = Ok (JInt n) -> item c "command_id" = Ok (saved_id r) ->
item c "body_hash" = Ok (saved_hash r) -> saved n l = Some r ->
step c l s = (Ok (saved_ack r), (l, s)).
Proof.
intros Hs Hi Hb Hsaved. unfold handle. rewrite Hs, Hi, Hsaved, Hb.
cbn [mbind result_bind]. by rewrite decide_True.
Qed.
End Trace.
