(* ===== verification/Manifests.v ===== *)
(** * Model manifests of the worker

    Models worker/worker/manifests.py: the defaults a manifest fills into the
    parameters of a call, the checks a manifest file passes, and the fleet
    served from the bundled and the operator's directories.

    Reading a file's text into a manifest is pydantic's
    [Manifest.model_validate_json]: a parameter of the loaders. *)

From S2P Require Import Prelude PyFloat Hashes Json.
Open Scope Z_scope.

(** The references of a manifest to remote weights, each with the commit that
    pins it: [source], [vae], [preview_decoder], [lora], [t2i_adapter]. *)
Record pinned_reference := { reference_field : string; reference : string; revision : string }.

(** The fields the code reads; [m_fields] is the dump of all of them. *)
Record manifest := {
  m_id : string;
  m_capabilities : list string;
  m_parameters : dict;
  m_default : bool;
  m_benchmark_only : bool;
  m_references : list pinned_reference;
  m_min_vram_gb : Z;
  m_model_offload_vram_gb : option Z;
  m_fields : dict
}.

Global Instance pinned_reference_eq_dec : EqDecision pinned_reference.
Proof. solve_decision. Defined.
Global Instance manifest_eq_dec : EqDecision manifest.
Proof. solve_decision. Defined.

(** What crosses the wire: every field but the worker's own and the pins. *)
Definition WORKER_SIDE : list string :=
  ["source"; "vae"; "preview_decoder"; "scheduler"; "lora"; "quantize"; "t2i_adapter"; "dtype";
   "pipeline"; "model_offload_vram_gb"; "worker_repos"]
  ++ ["source_revision"; "vae_revision"; "preview_decoder_revision"; "lora_revision";
      "t2i_adapter_revision"].
Definition wire (m : manifest) : dict := filter (fun kv => kv.1 ∉ WORKER_SIDE) (m_fields m).

(** ** Defaults *)

(** One round of the loop of [with_defaults]. *)
Definition fill_default (filled : dict) (kv : string * json) : dict :=
  if has_key kv.1 filled then filled
  else match kv.2 with
       | JDict prop =>
           match lookup_key "default" prop with
           | Some v => set_key kv.1 v filled
           | None => filled
           end
       | _ => filled
       end.

(** [properties] that is no object has no [items()]. *)
Definition with_defaults (m : manifest) (params : dict) : result exn dict :=
  match lookup_key "properties" (m_parameters m) with
  | None => Ok params
  | Some (JDict properties) => Ok (fold_left fill_default properties params)
  | Some _ => Err (AttributeError "items")
  end.

Definition default_steps (m : manifest) : json :=
  match get (m_parameters m) "properties" with
  | JDict properties =>
      match get properties "steps" with
      | JDict steps => get steps "default"
      | _ => JNull
      end
  | _ => JNull
  end.

(** ** Checks *)

Definition DIFFUSION_CAPABILITIES : list string := ["text_to_image"; "image_to_image"].

Definition validate_capability_exclusivity (m : manifest) : result exn unit :=
  refuse_if (bool_decide ("upscale" ∈ m_capabilities m)
             && existsb (fun c => bool_decide (c ∈ DIFFUSION_CAPABILITIES)) (m_capabilities m))
    (ValueError "upscale cannot combine with diffusion capabilities").

(** [needle in s] *)
Fixpoint contains (needle s : string) : bool :=
  match strip_prefix needle s with
  | Some _ => true
  | None => match s with String.EmptyString => false | String.String _ s => contains needle s end
  end.
Definition starts_with (prefix s : string) : bool :=
  match strip_prefix prefix s with Some _ => true | None => false end.

(** A repository id, not a URL or a local path. *)
Definition pinnable (reference : string) : bool :=
  negb (contains "://" reference)
  && negb (starts_with "." reference || starts_with "/" reference || starts_with "~" reference).

Definition validate_revision_pin (r : pinned_reference) : result exn unit :=
  _ ← refuse_if (negb (bool_decide (reference r = "")) && pinnable (reference r)
                 && bool_decide (revision r = ""))
        (ValueError (reference_field r +:+ " needs a revision"));
  refuse_if (negb (bool_decide (revision r = "")) && bool_decide (reference r = ""))
    (ValueError (reference_field r +:+ "_revision pins nothing")).
Definition validate_revision_pins (m : manifest) : result exn unit :=
  each validate_revision_pin (m_references m).

Definition checked (m : manifest) : result exn manifest :=
  _ ← validate_capability_exclusivity m;
  _ ← validate_revision_pins m;
  Ok m.

(** ** Loading *)

Section Load.
Variable parse : string -> result exn manifest.

(** The texts of the files of a directory, in the order of their names. *)
Definition load_manifests (files : list string) : result exn (list manifest) :=
_ ← refuse_if (bool_decide (files = [])) (ValueError "no manifests found");
manifests ← traverse (fun text => m ← parse text; checked m) files;
_ ← fold_left (fun acc m =>
      seen ← acc;
      _ ← refuse_if (bool_decide (m_id m ∈ seen)) (ValueError ("duplicate manifest id: " +:+ m_id m));
      Ok (m_id m :: seen)) manifests (Ok []);
Ok manifests.

(** A table in insertion order, each entry under its manifest's id. *)
Definition table := list (string * manifest).
Definition holds (id : string) (t : table) : bool := bool_decide (id ∈ t.*1).

Definition add_operator (t : table) (m : manifest) : result exn table :=
_ ← refuse_if (holds (m_id m) t) (ValueError ("duplicate manifest id: " +:+ m_id m));
Ok (t ++ [(m_id m, m)]).

Definition add_file (t : table) (raw : string) : result exn table :=
m ← parse raw; m ← checked m; add_operator t m.

Definition add_files (files : list string) (t : table) : result exn table :=
fold_left (fun acc raw => t ← acc; add_file t raw) files (Ok t).

(** A top-level file that is an earlier release's copy of a bundled
  manifest is skipped.  [history] maps the hash of every file that ever
  shipped to its manifest's id. *)
Definition add_top_file (history : string -> option (option string)) (bundled t : table)
  (raw : string) : result exn table :=
match history (sha256 raw) with
| Some (Some id) => if holds id bundled then Ok t else add_file t raw
| _ => add_file t raw
end.

Definition lookup_table (id : string) (t : table) : option manifest :=
snd <$> List.find (fun kv => bool_decide (kv.1 = id)) t.

(** [{**bundled, **operator}], sorted by id. *)
Definition merge (bundled operator : table) : table :=
sort_items (filter (fun kv => holds kv.1 operator = false) bundled ++ operator).

(** [scan_top] is false when the directory is the bundled one. *)
Definition load_fleet_manifests (history : string -> option (option string))
  (bundled_files top_files override_files : list string) (bundled_on scan_top : bool)
: result exn (list manifest) :=
bundled ← (if bundled_on then add_files bundled_files [] else Ok []);
operator ← (if scan_top
            then fold_left (fun acc raw => t ← acc; add_top_file history bundled t raw)
                   top_files (Ok [])
            else Ok []);
operator ← add_files override_files operator;
let merged := merge bundled operator in
_ ← refuse_if (bool_decide (merged = [])) (ValueError "no manifests found");
Ok (merged.*2).
End Load.
