(* ===== verification/Uuid.v ===== *)
(** * [uuid.UUID] on a text

    The constructor of the standard library's [uuid.UUID] and the canonical
    text of its result, by which the code keys its tables.  Decimal digits and
    white space outside ASCII, which Python's [int] also reads, are refused
    here. *)

From S2P Require Import Prelude PyFloat Hashes Json.
Open Scope Z_scope.

(** [s.replace(pat, "")], for a [pat] that is not empty. *)
Fixpoint remove_fuel (n : nat) (pat s : string) : string :=
  match n with
  | O => s
  | S n =>
      match strip_prefix pat s, s with
      | Some rest, _ => remove_fuel n pat rest
      | None, String.String c s => String.String c (remove_fuel n pat s)
      | None, String.EmptyString => ""
      end
  end.
Definition remove_all (pat s : string) : string := remove_fuel (String.length s) pat s.

(** [s.strip(chars)] *)
Fixpoint strip_left (p : ascii -> bool) (s : string) : string :=
  match s with
  | String.String c s' => if p c then strip_left p s' else s
  | String.EmptyString => ""
  end.
Fixpoint reverse_string (s acc : string) : string :=
  match s with
  | String.String c s => reverse_string s (String.String c acc)
  | String.EmptyString => acc
  end.
Definition strip (p : ascii -> bool) (s : string) : string :=
  reverse_string (strip_left p (reverse_string (strip_left p s) "")) "".

Definition is_brace (c : ascii) : bool := (byte_val c =? 123) || (byte_val c =? 125).
Definition is_space (c : ascii) : bool :=
  let z := byte_val c in (9 <=? z) && (z <=? 13) || (28 <=? z) && (z <=? 32).

Definition hex_val (c : ascii) : option Z :=
  let z := byte_val c in
  if (48 <=? z) && (z <=? 57) then Some (z - 48)
  else if (97 <=? z) && (z <=? 102) then Some (z - 87)
  else if (65 <=? z) && (z <=? 70) then Some (z - 55)
  else None.

(** The digits of [int(s, 16)], single underscores between them.  [digit]
    tells that the last character read was a digit. *)
Fixpoint hex_digits (s : string) (digit : bool) (acc : Z) : option Z :=
  match s with
  | String.EmptyString => if digit then Some acc else None
  | String.String c s =>
      if byte_val c =? 95 then if digit then hex_digits s false acc else None
      else match hex_val c with
           | Some d => hex_digits s true (16 * acc + d)
           | None => None
           end
  end.

Definition hex_unsigned (s : string) : option Z :=
  match strip_prefix "0x" s, strip_prefix "0X" s with
  | Some rest, _ | None, Some rest =>
      hex_digits (match strip_prefix "_" rest with Some r => r | None => rest end) false 0
  | None, None => hex_digits s false 0
  end.

(** [int(s, 16)] *)
Definition int16 (s : string) : option Z :=
  let s := strip is_space s in
  match strip_prefix "-" s, strip_prefix "+" s with
  | Some rest, _ => Z.opp <$> hex_unsigned rest
  | None, Some rest => hex_unsigned rest
  | None, None => hex_unsigned s
  end.

(** [str(uuid.UUID(int=n))] *)
Definition uuid_string (n : Z) : string :=
  let h := hex_string (be_bytes 16 n) in
  String.substring 0 8 h +:+ "-" +:+ String.substring 8 4 h +:+ "-"
  +:+ String.substring 12 4 h +:+ "-" +:+ String.substring 16 4 h +:+ "-"
  +:+ String.substring 20 12 h.

(** [uuid.UUID(s)] *)
Definition parse_uuid (s : string) : result exn string :=
  let h := remove_all "-" (strip is_brace (remove_all "uuid:" (remove_all "urn:" s))) in
  if negb (text_length h =? 32) then Err (ValueError "badly formed hexadecimal UUID string")
  else match int16 h with
       | Some n => if (0 <=? n) && (n <? 2 ^ 128) then Ok (uuid_string n)
                   else Err (ValueError "int is out of range (need a 128-bit value)")
       | None => Err (ValueError "invalid literal for int() with base 16")
       end.

(** [uuid.UUID(v)] of a decoded value. *)
Definition uuid_of (v : json) : result exn string :=
  match v with
  | JStr s => parse_uuid s
  | JNull => Err (TypeError "one of the hex, bytes, bytes_le, fields, or int arguments must be given")
  | _ => Err (AttributeError "replace")
  end.

Example uuid_canonical :
  parse_uuid "{55555555-5555-4555-8555-55555555555A}" = Ok "55555555-5555-4555-8555-55555555555a".
Proof. vm_compute. reflexivity. Qed.
Example uuid_urn :
  parse_uuid "urn:uuid:5555555555554555_8555-5555555555" = Err (ValueError "badly formed hexadecimal UUID string").
Proof. vm_compute. reflexivity. Qed.
