(* ===== verification/WorkerSession.v ===== *)
(** * Realtime sessions and jobs of a worker

    Models the connection-level state machine of worker/worker/client.py: the
    normalisation of seeds and generations, [JobRun], [SessionRunner] and its
    task, [SessionManager], and [apply_command] with the control loop that
    feeds it.

    A handler runs without interruption between two awaits; the runner's task
    is a step function, one step per await it resumes from.  What the engine,
    the clock, the random generator and the categorizer answer is an argument
    of the step. *)

From S2P Require Import Prelude PyFloat Hashes Json Protocol6 Manifests Ledger.
Open Scope Z_scope.

(** ** Boundary normalisation *)

Definition SEED_BOUND : Z := 2 ^ 31 - 1.

Definition normalise_seed (value : json) : option Z :=
  match value with
  | JInt z => Some z
  | JFloat f => if float_is_integer f then int_of_float f else None
  | _ => None
  end.

(** [draw] is [random.randrange(SEED_BOUND)]. *)
Definition ensure_seed (params : dict) (draw : Z) : dict :=
  match get params "seed" with
  | JInt _ => params
  | raw => set_key "seed" (JInt (default draw (normalise_seed raw))) params
  end.

Definition control_generation (control : dict) : option Z :=
  match get control "control_generation" with
  | JInt raw => if raw <? 1 then None else Some raw
  | _ => None
  end.

(** [{"dispatch_token": token} if isinstance(token, str) and token else {}] *)
Definition usable_token (control : dict) : option string :=
  match get control "dispatch_token" with
  | JStr token => if decide (token = "") then None else Some token
  | _ => None
  end.
Definition token_stamp (control : dict) : dict :=
  match usable_token control with Some t => [("dispatch_token", JStr t)] | None => [] end.

(** [control.get("model_id") in by_id] *)
Definition in_table (v : json) (by_id : table) : result exn bool :=
  match v with
  | JStr id => Ok (holds id by_id)
  | JList _ | JDict _ => Err (TypeError "unhashable type")
  | _ => Ok false
  end.

Definition unavailable_model_report (control : dict) (by_id : table) : result exn (option dict) :=
  known ← in_table (get control "model_id") by_id;
  if (known : bool) then Ok None
  else
    kind ← item control "type";
    if decide (kind = JStr "dispatch_job") then
      job_id ← item control "job_id";
      Ok (Some (update_with (token_stamp control)
            [("type", JStr "job_failed"); ("job_id", job_id);
             ("reason", JStr "model_unavailable"); ("failure_code", JStr "model_unavailable")]))
    else if decide (kind = JStr "open_session") then
      match control_generation control with
      | Some generation =>
          session_id ← item control "session_id";
          Ok (Some [("type", JStr "session_refused"); ("session_id", session_id);
                    ("control_generation", JInt generation); ("reason", JStr "not_resident")])
      | None => Ok None
      end
    else Ok None.

(** ** Jobs *)

Record job_run := {
  j_id : json;
  j_model : json;
  j_identity : dict;
  j_token : option string;
  j_stop : bool
}.

Definition new_job (control : dict) (identity : dict) : result exn job_run :=
  job_id ← item control "job_id";
  model_id ← item control "model_id";
  Ok {| j_id := job_id; j_model := model_id; j_identity := identity;
        j_token := usable_token control; j_stop := false |}.

Definition stops (job : job_run) (control : dict) : result exn bool :=
  job_id ← item control "job_id";
  Ok (py_eq job_id (j_id job)
      && match j_token job with
         | Some token => bool_decide (get control "dispatch_token" = JStr token)
         | None => false
         end).

Definition set_stop (job : job_run) : job_run :=
  {| j_id := j_id job; j_model := j_model job; j_identity := j_identity job;
     j_token := j_token job; j_stop := true |}.

(** [for job in jobs.values(): if job.stops(control): job.stop.set()] *)
Definition cancel_jobs (control : dict) (jobs : list job_run) : result exn (list job_run) :=
  traverse (fun job => b ← stops job control; Ok (if (b : bool) then set_stop job else job)) jobs.

(** ** A session's runner *)

(** Where the runner's task is: making the model resident, waiting for input,
    waiting for the engine, or over. *)
Inductive phase : Type :=
| Loading
| Waiting
| Rendering (revision : Z) (payload : string)
| Finished.

Record runner := {
  r_session : string;
  r_manifest : manifest;
  r_params : dict;
  r_generation : Z;
  r_pending : option (Z * string);
  r_accepted_revision : Z;
  r_arrived : bool;
  r_dropped : Z;
  r_frames : Z;
  r_gpu_ms : Z;
  r_last_frame : option string;
  r_ready_sent : bool;
  r_ended : bool;
  r_cancel_requested : bool;
  r_p6_identity : option dict;
  r_residency_failures : Z;
  r_phase : phase
}.

Definition new_runner (session : string) (m : manifest) (params : dict) (generation : Z)
    (identity : option dict) : runner :=
  {| r_session := session; r_manifest := m; r_params := params; r_generation := generation;
     r_pending := None; r_accepted_revision := 0; r_arrived := false; r_dropped := 0;
     r_frames := 0; r_gpu_ms := 0; r_last_frame := None; r_ready_sent := false;
     r_ended := false; r_cancel_requested := false; r_p6_identity := identity;
     r_residency_failures := 0; r_phase := Loading |}.

(** Updates of one or more fields of a runner. *)
Definition with_input pending accepted arrived dropped (r : runner) : runner :=
  {| r_session := r_session r; r_manifest := r_manifest r; r_params := r_params r;
     r_generation := r_generation r; r_pending := pending; r_accepted_revision := accepted;
     r_arrived := arrived; r_dropped := dropped; r_frames := r_frames r;
     r_gpu_ms := r_gpu_ms r; r_last_frame := r_last_frame r; r_ready_sent := r_ready_sent r;
     r_ended := r_ended r; r_cancel_requested := r_cancel_requested r;
     r_p6_identity := r_p6_identity r; r_residency_failures := r_residency_failures r;
     r_phase := r_phase r |}.
Definition with_params params (r : runner) : runner :=
  {| r_session := r_session r; r_manifest := r_manifest r; r_params := params;
     r_generation := r_generation r; r_pending := r_pending r;
     r_accepted_revision := r_accepted_revision r; r_arrived := r_arrived r;
     r_dropped := r_dropped r; r_frames := r_frames r; r_gpu_ms := r_gpu_ms r;
     r_last_frame := r_last_frame r; r_ready_sent := r_ready_sent r; r_ended := r_ended r;
     r_cancel_requested := r_cancel_requested r; r_p6_identity := r_p6_identity r;
     r_residency_failures := r_residency_failures r; r_phase := r_phase r |}.
Definition with_identity identity (r : runner) : runner :=
  {| r_session := r_session r; r_manifest := r_manifest r; r_params := r_params r;
     r_generation := r_generation r; r_pending := r_pending r;
     r_accepted_revision := r_accepted_revision r; r_arrived := r_arrived r;
     r_dropped := r_dropped r; r_frames := r_frames r; r_gpu_ms := r_gpu_ms r;
     r_last_frame := r_last_frame r; r_ready_sent := r_ready_sent r; r_ended := r_ended r;
     r_cancel_requested := r_cancel_requested r; r_p6_identity := identity;
     r_residency_failures := r_residency_failures r; r_phase := r_phase r |}.
Definition with_flags ready ended cancelled (r : runner) : runner :=
  {| r_session := r_session r; r_manifest := r_manifest r; r_params := r_params r;
     r_generation := r_generation r; r_pending := r_pending r;
     r_accepted_revision := r_accepted_revision r; r_arrived := r_arrived r;
     r_dropped := r_dropped r; r_frames := r_frames r; r_gpu_ms := r_gpu_ms r;
     r_last_frame := r_last_frame r; r_ready_sent := ready; r_ended := ended;
     r_cancel_requested := cancelled; r_p6_identity := r_p6_identity r;
     r_residency_failures := r_residency_failures r; r_phase := r_phase r |}.
Definition with_output frames gpu_ms last (r : runner) : runner :=
  {| r_session := r_session r; r_manifest := r_manifest r; r_params := r_params r;
     r_generation := r_generation r; r_pending := r_pending r;
     r_accepted_revision := r_accepted_revision r; r_arrived := r_arrived r;
     r_dropped := r_dropped r; r_frames := frames; r_gpu_ms := gpu_ms; r_last_frame := last;
     r_ready_sent := r_ready_sent r; r_ended := r_ended r;
     r_cancel_requested := r_cancel_requested r; r_p6_identity := r_p6_identity r;
     r_residency_failures := r_residency_failures r; r_phase := r_phase r |}.
Definition at_phase p failures (r : runner) : runner :=
  {| r_session := r_session r; r_manifest := r_manifest r; r_params := r_params r;
     r_generation := r_generation r; r_pending := r_pending r;
     r_accepted_revision := r_accepted_revision r; r_arrived := r_arrived r;
     r_dropped := r_dropped r; r_frames := r_frames r; r_gpu_ms := r_gpu_ms r;
     r_last_frame := r_last_frame r; r_ready_sent := r_ready_sent r; r_ended := r_ended r;
     r_cancel_requested := r_cancel_requested r; r_p6_identity := r_p6_identity r;
     r_residency_failures := failures; r_phase := p |}.

Definition submit (revision : Z) (payload : string) (r : runner) : runner :=
  if revision <=? r_accepted_revision r then r
  else with_input (Some (revision, payload)) revision true
         (r_dropped r + match r_pending r with Some _ => 1 | None => 0 end) r.

Definition matches_generation (generation : option Z) (r : runner) : bool :=
  bool_decide (generation = Some (r_generation r)).

(** [dict(params)] of a decoded value.  Of the other values Python converts,
    an array of pairs, only pairs with a text first give a JSON object. *)
Definition as_pair (v : json) : result exn (string * json) :=
  match v with
  | JList [JStr k; x] => Ok (k, x)
  | _ => Err (TypeError "cannot convert dictionary update sequence")
  end.
Definition to_dict (v : json) : result exn dict :=
  match v with
  | JDict d => Ok d
  | JList l => kvs ← traverse as_pair l; Ok (update_with kvs [])
  | JStr s => if decide (s = "") then Ok []
              else Err (ValueError "dictionary update sequence element")
  | _ => Err (TypeError "object is not iterable")
  end.

Definition update (params : json) (r : runner) : result exn runner :=
  params ← to_dict params;
  updated ← with_defaults (r_manifest r) params;
  seed ← match normalise_seed (get updated "seed") with
         | Some z => Ok (JInt z)
         | None => item (r_params r) "seed"
         end;
  Ok (with_params (set_key "seed" seed updated) r).

Definition lifecycle (kind : string) (extra : dict) (r : runner) : dict :=
  update_with extra
    [("type", JStr kind); ("session_id", JStr (r_session r));
     ("control_generation", JInt (r_generation r))].

(** [_ended = True; if not _cancel_requested: _cancel_requested = True; cancel()] *)
Definition close_runner (r : runner) : runner := with_flags (r_ready_sent r) true true r.

Definition close_report (category : string) (score : option json) (duration_ms : Z) (r : runner)
  : dict :=
  [("type", JStr "session_closed"); ("session_id", JStr (r_session r));
   ("frames", JInt (r_frames r)); ("gpu_ms", JInt (r_gpu_ms r));
   ("duration_ms", JInt duration_ms); ("category", JStr category);
   ("control_generation", JInt (r_generation r))]
  ++ match score with Some s => [("category_score", s)] | None => [] end.

(** ** The runner's task *)

(** What the task hands to the socket or to the engine. *)
Inductive output : Type :=
| Control (message : dict) (identity : option dict)
| Frame (session : string) (revision : Z) (data : string)
| Observe (model : string) (gpu_ms : Z).

(** What resumes the task.  [sent]: the write that follows went through; a
    lost connection ends the task. *)
Inductive resume : Type :=
| Resident (resident sent : bool)
| Arrived
| Generated (data : string) (gpu_ms : Z) (sent : bool)
| Failed (not_resident : bool)
| CancelledTask.

Definition ready (sent : bool) (r : runner) : runner * list output :=
  if r_ended r then (at_phase Waiting (r_residency_failures r) r, [])
  else
    let r' := with_flags true (r_ended r) (r_cancel_requested r) r in
    (at_phase (if sent then Waiting else Finished) (r_residency_failures r) r',
     [Control (lifecycle "session_ready" [] r) (r_p6_identity r)]).

Definition refuse_session (reason : string) (r : runner) : runner * list output :=
  let r' := at_phase Finished (r_residency_failures r) r in
  if r_ended r then (r', [])
  else (with_flags (r_ready_sent r) true (r_cancel_requested r) r',
        [Control (lifecycle "session_refused" [("reason", JStr reason)] r) (r_p6_identity r)]).

(** Frames rendered at the manifest's declared step count are what the
    advertised frame time measures. *)
Definition observes (r : runner) : bool :=
  let steps_default := default_steps (r_manifest r) in
  negb (is_null steps_default) && py_eq (get (r_params r) "steps") steps_default.

(** A task whose cancellation was requested resumes with the cancellation and
    with nothing else. *)
Definition run_step (e : resume) (r : runner) : option (runner * list output) :=
  if r_cancel_requested r then
    match e, r_phase r with
    | CancelledTask, Finished => None
    | CancelledTask, _ => Some (at_phase Finished (r_residency_failures r) r, [])
    | _, _ => None
    end
  else
  match r_phase r, e with
  | Loading, Resident resident sent =>
      Some (if resident then ready sent r else refuse_session "not_resident" r)
  | Waiting, Arrived =>
      if r_arrived r then
        let r' := with_input None (r_accepted_revision r) false (r_dropped r) r in
        Some (match r_pending r with
              | Some (revision, payload) =>
                  at_phase (Rendering revision payload) (r_residency_failures r) r'
              | None => r'
              end, [])
      else None
  | Rendering revision _, Generated data gpu_ms sent =>
      let r' := with_output (r_frames r + 1) (r_gpu_ms r + gpu_ms) (r_last_frame r) r in
      let observed := if observes r then [Observe (m_id (r_manifest r)) gpu_ms] else [] in
      if r_ended r then Some (at_phase Finished 0 r', observed)
      else if sent then
        Some (at_phase Waiting 0 (with_output (r_frames r') (r_gpu_ms r') (Some data) r'),
              observed ++ [Frame (r_session r) revision data])
      else Some (at_phase Finished 0 r', observed)
  | Rendering _ _, Failed true =>
      let failures := r_residency_failures r + 1 in
      if 2 <=? failures then Some (refuse_session "not_resident" (at_phase (r_phase r) failures r))
      else Some (at_phase Waiting failures r, [])
  | Rendering _ _, Failed false => Some (at_phase Waiting 0 r, [])
  | _, _ => None
  end.
