(* ===== verification/WorkerSessionSpec.v ===== *)
(** * Properties of a session's runner

    Input frames are rendered newest first and never twice; a session that
    ended sends nothing; the seed of a session is an integer. *)

From S2P Require Import Prelude PyFloat Hashes Json Protocol6 Protocol6Facts Manifests Ledger.
From S2P Require Import WorkerSession.
From Stdlib Require Import SpecFloat.
Open Scope Z_scope.

(** ** Traces of a runner *)

Inductive action : Type :=
| Submit (revision : Z) (payload : string)
| Update (params : json)
| Close
| Task (e : resume).

(** What a trace observes: the revisions accepted, those taken for
    rendering, and the outputs, each oldest first. *)
Record observation := { accepted : list Z; taken : list Z; outputs : list output }.

Definition act (a : action) (st : runner * observation) : option (runner * observation) :=
  let (r, o) := st in
  match a with
  | Submit revision payload =>
      Some (submit revision payload r,
            {| accepted := if revision <=? r_accepted_revision r then accepted o
                           else accepted o ++ [revision];
               taken := taken o; outputs := outputs o |})
  | Update params => match update params r with Ok r' => Some (r', o) | Err _ => None end
  | Close => Some (close_runner r, o)
  | Task e =>
      match run_step e r with
      | None => None
      | Some (r', out) =>
          Some (r', {| accepted := accepted o;
                       taken := match e, r_phase r' with
                                | Arrived, Rendering revision _ => taken o ++ [revision]
                                | _, _ => taken o
                                end;
                       outputs := outputs o ++ out |})
      end
  end.

Fixpoint play (actions : list action) (st : runner * observation) : option (runner * observation) :=
  match actions with
  | [] => Some st
  | a :: actions => match act a st with Some st => play actions st | None => None end
  end.

Definition nothing_seen : observation := {| accepted := []; taken := []; outputs := [] |}.

(** The revisions of the frames sent. *)
Definition frame_revisions (out : list output) : list Z :=
  omap (fun o => match o with Frame _ revision _ => Some revision | _ => None end) out.

(** ** The input slot *)

Definition pending_list (r : runner) : list Z :=
  match r_pending r with Some (revision, _) => [revision] | None => [] end.

(** [frames] is the revisions taken and not being rendered any more. *)
Record slot_inv (r : runner) (o : observation) : Prop := {
  slot_bound : Forall (fun x => x <= r_accepted_revision r) (accepted o);
  slot_sorted : StronglySorted Z.lt (accepted o);
  slot_sub : taken o ++ pending_list r `sublist_of` accepted o;
  slot_arrived : r_arrived r = true <-> r_pending r <> None;
  slot_count : Z.of_nat (length (accepted o))
               = Z.of_nat (length (taken o)) + r_dropped r + Z.of_nat (length (pending_list r));
  slot_newest : forall revision payload, r_pending r = Some (revision, payload) ->
                revision = r_accepted_revision r;
  slot_frames : frame_revisions (outputs o)
                ++ match r_phase r with Rendering revision _ => [revision] | _ => [] end
                `sublist_of` taken o
}.

Lemma slot_new session m params generation ident :
  slot_inv (new_runner session m params generation ident) nothing_seen.
Proof. split; try (by constructor); done. Qed.

Lemma sorted_snoc (l : list Z) x :
  StronglySorted Z.lt l -> Forall (fun y => y < x) l -> StronglySorted Z.lt (l ++ [x]).
Proof.
  induction 1 as [|y l Hl IH Hy]; intros H; [repeat constructor|].
  apply Forall_cons in H as [Hyx H]. cbn [app]. constructor; [by apply IH|].
  apply Forall_app. by repeat constructor.
Qed.

Lemma sublist_drop_mid {A} (l : list A) p k x :
  l ++ p `sublist_of` k -> l ++ [x] `sublist_of` k ++ [x].
Proof.
  intros H. apply sublist_app; [|done]. etrans; [|exact H].
  by apply sublist_inserts_r.
Qed.

Lemma frame_revisions_app out1 out2 :
  frame_revisions (out1 ++ out2) = frame_revisions out1 ++ frame_revisions out2.
Proof. apply omap_app. Qed.

Lemma submit_inv revision payload r o :
  slot_inv r o -> r_accepted_revision r < revision ->
  slot_inv (submit revision payload r)
    {| accepted := accepted o ++ [revision]; taken := taken o; outputs := outputs o |}.
Proof.
  intros [Hb Hs Hsub Ha Hc Hn Hf] Hlt. unfold submit. rewrite (proj2 (Z.leb_gt _ _)) by done.
  assert (Hall : Forall (fun y => y < revision) (accepted o)).
  { eapply Forall_impl; [exact Hb|]. intros. simpl in *. lia. }
  split; cbn [accepted taken outputs with_input r_accepted_revision r_pending r_arrived r_dropped
              r_phase pending_list].
  - apply Forall_app. split; [|repeat constructor; lia].
    eapply Forall_impl; [exact Hall|]. intros. simpl in *. lia.
  - by apply sorted_snoc.
  - by eapply sublist_drop_mid.
  - done.
  - rewrite length_app. unfold pending_list in Hc. destruct (r_pending r) as [[? ?]|]; simpl in *; lia.
  - by intros ? ? [= <- <-].
  - done.
Qed.

(** Fields of the slot that a step of the task leaves alone. *)
Lemma slot_same r r' o out :
  slot_inv r o ->
  r_accepted_revision r' = r_accepted_revision r -> r_pending r' = r_pending r ->
  r_arrived r' = r_arrived r -> r_dropped r' = r_dropped r ->
  frame_revisions out ++ match r_phase r' with Rendering revision _ => [revision] | _ => [] end
    `sublist_of` match r_phase r with Rendering revision _ => [revision] | _ => [] end ->
  slot_inv r' {| accepted := accepted o; taken := taken o; outputs := outputs o ++ out |}.
Proof.
  intros [Hb Hs Hsub Ha Hc Hn Hf] E1 E2 E3 E4 Hout.
  split; cbn [accepted taken outputs]; unfold pending_list in *;
    rewrite ?E1, ?E2, ?E3, ?E4; try done.
  rewrite frame_revisions_app, <- app_assoc. etrans; [|exact Hf]. by apply sublist_app.
Qed.

Ltac same_slot := eapply slot_same; [done|reflexivity..|].

Lemma step_inv e r r' o out :
  slot_inv r o -> run_step e r = Some (r', out) ->
  slot_inv r' {| accepted := accepted o;
                 taken := match e, r_phase r' with
                          | Arrived, Rendering revision _ => taken o ++ [revision]
                          | _, _ => taken o
                          end;
                 outputs := outputs o ++ out |}.
Proof.
  intros Hinv H. unfold run_step in H.
  destruct (r_cancel_requested r).
  { destruct e; try discriminate. destruct (r_phase r) eqn:Hp; try discriminate;
      injection H as <- <-; cbn [at_phase r_phase]; same_slot; cbn; rewrite ?Hp; try done;
      by apply sublist_nil_l. }
  destruct (r_phase r) as [| |revision payload|] eqn:Hp, e as [res sent| |data ms sent|nr|];
    try discriminate.
  - injection H as H. unfold ready, refuse_session in H.
    destruct res, (r_ended r), sent; injection H as <- <-; cbn [at_phase with_flags r_phase];
      same_slot; cbn; by apply sublist_nil_l.
  - destruct (r_arrived r) eqn:Har; [|discriminate]. injection H as <- <-.
    destruct Hinv as [Hb Hs Hsub Ha Hc Hn Hf]. rewrite Hp, app_nil_r in Hf.
    destruct (r_pending r) as [[revision payload]|] eqn:Hpen; [|by destruct (proj1 Ha Har)].
    unfold pending_list in Hc, Hsub. rewrite Hpen in Hc, Hsub.
    split; cbn [at_phase with_input accepted taken outputs r_accepted_revision r_pending r_arrived
                r_dropped r_phase pending_list]; try done.
    + by rewrite app_nil_r.
    + rewrite length_app. simpl in *. lia.
    + rewrite app_nil_r. by apply sublist_app.
  - destruct (r_ended r); [|destruct sent]; injection H as <- <-;
      cbn [at_phase with_output r_phase]; same_slot; rewrite Hp; destruct (observes r); cbn;
      try done; by apply sublist_nil_l.
  - destruct nr.
    + destruct (2 <=? _); [|injection H as <- <-].
      * injection H as H. unfold refuse_session in H. cbn [at_phase r_ended] in H.
        destruct (r_ended r); injection H as <- <-;
          cbn [at_phase with_flags r_phase]; same_slot; rewrite Hp; cbn; by apply sublist_nil_l.
      * cbn [at_phase r_phase]. same_slot; rewrite Hp; cbn. by apply sublist_nil_l.
    + injection H as <- <-. cbn [at_phase r_phase]. same_slot; rewrite Hp; cbn. by apply sublist_nil_l.
Qed.

Lemma act_inv a r o st :
  slot_inv r o -> act a (r, o) = Some st -> slot_inv st.1 st.2.
Proof.
  intros Hinv H. destruct a as [revision payload|params| |e]; cbn [act] in H.
  - injection H as <-. cbn [fst snd]. destruct (revision <=? r_accepted_revision r) eqn:Hle.
    + unfold submit. rewrite Hle. by destruct o.
    + apply submit_inv; [done|lia].
  - destruct (update params r) as [r'|] eqn:Hu; [|discriminate]. injection H as <-.
    unfold update in Hu. ok_inv. cbn [fst snd]. destruct Hinv. by split.
  - injection H as <-. cbn [fst snd]. destruct Hinv. by split.
  - destruct (run_step e r) as [[r' out]|] eqn:Hs; [|discriminate]. injection H as <-.
    by apply (step_inv e r).
Qed.

Lemma play_inv actions st st' :
  slot_inv st.1 st.2 -> play actions st = Some st' -> slot_inv st'.1 st'.2.
Proof.
  revert st. induction actions as [|a actions IH]; intros st Hinv H; cbn [play] in H.
  - by injection H as <-.
  - destruct (act a st) as [st1|] eqn:Ha; [|discriminate]. destruct st as [r o].
    eapply IH; [|exact H]. by eapply act_inv.
Qed.

Lemma sorted_sublist (l k : list Z) :
  l `sublist_of` k -> StronglySorted Z.lt k -> StronglySorted Z.lt l.
Proof.
  induction 1 as [|x l k H IH|x l k H IH]; intros Hs; [constructor|..];
    inversion Hs as [|? ? Hk Hx]; subst; [|by apply IH].
  constructor; [by apply IH|]. rewrite Forall_forall in Hx |- *. intros y Hy.
  apply Hx. by eapply elem_of_sublist.
Qed.

(** C27 A session renders its newest input and never an input twice: over any
    interleaving of arriving frames, parameter updates, the close and the
    steps of the task, the revisions accepted, taken and sent are strictly
    increasing, each a subsequence of the former; the frame in the slot is the
    newest accepted; and every accepted frame is taken, waiting, or counted as
    dropped. *)
Theorem newest_input_wins session m params generation ident actions r o :
  play actions (new_runner session m params generation ident, nothing_seen) = Some (r, o) ->
  StronglySorted Z.lt (accepted o)
  /\ taken o `sublist_of` accepted o
  /\ frame_revisions (outputs o) `sublist_of` taken o
  /\ StronglySorted Z.lt (frame_revisions (outputs o))
  /\ (forall revision payload, r_pending r = Some (revision, payload) ->
        last (accepted o) = Some revision)
  /\ Z.of_nat (length (accepted o))
     = Z.of_nat (length (taken o)) + r_dropped r
       + match r_pending r with Some _ => 1 | None => 0 end.
Proof.
  intros H. apply play_inv in H as [Hb Hs Hsub Ha Hc Hn Hf]; [|apply slot_new].
  cbn [fst snd] in *.
  assert (Ht : taken o `sublist_of` accepted o).
  { etrans; [|exact Hsub]. by apply sublist_inserts_r. }
  assert (Hfr : frame_revisions (outputs o) `sublist_of` taken o).
  { etrans; [|exact Hf]. by apply sublist_inserts_r. }
  do 3 (split; [done|]). split; [by do 2 (eapply sorted_sublist; [done|])|]. split.
  - intros revision payload Hp. pose proof (Hn _ _ Hp) as ->.
    unfold pending_list in Hsub. rewrite Hp in Hsub.
    assert (Hin : r_accepted_revision r ∈ accepted o).
    { eapply elem_of_sublist; [|exact Hsub]. set_solver. }
    clear -Hb Hs Hin. destruct (accepted o) as [|x l _] using rev_ind; [by apply elem_of_nil in Hin|].
    rewrite last_snoc. apply Forall_app in Hb as [_ Hx]. apply Forall_cons in Hx as [Hx _].
    apply elem_of_app in Hin as [Hin|Hin]; [|by apply list_elem_of_singleton in Hin as ->].
    exfalso. clear -Hs Hin Hx. induction l as [|y l IH]; [by apply elem_of_nil in Hin|].
    cbn [app] in Hs. inversion Hs as [|? ? Hl Hy]; subst.
    apply elem_of_cons in Hin as [<-|Hin]; [|by apply IH].
    apply Forall_app in Hy as [_ Hy]. apply Forall_cons in Hy as [Hy _]. lia.
  - unfold pending_list in Hc. destruct (r_pending r) as [[? ?]|]; simpl in Hc; lia.
Qed.

Definition sim : manifest :=
  {| m_id := "sd-sim"; m_capabilities := ["text_to_image"; "image_to_image"; "realtime"];
     m_parameters := [("type", JStr "object");
                      ("properties", JDict [("prompt", JDict [("type", JStr "string")]);
                                            ("steps", JDict [("default", JInt 2)])])];
     m_default := true; m_benchmark_only := false; m_references := [];
     m_min_vram_gb := 0; m_model_offload_vram_gb := None; m_fields := [] |}.

Definition busy_trace : list action :=
  [Task (Resident true true); Submit 1 "a"; Submit 2 "b"; Task Arrived; Submit 2 "b";
   Submit 5 "c"; Task (Generated "image" 90 true)].

Lemma newest_input_wins_witness :
  exists r o, play busy_trace (new_runner "s" sim [("steps", JInt 2); ("seed", JInt 7)] 1 None, nothing_seen)
                = Some (r, o)
    /\ accepted o = [1; 2; 5] /\ taken o = [2] /\ frame_revisions (outputs o) = [2]
    /\ frame_revisions (outputs o) `sublist_of` taken o.
Proof.
  destruct (play busy_trace (new_runner "s" sim [("steps", JInt 2); ("seed", JInt 7)] 1 None, nothing_seen))
    as [[r o]|] eqn:H; [|vm_compute in H; discriminate].
  exists r, o. split; [done|].
  pose proof (newest_input_wins "s" sim [("steps", JInt 2); ("seed", JInt 7)] 1 None busy_trace r o H)
    as (_ & _ & Hsub & _).
  vm_compute in H. injection H as <- <-. repeat (split; [reflexivity|]). exact Hsub.
Defined.

(** ** After the end *)

(** A closed session goes silent: after [close], whatever input still
    arrives and however its task is resumed, no frame is taken, rendered or
    sent, and no control is sent. *)
Theorem closed_runner_silent actions r o r' o' :
  play actions (close_runner r, o) = Some (r', o') ->
  outputs o' = outputs o /\ taken o' = taken o /\ r_cancel_requested r' = true.
Proof.
  enough (Hgen : forall actions r o, r_cancel_requested r = true ->
            play actions (r, o) = Some (r', o') ->
            outputs o' = outputs o /\ taken o' = taken o /\ r_cancel_requested r' = true)
    by (apply Hgen; done).
  clear. induction actions as [|a actions IH]; intros r o Hc H; cbn [play] in H.
  - by injection H as <- <-.
  - destruct (act a (r, o)) as [[r1 o1]|] eqn:Ha; [|discriminate].
    assert (Hstep : outputs o1 = outputs o /\ taken o1 = taken o /\ r_cancel_requested r1 = true).
    { destruct a as [revision payload|params| |e]; cbn [act] in Ha.
      - injection Ha as <- <-. unfold submit. by destruct (_ <=? _).
      - destruct (update params r) eqn:Hu; [|discriminate]. injection Ha as <- <-.
        unfold update in Hu. by ok_inv.
      - by injection Ha as <- <-.
      - unfold run_step in Ha. rewrite Hc in Ha.
        destruct e; try discriminate. destruct (r_phase r); try discriminate;
          injection Ha as <- <-; cbn [at_phase outputs taken r_cancel_requested r_phase];
          by rewrite app_nil_r. }
    destruct Hstep as (H1 & H2 & H3). rewrite <- H1, <- H2. by apply IH in H.
Qed.

Lemma closed_runner_silent_witness :
  exists r o, play [Submit 9 "late"; Task CancelledTask; Submit 10 "later"]
      (close_runner (new_runner "s" sim [("seed", JInt 7)] 1 None), nothing_seen) = Some (r, o)
    /\ outputs o = [].
Proof.
  destruct (play [Submit 9 "late"; Task CancelledTask; Submit 10 "later"]
      (close_runner (new_runner "s" sim [("seed", JInt 7)] 1 None), nothing_seen))
    as [[r o]|] eqn:H; [|vm_compute in H; discriminate].
  exists r, o. split; [done|]. exact (proj1 (closed_runner_silent _ _ _ _ _ H)).
Defined.

(** ** Seeds *)

Definition has_seed (params : dict) : Prop := exists z, get params "seed" = JInt z.

Lemma ensure_seed_has params draw : has_seed (ensure_seed params draw).
Proof.
  unfold ensure_seed, has_seed. destruct (get params "seed") eqn:E; try (by eexists);
    unfold get; rewrite lookup_set_key; by eexists.
Qed.

Lemma update_has_seed params r r' :
  has_seed (r_params r) -> update params r = Ok r' -> has_seed (r_params r').
Proof.
  intros [z Hz] H. unfold update in H. ok_inv. unfold has_seed, get. cbn [with_params r_params].
  rewrite lookup_set_key. cbn [default]. destruct (normalise_seed _); [injection Hv1 as <-; by eexists|].
  apply item_lookup, get_lookup in Hv1. rewrite Hz in Hv1. subst. by eexists.
Qed.

Lemma run_step_params e r r' out : run_step e r = Some (r', out) -> r_params r' = r_params r.
Proof.
  unfold run_step, ready, refuse_session. intros H. repeat (split_in H; try discriminate);
    injection H as <- <-; try done; by repeat case_match.
Qed.

(** The seed of a session is an integer at every frame: a whole number the
    client sent is kept, anything else is replaced when the session opens, and
    an update without a usable seed keeps the session's. *)
Theorem session_seed_integer session m params draw generation ident actions r o :
  play actions (new_runner session m (ensure_seed params draw) generation ident, nothing_seen)
    = Some (r, o) ->
  has_seed (r_params r)
  /\ (forall z, normalise_seed (get params "seed") = Some z ->
        get (ensure_seed params draw) "seed" = JInt z)
  /\ (forall z, (forall p, Update p ∉ actions) -> get (ensure_seed params draw) "seed" = JInt z ->
        get (r_params r) "seed" = JInt z).
Proof.
  intros H.
  assert (Hgen : forall actions r0 o0, play actions (r0, o0) = Some (r, o) ->
    (has_seed (r_params r0) -> has_seed (r_params r))
    /\ ((forall p, Update p ∉ actions) -> r_params r = r_params r0)).
  { clear. induction actions as [|a actions IH]; intros r0 o0 H; cbn [play] in H.
    - by injection H as <- <-.
    - destruct (act a (r0, o0)) as [[r1 o1]|] eqn:Ha; [|discriminate].
      destruct (IH _ _ H) as [IH1 IH2].
      destruct a as [revision payload|p| |e]; cbn [act] in Ha.
      + injection Ha as <- <-. unfold submit in *.
        destruct (_ <=? _); (split; [done|]); intros Hn; apply IH2; set_solver.
      + destruct (update p r0) eqn:Hu; [|discriminate]. injection Ha as <- <-. split.
        * intros Hs. by eapply IH1, update_has_seed.
        * intros Hn. destruct (Hn p). left.
      + injection Ha as <- <-. split; [done|]. intros Hn; apply IH2; set_solver.
      + destruct (run_step e r0) as [[r2 out]|] eqn:Hs; [|discriminate]. injection Ha as <- <-.
        apply run_step_params in Hs. rewrite Hs in *. split; [done|].
        intros Hn; apply IH2; set_solver. }
  destruct (Hgen _ _ _ H) as [Hs Hp]. split; [by apply Hs, ensure_seed_has|]. split.
  - intros z Hz. unfold ensure_seed. destruct (get params "seed") eqn:E; try discriminate Hz.
    + cbn in Hz. by injection Hz as ->; rewrite E.
    + unfold get. rewrite lookup_set_key. cbn [default]. by rewrite Hz.
  - intros z Hn Hz. by rewrite Hp.
Qed.

Definition forty_two : float := default (S754_zero false) (float_of_Z 42).

Lemma session_seed_integer_witness :
  exists r o, play busy_trace
      (new_runner "s" sim (ensure_seed [("seed", JFloat forty_two)] 7) 1 None, nothing_seen)
      = Some (r, o)
    /\ has_seed (r_params r) /\ get (ensure_seed [("seed", JFloat forty_two)] 7) "seed" = JInt 42.
Proof.
  destruct (play busy_trace
      (new_runner "s" sim (ensure_seed [("seed", JFloat forty_two)] 7) 1 None, nothing_seen))
    as [[r o]|] eqn:H; [|vm_compute in H; discriminate].
  exists r, o. split; [done|].
  destruct (session_seed_integer _ _ _ _ _ _ _ _ _ H) as (Hs & Hk & _).
  split; [exact Hs|]. apply Hk. vm_compute. reflexivity.
Defined.
