(* ===== verification/WorkerConnection.v ===== *)
(** * One protocol 6 connection of a worker

    [SessionManager], [apply_command] and the control loop of
    [_serve_protocol6] in worker/worker/client.py, over the runners of
    WorkerSession and the ledger of Ledger.  A control is handled to its end
    before the next one is read. *)

From S2P Require Import Prelude PyFloat Hashes Json Protocol6 Manifests Ledger Uuid WorkerSession.
Open Scope Z_scope.

(** ** Sessions *)

Record sessions := {
  s_runners : gmap string runner;
  s_highest : gmap string Z;
  s_retired : list runner
}.
Definition no_sessions : sessions := {| s_runners := ∅; s_highest := ∅; s_retired := [] |}.

(** [runners.pop(session_id)], then [_retire] *)
Definition retire (session : string) (s : sessions) : sessions :=
  match s_runners s !! session with
  | Some r => {| s_runners := delete session (s_runners s); s_highest := s_highest s;
                 s_retired := s_retired s ++ [close_runner r] |}
  | None => s
  end.

Definition raise_highest (session : string) (generation : Z) (s : sessions) : sessions :=
  {| s_runners := s_runners s; s_highest := <[session := generation]> (s_highest s);
     s_retired := s_retired s |}.

Definition set_runner (session : string) (r : runner) (s : sessions) : sessions :=
  {| s_runners := <[session := r]> (s_runners s); s_highest := s_highest s;
     s_retired := s_retired s |}.

Definition highest_of (session : string) (s : sessions) : Z := default 0 (s_highest s !! session).

(** [by_id[v]] *)
Definition table_item (by_id : table) (v : json) : result exn manifest :=
  known ← in_table v by_id;
  if (known : bool) then
    match lookup_table (text_of v) by_id with
    | Some m => Ok m
    | None => Err (KeyError (text_of v))
    end
  else Err (KeyError (text_of v)).

(** [dict(control.get("params") or {})], defaults and seed filled in. *)
Definition session_params (m : manifest) (control : dict) (draw : Z) : result exn dict :=
  params ← to_dict (or_empty (get control "params"));
  filled ← with_defaults m params;
  Ok (ensure_seed filled draw).

(** A message to send, under the identity set at that point. *)
Definition outgoing : Type := dict * option dict.

Definition open (control : dict) (identity : option dict) (by_id : table) (draw : Z)
    (s : sessions) : result exn (list outgoing) * sessions :=
  match session_id ← item control "session_id"; uuid_of session_id with
  | Err e => (Err e, s)
  | Ok session =>
      match control_generation control with
      | None => (Ok [], s)
      | Some generation =>
          if generation <? highest_of session s then (Ok [], s)
          else if generation =? highest_of session s then
            (Ok (match s_runners s !! session with
                 | Some r => if r_ready_sent r && negb (r_ended r)
                             then [(lifecycle "session_ready" [] r, None)] else []
                 | None => []
                 end), s)
          else
            let s := raise_highest session generation (retire session s) in
            match model_id ← item control "model_id";
                  m ← table_item by_id model_id;
                  params ← session_params m control draw;
                  Ok (new_runner session m params generation identity) with
            | Err e => (Err e, s)
            | Ok r => (Ok [], set_runner session r s)
            end
      end
  end.

Definition update_session (control : dict) (s : sessions) : result exn sessions :=
  session_id ← item control "session_id";
  session ← uuid_of session_id;
  match s_runners s !! session with
  | Some r =>
      if matches_generation (control_generation control) r then
        params ← item control "params";
        r' ← update params r;
        Ok (set_runner session r' s)
      else Ok s
  | None => Ok s
  end.

(** The categorizer's and the clock's answers for a close report. *)
Record observed := { o_category : string; o_score : option json; o_duration_ms : Z }.

Definition close_session (control : dict) (seen : observed) (s : sessions)
  : result exn (list outgoing * sessions) :=
  session_id ← item control "session_id";
  session ← uuid_of session_id;
  let generation := control_generation control in
  match s_runners s !! session with
  | None =>
      Ok ([], match generation with
              | Some g => raise_highest session (Z.max (highest_of session s) g) s
              | None => s
              end)
  | Some r =>
      if matches_generation generation r then
        Ok ([(close_report (o_category seen) (o_score seen) (o_duration_ms seen) (close_runner r),
              r_p6_identity r)],
            retire session s)
      else Ok ([], s)
  end.

Definition submit_frame (session : string) (revision : Z) (payload : string) (s : sessions)
  : sessions :=
  match s_runners s !! session with
  | Some r => set_runner session (submit revision payload r) s
  | None => s
  end.

(** Every runner left is asked to stop. *)
Definition shutdown (s : sessions) : list runner * sessions :=
  (map close_runner ((map_to_list (s_runners s)).*2 ++ s_retired s), no_sessions).

(** A step of the task of the live runner of a session; of a retired one,
    which is forgotten when it ends. *)
Definition step_live (session : string) (e : resume) (s : sessions)
  : option (sessions * list output) :=
  r ← s_runners s !! session;
  '(r', out) ← run_step e r;
  Some (set_runner session r' s, out).
Definition step_retired (i : nat) (e : resume) (s : sessions) : option (sessions * list output) :=
  r ← s_retired s !! i;
  '(r', out) ← run_step e r;
  Some ({| s_runners := s_runners s; s_highest := s_highest s;
           s_retired := match r_phase r' with
                        | Finished => delete i (s_retired s)
                        | _ => <[i := r']> (s_retired s)
                        end |}, out).

(** [serving] *)
Definition serving (model_id : string) (s : sessions) : bool :=
  existsb (fun r => bool_decide (m_id (r_manifest r) = model_id))
    ((map_to_list (s_runners s)).*2 ++ s_retired s).

(** ** The connection *)

Record connection := {
  c_sessions : sessions;
  c_jobs : list job_run;
  c_by_id : table;
  c_refused_after_ack : list (dict * dict);
  c_sent : list string;
  c_grant : Z * bool
}.

Definition with_sessions s (c : connection) : connection :=
  {| c_sessions := s; c_jobs := c_jobs c; c_by_id := c_by_id c;
     c_refused_after_ack := c_refused_after_ack c; c_sent := c_sent c; c_grant := c_grant c |}.
Definition with_jobs jobs (c : connection) : connection :=
  {| c_sessions := c_sessions c; c_jobs := jobs; c_by_id := c_by_id c;
     c_refused_after_ack := c_refused_after_ack c; c_sent := c_sent c; c_grant := c_grant c |}.
Definition with_by_id t (c : connection) : connection :=
  {| c_sessions := c_sessions c; c_jobs := c_jobs c; c_by_id := t;
     c_refused_after_ack := c_refused_after_ack c; c_sent := c_sent c; c_grant := c_grant c |}.
Definition with_refused l (c : connection) : connection :=
  {| c_sessions := c_sessions c; c_jobs := c_jobs c; c_by_id := c_by_id c;
     c_refused_after_ack := l; c_sent := c_sent c; c_grant := c_grant c |}.
Definition with_sent l (c : connection) : connection :=
  {| c_sessions := c_sessions c; c_jobs := c_jobs c; c_by_id := c_by_id c;
     c_refused_after_ack := c_refused_after_ack c; c_sent := l; c_grant := c_grant c |}.
Definition with_grant g (c : connection) : connection :=
  {| c_sessions := c_sessions c; c_jobs := c_jobs c; c_by_id := c_by_id c;
     c_refused_after_ack := c_refused_after_ack c; c_sent := c_sent c; c_grant := g |}.

Definition model_busy (c : connection) (model_id : string) : bool :=
  serving model_id (c_sessions c)
  || existsb (fun j => py_eq (j_model j) (JStr model_id)) (c_jobs c).

(** [verify_for_load] of the model store: a model whose files are no longer
    complete on disk leaves the table. *)
Definition verify_for_load (is_installed : manifest -> bool) (model_id : json) (t : table)
  : result exn table :=
  known ← in_table model_id t;
  Ok (match lookup_table (text_of model_id) t with
      | Some m => if (known : bool) && negb (is_installed m)
                  then filter (fun kv => kv.1 <> text_of model_id) t else t
      | None => t
      end).

Section Connection.
Variables worker_id incarnation : string.
(** The store's check of a model's files, when there is a store; the seed
  drawn for a session, and what its end observes, by command. *)
Variable installed : option (manifest -> bool).
Variable draw : dict -> Z.
Variable seen : dict -> observed.

(** [ws.send] of the messages, in order: the first that does not pass the
  stamping and the validator raises. *)
Fixpoint send_all (ms : list outgoing) (sent : list string) : result exn unit * list string :=
match ms with
| [] => (Ok tt, sent)
| (m, identity) :: ms =>
    match send_control m identity worker_id incarnation with
    | Ok (text, _) => send_all ms (sent ++ [text])
    | Err e => (Err e, sent)
    end
end.

Definition accept (c : connection) : result exn (string * option string) * connection :=
(Ok ("accepted", None), c).

Definition after_send (ms : list outgoing) (c : connection)
: result exn (string * option string) * connection :=
let (sent, texts) := send_all ms (c_sent c) in
(_ ← sent; Ok ("accepted", None), with_sent texts c).

(** The refusal of a command for a model that is gone, kept until its
  acknowledgement has been sent. *)
Definition unless_unavailable (command : dict) (c : connection)
  (k : dict -> result exn (string * option string) * connection)
: result exn (string * option string) * connection :=
match command_identity command with
| Err e => (Err e, c)
| Ok ident =>
    match unavailable_model_report command (c_by_id c) with
    | Err e => (Err e, c)
    | Ok None => k ident
    | Ok (Some refusal) =>
        accept (with_refused (c_refused_after_ack c ++ [(refusal, ident)]) c)
    end
end.

(** The identity of a live runner follows the update command. *)
Definition refresh_identity (command : dict) (s : sessions) : result exn sessions :=
session_id ← item command "session_id";
session ← uuid_of session_id;
match s_runners s !! session with
| Some r =>
    match r_p6_identity r with
    | Some old =>
        new ← command_identity command;
        Ok (set_runner session (with_identity (Some (update_with new old)) r) s)
    | None => Ok s
    end
| None => Ok s
end.

Definition apply_kind (kind : string) (command : dict) (c : connection)
: result exn (string * option string) * connection :=
if decide (kind = "open_session") then
  unless_unavailable command c (fun identity =>
    match open command (Some identity) (c_by_id c) (draw command) (c_sessions c) with
    | (Ok ms, s) => after_send ms (with_sessions s c)
    | (Err e, s) => (Err e, with_sessions s c)
    end)
else if decide (kind = "update_session") then
  match update_session command (c_sessions c) with
  | Err e => (Err e, c)
  | Ok s =>
      match refresh_identity command s with
      | Err e => (Err e, with_sessions s c)
      | Ok s => accept (with_sessions s c)
      end
  end
else if decide (kind = "close_session") then
  match close_session command (seen command) (c_sessions c) with
  | Err e => (Err e, c)
  | Ok (ms, s) => after_send ms (with_sessions s c)
  end
else if decide (kind = "dispatch_job") then
  unless_unavailable command c (fun identity =>
    match new_job command identity with
    | Err e => (Err e, c)
    | Ok job => accept (with_jobs (c_jobs c ++ [job]) c)
    end)
else if decide (kind = "cancel_job") then
  match cancel_jobs command (c_jobs c) with
  | Err e => (Err e, c)
  | Ok jobs => accept (with_jobs jobs c)
  end
else (Ok ("refused", Some "unsupported_control"), c).

Definition apply_command (command : dict) (c : connection)
: result exn (string * option string) * connection :=
match item command "type" with
| Ok (JStr kind) =>
    if is_in kind ["open_session"; "dispatch_job"] then
      match installed with
      | Some is_installed =>
          match verify_for_load is_installed
                  (default (JStr "") (lookup_key "model_id" command)) (c_by_id c) with
          | Ok t => apply_kind kind command (with_by_id t c)
          | Err e => (Err e, c)
          end
      | None => apply_kind kind command c
      end
    else apply_kind kind command c
| Ok _ => (Ok ("refused", Some "unsupported_control"), c)
| Err e => (Err e, c)
end.

(** ** The control loop *)

Definition FRAME_HEADER_BYTES : nat := 21.
Definition STORE_COMMANDS : list string := ["install_model"; "cancel_install"; "remove_model"].

(** A binary message: its session, its input revision and its payload. *)
Definition parse_frame (data : string) : result exn (string * Z * string) :=
if Nat.ltb (String.length data) FRAME_HEADER_BYTES
then Err (ValueError "binary frame shorter than the header")
else
  let bytes := bytes_of_string data in
  Ok (uuid_string (be_val (take 16 (drop 1 bytes))),
      be_val (take 4 (drop 17 bytes)),
      String.substring FRAME_HEADER_BYTES (String.length data - FRAME_HEADER_BYTES) data).

(** [while refused_after_ack], after a command's acknowledgement is sent. *)
Fixpoint flush_refused (rs : list (dict * dict)) (c : connection) : result exn unit * connection :=
match rs with
| [] => (Ok tt, with_refused [] c)
| (refusal, ident) :: rs =>
    match send_control refusal (Some ident) worker_id incarnation with
    | Ok (text, _) => flush_refused rs (with_sent (c_sent c ++ [text]) c)
    | Err e => (Err e, with_refused rs c)
    end
end.

(** One message of the socket.  An exception ends the connection. *)
Definition receive_text (text : raw_control) (l : ledger) (c : connection)
: result exn unit * (ledger * connection) :=
match control ← decode_control text;
      _ ← validate_message (JDict control) (Some worker_id) (Some incarnation);
      Ok control with
| Err e => (Err e, (l, c))
| Ok control =>
    let kind := text_of (get control "type") in
    if is_in kind STORE_COMMANDS then (Ok tt, (l, c))
    else if decide (kind = "work_grant") then
      match remaining ← item control "remaining_ms"; ready ← item control "ready";
            Ok (remaining, ready) with
      | Ok (JInt remaining, JBool ready) => (Ok tt, (l, with_grant (remaining, ready) c))
      | Ok _ => (Ok tt, (l, c))
      | Err e => (Err e, (l, c))
      end
    else if is_in kind ["open_session"; "update_session"; "close_session";
                        "dispatch_job"; "cancel_job"] then
      match handle apply_command worker_id incarnation control l c with
      | (Err e, st) => (Err e, st)
      | (Ok ack, (l, c)) =>
          let (outcome, c) :=
            flush_refused (c_refused_after_ack c) (with_sent (c_sent c ++ [ack]) c) in
          (outcome, (l, c))
      end
    else (Ok tt, (l, c))
end.

Inductive incoming : Type :=
| Binary (data : string)
| Text (text : string).

Definition receive (message : incoming) (l : ledger) (c : connection)
: result exn unit * (ledger * connection) :=
match message with
| Binary data =>
    match parse_frame data with
    | Ok (session, revision, payload) =>
        (Ok tt, (l, with_sessions (submit_frame session revision payload (c_sessions c)) c))
    | Err e => (Err e, (l, c))
    end
| Text text => receive_text (RawStr text) l c
end.
End Connection.
