(* ===== verification/WorkerConnectionSpec.v ===== *)
(** * Properties of a worker's sessions and connection

    Generation fencing over every sequence of controls, frames and task
    steps; what applying a command can answer; and two behaviours of the
    protocol 6 path that a stale or a repeated command brings out. *)

From S2P Require Import Prelude PyFloat Hashes Json JsonFacts Protocol6 Protocol6Facts Manifests.
From S2P Require Import Ledger LedgerFacts Uuid WorkerSession WorkerSessionSpec WorkerConnection Samples.
Open Scope Z_scope.

(** ** Sequences of operations on the sessions of a connection *)

Inductive op : Type :=
| Open (control : dict) (ident : option dict) (by_id : table) (draw : Z)
| Change (control : dict)
| Refresh (control : dict)
| End (control : dict) (seen : observed)
| Input (session : string) (revision : Z) (payload : string)
| Live (session : string) (e : resume)
| Retired (i : nat) (e : resume).

(** An operation that raises, or is not enabled, leaves the state it had
    reached. *)
Definition apply_op (o : op) (s : sessions) : sessions :=
  match o with
  | Open control ident by_id draw => (open control ident by_id draw s).2
  | Change control => match update_session control s with Ok s' => s' | Err _ => s end
  | Refresh control => match refresh_identity control s with Ok s' => s' | Err _ => s end
  | End control seen => match close_session control seen s with Ok (_, s') => s' | Err _ => s end
  | Input session revision payload => submit_frame session revision payload s
  | Live session e => match step_live session e s with Some (s', _) => s' | None => s end
  | Retired i e => match step_retired i e s with Some (s', _) => s' | None => s end
  end.

Definition apply_ops (ops : list op) (s : sessions) : sessions :=
  fold_left (fun s o => apply_op o s) ops s.

(** ** The invariant *)

Record live_ok (session : string) (r : runner) (s : sessions) : Prop := {
  live_session : r_session r = session;
  live_generation : s_highest s !! session = Some (r_generation r);
  live_positive : 1 <= r_generation r;
  live_running : r_cancel_requested r = false;
  live_seed : has_seed (r_params r)
}.

Record sessions_inv (s : sessions) : Prop := {
  all_live : map_Forall (fun session r => live_ok session r s) (s_runners s);
  all_retired : Forall (fun r => r_cancel_requested r = true) (s_retired s)
}.

Lemma sessions_inv_none : sessions_inv no_sessions.
Proof. split; [apply map_Forall_empty|constructor]. Qed.

Lemma highest_of_live session r s :
  sessions_inv s -> s_runners s !! session = Some r -> highest_of session s = r_generation r.
Proof.
  intros [Hl _] Hr. unfold highest_of. by rewrite (live_generation _ _ _ (Hl _ _ Hr)).
Qed.

Lemma retire_inv session s : sessions_inv s -> sessions_inv (retire session s).
Proof.
  intros [Hl Hr]. unfold retire. destruct (s_runners s !! session) as [r|] eqn:E; [|by split].
  split; cbn [s_runners s_retired].
  - intros id r' Hid. apply lookup_delete_Some in Hid as [_ Hid]. destruct (Hl _ _ Hid). by split.
  - apply Forall_app. by repeat constructor.
Qed.

Lemma retire_gone session s : s_runners (retire session s) !! session = None.
Proof.
  unfold retire. destruct (s_runners s !! session) eqn:E; cbn [s_runners]; [|done].
  apply lookup_delete_eq.
Qed.


Lemma raise_inv session g s :
  sessions_inv s -> s_runners s !! session = None -> sessions_inv (raise_highest session g s).
Proof.
  intros [Hl Hr] Hn. split; [|done]. intros id r Hid. cbn [raise_highest s_runners] in Hid.
  destruct (Hl _ _ Hid). split; try done. cbn [raise_highest s_highest].
  rewrite lookup_insert_ne; [done|]. intros <-. congruence.
Qed.

(** Replacing a runner by one of the same session, generation and life. *)
Lemma set_runner_inv session r r' s :
  sessions_inv s -> s_runners s !! session = Some r ->
  r_session r' = r_session r -> r_generation r' = r_generation r ->
  r_cancel_requested r' = r_cancel_requested r -> (has_seed (r_params r) -> has_seed (r_params r')) ->
  sessions_inv (set_runner session r' s).
Proof.
  intros [Hl Hret] Hr E1 E2 E3 Hs. split; [|done].
  intros id r0 Hid. cbn [set_runner s_runners] in Hid.
  apply lookup_insert_Some in Hid as [[<- <-]|[Hne Hid]]; [|destruct (Hl _ _ Hid); by split].
  destruct (Hl _ _ Hr). split; cbn [set_runner s_highest]; try congruence; try lia; by apply Hs.
Qed.

Lemma run_step_same e r r' out :
  run_step e r = Some (r', out) ->
  r_session r' = r_session r /\ r_generation r' = r_generation r
  /\ r_cancel_requested r' = r_cancel_requested r.
Proof.
  unfold run_step, ready, refuse_session. intros H. repeat (split_in H; try discriminate);
    injection H as <- <-; try done; by repeat case_match.
Qed.

(** What [open] does to the sessions. *)
Variant opening (control : dict) (s : sessions) : sessions -> option (string * Z) -> Prop :=
| open_ignored : opening control s s None
| open_failed session g :
    uuid_of (get control "session_id") = Ok session -> control_generation control = Some g ->
    highest_of session s < g ->
    opening control s (raise_highest session g (retire session s)) None
| open_new session g m params ident :
    uuid_of (get control "session_id") = Ok session -> control_generation control = Some g ->
    highest_of session s < g -> 1 <= g -> has_seed params ->
    opening control s
      (set_runner session (new_runner session m params g ident)
         (raise_highest session g (retire session s))) (Some (session, g)).

Lemma control_generation_pos control g : control_generation control = Some g -> 1 <= g.
Proof.
  unfold control_generation. destruct (get _ _); try discriminate.
  destruct (z <? 1) eqn:E; [discriminate|]. intros [= <-]. lia.
Qed.

Lemma session_params_seed m control draw params :
  session_params m control draw = Ok params -> has_seed params.
Proof. unfold session_params. intros H. ok_inv. apply ensure_seed_has. Qed.

Lemma open_opening control ident by_id draw s :
  exists opened, opening control s (open control ident by_id draw s).2 opened
    /\ (opened = None -> (s_runners (open control ident by_id draw s).2 = s_runners s)
                         \/ exists session, s_runners (open control ident by_id draw s).2
                                            = delete session (s_runners s)).
Proof.
  unfold open.
  destruct (session_id ← item control "session_id"; uuid_of session_id) as [session|e] eqn:Hs;
    [|exists None; split; [constructor|by left]].
  apply bind_ok in Hs as (v & Hv & Hs). apply item_lookup, get_lookup in Hv. subst v.
  destruct (control_generation control) as [g|] eqn:Hg; [|exists None; split; [constructor|by left]].
  destruct (g <? highest_of session s) eqn:Hlt; [exists None; split; [constructor|by left]|].
  destruct (g =? highest_of session s) eqn:Heq; [exists None; split; [constructor|by left]|].
  destruct (model_id ← item control "model_id"; _) as [r|e] eqn:Hr; cbn [snd].
  - ok_inv. exists (Some (session, g)). split; [|done]. apply open_new; try done; [lia| |].
    + by eapply control_generation_pos.
    + by eapply session_params_seed.
  - exists None. split; [apply open_failed; [done..|lia]|]. intros _.
    cbn [raise_highest s_runners]. unfold retire.
    destruct (s_runners s !! session); [right; by exists session|by left].
Qed.

Lemma opening_inv control s s' opened :
  sessions_inv s -> opening control s s' opened -> sessions_inv s'.
Proof.
  intros Hinv H. destruct H as [|session g Hs Hg Hlt|session g m params ident Hs Hg Hlt Hpos Hseed].
  - done.
  - apply raise_inv; [by apply retire_inv|apply retire_gone].
  - pose proof (retire_inv session s Hinv) as Hret.
    pose proof (raise_inv session g _ Hret (retire_gone session s)) as [Hl Hr].
    split; [|done]. intros id r Hid. cbn [set_runner s_runners] in Hid.
    apply lookup_insert_Some in Hid as [[<- <-]|[Hne Hid]].
    + split; try done. cbn. apply lookup_insert_eq.
    + destruct (Hl _ _ Hid). by split.
Qed.

Lemma apply_op_inv o s : sessions_inv s -> sessions_inv (apply_op o s).
Proof.
  intros Hinv. destruct o as [control ident by_id draw|control|control|control seen|session rev pl|session e|i e];
    cbn [apply_op].
  - destruct (open_opening control ident by_id draw s) as (opened & Ho & _).
    by eapply opening_inv.
  - destruct (update_session control s) as [s'|e] eqn:H; [|done]. unfold update_session in H.
    apply bind_ok in H as (v & _ & H). apply bind_ok in H as (session & _ & H).
    destruct (s_runners s !! session) as [r|] eqn:Hr; [|by ok_inv].
    destruct (matches_generation _ r); [|by ok_inv].
    apply bind_ok in H as (p & _ & H). apply bind_ok in H as (r' & Hu & [= <-]).
    pose proof (fun Hs => update_has_seed _ _ _ Hs Hu) as Hseed. unfold update in Hu.
    eapply set_runner_inv; [done|done|by ok_inv..|done].
  - destruct (refresh_identity control s) as [s'|e] eqn:H; [|done]. unfold refresh_identity in H.
    apply bind_ok in H as (v & _ & H). apply bind_ok in H as (session & _ & H).
    destruct (s_runners s !! session) as [r|] eqn:Hr; [|by ok_inv].
    destruct (r_p6_identity r); ok_inv; [|done]. by eapply set_runner_inv.
  - destruct (close_session control seen s) as [[ms s']|e] eqn:H; [|done]. unfold close_session in H.
    apply bind_ok in H as (v & _ & H). apply bind_ok in H as (session & _ & H).
    destruct (s_runners s !! session) as [r|] eqn:Hr.
    + destruct (matches_generation _ r); injection H as <- <-; [by apply retire_inv|done].
    + injection H as <- <-. destruct (control_generation control); [by apply raise_inv|done].
  - unfold submit_frame. destruct (s_runners s !! session) as [r|] eqn:Hr; [|done].
    eapply set_runner_inv; [done..| | | |]; unfold submit; by destruct (_ <=? _).
  - destruct (step_live session e s) as [[s' out]|] eqn:H; [|done]. unfold step_live in H.
    destruct (s_runners s !! session) as [r|] eqn:Hr; [|discriminate]. cbn [mbind option_bind] in H.
    destruct (run_step e r) as [[r' out']|] eqn:Hs; [|discriminate]. injection H as <- <-.
    pose proof (run_step_same _ _ _ _ Hs) as (H1 & H2 & H3). apply run_step_params in Hs.
    eapply set_runner_inv; try done. by rewrite Hs.
  - destruct (step_retired i e s) as [[s' out]|] eqn:H; [|done]. unfold step_retired in H.
    destruct (s_retired s !! i) as [r|] eqn:Hr; [|discriminate]. cbn [mbind option_bind] in H.
    destruct (run_step e r) as [[r' out']|] eqn:Hs; [|discriminate]. injection H as <- <-.
    pose proof (run_step_same _ _ _ _ Hs) as (H1 & H2 & H3). destruct Hinv as [Hl Hret].
    split; [intros id r0 Hid; destruct (Hl _ _ Hid); by split|]. cbn [s_retired].
    rewrite Forall_lookup in Hret. pose proof (Hret _ _ Hr) as Hc.
    destruct (r_phase r'); rewrite Forall_lookup; intros j x Hj;
      try (apply list_lookup_insert_Some in Hj as [(<- & <- & _)|[_ Hj]]; [congruence|by eapply Hret]).
    rewrite list_lookup_delete in Hj. repeat case_match; by eapply Hret.
Qed.

Lemma apply_ops_inv ops s : sessions_inv s -> sessions_inv (apply_ops ops s).
Proof.
  unfold apply_ops. revert s. induction ops as [|o ops IH]; intros s Hs; [done|].
  apply IH. by apply apply_op_inv.
Qed.

(** ** Generations only grow *)









(** A control of an older generation changes nothing: once a session has
    seen a higher generation, an open, an update or a close that carries a
    lower one leaves every runner and every generation as it was, and sends
    nothing. *)
Theorem stale_control_ignored ops control session g ident by_id draw seen :
  let s := apply_ops ops no_sessions in
  get control "session_id" = JStr session -> uuid_of (JStr session) = Ok session ->
  control_generation control = Some g -> g < highest_of session s ->
  open control ident by_id draw s = (Ok [], s)
  /\ update_session control s = Ok s
  /\ close_session control seen s = Ok ([], s).
Proof.
  intros s Hv Hs Hg Hlt.
  assert (Hinv : sessions_inv s) by apply apply_ops_inv, sessions_inv_none. clearbody s.
  assert (Hi : item control "session_id" = Ok (JStr session)).
  { apply item_lookup. unfold get in Hv. destruct (lookup_key "session_id" control); [|done].
    cbn in Hv. by subst. }
  assert (Hm : forall r, s_runners s !! session = Some r -> matches_generation (Some g) r = false).
  { intros r Hr. pose proof (highest_of_live _ _ _ Hinv Hr). unfold matches_generation.
    apply bool_decide_eq_false. intros [= ->]. lia. }
  unfold open, update_session, close_session. rewrite Hi. cbn [mbind result_bind]. rewrite Hs, Hg.
  cbn [mbind result_bind]. rewrite (proj2 (Z.ltb_lt _ _)) by done. split; [done|].
  destruct (s_runners s !! session) as [r|] eqn:Hr; [rewrite (Hm r eq_refl); by split|].
  split; [done|]. do 2 f_equal. unfold raise_highest. destruct s as [rs hs ret]. cbn in *. f_equal.
  unfold highest_of in *. cbn in *. rewrite Z.max_l by lia. apply insert_id.
  destruct (hs !! session) as [h|]; [done|]. cbn in Hlt. pose proof (control_generation_pos _ _ Hg). lia.
Qed.

(** ** A concrete session *)

Definition SESSION : string := "55555555-5555-4555-8555-555555555555".
Definition ATTEMPT (n : Z) : string := "66666666-6666-4666-8666-66666666666" +:+ dec_string n.

Definition session_fields (generation : Z) : dict :=
  lease_fields ++ [("session_id", JStr SESSION); ("attempt_id", JStr (ATTEMPT generation));
                   ("control_generation", JInt generation)].

Definition open_command (generation sequence : Z) (command_id : string) : dict :=
  hashed "body_hash"
    (("type", JStr "open_session") :: session_fields generation ++
     [("command_sequence", JInt sequence); ("command_id", JStr command_id);
      ("model_id", JStr "sd-sim"); ("params", JDict [("prompt", JStr "casa azul")]);
      ("work_budget", JDict [("range_id", JStr "77777777-7777-4777-8777-777777777777");
                             ("start_gpu_ms", JInt 0); ("gpu_ms_limit", JNull);
                             ("remaining_wall_ms", JNull)])]).

Definition update_command (generation sequence : Z) (command_id : string) : dict :=
  hashed "body_hash"
    (("type", JStr "update_session") :: session_fields generation ++
     [("command_sequence", JInt sequence); ("command_id", JStr command_id);
      ("model_id", JStr "sd-sim"); ("params", JDict [("prompt", JStr "casa roja")]);
      ("params_revision", JInt 2)]).

Definition fleet : table := [("sd-sim", sim)].
Definition after_open : list op :=
  [Open (open_command 2 1 "99999999-9999-4999-8999-000000000001") None fleet 7].

Lemma stale_control_ignored_witness :
  let s := apply_ops after_open no_sessions in
  (exists r, s_runners s !! SESSION = Some r /\ r_generation r = 2)
  /\ open (open_command 1 2 "99999999-9999-4999-8999-000000000002") None fleet 9 s = (Ok [], s).
Proof.
  intros s. split.
  - destruct (s_runners s !! SESSION) as [r|] eqn:H; [|vm_compute in H; discriminate].
    exists r. split; [done|].
    assert (Hg : Some (r_generation r) = Some 2).
    { change (Some (r_generation r)) with (r_generation <$> Some r). rewrite <- H.
      vm_compute. reflexivity. }
    by injection Hg.
  - apply (stale_control_ignored after_open _ SESSION 1 None fleet 9
             {| o_category := "other"; o_score := None; o_duration_ms := 0 |});
      vm_compute; reflexivity.
Defined.

(** ** Applying a command *)

Section Apply.
Variables worker_id incarnation : string.
Variable installed : option (manifest -> bool).
Variable draw : dict -> Z.
Variable seen : dict -> observed.

Abbreviation apply := (apply_command worker_id incarnation installed draw seen).
Abbreviation apply_as := (apply_kind worker_id incarnation draw seen).

Lemma after_send_outcome ms c o c' :
after_send worker_id incarnation ms c = (Ok o, c') -> o = ("accepted", None).
Proof. unfold after_send. destruct (send_all _ _ ms _) as [[[]|e] texts]; by intros [= <- _]. Qed.

(** Accepted, or refused for being none of the kinds the handler knows. *)
Definition outcome_of (kind : json) (o : string * option string) : Prop :=
o = ("accepted", None)
\/ o = ("refused", Some "unsupported_control") /\ forall k, k ∈ LEDGER_COMMANDS -> kind <> JStr k.

Lemma apply_kind_outcome kind command c o c' :
apply_as kind command c = (Ok o, c') -> outcome_of (JStr kind) o.
Proof.
assert (Hacc : forall (c : connection) o c', accept c = (Ok o, c') -> outcome_of (JStr kind) o)
  by (intros ??? [=]; subst; by left).
assert (Hsend : forall ms c o c', after_send worker_id incarnation ms c = (Ok o, c') -> outcome_of (JStr kind) o)
  by (intros ? ? ? ? ?%after_send_outcome; by left).
assert (Hun : forall k, (forall ident o c', k ident = (Ok o, c') -> outcome_of (JStr kind) o) ->
  unless_unavailable command c k = (Ok o, c') -> outcome_of (JStr kind) o).
{ intros k Hk. unfold unless_unavailable. destruct (command_identity command); [|done].
  destruct (unavailable_model_report _ _) as [[|]|]; [apply Hacc|apply Hk|done]. }
unfold apply_kind.
destruct (decide _) as [_|N1]; [|destruct (decide _) as [_|N2]; [|destruct (decide _) as [_|N3];
  [|destruct (decide _) as [_|N4]; [|destruct (decide _) as [_|N5]]]]].
- apply Hun. intros ident o1 c1.
  destruct (open _ _ _ _ _) as [[ms|e] s]; [apply Hsend|done].
- destruct (update_session _ _); [|done]. destruct (refresh_identity _ _); [apply Hacc|done].
- destruct (close_session _ _ _) as [[ms s]|]; [apply Hsend|done].
- apply Hun. intros ident o1 c1. destruct (new_job _ _); [apply Hacc|done].
- destruct (cancel_jobs _ _); [apply Hacc|done].
- intros [=]; subst. right. split; [done|]. intros k Hk [= ->].
  unfold LEDGER_COMMANDS in Hk. rewrite !elem_of_cons, elem_of_nil in Hk. tauto.
Qed.

(** A command that does not raise is accepted, or refused as
  unsupported. *)
Lemma apply_command_outcome command c o c' : apply command c = (Ok o, c') -> outcome_of (get command "type") o.
Proof.
assert (Hun : forall v (c c' : connection), (forall k, v <> JStr k) ->
  (@Ok exn _ ("refused", Some "unsupported_control"), c) = (Ok o, c') -> outcome_of v o).
{ intros v ? ? Hv [=]; subst. right. split; [done|]. intros k _. apply Hv. }
unfold apply_command. destruct (item command "type") as [v|] eqn:Hv; [|by intros [=]].
apply item_lookup in Hv. unfold get. rewrite Hv. cbn [default from_option]. unfold id.
destruct v as [| | | |kind| | |]; try (by apply Hun).
destruct (is_in _ _); [|apply apply_kind_outcome].
destruct installed; [|apply apply_kind_outcome].
destruct (verify_for_load _ _ _); [apply apply_kind_outcome|done].
Qed.
End Apply.

(** A session_ready without the identity of a command does not pass the
    validator. *)
Lemma bare_ready_refused r worker incarnation :
  exists e, send_control (lifecycle "session_ready" [] r) None worker incarnation = Err (Protocol6Error e).
Proof.
  unfold send_control. cbn [mbind result_bind].
  assert (Hj : check_json (JDict (lifecycle "session_ready" [] r)) 0
               = refuse_if (has_surrogate (r_session r)) (Protocol6Error "invalid Unicode")).
  { unfold lifecycle, update_with. cbn -[has_surrogate].
    repeat match goal with |- context [has_surrogate ?s] =>
      let b := eval vm_compute in (has_surrogate s) in
      match b with false => change (has_surrogate s) with false end end.
    by destruct (has_surrogate (r_session r)). }
  unfold validate_message. set (nested := validate_message_fuel 1).
  change (validate_message_fuel 2) with (validate_message_with nested).
  unfold validate_message_with. change (get (lifecycle "session_ready" [] r) "type") with (JStr "session_ready").
  cbv iota beta. rewrite Hj. unfold refuse_if. destruct (has_surrogate _); [by eexists|].
  cbn [mbind result_bind].
  change (keys (lifecycle "session_ready" [] r)) with ["type"; "session_id"; "control_generation"].
  replace (shape_matches "session_ready" ["type"; "session_id"; "control_generation"]) with false
    by (vm_compute; reflexivity).
  by eexists.
Qed.

(** A repeated open is not idempotent over protocol 6: an open command for
    the generation that is already running and ready makes the worker send
    the session's ready again without the command's identity, which its own
    validator refuses, so that applying the command raises and the
    connection is closed. *)
Theorem repeated_open_raises worker_id incarnation draw seen command c session r :
  get command "type" = JStr "open_session" ->
  get command "session_id" = JStr session -> uuid_of (JStr session) = Ok session ->
  is_ok (command_identity command) = true ->
  in_table (get command "model_id") (c_by_id c) = Ok true ->
  s_runners (c_sessions c) !! session = Some r -> r_ready_sent r = true -> r_ended r = false ->
  control_generation command = Some (r_generation r) ->
  s_highest (c_sessions c) !! session = Some (r_generation r) ->
  exists msg c', apply_command worker_id incarnation None draw seen command c
                 = (Err (Protocol6Error msg), c').
Proof.
  intros Ht Hv Hs Hi Hm Hr Hready Hended Hg Hh.
  assert (Hitem : forall k v, v <> JNull -> get command k = v -> item command k = Ok v).
  { intros k v Hne Hk. apply item_lookup. unfold get in Hk. destruct (lookup_key k command); cbn in Hk; congruence. }
  unfold apply_command. rewrite (Hitem "type" (JStr "open_session") ltac:(discriminate) Ht).
  change (is_in "open_session" ["open_session"; "dispatch_job"]) with true. cbn iota.
  unfold apply_kind. rewrite decide_True by done. unfold unless_unavailable.
  destruct (command_identity command) as [ident|]; [|discriminate].
  unfold unavailable_model_report. rewrite Hm. cbn [mbind result_bind].
  unfold open. rewrite (Hitem "session_id" (JStr session) ltac:(discriminate) Hv). cbn [mbind result_bind]. rewrite Hs, Hg.
  unfold highest_of. rewrite Hh. cbn [default from_option]. unfold id. rewrite Z.ltb_irrefl, Z.eqb_refl, Hr, Hready, Hended.
  cbn [negb andb]. unfold after_send. cbn [send_all].
  destruct (bare_ready_refused r worker_id incarnation) as [e He].
  rewrite He. cbn. by eexists _, _.
Qed.

Definition idle : connection :=
  {| c_sessions := no_sessions; c_jobs := []; c_by_id := fleet; c_refused_after_ack := [];
     c_sent := []; c_grant := (0, false) |}.
Definition nothing_observed (command : dict) : observed :=
  {| o_category := "other"; o_score := None; o_duration_ms := 0 |}.
Definition apply_sample := apply_command WORKER INCARNATION None (fun _ => 7) nothing_observed.

(** The connection once a session is open at generation 2 and ready. *)
Definition opened : connection :=
  let c := (apply_sample (open_command 2 1 "99999999-9999-4999-8999-000000000001") idle).2 in
  match step_live SESSION (Resident true true) (c_sessions c) with
  | Some (s, _) => with_sessions s c
  | None => c
  end.

Lemma repeated_open_raises_witness :
  validate_message (JDict (open_command 2 2 "99999999-9999-4999-8999-000000000002"))
    (Some WORKER) (Some INCARNATION) = Ok tt
  /\ exists msg c', apply_sample (open_command 2 2 "99999999-9999-4999-8999-000000000002") opened
                    = (Err (Protocol6Error msg), c').
Proof.
  split; [vm_compute; reflexivity|].
  destruct (s_runners (c_sessions opened) !! SESSION) as [r|] eqn:Hr; [|vm_compute in Hr; discriminate].
  assert (Hf : Some (r_ready_sent r, r_ended r, r_generation r) = Some (true, false, 2)).
  { change (Some (r_ready_sent r, r_ended r, r_generation r))
      with ((fun r => (r_ready_sent r, r_ended r, r_generation r)) <$> Some r).
    rewrite <- Hr. vm_compute. reflexivity. }
  injection Hf as Hready Hended Hgen.
  refine (repeated_open_raises WORKER INCARNATION (fun _ => 7) nothing_observed
           (open_command 2 2 "99999999-9999-4999-8999-000000000002") opened SESSION r
           _ _ _ _ _ Hr Hready Hended _ _);
    rewrite ?Hgen; vm_compute; reflexivity.
Defined.

(** An update of an older generation is ignored by the session, but its
    identity still replaces the session's: the close report that follows
    carries the attempt of the older generation. *)
Example stale_update_restamps_report :
  let c := (apply_sample (update_command 1 2 "99999999-9999-4999-8999-000000000002") opened).2 in
  (r_params <$> s_runners (c_sessions c) !! SESSION)
    = (r_params <$> s_runners (c_sessions opened) !! SESSION)
  /\ ((fun r => get (default [] (r_p6_identity r)) "attempt_id") <$> s_runners (c_sessions c) !! SESSION)
     = Some (JStr (ATTEMPT 1)).
Proof. vm_compute. split; reflexivity. Qed.

(** ** The ledger over the real handler *)

(** C34 What becomes of the commands a connection applies, over any deliveries
    of any commands, validated or not: those that run are numbered 1, 2, ...
    in this order; one whose application does not raise is accepted, and
    refused as unsupported only if it is of none of the five kinds; an
    acknowledgement with that outcome is among the texts sent, unless it is the
    one that raised; one whose application raises is the last that runs, and its
    exception is the one that ends the connection. *)
Theorem connection_applies_in_order worker_id incarnation installed draw seen cs c texts raised l' c' log i command o :
  serve (apply_command worker_id incarnation installed draw seen) worker_id incarnation cs
    new_ledger (c, []) = ((texts, raised), (l', (c', log))) ->
  log !! i = Some (command, o) ->
  seq_of command = Z.of_nat i + 1
  /\ match o with
     | Ok oc =>
         (oc = ("accepted", None)
          \/ oc = ("refused", Some "unsupported_control")
             /\ ~ (get command "type" ∈ map JStr ["open_session"; "update_session"; "close_session"; "dispatch_job"; "cancel_job"]))
         /\ (raised = None \/ (S i < length log)%nat ->
             exists text, text ∈ texts /\ outcome_ack command oc worker_id incarnation = Ok text)
     | Err e => raised = Some e /\ S i = length log
     end.
Proof.
  intros Hrun Hi. destruct (serve_inv _ _ _ _ 0 _ _ _ _ _ _ ledger_inv_new Hrun) as (ds & rest & [Hl Hm _ He Hx Hr]).
  cbn in Hl. subst log. split.
  { assert (Hq : (seq_of <$> (ds ++ rest).*1) !! i = Some (seq_of command)).
    { rewrite !list_lookup_fmap. exact (f_equal (fmap seq_of) (f_equal (fmap fst) Hi)). }
    change (seq_of <$> ?l) with (map seq_of l) in Hq. rewrite Hm in Hq. apply lookup_seqZ in Hq. lia. }
  assert (Hout : forall oc, o = Ok oc -> oc = ("accepted", None) \/ oc = ("refused", Some "unsupported_control")
            /\ ~ (get command "type" ∈ map JStr ["open_session"; "update_session"; "close_session"; "dispatch_job"; "cancel_job"])).
  { intros oc ->. destruct (apply_all_at _ _ _ _ _ _ _ He Hi) as (w1 & w2 & Ha).
    destruct (apply_command_outcome _ _ _ _ _ _ _ _ _ Ha) as [?|[? Hk]]; [by left|right].
    split; [done|]. intros (k & Hkk & Hin)%list_elem_of_fmap. by apply (Hk k). }
  rewrite length_app. destruct (ds !! i) as [r|] eqn:Ed.
  - rewrite (lookup_app_l_Some _ _ _ _ Ed) in Hi. injection Hi as ->.
    rewrite Forall_lookup in Hx. destruct (Hx _ _ Ed) as (oc & text & Ho & Ht & Hin). cbn in Ho, Ht. subst o.
    split; [by apply Hout|intros _; by exists text].
  - destruct Hr as [->|(r & e & -> & -> & Hre)]; [by rewrite app_nil_r, Ed in Hi|].
    apply lookup_ge_None in Ed. rewrite lookup_app_r in Hi by done. apply list_lookup_singleton_Some in Hi as [Hz ->]. cbn [length]. destruct o as [oc|e'].
    + split; [by apply Hout|]. intros [?|?]; [done|lia].
    + rewrite (Hre e' eq_refl). split; [done|lia].
Qed.

Definition session_commands : list dict :=
  [open_command 2 1 "99999999-9999-4999-8999-000000000001";
   open_command 2 1 "99999999-9999-4999-8999-000000000001";
   update_command 2 2 "99999999-9999-4999-8999-000000000002"].

Lemma connection_applies_in_order_witness :
  exists texts raised l' c' log command oc text,
    serve apply_sample WORKER INCARNATION session_commands new_ledger (idle, [])
      = ((texts, raised), (l', (c', log)))
    /\ log !! 1%nat = Some (command, Ok oc) /\ seq_of command = 2
    /\ text ∈ texts /\ outcome_ack command oc WORKER INCARNATION = Ok text.
Proof.
  destruct (serve apply_sample WORKER INCARNATION session_commands new_ledger (idle, []))
    as [[texts raised] [l' [c' log]]] eqn:Hrun.
  assert (Hsum : (fun x : (list string * option exn) * (ledger * (connection * list ran)) =>
      (match x.1.2 with Some _ => true | None => false end, is_ok <$> (x.2.2.2.*2 !! 1%nat)))
    (serve apply_sample WORKER INCARNATION session_commands new_ledger (idle, [])) = (false, Some true))
    by (vm_compute; reflexivity).
  rewrite Hrun in Hsum. cbn [fst snd] in Hsum. injection Hsum as Hup Hlog.
  rewrite list_lookup_fmap in Hlog. destruct (log !! 1%nat) as [[command [oc|e]]|] eqn:Hi; try discriminate Hlog.
  destruct (connection_applies_in_order WORKER INCARNATION None (fun _ => 7) nothing_observed
              session_commands idle texts raised l' c' log 1 command (Ok oc) Hrun Hi) as (Hseq & _ & Hack).
  destruct Hack as (text & Hin & Ht); [left; by destruct raised|].
  exists texts, raised, l', c', log, command, oc, text. split; [done|]. split; [done|]. split; [exact Hseq|]. by split.
Defined.
