(* ===== verification/LedgerSpec.v ===== *)
(** * Properties of the worker's ledger and of report stamping

    Over any deliveries on a connection the ledger runs each command once, in
    order, whatever applying one does, and repeats its first answer; its
    acknowledgements and the reports the worker stamps pass the validator of
    the backend. *)

From S2P Require Import Prelude PyFloat Hashes Json JsonFacts Protocol6 Protocol6Facts Samples Ledger LedgerFacts.
From S2P Require Import WorkerConnection WorkerConnectionSpec.
Open Scope Z_scope.

(** ** Properties *)


(** C29 A redelivery is answered with the bytes of the first answer and has no
    effect: once a command has run and was answered, and after any further
    deliveries during which the connection stayed up and fewer than 256
    commands ran, delivering the command again gives the same text and changes
    neither the ledger nor the worker, whatever applying a command does. *)
Theorem redelivery_is_idempotent {W} (apply : dict -> W -> outcome * W)
    worker_id incarnation (before after : list dict) c (w : W) t1 l1 s1 text l2 s2 t3 l3 s3 :
  serve apply worker_id incarnation before new_ledger (w, []) = ((t1, None), (l1, s1)) ->
  handle (logged apply) worker_id incarnation c l1 s1 = (Ok text, (l2, s2)) -> s2 <> s1 ->
  serve apply worker_id incarnation after l2 s2 = ((t3, None), (l3, s3)) ->
  (length s3.2 < length s2.2 + MAX_RETAINED)%nat ->
  handle (logged apply) worker_id incarnation c l3 s3 = (Ok text, (l3, s3)).
Proof.
  intros Hrun1 Hstep Hran Hrun3 Hfew.
  destruct (serve_inv _ _ _ _ 0 _ _ _ _ _ _ ledger_inv_new Hrun1) as (ds & rest & [_ _ Hinv _ _ _]).
  set (last := 0 + Z.of_nat (length ds)) in Hinv.
  destruct (handle_step _ _ _ _ _ _ _ _ _ _ Hinv Hstep)
    as [[_ ?]|(Hseq & Hlt & o & _ & _ & [(oc & r & _ & Hans & _ & Hid & Hbh & Hret & Hinv2)|(e & [=] & _)])]; [done|].
  injection Hans as ->. destruct l2 as [next rs]. cbn [results] in Hret. subst rs.
  pose proof (saved_retain_new last l1 r next Hinv Hlt) as Hsaved.
  assert (Hs : item c "command_sequence" = Ok (JInt (last + 1))).
  { unfold seq_of, get in Hseq. unfold item. pose proof (inv_range _ _ Hinv).
    destruct (lookup_key "command_sequence" c) as [v|]; cbn [from_option] in Hseq.
    - destruct v; unfold id in Hseq; try lia; try (exfalso; lia). by rewrite Hseq.
    - unfold id in Hseq; lia. }
  eapply replayed; [exact Hs|exact Hid|exact Hbh|].
  eapply (saved_kept _ _ _ after (last + 1)); [exact Hinv2|exact Hrun3|done|lia|lia].
Qed.

(** ** Witnesses on the commands of one session *)



(** A delivery and those after it, by a summary of what they come to. *)
Lemma served_after {W} (apply : dict -> W -> outcome * W) worker_id incarnation c cs l0 s0 n1 n2 :
  (is_ok (handle (logged apply) worker_id incarnation c l0 s0).1,
   length (handle (logged apply) worker_id incarnation c l0 s0).2.2.2) = (true, n1) ->
  (fun x : (list string * option exn) * (ledger * (W * list ran)) => (x.1.2, length x.2.2.2))
    (serve apply worker_id incarnation (c :: cs) l0 s0) = (None, n2) ->
  exists text l2 s2 texts l3 s3,
    handle (logged apply) worker_id incarnation c l0 s0 = (Ok text, (l2, s2))
    /\ serve apply worker_id incarnation cs l2 s2 = ((texts, None), (l3, s3))
    /\ length s2.2 = n1 /\ length s3.2 = n2.
Proof.
  cbn [serve]. destruct (handle _ _ _ c _ _) as [[text|e] [l2 s2]]; [|done]. intros [= H1].
  destruct (serve _ _ _ cs _ _) as [[texts raised] [l3 s3]] eqn:H2. intros [= -> H3].
  by exists text, l2, s2, texts, l3, s3.
Qed.

Definition open_1 : dict := open_command 2 1 "99999999-9999-4999-8999-000000000001".
Definition update_2 : dict := update_command 2 2 "99999999-9999-4999-8999-000000000002".

Lemma redelivery_is_idempotent_witness :
  exists text l3 s3,
    handle (logged apply_sample) WORKER INCARNATION open_1 l3 s3 = (Ok text, (l3, s3)) /\ length s3.2 = 2%nat.
Proof.
  destruct (served_after apply_sample WORKER INCARNATION open_1 [update_2; open_1; update_2] new_ledger (idle, []) 1 2)
    as (text & l2 & s2 & texts & l3 & s3 & H1 & H2 & Hfirst & Hlen);
    [vm_compute; reflexivity..|].
  exists text, l3, s3. refine (conj _ Hlen).
  refine (redelivery_is_idempotent apply_sample WORKER INCARNATION [] [update_2; open_1; update_2] open_1 idle
      [] new_ledger (idle, []) text l2 s2 texts l3 s3 eq_refl H1 _ H2 _).
  - intros Heq. rewrite Heq in Hfirst. discriminate Hfirst.
  - rewrite Hlen, Hfirst. unfold MAX_RETAINED. lia.
Defined.

(** The acknowledgement of a command the worker validated is itself valid
    to the receiver's validator, whatever the outcome. *)
Theorem acknowledgement_valid command kind worker_id incarnation o :
  validate_message (JDict command) (Some worker_id) (Some incarnation) = Ok tt ->
  get command "type" = JStr kind -> kind ∈ LEDGER_COMMANDS -> outcome_ok o ->
  exists ack, ack_message command o = Ok ack
    /\ validate_message (JDict ack) (Some worker_id) (Some incarnation) = Ok tt
    /\ check_command_ack ack = Ok tt.
Proof.
  intros Hval Ht Hk Ho.
  destruct (validate_message_inv _ _ _ Hval) as (? & kind' & [= <-] & Hv).
  pose proof (val_type _ _ _ _ Hv) as Ht'. rewrite Ht in Ht'. injection Ht' as <-.
  destruct (ack_message_valid command kind _ _ o Hv Hk Ho) as (ack & Ha & Hack).
  exists ack. split; [done|]. split; [done|].
  destruct (validate_message_inv _ _ _ Hack) as (? & k & [= <-] & Hva).
  apply (val_ack _ _ _ _ Hva).
  destruct (ack_message_shape command kind _ _ o Hv Hk Ho) as (fs & Ha' & _).
  rewrite Ha in Ha'. injection Ha' as ->.
  pose proof (val_type _ _ _ _ Hva) as Hty. by injection Hty as <-.
Qed.

Lemma acknowledgement_valid_witness :
  exists ack, ack_message close_1 ("refused", Some "unsupported_control") = Ok ack
    /\ validate_message (JDict ack) (Some WORKER) (Some INCARNATION) = Ok tt
    /\ check_command_ack ack = Ok tt.
Proof.
  apply (acknowledgement_valid close_1 "close_session");
    [vm_compute; reflexivity|vm_compute; reflexivity|by apply is_in_spec|].
  right. exists "unsupported_control". by split.
Defined.

(** ** The reports a worker stamps *)

(** ** Stamped reports *)

Lemma stamped_digest (d : dict) hash :
  report_hash d = Ok hash -> digest (set_key "report_hash" (JStr hash) d) "report_hash" = Ok tt.
Proof.
  unfold report_hash, digest. rewrite without_set_key. intros H. ok_inv.
  unfold canonical_bytes in *. destruct (_ : result exn string) as [source|]; [|discriminate].
  cbn [mbind result_bind] in *. unfold get. rewrite lookup_set_key. cbn [default].
  injection Hv as ->. by rewrite bool_decide_true.
Qed.

(** The range and the completion mark survive the stamping that follows. *)
Lemma stamped_end (d mid : dict) range hash :
  "range_id" ∉ keys mid -> "physical_complete" ∉ keys mid ->
  let report := set_key "report_hash" (JStr hash)
    (update_with (("range_id", range) :: mid ++ [("physical_complete", JBool true)]) d) in
  item report "range_id" = Ok range /\ get report "physical_complete" = JBool true.
Proof.
  intros Hr Hp report. unfold report, item, get.
  rewrite !lookup_set_key_ne by discriminate.
  unfold update_with. cbn [fold_left fst snd]. rewrite fold_left_app. cbn [fold_left fst snd].
  rewrite lookup_set_key, lookup_set_key_ne by discriminate.
  change (fold_left ?f mid ?d) with (update_with mid d).
  rewrite lookup_update_with_ne by done. by rewrite lookup_set_key.
Qed.

(** Every report of a range that ends (a closed session, a finished,
    failed or cancelled job) leaves the worker with the hash of its canonical
    bytes, the range of the command it answers and the mark that the range is
    physically complete, whatever the message itself carried under those
    names. *)
Theorem stamped_report_complete message identity report identity' :
  enrich message identity = Ok (report, identity') ->
  text_of (get message "type") ∈ "session_closed" :: JOB_REPORTS ->
  digest report "report_hash" = Ok tt
  /\ item report "range_id" = item identity "range_id"
  /\ get report "physical_complete" = JBool true.
Proof.
  intros H Hk. unfold enrich in H. cbv zeta in H. set (kind := text_of _) in *.
  apply bind_ok in H as (b & _ & H).
  apply bind_ok in H as (r1 & _ & H).
  assert (Hcase : kind = "session_closed" /\ kind ∉ JOB_REPORTS \/ kind <> "session_closed" /\ kind ∈ JOB_REPORTS).
  { apply elem_of_cons in Hk as [->|Hk]; [left|right].
    - split; [done|]. intros Hin. apply is_in_spec in Hin. discriminate.
    - split; [|done]. intros Heq. rewrite Heq in Hk. apply is_in_spec in Hk. discriminate. }
  clearbody kind.
  rewrite (proj2 (is_in_spec kind ("session_closed" :: JOB_REPORTS))) in H by done.
  destruct Hcase as [[Hkind Hno]|[Hkind Hin]].
  - subst kind. apply bind_ok in H as ([r2 id2] & H2 & H).
    rewrite decide_True in H2 by done.
    apply bind_ok in H2 as (range & Hrange & H2). destruct (sequence_of _ identity) as [n id3].
    injection H2 as <- <-.
    apply bind_ok in H as (r3 & H3 & H).
    change (is_in "session_closed" _) with false in H3. injection H3 as <-.
    apply bind_ok in H as ([r4 id4] & H4 & H).
    change (is_in "session_closed" JOB_REPORTS) with false in H4. injection H4 as <- <-.
    apply bind_ok in H as (hash & Hh & H). injection H as <- <-.
    split; [by apply stamped_digest|]. rewrite Hrange. change ((if decide _ then ?a else ?b)) with b.
    apply (stamped_end _ [("report_sequence", n)]); [intros ?%is_in_spec|intros ?%is_in_spec]; done.
  - apply bind_ok in H as ([r2 id2] & H2 & H). 
    rewrite decide_False in H2 by done. injection H2 as <- <-.
    apply bind_ok in H as (r3 & _ & H).
    apply bind_ok in H as ([r4 id4] & H4 & H).
    rewrite (proj2 (is_in_spec kind JOB_REPORTS)) in H4 by done.
    apply bind_ok in H4 as (range & Hrange & H4). destruct (sequence_of _ identity) as [n id3].
    injection H4 as <- <-.
    apply bind_ok in H as (hash & Hh & H). injection H as <- <-.
    split; [by apply stamped_digest|]. rewrite Hrange. apply (stamped_end _ [("report_sequence", n); ("gpu_ms", _); ("duration_ms", _); ("images", _)]);
      [intros ?%is_in_spec|intros ?%is_in_spec]; done.
Qed.

Definition closed_message : dict :=
  [("type", JStr "session_closed"); ("frames", JInt 3); ("category", JStr "art");
   ("duration_ms", JInt 1500); ("gpu_ms", JInt 900)].

Example closed_message_valid :
  is_ok ('(report, _) ← enrich closed_message session_identity;
         validate_message (JDict report) (Some WORKER) (Some INCARNATION)) = true.
Proof. vm_compute. reflexivity. Qed.

Lemma stamped_report_complete_witness :
  exists report identity', enrich closed_message session_identity = Ok (report, identity')
    /\ digest report "report_hash" = Ok tt
    /\ item report "range_id" = item session_identity "range_id"
    /\ get report "physical_complete" = JBool true.
Proof.
  destruct (enrich closed_message session_identity) as [[report identity']|e] eqn:H;
    [|vm_compute in H; discriminate].
  exists report, identity'. split; [done|].
  exact (stamped_report_complete closed_message session_identity report identity' H
    (proj1 (is_in_spec "session_closed" ("session_closed" :: JOB_REPORTS)) eq_refl)).
Defined.
