(* ===== verification/ODict.v ===== *)
(** * Insertion-ordered dictionaries

    A Python dict whose order of insertion the code relies on: setting a key
    that is there keeps its place, a new key goes last. *)

From S2P Require Import Prelude.

Section ODict.
Context {K V : Type} `{EqDecision K}.
Implicit Types (d : list (K * V)) (k : K) (v : V).

Fixpoint od_get k d : option V :=
match d with
| [] => None
| (k', v) :: d => if decide (k' = k) then Some v else od_get k d
end.
Fixpoint od_set k v d : list (K * V) :=
match d with
| [] => [(k, v)]
| (k', v') :: d => if decide (k' = k) then (k', v) :: d else (k', v') :: od_set k v d
end.
Definition od_del k d : list (K * V) := filter (fun kv => kv.1 <> k) d.

Lemma od_get_set k v d : od_get k (od_set k v d) = Some v.
Proof.
induction d as [|[k' v'] d IH]; cbn; [by rewrite decide_True|].
destruct (decide (k' = k)) eqn:E; cbn; by rewrite E.
Qed.

Lemma od_get_set_ne k k' v d : k <> k' -> od_get k (od_set k' v d) = od_get k d.
Proof.
intros Hne. induction d as [|[k2 v2] d IH]; cbn; [by rewrite decide_False|].
destruct (decide (k2 = k')) as [->|]; cbn; [by rewrite !decide_False by congruence|].
by destruct (decide (k2 = k)).
Qed.

Lemma od_get_del k d : od_get k (od_del k d) = None.
Proof.
unfold od_del. induction d as [|[k' v'] d IH]; [done|].
destruct (decide (k' = k)) as [->|Hne].
- rewrite filter_cons_False by (cbn; tauto). done.
- rewrite filter_cons_True by done. cbn. by rewrite decide_False.
Qed.

Lemma od_get_del_ne k k' d : k <> k' -> od_get k (od_del k' d) = od_get k d.
Proof.
intros Hne. unfold od_del. induction d as [|[k2 v2] d IH]; [done|].
destruct (decide (k2 = k')) as [->|].
- rewrite filter_cons_False by (cbn; tauto). cbn. by rewrite decide_False by congruence.
- rewrite filter_cons_True by done. cbn. by destruct (decide (k2 = k)).
Qed.

Lemma od_set_keys k v d :
(od_set k v d).*1 = if decide (k ∈ d.*1) then d.*1 else d.*1 ++ [k].
Proof.
induction d as [|[k' v'] d IH]; cbn; [done|].
destruct (decide (k' = k)) as [->|Hne]; cbn.
- by rewrite decide_True by left.
- rewrite IH. destruct (decide (k ∈ d.*1)) as [Hin|Hin].
  + by rewrite decide_True by (by right).
  + rewrite decide_False; [done|]. intros [->|]%elem_of_cons; done.
Qed.

Lemma od_del_keys k d : (od_del k d).*1 = filter (fun k' => k' <> k) d.*1.
Proof.
unfold od_del. induction d as [|[k' v'] d IH]; [done|]. rewrite fmap_cons.
destruct (decide (k' = k)) as [->|Hne].
- rewrite !filter_cons_False by (cbn; tauto). done.
- rewrite !filter_cons_True by done. cbn. by rewrite IH.
Qed.

Lemma od_get_elem k v d : od_get k d = Some v -> (k, v) ∈ d.
Proof.
induction d as [|[k' v'] d IH]; [done|]. cbn. destruct (decide (k' = k)) as [->|].
- intros [= ->]. left.
- intros H. right. auto.
Qed.

Lemma od_get_keys k d : k ∈ d.*1 <-> is_Some (od_get k d).
Proof.
induction d as [|[k' v'] d IH]; cbn; [split; [by intros ?%elem_of_nil|by intros [? [=]]]|].
rewrite elem_of_cons. destruct (decide (k' = k)) as [->|]; [split; [eauto|by left]|].
rewrite <- IH. split; [by intros [->|]|by right].
Qed.

Lemma od_elem_get k v d : NoDup d.*1 -> (k, v) ∈ d -> od_get k d = Some v.
Proof.
induction d as [|[k' v'] d IH]; [by intros _ ?%elem_of_nil|]. rewrite fmap_cons.
intros [Hn Hnd]%NoDup_cons [[= -> ->]|Hin]%elem_of_cons; cbn; [by rewrite decide_True|].
rewrite decide_False; [by apply IH|]. intros ->. apply Hn.
by apply (list_elem_of_fmap_2 fst) in Hin.
Qed.

Lemma od_set_nodup k v d : NoDup d.*1 -> NoDup (od_set k v d).*1.
Proof.
intros H. rewrite od_set_keys. destruct (decide _); [done|].
apply NoDup_app. split; [done|]. split; [|apply NoDup_singleton].
by intros x Hx ->%list_elem_of_singleton.
Qed.

Lemma od_del_nodup k d : NoDup d.*1 -> NoDup (od_del k d).*1.
Proof. intros H. rewrite od_del_keys. by apply NoDup_filter. Qed.
End ODict.
