(* ===== verification/PyInt.v ===== *)
(** * [int] of a decoded value *)

From S2P Require Import Prelude PyFloat Hashes Json Uuid.
From Stdlib Require Import SpecFloat.
Open Scope Z_scope.

(** The decimal digits of [int(s)], single underscores between them. *)
Fixpoint dec_digits (s : string) (digit : bool) (acc : Z) : option Z :=
  match s with
  | String.EmptyString => if digit then Some acc else None
  | String.String c s =>
      if byte_val c =? 95 then if digit then dec_digits s false acc else None
      else if is_digit c then dec_digits s true (10 * acc + (byte_val c - 48)) else None
  end.
Fixpoint count_digits (s : string) : nat :=
  match s with
  | String.EmptyString => 0
  | String.String c s => (if is_digit c then 1 else 0) + count_digits s
  end.

Definition int_of_text (s : string) : result exn Z :=
  let s := strip is_space s in
  let (sign, digits) := match strip_prefix "-" s, strip_prefix "+" s with
                        | Some rest, _ => (-1, rest)
                        | None, Some rest => (1, rest)
                        | None, None => (1, s)
                        end in
  match dec_digits digits false 0 with
  | Some n => if Nat.ltb max_str_digits (count_digits digits)
              then Err (ValueError "Exceeds the limit for integer string conversion")
              else Ok (sign * n)
  | None => Err (ValueError "invalid literal for int() with base 10")
  end.

Definition py_int (v : json) : result exn Z :=
  match v with
  | JInt z => Ok z
  | JBool b => Ok (Z.b2z b)
  | JFloat f =>
      match int_of_float f with
      | Some z => Ok z
      | None => match f with
                | S754_nan => Err (ValueError "cannot convert float NaN to integer")
                | _ => Err OverflowError
                end
      end
  | JStr s => int_of_text s
  | _ => Err (TypeError "int() argument must be a string, a bytes-like object or a real number")
  end.

Example int_of_spaced : py_int (JStr " -1_000 ") = Ok (-1000).
Proof. vm_compute. reflexivity. Qed.

Lemma int_of_text_errors s : raises_only is_value_error (int_of_text s).
Proof.
  unfold int_of_text. repeat case_match; auto with raises.
Qed.
#[export] Hint Resolve int_of_text_errors : raises.
