(* ===== verification/Encodings.v ===== *)
(** * Base32, base64 and text trimming of the standard library

    [base64.b32encode], [base64.b32decode], the strict [base64.b64decode] (as
    the C decoder of Python 3.11 runs it) and [str.strip]. *)

From S2P Require Import Prelude PyFloat Hashes Json Uuid.
Open Scope Z_scope.

(** ** Digits in a power-of-two base *)

(** The [k] digits of [n] in base [2 ^ w], most significant first. *)
Fixpoint digits (w : Z) (k : nat) (n : Z) : list Z :=
  match k with
  | O => []
  | S k => (n / 2 ^ (w * Z.of_nat k)) mod 2 ^ w :: digits w k n
  end.
Definition undigits (w : Z) (l : list Z) : Z := fold_left (fun a d => a * 2 ^ w + d) l 0.

Lemma undigits_from w l a : 0 <= w ->
  fold_left (fun a d => a * 2 ^ w + d) l a = a * 2 ^ (w * Z.of_nat (length l)) + undigits w l.
Proof.
  intros Hw. revert a. induction l as [|d l IH]; intros a; unfold undigits; cbn [fold_left length].
  - rewrite Z.mul_0_r. lia.
  - rewrite IH, (IH (0 * 2 ^ w + d)).
    replace (w * Z.of_nat (S (length l))) with (w + w * Z.of_nat (length l)) by lia.
    rewrite Z.pow_add_r by lia. nia.
Qed.

Lemma length_digits w k n : length (digits w k n) = k.
Proof. induction k as [|k IH]; [done|]. cbn. by rewrite IH. Qed.

Lemma undigits_digits w k n : 0 <= w -> undigits w (digits w k n) = n mod 2 ^ (w * Z.of_nat k).
Proof.
  intros Hw. induction k as [|k IH].
  - rewrite Z.mul_0_r, Z.mod_1_r. done.
  - cbn [digits]. unfold undigits. cbn [fold_left]. rewrite undigits_from, length_digits, IH by done.
    replace (w * Z.of_nat (S k)) with (w * Z.of_nat k + w) by lia.
    rewrite Z.pow_add_r, Z.rem_mul_r by (try apply Z.pow_nonzero; lia || apply Z.pow_pos_nonneg; lia).
    lia.
Qed.

Lemma digits_range w k n : 0 <= w -> Forall (fun d => 0 <= d < 2 ^ w) (digits w k n).
Proof.
  intros Hw. induction k as [|k IH]; constructor; [|done].
  apply Z.mod_pos_bound, Z.pow_pos_nonneg; lia.
Qed.

(** ** Base 32 *)

Definition b32_char (d : Z) : ascii := val_byte (if d <? 26 then 65 + d else 24 + d).
Definition b32_val (c : ascii) : option Z :=
  let z := byte_val c in
  if (65 <=? z) && (z <=? 90) then Some (z - 65)
  else if (50 <=? z) && (z <=? 55) then Some (z - 24)
  else None.

Fixpoint string_of_chars (l : list ascii) : string :=
  match l with [] => "" | c :: l => String.String c (string_of_chars l) end.
Fixpoint chars_of_string (s : string) : list ascii :=
  match s with String.EmptyString => [] | String.String c s => c :: chars_of_string s end.

(** [base64.b32encode] of bytes in groups of five. *)
Fixpoint b32encode (bytes : list Z) : string :=
  match bytes with
  | a :: b :: c :: d :: e :: bytes =>
      string_of_chars (map b32_char (digits 5 8 (undigits 8 [a; b; c; d; e]))) +:+ b32encode bytes
  | _ => ""
  end.

Definition ValueErrorB {A} (msg : string) : result exn A := Err (ValueError msg).

(** The value of one group of at most eight digits. *)
Definition b32_quantum (cs : list ascii) : result exn Z :=
  fold_left (fun acc c => a ← acc;
               match b32_val c with
               | Some d => Ok (Z.shiftl a 5 + d)
               | None => ValueErrorB "Non-base32 digit found"
               end) cs (Ok 0).

(** The groups of the text without its padding; the last may be partial.
    Returns the bytes, five per group, and the value of the last group. *)
Fixpoint b32_groups (fuel : nat) (cs : list ascii) (acc : Z) : result exn (list Z * Z) :=
  match fuel, cs with
  | O, _ | _, [] => Ok ([], acc)
  | S fuel, _ =>
      a ← b32_quantum (take 8 cs);
      rest ← b32_groups fuel (drop 8 cs) a;
      Ok (digits 8 5 a ++ rest.1, rest.2)
  end.

(** [s.rstrip(b"=")]: the text, and the padding characters removed. *)
Fixpoint split_padding (cs : list ascii) : list ascii * Z :=
  match cs with
  | [] => ([], 0)
  | c :: cs =>
      let (s, n) := split_padding cs in
      match s with
      | [] => if byte_val c =? 61 then ([], n + 1) else ([c], n)
      | _ => (c :: s, n)
      end
  end.

Definition is_ascii (s : string) : bool := forallb (fun c => byte_val c <? 128) (chars_of_string s).

Definition b32decode (text : string) : result exn (list Z) :=
  _ ← refuse_if (negb (is_ascii text)) (ValueError "string argument should contain only ASCII characters");
  let cs := chars_of_string text in
  let l := Z.of_nat (length cs) in
  _ ← refuse_if (negb (l mod 8 =? 0)) (ValueError "Incorrect padding");
  let (s, padchars) := split_padding cs in
  decoded ← b32_groups (length s) s 0;
  _ ← refuse_if (negb (bool_decide (padchars ∈ [0; 1; 3; 4; 6]))) (ValueError "Incorrect padding");
  if (padchars =? 0) || bool_decide (decoded.1 = []) then Ok decoded.1
  else
    let last := digits 8 5 (Z.shiftl decoded.2 (5 * padchars)) in
    let leftover := Z.to_nat ((43 - 5 * padchars) / 8) in
    Ok (take (length decoded.1 - 5) decoded.1 ++ take leftover last).

(** ** Base 64, strict *)

Definition b64_val (c : ascii) : option Z :=
  let z := byte_val c in
  if (65 <=? z) && (z <=? 90) then Some (z - 65)
  else if (97 <=? z) && (z <=? 122) then Some (z - 71)
  else if (48 <=? z) && (z <=? 57) then Some (z + 4)
  else if z =? 43 then Some 62
  else if z =? 47 then Some 63
  else None.

(** The scan: the place in the group of four, the padding characters counted
    there, whether padding started, the bits left over, and the bytes so far,
    newest first. *)
Fixpoint b64_scan (cs : list ascii) (quad_pos pads : Z) (started : bool) (left : Z) (out : list Z)
  : result exn (list Z) :=
  match cs with
  | [] =>
      if quad_pos =? 0 then Ok (reverse out)
      else ValueErrorB (if quad_pos =? 1 then "Invalid base64-encoded string" else "Incorrect padding")
  | c :: cs =>
      if byte_val c =? 61 then
        if 2 <=? quad_pos then
          if 4 <=? quad_pos + (pads + 1) then
            match cs with [] => Ok (reverse out) | _ => ValueErrorB "Excess data after padding" end
          else b64_scan cs quad_pos (pads + 1) true left out
        else b64_scan cs quad_pos pads true left out
      else match b64_val c with
           | None => ValueErrorB "Only base64 data is allowed"
           | Some d =>
               if started then ValueErrorB "Discontinuous padding not allowed"
               else if quad_pos =? 0 then b64_scan cs 1 0 started d out
               else if quad_pos =? 1 then
                 b64_scan cs 2 0 started (Z.land d 15) (Z.lor (Z.shiftl left 2) (Z.shiftr d 4) :: out)
               else if quad_pos =? 2 then
                 b64_scan cs 3 0 started (Z.land d 3) (Z.lor (Z.shiftl left 4) (Z.shiftr d 2) :: out)
               else b64_scan cs 0 0 started 0 (Z.lor (Z.shiftl left 6) d :: out)
           end
  end.

(** [base64.b64decode(text, validate=True)] *)
Definition b64decode (text : string) : result exn (list Z) :=
  _ ← refuse_if (negb (is_ascii text)) (ValueError "string argument should contain only ASCII characters");
  let cs := chars_of_string text in
  match cs with
  | c :: _ =>
      if byte_val c =? 61 then ValueErrorB "Leading padding not allowed"
      else b64_scan cs 0 0 false 0 []
  | [] => Ok []
  end.

(** ** [str.strip] *)

(** The white space of Unicode outside ASCII, in UTF-8. *)
Definition UNICODE_SPACES : list string :=
  map (fun cp => string_of_bytes (utf8 cp))
    ([0x85; 0xA0; 0x1680] ++ seqZ 0x2000 11 ++ [0x2028; 0x2029; 0x202F; 0x205F; 0x3000]).

Definition after_space (spaces : list string) (s : string) : option string :=
  match s with
  | String.EmptyString => None
  | String.String c rest =>
      if is_space c then Some rest
      else foldr (fun p acc => match strip_prefix p s with Some r => Some r | None => acc end)
             None spaces
  end.
Fixpoint lstrip_with (n : nat) (spaces : list string) (s : string) : string :=
  match n with
  | O => s
  | S n => match after_space spaces s with Some rest => lstrip_with n spaces rest | None => s end
  end.
Definition strip_text (s : string) : string :=
  let s := lstrip_with (String.length s) UNICODE_SPACES s in
  let r := reverse_string s "" in
  reverse_string
    (lstrip_with (String.length r) (map (fun p => reverse_string p "") UNICODE_SPACES) r) "".

Example b32_of_hello : b32decode "NBSWY3DP" = Ok (bytes_of_string "hello").
Proof. vm_compute. reflexivity. Qed.
Example b32_partial : b32decode "NBSWY===" = Ok (bytes_of_string "hel").
Proof. vm_compute. reflexivity. Qed.
Example b64_strict_cases :
  map (fun t => is_ok (b64decode t))
    ["QQ=="; "QQ="; "QQ"; "="; "QUE="; "QUE=="; "QQ==="; "Q==="; "QR=="; "QUFB="; "QUFB=="; ""]
  = [true; false; false; false; true; false; false; false; true; true; true; true].
Proof. vm_compute. reflexivity. Qed.
Example strip_unicode : strip_text (String.String (val_byte 0xC2) (String.String (val_byte 0xA0) " 12 ")) = "12".
Proof. vm_compute. reflexivity. Qed.

(** Every error of the strict decoder is a [ValueError]. *)
Lemma b64decode_errors text : raises_only is_value_error (b64decode text).
Proof.
  assert (H : forall cs q p s l out, raises_only is_value_error (b64_scan cs q p s l out)).
  { induction cs as [|c cs IH]; intros q p s l out; cbn [b64_scan]; unfold ValueErrorB in *;
      repeat case_match; auto with raises. }
  unfold b64decode, ValueErrorB. apply raises_only_bind; [auto with raises|intros _].
  repeat case_match; auto with raises.
Qed.
#[export] Hint Resolve b64decode_errors : raises.
