(* ===== verification/Totp.v ===== *)
(** * One time passwords and enrolment material

    Models src/backend/app/totp.py.  A secret is the base32 text the enrolment
    stores; the moment is in seconds. *)

From S2P Require Import Prelude PyFloat Hashes Json Encodings.
Open Scope Z_scope.

Definition STEP : Z := 30.
Definition RECOVERY_CODES : nat := 10.

(** [secrets.token_bytes(20)] is the argument. *)
Definition new_secret (bytes : list Z) : string := b32encode bytes.

(** [str(n).zfill(width)] of a number that is not negative. *)
Fixpoint zeros (n : nat) : string := match n with O => "" | S n => String.String "0" (zeros n) end.
Definition zfill (width : nat) (s : string) : string := zeros (width - String.length s) +:+ s.

(** [struct.pack(">Q", n)] *)
Definition pack_u64 (n : Z) : result exn (list Z) :=
  if (0 <=? n) && (n <? 2 ^ 64) then Ok (be_bytes 8 n) else Err (StructError "argument out of range").

Definition code_at (secret : string) (moment : Z) (digits : nat) : result exn string :=
  counter ← pack_u64 (moment / STEP);
  key ← b32decode secret;
  let digest := hmac_sha1 key counter in
  let offset := Z.land (List.last digest 0) 0x0F in
  let truncated := Z.land (be_val (take 4 (drop (Z.to_nat offset) digest))) 0x7FFFFFFF in
  Ok (zfill digits (dec_string (truncated mod 10 ^ Z.of_nat digits))).

(** [code.strip().encode("utf-8", "replace")]: a lone surrogate becomes a
    question mark. *)
Fixpoint replace_surrogates (n : nat) (s : string) : string :=
  match n, s with
  | S n, String.String a (String.String b (String.String c rest)) =>
      if (byte_val a =? 0xED) && (0xA0 <=? byte_val b)
      then String.String "?" (replace_surrogates n rest)
      else String.String a (replace_surrogates n (String.String b (String.String c rest)))
  | _, _ => s
  end.
Definition candidate (code : string) : string :=
  let s := strip_text code in replace_surrogates (String.length s) s.

(** The loop over the offsets; [except ValueError: return None]. *)
Fixpoint match_steps (secret candidate : string) (moment : Z) (offsets : list Z)
  : result exn (option Z) :=
  match offsets with
  | [] => Ok None
  | offset :: offsets =>
      let step_at := moment + offset * STEP in
      match code_at secret step_at 6 with
      | Err e => if is_value_error e then Ok None else Err e
      | Ok expected =>
          if decide (candidate = expected) then Ok (Some (step_at / STEP))
          else match_steps secret candidate moment offsets
      end
  end.
Definition matched_step (secret code : string) (at_moment : Z) : result exn (option Z) :=
  match_steps secret (candidate code) at_moment [-1; 0; 1].

Definition verify (secret code : string) (at_moment : Z) : result exn bool :=
  step ← matched_step secret code at_moment; Ok (bool_decide (is_Some step)).

(** [new_recovery_codes] over the codes drawn, in order: the first ten
    distinct ones, sorted; [None] while fewer have been drawn. *)
Fixpoint collect_codes (draws codes : list string) : option (list string) :=
  if Nat.ltb (length codes) RECOVERY_CODES then
    match draws with
    | [] => None
    | code :: draws => collect_codes draws (if decide (code ∈ codes) then codes else code :: codes)
    end
  else Some codes.
Definition sort_texts (l : list string) : list string := (sort_items (map (fun s => (s, tt)) l)).*1.
Definition new_recovery_codes (draws : list string) : option (list string) :=
  sort_texts <$> collect_codes draws [].

(** The test vectors of RFC 6238 (appendix B), for SHA-1. *)
Definition rfc_secret : string := b32encode (bytes_of_string "12345678901234567890").
Example rfc6238_vectors :
  map (fun t => code_at rfc_secret t 8)
    [59; 1111111109; 1111111111; 1234567890; 2000000000; 20000000000]
  = map Ok ["94287082"; "07081804"; "14050471"; "89005924"; "69279037"; "65353130"].
Proof. vm_compute. reflexivity. Qed.

(** ** Which codes are accepted *)

Lemma code_at_step secret t t' n : t / STEP = t' / STEP -> code_at secret t n = code_at secret t' n.
Proof. unfold code_at. by intros ->. Qed.

(** Every error of [b32decode] is a [ValueError]. *)
Lemma b32_quantum_errors cs : raises_only is_value_error (b32_quantum cs).
Proof.
  unfold b32_quantum.
  assert (H : forall acc, raises_only is_value_error acc -> raises_only is_value_error
    (fold_left (fun acc c => a ← acc; match b32_val c with
       | Some d => Ok (Z.shiftl a 5 + d) | None => ValueErrorB "Non-base32 digit found" end) cs acc)).
  { induction cs as [|c cs IH]; intros acc Hacc; [exact Hacc|]. cbn [fold_left]. apply IH.
    apply raises_only_bind; [done|]. intros a. destruct (b32_val c); [done|].
    unfold ValueErrorB. by intros e [= <-]. }
  apply H. done.
Qed.

Lemma b32_groups_errors fuel cs acc : raises_only is_value_error (b32_groups fuel cs acc).
Proof.
  revert cs acc. induction fuel as [|fuel IH]; intros cs acc; [by destruct cs|].
  destruct cs as [|c cs]; [done|]. cbn [b32_groups].
  apply raises_only_bind; [apply b32_quantum_errors|]. auto with raises.
Qed.

Lemma b32decode_errors text : raises_only is_value_error (b32decode text).
Proof.
  unfold b32decode. apply raises_only_bind; [auto with raises|intros _].
  apply raises_only_bind; [auto with raises|intros _]. destruct (split_padding _) as [s padchars].
  apply raises_only_bind; [apply b32_groups_errors|intros decoded].
  apply raises_only_bind; [auto with raises|intros _]. by destruct (_ || _).
Qed.

(** A moment whose neighbours have counters the format can hold. *)
Definition plausible (t : Z) : Prop := STEP <= t /\ (t + STEP) / STEP < 2 ^ 64.

Lemma code_at_cases secret t off n :
  plausible t -> -1 <= off <= 1 ->
  (exists code, code_at secret (t + off * STEP) n = Ok code)
  \/ (exists e, b32decode secret = Err e /\ code_at secret (t + off * STEP) n = Err e
                /\ is_value_error e = true).
Proof.
  unfold plausible, STEP. intros [Ht Hm] Hoff. unfold code_at, pack_u64, STEP.
  assert (Hr : 0 <= (t + off * 30) / 30 < 2 ^ 64).
  { split; [apply Z.div_pos; lia|]. eapply Z.le_lt_trans; [|exact Hm]. apply Z.div_le_mono; lia. }
  rewrite (proj2 (Z.leb_le _ _)), (proj2 (Z.ltb_lt _ _)) by lia. cbn [andb mbind result_bind].
  destruct (b32decode secret) as [key|e] eqn:E; cbn [mbind result_bind]; [left; by eexists|right].
  exists e. split; [done|]. split; [done|]. by eapply b32decode_errors.
Qed.

(** A code is accepted within one step and nowhere else: what
    [matched_step] accepts is the code of one of the three steps around the
    moment, and the step it returns is that one; the code of any moment whose
    step is at most one away is accepted; and nothing but the secret, the
    step and the trimmed code matters. *)
Theorem accepted_within_one_step secret code t :
  plausible t ->
  (forall step, matched_step secret code t = Ok (Some step) ->
     t / STEP - 1 <= step <= t / STEP + 1
     /\ code_at secret (step * STEP) 6 = Ok (candidate code))
  /\ (forall moment expected, code_at secret moment 6 = Ok expected -> candidate code = expected ->
        t / STEP - 1 <= moment / STEP <= t / STEP + 1 ->
        verify secret code t = Ok true)
  /\ is_ok (matched_step secret code t) = true.
Proof.
  intros Ht. unfold matched_step, verify, matched_step. set (cand := candidate code).
  assert (Hstep : forall off, (t + off * STEP) / STEP = t / STEP + off)
    by (intros off; unfold STEP; rewrite Z.div_add by lia; done).
  assert (Hcode : forall off, code_at secret ((t / STEP + off) * STEP) 6 = code_at secret (t + off * STEP) 6).
  { intros off. apply code_at_step. rewrite Hstep. unfold STEP. by rewrite Z.div_mul by lia. }
  assert (Hmoment : forall moment, t / STEP - 1 <= moment / STEP <= t / STEP + 1 ->
    exists off, off ∈ [-1; 0; 1] /\ code_at secret moment 6 = code_at secret (t + off * STEP) 6).
  { intros moment Hm. exists (moment / STEP - t / STEP). split.
    - rewrite !elem_of_cons. lia.
    - apply code_at_step. rewrite Hstep. lia. }
  assert (Hgen : forall offsets, Forall (fun off => -1 <= off <= 1) offsets ->
    (forall step, match_steps secret cand t offsets = Ok (Some step) ->
       exists off, -1 <= off <= 1 /\ step = t / STEP + off /\ code_at secret (t + off * STEP) 6 = Ok cand)
    /\ (forall off, off ∈ offsets -> code_at secret (t + off * STEP) 6 = Ok cand ->
          exists step, match_steps secret cand t offsets = Ok (Some step))
    /\ is_ok (match_steps secret cand t offsets) = true).
  { induction offsets as [|off offsets IH]; intros Hall.
    - split; [done|]. split; [by intros off ?%elem_of_nil|done].
    - apply Forall_cons in Hall as [Hoff Hall]. destruct (IH Hall) as (IH1 & IH2 & IH3).
      cbn [match_steps]. destruct (code_at_cases secret t off 6 Ht Hoff) as [[c Hc]|(e & Hb & He & Hv)].
      + rewrite Hc. destruct (decide (cand = c)) as [<-|Hne].
        * split; [|split; [by eexists|done]]. intros step [= <-]. exists off. by rewrite Hstep.
        * split; [exact IH1|]. split; [|exact IH3]. intros off' [->|Hin]%elem_of_cons Hc'; [|by eapply IH2].
          rewrite Hc in Hc'. congruence.
      + rewrite He, Hv. split; [done|]. split; [|done]. intros off' _ Hc'.
        unfold code_at in Hc'. rewrite Hb in Hc'. destruct (pack_u64 _); discriminate. }
  destruct (Hgen [-1; 0; 1]) as (H1 & H2 & H3); [repeat constructor; lia|].
  split; [|split; [|exact H3]].
  - intros step H. destruct (H1 _ H) as (off & Hoff & -> & Hc). split; [lia|]. by rewrite Hcode.
  - intros moment expected Hm Heq Hrange. destruct (Hmoment _ Hrange) as (off & Hin & Ho).
    rewrite Ho in Hm. destruct (H2 off Hin) as [step Hs]; [by rewrite Hm; subst expected|].
    rewrite Hs. cbn [mbind result_bind]. rewrite bool_decide_true; [done|by eexists].
Qed.

Lemma accepted_within_one_step_witness :
  verify rfc_secret " 081804 " 1111111111 = Ok true.
Proof.
  apply (proj1 (proj2 (accepted_within_one_step rfc_secret " 081804 " 1111111111
                         ltac:(split; [vm_compute; discriminate|vm_compute; reflexivity])))
           1111111109 "081804"); [vm_compute; reflexivity|vm_compute; reflexivity|].
  vm_compute. split; discriminate.
Defined.
