(* ===== verification/RateLimit.v ===== *)
(** * The sign-in rate limit

    Models src/backend/app/rate_limit.py: the count per subject in a ten minute
    window, the wait that doubles, and the queue of an address.

    Times and delays are integers of microseconds, the resolution of
    [datetime]; every delay the code computes is a multiple of half a second.
    The table's rows are a map; a request's transaction holds the rows it
    touches until it commits, so requests on a subject follow one another, and
    one that raises before the commit leaves no trace. *)

From S2P Require Import Prelude PyFloat Hashes.
Open Scope Z_scope.

Definition second : Z := 1000000.
Definition WINDOW : Z := 600 * second.
Definition IDENTIFIER_LIMIT : Z := 10.
Definition FREE_ATTEMPTS : Z := 5.
Definition MAX_DELAY : Z := 8 * second.
Definition MAX_QUEUE : Z := 30 * second.

Definition REFUSED : exn := HTTPException 429 "too many sign-in attempts".
Definition BUSY : exn := HTTPException 503 "sign-in is busy, try again shortly".
Definition UNAVAILABLE : exn := HTTPException 503 "database unavailable".

(** [0.5 * 2 ** n] converts [2 ** n] to a float before the [min]: from
    [2 ** 1024] on the conversion raises. *)
Definition delay_for (attempts : Z) : result exn Z :=
  if attempts <=? FREE_ATTEMPTS then Ok 0
  else
    let n := attempts - FREE_ATTEMPTS - 1 in
    if 1024 <=? n then Err OverflowError
    else Ok (Z.min MAX_DELAY (second / 2 * 2 ^ n)).

Record attempt_row := { attempts : Z; expires_at : Z; not_before : option Z }.
Abbreviation attempt_table := (gmap (string * string) attempt_row).

Definition subject_key (scope value : string) : string * string := (scope, sha256 value).

(** The row an attempt leaves: a new one, the old one counted up, or, when its
    window has run out, reset. *)
Definition charged (now : Z) (old : option attempt_row) : attempt_row :=
  match old with
  | None => {| attempts := 1; expires_at := now + WINDOW; not_before := None |}
  | Some r =>
      if expires_at r <=? now
      then {| attempts := 1; expires_at := now + WINDOW; not_before := None |}
      else {| attempts := attempts r + 1; expires_at := expires_at r; not_before := not_before r |}
  end.

Definition charge (scope value : string) (now : Z) (rows : attempt_table)
  : (Z * option Z) * attempt_table :=
  let row := charged now (rows !! subject_key scope value) in
  ((attempts row, not_before row), <[subject_key scope value := row]> rows).

Definition set_not_before (turn : Z) (r : attempt_row) : attempt_row :=
  {| attempts := attempts r; expires_at := expires_at r; not_before := Some turn |}.

(** The wait, or [None] when the queue is full.  [now] and [now'] are the two
    readings of the clock. *)
Definition reserve (address : string) (now now' : Z) (rows : attempt_table)
  : result exn (option Z * attempt_table) :=
  let '((attempts, taken), rows) := charge "address" address now rows in
  delay ← delay_for attempts;
  let turn := Z.max (default now' taken) now' + delay in
  let waiting := turn - now' in
  if MAX_QUEUE <? waiting then Ok (None, rows)
  else Ok (Some waiting, alter (set_not_before turn) (subject_key "address" address) rows).

(** The clock readings of one request, in order. *)
Record clock := { t_charge : Z; t_address : Z; t_reserve : Z }.

(** [None] for the state of a process without a database. *)
Definition charge_address (peer : option string) (t : clock) (db : option attempt_table)
  : result exn Z * option attempt_table :=
  match db, peer with
  | None, _ => (Err UNAVAILABLE, None)
  | Some rows, None => (Ok 0, Some rows)
  | Some rows, Some peer =>
      match reserve ("reset:" +:+ peer) (t_address t) (t_reserve t) rows with
      | Err e => (Err e, Some rows)
      | Ok (None, rows) => (Err BUSY, Some rows)
      | Ok (Some wait, rows) => (Ok wait, Some rows)
      end
  end.

(** The seconds the request is held, or the refusal. *)
Definition charge_login (subject : string) (peer : option string) (t : clock)
    (db : option attempt_table) : result exn Z * option attempt_table :=
  match db with
  | None => (Err UNAVAILABLE, None)
  | Some rows =>
      let '((identifier, _), charged_rows) := charge "identifier" subject (t_charge t) rows in
      let spent := IDENTIFIER_LIMIT <? identifier in
      match (match peer with
             | Some peer => if spent then Ok (Some 0, charged_rows)
                            else reserve peer (t_address t) (t_reserve t) charged_rows
             | None => Ok (Some 0, charged_rows)
             end) with
      | Err e => (Err e, Some rows)
      | Ok (queued, rows) =>
          (if spent then Err REFUSED
           else match queued with
                | None => Err BUSY
                | Some queued => own ← delay_for identifier; Ok (Z.max own queued)
                end, Some rows)
      end
  end.

Definition prune (now : Z) (rows : attempt_table) : attempt_table :=
  filter (fun kr => ~ expires_at kr.2 < now) rows.

(** ** What a subject may do in one window *)

Lemma delay_for_ok n d : delay_for n = Ok d -> 0 <= d <= MAX_DELAY.
Proof.
  unfold delay_for, MAX_DELAY, second, FREE_ATTEMPTS.
  destruct (n <=? 5); [intros [= <-]; lia|].
  destruct (1024 <=? _); [discriminate|]. intros [= <-].
  pose proof (Z.pow_nonneg 2 (n - 5 - 1)). change (1000000 / 2) with 500000. lia.
Qed.

Lemma delay_for_below n : n < FREE_ATTEMPTS + 1 + 1024 -> exists d, delay_for n = Ok d.
Proof.
  intros H. unfold delay_for. destruct (n <=? FREE_ATTEMPTS); [by eexists|].
  rewrite (proj2 (Z.leb_gt _ _)) by lia. by eexists.
Qed.

(** The wait is at its cap from the tenth attempt on. *)
Lemma delay_for_capped n : 10 <= n < FREE_ATTEMPTS + 1 + 1024 -> delay_for n = Ok MAX_DELAY.
Proof.
  unfold delay_for, MAX_DELAY, second, FREE_ATTEMPTS. intros H.
  rewrite !(proj2 (Z.leb_gt _ _)) by lia. f_equal. apply Z.min_l.
  change (8 * 1000000) with (1000000 / 2 * 2 ^ 4).
  apply Z.mul_le_mono_nonneg_l; [vm_compute; discriminate|]. apply Z.pow_le_mono_r; lia.
Qed.

Lemma charge_lookup scope value now rows p rows' :
  charge scope value now rows = (p, rows') ->
  exists row, row = charged now (rows !! subject_key scope value)
    /\ p = (attempts row, not_before row) /\ rows' !! subject_key scope value = Some row
    /\ forall k, k <> subject_key scope value -> rows' !! k = rows !! k.
Proof.
  unfold charge. intros [= <- <-]. eexists. split; [done|]. split; [done|].
  split; [apply lookup_insert_eq|]. intros k Hk. by rewrite lookup_insert_ne by congruence.
Qed.

Lemma reserve_other address now now' rows q rows' k :
  reserve address now now' rows = Ok (q, rows') -> k <> subject_key "address" address ->
  rows' !! k = rows !! k.
Proof.
  unfold reserve. destruct (charge _ _ _ _) as [[n taken] rows1] eqn:Hc. intros H Hk.
  apply charge_lookup in Hc as (row & _ & _ & _ & Hother). apply bind_ok in H as (d & _ & H).
  destruct (MAX_QUEUE <? _); injection H as _ <-; [by apply Hother|].
  rewrite lookup_alter_ne by done. by apply Hother.
Qed.

Lemma scopes_differ a b : subject_key "identifier" a <> subject_key "address" b.
Proof. discriminate. Qed.

(** A sign-in attempt, with the readings of its clock. *)
Record login := { l_subject : string; l_peer : option string; l_clock : clock }.

Fixpoint logins (ls : list login) (rows : attempt_table) : list (result exn Z) * attempt_table :=
  match ls with
  | [] => ([], rows)
  | l :: ls =>
      let (answer, db) := charge_login (l_subject l) (l_peer l) (l_clock l) (Some rows) in
      let (answers, rows) := logins ls (default rows db) in
      (answer :: answers, rows)
  end.

(** The attempts on a subject's row that are let through. *)
Fixpoint admitted (digest : string) (ls : list login) (answers : list (result exn Z)) : Z :=
  match ls, answers with
  | l :: ls, a :: answers =>
      (if bool_decide (sha256 (l_subject l) = digest) && is_ok a then 1 else 0)
      + admitted digest ls answers
  | _, _ => 0
  end.

(** The identifier's row after one attempt inside its window. *)
Lemma login_identifier l rows answer db row :
  charge_login (l_subject l) (l_peer l) (l_clock l) (Some rows) = (answer, db) ->
  rows !! subject_key "identifier" (l_subject l) = Some row -> t_charge (l_clock l) < expires_at row ->
  exists rows', db = Some rows'
    /\ ((rows' = rows /\ is_ok answer = false)
        \/ (rows' !! subject_key "identifier" (l_subject l)
              = Some {| attempts := attempts row + 1; expires_at := expires_at row;
                        not_before := not_before row |}
            /\ (is_ok answer = true -> attempts row < IDENTIFIER_LIMIT))).
Proof.
  unfold charge_login. destruct (charge _ _ _ _) as [[n taken] rows1] eqn:Hc. intros H Hrow Hlt.
  apply charge_lookup in Hc as (r & Hr & Hp & Hin & Hother).
  unfold charged in Hr. rewrite Hrow, (proj2 (Z.leb_gt _ _)) in Hr by done.
  injection Hp as -> ->. subst r. cbn [attempts] in *.
  set (spent := IDENTIFIER_LIMIT <? attempts row + 1) in *.
  destruct (l_peer l) as [peer|].
  - destruct spent eqn:Hs; subst spent.
    + injection H as <- <-. exists rows1. split; [done|]. right. split; [exact Hin|discriminate].
    + destruct (reserve peer _ _ rows1) as [[q rows2]|e] eqn:Hres.
      * injection H as <- <-. exists rows2. split; [done|]. right.
        rewrite (reserve_other _ _ _ _ _ _ _ Hres) by apply scopes_differ.
        split; [exact Hin|]. intros _. apply Z.ltb_ge in Hs. lia.
      * injection H as <- <-. exists rows. split; [done|]. by left.
  - injection H as <- <-. exists rows1. split; [done|]. right. split; [exact Hin|].
    destruct spent eqn:Hs; subst spent; [discriminate|]. intros _. apply Z.ltb_ge in Hs. lia.
Qed.

Lemma login_other l rows answer db digest :
  charge_login (l_subject l) (l_peer l) (l_clock l) (Some rows) = (answer, db) ->
  sha256 (l_subject l) <> digest ->
  exists rows', db = Some rows' /\ rows' !! ("identifier", digest) = rows !! ("identifier", digest).
Proof.
  unfold charge_login. destruct (charge _ _ _ _) as [[n taken] rows1] eqn:Hc. intros H Hne.
  apply charge_lookup in Hc as (r & _ & _ & _ & Hother).
  assert (H1 : rows1 !! ("identifier", digest) = rows !! ("identifier", digest)).
  { apply Hother. unfold subject_key. congruence. }
  destruct (l_peer l) as [peer|]; [|injection H as _ <-; by exists rows1].
  destruct (IDENTIFIER_LIMIT <? n); [injection H as _ <-; by exists rows1|].
  destruct (reserve peer _ _ rows1) as [[q rows2]|e] eqn:Hres; injection H as _ <-;
    [|by exists rows].
  exists rows2. split; [done|]. rewrite <- H1. eapply reserve_other; [exact Hres|]. discriminate.
Qed.

(** C31 The ceiling holds: whatever attempts arrive, from whatever addresses and
    in whatever order, once an identifier's window is open at most ten less
    the attempts already counted are let through before it ends. *)
Theorem identifier_ceiling digest ls rows row answers rows' :
  logins ls rows = (answers, rows') ->
  rows !! ("identifier", digest) = Some row -> 0 <= attempts row ->
  Forall (fun l => t_charge (l_clock l) < expires_at row) ls ->
  admitted digest ls answers <= Z.max 0 (IDENTIFIER_LIMIT - attempts row).
Proof.
  revert rows row answers rows'. induction ls as [|l ls IH]; intros rows row answers rows' H Hrow Hpos Hall;
    cbn [logins] in H.
  - injection H as <- _. cbn. lia.
  - apply Forall_cons in Hall as [Hl Hall].
    destruct (charge_login _ _ _ (Some rows)) as [answer db] eqn:Hc.
    destruct (logins ls (default rows db)) as [answers1 rows1] eqn:Hrest. injection H as <- <-.
    cbn [admitted]. destruct (decide (sha256 (l_subject l) = digest)) as [Heq|Hne].
    + rewrite bool_decide_true by done. cbn [andb].
      assert (Hrow' : rows !! subject_key "identifier" (l_subject l) = Some row)
        by (unfold subject_key; by rewrite Heq).
      destruct (login_identifier l rows answer db row Hc Hrow' Hl) as (rows2 & -> & Hcase).
      cbn [default from_option] in Hrest. unfold id in Hrest.
      destruct Hcase as [[-> Ha]|[Hrow2 Ha]].
      * rewrite Ha. specialize (IH _ _ _ _ Hrest Hrow Hpos Hall). lia.
      * unfold subject_key in Hrow2. rewrite Heq in Hrow2.
        specialize (IH _ _ _ _ Hrest Hrow2). cbn [attempts expires_at] in IH.
        specialize (IH ltac:(lia) Hall). destruct (is_ok answer); [specialize (Ha eq_refl)|]; lia.
    + rewrite bool_decide_false by done. cbn [andb].
      destruct (login_other l rows answer db digest Hc Hne) as (rows2 & -> & Hsame).
      cbn [default from_option] in Hrest. unfold id in Hrest. rewrite <- Hsame in Hrow.
      specialize (IH _ _ _ _ Hrest Hrow Hpos Hall). lia.
Qed.

(** ** The queue of an address *)

(** The turns of an address are spaced and near: a granted turn is at most
    thirty seconds away, no earlier than the turn granted before it plus the
    delay of its own attempt number, and it is what the next attempt queues
    behind; a full queue is not moved. *)
Theorem turns_spaced address now now' rows row q rows' :
  rows !! subject_key "address" address = Some row -> now < expires_at row ->
  reserve address now now' rows = Ok (q, rows') ->
  exists delay row', delay_for (attempts row + 1) = Ok delay
    /\ rows' !! subject_key "address" address = Some row'
    /\ attempts row' = attempts row + 1 /\ expires_at row' = expires_at row
    /\ match q with
       | Some wait => 0 <= wait <= MAX_QUEUE /\ not_before row' = Some (now' + wait)
                      /\ delay <= wait
                      /\ (forall turn, not_before row = Some turn -> turn + delay <= now' + wait)
       | None => not_before row' = not_before row
                 /\ exists turn, not_before row = Some turn /\ now' + MAX_QUEUE < turn + delay
       end.
Proof.
  intros Hrow Hlt H. unfold reserve in H.
  destruct (charge "address" address now rows) as [[n taken] rows1] eqn:Hc.
  apply charge_lookup in Hc as (r & Hr & Hp & Hin & _). unfold charged in Hr.
  rewrite Hrow, (proj2 (Z.leb_gt _ _)) in Hr by done. injection Hp as -> ->. subst r.
  cbn [attempts not_before] in H. apply bind_ok in H as (delay & Hd & H).
  pose proof (delay_for_ok _ _ Hd) as Hrange. exists delay.
  destruct (MAX_QUEUE <? _) eqn:Hfull; injection H as <- <-.
  - eexists. split; [done|]. split; [exact Hin|]. cbn [attempts expires_at not_before].
    repeat (split; [done|]). apply Z.ltb_lt in Hfull.
    destruct (not_before row) as [turn|]; cbn [default from_option] in Hfull; unfold id in Hfull.
    + exists turn. split; [done|]. unfold MAX_QUEUE, MAX_DELAY in *. lia.
    + unfold MAX_QUEUE, MAX_DELAY, second in *. lia.
  - eexists. split; [done|]. rewrite lookup_alter_eq, Hin. split; [done|].
    cbn [fmap option_fmap option_map set_not_before attempts expires_at not_before].
    repeat (split; [done|]). apply Z.ltb_ge in Hfull.
    set (base := Z.max (default now' (not_before row)) now') in *.
    split; [lia|]. split; [f_equal; lia|]. split; [lia|].
    intros turn Ht. subst base. rewrite Ht. cbn [default from_option]. unfold id. lia.
Qed.

(** After 1029 attempts of an address in one window every further one
    raises before it is counted: the wait is computed as a float before its
    cap applies, the transaction is undone, and the address is answered an
    internal error until its window ends. *)
Theorem address_overflow_locks_out subject peer t rows row :
  rows !! subject_key "address" peer = Some row -> attempts row = FREE_ATTEMPTS + 1024 ->
  t_address t < expires_at row ->
  (forall irow, rows !! subject_key "identifier" subject = Some irow ->
     attempts irow < IDENTIFIER_LIMIT) ->
  charge_login subject (Some peer) t (Some rows) = (Err OverflowError, Some rows).
Proof.
  intros Hrow Hn Hlt Hid. unfold charge_login.
  destruct (charge "identifier" subject (t_charge t) rows) as [[n taken] rows1] eqn:Hc.
  apply charge_lookup in Hc as (r & Hr & Hp & _ & Hother). injection Hp as -> ->.
  assert (Hspent : (IDENTIFIER_LIMIT <? attempts r) = false).
  { apply Z.ltb_ge. subst r. unfold charged.
    destruct (rows !! subject_key "identifier" subject) as [irow|] eqn:E; [|by cbn].
    specialize (Hid irow eq_refl). destruct (_ <=? _); cbn; [done|lia]. }
  rewrite Hspent. unfold reserve.
  destruct (charge "address" peer (t_address t) rows1) as [[n2 taken2] rows2] eqn:Hc2.
  apply charge_lookup in Hc2 as (r2 & Hr2 & Hp2 & _). injection Hp2 as -> ->.
  rewrite Hother, Hrow in Hr2 by (apply not_eq_sym, scopes_differ).
  unfold charged in Hr2. rewrite (proj2 (Z.leb_gt _ _)) in Hr2 by done. subst r2. cbn [attempts].
  rewrite Hn. reflexivity.
Qed.

(** ** Witnesses *)

Definition at_second (n : Z) : clock :=
  {| t_charge := n * second; t_address := n * second; t_reserve := n * second |}.
Definition asks (n : nat) : list login :=
  map (fun i => {| l_subject := "ana@example.org"; l_peer := Some ("10.0.0." +:+ String.String (val_byte (65 + Z.of_nat i)) "");
                   l_clock := at_second (Z.of_nat i) |}) (seq 1 n).
Definition opened_window : attempt_table :=
  {[ ("identifier", sha256 "ana@example.org") :=
       {| attempts := 8; expires_at := WINDOW; not_before := None |} ]}.

Lemma identifier_ceiling_witness :
  exists answers rows', logins (asks 4) opened_window = (answers, rows')
    /\ admitted (sha256 "ana@example.org") (asks 4) answers = 2
    /\ admitted (sha256 "ana@example.org") (asks 4) answers <= Z.max 0 (IDENTIFIER_LIMIT - 8).
Proof.
  destruct (logins (asks 4) opened_window) as [answers rows'] eqn:H. exists answers, rows'.
  refine (conj eq_refl (conj _ _)).
  - assert (Hs : (fun x => admitted (sha256 "ana@example.org") (asks 4) x.1)
                   (logins (asks 4) opened_window) = 2) by (vm_compute; reflexivity).
    rewrite H in Hs. exact Hs.
  - refine (identifier_ceiling _ _ opened_window
             {| attempts := 8; expires_at := WINDOW; not_before := None |} answers rows' H _ _ _).
    + apply lookup_singleton_eq.
    + vm_compute. discriminate.
    + repeat (constructor; [vm_compute; reflexivity|]). constructor.
Defined.

Definition busy_row : attempt_row :=
  {| attempts := 9; expires_at := WINDOW; not_before := Some (20 * second) |}.

Lemma turns_spaced_witness :
  exists delay (rows' : attempt_table) row', delay_for 10 = Ok delay
    /\ rows' !! subject_key "address" "10.0.0.1" = Some row' /\ attempts row' = 10
    /\ not_before row' = Some (28 * second).
Proof.
  destruct (reserve "10.0.0.1" second second {[ subject_key "address" "10.0.0.1" := busy_row ]})
    as [[q rows']|e] eqn:H.
  - assert (Hq : (fun x => match x with Ok (q, _) => q | Err _ => None end)
                   (reserve "10.0.0.1" second second {[ subject_key "address" "10.0.0.1" := busy_row ]})
                 = Some (27 * second)) by (vm_compute; reflexivity).
    rewrite H in Hq. subst q.
    destruct (turns_spaced "10.0.0.1" second second _ busy_row _ rows' (lookup_singleton_eq _ _) eq_refl H)
      as (delay & row' & Hd & Hr & Ha & _ & _ & Hn & _).
    exists delay, rows', row'. exact (conj Hd (conj Hr (conj Ha Hn))).
  - assert (Hok : is_ok (reserve "10.0.0.1" second second {[ subject_key "address" "10.0.0.1" := busy_row ]})
                  = true) by (vm_compute; reflexivity).
    rewrite H in Hok. discriminate Hok.
Defined.

Lemma address_overflow_locks_out_witness :
  charge_login "ana@example.org" (Some "10.0.0.1") (at_second 5)
    (Some {[ subject_key "address" "10.0.0.1" :=
               {| attempts := 1029; expires_at := WINDOW; not_before := None |} ]})
  = (Err OverflowError,
     Some {[ subject_key "address" "10.0.0.1" :=
               {| attempts := 1029; expires_at := WINDOW; not_before := None |} ]}).
Proof.
  apply (address_overflow_locks_out _ _ _ _ {| attempts := 1029; expires_at := WINDOW; not_before := None |}).
  - apply lookup_singleton_eq.
  - reflexivity.
  - vm_compute. reflexivity.
  - intros irow H. rewrite lookup_singleton_ne in H by apply not_eq_sym, scopes_differ. discriminate H.
Defined.
