(* ===== verification/FrameBatch.v ===== *)
(** * Cross-session frame batching

    Models worker/worker/frame_batch.py: frames of several sessions wait in
    buckets by compatibility class, one frame per session, and the classes
    take turns on the GPU.

    A request's future is a number; what the engine has answered is a set of
    futures that are done.  [P] is a frame: the canvas and the session's
    prompt cache, which the collector only carries. *)

From S2P Require Import Prelude PyFloat Hashes Json Manifests PyInt ODict.
Open Scope Z_scope.

Definition occupancy_share_ms (cycle_ms batch_size : Z) : Z :=
  if batch_size <=? 1 then cycle_ms else cycle_ms / batch_size.

Record compat_class := { k_model : string; k_steps : Z; k_resolution : Z }.
Global Instance compat_eq_dec : EqDecision compat_class.
Proof. solve_decision. Defined.

(** [properties.get("steps", {}).get("default", 2)] *)
Definition schema_steps (m : manifest) : result exn json :=
  match default (JDict []) (lookup_key "properties" (m_parameters m)) with
  | JDict properties =>
      match default (JDict []) (lookup_key "steps" properties) with
      | JDict steps => Ok (default (JInt 2) (lookup_key "default" steps))
      | _ => Err (AttributeError "get")
      end
  | _ => Err (AttributeError "get")
  end.

Definition compat_key (m : manifest) (params : dict) (resolution : Z) : result exn compat_class :=
  default_steps ← schema_steps m;
  steps ← py_int (default default_steps (lookup_key "steps" params));
  Ok {| k_model := m_id m; k_steps := steps; k_resolution := resolution |}.

Section Collector.
Context {P : Type}.

Record request := {
q_session : Z;
q_compat : compat_class;
q_manifest : manifest;
q_params : dict;
q_strength : float;
q_payload : P;
q_profile : bool;
q_future : nat;
q_cancelled : bool
}.

Record collector := {
b_pending : list (compat_class * list (Z * request));
b_session_compat : list (Z * compat_class);
b_ring : list compat_class;
b_next : Z;
b_done : list nat
}.

Definition new_collector : collector :=
{| b_pending := []; b_session_compat := []; b_ring := []; b_next := 0; b_done := [] |}.

Definition is_done (fut : nat) (c : collector) : bool := bool_decide (fut ∈ b_done c).

Definition pending_for (session : Z) (c : collector) : option request :=
compat ← od_get session (b_session_compat c);
bucket ← od_get compat (b_pending c);
od_get session bucket.

(** The session leaves its bucket; an empty bucket goes, and its class leaves
  the ring. *)
Definition leave_bucket (session : Z) (compat : compat_class) (c : collector) : collector :=
match od_get compat (b_pending c) with
| None => c
| Some bucket =>
    match od_del session bucket with
    | [] => {| b_pending := od_del compat (b_pending c); b_session_compat := b_session_compat c;
               b_ring := filter (fun k => k <> compat) (b_ring c); b_next := b_next c;
               b_done := b_done c |}
    | rest => {| b_pending := od_set compat rest (b_pending c);
                 b_session_compat := b_session_compat c; b_ring := b_ring c;
                 b_next := b_next c; b_done := b_done c |}
    end
end.

(** The request joins its class's bucket; a class that was not waiting goes to
  the end of the ring. *)
Definition join_bucket (q : request) (c : collector) : collector :=
let bucket := default [] (od_get (q_compat q) (b_pending c)) in
{| b_pending := od_set (q_compat q) (od_set (q_session q) q bucket) (b_pending c);
   b_session_compat := od_set (q_session q) (q_compat q) (b_session_compat c);
   b_ring := if decide (q_compat q ∈ b_ring c) then b_ring c else b_ring c ++ [q_compat q];
   b_next := b_next c; b_done := b_done c |}.

(** [request] carries its new class; [old] is the one it leaves. *)
Definition rebucket (old : compat_class) (q : request) (c : collector) : collector :=
join_bucket q (leave_bucket (q_session q) old c).

Definition enqueue (q : request) (c : collector) : collector :=
join_bucket q match od_get (q_session q) (b_session_compat c) with
              | Some old => leave_bucket (q_session q) old c
              | None => c
              end.

(** The frame object, mutated in place, in the bucket that holds it. *)
Definition replace_request (q : request) (c : collector) : collector :=
match od_get (q_compat q) (b_pending c) with
| Some bucket =>
    {| b_pending := od_set (q_compat q) (od_set (q_session q) q bucket) (b_pending c);
       b_session_compat := b_session_compat c; b_ring := b_ring c; b_next := b_next c;
       b_done := b_done c |}
| None => c
end.

(** The future the caller awaits, which is the waiting frame's when the session
  has one.  [fut] is the future created otherwise. *)
Definition submit (session : Z) (m : manifest) (params : dict) (payload : P) (strength : float)
  (resolution : Z) (profile : bool) (fut : nat) (c : collector) : result exn (nat * collector) :=
compat ← compat_key m params resolution;
match pending_for session c with
| Some existing =>
    if is_done (q_future existing) c then
      Ok (fut, enqueue {| q_session := session; q_compat := compat; q_manifest := m;
                          q_params := params; q_strength := strength; q_payload := payload;
                          q_profile := profile; q_future := fut; q_cancelled := false |} c)
    else
      let updated := {| q_session := q_session existing; q_compat := compat; q_manifest := m;
                        q_params := params; q_strength := strength; q_payload := payload;
                        q_profile := profile; q_future := q_future existing;
                        q_cancelled := q_cancelled existing |} in
      Ok (q_future existing,
          if decide (q_compat existing = compat) then replace_request updated c
          else rebucket (q_compat existing) updated c)
| None =>
    Ok (fut, enqueue {| q_session := session; q_compat := compat; q_manifest := m;
                        q_params := params; q_strength := strength; q_payload := payload;
                        q_profile := profile; q_future := fut; q_cancelled := false |} c)
end.

(** A caller that is cancelled cancels the future it awaits. *)
Definition set_done (futs : list nat) (c : collector) : collector :=
{| b_pending := b_pending c; b_session_compat := b_session_compat c; b_ring := b_ring c;
   b_next := b_next c; b_done := futs ++ b_done c |}.

Definition mark_cancelled (q : request) : request :=
{| q_session := q_session q; q_compat := q_compat q; q_manifest := q_manifest q;
   q_params := q_params q; q_strength := q_strength q; q_payload := q_payload q;
   q_profile := q_profile q; q_future := q_future q; q_cancelled := true |}.

Definition cancel (session : Z) (fut : nat) (c : collector) : collector :=
set_done [fut]
  match pending_for session c with
  | Some q => if decide (q_future q = fut) then replace_request (mark_cancelled q) c else c
  | None => c
  end.

(** The class at [index] of the ring, when its bucket holds a frame. *)
Definition waiting_at (index : Z) (c : collector) : option (compat_class * list (Z * request)) :=
compat ← b_ring c !! Z.to_nat index;
bucket ← od_get compat (b_pending c);
match bucket with [] => None | _ => Some (compat, bucket) end.

(** The search over the offsets of the ring, and the batch it serves. *)
Fixpoint pick_from (offsets : list Z) (c : collector) : option (list request * collector) :=
match offsets with
| [] => None
| offset :: offsets =>
    let index := (b_next c + offset) mod Z.of_nat (length (b_ring c)) in
    match waiting_at index c with
    | Some (compat, bucket) =>
        let ring := filter (fun k => k <> compat) (b_ring c) in
        Some (bucket.*2,
              {| b_pending := od_del compat (b_pending c);
                 b_session_compat := b_session_compat c; b_ring := ring;
                 b_next := if decide (ring = []) then 0 else index mod Z.of_nat (length ring);
                 b_done := b_done c |})
    | None => pick_from offsets c
    end
end.
Definition pick_batch (c : collector) : option (list request * collector) :=
pick_from (seqZ 0 (Z.of_nat (length (b_ring c)))) c.

(** After the engine ran, with the futures it answered, by a result or an
  exception: a session with nothing waiting is forgotten. *)
Definition forget_session (c : collector) (q : request) : collector :=
match pending_for (q_session q) c with
| None => {| b_pending := b_pending c;
             b_session_compat := od_del (q_session q) (b_session_compat c);
             b_ring := b_ring c; b_next := b_next c; b_done := b_done c |}
| Some _ => c
end.
Definition finish_batch (answered : list nat) (batch : list request) (c : collector) : collector :=
fold_left forget_session batch (set_done answered c).

(** Every waiting frame's future is cancelled. *)
Definition close (c : collector) : collector :=
{| b_pending := []; b_session_compat := []; b_ring := []; b_next := b_next c;
   b_done := map q_future (b_pending c ≫= fun kb => kb.2.*2) ++ b_done c |}.
End Collector.
Arguments request : clear implicits.
Arguments collector : clear implicits.
