(* ===== verification/FrameBatchSpec.v ===== *)
(** * Properties of the frame batching

    One waiting frame per session, homogeneous batches, and classes served in
    the order they started to wait. *)

From S2P Require Import Prelude PyFloat Hashes Json Manifests PyInt ODict FrameBatch.
From Stdlib Require Import SpecFloat.
Open Scope Z_scope.

Section Spec.
Context {P : Type}.
Implicit Types (c : collector P) (q : request P).

(** ** The invariant *)

Record collector_inv c : Prop := {
ci_ring_nodup : NoDup (b_ring c);
ci_nodup : NoDup (b_pending c).*1;
ci_ring : forall k, k ∈ b_ring c <-> k ∈ (b_pending c).*1;
ci_bucket : forall k b, od_get k (b_pending c) = Some b -> b <> [] /\ NoDup b.*1;
ci_request : forall k b s q, od_get k (b_pending c) = Some b -> od_get s b = Some q ->
  q_session q = s /\ q_compat q = k /\ od_get s (b_session_compat c) = Some k;
ci_next : b_next c = 0
}.

(** The session waits in no bucket. *)
Definition absent (s : Z) c : Prop :=
forall k b, od_get k (b_pending c) = Some b -> od_get s b = None.

Lemma inv_new : collector_inv new_collector.
Proof. split; cbn; try constructor; try done; by intros ?%elem_of_nil. Qed.

Lemma pending_for_some s c k b q :
collector_inv c -> od_get k (b_pending c) = Some b -> od_get s b = Some q ->
pending_for s c = Some q.
Proof.
intros Hinv Hb Hq. destruct (ci_request _ Hinv _ _ _ _ Hb Hq) as (_ & _ & Hs).
unfold pending_for. rewrite Hs. cbn. rewrite Hb. exact Hq.
Qed.

Lemma pending_for_inv s c q :
collector_inv c -> pending_for s c = Some q ->
exists b, od_get (q_compat q) (b_pending c) = Some b /\ od_get s b = Some q /\ q_session q = s.
Proof.
intros Hinv H. unfold pending_for in H.
destruct (od_get s (b_session_compat c)) as [k|] eqn:Hk; [|discriminate]. cbn in H.
destruct (od_get k (b_pending c)) as [b|] eqn:Hb; [|discriminate]. cbn in H.
destruct (ci_request _ Hinv _ _ _ _ Hb H) as (Hs & <- & _). by exists b.
Qed.

Lemma absent_pending s c : collector_inv c -> absent s c <-> pending_for s c = None.
Proof.
intros Hinv. split.
- intros Ha. destruct (pending_for s c) as [q|] eqn:E; [|done].
  destruct (pending_for_inv _ _ _ Hinv E) as (b & Hb & Hq & _). by rewrite (Ha _ _ Hb) in Hq.
- intros Hn k b Hb. destruct (od_get s b) as [q|] eqn:E; [|done].
  by rewrite (pending_for_some _ _ _ _ _ Hinv Hb E) in Hn.
Qed.

(** ** Leaving and joining a bucket *)

Lemma leave_cases s k c c' :
leave_bucket s k c = c' ->
(od_get k (b_pending c) = None /\ c' = c)
\/ exists b, od_get k (b_pending c) = Some b
   /\ ((od_del s b = [] /\ b_pending c' = od_del k (b_pending c)
        /\ b_ring c' = filter (fun k' => k' <> k) (b_ring c))
       \/ (od_del s b <> [] /\ b_pending c' = od_set k (od_del s b) (b_pending c)
           /\ b_ring c' = b_ring c))
   /\ b_session_compat c' = b_session_compat c /\ b_next c' = b_next c /\ b_done c' = b_done c.
Proof.
intros <-. unfold leave_bucket. destruct (od_get k (b_pending c)) as [b|]; [right|by left].
exists b. split; [done|]. destruct (od_del s b) as [|x rest]; cbn; (split; [|done]);
  [by left|by right].
Qed.

(** What is waiting after a session left its bucket. *)
Lemma leave_get s k c k' b' :
od_get k' (b_pending (leave_bucket s k c)) = Some b' ->
exists b, od_get k' (b_pending c) = Some b /\ b' = (if decide (k' = k) then od_del s b else b)
          /\ b' <> [] \/ (k' <> k /\ od_get k' (b_pending c) = Some b').
Proof.
intros H. destruct (leave_cases s k c _ eq_refl) as [[Hn He]|(b & Hb & Hcase & _)].
- rewrite He in H. exists b'. right. split; [congruence|done].
- destruct (decide (k' = k)) as [->|Hne].
  + destruct Hcase as [(_ & Hp & _)|(Hd & Hp & _)]; rewrite Hp in H.
    * by rewrite od_get_del in H.
    * rewrite od_get_set in H. injection H as <-. exists b. left. by split.
  + exists b'. right. split; [done|].
    destruct Hcase as [(_ & Hp & _)|(Hd & Hp & _)]; rewrite Hp in H;
      by rewrite ?od_get_del_ne, ?od_get_set_ne in H by done.
Qed.

Lemma leave_inv s k c :
collector_inv c -> collector_inv (leave_bucket s k c).
Proof.
intros Hinv. pose proof (leave_get s k c) as Hget.
destruct (leave_cases s k c _ eq_refl) as [[_ He]|(b & Hb & Hcase & Hsc & Hnext & _)];
  [by rewrite He|].
assert (Hk : k ∈ (b_pending c).*1) by (apply od_get_keys; eauto).
destruct Hinv as [Hrn Hnd Hr Hbk Hreq Hn].
split.
- destruct Hcase as [(_ & _ & ->)|(_ & _ & ->)]; [by apply NoDup_filter|done].
- destruct Hcase as [(_ & -> & _)|(_ & -> & _)]; [by apply od_del_nodup|by apply od_set_nodup].
- intros k'. destruct Hcase as [(_ & Hp & Hring)|(_ & Hp & Hring)]; rewrite Hp, Hring.
  + rewrite od_del_keys, !list_elem_of_filter, Hr. done.
  + by rewrite od_set_keys, decide_True.
- intros k' b' Hb'. destruct (Hget _ _ Hb') as (b0 & [(Hb0 & -> & Hne)|[Hne Hb0]]).
  + split; [done|]. destruct (decide (k' = k)); [apply od_del_nodup|]; by eapply Hbk.
  + by eapply Hbk.
- intros k' b' s' q Hb' Hq. rewrite Hsc.
  destruct (Hget _ _ Hb') as (b0 & [(Hb0 & -> & Hne)|[Hne Hb0]]); [|by eapply Hreq].
  destruct (decide (k' = k)); [|by eapply Hreq]. destruct (decide (s' = s)) as [->|Hs].
  + by rewrite od_get_del in Hq.
  + rewrite od_get_del_ne in Hq by done. by eapply Hreq.
- by rewrite Hnext.
Qed.

Lemma leave_absent s k c :
collector_inv c -> od_get s (b_session_compat c) = Some k -> absent s (leave_bucket s k c).
Proof.
intros Hinv Hs k' b' Hb'. destruct (leave_get _ _ _ _ _ Hb') as (b & [(Hb & -> & _)|[Hne Hb]]).
- destruct (decide (k' = k)) as [->|Hne]; [by rewrite od_get_del|].
  destruct (od_get s b) as [q|] eqn:Hq; [|done].
  destruct (ci_request _ Hinv _ _ _ _ Hb Hq) as (_ & _ & Hk'). congruence.
- destruct (od_get s b') as [q|] eqn:Hq; [|done].
  destruct (ci_request _ Hinv _ _ _ _ Hb Hq) as (_ & _ & Hk'). congruence.
Qed.

Lemma leave_pending_ne s k t c :
s <> t -> pending_for t (leave_bucket s k c) = pending_for t c.
Proof.
intros Hne. unfold pending_for.
destruct (leave_cases s k c _ eq_refl) as [[_ He]|(b & Hb & Hcase & Hsc & _)]; [by rewrite He|].
rewrite Hsc. destruct (od_get t (b_session_compat c)) as [k'|]; [|done]. cbn.
destruct (decide (k' = k)) as [->|Hk].
- rewrite Hb. destruct Hcase as [(Hd & -> & _)|(Hd & -> & _)].
  + rewrite od_get_del. cbn. rewrite <- (od_get_del_ne t s) by done. by rewrite Hd.
  + rewrite od_get_set. cbn. by rewrite od_get_del_ne by done.
- destruct Hcase as [(_ & -> & _)|(_ & -> & _)]; by rewrite ?od_get_del_ne, ?od_get_set_ne by done.
Qed.

Lemma join_inv q c : collector_inv c -> absent (q_session q) c -> collector_inv (join_bucket q c).
Proof.
intros [Hrn Hnd Hr Hbk Hreq Hn] Ha. split; cbn [join_bucket b_ring b_pending b_session_compat b_next].
- destruct (decide _); [done|]. apply NoDup_app. split; [done|]. split; [|apply NoDup_singleton].
  by intros x Hx ->%list_elem_of_singleton.
- by apply od_set_nodup.
- intros k. rewrite od_set_keys. repeat case_decide; rewrite ?elem_of_app, Hr; try done;
    try (rewrite Hr in *; done).
- intros k b. destruct (decide (k = q_compat q)) as [->|Hk].
  + rewrite od_get_set. intros [= <-]. destruct (od_get (q_compat q) (b_pending c)) as [b|] eqn:E; cbn.
    * destruct (Hbk _ _ E) as [Hne Hndb]. split; [|by apply od_set_nodup].
      destruct b as [|[k v] b]; [done|]. cbn. by destruct (decide _).
    * split; [done|apply NoDup_singleton].
  + rewrite od_get_set_ne by done. apply Hbk.
- intros k b s q'. destruct (decide (k = q_compat q)) as [->|Hk].
  + rewrite od_get_set. intros [= <-].
    destruct (decide (s = q_session q)) as [->|Hs].
    * rewrite !od_get_set. by intros [= <-].
    * rewrite !od_get_set_ne by done. intros Hq'.
      destruct (od_get (q_compat q) (b_pending c)) as [b|] eqn:E; [|by cbn in Hq']. by eapply Hreq.
  + rewrite od_get_set_ne by done. intros Hb Hq'. destruct (decide (s = q_session q)) as [->|Hs].
    * by rewrite (Ha _ _ Hb) in Hq'.
    * rewrite od_get_set_ne by done. by eapply Hreq.
- done.
Qed.

Lemma join_pending q c : pending_for (q_session q) (join_bucket q c) = Some q.
Proof.
unfold pending_for. cbn [join_bucket b_pending b_session_compat]. rewrite od_get_set. cbn.
rewrite od_get_set. cbn. by rewrite od_get_set.
Qed.

Lemma join_pending_ne q t c :
t <> q_session q -> pending_for t (join_bucket q c) = pending_for t c.
Proof.
intros Hne. unfold pending_for. cbn [join_bucket b_pending b_session_compat].
rewrite od_get_set_ne by done. destruct (od_get t (b_session_compat c)) as [k|]; [|done]. cbn.
destruct (decide (k = q_compat q)) as [->|Hk]; [|by rewrite od_get_set_ne].
rewrite od_get_set. cbn. rewrite od_get_set_ne by done.
by destruct (od_get (q_compat q) (b_pending c)).
Qed.

(** Replacing a waiting frame in place. *)
Lemma replace_is_join q q0 c :
collector_inv c -> pending_for (q_session q) c = Some q0 -> q_compat q0 = q_compat q ->
collector_inv (replace_request q c)
/\ (forall t, pending_for t (replace_request q c)
              = if decide (t = q_session q) then Some q else pending_for t c)
/\ b_ring (replace_request q c) = b_ring c.
Proof.
intros Hinv Hp Hk. destruct (pending_for_inv _ _ _ Hinv Hp) as (b & Hb & Hq & _). rewrite Hk in Hb.
unfold replace_request. rewrite Hb. destruct Hinv as [Hrn Hnd Hr Hbk Hreq Hn].
assert (Hkeys : q_compat q ∈ (b_pending c).*1) by (apply od_get_keys; eauto).
destruct (Hreq _ _ _ _ Hb Hq) as (_ & _ & Hsc). split; [|split; [|done]].
- split; cbn [b_ring b_pending b_session_compat b_next]; try done.
  + by apply od_set_nodup.
  + intros k. by rewrite od_set_keys, decide_True.
  + intros k b'. destruct (decide (k = q_compat q)) as [->|Hne].
    * rewrite od_get_set. intros [= <-]. split; [|by apply od_set_nodup, (Hbk _ _ Hb)].
      destruct b as [|[s v] b]; [done|]. cbn. by destruct (decide _).
    * rewrite od_get_set_ne by done. apply Hbk.
  + intros k b' s q'. destruct (decide (k = q_compat q)) as [->|Hne].
    * rewrite od_get_set. intros [= <-]. destruct (decide (s = q_session q)) as [->|Hs].
      -- rewrite od_get_set. by intros [= <-].
      -- rewrite od_get_set_ne by done. by apply Hreq.
    * rewrite od_get_set_ne by done. by apply Hreq.
- intros t. unfold pending_for. cbn [b_pending b_session_compat].
  destruct (decide (t = q_session q)) as [->|Hne].
  + rewrite Hsc. cbn. rewrite od_get_set. cbn. by rewrite od_get_set.
  + destruct (od_get t (b_session_compat c)) as [k|]; [|done]. cbn.
    destruct (decide (k = q_compat q)) as [->|Hk']; [|by rewrite od_get_set_ne].
    rewrite od_get_set, Hb. cbn. by rewrite od_get_set_ne.
Qed.
(** ** Submitting *)

Lemma enqueue_spec q c :
collector_inv c ->
collector_inv (enqueue q c)
/\ forall t, pending_for t (enqueue q c) = if decide (t = q_session q) then Some q else pending_for t c.
Proof.
intros Hinv. unfold enqueue. destruct (od_get (q_session q) (b_session_compat c)) as [old|] eqn:E.
- split; [apply join_inv; [by apply leave_inv|by apply leave_absent]|].
  intros t. destruct (decide (t = q_session q)) as [->|Hne]; [apply join_pending|].
  by rewrite join_pending_ne, leave_pending_ne.
- split.
  + apply join_inv; [done|]. apply absent_pending; [done|]. unfold pending_for. by rewrite E.
  + intros t. destruct (decide (t = q_session q)) as [->|Hne]; [apply join_pending|].
    by rewrite join_pending_ne.
Qed.

Lemma rebucket_spec q q0 c :
collector_inv c -> pending_for (q_session q) c = Some q0 ->
collector_inv (rebucket (q_compat q0) q c)
/\ forall t, pending_for t (rebucket (q_compat q0) q c)
             = if decide (t = q_session q) then Some q else pending_for t c.
Proof.
intros Hinv Hp. destruct (pending_for_inv _ _ _ Hinv Hp) as (b & Hb & Hq & _).
destruct (ci_request _ Hinv _ _ _ _ Hb Hq) as (_ & _ & Hsc). unfold rebucket. split.
- apply join_inv; [by apply leave_inv|by apply leave_absent].
- intros t. destruct (decide (t = q_session q)) as [->|Hne]; [apply join_pending|].
  by rewrite join_pending_ne, leave_pending_ne.
Qed.

(** The frame that waits after a submission. *)
Lemma submit_spec s m params payload strength resolution profile fut c awaited c' :
collector_inv c ->
submit s m params payload strength resolution profile fut c = Ok (awaited, c') ->
collector_inv c' /\ b_done c' = b_done c /\
exists q, q_session q = s /\ q_manifest q = m /\ q_params q = params /\ q_payload q = payload
  /\ q_strength q = strength /\ q_profile q = profile /\ q_future q = awaited
  /\ compat_key m params resolution = Ok (q_compat q)
  /\ (forall t, pending_for t c' = if decide (t = s) then Some q else pending_for t c)
  /\ awaited = match pending_for s c with
               | Some q0 => if is_done (q_future q0) c then fut else q_future q0
               | None => fut
               end.
Proof.
intros Hinv H. unfold submit in H. apply bind_ok in H as (k & Hk & H).
assert (Hdone : forall q, b_done (enqueue q c) = b_done c).
{ intros q. unfold enqueue. cbn [join_bucket b_done]. destruct (od_get _ _); [|done].
  unfold leave_bucket. destruct (od_get _ _); [|done]. by destruct (od_del _ _). }
destruct (pending_for s c) as [q0|] eqn:Hp.
- destruct (pending_for_inv _ _ _ Hinv Hp) as (b & _ & _ & Hs).
  destruct (is_done (q_future q0) c) eqn:Hd; [injection H as <- <-|].
  + match goal with |- context [enqueue ?q c] => destruct (enqueue_spec q c Hinv) as [Hi Hpend];
      split; [done|]; split; [apply Hdone|]; exists q end. by repeat split.
  + destruct (decide (q_compat q0 = k)) as [Hkq|Hkq]; injection H as <- <-.
    * match goal with |- context [replace_request ?q c] =>
        destruct (replace_is_join q q0 c Hinv) as (Hi & Hpend & _); [by cbn; rewrite Hs|done|];
        split; [done|]; split; [unfold replace_request; by destruct (od_get _ _)|]; exists q end.
      repeat split; try done. intros t. rewrite Hpend. cbn [q_session]. by rewrite Hs.
    * match goal with |- context [rebucket _ ?q c] =>
        destruct (rebucket_spec q q0 c Hinv) as (Hi & Hpend); [by cbn; rewrite Hs|];
        split; [done|]; split;
        [unfold rebucket, leave_bucket; cbn [join_bucket b_done]; destruct (od_get _ _); [|done];
         by destruct (od_del _ _)|]; exists q end.
      repeat split; try done. intros t. rewrite Hpend. cbn [q_session]. by rewrite Hs.
- injection H as <- <-.
  match goal with |- context [enqueue ?q c] => destruct (enqueue_spec q c Hinv) as [Hi Hpend];
    split; [done|]; split; [apply Hdone|]; exists q end. by repeat split.
Qed.

Lemma set_done_inv futs c : collector_inv c -> collector_inv (set_done futs c).
Proof. intros []. by split. Qed.

Lemma cancel_spec s fut c :
collector_inv c -> collector_inv (cancel s fut c) /\ b_ring (cancel s fut c) = b_ring c
/\ forall t q, pending_for t c = Some q ->
     exists q', pending_for t (cancel s fut c) = Some q' /\ q_compat q' = q_compat q.
Proof.
intros Hinv. unfold cancel. destruct (pending_for s c) as [q|] eqn:Hp;
  [destruct (decide (q_future q = fut))|].
- destruct (pending_for_inv _ _ _ Hinv Hp) as (b & _ & _ & Hs).
  destruct (replace_is_join (mark_cancelled q) q c Hinv) as (Hi & Hpend & Hr);
    [by cbn; rewrite Hs|done|]. split; [by apply set_done_inv|]. split; [exact Hr|].
  intros t q' Hq'. change (pending_for t (set_done ?f ?c)) with (pending_for t c).
  rewrite Hpend. cbn [mark_cancelled q_session]. rewrite Hs.
  destruct (decide (t = s)) as [->|]; [|by eexists]. exists (mark_cancelled q).
  split; [done|]. cbn. congruence.
- split; [by apply set_done_inv|]. split; [done|]. eauto.
- split; [by apply set_done_inv|]. split; [done|]. eauto.
Qed.

(** ** Picking a batch *)

Lemma filter_head (k : compat_class) ring :
NoDup (k :: ring) -> filter (fun k' => k' <> k) (k :: ring) = ring.
Proof.
intros [Hn Hnd]%NoDup_cons. rewrite filter_cons_False by (cbn; tauto).
clear Hnd. induction ring as [|x ring IH]; [done|]. apply not_elem_of_cons in Hn as [Hx Hn].
rewrite filter_cons_True by congruence. by rewrite IH.
Qed.

(** The class at the head of the ring is the one served. *)
Lemma pick_batch_head k ring c :
collector_inv c -> b_ring c = k :: ring ->
exists b c', od_get k (b_pending c) = Some b /\ pick_batch c = Some (b.*2, c')
  /\ b_ring c' = ring /\ b_pending c' = od_del k (b_pending c) /\ b_next c' = 0
  /\ b_session_compat c' = b_session_compat c /\ b_done c' = b_done c.
Proof.
intros Hinv Hring. pose proof (ci_ring_nodup _ Hinv) as Hnd. rewrite Hring in Hnd.
assert (Hk : k ∈ (b_pending c).*1) by (apply (ci_ring _ Hinv); rewrite Hring; left).
apply od_get_keys in Hk as [b Hb]. destruct (ci_bucket _ Hinv _ _ Hb) as [Hne _].
assert (Hw : waiting_at 0 c = Some (k, b)).
{ unfold waiting_at. rewrite Hring. change (Z.to_nat 0) with 0%nat. cbn. rewrite Hb. cbn.
  by destruct b. }
unfold pick_batch. rewrite Hring. cbn [length]. rewrite seqZ_cons by lia. cbn [pick_from].
rewrite (ci_next _ Hinv). rewrite Z.add_0_l, Z.mod_0_l by (rewrite Hring; cbn; lia). rewrite Hw.
eexists b, _. split; [done|]. split; [reflexivity|]. cbn [b_ring b_pending b_next b_session_compat b_done].
rewrite Hring, filter_head by done. repeat split. by destruct (decide (ring = [])).
Qed.

Lemma pick_batch_empty c : collector_inv c -> b_ring c = [] -> pick_batch c = None.
Proof. intros _ H. unfold pick_batch. by rewrite H. Qed.

Lemma pick_inv batch c c' :
collector_inv c -> pick_batch c = Some (batch, c') -> collector_inv c'.
Proof.
intros Hinv H. destruct (b_ring c) as [|k ring] eqn:Hring.
{ by rewrite pick_batch_empty in H. }
destruct (pick_batch_head k ring c Hinv Hring) as (b & c1 & Hb & Hp & Hr & Hpen & Hn & Hsc & Hd).
rewrite Hp in H. injection H as _ <-. destruct Hinv as [Hrn Hnd Hri Hbk Hreq Hnx].
rewrite Hring in Hrn, Hri. pose proof (filter_head _ _ Hrn) as Hf.
split; rewrite ?Hr, ?Hpen, ?Hsc; try done.
- by apply NoDup_cons in Hrn as [_ Hrn].
- by apply od_del_nodup.
- intros k'. rewrite <- Hf, od_del_keys, !list_elem_of_filter, Hri. done.
- intros k' b'. destruct (decide (k' = k)) as [->|Hne]; [by rewrite od_get_del|].
  rewrite od_get_del_ne by done. apply Hbk.
- intros k' b' s q. destruct (decide (k' = k)) as [->|Hne]; [by rewrite od_get_del|].
  rewrite od_get_del_ne by done. by apply Hreq.
Qed.

Lemma forget_inv q c : collector_inv c -> collector_inv (forget_session c q)
/\ b_ring (forget_session c q) = b_ring c
/\ forall t, pending_for t (forget_session c q) = pending_for t c.
Proof.
intros Hinv. unfold forget_session. destruct (pending_for (q_session q) c) eqn:Hp; [by split|].
pose proof (proj2 (absent_pending _ _ Hinv) Hp) as Ha. split; [|split; [done|]].
- destruct Hinv as [Hrn Hnd Hr Hbk Hreq Hn]. split; try done.
  intros k b s q' Hb Hq'. cbn [b_pending b_session_compat] in *.
  destruct (decide (s = q_session q)) as [->|Hne]; [by rewrite (Ha _ _ Hb) in Hq'|].
  rewrite od_get_del_ne by done. by eapply Hreq.
- intros t. unfold pending_for. cbn [b_pending b_session_compat].
  destruct (decide (t = q_session q)) as [->|Hne]; [|by rewrite od_get_del_ne].
  rewrite od_get_del. cbn. by unfold pending_for in Hp.
Qed.

Lemma finish_inv answered batch c :
collector_inv c -> collector_inv (finish_batch answered batch c)
/\ b_ring (finish_batch answered batch c) = b_ring c
/\ forall t, pending_for t (finish_batch answered batch c) = pending_for t c.
Proof.
intros Hinv. unfold finish_batch.
assert (Hgen : forall c1, collector_inv c1 ->
  collector_inv (fold_left forget_session batch c1)
  /\ b_ring (fold_left forget_session batch c1) = b_ring c1
  /\ forall t, pending_for t (fold_left forget_session batch c1) = pending_for t c1).
{ clear. induction batch as [|q batch IH]; intros c1 Hinv; [by split|]. cbn [fold_left].
  destruct (forget_inv q c1 Hinv) as (H1 & H2 & H3). destruct (IH _ H1) as (H4 & H5 & H6).
  split; [done|]. split; [congruence|]. intros t. by rewrite H6. }
destruct (Hgen (set_done answered c) (set_done_inv _ _ Hinv)) as (H1 & H2 & H3). by split.
Qed.

(** ** Sequences of operations *)

Inductive batch_op : Type :=
| Submit (s : Z) (m : manifest) (params : dict) (payload : P) (strength : float) (resolution : Z)
  (profile : bool) (fut : nat)
| Cancel (s : Z) (fut : nat)
| Pick
| Finish (answered : list nat) (batch : list (request P)).

Definition batch_step (o : batch_op) c : collector P * option (list (request P)) :=
match o with
| Submit s m params payload strength resolution profile fut =>
    (match submit s m params payload strength resolution profile fut c with
     | Ok (_, c') => c' | Err _ => c end, None)
| Cancel s fut => (cancel s fut c, None)
| Pick => match pick_batch c with Some (batch, c') => (c', Some batch) | None => (c, None) end
| Finish answered batch => (finish_batch answered batch c, None)
end.

Fixpoint batch_run (ops : list batch_op) c : collector P * list (list (request P)) :=
match ops with
| [] => (c, [])
| o :: ops =>
    let (c1, batch) := batch_step o c in
    let (c2, batches) := batch_run ops c1 in
    (c2, match batch with Some b => b :: batches | None => batches end)
end.

Lemma batch_step_inv o c : collector_inv c -> collector_inv (batch_step o c).1.
Proof.
intros Hinv. destruct o as [s m params payload strength resolution profile fut|s fut| |ans batch];
  cbn [batch_step].
- destruct (submit _ _ _ _ _ _ _ _ c) as [[a c']|] eqn:H; [|done].
  by destruct (submit_spec _ _ _ _ _ _ _ _ _ _ _ Hinv H) as (? & _).
- by destruct (cancel_spec s fut c Hinv) as (? & _).
- destruct (pick_batch c) as [[batch c']|] eqn:H; [|done]. by apply pick_inv in H.
- by destruct (finish_inv ans batch c Hinv) as (? & _).
Qed.
(** ** Turns *)

Lemma filter_position (x k : compat_class) (l : list compat_class) (i : nat) :
k <> x -> l !! i = Some k ->
exists i', (i' <= i)%nat /\ filter (fun k' => k' <> x) l !! i' = Some k.
Proof.
intros Hne. revert i. induction l as [|y l IH]; intros i; [done|]. destruct i as [|i]; cbn.
- intros [= ->]. exists 0%nat. split; [lia|]. by rewrite decide_True.
- intros H. destruct (IH _ H) as (i' & Hle & Hi'). destruct (decide (y <> x)).
  + exists (S i'). split; [lia|done].
  + exists i'. split; [lia|done].
Qed.

Lemma leave_position s q t old i c :
collector_inv c -> pending_for s c = Some q -> t <> s -> b_ring c !! i = Some (q_compat q) ->
exists i', (i' <= i)%nat /\ b_ring (leave_bucket t old c) !! i' = Some (q_compat q).
Proof.
intros Hinv Hp Hne Hi. destruct (pending_for_inv _ _ _ Hinv Hp) as (b & Hb & Hq & _).
destruct (leave_cases t old c _ eq_refl) as [[_ ->]|(b' & Hb' & Hcase & _)]; [by exists i|].
destruct Hcase as [(Hd & _ & ->)|(_ & _ & ->)]; [|by exists i].
apply filter_position; [|done]. intros <-. rewrite Hb in Hb'. injection Hb' as <-.
rewrite <- (od_get_del_ne s t) in Hq by done. by rewrite Hd in Hq.
Qed.

Lemma join_position q k i c :
b_ring c !! i = Some k -> b_ring (join_bucket q c) !! i = Some k.
Proof.
intros H. cbn [join_bucket b_ring]. destruct (decide _); [done|]. by apply lookup_app_l_Some.
Qed.

Lemma submit_position s q t m params payload strength resolution profile fut awaited c c' i :
collector_inv c -> pending_for s c = Some q -> t <> s -> b_ring c !! i = Some (q_compat q) ->
submit t m params payload strength resolution profile fut c = Ok (awaited, c') ->
exists i', (i' <= i)%nat /\ b_ring c' !! i' = Some (q_compat q).
Proof.
intros Hinv Hp Hne Hi H. unfold submit in H. apply bind_ok in H as (k & _ & H).
assert (Hen : forall q', q_session q' = t ->
  exists i', (i' <= i)%nat /\ b_ring (enqueue q' c) !! i' = Some (q_compat q)).
{ intros q' Hq'. unfold enqueue. rewrite Hq'. destruct (od_get t (b_session_compat c)) as [old|].
  - destruct (leave_position s q t old i c Hinv Hp Hne Hi) as (i' & Hle & Hi').
    exists i'. split; [done|]. by apply join_position.
  - exists i. split; [done|]. by apply join_position. }
destruct (pending_for t c) as [q0|] eqn:Hp0; [|injection H as _ <-; by apply Hen].
destruct (pending_for_inv _ _ _ Hinv Hp0) as (b & _ & _ & Hs0).
destruct (is_done _ _); [injection H as _ <-; by apply Hen|].
destruct (decide (q_compat q0 = k)); injection H as _ <-.
- exists i. split; [done|]. unfold replace_request. by destruct (od_get _ _).
- unfold rebucket. cbn [q_session]. rewrite Hs0.
  destruct (leave_position s q t (q_compat q0) i c Hinv Hp Hne Hi) as (i' & Hle & Hi').
  exists i'. split; [done|]. by apply join_position.
Qed.

Definition is_pick (o : batch_op) : bool := match o with Pick => true | _ => false end.
Definition submits (s : Z) (o : batch_op) : bool :=
match o with Submit t _ _ _ _ _ _ _ => t =? s | _ => false end.

Lemma served_from i ops c s q :
collector_inv c -> pending_for s c = Some q -> b_ring c !! i = Some (q_compat q) ->
forallb (fun o => negb (submits s o)) ops = true ->
(i < length (List.filter is_pick ops))%nat ->
exists batch q', batch ∈ (batch_run ops c).2 /\ q' ∈ batch /\ q_session q' = s.
Proof.
revert i c q. induction ops as [|o ops IH]; intros i c q Hinv Hp Hi Hno Hcount;
  [cbn in Hcount; lia|].
cbn [forallb] in Hno. apply andb_true_iff in Hno as [Ho Hno].
pose proof (batch_step_inv o c Hinv) as Hinv1. cbn [batch_run].
destruct (batch_step o c) as [c1 batch] eqn:Hs. cbn [fst] in Hinv1.
assert (Hrest : forall i' q', pending_for s c1 = Some q' -> b_ring c1 !! i' = Some (q_compat q') ->
          (i' < length (List.filter is_pick ops))%nat ->
          exists b q', b ∈ (let (c2, batches) := batch_run ops c1 in
                            (c2, match batch with Some b => b :: batches | None => batches end)).2
                       /\ q' ∈ b /\ q_session q' = s).
{ intros i' q' Hp' Hi' Hc'. destruct (IH i' c1 q' Hinv1 Hp' Hi' Hno Hc') as (b & q2 & Hb & Hq2 & Hs2).
  destruct (batch_run ops c1) as [c2 batches]. exists b, q2. cbn [snd] in *.
  destruct batch; [|done]. split; [by right|done]. }
destruct o as [t m params payload strength resolution profile fut|t fut| |ans bt]; cbn [batch_step] in Hs;
  cbn [List.filter is_pick] in Hcount.
- cbn [submits] in Ho. apply negb_true_iff, Z.eqb_neq in Ho.
  destruct (submit t m params payload strength resolution profile fut c) as [[a c']|] eqn:Hsub;
    injection Hs as <- <-; [|by eapply Hrest].
  destruct (submit_position _ _ _ _ _ _ _ _ _ _ _ _ _ _ Hinv Hp Ho Hi Hsub) as (i' & Hle & Hi').
  destruct (submit_spec _ _ _ _ _ _ _ _ _ _ _ Hinv Hsub) as (_ & _ & q1 & _ & _ & _ & _ & _ & _ & _ & _ & Hpend & _).
  apply (Hrest i' q); [|done|lia]. rewrite Hpend, decide_False by congruence. done.
- injection Hs as <- <-. destruct (cancel_spec t fut c Hinv) as (_ & Hr & Hpend).
  destruct (Hpend _ _ Hp) as (q' & Hp' & Hk). apply (Hrest i q'); [done| |done]. by rewrite Hr, Hk.
- destruct (b_ring c) as [|k ring] eqn:Hring; [done|].
  destruct (pick_batch_head k ring c Hinv Hring) as (b & c2 & Hb & Hpick & Hr & Hpen & Hn & Hsc & Hd).
  rewrite Hpick in Hs. injection Hs as <- <-.
  destruct (pending_for_inv _ _ _ Hinv Hp) as (b0 & Hb0 & Hq0 & Hs0).
  destruct i as [|i].
  + cbn in Hi. injection Hi as ->. rewrite Hb in Hb0. injection Hb0 as <-.
    exists (b.*2), q. split; [destruct (batch_run ops c2); by left|]. split; [|done].
    apply od_get_elem in Hq0. by apply (list_elem_of_fmap_2 snd) in Hq0.
  + cbn in Hi. cbn [length] in Hcount. apply (Hrest i q); [|by rewrite Hr|lia].
    unfold pending_for. rewrite Hsc, Hpen.
    assert (Hne : q_compat q <> k).
    { pose proof (ci_ring_nodup _ Hinv) as Hnd. rewrite Hring in Hnd.
      apply NoDup_cons in Hnd as [Hnk _]. intros Heq. apply Hnk. rewrite <- Heq.
      by eapply list_elem_of_lookup_2. }
    destruct (ci_request _ Hinv _ _ _ _ Hb0 Hq0) as (_ & _ & Hsk). rewrite Hsk. cbn.
    rewrite od_get_del_ne by done. rewrite Hb0. exact Hq0.
- injection Hs as <- <-. destruct (finish_inv ans bt c Hinv) as (_ & Hr & Hpend).
  apply (Hrest i q); [by rewrite Hpend|by rewrite Hr|done].
Qed.

Lemma batch_run_inv ops c : collector_inv c -> collector_inv (batch_run ops c).1.
Proof.
revert c. induction ops as [|o ops IH]; intros c Hinv; [done|]. cbn [batch_run].
pose proof (batch_step_inv o c Hinv) as H1. destruct (batch_step o c) as [c1 batch]. cbn [fst] in H1.
specialize (IH c1 H1). by destruct (batch_run ops c1).
Qed.
End Spec.
Arguments batch_op : clear implicits.

(** C36 No class starves: a frame that waits in the class at place [i] of the
    ring is in one of the next [i + 1] batches, whatever other sessions submit,
    cancel or switch class in between and however often the classes ahead of
    it are refilled. *)
Theorem waiting_frame_served {P} (before ops : list (batch_op P)) s q i :
  let c := (batch_run before new_collector).1 in
  pending_for s c = Some q -> b_ring c !! i = Some (q_compat q) ->
  forallb (fun o => negb (submits s o)) ops = true ->
  (i < length (List.filter is_pick ops))%nat ->
  exists batch q', batch ∈ (batch_run ops c).2 /\ q' ∈ batch /\ q_session q' = s.
Proof. intros c. apply served_from. apply batch_run_inv, inv_new. Qed.

(** The newest frame of a session replaces the one that waits: after a
    submission the session has one waiting frame, of its newest canvas,
    parameters and compatibility class; the caller awaits the future of the
    frame that already waited, if that is not done, and a new one otherwise;
    no other session's frame moves. *)
Theorem submit_coalesces {P} (before : list (batch_op P)) s m params payload strength resolution
    profile fut awaited c' :
  let c := (batch_run before new_collector).1 in
  submit s m params payload strength resolution profile fut c = Ok (awaited, c') ->
  exists q, pending_for s c' = Some q
    /\ q_session q = s /\ q_params q = params /\ q_payload q = payload /\ q_future q = awaited
    /\ compat_key m params resolution = Ok (q_compat q) /\ q_compat q ∈ b_ring c'
    /\ awaited = match pending_for s c with
                 | Some q0 => if is_done (q_future q0) c then fut else q_future q0
                 | None => fut
                 end
    /\ forall t, t <> s -> pending_for t c' = pending_for t c.
Proof.
  intros c H. assert (Hinv : collector_inv c) by apply batch_run_inv, inv_new. clearbody c.
  destruct (submit_spec _ _ _ _ _ _ _ _ _ _ _ Hinv H)
    as (Hinv' & _ & q & Hs & _ & Hpa & Hpl & _ & _ & Hf & Hk & Hpend & Haw).
  assert (Hq : pending_for s c' = Some q) by (by rewrite Hpend, decide_True).
  exists q. split; [done|]. repeat (split; [done|]). split; [|split; [done|]].
  - destruct (pending_for_inv _ _ _ Hinv' Hq) as (b & Hb & _). apply (ci_ring _ Hinv'), od_get_keys. eauto.
  - intros t Ht. by rewrite Hpend, decide_False.
Qed.

(** A batch is one class and no session twice: everything a pick serves has
    one model, step count and resolution, its sessions are distinct and no
    longer wait, and a session that is not in the batch keeps its frame. *)
Theorem batch_homogeneous {P} (before : list (batch_op P)) batch c' :
  let c := (batch_run before new_collector).1 in
  pick_batch c = Some (batch, c') ->
  batch <> []
  /\ (exists k, Forall (fun q => q_compat q = k) batch)
  /\ NoDup (map q_session batch)
  /\ (forall q, q ∈ batch -> pending_for (q_session q) c = Some q
                            /\ pending_for (q_session q) c' = None)
  /\ (forall t, t ∉ map q_session batch -> pending_for t c' = pending_for t c).
Proof.
  intros c H. assert (Hinv : collector_inv c) by apply batch_run_inv, inv_new. clearbody c.
  destruct (b_ring c) as [|k ring] eqn:Hring; [by rewrite pick_batch_empty in H|].
  destruct (pick_batch_head k ring c Hinv Hring) as (b & c1 & Hb & Hp & _ & Hpen & _ & Hsc & _).
  rewrite Hp in H. injection H as <- <-. destruct (ci_bucket _ Hinv _ _ Hb) as [Hne Hnd].
  assert (Hmem : forall q, q ∈ b.*2 -> od_get (q_session q) b = Some q /\ q_compat q = k
                                      /\ od_get (q_session q) (b_session_compat c) = Some k).
  { intros q Hq. apply list_elem_of_fmap in Hq as ([s q'] & -> & Hq). apply od_elem_get in Hq; [|done].
    destruct (ci_request _ Hinv _ _ _ _ Hb Hq) as (Hs & Hk & Hsk). cbn [snd]. by rewrite Hs. }
  assert (Hkeys : map q_session b.*2 = b.*1).
  { clear -Hmem Hinv Hb Hnd. assert (Hall : forall x, x ∈ b -> q_session x.2 = x.1).
    { intros [s q] Hx. apply od_elem_get in Hx; [|done]. by apply (ci_request _ Hinv _ _ _ _ Hb) in Hx as (? & _). }
    clear -Hall. induction b as [|x b IH]; [done|]. cbn. f_equal; [apply Hall; left|].
    apply IH. intros y Hy. apply Hall. by right. }
  split; [by destruct b|]. split; [|split; [by rewrite Hkeys|split]].
  - exists k. apply Forall_forall. intros q Hq. by apply Hmem.
  - intros q Hq. destruct (Hmem q Hq) as (Hg & Hk & Hs). unfold pending_for. rewrite Hsc, Hpen, Hs. cbn.
    rewrite Hb, od_get_del. by split.
  - intros t Ht. rewrite Hkeys in Ht. unfold pending_for. rewrite Hsc, Hpen.
    destruct (od_get t (b_session_compat c)) as [k'|]; [|done]. cbn.
    destruct (decide (k' = k)) as [->|Hk]; [|by rewrite od_get_del_ne].
    rewrite od_get_del, Hb. cbn. destruct (od_get t b) eqn:E; [|done].
    destruct Ht. apply od_get_keys. eauto.
Qed.

(** ** Witnesses *)

Definition drawn (id : string) (steps : Z) : manifest :=
  {| m_id := id; m_capabilities := ["realtime"];
     m_parameters := [("properties", JDict [("steps", JDict [("default", JInt steps)])])];
     m_default := false; m_benchmark_only := false; m_references := []; m_min_vram_gb := 8;
     m_model_offload_vram_gb := None; m_fields := [] |}.

Definition half : float := float_of_ratio false 1 2.

Definition two_classes : list (batch_op string) :=
  [Submit 1 (drawn "a" 2) [] "frame 1" half 512 false 1;
   Submit 2 (drawn "b" 4) [] "frame 2" half 512 false 2;
   Submit 3 (drawn "a" 2) [("steps", JStr "2")] "frame 3" half 512 false 3].
Definition refilled : list (batch_op string) :=
  [Pick; Submit 1 (drawn "a" 2) [] "frame 4" half 512 false 4; Pick].

Lemma waiting_frame_served_witness :
  exists batch q', batch ∈ (batch_run refilled (batch_run two_classes new_collector).1).2
                   /\ q' ∈ batch /\ q_session q' = 2.
Proof.
  destruct (pending_for 2 (batch_run two_classes new_collector).1) as [q|] eqn:Hq;
    [|vm_compute in Hq; discriminate].
  apply (waiting_frame_served two_classes refilled 2 q 1 Hq).
  - vm_compute in Hq. injection Hq as <-. vm_compute. reflexivity.
  - vm_compute. reflexivity.
  - vm_compute. lia.
Defined.

Lemma submit_coalesces_witness :
  exists c' q,
    submit 2 (drawn "a" 2) [] "frame 5" half 512 false 5 (batch_run two_classes new_collector).1
      = Ok (2%nat, c')
    /\ pending_for 2 c' = Some q /\ q_payload q = "frame 5" /\ b_ring c' = [q_compat q].
Proof.
  destruct (submit 2 (drawn "a" 2) [] "frame 5" half 512 false 5 (batch_run two_classes new_collector).1)
    as [[awaited c']|] eqn:H; [|vm_compute in H; discriminate].
  destruct (submit_coalesces two_classes 2 (drawn "a" 2) [] "frame 5" half 512 false 5 awaited c' H)
    as (q & Hq & _ & _ & Hpl & _ & Hk & _).
  assert (Hclass : @Ok exn _ (q_compat q) = Ok {| k_model := "a"; k_steps := 2; k_resolution := 512 |})
    by (rewrite <- Hk; vm_compute; reflexivity).
  injection Hclass as Hclass. exists c', q. rewrite Hclass. vm_compute in H. injection H as <- <-. split; [reflexivity|].
  split; [exact Hq|]. split; [exact Hpl|reflexivity].
Defined.

Lemma batch_homogeneous_witness :
  exists batch c', pick_batch (batch_run two_classes new_collector).1 = Some (batch, c')
    /\ map q_session batch = [1; 3] /\ NoDup (map q_session batch).
Proof.
  destruct (pick_batch (batch_run two_classes new_collector).1) as [[batch c']|] eqn:H;
    [|vm_compute in H; discriminate].
  exists batch, c'. split; [done|].
  destruct (batch_homogeneous two_classes batch c' H) as (_ & _ & Hnd & _).
  split; [vm_compute in H; injection H as <- _; reflexivity|exact Hnd].
Defined.

(** ** Time *)

(** The cycle is split, never multiplied: the shares of a batch add up to at
    most the cycle, and lose less than one millisecond per session. *)
Theorem occupancy_shares cycle_ms batch_size :
  0 <= cycle_ms -> 1 <= batch_size ->
  0 <= batch_size * occupancy_share_ms cycle_ms batch_size <= cycle_ms
  /\ cycle_ms - batch_size < batch_size * occupancy_share_ms cycle_ms batch_size.
Proof.
  intros Hc Hn. unfold occupancy_share_ms. destruct (batch_size <=? 1) eqn:E; [nia|].
  pose proof (Z.mul_div_le cycle_ms batch_size ltac:(lia)).
  pose proof (Z.mul_succ_div_gt cycle_ms batch_size ltac:(lia)).
  pose proof (Z.div_pos cycle_ms batch_size Hc ltac:(lia)). nia.
Qed.

Lemma occupancy_shares_witness : 0 <= 3 * occupancy_share_ms 100 3 <= 100.
Proof. apply (occupancy_shares 100 3); lia. Defined.
