(* ===== verification/MemoryLadder.v ===== *)
(** * The memory ladder and the realtime slots

    Models worker/worker/memory_ladder.py: the rung a model is loaded at, what
    it may then advertise, and how many realtime sessions a measured frame
    time allows. *)

From S2P Require Import Prelude PyFloat Hashes Json Protocol6Facts Manifests.
From Stdlib Require Import SpecFloat.
Open Scope Z_scope.

Definition GB : Z := 1024 ^ 3.

(** [auto] and the three rungs, as the mode an operator may pin. *)
Inductive memory_rung : Type := full | model_offload | group_offload.
Inductive memory_mode : Type := auto | pinned (r : memory_rung).

Global Instance memory_rung_eq_dec : EqDecision memory_rung.
Proof. solve_decision. Defined.

(** 0.55 *)
Definition LARGEST_COMPONENT_FRACTION : float := float_of_ratio false 55 100.
Definition GROUP_OFFLOAD_GB : Z := 2.

Definition full_residency_bytes (min_vram_gb : Z) : Z := min_vram_gb * GB.

(** [int(n * x)]: the integer is rounded to a double, then the product is. *)
Definition scaled (n : Z) (x : float) : Z :=
  match float_of_Z n with
  | Some f => default 0 (int_of_float (SFmul float_prec float_emax f x))
  | None => 0
  end.

Definition model_offload_bytes (min_vram_gb : Z) (model_offload_vram_gb : option Z) : Z :=
  match model_offload_vram_gb with
  | Some gb => gb * GB
  | None => Z.max (scaled (min_vram_gb * GB) LARGEST_COMPONENT_FRACTION) (GROUP_OFFLOAD_GB * GB)
  end.

Definition group_offload_bytes : Z := GROUP_OFFLOAD_GB * GB.

Definition select_rung (min_vram_gb free_bytes : Z) (mode : memory_mode) (on_cpu : bool)
    (model_offload_vram_gb : option Z) : memory_rung :=
  if on_cpu then full
  else match mode with
       | pinned r => r
       | auto =>
           if full_residency_bytes min_vram_gb <=? free_bytes then full
           else if model_offload_bytes min_vram_gb model_offload_vram_gb <=? free_bytes
           then model_offload
           else group_offload
       end.

Definition capabilities_for_rung (capabilities : list string) (rung : memory_rung) : list string :=
  match rung with
  | full => capabilities
  | _ => filter (fun cap => cap <> "realtime") capabilities
  end.

Definition measured_wire_manifest (m : manifest) (rung : memory_rung) : dict :=
  set_key "capabilities" (JList (map JStr (capabilities_for_rung (m_capabilities m) rung))) (wire m).

Definition measured_wire_manifests (ms : list manifest) (free_bytes : Z) (mode : memory_mode)
    (on_cpu : bool) : list dict :=
  map (fun m => measured_wire_manifest m
         (select_rung (m_min_vram_gb m) free_bytes mode on_cpu (m_model_offload_vram_gb m))) ms.

(** ["realtime" in manifest["capabilities"]], of a list. *)
Definition advertises_realtime (w : dict) : bool :=
  match get w "capabilities" with
  | JList caps => bool_decide (JStr "realtime" ∈ caps)
  | _ => false
  end.

Definition effective_realtime_slots (wires : list dict) (configured : Z) : Z :=
  if configured <=? 0 then 0
  else if existsb advertises_realtime wires then configured else 0.

(** A positive double as an exact ratio, and the order of two. *)
Definition ratio : Type := positive * positive.
(** 500.0 *)
Definition REALTIME_BAR_MS : ratio := (500%positive, 1%positive).
Definition ratio_lt (a b : ratio) : bool := Zpos a.1 * Zpos b.2 <? Zpos b.1 * Zpos a.2.

(** [int(a // b)] of positive doubles is the floor of their quotient.  (Python
    rounds a quotient above [2 ** 53] to a double; the slots are the minimum
    of the quotient and a count of slots.) *)
Definition floor_quotient (a b : ratio) : Z := (Zpos a.1 * Zpos b.2) / (Zpos a.2 * Zpos b.1).

(** [bar_ms] is positive.  The floor of a NaN raises. *)
Definition slots_from_frame_ms (p95_ms : float) (configured : Z) (bar_ms : ratio) : result exn Z :=
  if (configured <=? 0) || float_le_Z p95_ms 0 then Ok 0
  else match p95_ms with
       | S754_finite _ m e =>
           let p95 := exact_ratio m e in
           if ratio_lt bar_ms p95 then Ok 0
           else Ok (Z.min configured (Z.max 1 (floor_quotient bar_ms p95)))
       | S754_nan => Err (ValueError "cannot convert float NaN to integer")
       | _ => Ok 0
       end.

(** [index] frames were accepted before the rest of the curve. *)
Fixpoint batch_slots (index : Z) (curve : list Z) (configured : Z) (bar_ms : ratio) : Z :=
  match curve with
  | [] => index
  | p95 :: curve =>
      if (configured <? index + 1) || (p95 <=? 0) || ratio_lt bar_ms (Z.to_pos p95, 1%positive) then index
      else batch_slots (index + 1) curve configured bar_ms
  end.
Definition slots_from_batch_curve (curve : list Z) (configured : Z) (bar_ms : ratio) : Z :=
  if (configured <=? 0) || bool_decide (curve = []) then 0 else batch_slots 0 curve configured bar_ms.

Definition rung_vram_bytes (min_vram_gb : Z) (rung : memory_rung) (model_offload_vram_gb : option Z) : Z :=
  match rung with
  | full => full_residency_bytes min_vram_gb
  | model_offload => model_offload_bytes min_vram_gb model_offload_vram_gb
  | group_offload => group_offload_bytes
  end.

(** The size Python computes for an 8 GiB model. *)
Example offload_of_8_gb : model_offload_bytes 8 None = 4724464025.
Proof. vm_compute. reflexivity. Qed.

(** ** The rung *)

Definition height (r : memory_rung) : Z :=
  match r with full => 2 | model_offload => 1 | group_offload => 0 end.

(** The ladder picks the highest rung that fits: unpinned, on a GPU, a rung
    above group offload fits the free memory by its own estimate, no higher
    rung does, and more free memory never gives a lower rung; a pinned rung is
    the one used, and on a CPU everything is resident. *)
Theorem highest_rung_that_fits min_vram_gb free mode offload_gb :
  (forall mode, select_rung min_vram_gb free mode true offload_gb = full)
  /\ (forall r, select_rung min_vram_gb free (pinned r) false offload_gb = r)
  /\ (let r := select_rung min_vram_gb free auto false offload_gb in
      (r <> group_offload -> rung_vram_bytes min_vram_gb r offload_gb <= free)
      /\ (forall r', height r < height r' -> free < rung_vram_bytes min_vram_gb r' offload_gb))
  /\ (forall free', free <= free' ->
        height (select_rung min_vram_gb free mode false offload_gb)
        <= height (select_rung min_vram_gb free' mode false offload_gb)).
Proof.
  split; [done|]. split; [done|]. unfold select_rung. split.
  - destruct (full_residency_bytes min_vram_gb <=? free) eqn:Hf;
      [|destruct (model_offload_bytes min_vram_gb offload_gb <=? free) eqn:Hm]; cbn; (split; [intros Hr|intros r' Hr']);
      try (by apply Z.leb_le); try done; destruct r'; cbn in *; try lia; by apply Z.leb_gt.
  - intros free' Hle. destruct mode as [|r]; [|done].
    destruct (Z.leb_spec (full_residency_bytes min_vram_gb) free),
      (Z.leb_spec (full_residency_bytes min_vram_gb) free'),
      (Z.leb_spec (model_offload_bytes min_vram_gb offload_gb) free),
      (Z.leb_spec (model_offload_bytes min_vram_gb offload_gb) free'); cbn; lia.
Qed.

(** Only full residency is realtime: a manifest's wire form advertises
    realtime exactly when the manifest has the capability and its rung is full
    residency; every other capability is kept, and the worker's own fields do
    not cross the wire. *)
Theorem realtime_only_when_resident m rung :
  (advertises_realtime (measured_wire_manifest m rung) = true
     <-> "realtime" ∈ m_capabilities m /\ rung = full)
  /\ (exists caps, get (measured_wire_manifest m rung) "capabilities" = JList (map JStr caps)
        /\ forall cap, cap <> "realtime" -> cap ∈ caps <-> cap ∈ m_capabilities m)
  /\ (forall k, k ∈ WORKER_SIDE -> lookup_key k (measured_wire_manifest m rung) = None).
Proof.
  assert (Hget : get (measured_wire_manifest m rung) "capabilities"
                 = JList (map JStr (capabilities_for_rung (m_capabilities m) rung))).
  { unfold get, measured_wire_manifest. by rewrite lookup_set_key. }
  assert (Hin : forall cap (l : list string), JStr cap ∈ map JStr l <-> cap ∈ l).
  { intros cap l. change (map JStr l) with (JStr <$> l). rewrite list_elem_of_fmap.
    split; [by intros (? & [= ->] & ?)|by exists cap]. }
  split; [|split].
  - unfold advertises_realtime. rewrite Hget, bool_decide_eq_true, Hin.
    destruct rung; cbn [capabilities_for_rung]; rewrite ?list_elem_of_filter; naive_solver.
  - eexists. split; [exact Hget|]. intros cap Hne.
    destruct rung; cbn [capabilities_for_rung]; rewrite ?list_elem_of_filter; naive_solver.
  - intros k Hk. unfold measured_wire_manifest. rewrite lookup_set_key_ne.
    + unfold wire. apply lookup_key_none. unfold keys. intros Hk'.
      apply list_elem_of_fmap in Hk' as (kv & -> & Hkv). by apply list_elem_of_filter in Hkv as [? _].
    + intros ->. apply is_in_spec in Hk. vm_compute in Hk. discriminate.
Qed.

(** ** The slots *)

(** The slots meet the bar: the sessions allowed by a measured frame time
    are at most those configured, and taking their frames one after another
    takes no longer than the bar; one more session would not fit, unless the
    configured count is reached.  With a batch curve, every measured batch
    size up to the slots is within the bar. *)
Theorem slots_meet_bar s m e configured bar :
  let p95 := exact_ratio m e in
  (forall n, slots_from_frame_ms (S754_finite s m e) configured bar = Ok n ->
     0 <= n <= Z.max 0 configured
     /\ n * (Zpos p95.1 * Zpos bar.2) <= Zpos bar.1 * Zpos p95.2
     /\ (n = 0 \/ n = configured \/ Zpos bar.1 * Zpos p95.2 < (n + 1) * (Zpos p95.1 * Zpos bar.2)))
  /\ (forall curve, let n := slots_from_batch_curve curve configured bar in
       0 <= n <= Z.max 0 configured /\ n <= Z.of_nat (length curve)
       /\ Forall (fun ms => 0 < ms /\ ms * Zpos bar.2 <= Zpos bar.1) (take (Z.to_nat n) curve)).
Proof.
  intros p95. split.
  - intros n. unfold slots_from_frame_ms. fold p95.
    destruct (_ || _) eqn:Hz; [intros [= <-]; nia|]. apply orb_false_iff in Hz as [Hc _].
    unfold ratio_lt. destruct (_ <? _) eqn:Hlt; intros [= <-]; [nia|].
    apply Z.ltb_ge in Hlt. apply Z.leb_gt in Hc.
    assert (Hq : 1 <= floor_quotient bar p95) by (apply Z.div_le_lower_bound; nia).
    assert (Hle : floor_quotient bar p95 * (Zpos p95.1 * Zpos bar.2) <= Zpos bar.1 * Zpos p95.2).
    { unfold floor_quotient. pose proof (Z.mul_div_le (Zpos bar.1 * Zpos p95.2) (Zpos bar.2 * Zpos p95.1)).
      nia. }
    assert (Hgt : Zpos bar.1 * Zpos p95.2 < (floor_quotient bar p95 + 1) * (Zpos p95.1 * Zpos bar.2)).
    { unfold floor_quotient.
      pose proof (Z.mul_succ_div_gt (Zpos bar.1 * Zpos p95.2) (Zpos bar.2 * Zpos p95.1)). nia. }
    rewrite Z.max_r by done. split; [lia|]. split; [nia|].
    destruct (Z.le_gt_cases configured (floor_quotient bar p95)); [right; left; lia|].
    right; right. by rewrite Z.min_r by lia.
  - intros curve. unfold slots_from_batch_curve.
    assert (Hgen : forall curve index, 0 <= index <= configured ->
      let n := batch_slots index curve configured bar in
      index <= n <= configured /\ n - index <= Z.of_nat (length curve)
      /\ Forall (fun ms => 0 < ms /\ ms * Zpos bar.2 <= Zpos bar.1) (take (Z.to_nat (n - index)) curve)).
    { clear curve. induction curve as [|ms curve IH]; intros index Hi; cbn [batch_slots].
      - cbv zeta. rewrite Z.sub_diag. cbn. split; [lia|]. split; [lia|constructor].
      - destruct (_ || _) eqn:Hstop; cbv zeta.
        + rewrite Z.sub_diag. cbn. split; [lia|]. split; [lia|constructor].
        + apply orb_false_iff in Hstop as [Hstop Hbar]. apply orb_false_iff in Hstop as [Hc Hpos].
          destruct (IH (index + 1) ltac:(lia)) as (H1 & H2 & H3).
          split; [lia|]. split; [cbn [length]; lia|].
          replace (Z.to_nat (batch_slots (index + 1) curve configured bar - index))
            with (S (Z.to_nat (batch_slots (index + 1) curve configured bar - (index + 1)))) by lia.
          cbn [take]. constructor; [|done]. apply Z.leb_gt in Hpos. split; [done|].
          unfold ratio_lt in Hbar. cbn [fst snd] in Hbar. rewrite Z2Pos.id in Hbar by done. lia. }
    destruct (_ || _) eqn:Hz; [cbn; split; [lia|split; [lia|constructor]]|].
    apply orb_false_iff in Hz as [Hc _]. destruct (Hgen curve 0 ltac:(lia)) as (H1 & H2 & H3).
    rewrite Z.sub_0_r in *. split; [lia|]. by split.
Qed.
