(* ===== verification/KeyRing.v ===== *)
(** * The versioned root key ring

    Models src/backend/app/keyring.py.  Bytes are lists of integers below 256,
    a text is its UTF-8 bytes.  HKDF and AES-GCM come from a package the code
    calls, so they are parameters with the laws the code relies on. *)

From S2P Require Import Prelude PyFloat Hashes Json Protocol6 Uuid PyInt Encodings.
Open Scope Z_scope.

Definition APPLICATION : string := "potocolom root key ring v1".
Definition KEY_BYTES : nat := 32.
Definition VERSION_BYTES : nat := 2.
Definition NONCE_BYTES : nat := 12.
Definition TAG_BYTES : nat := 16.
Definition MAX_VERSION : Z := 32767.

Definition key_bytes : Type := list Z.
Definition entry : Type := Z * key_bytes.

(** [struct.pack] of an unsigned integer of [n] bytes, big endian. *)
Definition pack (n : nat) (z : Z) : result exn (list Z) :=
  if (0 <=? z) && (z <? 256 ^ Z.of_nat n) then Ok (be_bytes n z)
  else Err (StructError "argument out of range").

Definition associated_data (purpose : string) (aad : list Z) : result exn (list Z) :=
  let name := bytes_of_string purpose in
  size ← pack 4 (Z.of_nat (length name)); Ok (size ++ name ++ aad).

(** ** Reading the setting *)

(** [text.partition(":")]; [None] without a separator. *)
Fixpoint partition_colon (s : string) : option (string * string) :=
  match s with
  | String.EmptyString => None
  | String.String c s =>
      if byte_val c =? 58 then Some ("", s)
      else match partition_colon s with
           | Some (before, after) => Some (String.String c before, after)
           | None => None
           end
  end.

Definition version_in_range (version : Z) : bool := (1 <=? version) && (version <=? MAX_VERSION).

(** One round of the loop, given the entries so far in the order read;
    [seen] and [seen_keys] are their versions and keys. *)
Definition read_entry (entries : list entry) (item : string) : result exn (list entry) :=
  match partition_colon (strip_text item) with
  | None => Err (KeyRingError "root key entry must be version:base64key")
  | Some (version_text, key_text) =>
      match int_of_text version_text with
      | Err e => if is_value_error e then Err (KeyRingError "root key version must be an integer")
                 else Err e
      | Ok version =>
          _ ← require (version_in_range version) (KeyRingError "root key version must be between 1 and 32767");
          _ ← refuse_if (bool_decide (version ∈ entries.*1)) (KeyRingError "root key versions must be unique");
          match b64decode key_text with
          | Err e => if is_value_error e then Err (KeyRingError "root key must be base64") else Err e
          | Ok key =>
              _ ← require (Nat.eqb (length key) KEY_BYTES) (KeyRingError "root key must decode to 32 bytes");
              _ ← refuse_if (bool_decide (key ∈ entries.*2)) (KeyRingError "root keys must be distinct");
              _ ← refuse_if (match last entries with Some (newest, _) => newest <? version | None => false end)
                    (KeyRingError "root keys must be listed newest version first");
              Ok (entries ++ [(version, key)])
          end
      end
  end.

Fixpoint read_entries (items : list string) (entries : list entry) : result exn (list entry) :=
  match items with
  | [] => Ok entries
  | item :: items => entries ← read_entry entries item; read_entries items entries
  end.

Definition parse_root_keys (raw : string) : result exn (list entry) :=
  read_entries (split_comma raw) [].

(** ** The ring *)

Record key_ring := { roots : gmap Z key_bytes; active : Z }.

Definition check_entry (e : entry) : result exn unit :=
  _ ← require (version_in_range e.1) (KeyRingError "root key version must be between 1 and 32767");
  require (Nat.eqb (length e.2) KEY_BYTES) (KeyRingError "root key must be 32 bytes").

(** [KeyRing.__init__] *)
Definition new_ring (entries : list entry) : result exn key_ring :=
  match entries with
  | [] => Err (KeyRingError "a key ring needs at least one root key")
  | (first, _) :: _ =>
      _ ← each check_entry entries;
      _ ← require (bool_decide (NoDup entries.*1)) (KeyRingError "root key versions must be unique");
      _ ← require (bool_decide (NoDup entries.*2)) (KeyRingError "root keys must be distinct");
      Ok {| roots := list_to_map entries; active := first |}
  end.

Definition active_version (r : key_ring) : Z := active r.
Definition versions (r : key_ring) : gset Z := dom (roots r).

(** [get_key_ring], given the setting. *)
Definition get_key_ring (root_keys : string) : result exn key_ring :=
  entries ← parse_root_keys root_keys; new_ring entries.

Definition root (r : key_ring) (version : option Z) : result exn key_bytes :=
  match roots r !! default (active r) version with
  | Some k => Ok k
  | None => Err (KeyRingError "root key version is not in the ring")
  end.

(** The functions of the cryptography package: HKDF with SHA-256, no salt and
    32 bytes of output, of an info string; AES-GCM encryption, which may refuse
    its input, and decryption, [None] for [InvalidTag]. *)
Class CryptoOps := {
  hkdf : list Z -> key_bytes -> key_bytes;
  seal : key_bytes -> list Z -> list Z -> list Z -> result exn (list Z);
  unseal : key_bytes -> list Z -> list Z -> list Z -> option (list Z)
}.

(** What is documented of them: decryption with the same key, nonce and
    associated data returns the plaintext, a ciphertext carries a tag of
    sixteen bytes, and HKDF returns as many bytes as asked for. *)
Class CryptoLaws `{CryptoOps} : Prop := {
  unseal_seal key nonce plaintext ad c :
    seal key nonce plaintext ad = Ok c -> unseal key nonce c ad = Some plaintext;
  length_seal key nonce plaintext ad c :
    seal key nonce plaintext ad = Ok c -> length c = (length plaintext + TAG_BYTES)%nat;
  length_hkdf info k : length (hkdf info k) = KEY_BYTES
}.

Section Ring.
Context `{CryptoOps}.

Definition derive (r : key_ring) (purpose : string) (version : option Z) : result exn key_bytes :=
k ← root r version; Ok (hkdf (bytes_of_string (APPLICATION +:+ "|" +:+ purpose)) k).

(** [os.urandom(12)] is the argument [nonce]. *)
Definition encrypt (r : key_ring) (nonce : list Z) (purpose : string) (plaintext aad : list Z)
: result exn (list Z) :=
key ← derive r purpose None;
ad ← associated_data purpose aad;
ciphertext ← seal key nonce plaintext ad;
prefix ← pack VERSION_BYTES (active r);
Ok (prefix ++ nonce ++ ciphertext).

Definition version_of (blob : list Z) : result exn Z :=
if Nat.ltb (length blob) (VERSION_BYTES + NONCE_BYTES + TAG_BYTES)
then Err (KeyRingError "blob is too short to hold a version, a nonce and a tag")
else Ok (be_val (take VERSION_BYTES blob)).

Definition decrypt (r : key_ring) (purpose : string) (blob aad : list Z) : result exn (list Z) :=
version ← version_of blob;
key ← derive r purpose (Some version);
let nonce := take NONCE_BYTES (drop VERSION_BYTES blob) in
ad ← associated_data purpose aad;
match unseal key nonce (drop (VERSION_BYTES + NONCE_BYTES) blob) ad with
| Some plaintext => Ok plaintext
| None => Err (KeyRingError "blob does not verify under this purpose, aad and version")
end.

Definition reencrypt (r : key_ring) (nonce : list Z) (purpose : string) (blob aad : list Z)
: result exn (list Z) :=
plaintext ← decrypt r purpose blob aad; encrypt r nonce purpose plaintext aad.

End Ring.
