(* ===== verification/KeyRingSpec.v ===== *)
(** * What the key ring promises

    A setting that parses gives a sound ring whose write key is the newest;
    values survive the rotation of the ring; associated data binds its purpose
    and its context. *)

From S2P Require Import Prelude PyFloat Hashes Json Protocol6 Uuid PyInt Encodings KeyRing.
Open Scope Z_scope.

(** ** Big endian integers *)

Lemma be_bytes_digits n z : be_bytes n z = digits 8 n z.
Proof.
  induction n as [|n IH]; [done|]. cbn [be_bytes digits]. rewrite IH. f_equal.
  rewrite (Z.land_ones _ 8) by lia. by rewrite Z.shiftr_div_pow2 by lia.
Qed.

Lemma be_val_be_bytes n z : 0 <= z < 256 ^ Z.of_nat n -> be_val (be_bytes n z) = z.
Proof.
  intros Hz. change (be_val (be_bytes n z)) with (undigits 8 (be_bytes n z)).
  rewrite be_bytes_digits, undigits_digits by lia. apply Z.mod_small.
  rewrite Z.pow_mul_r by lia. exact Hz.
Qed.

Lemma pack_ok n z l : pack n z = Ok l -> length l = n /\ be_val l = z.
Proof.
  unfold pack. destruct (_ && _) eqn:E; [|done]. intros [= <-].
  apply andb_true_iff in E as [?%Z.leb_le ?%Z.ltb_lt].
  split; [apply be_bytes_length|by apply be_val_be_bytes].
Qed.

Lemma bytes_of_string_inj s t : bytes_of_string s = bytes_of_string t -> s = t.
Proof.
  revert t. induction s as [|c s IH]; intros [|d t]; cbn; try done.
  intros [= Hc Hs]. f_equal; [|by apply IH].
  rewrite <- (ascii_N_embedding c), <- (ascii_N_embedding d). unfold byte_val in Hc. f_equal. lia.
Qed.

(** ** Parsing *)

(** What the loop keeps of the entries read. *)
Record sound_entries (entries : list entry) : Prop := {
  se_checked : Forall (fun e => check_entry e = Ok tt) entries;
  se_sorted : StronglySorted (fun a b : entry => b.1 < a.1) entries;
  se_keys : NoDup entries.*2
}.

Lemma versions_snoc (entries : list entry) e :
  StronglySorted (fun a b : entry => b.1 < a.1) entries ->
  (forall old, last entries = Some old -> e.1 < old.1) ->
  StronglySorted (fun a b : entry => b.1 < a.1) (entries ++ [e]).
Proof.
  induction 1 as [|a l Hl IH Ha]; intros Hlast; cbn; [by repeat constructor|].
  assert (He : e.1 < a.1).
  { destruct l as [|b l]; [by apply Hlast|].
    destruct (last (b :: l)) as [old|] eqn:E; [|by apply last_None in E].
    assert (e.1 < old.1) by by apply Hlast. apply last_Some_elem_of in E.
    rewrite Forall_forall in Ha. specialize (Ha _ E). lia. }
  constructor; [|by apply Forall_app_2; [|repeat constructor]].
  apply IH. intros old Hold. destruct l; [done|]. by apply Hlast.
Qed.

Lemma read_entry_sound entries item entries' :
  sound_entries entries -> read_entry entries item = Ok entries' ->
  sound_entries entries' /\ entries' <> [].
Proof.
  intros [H1 H2 H3] H. unfold read_entry in H.
  destruct (partition_colon _) as [[vt kt]|]; [|done].
  destruct (int_of_text vt) as [version|e]; [|by destruct (is_value_error e)].
  do 2 (apply bind_ok in H as ([] & ? & H)).
  destruct (b64decode kt) as [key|e]; [|by destruct (is_value_error e)].
  ok_inv. split; [|by destruct entries].
  repeat match goal with H : bool_decide _ = false |- _ => apply bool_decide_eq_false in H end.
  constructor.
  - apply Forall_app_2; [done|]. repeat constructor. unfold check_entry. cbn [fst snd].
    apply bind_ok. exists tt. by rewrite !require_ok.
  - apply versions_snoc; [done|]. intros [old k] Hold. rewrite Hold in *.
    cbn in *. match goal with Hf : (old <? version) = false |- _ => apply Z.ltb_ge in Hf end.
    assert (old <> version); [|lia]. intros ->. match goal with Hn : version ∉ _ |- _ => apply Hn end.
    apply list_elem_of_fmap. exists (version, k). split; [done|]. by apply last_Some_elem_of.
  - rewrite fmap_app. apply NoDup_app. split; [done|]. split; [|by apply NoDup_singleton].
    intros x Hx ->%list_elem_of_singleton. done.
Qed.

Lemma read_entries_sound items entries entries' :
  sound_entries entries -> read_entries items entries = Ok entries' ->
  sound_entries entries' /\ (items <> [] \/ entries <> [] -> entries' <> []).
Proof.
  revert entries. induction items as [|item items IH]; intros entries Hs H; cbn in H.
  - injection H as <-. split; [done|]. naive_solver.
  - apply bind_ok in H as (e1 & H1 & H). destruct (read_entry_sound _ _ _ Hs H1) as [Hs1 Hne].
    destruct (IH _ Hs1 H) as [Hs' Hne']. split; [done|]. intros _. by apply Hne'; right.
Qed.

Lemma sorted_versions_nodup (entries : list entry) :
  StronglySorted (fun a b : entry => b.1 < a.1) entries -> NoDup entries.*1.
Proof.
  induction 1 as [|a l Hl IH Ha]; [constructor|]. cbn. constructor; [|done].
  intros (b & Hb & Hin)%list_elem_of_fmap. rewrite Forall_forall in Ha. specialize (Ha _ Hin). lia.
Qed.

Lemma split_comma_ne s : split_comma s <> [].
Proof. destruct s as [|c s]; cbn; [done|]. destruct (_ =? _); [done|]. by destruct (split_comma s). Qed.

(** The first entry of a sound list is the newest. *)
Lemma new_ring_sound entries :
  sound_entries entries -> entries <> [] ->
  exists r, new_ring entries = Ok r
    /\ roots r = list_to_map entries
    /\ (forall v, v ∈ versions r -> v <= active r) /\ active r ∈ versions r.
Proof.
  intros [H1 H2 H3] Hne. destruct entries as [|[v0 k0] entries]; [done|]. unfold new_ring.
  rewrite (proj2 (each_ok _ _) H1). cbn [mbind result_bind].
  rewrite (bool_decide_true (NoDup ((v0, k0) :: entries).*1)) by by apply sorted_versions_nodup.
  rewrite (bool_decide_true (NoDup ((v0, k0) :: entries).*2)) by done. cbn [require mbind result_bind].
  eexists. split; [done|]. split; [done|]. unfold versions. cbn [roots active].
  rewrite dom_list_to_map_L. split.
  - intros v Hv%elem_of_list_to_set. apply list_elem_of_fmap in Hv as ([v' k] & -> & Hin). cbn.
    apply elem_of_cons in Hin as [[= -> _]|Hin]; [lia|]. inversion H2 as [|? ? ? Ha]; subst.
    rewrite Forall_forall in Ha. specialize (Ha _ Hin). cbn in Ha. lia.
  - apply elem_of_list_to_set. cbn. by left.
Qed.

Lemma read_entries_errors items entries :
  raises_only is_key_ring_error (read_entries items entries).
Proof.
  revert entries. induction items as [|item items IH]; intros entries; [done|].
  apply raises_only_bind; [|auto]. unfold read_entry.
  destruct (partition_colon _) as [[vt kt]|]; [|auto with raises].
  destruct (int_of_text vt) as [version|e] eqn:E;
    [|rewrite (int_of_text_errors _ _ E); auto with raises].
  do 2 (apply raises_only_bind; [auto with raises|intros _]).
  destruct (b64decode kt) as [key|e] eqn:E';
    [|rewrite (b64decode_errors _ _ E'); auto with raises].
  auto with raises.
Qed.

Lemma new_ring_errors entries : raises_only is_key_ring_error (new_ring entries).
Proof.
  destruct entries as [|[v k] entries]; [by apply raises_only_err|].
  unfold new_ring, check_entry. auto 8 with raises.
Qed.

(** A setting that parses gives a ring: its entries have distinct
    versions, newest first, and distinct keys of 32 bytes; [get_key_ring]
    succeeds exactly when the setting parses; it keeps every entry under its
    version and writes with the newest; and a refused setting is refused with
    a [KeyRingError]. *)
Theorem parsed_ring_sound raw :
  (forall entries, parse_root_keys raw = Ok entries ->
     sound_entries entries
     /\ exists r, get_key_ring raw = Ok r
          /\ (forall v k, (v, k) ∈ entries <-> roots r !! v = Some k)
          /\ active_version r ∈ versions r
          /\ forall v, v ∈ versions r -> v <= active_version r)
  /\ (forall r, get_key_ring raw = Ok r -> is_ok (parse_root_keys raw) = true)
  /\ (forall e, get_key_ring raw = Err e -> exists msg, e = KeyRingError msg).
Proof.
  assert (Hnil : sound_entries []) by by repeat constructor.
  assert (Hparse : forall entries, parse_root_keys raw = Ok entries -> sound_entries entries /\ entries <> []).
  { intros entries H. destruct (read_entries_sound _ _ _ Hnil H) as [Hs Hne].
    split; [done|]. apply Hne. left. apply split_comma_ne. }
  split; [|split].
  - intros entries H. destruct (Hparse _ H) as [Hs Hne]. split; [done|].
    destruct (new_ring_sound _ Hs Hne) as (r & Hr & Hroots & Hmax & Hin).
    exists r. split; [unfold get_key_ring; by rewrite H|]. split; [|done].
    intros v k. rewrite Hroots. apply elem_of_list_to_map.
    by apply sorted_versions_nodup, Hs.
  - unfold get_key_ring. intros r H. by destruct (parse_root_keys raw).
  - intros e H. assert (He : is_key_ring_error e = true); [|destruct e; try done; by eexists].
    revert e H. apply (raises_only_bind is_key_ring_error).
    + apply read_entries_errors.
    + apply new_ring_errors.
Qed.

(** ** Values across a rotation *)

Section Values.
Context `{CryptoLaws}.

(** What a blob is made of. *)
Lemma encrypt_ok r nonce purpose plaintext aad blob :
length nonce = NONCE_BYTES -> encrypt r nonce purpose plaintext aad = Ok blob ->
exists key ad,
  derive r purpose None = Ok key /\ associated_data purpose aad = Ok ad
  /\ version_of blob = Ok (active r)
  /\ take NONCE_BYTES (drop VERSION_BYTES blob) = nonce
  /\ unseal key nonce (drop (VERSION_BYTES + NONCE_BYTES) blob) ad = Some plaintext.
Proof.
intros Hn Henc. unfold encrypt in Henc.
apply bind_ok in Henc as (key & Hkey & Henc). apply bind_ok in Henc as (ad & Had & Henc).
apply bind_ok in Henc as (c & Hc & Henc). apply bind_ok in Henc as (prefix & Hp & Henc).
injection Henc as <-. apply pack_ok in Hp as [Hlen Hval].
exists key, ad. split; [done|]. split; [done|]. split; [|split].
- unfold version_of. rewrite !length_app, Hlen, Hn, (length_seal _ _ _ _ _ Hc).
  destruct (Nat.ltb _ _) eqn:E; [apply Nat.ltb_lt in E; lia|].
  by rewrite take_app_length' by done; rewrite Hval.
- rewrite drop_app_length' by done. by apply take_app_length'.
- rewrite (app_assoc prefix nonce c), drop_app_length'
    by (rewrite length_app; congruence). by eapply unseal_seal.
Qed.

Lemma derive_root r r' purpose v :
roots r' !! v = roots r !! v -> derive r' purpose (Some v) = derive r purpose (Some v).
Proof. unfold derive, root. cbn [from_option]; unfold id. by intros ->. Qed.

Lemma decrypt_encrypted r r' nonce purpose plaintext aad blob :
length nonce = NONCE_BYTES -> encrypt r nonce purpose plaintext aad = Ok blob ->
roots r' !! active r = roots r !! active r ->
version_of blob = Ok (active r) /\ decrypt r' purpose blob aad = Ok plaintext.
Proof.
intros Hn Henc Hroot. destruct (encrypt_ok _ _ _ _ _ _ Hn Henc) as (key & ad & Hk & Ha & Hv & Ht & Hu).
split; [done|]. unfold decrypt. rewrite Hv. cbn [mbind result_bind].
rewrite (derive_root r r') by done. unfold derive, root in *. cbn [from_option] in *; unfold id in *.
rewrite Hk. cbn [mbind result_bind]. rewrite Ha, Ht. cbn [mbind result_bind]. by rewrite Hu.
Qed.

(** A value survives the rotation of the ring: what a ring encrypts is
  marked with that ring's write version and decrypts under every ring that
  still holds that version's root, re-encrypting it under such a ring marks
  it with the new write version and gives a value that decrypts without the
  old root, and a ring without a blob's version refuses it. *)
Theorem rotation_preserves_values old new newest nonce nonce' purpose plaintext aad blob :
length nonce = NONCE_BYTES -> length nonce' = NONCE_BYTES ->
encrypt old nonce purpose plaintext aad = Ok blob ->
roots new !! active old = roots old !! active old ->
roots newest !! active new = roots new !! active new ->
version_of blob = Ok (active old)
/\ decrypt new purpose blob aad = Ok plaintext
/\ (forall blob', reencrypt new nonce' purpose blob aad = Ok blob' ->
      version_of blob' = Ok (active new) /\ decrypt newest purpose blob' aad = Ok plaintext)
/\ (roots newest !! active old = None ->
      decrypt newest purpose blob aad = Err (KeyRingError "root key version is not in the ring")).
Proof.
intros Hn Hn' Henc Hold Hnew. destruct (decrypt_encrypted _ new _ _ _ _ _ Hn Henc Hold) as [Hv Hd].
split; [done|]. split; [done|]. split.
- intros blob' Hre. unfold reencrypt in Hre. rewrite Hd in Hre. cbn [mbind result_bind] in Hre.
  by eapply decrypt_encrypted.
- intros Hgone. unfold decrypt. rewrite Hv. cbn [mbind result_bind]. unfold derive, root. cbn [from_option]; unfold id.
  by rewrite Hgone.
Qed.

End Values.

(** The associated data binds the purpose and the context: two pairs give
    the same bytes only when they are the same pair, so a value is never read
    under another purpose whose name runs into its context. *)
Theorem associated_data_binds purpose purpose' aad aad' ad :
  associated_data purpose aad = Ok ad -> associated_data purpose' aad' = Ok ad ->
  purpose = purpose' /\ aad = aad'.
Proof.
  unfold associated_data. intros H1 H2.
  apply bind_ok in H1 as (s1 & P1%pack_ok & [= <-]). apply bind_ok in H2 as (s2 & P2%pack_ok & [= H]).
  destruct P1 as [L1 V1], P2 as [L2 V2].
  apply app_inj_1 in H as [<- H]; [|congruence].
  apply app_inj_1 in H as [Hb <-]; [|lia]. split; [|done]. symmetry. by apply bytes_of_string_inj.
Qed.

(** ** Instances *)

(** A stand-in for the package with its documented laws: the tag is a digest
    of all the inputs. *)
Definition toy_tag (key nonce plaintext ad : list Z) : list Z :=
  take TAG_BYTES (sha256_bytes (key ++ nonce ++ ad ++ plaintext) ++ replicate TAG_BYTES 0).
Definition toy_unseal (key nonce c ad : list Z) : option (list Z) :=
  let plaintext := take (length c - TAG_BYTES) c in
  if decide (drop (length c - TAG_BYTES) c = toy_tag key nonce plaintext ad) then Some plaintext else None.

#[local] Instance toy_ops : CryptoOps := {
  hkdf info k := take KEY_BYTES (k ++ info ++ replicate KEY_BYTES 0);
  seal key nonce plaintext ad := Ok (plaintext ++ toy_tag key nonce plaintext ad);
  unseal := toy_unseal
}.

Lemma length_toy_tag key nonce plaintext ad : length (toy_tag key nonce plaintext ad) = TAG_BYTES.
Proof. unfold toy_tag. rewrite length_take, length_app, length_replicate. lia. Qed.

#[local] Instance toy_laws : CryptoLaws.
Proof.
  constructor.
  - intros key nonce plaintext ad c [= <-]. cbn [unseal toy_ops]. unfold toy_unseal.
    rewrite length_app, length_toy_tag, Nat.add_sub, take_app_length, drop_app_length.
    by rewrite decide_True.
  - intros key nonce plaintext ad c [= <-]. by rewrite length_app, length_toy_tag.
  - intros info k. cbn [hkdf toy_ops]. rewrite length_take, !length_app, length_replicate. lia.
Qed.

Definition ring_of (raw : string) : key_ring :=
  match get_key_ring raw with Ok r => r | Err _ => {| roots := ∅; active := 0 |} end.
Definition OLD_ROOT : string := "1:AAAAAAAAAAAAAAAAAAAAAAAAAAAAAAAAAAAAAAAAAAA=".
Definition NEW_ROOT : string := "2:AAAAAAAAAAAAAAAAAAAAAAAAAAAAAAAAAAAAAAAAAAE=".
Definition secret_blob : list Z :=
  match encrypt (ring_of OLD_ROOT) (replicate 12 7) "smtp" [1; 2; 3] [9] with Ok b => b | Err _ => [] end.

Lemma parsed_ring_sound_witness :
  exists entries, parse_root_keys (NEW_ROOT +:+ ", " +:+ OLD_ROOT) = Ok entries /\ sound_entries entries.
Proof.
  eexists. split; [vm_compute; reflexivity|].
  apply (proj1 (parsed_ring_sound (NEW_ROOT +:+ ", " +:+ OLD_ROOT))). vm_compute. reflexivity.
Defined.

Lemma rotation_preserves_values_witness :
  decrypt (ring_of (NEW_ROOT +:+ "," +:+ OLD_ROOT)) "smtp" secret_blob [9] = Ok [1; 2; 3].
Proof.
  refine (proj1 (proj2 (rotation_preserves_values (ring_of OLD_ROOT)
           (ring_of (NEW_ROOT +:+ "," +:+ OLD_ROOT)) (ring_of NEW_ROOT) (replicate 12 7)
           (replicate 12 8) "smtp" [1; 2; 3] [9] secret_blob _ _ _ _ _)));
    vm_compute; reflexivity.
Defined.

Lemma associated_data_binds_witness : "mail" = "mail" /\ [1] = [1].
Proof. apply (associated_data_binds "mail" "mail" [1] [1] ([0; 0; 0; 4; 109; 97; 105; 108; 1])); vm_compute; reflexivity. Defined.

Example old_order_refused :
  get_key_ring (OLD_ROOT +:+ "," +:+ NEW_ROOT) = Err (KeyRingError "root keys must be listed newest version first").
Proof. vm_compute. reflexivity. Qed.
