(* ===== verification/Transactions.v ===== *)
(** * Transactions and the actions made of them

    The API's handlers run database transactions: a transaction that raises
    leaves the store as it was, one that returns commits, and what a handler
    does after a commit stays even when a later step raises.  [txn] is the
    inside of a transaction, [action] a sequence of transactions. *)

From S2P Require Import Prelude.

Section Monads.
Context {S : Type}.

Definition txn (A : Type) : Type := S -> result exn (A * S).
Definition action (A : Type) : Type := S -> result exn A * S.

Definition read {A} (f : S -> A) : txn A := fun s => Ok (f s, s).
Definition write (f : S -> S) : txn unit := fun s => Ok (tt, f s).
Definition raise {A} (e : exn) : txn A := fun _ => Err e.
Definition lift {A} (r : result exn A) : txn A := fun s => a ← r; Ok (a, s).

(** [async with session.begin()] *)
Definition atomic {A} (m : txn A) : action A := fun s =>
match m s with Ok (a, s') => (Ok a, s') | Err e => (Err e, s) end.
(** What changes outside any transaction, such as a message sent. *)
Definition perform (f : S -> S) : action unit := fun s => (Ok tt, f s).
Definition fail_with {A} (e : exn) : action A := fun s => (Err e, s).

(** [try: ... except Exception: pass] *)
Definition swallow (m : action unit) : action unit := fun s => (Ok tt, (m s).2).

End Monads.
Arguments txn : clear implicits.
Arguments action : clear implicits.

Global Instance txn_ret {S} : MRet (txn S) := fun A a s => Ok (a, s).
Global Instance txn_bind {S} : MBind (txn S) := fun A B k m s =>
  match m s with Ok (a, s') => k a s' | Err e => Err e end.
Global Instance action_ret {S} : MRet (action S) := fun A a s => (Ok a, s).
Global Instance action_bind {S} : MBind (action S) := fun A B k m s =>
  match m s with (Ok a, s') => k a s' | (Err e, s') => (Err e, s') end.

(** A loop over a list in an action. *)
Fixpoint for_each {S A} (f : A -> action S unit) (l : list A) : action S unit :=
  match l with [] => mret tt | x :: l => f x ≫= fun _ => for_each f l end.

(** A loop over a list in a transaction. *)
Fixpoint txn_each {S A} (f : A -> txn S unit) (l : list A) : txn S unit :=
  match l with [] => mret tt | x :: l => f x ≫= fun _ => txn_each f l end.

(** ** What steps preserve

    [keeps R m] relates every state to the one a committed [m] leaves; with a
    reflexive and transitive [R] it composes.  An invariant [I] is the case
    [fun s s' => I s -> I s']. *)

Section Keeps.
Context {S : Type}.

Definition keeps {A} (R : S -> S -> Prop) (m : txn S A) : Prop :=
forall s a s', m s = Ok (a, s') -> R s s'.
Definition action_keeps {A} (R : S -> S -> Prop) (m : action S A) : Prop :=
forall s, R s (m s).2.
Definition invariant (I : S -> Prop) (s s' : S) : Prop := I s -> I s'.

Context (R : S -> S -> Prop) `{!PreOrder R}.

Lemma txn_bind_ok {A B} (m : txn S A) (k : A -> txn S B) s b s'' :
(m ≫= k) s = Ok (b, s'') <-> exists a s', m s = Ok (a, s') /\ k a s' = Ok (b, s'').
Proof.
unfold mbind, txn_bind. destruct (m s) as [[a s']|e]; [|naive_solver].
split; [eauto|]. by intros (? & ? & [= <- <-] & ?).
Qed.

Lemma keeps_ret {A} (a : A) : keeps R (mret a).
Proof. intros s ? ? [= <- <-]. reflexivity. Qed.
Lemma keeps_read {A} (f : S -> A) : keeps R (read f).
Proof. intros s ? ? [= <- <-]. reflexivity. Qed.
Lemma keeps_raise {A} e : keeps R (@raise S A e).
Proof. by intros s ? ?. Qed.
Lemma keeps_lift {A} (r : result exn A) : keeps R (lift r).
Proof. intros s ? ?. unfold lift. destruct r; [|done]. intros [= <- <-]. reflexivity. Qed.
Lemma keeps_write f : (forall s, R s (f s)) -> keeps R (write f).
Proof. intros Hf s ? ? [= <- <-]. apply Hf. Qed.
Lemma keeps_bind {A B} (m : txn S A) (k : A -> txn S B) :
keeps R m -> (forall a, keeps R (k a)) -> keeps R (m ≫= k).
Proof.
intros Hm Hk s b s'' H. apply txn_bind_ok in H as (a & s' & H1 & H2).
etransitivity; [by eapply Hm|by eapply Hk].
Qed.
Lemma keeps_if {A} (b : bool) (m m' : txn S A) : keeps R m -> keeps R m' -> keeps R (if b then m else m').
Proof. by destruct b. Qed.

Lemma keeps_txn_each {A} (f : A -> txn S unit) l : (forall x, keeps R (f x)) -> keeps R (txn_each f l).
Proof.
intros Hf. induction l as [|x l IH]; [apply keeps_ret|]. apply keeps_bind; [apply Hf|intros _; exact IH].
Qed.

Lemma action_keeps_ret {A} (a : A) : action_keeps R (mret a).
Proof. intros s. reflexivity. Qed.
Lemma action_keeps_fail {A} e : action_keeps R (@fail_with S A e).
Proof. intros s. reflexivity. Qed.
Lemma action_keeps_atomic {A} (m : txn S A) : keeps R m -> action_keeps R (atomic m).
Proof.
intros Hm s. unfold atomic. destruct (m s) as [[a s']|e] eqn:E; [by eapply Hm|reflexivity].
Qed.
Lemma action_keeps_perform f : (forall s, R s (f s)) -> action_keeps R (perform f).
Proof. intros Hf s. apply Hf. Qed.
Lemma action_keeps_bind {A B} (m : action S A) (k : A -> action S B) :
action_keeps R m -> (forall a, action_keeps R (k a)) -> action_keeps R (m ≫= k).
Proof.
intros Hm Hk s. unfold mbind, action_bind. specialize (Hm s).
destruct (m s) as [[a|e] s']; [|done]. etransitivity; [exact Hm|apply Hk].
Qed.
Lemma action_keeps_swallow m : action_keeps R m -> action_keeps R (swallow m).
Proof. intros Hm s. apply Hm. Qed.
Lemma action_keeps_for_each {A} (f : A -> action S unit) l :
(forall x, action_keeps R (f x)) -> action_keeps R (for_each f l).
Proof.
intros Hf. induction l as [|x l IH]; [apply action_keeps_ret|].
apply action_keeps_bind; [apply Hf|intros _; exact IH].
Qed.
Lemma action_keeps_if {A} (b : bool) (m m' : action S A) :
action_keeps R m -> action_keeps R m' -> action_keeps R (if b then m else m').
Proof. by destruct b. Qed.

End Keeps.

Global Instance invariant_preorder {S} (I : S -> Prop) : PreOrder (invariant I).
Proof. split; [intros s H; exact H|]. intros a b c H1 H2 H. exact (H2 (H1 H)). Qed.

Create HintDb keeps.
#[export] Hint Resolve keeps_ret keeps_read keeps_raise keeps_lift keeps_write keeps_bind keeps_if keeps_txn_each
  action_keeps_ret action_keeps_fail action_keeps_atomic action_keeps_perform action_keeps_bind
  action_keeps_swallow action_keeps_for_each action_keeps_if : keeps.

(** Walk through the steps of a handler, splitting its matches. *)
Ltac keep_step :=
  match goal with
  | |- keeps _ (_ ≫= _) => apply keeps_bind; [try apply _| |intros ?]
  | |- action_keeps _ (_ ≫= _) => apply action_keeps_bind; [try apply _| |intros ?]
  | |- keeps _ (match ?x with _ => _ end) => destruct x
  | |- action_keeps _ (match ?x with _ => _ end) => destruct x
  | |- keeps _ (mret _) => apply keeps_ret; apply _
  | |- keeps _ (read _) => apply keeps_read; apply _
  | |- keeps _ (raise _) => apply keeps_raise
  | |- keeps _ (lift _) => apply keeps_lift; apply _
  | |- keeps _ (write _) => apply keeps_write
  | |- action_keeps _ (atomic _) => apply action_keeps_atomic; [try apply _|]
  | |- action_keeps _ (mret _) => apply action_keeps_ret; apply _
  | |- action_keeps _ (fail_with _) => apply action_keeps_fail; apply _
  | |- action_keeps _ (perform _) => apply action_keeps_perform
  | |- action_keeps _ (swallow _) => apply action_keeps_swallow
  | |- action_keeps _ (for_each _ _) => apply action_keeps_for_each; [try apply _|intros ?]
  end.
Ltac keep := repeat (cbv zeta; keep_step).

(** ** Inverting a transaction that returned *)

Lemma read_ok {S A} (f : S -> A) s a s' : read f s = Ok (a, s') -> a = f s /\ s' = s.
Proof. by intros [= <- <-]. Qed.
Lemma write_ok {S} f (s : S) a s' : write f s = Ok (a, s') -> s' = f s.
Proof. by intros [= _ <-]. Qed.
Lemma mret_ok {S A} (b : A) (s : S) a s' : mret (M := txn S) b s = Ok (a, s') -> a = b /\ s' = s.
Proof. by intros [= <- <-]. Qed.
Lemma lift_ok {S A} (r : result exn A) (s : S) a s' : lift r s = Ok (a, s') -> r = Ok a /\ s' = s.
Proof. unfold lift. destruct r; [|done]. by intros [= -> <-]. Qed.

Ltac txn_step_inv :=
  match goal with
  | H : (_ ≫= _) _ = Ok _ |- _ =>
      let a := fresh "a" in let w := fresh "w" in let Ha := fresh "Ha" in
      apply txn_bind_ok in H as (a & w & Ha & H)
  | H : read _ _ = Ok (?a, ?w') |- _ =>
      let Ha := fresh in apply read_ok in H as [Ha H]; subst w'; try subst a
  | H : write _ _ = Ok (_, ?w') |- _ => apply write_ok in H; subst w'
  | H : mret _ _ = Ok (?a, ?w') |- _ =>
      let Ha := fresh in apply mret_ok in H as [Ha H]; subst w'; try subst a
  | H : lift _ _ = Ok (_, ?w') |- _ => apply lift_ok in H as [? H]; subst w'
  | H : raise _ _ = Ok _ |- _ => discriminate H
  end.
