(* ===== verification/AccountStore.v ===== *)
(** * The account tables and the steps the account handlers share

    The rows of src/backend/app/tables.py the account modules read and write,
    the per-account gate of account_lock.py, and the requests those modules
    make of other parts, in order.  Times are microseconds; a user, a session
    and a job are named by the number of their UUID. *)

From S2P Require Import Prelude Hashes Transactions.
Open Scope Z_scope.

Inductive role : Type := viewer | member | admin.
Inductive account_state : Type := active | suspended | disabled | deletion_pending | purging.
Inductive purpose : Type := setup | reset | recovery | challenge.
Inductive job_state : Type := queued | running | succeeded | failed | cancelled.

Global Instance role_eq_dec : EqDecision role.
Proof. solve_decision. Defined.
Global Instance account_state_eq_dec : EqDecision account_state.
Proof. solve_decision. Defined.
Global Instance purpose_eq_dec : EqDecision purpose.
Proof. solve_decision. Defined.
Global Instance job_state_eq_dec : EqDecision job_state.
Proof. solve_decision. Defined.

Record user := {
  u_role : role; u_state : account_state; u_verified : bool;
  u_prior : option account_state; u_requested : option Z
}.
Record session_row := {
  s_user : Z; s_token : string; s_remember : bool; s_absolute : Z; s_idle : option Z;
  s_recent : option Z; s_revoked : option Z; s_seen : option Z; s_created : Z
}.
Record capability := { c_user : option Z; c_purpose : purpose; c_consumed : option Z }.
(** [j_attempt]: the worker of the job's current dispatch, when it has one. *)
Record job := {
  j_user : Z; j_state : job_state; j_reason : option string; j_finished : option Z;
  j_sequence : Z; j_attempt : option (string * Z)
}.
Record asset := { a_user : option Z; a_key : string }.

(** What the account modules ask of the command journal, the realtime
    sockets, the job subscribers and workers, the audit and the blob store. *)
Inductive call : Type :=
| erase_realtime_commands (user : Z) (auth_sessions : option (list Z)) (keep : option Z)
| erase_account_commands (user : Z)
| erase_subject_commands (user job sequence : Z)
| close_sockets (user : Z) (session keep : option Z)
| publish_cancelled (job : Z) (reason : string)
| close_fenced_worker (worker : string) (incarnation : Z)
| ask_worker_to_stop (job : Z)
| audit_record (action : string) (actor target : Z) (objects : list string)
| purge_keys (keys : list string).

Record world := {
  users : gmap Z user;
  sessions : gmap Z session_row;
  capabilities : gmap Z capability;
  jobs : gmap Z job;
  assets : gmap Z asset;
  inflight : gset Z;
  calls : list call
}.

Definition on_users (f : gmap Z user -> gmap Z user) (w : world) : world :=
  {| users := f (users w); sessions := sessions w; capabilities := capabilities w; jobs := jobs w;
     assets := assets w; inflight := inflight w; calls := calls w |}.
Definition on_sessions (f : gmap Z session_row -> gmap Z session_row) (w : world) : world :=
  {| users := users w; sessions := f (sessions w); capabilities := capabilities w; jobs := jobs w;
     assets := assets w; inflight := inflight w; calls := calls w |}.
Definition on_capabilities (f : gmap Z capability -> gmap Z capability) (w : world) : world :=
  {| users := users w; sessions := sessions w; capabilities := f (capabilities w); jobs := jobs w;
     assets := assets w; inflight := inflight w; calls := calls w |}.
Definition on_jobs (f : gmap Z job -> gmap Z job) (w : world) : world :=
  {| users := users w; sessions := sessions w; capabilities := capabilities w; jobs := f (jobs w);
     assets := assets w; inflight := inflight w; calls := calls w |}.
Definition on_assets (f : gmap Z asset -> gmap Z asset) (w : world) : world :=
  {| users := users w; sessions := sessions w; capabilities := capabilities w; jobs := jobs w;
     assets := f (assets w); inflight := inflight w; calls := calls w |}.
Definition emit (c : call) (w : world) : world :=
  {| users := users w; sessions := sessions w; capabilities := capabilities w; jobs := jobs w;
     assets := assets w; inflight := inflight w; calls := calls w ++ [c] |}.

(** ** The moment a handler runs in

    Whether the database is there, the clock, and which advisory keys can be
    had within three seconds. *)
Record moment := { m_connected : bool; m_now : Z; m_gate : Z -> bool }.

Definition DATABASE_UNAVAILABLE : exn := HTTPException 503 "database unavailable".

(** [int.from_bytes(user_id.bytes[:8], "big", signed=True)] *)
Definition budget_lock (user_id : Z) : Z :=
  let n := Z.shiftr user_id 64 in if n <? 2 ^ 63 then n else n - 2 ^ 64.

(** [hold_the_account]: a waiting holder always gets the key. *)
Definition hold_the_account (m : moment) (user_id : Z) (wait : bool) : txn world unit :=
  if wait || m_gate m (budget_lock user_id) then mret tt
  else raise (HTTPException 503 "too many changes to this account at once").

(** ** Statements the handlers share *)

Definition set_revoked (now : Z) (r : session_row) : session_row :=
  {| s_user := s_user r; s_token := s_token r; s_remember := s_remember r; s_absolute := s_absolute r;
     s_idle := s_idle r; s_recent := s_recent r;
     s_revoked := match s_revoked r with Some t => Some t | None => Some now end;
     s_seen := s_seen r; s_created := s_created r |}.

(** [UPDATE sessions SET revoked_at = now WHERE ... AND revoked_at IS NULL] *)
Definition revoke_where (p : Z -> session_row -> bool) (now : Z)
    (rows : gmap Z session_row) : gmap Z session_row :=
  map_imap (fun id r => Some (if p id r then set_revoked now r else r)) rows.

Definition set_consumed (now : Z) (c : capability) : capability :=
  {| c_user := c_user c; c_purpose := c_purpose c;
     c_consumed := match c_consumed c with Some t => Some t | None => Some now end |}.
Definition is_mailed (p : purpose) : bool := bool_decide (p ∈ [reset; recovery]).

(** [UPDATE auth_tokens SET consumed_at = now() WHERE ... AND consumed_at IS NULL] *)
Definition spend_where (p : capability -> bool) (now : Z)
    (rows : gmap Z capability) : gmap Z capability :=
  (fun c => if p c then set_consumed now c else c) <$> rows.

Definition owned_by (user : Z) (c : capability) : bool := bool_decide (c_user c = Some user).
Definition spend_mailed (user now : Z) : world -> world :=
  on_capabilities (spend_where (fun c => owned_by user c && is_mailed (c_purpose c)) now).
Definition revoke_account (user now : Z) : world -> world :=
  on_sessions (revoke_where (fun _ r => s_user r =? user) now).
