(* ===== verification/AuthSessions.v ===== *)
(** * Browser sessions

    Models src/backend/app/sessions.py, and the route of accounts.py that
    revokes one session.  The columns keep the SHA-256 of a token, here in
    hexadecimal; the tokens and identifiers drawn are arguments. *)

From S2P Require Import Prelude Hashes Transactions AccountStore.
Open Scope Z_scope.

Definition minute : Z := 60 * 1000000.
Definition hour : Z := 60 * minute.
Definition day : Z := 24 * hour.
Definition ABSOLUTE : Z := 12 * hour.
Definition REMEMBER_ABSOLUTE : Z := 30 * day.
Definition REMEMBER_IDLE : Z := 7 * day.
Definition ADMIN_IDLE : Z := 30 * minute.
Definition RECENT_AUTH : Z := 30 * minute.
Definition TOUCH_INTERVAL : Z := minute.

(** [Issued]; the cookie's lifetime is in seconds. *)
Record issued := { i_token : string; i_csrf : string; i_max_age : option Z }.
Record resolved := { r_id : Z; r_session : session_row; r_user_id : Z; r_user : user }.

Definition token_hash (token : string) : string := sha256 token.

Definition is_secure (public_url : string) : bool :=
  bool_decide (String.substring 0 8 public_url = "https://").
Definition cookie_names (public_url : string) : string * string :=
  let prefix := if is_secure public_url then "__Host-" else "" in
  (prefix +:+ "potocolom_session", prefix +:+ "potocolom_csrf").

(** The tokens [secrets.token_urlsafe] draws and the row's new identifier. *)
Record draw := { d_id : Z; d_token : string; d_csrf : string }.

Definition new_issued (d : draw) (remembered : bool) : issued :=
  {| i_token := d_token d; i_csrf := d_csrf d;
     i_max_age := if remembered then Some (REMEMBER_ABSOLUTE / 1000000) else None |}.

Definition token_taken (hash : string) (rows : gmap Z session_row) : bool :=
  bool_decide (map_Exists (fun _ r => s_token r = hash) rows).

(** [db_session.add(Session(...))] with the table's constraints. *)
Definition insert_session (id : Z) (r : session_row) : txn world unit := fun w =>
  if bool_decide (is_Some (sessions w !! id)) then Err (IntegrityError "sessions_pkey")
  else if bool_decide (users w !! s_user r = None) then Err (IntegrityError "sessions_user_id_fkey")
  else if token_taken (s_token r) (sessions w) then Err (IntegrityError "sessions_token_hash_key")
  else Ok (tt, on_sessions (insert id r) w).

Definition mint_in (m : moment) (d : draw) (user_id : Z) (u : user) (remember_me authenticated : bool)
  : txn world issued :=
  let (remembered, idle) :=
    if decide (u_role u = admin) then (false, Some ADMIN_IDLE)
    else if remember_me then (true, Some REMEMBER_IDLE) else (false, None) in
  let now := m_now m in
  let i := new_issued d remembered in
  _ ← insert_session (d_id d)
    {| s_user := user_id; s_token := token_hash (i_token i); s_remember := remembered;
       s_absolute := now + (if remembered then REMEMBER_ABSOLUTE else ABSOLUTE);
       s_idle := (fun window => now + window) <$> idle;
       s_recent := if authenticated then Some now else None;
       s_revoked := None; s_seen := None; s_created := now |};
  mret i.

Definition require_database (m : moment) : action world unit :=
  if m_connected m then mret tt else fail_with (RuntimeError "database unavailable").

Definition mint (m : moment) (d : draw) (user_id : Z) (u : user) (remember_me authenticated : bool)
  : action world issued :=
  _ ← require_database m; atomic (mint_in m d user_id u remember_me authenticated).

(** The row of a token, and its owner's. *)
Definition find_token (token : string) (w : world) : option (Z * session_row * user) :=
  let hash := token_hash token in
  match list_find (fun kv : Z * session_row => s_token kv.2 = hash) (map_to_list (sessions w)) with
  | Some (_, (id, r)) => u ← users w !! s_user r; Some (id, r, u)
  | None => None
  end.

Definition expired (now : Z) (r : session_row) : bool :=
  bool_decide (is_Some (s_revoked r)) || (s_absolute r <=? now)
  || match s_idle r with Some t => t <=? now | None => false end.

Definition touched (now : Z) (u : user) (r : session_row) : session_row :=
  {| s_user := s_user r; s_token := s_token r; s_remember := s_remember r; s_absolute := s_absolute r;
     s_idle := match s_idle r with
               | Some _ => Some (now + (if decide (u_role u = admin) then ADMIN_IDLE else REMEMBER_IDLE))
               | None => None
               end;
     s_recent := s_recent r; s_revoked := s_revoked r; s_seen := Some now; s_created := s_created r |}.
Definition due_for_touch (now : Z) (r : session_row) : bool :=
  match s_seen r with None => true | Some t => TOUCH_INTERVAL <=? now - t end.

Definition resolve_in (now : Z) (token : string) : txn world (option resolved) :=
  found ← read (find_token token);
  match found with
  | None => mret None
  | Some (id, r, u) =>
      if expired now r then mret None
      else if due_for_touch now r then
        let r' := touched now u r in
        _ ← write (on_sessions (insert id r'));
        mret (Some {| r_id := id; r_session := r'; r_user_id := s_user r; r_user := u |})
      else mret (Some {| r_id := id; r_session := r; r_user_id := s_user r; r_user := u |})
  end.
Definition resolve (m : moment) (token : string) : action world (option resolved) :=
  _ ← require_database m; atomic (resolve_in (m_now m) token).

Definition set_token (hash : string) (r : session_row) : session_row :=
  {| s_user := s_user r; s_token := hash; s_remember := s_remember r; s_absolute := s_absolute r;
     s_idle := s_idle r; s_recent := s_recent r; s_revoked := s_revoked r; s_seen := s_seen r;
     s_created := s_created r |}.

Definition session_changed : exn := HTTPException 409 "this session changed while that was in flight".

(** The token is replaced on the row, or the transaction is refused. *)
Definition swap_token (p : resolved) (hash : string) : txn world unit := fun w =>
  match sessions w !! r_id p with
  | Some r =>
      if bool_decide (s_token r = s_token (r_session p)) && bool_decide (s_revoked r = None) then
        if token_taken hash (delete (r_id p) (sessions w)) then Err (IntegrityError "sessions_token_hash_key")
        else Ok (tt, on_sessions (insert (r_id p) (set_token hash r)) w)
      else Err session_changed
  | None => Err session_changed
  end.

Definition rotate_and_revoke_others (m : moment) (d : draw) (p : resolved) (spend_capabilities : bool)
  : txn world issued :=
  _ ← hold_the_account m (r_user_id p) true;
  _ ← write (emit (erase_realtime_commands (r_user_id p) None (Some (r_id p))));
  _ ← write (if spend_capabilities then spend_mailed (r_user_id p) (m_now m) else id);
  _ ← write (on_sessions (revoke_where
               (fun sid r => (s_user r =? r_user_id p) && negb (sid =? r_id p)) (m_now m)));
  let i := new_issued d (s_remember (r_session p)) in
  _ ← swap_token p (token_hash (i_token i));
  mret i.

Definition close_other_sockets (p : resolved) : action world unit :=
  perform (emit (close_sockets (r_user_id p) None (Some (r_id p)))).

Definition owner_of (session_id : Z) (w : world) : option Z := s_user <$> sessions w !! session_id.

(** The transaction of [revoke]; the owner of the session, if it exists. *)
Definition revoke_in (m : moment) (session_id : Z) : txn world (option Z) :=
  owner ← read (owner_of session_id);
  match owner with
  | None => mret None
  | Some owner =>
      _ ← hold_the_account m owner false;
      row ← read (owner_of session_id);
      _ ← (if decide (row = Some owner) then
             _ ← write (emit (erase_realtime_commands owner (Some [session_id]) None));
             write (on_sessions (revoke_where (fun sid _ => sid =? session_id) (m_now m)))
           else mret tt);
      mret (Some owner)
  end.

Definition revoke (m : moment) (session_id : Z) : action world unit :=
  _ ← require_database m;
  owner ← atomic (revoke_in m session_id);
  match owner with
  | None => mret tt
  | Some owner => perform (emit (close_sockets owner (Some session_id) None))
  end.

Definition revoke_all_in (m : moment) (user_id : Z) : txn world unit :=
  _ ← hold_the_account m user_id true;
  _ ← write (emit (erase_realtime_commands user_id None None));
  write (revoke_account user_id (m_now m)).

Definition revoke_all (m : moment) (user_id : Z) : action world unit :=
  _ ← require_database m;
  _ ← atomic (revoke_all_in m user_id);
  perform (emit (close_sockets user_id None None)).

Definition is_live (now session_id : Z) (w : world) : bool :=
  match sessions w !! session_id with
  | None => false
  | Some r =>
      if bool_decide (is_Some (s_revoked r)) || (s_absolute r <=? now) then false
      else match s_idle r with None => true | Some t => now <? t end
  end.

Definition live_among (now : Z) (session_ids : gset Z) (w : world) : gset Z :=
  dom (filter (fun kv : Z * session_row =>
         kv.1 ∈ session_ids /\ s_revoked kv.2 = None /\ now < s_absolute kv.2
         /\ match s_idle kv.2 with None => true | Some t => now <? t end = true) (sessions w)).

(** The transaction of [rotate]: whether the session it ended was remembered. *)
Definition rotate_in (m : moment) (session_id user_id : Z) : txn world (option bool) :=
  _ ← hold_the_account m user_id true;
  row ← read (fun w => sessions w !! session_id);
  match row with
  | Some r =>
      if bool_decide (s_revoked r = None) && (s_user r =? user_id) then
        _ ← write (emit (erase_realtime_commands user_id (Some [session_id]) None));
        _ ← write (on_sessions (revoke_where (fun sid _ => sid =? session_id) (m_now m)));
        mret (Some (s_remember r))
      else mret None
  | None => mret None
  end.

(** The session is revoked and a new one minted in its place. *)
Definition rotate (m : moment) (d : draw) (session_id user_id : Z) (u : user) : action world issued :=
  _ ← require_database m;
  remembered ← atomic (rotate_in m session_id user_id);
  match remembered with
  | None => fail_with (RuntimeError "no live session to rotate")
  | Some remembered => mint m d user_id u remembered false
  end.

Definition is_recent (now : Z) (r : session_row) : bool :=
  match s_recent r with Some t => now - RECENT_AUTH <? t | None => false end.

(** DELETE /api/v1/account/sessions/{session_id}; [true] when the cookies of
    this response are cleared. *)
Definition revoke_session (m : moment) (p : resolved) (session_id : Z) : action world bool :=
  if m_connected m then
    row ← atomic (read (fun w => owner_of session_id w));
    if decide (row = Some (r_user_id p)) then
      _ ← revoke m session_id; mret (session_id =? r_id p)
    else fail_with (HTTPException 404 "Not Found")
  else fail_with DATABASE_UNAVAILABLE.
