(* ===== verification/Accounts.v ===== *)
(** * Roles, states and deletion

    Models src/backend/app/roles.py, states.py and deletion.py, with
    jobs.cancel, which the last two call after their commit.  The streamed
    export and the loops that only sleep are not modelled. *)

From S2P Require Import Prelude Hashes Transactions AccountStore AuthSessions.
Open Scope Z_scope.

(** ** Cancelling a job *)

Definition is_terminal (s : job_state) : bool := bool_decide (s ∈ [succeeded; failed; cancelled]).

Definition set_cancelled (reason : string) (now : Z) (j : job) : job :=
  {| j_user := j_user j; j_state := cancelled; j_reason := Some reason; j_finished := Some now;
     j_sequence := j_sequence j; j_attempt := j_attempt j |}.

(** The transaction of [jobs.cancel]: [None] when nothing was cancelled, else
    the worker whose attempt was fenced, if any. *)
Definition cancel_in (m : moment) (job_id : Z) (reason : string) : txn world (option (option (string * Z))) :=
  found ← read (fun w => jobs w !! job_id);
  match found with
  | None => mret None
  | Some owned =>
      _ ← hold_the_account m (j_user owned) false;
      current ← read (fun w => jobs w !! job_id);
      match current with
      | None => mret None
      | Some j =>
          if negb (j_user j =? j_user owned) || is_terminal (j_state j) then mret None
          else
            fenced ← (if 0 <? j_sequence j then
                        _ ← write (emit (erase_subject_commands (j_user j) job_id (j_sequence j)));
                        mret (j_attempt j)
                      else mret None);
            _ ← write (on_jobs (insert job_id (set_cancelled reason (m_now m) j)));
            mret (Some fenced)
      end
  end.

Definition cancel (m : moment) (job_id : Z) (reason : string) : action world bool :=
  done ← atomic (cancel_in m job_id reason);
  match done with
  | None => mret false
  | Some fenced =>
      _ ← perform (emit (publish_cancelled job_id reason));
      _ ← match fenced with
          | Some (worker, incarnation) => perform (emit (close_fenced_worker worker incarnation))
          | None => mret tt
          end;
      _ ← perform (fun w => if decide (job_id ∈ inflight w) then emit (ask_worker_to_stop job_id) w else w);
      mret true
  end.

(** The loop over the jobs to stop; each cancel has a moment of its own. *)
Definition cancel_each (m : Z -> moment) (reason : string) (ids : list Z) : action world unit :=
  for_each (fun id => _ ← cancel (m id) id reason; mret tt) ids.

(** The jobs of an account that are waiting or running. *)
Definition stoppable (user_id : Z) (w : world) : list Z :=
  (map_to_list (filter (fun kv : Z * job =>
     j_user kv.2 = user_id /\ j_state kv.2 ∈ [queued; running]) (jobs w))).*1.

(** ** Roles *)

Definition ROLE_CHANGED : string := "user.role".
Definition role_text (r : role) : string :=
  match r with viewer => "viewer" | member => "user" | admin => "admin" end.

Record role_change := { rc_role : role; rc_attested : bool }.

Definition is_administrator (u : user) : Prop := u_role u = admin /\ u_state u = active.
Global Instance is_administrator_dec u : Decision (is_administrator u).
Proof. unfold is_administrator. apply _. Defined.

(** [_remaining_administrators] *)
Definition remaining_administrators (excluding : Z) (w : world) : nat :=
  size (filter (fun kv : Z * user => is_administrator kv.2 /\ kv.1 <> excluding) (users w)).

Definition set_role (r : role) (u : user) : user :=
  {| u_role := r; u_state := u_state u; u_verified := u_verified u; u_prior := u_prior u;
     u_requested := u_requested u |}.
Definition set_state (s : account_state) (u : user) : user :=
  {| u_role := u_role u; u_state := s; u_verified := u_verified u; u_prior := u_prior u;
     u_requested := u_requested u |}.

Definition not_found : exn := HTTPException 404 "Not Found".

Definition change_role_in (m : moment) (user_id : Z) (change : role_change) (principal : session_row)
  : txn world unit :=
  _ ← hold_the_account m user_id false;
  found ← read (fun w => users w !! user_id);
  match found with
  | None => raise not_found
  | Some target =>
      others ← read (remaining_administrators user_id);
      _ ← (if decide (rc_role change = admin) then
             if negb (is_recent (m_now m) principal)
             then raise (HTTPException 403 "recent authentication required")
             else if negb (u_verified target) && negb (rc_attested change)
             then raise (HTTPException 409 "this address is unverified; attest to promote it")
             else mret tt
           else if bool_decide (u_role target = admin) && Nat.eqb others 0
           then raise (HTTPException 403 "the last administrator cannot be demoted")
           else mret tt);
      _ ← write (emit (erase_realtime_commands user_id None None));
      _ ← write (on_users (insert user_id (set_role (rc_role change) target)));
      _ ← write (spend_mailed user_id (m_now m));
      write (revoke_account user_id (m_now m))
  end.

(** POST /api/v1/users/{user_id}/role.  [actor] is the administrator the
    route's guard let in, [principal] the row of the session used. *)
Definition change_role (m : moment) (actor user_id : Z) (change : role_change) (principal : session_row)
  : action world unit :=
  if user_id =? actor then fail_with (HTTPException 403 "an administrator cannot change their own role")
  else if negb (m_connected m) then fail_with DATABASE_UNAVAILABLE
  else
    _ ← atomic (change_role_in m user_id change principal);
    _ ← perform (emit (close_sockets user_id None None));
    perform (emit (audit_record ROLE_CHANGED actor user_id
      (role_text (rc_role change) :: if rc_attested change then ["attested"] else []))).

(** ** States *)

Definition STATE_CHANGED : string := "account.state".

Definition TRANSITIONS (from : account_state) : list account_state :=
  match from with
  | active => [suspended; disabled; deletion_pending]
  | suspended => [active; disabled; deletion_pending]
  | disabled => [active; deletion_pending]
  | deletion_pending | purging => []
  end.

(** The states [StateChange] admits. *)
Inductive requested_state : Type := to_active | to_suspended | to_disabled | to_deletion_pending.
Definition state_of (r : requested_state) : account_state :=
  match r with
  | to_active => active | to_suspended => suspended
  | to_disabled => disabled | to_deletion_pending => deletion_pending
  end.
Definition state_text (s : account_state) : string :=
  match s with
  | active => "active" | suspended => "suspended" | disabled => "disabled"
  | deletion_pending => "deletion_pending" | purging => "purging"
  end.

(** The transaction: [None] when the account already has the state, else the
    jobs to stop. *)
Definition change_state_in (m : moment) (user_id : Z) (change : requested_state)
  : txn world (option (list Z)) :=
  let state := state_of change in
  _ ← hold_the_account m user_id false;
  found ← read (fun w => users w !! user_id);
  match found with
  | None => raise not_found
  | Some target =>
      if decide (u_state target = state) then mret None
      else if negb (bool_decide (state ∈ TRANSITIONS (u_state target))) then
        raise (HTTPException 409 ("an account cannot go from " +:+ state_text (u_state target)
                                  +:+ " to " +:+ state_text state))
      else
        others ← read (remaining_administrators user_id);
        if negb (bool_decide (state = active)) && bool_decide (u_role target = admin) && Nat.eqb others 0
        then raise (HTTPException 403 "the last administrator cannot be suspended")
        else if decide (state = active) then
          _ ← write (on_users (insert user_id (set_state state target)));
          mret (Some [])
        else
          _ ← write (emit (erase_account_commands user_id));
          _ ← write (on_users (insert user_id (set_state state target)));
          _ ← write (spend_mailed user_id (m_now m));
          _ ← write (revoke_account user_id (m_now m));
          stopping ← read (stoppable user_id);
          mret (Some stopping)
  end.

(** POST /api/v1/users/{user_id}/state; [later] gives the moments of the
    cancels that follow the commit. *)
Definition change_state (m : moment) (later : Z -> moment) (actor user_id : Z) (change : requested_state)
  : action world unit :=
  if user_id =? actor then fail_with (HTTPException 403 "an administrator cannot change their own state")
  else if negb (m_connected m) then fail_with DATABASE_UNAVAILABLE
  else
    changed ← atomic (change_state_in m user_id change);
    match changed with
    | None => mret tt
    | Some stopping =>
        _ ← (if decide (state_of change = active) then mret tt
             else
               _ ← perform (emit (close_sockets user_id None None));
               cancel_each later "account suspended" stopping);
        perform (emit (audit_record STATE_CHANGED actor user_id [state_text (state_of change)]))
    end.

(** ** Deletion *)

Definition DELETION_REQUESTED : string := "account.deletion".
Definition ACCOUNT_RESTORED : string := "account.restore".
Definition RESTORE_WINDOW : Z := 30 * day.
Definition PURGE_BATCH : nat := 20.

Definition is_leaving (s : account_state) : bool := bool_decide (s ∈ [deletion_pending; purging]).

Definition ask_deletion (now : Z) (u : user) : user :=
  {| u_role := u_role u; u_state := deletion_pending; u_verified := u_verified u;
     u_prior := Some (u_state u); u_requested := Some now |}.

(** [deletion.request], in the caller's transaction. *)
Definition request (m : moment) (user_id : Z) : txn world bool :=
  _ ← hold_the_account m user_id false;
  found ← read (fun w => users w !! user_id);
  match found with
  | None => mret false
  | Some u =>
      if is_leaving (u_state u) then mret false
      else
        _ ← write (on_users (insert user_id (ask_deletion (m_now m) u)));
        _ ← write (emit (erase_account_commands user_id));
        _ ← write (on_capabilities (spend_where (owned_by user_id) (m_now m)));
        _ ← write (revoke_account user_id (m_now m));
        mret true
  end.

(** DELETE /api/v1/account *)
Definition delete_account (m : moment) (later : Z -> moment) (user_id : Z) : action world unit :=
  if negb (m_connected m) then fail_with DATABASE_UNAVAILABLE
  else
    asked ← atomic (
      asked ← request m user_id;
      stopping ← read (stoppable user_id);
      mret (if (asked : bool) then Some stopping else None));
    match asked with
    | None => mret tt
    | Some stopping =>
        _ ← perform (emit (close_sockets user_id None None));
        _ ← cancel_each later "account deleted" stopping;
        perform (emit (audit_record DELETION_REQUESTED user_id user_id []))
    end.

Definition bring_back (u : user) : user :=
  {| u_role := u_role u; u_state := default active (u_prior u); u_verified := u_verified u;
     u_prior := None; u_requested := u_requested u |}.

(** The transaction of [restore]; [false] for an account restored before. *)
Definition restore_in (m : moment) (user_id : Z) : txn world bool :=
  _ ← hold_the_account m user_id false;
  found ← read (fun w => users w !! user_id);
  match found with
  | None => raise not_found
  | Some u =>
      if bool_decide (u_state u = deletion_pending)
         && match u_requested u with Some t => t <? m_now m - RESTORE_WINDOW | None => false end
      then raise (HTTPException 409 "that account passed its 30 day restore window")
      else if decide (u_state u = purging)
      then raise (HTTPException 409 "that account is already being deleted")
      else if negb (bool_decide (u_state u = deletion_pending)) then
        match u_requested u with
        | None => raise (HTTPException 409 "that account is not waiting to be deleted")
        | Some _ => mret false
        end
      else
        _ ← write (on_users (insert user_id (bring_back u)));
        mret true
  end.

(** POST /api/v1/users/{user_id}/restore *)
Definition restore (m : moment) (actor user_id : Z) : action world unit :=
  if negb (m_connected m) then fail_with DATABASE_UNAVAILABLE
  else
    restored ← atomic (restore_in m user_id);
    if (restored : bool)
    then perform (emit (audit_record ACCOUNT_RESTORED actor user_id []))
    else mret tt.

Definition is_due (cutoff : Z) (u : user) : bool :=
  is_leaving (u_state u) && match u_requested u with Some t => t <? cutoff | None => false end.

(** The transaction that claims an account for the purge. *)
Definition claim_in (m : moment) (cutoff user_id : Z) : txn world bool :=
  _ ← hold_the_account m user_id false;
  found ← read (fun w => users w !! user_id);
  match found with
  | None => mret false
  | Some u =>
      if is_due cutoff u then
        _ ← write (on_users (insert user_id (set_state purging u)));
        _ ← write (emit (erase_account_commands user_id));
        mret true
      else mret false
  end.

Definition keys_of (user_id : Z) (w : world) : list string :=
  (fun kv : Z * asset => a_key kv.2) <$>
    map_to_list (filter (fun kv : Z * asset => a_user kv.2 = Some user_id) (assets w)).

(** The transaction that removes the rows, and the rows the schema removes
    with a user. *)
Definition remove_in (m : moment) (user_id : Z) : txn world unit :=
  _ ← hold_the_account m user_id false;
  _ ← write (emit (erase_account_commands user_id));
  _ ← write (on_assets (filter (fun kv : Z * asset => a_user kv.2 <> Some user_id)));
  _ ← write (on_jobs (filter (fun kv : Z * job => j_user kv.2 <> user_id)));
  _ ← write (on_users (delete user_id));
  _ ← write (on_sessions (filter (fun kv : Z * session_row => s_user kv.2 <> user_id)));
  write (on_capabilities (filter (fun kv : Z * capability => c_user kv.2 <> Some user_id))).

(** [_purge]: the moments of its two transactions, and whether removing the
    objects returned. *)
Record purge_run := { p_claim : moment; p_keys : bool; p_remove : moment }.
Definition purge (r : purge_run) (cutoff user_id : Z) : action world unit :=
  claimed ← atomic (claim_in (p_claim r) cutoff user_id);
  if (claimed : bool) then
    keys ← atomic (read (keys_of user_id));
    _ ← perform (emit (purge_keys keys));
    _ ← (if p_keys r then mret tt else fail_with (RuntimeError "cleanup interrupted"));
    atomic (remove_in (p_remove r) user_id)
  else mret tt.

(** The accounts whose window has run out, the longest waiting first. *)
Definition asked_before (a b : Z * Z) : Prop := a.2 <= b.2.
Global Instance asked_before_dec : RelDecision asked_before.
Proof. intros a b. unfold asked_before. apply _. Defined.
Definition due (cutoff : Z) (w : world) : list Z :=
  take PURGE_BATCH (merge_sort asked_before
    (map_to_list (omap (fun u => if is_due cutoff u then u_requested u else None) (users w)))).*1.

(** [purge_due]: one account at a time, and one that fails stops no other. *)
Definition purge_due (m : moment) (runs : Z -> purge_run) : action world unit :=
  if negb (m_connected m) then mret tt
  else
    let cutoff := m_now m - RESTORE_WINDOW in
    ids ← atomic (read (due cutoff));
    for_each (fun id => swallow (purge (runs id) cutoff id)) ids.
