(* ===== verification/AccountsFacts.v ===== *)
(** * What each account transaction does, and the system they make

    One inversion lemma per transaction of Accounts.v, the transactions of
    every handler as the steps of one system, in any order, and what a step
    does to the users. *)

From S2P Require Import Prelude Hashes Transactions AccountStore AuthSessions Accounts.
Open Scope Z_scope.

Lemma hold_ok m user_id wait w a w' : hold_the_account m user_id wait w = Ok (a, w') -> w' = w.
Proof. unfold hold_the_account. destruct (_ || _); [by intros [= _ <-]|done]. Qed.

(** Invert a transaction that returned. *)
Ltac txn_inv :=
  repeat match goal with
  | H : hold_the_account _ _ _ _ = Ok (_, ?w') |- _ => apply hold_ok in H; subst w'
  | _ => txn_step_inv
  end.

(** Run a transaction on a known state. *)
Ltac txn_run :=
  unfold mbind, txn_bind, hold_the_account, read, write, raise, mret, txn_ret; cbn beta iota.

Lemma change_role_in_ok m user_id change principal w w' :
  change_role_in m user_id change principal w = Ok (tt, w') ->
  exists t, users w !! user_id = Some t
    /\ (rc_role change = admin \/ u_role t <> admin \/ remaining_administrators user_id w <> O)
    /\ users w' = <[user_id := set_role (rc_role change) t]> (users w)
    /\ sessions w' = sessions (revoke_account user_id (m_now m) w)
    /\ jobs w' = jobs w /\ assets w' = assets w.
Proof.
  unfold change_role_in. intros H. txn_inv. destruct (users w !! user_id) as [t|] eqn:Et; [|done]. txn_inv.
  destruct (decide (rc_role change = admin)) as [Hadmin|Hother].
  - destruct (negb (is_recent _ _)); [done|]. destruct (_ && _) in *; [done|]. txn_inv.
    exists t. by repeat split; try left.
  - destruct (bool_decide _ && _) eqn:E; [done|]. txn_inv. exists t.
    split; [done|]. split; [|by repeat split].
    apply andb_false_iff in E as [E%bool_decide_eq_false|E%Nat.eqb_neq]; auto.
Qed.

Lemma change_state_in_ok m user_id change a w w' :
  change_state_in m user_id change w = Ok (a, w') ->
  exists t, users w !! user_id = Some t
    /\ ((a = None /\ w' = w /\ u_state t = state_of change)
        \/ (exists stopping, a = Some stopping
            /\ state_of change ∈ TRANSITIONS (u_state t)
            /\ (state_of change = active \/ u_role t <> admin \/ remaining_administrators user_id w <> O)
            /\ users w' = <[user_id := set_state (state_of change) t]> (users w)
            /\ sessions w' = (if decide (state_of change = active) then sessions w
                              else sessions (revoke_account user_id (m_now m) w)))).
Proof.
  unfold change_state_in. intros H. txn_inv. destruct (users w !! user_id) as [t|] eqn:Et; [|done].
  exists t. split; [done|]. destruct (decide (u_state t = _)) as [Hs|Hs]; [txn_inv; by left|].
  destruct (negb (bool_decide _)) eqn:Htr; [done|]. apply negb_false_iff, bool_decide_eq_true in Htr.
  txn_inv. right. destruct (_ && Nat.eqb _ 0) eqn:Elast; [done|].
  assert (Hguard : state_of change = active \/ u_role t <> admin \/ remaining_administrators user_id w <> O).
  { apply andb_false_iff in Elast as [E|E%Nat.eqb_neq]; [|by auto].
    apply andb_false_iff in E as [E%negb_false_iff%bool_decide_eq_true|E%bool_decide_eq_false]; auto. }
  destruct (decide (state_of change = active)); txn_inv; eexists; repeat split; done.
Qed.

Lemma request_ok m user_id a w w' :
  request m user_id w = Ok (a, w') ->
  (a = false /\ w' = w)
  \/ (exists t, a = true /\ users w !! user_id = Some t /\ is_leaving (u_state t) = false
        /\ users w' = <[user_id := ask_deletion (m_now m) t]> (users w)
        /\ sessions w' = sessions (revoke_account user_id (m_now m) w)).
Proof.
  unfold request. intros H. txn_inv. destruct (users w !! user_id) as [t|] eqn:Et; [|txn_inv; by left].
  destruct (is_leaving (u_state t)) eqn:El; txn_inv; [by left|]. right. by exists t.
Qed.

Definition past_window (now : Z) (u : user) : bool :=
  match u_requested u with Some t => t <? now - RESTORE_WINDOW | None => false end.

Lemma restore_in_ok m user_id a w w' :
  restore_in m user_id w = Ok (a, w') ->
  (a = false /\ w' = w)
  \/ (exists t, a = true /\ users w !! user_id = Some t /\ u_state t = deletion_pending
        /\ past_window (m_now m) t = false
        /\ users w' = <[user_id := bring_back t]> (users w) /\ sessions w' = sessions w).
Proof.
  unfold restore_in. intros H. txn_inv. destruct (users w !! user_id) as [t|] eqn:Et; [|done].
  destruct (bool_decide (u_state t = deletion_pending)) eqn:Es; cbn [andb negb] in H.
  - apply bool_decide_eq_true in Es.
    fold (past_window (m_now m) t) in H. destruct (past_window (m_now m) t) eqn:Ew; [discriminate H|].
    destruct (decide (u_state t = purging)); [done|]. txn_inv. right. by exists t.
  - destruct (decide (u_state t = purging)); [done|]. destruct (u_requested t); [|done]. txn_inv. by left.
Qed.

Lemma claim_in_ok m cutoff user_id a w w' :
  claim_in m cutoff user_id w = Ok (a, w') ->
  (a = false /\ w' = w)
  \/ (exists t, a = true /\ users w !! user_id = Some t /\ is_due cutoff t = true
        /\ users w' = <[user_id := set_state purging t]> (users w) /\ sessions w' = sessions w).
Proof.
  unfold claim_in. intros H. txn_inv. destruct (users w !! user_id) as [t|] eqn:Et; [|txn_inv; by left].
  destruct (is_due cutoff t) eqn:E; txn_inv; [|by left]. right. by exists t.
Qed.

Lemma remove_in_ok m user_id w w' :
  remove_in m user_id w = Ok (tt, w') ->
  users w' = delete user_id (users w)
  /\ sessions w' = filter (fun kv : Z * session_row => s_user kv.2 <> user_id) (sessions w).
Proof. unfold remove_in. intros H. by txn_inv. Qed.

(** ** The system

    A step is one transaction of one handler, so a list of steps is any
    interleaving of requests.  The sweep's claims are in [claimed]: the
    removal of an account follows its claim. *)

Inductive account_step : Type :=
| ChangeRole (m : moment) (user_id : Z) (change : role_change) (principal : session_row)
| ChangeState (m : moment) (user_id : Z) (change : requested_state)
| AskDeletion (m : moment) (user_id : Z)
| RestoreAccount (m : moment) (user_id : Z)
| ClaimPurge (m : moment) (cutoff user_id : Z)
| RemoveAccount (m : moment) (user_id : Z)
| CancelJob (m : moment) (job_id : Z) (reason : string)
| Mint (m : moment) (d : draw) (user_id : Z) (u : user) (remember_me authenticated : bool)
| Resolve (m : moment) (token : string)
| RotateOthers (m : moment) (d : draw) (p : resolved) (spend : bool)
| Revoke (m : moment) (session_id : Z)
| RevokeAll (m : moment) (user_id : Z)
| RotateSession (m : moment) (session_id user_id : Z).

Record system := { state : world; claimed : gset Z }.

Definition commit {A} (m : txn world A) (s : system) : system :=
  {| state := (atomic m (state s)).2; claimed := claimed s |}.

Definition account_run (s : system) (o : account_step) : system :=
  match o with
  | ChangeRole m user_id change principal => commit (change_role_in m user_id change principal) s
  | ChangeState m user_id change => commit (change_state_in m user_id change) s
  | AskDeletion m user_id => commit (request m user_id) s
  | RestoreAccount m user_id => commit (restore_in m user_id) s
  | ClaimPurge m cutoff user_id =>
      match claim_in m cutoff user_id (state s) with
      | Ok (true, w) => {| state := w; claimed := {[user_id]} ∪ claimed s |}
      | _ => s
      end
  | RemoveAccount m user_id => if decide (user_id ∈ claimed s) then commit (remove_in m user_id) s else s
  | CancelJob m job_id reason => commit (cancel_in m job_id reason) s
  | Mint m d user_id u remember authenticated => commit (mint_in m d user_id u remember authenticated) s
  | Resolve m token => commit (resolve_in (m_now m) token) s
  | RotateOthers m d p spend => commit (rotate_and_revoke_others m d p spend) s
  | Revoke m session_id => commit (revoke_in m session_id) s
  | RevokeAll m user_id => commit (revoke_all_in m user_id) s
  | RotateSession m session_id user_id => commit (rotate_in m session_id user_id) s
  end.

Definition account_runs (s : system) (os : list account_step) : system := fold_left account_run os s.

Definition step_moment (o : account_step) : moment :=
  match o with
  | ChangeRole m _ _ _ | ChangeState m _ _ | AskDeletion m _ | RestoreAccount m _ | ClaimPurge m _ _
  | RemoveAccount m _ | CancelJob m _ _ | Mint m _ _ _ _ _ | Resolve m _ | RotateOthers m _ _ _
  | Revoke m _ | RevokeAll m _ | RotateSession m _ _ => m
  end.

(** ** What a step does to the users *)

(** A step that may write the user's row otherwise than by the sweep. *)
Definition targets (id : Z) (o : account_step) : bool :=
  match o with
  | ChangeRole _ i _ _ | ChangeState _ i _ | AskDeletion _ i | RestoreAccount _ i => i =? id
  | _ => false
  end.


Inductive user_change (o : account_step) (s : system) : gmap Z user -> Prop :=
| users_same : user_change o s (users (state s))
| users_role id t r :
    targets id o = true -> users (state s) !! id = Some t ->
    (r = admin \/ u_role t <> admin \/ remaining_administrators id (state s) <> O) ->
    user_change o s (<[id := set_role r t]> (users (state s)))
| users_state id t r :
    targets id o = true -> users (state s) !! id = Some t -> state_of r ∈ TRANSITIONS (u_state t) ->
    (state_of r = active \/ u_role t <> admin \/ remaining_administrators id (state s) <> O) ->
    user_change o s (<[id := set_state (state_of r) t]> (users (state s)))
| users_asked id t m :
    o = AskDeletion m id -> users (state s) !! id = Some t -> is_leaving (u_state t) = false ->
    user_change o s (<[id := ask_deletion (m_now m) t]> (users (state s)))
| users_restored id t :
    targets id o = true -> users (state s) !! id = Some t -> u_state t = deletion_pending ->
    user_change o s (<[id := bring_back t]> (users (state s)))
| users_claimed id t cutoff m :
    o = ClaimPurge m cutoff id -> users (state s) !! id = Some t -> is_due cutoff t = true ->
    user_change o s (<[id := set_state purging t]> (users (state s)))
| users_removed id :
    id ∈ claimed s -> user_change o s (delete id (users (state s))).

Definition same_users (w w' : world) : Prop := users w' = users w.
#[local] Instance same_users_preorder : PreOrder same_users.
Proof. split; [by intros w|]. intros a b c H1 H2. unfold same_users in *. congruence. Qed.

Lemma hold_keeps R `{!PreOrder R} m user_id wait : keeps R (hold_the_account m user_id wait).
Proof. intros w a w' H. apply hold_ok in H as ->. reflexivity. Qed.

Lemma insert_session_same_users id r : keeps same_users (insert_session id r).
Proof. intros w a w' H. unfold insert_session in H. repeat (split_in H; [done|]). by injection H as _ <-. Qed.
Lemma swap_token_same_users p hash : keeps same_users (swap_token p hash).
Proof.
  intros w a w' H. unfold swap_token in H. repeat split_in H; try discriminate H. by injection H as _ <-.
Qed.

#[local] Hint Resolve hold_keeps insert_session_same_users swap_token_same_users : keeps.
#[local] Hint Extern 1 (same_users _ _) => reflexivity : keeps.

Lemma mint_in_same_users m d user_id u remember authenticated :
  keeps same_users (mint_in m d user_id u remember authenticated).
Proof.
  unfold mint_in. destruct (if decide (u_role u = admin) then _ else _) as [? ?].
  keep. apply insert_session_same_users.
Qed.
Lemma resolve_in_same_users now token : keeps same_users (resolve_in now token).
Proof. unfold resolve_in. keep; done. Qed.
Lemma rotate_others_same_users m d p spend : keeps same_users (rotate_and_revoke_others m d p spend).
Proof.
  unfold rotate_and_revoke_others. keep; try done; auto with keeps typeclass_instances.
  by destruct spend.
Qed.
Lemma revoke_in_same_users m id : keeps same_users (revoke_in m id).
Proof. unfold revoke_in. keep; try done; auto with keeps typeclass_instances. Qed.
Lemma revoke_all_in_same_users m id : keeps same_users (revoke_all_in m id).
Proof. unfold revoke_all_in. keep; try done; auto with keeps typeclass_instances. Qed.
Lemma rotate_in_same_users m id u : keeps same_users (rotate_in m id u).
Proof. unfold rotate_in. keep; try done; auto with keeps typeclass_instances. Qed.
Lemma cancel_in_same_users m id reason : keeps same_users (cancel_in m id reason).
Proof. unfold cancel_in. keep; try done; auto with keeps typeclass_instances. Qed.

(** Committing a transaction, by whether it returned. *)
Lemma commit_cases {A} (m : txn world A) s :
  commit m s = s \/ exists a w, m (state s) = Ok (a, w) /\ commit m s = {| state := w; claimed := claimed s |}.
Proof.
  unfold commit, atomic. destruct (m (state s)) as [[a w]|e] eqn:E; [right; eauto|left].
  by destruct s.
Qed.

Lemma commit_same_users {A} (m : txn world A) s :
  keeps same_users m -> users (state (commit m s)) = users (state s).
Proof.
  intros Hm. destruct (commit_cases m s) as [->|(a & w & H & ->)]; [done|]. cbn [state].
  by eapply Hm.
Qed.

Lemma account_run_users o s : user_change o s (users (state (account_run s o))).
Proof.
  destruct o; cbn [account_run].
  - destruct (commit_cases (change_role_in m user_id change principal) s) as [->|([] & w & H & ->)];
      [cbn [state]; apply users_same|].
    apply change_role_in_ok in H as (t & Ht & Hg & Hu & _). cbn [state]. rewrite Hu. by apply users_role; [apply Z.eqb_refl|..].
  - destruct (commit_cases (change_state_in m user_id change) s) as [->|(a & w & H & ->)]; [cbn [state]; apply users_same|].
    apply change_state_in_ok in H as (t & Ht & [(_ & -> & _)|(l & _ & Htr & Hg & Hu & _)]); [cbn [state]; apply users_same|].
    cbn [state]. rewrite Hu. by apply users_state; [apply Z.eqb_refl|..].
  - destruct (commit_cases (request m user_id) s) as [->|(a & w & H & ->)]; [cbn [state]; apply users_same|].
    apply request_ok in H as [[_ ->]|(t & _ & Ht & Hl & Hu & _)]; [cbn [state]; apply users_same|].
    cbn [state]. rewrite Hu. by eapply users_asked.
  - destruct (commit_cases (restore_in m user_id) s) as [->|(a & w & H & ->)]; [cbn [state]; apply users_same|].
    apply restore_in_ok in H as [[_ ->]|(t & _ & Ht & Hs & _ & Hu & _)]; [cbn [state]; apply users_same|].
    cbn [state]. rewrite Hu. by apply users_restored; [apply Z.eqb_refl|..].
  - destruct (claim_in m cutoff user_id (state s)) as [[[] w]|] eqn:H; [|apply users_same..].
    apply claim_in_ok in H as [[? _]|(t & _ & Ht & Hd & Hu & _)]; [done|].
    cbn [state]. rewrite Hu. by eapply users_claimed.
  - destruct (decide (user_id ∈ claimed s)) as [Hin|]; [|apply users_same].
    destruct (commit_cases (remove_in m user_id) s) as [->|([] & w & H & ->)]; [cbn [state]; apply users_same|].
    apply remove_in_ok in H as [Hu _]. cbn [state]. rewrite Hu. by apply users_removed.
  - rewrite commit_same_users; [cbn [state]; apply users_same|apply cancel_in_same_users].
  - rewrite commit_same_users; [cbn [state]; apply users_same|apply mint_in_same_users].
  - rewrite commit_same_users; [cbn [state]; apply users_same|apply resolve_in_same_users].
  - rewrite commit_same_users; [cbn [state]; apply users_same|apply rotate_others_same_users].
  - rewrite commit_same_users; [cbn [state]; apply users_same|apply revoke_in_same_users].
  - rewrite commit_same_users; [cbn [state]; apply users_same|apply revoke_all_in_same_users].
  - rewrite commit_same_users; [cbn [state]; apply users_same|apply rotate_in_same_users].
Qed.

Lemma account_run_claimed o s :
  claimed (account_run s o) = claimed s
  \/ exists m cutoff id, o = ClaimPurge m cutoff id /\ claimed (account_run s o) = {[id]} ∪ claimed s
       /\ exists t, users (state s) !! id = Some t /\ is_due cutoff t = true
                    /\ users (state (account_run s o)) = <[id := set_state purging t]> (users (state s)).
Proof.
  destruct o; cbn [account_run]; try (left; reflexivity); [|by case_decide; left].
  destruct (claim_in m cutoff user_id (state s)) as [[[] w]|] eqn:H; [|by left..]. right.
  apply claim_in_ok in H as [[? _]|(t & _ & Ht & Hd & Hu & _)]; [done|].
  exists m, cutoff, user_id. split; [done|]. split; [done|]. by exists t.
Qed.

(** ** A small installation *)

(** Two administrators and a member, each signed in once. *)

Definition account_of (r : role) : user :=
  {| u_role := r; u_state := active; u_verified := true; u_prior := None; u_requested := None |}.
Definition signed_in (user_id : Z) (token : string) (remember : bool) : session_row :=
  {| s_user := user_id; s_token := token_hash token; s_remember := remember;
     s_absolute := if remember then REMEMBER_ABSOLUTE else ABSOLUTE;
     s_idle := if remember then Some REMEMBER_IDLE else Some ADMIN_IDLE;
     s_recent := Some 0; s_revoked := None; s_seen := None; s_created := 0 |}.
Definition small_world : world :=
  {| users := {[1 := account_of admin; 2 := account_of admin; 3 := account_of member]};
     sessions := {[11 := signed_in 1 "root" false; 33 := signed_in 3 "me" true]};
     capabilities := ∅; jobs := ∅; assets := ∅; inflight := ∅; calls := [] |}.
Definition small_system : system := {| state := small_world; claimed := ∅ |}.
Definition at_time (t : Z) : moment := {| m_connected := true; m_now := t; m_gate := fun _ => true |}.
