(* ===== verification/AccountsSpec.v ===== *)
(** * What role changes, states and deletion promise

    An installation keeps an administrator, a claimed account is never given
    back, a deletion waits out its window, and where the code departs from
    that last promise. *)

From S2P Require Import Prelude Hashes Transactions AccountStore AuthSessions Accounts AccountsFacts.
Open Scope Z_scope.

(** ** Invariants of the system *)

Definition administered (w : world) : Prop := exists id u, users w !! id = Some u /\ is_administrator u.

(** A claimed account is gone or being purged. *)
Definition claims_sound (s : system) : Prop :=
  forall id u, id ∈ claimed s -> users (state s) !! id = Some u -> u_state u = purging.

Lemma remaining_exists id w :
  remaining_administrators id w <> O ->
  exists other u, other <> id /\ users w !! other = Some u /\ is_administrator u.
Proof.
  intros H. apply map_size_ne_0_lookup in H as (other & u & Hu).
  apply map_lookup_filter_Some in Hu as (Hu & Ha & Hne). by exists other, u.
Qed.

(** A step that rewrites one user leaves an administrator when that user stays
    one or another is left. *)
Lemma administered_update w w' id (t t' : user) :
  administered w -> users w !! id = Some t -> users w' = <[id := t']> (users w) ->
  (is_administrator t -> is_administrator t' \/ remaining_administrators id w <> O) ->
  administered w'.
Proof.
  intros (a & u & Ha & Hu) Ht Hw Hstep. destruct (decide (a = id)) as [->|Hne].
  - rewrite Ht in Ha. injection Ha as <-. destruct (Hstep Hu) as [Hadmin|Hleft].
    + exists id, t'. rewrite Hw. by rewrite lookup_insert_eq.
    + apply remaining_exists in Hleft as (o & v & Hne & Hv & Hadmin). exists o, v.
      rewrite Hw, lookup_insert_ne by congruence. done.
  - exists a, u. rewrite Hw, lookup_insert_ne by congruence. done.
Qed.

Lemma not_active_administrator t : u_state t <> active -> ~ is_administrator t.
Proof. by intros H [_ ?]. Qed.

Lemma due_not_active cutoff t : is_due cutoff t = true -> u_state t <> active.
Proof.
  unfold is_due, is_leaving. intros [H%bool_decide_eq_true _]%andb_true_iff Hact. rewrite Hact in H.
  rewrite !elem_of_cons, elem_of_nil in H. naive_solver.
Qed.

Lemma claims_sound_step o s : claims_sound s -> claims_sound (account_run s o).
Proof.
  intros Hs id u Hin Hu. destruct (account_run_claimed o s) as [Hc|(m & c & i & Ho & Hc & t & Ht & _ & Hu')].
  - rewrite Hc in Hin. assert (Hold : forall v, users (state s) !! id = Some v -> u_state v = purging)
      by (intros v Hv; by eapply Hs).
    revert Hu. destruct (account_run_users o s) as [|i t r _ Ht Hg|i t r _ Ht Htr Hg|i t m Ho Ht Hl|i t _ Ht Hsd
      |i t c m Ho Ht Hd|i Hi]; [apply Hold|..];
      (destruct (decide (i = id)) as [->|Hne];
       [rewrite ?lookup_insert_eq, ?lookup_delete_eq|
        rewrite ?lookup_insert_ne, ?lookup_delete_ne by done; apply Hold]).
    + intros [= <-]. exact (Hold _ Ht).
    + intros [= <-]. rewrite (Hold _ Ht) in Htr. by apply elem_of_nil in Htr.
    + intros [= <-]. by rewrite (Hold _ Ht) in Hl.
    + intros [= <-]. rewrite (Hold _ Ht) in Hsd. done.
    + by intros [= <-].
    + done.
  - rewrite Hu' in Hu. destruct (decide (i = id)) as [->|Hne].
    + rewrite lookup_insert_eq in Hu. by injection Hu as <-.
    + rewrite lookup_insert_ne in Hu by done. eapply Hs; [|exact Hu]. rewrite Hc in Hin. set_solver.
Qed.

Lemma claims_sound_run os s : claims_sound s -> claims_sound (account_runs s os).
Proof.
  revert s. induction os as [|o os IH]; intros s Hs; [done|]. apply IH. by apply claims_sound_step.
Qed.

(** ** An administrator is always left *)

(** The steps other than an account asking for its own deletion. *)
Definition not_own_deletion (o : account_step) : Prop := match o with AskDeletion _ _ => False | _ => True end.

Lemma administered_step o s :
  claims_sound s -> not_own_deletion o -> administered (state s) -> administered (state (account_run s o)).
Proof.
  intros Hs Ho Ha. remember (users (state (account_run s o))) as us eqn:E. symmetry in E.
  pose proof (account_run_users o s) as Hc. rewrite E in Hc.
  destruct Hc as [|i t r _ Ht Hg|i t r _ Ht Htr Hg|i t m -> _ _|i t _ Ht Hsd|i t c m _ Ht Hd|i Hi].
  - destruct Ha as (a & u & Hu & Hadm). exists a, u. by rewrite E.
  - eapply (administered_update _ _ i); [done..|]. intros [H1 H2].
    destruct Hg as [->|[?|?]]; [left; by split|done|by right].
  - eapply (administered_update _ _ i); [done..|]. intros [H1 H2].
    destruct Hg as [Hact|[?|?]]; [left; by split|done|by right].
  - done.
  - eapply (administered_update _ _ i); [done..|]. intros H%not_active_administrator; [done|congruence].
  - eapply (administered_update _ _ i); [done..|]. intros H%not_active_administrator; [done|].
    by eapply due_not_active.
  - destruct Ha as (a & u & Hu & Hadm). exists a, u. split; [|done]. rewrite E, lookup_delete_ne; [done|].
    intros ->. pose proof (Hs _ _ Hi Hu). by destruct Hadm as [_ ?]; congruence.
Qed.

(** C28 An installation keeps an active administrator: no interleaving of role
    changes, state changes, restores, purges, sign-ins and revocations leaves
    it without one, whatever the order of their transactions; only an account
    asking for its own deletion can.  Demoting or suspending the last one is
    answered 403 and changes nothing. *)
Theorem last_administrator_kept s os :
  claims_sound s -> Forall not_own_deletion os -> administered (state s) ->
  administered (state (account_runs s os))
  /\ (forall m later actor id u change principal target,
        id <> actor -> m_connected m = true -> m_gate m (budget_lock id) = true ->
        users (state s) !! id = Some u -> is_administrator u -> remaining_administrators id (state s) = O ->
        (rc_role change <> admin ->
           change_role m actor id change principal (state s)
           = (Err (HTTPException 403 "the last administrator cannot be demoted"), state s))
        /\ (target <> to_active ->
              change_state m later actor id target (state s)
              = (Err (HTTPException 403 "the last administrator cannot be suspended"), state s))).
Proof.
  intros Hs Hos Ha. split.
  - revert s Hs Ha. induction Hos as [|o os Ho Hos IH]; intros s Hs Ha; [done|].
    apply IH; [by apply claims_sound_step|by apply administered_step].
  - intros m later actor id u change principal target Hne Hconn Hgate Hu [Hadm Hact] Hlast.
    assert (Hself : (id =? actor) = false) by by apply Z.eqb_neq.
    split; intros Hkind.
    + assert (Hin : change_role_in m id change principal (state s)
                    = Err (HTTPException 403 "the last administrator cannot be demoted")).
      { unfold change_role_in. txn_run. rewrite Hgate. cbn [orb]. rewrite Hu, decide_False by done. txn_run.
        by rewrite bool_decide_true, Hlast by done. }
      unfold change_role. rewrite Hself, Hconn. cbn [negb]. unfold mbind, action_bind, atomic. by rewrite Hin.
    + assert (Hin : change_state_in m id target (state s)
                    = Err (HTTPException 403 "the last administrator cannot be suspended")).
      { unfold change_state_in. txn_run. rewrite Hgate. cbn [orb]. rewrite Hu. txn_run. rewrite Hact.
        assert (Hne' : state_of target <> active) by (by destruct target).
        rewrite decide_False by congruence.
        rewrite (bool_decide_true (state_of target ∈ _)) by (destruct target; [done|..]; cbn; rewrite !elem_of_cons; auto).
        cbn [negb]. rewrite Hlast, Hadm, bool_decide_false, bool_decide_true by done. done. }
      unfold change_state. rewrite Hself, Hconn. cbn [negb]. unfold mbind, action_bind, atomic. by rewrite Hin.
Qed.

(** ** The purge *)

(** An account the sweep has claimed is never given back, and only claimed
    accounts are removed: under any interleaving, while the sweep removes an
    account's objects between its two transactions, no restore, role change
    or state change makes the account anything but purging, and an account
    that disappears was claimed, which happens only to an account leaving
    whose request is older than the cutoff. *)
Theorem claimed_never_given_back s os :
  claims_sound s ->
  (forall id u, id ∈ claimed s -> users (state (account_runs s os)) !! id = Some u -> u_state u = purging)
  /\ (forall id u, users (state s) !! id = Some u -> users (state (account_runs s os)) !! id = None ->
        id ∈ claimed (account_runs s os))
  /\ (forall o id, id ∈ claimed (account_run s o) -> id ∉ claimed s ->
        exists m cutoff t, o = ClaimPurge m cutoff id /\ users (state s) !! id = Some t
                           /\ is_due cutoff t = true).
Proof.
  intros Hs.
  assert (Hmono : forall os s, claimed s ⊆ claimed (account_runs s os)).
  { clear. induction os as [|o os IH]; intros s; [done|]. etransitivity; [|apply IH].
    destruct (account_run_claimed o s) as [->|(? & ? & ? & _ & -> & _)]; set_solver. }
  split; [|split].
  - intros id u Hin Hu. eapply (claims_sound_run os s Hs); [|exact Hu]. by apply Hmono.
  - clear Hs. revert s. induction os as [|o os IH]; intros s id u Hu Hgone; [cbn in Hgone; congruence|].
    cbn in Hgone |- *. destruct (users (state (account_run s o)) !! id) as [v|] eqn:E; [by eapply IH|].
    apply (Hmono os). revert E.
    assert (Hin : forall i j (t : user), users (state s) !! i = Some t ->
              <[j := t]> (users (state s)) !! id = None -> False).
    { intros i j t _ H%lookup_insert_None. destruct H. congruence. }
    pose proof (account_run_claimed o s) as Hcl.
    destruct (account_run_users o s) as [|i t r _ Ht Hg|i t r _ Ht Htr Hg|i t m Ho Ht Hl|i t _ Ht Hsd
      |i t c m Ho Ht Hd|i Hi]; [congruence|intros [E _]%lookup_insert_None; congruence..|].
    intros [->|E]%lookup_delete_None; [|congruence].
    destruct Hcl as [->|(? & ? & ? & _ & -> & _)]; set_solver.
  - intros o id Hin Hnot. destruct (account_run_claimed o s) as [Hc|(m & c & i & -> & Hc & t & Ht & Hd & _)].
    + by rewrite Hc in Hin.
    + assert (i = id) as -> by (rewrite Hc in Hin; set_solver). by exists m, c, t.
Qed.

(** ** The window of a deletion *)

(** The sweep computes its cutoff from a clock read no later than the step. *)
Definition sweeps_by_clock (o : account_step) : Prop :=
  match o with ClaimPurge m cutoff _ => cutoff <= m_now m - RESTORE_WINDOW | _ => True end.

Lemma untouched_user_kept id u asked s o :
  users (state s) !! id = Some u -> id ∉ claimed s -> u_requested u = Some asked ->
  sweeps_by_clock o -> m_now (step_moment o) <= asked + RESTORE_WINDOW -> targets id o = false ->
  users (state (account_run s o)) !! id = Some u /\ id ∉ claimed (account_run s o).
Proof.
  intros Hu Hin Hasked Hsweep Hnow Htarget.
  assert (Hdue : forall m c, o = ClaimPurge m c id -> is_due c u = false).
  { intros m c ->. cbn in *. unfold is_due. rewrite Hasked, (proj2 (Z.ltb_ge _ _)) by lia. apply andb_false_r. }
  split.
  - destruct (account_run_users o s) as [|i t r Ho|i t r Ho|i t m -> _ _|i t Ho|i t c m -> Ht Hd|i Hi]; [done|..].
    all: destruct (decide (i = id)) as [->|Hne];
      [|rewrite ?lookup_insert_ne, ?lookup_delete_ne by done; exact Hu]; try congruence.
    + cbn in Htarget. by rewrite Z.eqb_refl in Htarget.
    + rewrite Hu in Ht. injection Ht as <-. by rewrite (Hdue _ _ eq_refl) in Hd.
  - destruct (account_run_claimed o s) as [->|(m & c & i & -> & -> & t & Ht & Hd & _)]; [done|].
    intros [->%elem_of_singleton|?]%elem_of_union; [|done].
    rewrite Hu in Ht. injection Ht as <-. by rewrite (Hdue _ _ eq_refl) in Hd.
Qed.

(** The row [restore] gives back. *)
Definition given_back (asked : Z) (u : user) : user :=
  {| u_role := u_role u; u_state := u_state u; u_verified := u_verified u; u_prior := None;
     u_requested := Some asked |}.

(** C32 A deletion waits out its window: after an account asks to leave, no
    interleaving of other accounts' requests, sign-ins, cancels and sweeps
    within thirty days claims or removes it, and a restore then gives back
    the row it had, in the state it had, keeping only the date of the
    request. *)
Theorem deletion_waits_out_window m id u s w os m' :
  users (state s) !! id = Some u -> id ∉ claimed s ->
  request m id (state s) = Ok (true, w) ->
  Forall (fun o => sweeps_by_clock o /\ m_now (step_moment o) <= m_now m + RESTORE_WINDOW
                   /\ targets id o = false) os ->
  m_now m' <= m_now m + RESTORE_WINDOW -> m_gate m' (budget_lock id) = true ->
  let s' := account_runs {| state := w; claimed := claimed s |} os in
  (id ∉ claimed s') /\ users (state s') !! id = Some (ask_deletion (m_now m) u)
  /\ (exists w', restore_in m' id (state s') = Ok (true, w')
        /\ users w' = <[id := given_back (m_now m) u]> (users (state s'))).
Proof.
  intros Hu Hin Hask Hos Hnow Hgate s'.
  assert (Hkept : users (state s') !! id = Some (ask_deletion (m_now m) u) /\ id ∉ claimed s').
  { apply request_ok in Hask as [[? _]|(t & _ & Ht & _ & Hw & _)]; [done|].
    rewrite Hu in Ht. injection Ht as <-.
    assert (H0 : users (state {| state := w; claimed := claimed s |}) !! id = Some (ask_deletion (m_now m) u)
                 /\ id ∉ claimed {| state := w; claimed := claimed s |}).
    { cbn [state claimed]. by rewrite Hw, lookup_insert_eq. }
    revert H0. subst s'. generalize ({| state := w; claimed := claimed s |}) as s0.
    induction Hos as [|o os (H1 & H2 & H3) Hos IH]; intros s0 [Hu0 Hc0]; [done|].
    apply IH. by eapply untouched_user_kept. }
  destruct Hkept as [Hrow Hclaim]. split; [done|]. split; [done|].
  unfold restore_in. txn_run. rewrite Hgate. cbn [orb]. rewrite Hrow. cbn [ask_deletion u_state u_requested].
  rewrite (proj2 (Z.ltb_ge _ _)) by lia. rewrite bool_decide_true by done. cbn [andb negb].
  rewrite decide_False by done. eexists. split; [reflexivity|]. done.
Qed.

(** Where the administrator's form departs from that: a state change to
    [deletion_pending] notes neither the date nor the state it leaves.  An
    account that never asked to leave is then due at no cutoff, so no sweep
    ever finishes its deletion; one that asked and was restored more than
    thirty days before is due at once, its restore is refused, and had it not
    been for the old date the restore would have made it active whatever
    state it was in. *)
Theorem administrator_deletion_has_no_window m id t w w' a :
  users w !! id = Some t -> u_state t <> deletion_pending ->
  change_state_in m id to_deletion_pending w = Ok (a, w') ->
  exists t', users w' !! id = Some t' /\ u_state t' = deletion_pending
    /\ (u_requested t = None -> forall cutoff, is_due cutoff t' = false)
    /\ (forall asked, u_requested t = Some asked -> asked < m_now m - RESTORE_WINDOW ->
          is_due (m_now m - RESTORE_WINDOW) t' = true
          /\ forall m', m_now m <= m_now m' -> m_gate m' (budget_lock id) = true ->
               restore_in m' id w'
               = Err (HTTPException 409 "that account passed its 30 day restore window"))
    /\ (u_prior t = None -> u_state (bring_back t') = active).
Proof.
  intros Ht Hs H. apply change_state_in_ok in H as (t0 & Ht0 & [(_ & _ & Hd)|(l & _ & _ & _ & Hu & _)]).
  { rewrite Ht in Ht0. injection Ht0 as <-. done. }
  rewrite Ht in Ht0. injection Ht0 as <-. exists (set_state deletion_pending t).
  rewrite Hu, lookup_insert_eq. split; [done|]. split; [done|]. split; [|split].
  - intros Hnone cutoff. unfold is_due. cbn [set_state u_state u_requested]. rewrite Hnone. apply andb_false_r.
  - intros asked Hasked Hold. split.
    + unfold is_due. cbn [set_state u_state u_requested]. rewrite Hasked, (proj2 (Z.ltb_lt _ _)) by done. done.
    + intros m' Hnow Hgate. unfold restore_in. txn_run. rewrite Hgate. cbn [orb].
      rewrite Hu, lookup_insert_eq. cbn [set_state u_state u_requested state_of].
      rewrite Hasked, (proj2 (Z.ltb_lt _ _)) by lia. done.
  - intros Hp. cbn [bring_back set_state u_state u_prior]. by rewrite Hp.
Qed.

(** ** Instances *)

Lemma small_claims : claims_sound small_system.
Proof. by intros id u H%elem_of_empty. Qed.

Lemma last_administrator_kept_witness :
  administered (state (account_runs small_system
    [ChangeState (at_time 5) 1 to_suspended; ChangeState (at_time 6) 2 to_suspended])).
Proof.
  apply (last_administrator_kept small_system
           [ChangeState (at_time 5) 1 to_suspended; ChangeState (at_time 6) 2 to_suspended] small_claims).
  - repeat constructor.
  - exists 1, (account_of admin). split; [reflexivity|split; reflexivity].
Defined.

(** The member left 31 days ago and the sweep has claimed the account. *)
Definition claimed_system : system :=
  account_runs small_system [AskDeletion (at_time 0) 3; ClaimPurge (at_time (31 * day)) day 3].

Lemma claimed_never_given_back_witness :
  u_state <$> users (state (account_runs claimed_system [RestoreAccount (at_time (31 * day)) 3])) !! 3
  = Some purging.
Proof.
  destruct (users (state (account_runs claimed_system [RestoreAccount (at_time (31 * day)) 3])) !! 3)
    as [u|] eqn:E; [|vm_compute in E; discriminate E].
  cbn. f_equal. revert E.
  apply (claimed_never_given_back claimed_system [RestoreAccount (at_time (31 * day)) 3]).
  - apply (claims_sound_run _ small_system small_claims).
  - refine (bool_decide_unpack _ _). vm_compute. exact I.
Defined.

Definition asked : world :=
  match request (at_time 0) 3 small_world with Ok (_, w) => w | Err _ => small_world end.

Lemma deletion_waits_out_window_witness :
  3 ∉ claimed (account_runs {| state := asked; claimed := ∅ |} [ClaimPurge (at_time (29 * day)) (- day) 3]).
Proof.
  refine (proj1 (deletion_waits_out_window (at_time 0) 3 (account_of member) small_system asked
    [ClaimPurge (at_time (29 * day)) (- day) 3] (at_time (29 * day)) _ _ _ _ _ _)).
  - reflexivity.
  - apply not_elem_of_empty.
  - vm_compute. reflexivity.
  - repeat constructor; vm_compute; discriminate.
  - vm_compute. discriminate.
  - reflexivity.
Defined.

(** The member asked to leave on day 0 and was restored; an administrator asks
    for the deletion on day 40. *)
Definition restored : world :=
  state (account_runs small_system [AskDeletion (at_time 0) 3; RestoreAccount (at_time day) 3]).
Definition deleted_by_form : world :=
  match change_state_in (at_time (40 * day)) 3 to_deletion_pending restored with
  | Ok (_, w) => w | Err _ => restored end.

Lemma administrator_deletion_has_no_window_witness :
  exists t', users deleted_by_form !! 3 = Some t' /\ is_due (10 * day) t' = true.
Proof.
  destruct (administrator_deletion_has_no_window (at_time (40 * day)) 3
    {| u_role := member; u_state := active; u_verified := true; u_prior := None; u_requested := Some 0 |}
    restored deleted_by_form (Some [])) as (t' & Ht & _ & _ & Hdue & _).
  - vm_compute. reflexivity.
  - discriminate.
  - vm_compute. reflexivity.
  - exists t'. split; [exact Ht|]. apply (Hdue 0); vm_compute; reflexivity.
Defined.
