(* ===== verification/AuthSessionsSpec.v ===== *)
(** * What browser sessions promise

    Tokens name one row each, an ended session stays ended under any
    interleaving, one of two rotations of the same cookie wins, and a session
    lives no longer than it was issued for. *)

From S2P Require Import Prelude Hashes Transactions AccountStore AuthSessions Accounts AccountsFacts.
Open Scope Z_scope.

(** ** Rows and tokens *)

Definition tokens_unique (w : world) : Prop :=
  forall i j a b, sessions w !! i = Some a -> sessions w !! j = Some b -> s_token a = s_token b -> i = j.

Lemma lookup_revoke_where p now rows id :
  revoke_where p now rows !! id = (fun r => if p id r then set_revoked now r else r) <$> rows !! id.
Proof. unfold revoke_where. rewrite map_lookup_imap. by destruct (rows !! id). Qed.

Lemma set_revoked_token (b : bool) now r : s_token (if b then set_revoked now r else r) = s_token r.
Proof. by destruct b. Qed.

Lemma token_taken_false hash rows id r :
  token_taken hash rows = false -> rows !! id = Some r -> s_token r <> hash.
Proof.
  unfold token_taken. intros H%bool_decide_eq_false Hr Heq. apply H. by exists id, r.
Qed.

(** A row lives as long as it was issued for, and a remembered one has an idle
    window. *)
Definition row_sound (r : session_row) : Prop :=
  s_absolute r = s_created r + (if s_remember r then REMEMBER_ABSOLUTE else ABSOLUTE)
  /\ (s_remember r = true -> is_Some (s_idle r)).
Definition rows_sound (w : world) : Prop :=
  tokens_unique w /\ forall id r, sessions w !! id = Some r -> row_sound r.

(** What every transaction keeps: accounts that are gone stay gone, an ended
    row stays as it is while its account is there, and the rows stay sound. *)
Record evolves (w w' : world) : Prop := {
  ev_users : forall u, users w !! u = None -> users w' !! u = None;
  ev_ended : forall id r, sessions w !! id = Some r -> is_Some (s_revoked r) ->
    sessions w' !! id = Some r \/ users w' !! s_user r = None;
  ev_sound : rows_sound w -> rows_sound w'
}.
Global Instance evolves_preorder : PreOrder evolves.
Proof.
  split; [by constructor; auto|]. intros a b c H1 H2. constructor.
  - intros u Hu. by apply H2, H1.
  - intros id r Hr He. destruct (ev_ended _ _ H1 id r Hr He) as [Hb|Hb]; [by apply H2|].
    right. by apply H2.
  - intros Hs. by apply H2, H1.
Qed.

(** A step that leaves the sessions alone and invents no account. *)
Lemma evolves_same_sessions w w' :
  (forall u, users w !! u = None -> users w' !! u = None) -> sessions w' = sessions w -> evolves w w'.
Proof.
  intros Hu Hs. constructor; [done|..].
  - intros id r Hr _. left. by rewrite Hs.
  - unfold rows_sound, tokens_unique. by rewrite Hs.
Qed.

Lemma evolves_emit c w : evolves w (emit c w).
Proof. by apply evolves_same_sessions. Qed.

Lemma set_revoked_ended now r : is_Some (s_revoked r) -> set_revoked now r = r.
Proof. destruct r; cbn. by intros [t ->]. Qed.

Lemma evolves_revoked p now w w' :
  (forall u, users w !! u = None -> users w' !! u = None) ->
  sessions w' = revoke_where p now (sessions w) -> evolves w w'.
Proof.
  intros Hu Hs.
  assert (Hrow : forall id r', sessions w' !! id = Some r' ->
            exists r, sessions w !! id = Some r /\ r' = (if p id r then set_revoked now r else r)).
  { intros id r'. rewrite Hs, lookup_revoke_where. destruct (sessions w !! id) as [r|]; [|done].
    intros [= <-]. by exists r. }
  constructor; [done|..].
  - intros id r Hr He. left. rewrite Hs, lookup_revoke_where, Hr. cbn.
    destruct (p id r); [by rewrite set_revoked_ended|done].
  - intros [Hun Hall]. split.
    + intros i j a b Ha Hb Heq. apply Hrow in Ha as (a0 & Ha & ->). apply Hrow in Hb as (b0 & Hb & ->).
      rewrite !set_revoked_token in Heq. by eapply Hun.
    + intros id r' Hr'. apply Hrow in Hr' as (r & Hr & ->). specialize (Hall _ _ Hr).
      by destruct (p id r).
Qed.

(** A row whose session is live is rewritten. *)
Lemma evolves_update id r r' w :
  sessions w !! id = Some r -> s_revoked r = None -> (row_sound r -> row_sound r') ->
  (s_token r' = s_token r \/ token_taken (s_token r') (delete id (sessions w)) = false) ->
  evolves w (on_sessions (insert id r') w).
Proof.
  intros Hr Hlive Hrow Htok. constructor; [done|..].
  - intros i q Hq He. left. cbn. rewrite lookup_insert_ne; [done|].
    intros ->. rewrite Hr in Hq. injection Hq as <-. rewrite Hlive in He. by destruct He.
  - intros [Hun Hall].
    assert (Hother : forall i q, i <> id -> sessions w !! i = Some q -> s_token q <> s_token r').
    { intros i q Hne Hq Heq. destruct Htok as [Ht|Ht].
      - rewrite Ht in Heq. by apply Hne, (Hun _ _ _ _ Hq Hr).
      - eapply (token_taken_false _ _ i q); [exact Ht| |exact Heq]. by rewrite lookup_delete_ne by done. }
    split.
    + intros i j a b. cbn. intros Ha Hb Heq.
      destruct (decide (i = id)) as [->|Hi], (decide (j = id)) as [->|Hj];
        rewrite ?lookup_insert_eq, ?lookup_insert_ne in * by done; [done|..].
      * injection Ha as <-. by destruct (Hother j b).
      * injection Hb as <-. by destruct (Hother i a).
      * by eapply Hun.
    + intros i q Hq. cbn in Hq. destruct (decide (i = id)) as [->|Hi].
      * rewrite lookup_insert_eq in Hq. injection Hq as <-. by apply Hrow, (Hall id).
      * rewrite lookup_insert_ne in Hq by done. by eapply Hall.
Qed.

Lemma evolves_insert_session id r : row_sound r -> keeps evolves (insert_session id r).
Proof.
  intros Hrow w a w' H. unfold insert_session in H.
  destruct (bool_decide (is_Some _)) eqn:Eid; [done|]. apply bool_decide_eq_false in Eid.
  destruct (bool_decide _) in H; [done|]. destruct (token_taken _ _) eqn:Etok; [done|].
  injection H as _ <-. apply eq_None_not_Some in Eid. constructor; [done|..].
  - intros i q Hq He. left. cbn. rewrite lookup_insert_ne; congruence.
  - intros [Hun Hall].
    assert (Hnew : forall i q, sessions w !! i = Some q -> s_token q <> s_token r)
      by (intros i q; by apply token_taken_false).
    split.
    + intros i j a1 b. cbn. intros Ha Hb Heq.
      destruct (decide (i = id)) as [->|Hi], (decide (j = id)) as [->|Hj];
        rewrite ?lookup_insert_eq, ?lookup_insert_ne in * by done; [done|..].
      * injection Ha as <-. by destruct (Hnew j b).
      * injection Hb as <-. by destruct (Hnew i a1).
      * by eapply Hun.
    + intros i q Hq. cbn in Hq. destruct (decide (i = id)) as [->|Hi].
      * rewrite lookup_insert_eq in Hq. by injection Hq as <-.
      * rewrite lookup_insert_ne in Hq by done. by eapply Hall.
Qed.

Lemma evolves_swap_token p hash : keeps evolves (swap_token p hash).
Proof.
  intros w a w' H. unfold swap_token in H. destruct (sessions w !! r_id p) as [r|] eqn:Er; [|done].
  destruct (_ && _) eqn:E; [|done]. apply andb_true_iff in E as [_ E%bool_decide_eq_true].
  destruct (token_taken _ _) eqn:Et; [done|]. injection H as _ <-.
  apply (evolves_update _ r); auto.
Qed.

(** ** Every step evolves *)

Lemma find_token_some token w id r u :
  find_token token w = Some (id, r, u) ->
  sessions w !! id = Some r /\ s_token r = token_hash token /\ users w !! s_user r = Some u.
Proof.
  unfold find_token. destruct (list_find _ _) as [[n [i q]]|] eqn:E; [|done].
  apply list_find_Some in E as (Hl & Ht & _). apply list_elem_of_lookup_2, elem_of_map_to_list in Hl.
  destruct (users w !! s_user q) as [v|] eqn:Eu; [|done]. by intros [= <- <- <-].
Qed.

Lemma not_expired_live now r : expired now r = false -> s_revoked r = None.
Proof.
  unfold expired. intros H. apply orb_false_iff in H as [H _]. apply orb_false_iff in H as [H _].
  apply bool_decide_eq_false in H. by apply eq_None_not_Some.
Qed.

Lemma touched_sound now u r : row_sound r -> row_sound (touched now u r).
Proof. intros [H1 H2]. split; [done|]. cbn. intros Hr. by destruct (H2 Hr) as [t ->]. Qed.

Lemma mint_in_evolves m d user_id u remember authenticated :
  keeps evolves (mint_in m d user_id u remember authenticated).
Proof.
  unfold mint_in.
  destruct (decide (u_role u = admin)); [|destruct remember]; keep;
    apply evolves_insert_session; split; cbn; done || (intros _; by eexists).
Qed.

Lemma resolve_in_evolves now token : keeps evolves (resolve_in now token).
Proof.
  intros w a w' H. unfold resolve_in in H. txn_inv.
  destruct (find_token token w) as [[[id r] u]|] eqn:E; [|by txn_inv].
  apply find_token_some in E as (Hr & _ & _). destruct (expired now r) eqn:Ee; [by txn_inv|].
  destruct (due_for_touch now r); txn_inv; [|done].
  apply (evolves_update _ r); [done|by eapply not_expired_live|apply touched_sound|by left].
Qed.

Lemma revoke_account_evolves user_id now w : evolves w (revoke_account user_id now w).
Proof. by eapply evolves_revoked. Qed.

#[local] Hint Resolve evolves_emit evolves_swap_token revoke_account_evolves : keeps.
#[local] Hint Extern 3 (evolves _ _) => by apply evolves_same_sessions : keeps.
#[local] Hint Extern 4 (evolves _ _) => by eapply evolves_revoked : keeps.
#[local] Hint Extern 3 (keeps _ (hold_the_account _ _ _)) => apply hold_keeps; apply _ : keeps.

Lemma rotate_others_evolves m d p spend : keeps evolves (rotate_and_revoke_others m d p spend).
Proof.
  unfold rotate_and_revoke_others. keep; intros; auto with keeps. destruct spend; auto with keeps.
Qed.
Lemma revoke_in_evolves m id : keeps evolves (revoke_in m id).
Proof. unfold revoke_in. keep; intros; auto with keeps. Qed.
Lemma revoke_all_in_evolves m id : keeps evolves (revoke_all_in m id).
Proof. unfold revoke_all_in. keep; intros; auto with keeps. Qed.
Lemma rotate_in_evolves m id u : keeps evolves (rotate_in m id u).
Proof. unfold rotate_in. keep; intros; auto with keeps. Qed.
Lemma cancel_in_evolves m id reason : keeps evolves (cancel_in m id reason).
Proof. unfold cancel_in. keep; intros; auto with keeps. Qed.

(** A row of a user rewritten in place invents no account. *)
Lemma users_updated (us us' : gmap Z user) i (t t' : user) :
  us !! i = Some t -> us' = <[i := t']> us -> forall u, us !! u = None -> us' !! u = None.
Proof. intros Ht -> u Hu. rewrite lookup_insert_ne; congruence. Qed.

Lemma evolves_removed id w w' :
  users w' = delete id (users w) ->
  sessions w' = filter (fun kv : Z * session_row => s_user kv.2 <> id) (sessions w) -> evolves w w'.
Proof.
  intros Hu Hs.
  assert (Hrow : forall i r, sessions w' !! i = Some r -> sessions w !! i = Some r)
    by (intros i r; rewrite Hs; by intros [? _]%map_lookup_filter_Some).
  constructor.
  - intros u Hn. rewrite Hu. destruct (decide (u = id)) as [->|Hne]; [apply lookup_delete_eq|].
    by rewrite lookup_delete_ne.
  - intros i r Hr _. destruct (decide (s_user r = id)) as [->|Hne].
    + right. rewrite Hu. apply lookup_delete_eq.
    + left. rewrite Hs. by apply map_lookup_filter_Some.
  - intros [Hun Hall]. split; [|by eauto]. intros i j a b Ha Hb. by apply Hun; apply Hrow.
Qed.

Lemma account_run_evolves o s : evolves (state s) (state (account_run s o)).
Proof.
  assert (Hc : forall A (m : txn world A), keeps evolves m -> evolves (state s) (state (commit m s))).
  { intros A m Hm. destruct (commit_cases m s) as [->|(a & w & H & ->)]; [done|]. by eapply Hm. }
  destruct o; cbn [account_run].
  - apply Hc. intros w [] w' H. apply change_role_in_ok in H as (t & Ht & _ & Hu & Hs & _).
    eapply evolves_revoked; [by eapply users_updated|exact Hs].
  - apply Hc. intros w a w' H. apply change_state_in_ok in H as (t & Ht & [(_ & -> & _)|(l & _ & _ & _ & Hu & Hs)]);
      [done|]. case_decide; [apply evolves_same_sessions; [by eapply users_updated|done]|].
    eapply evolves_revoked; [by eapply users_updated|exact Hs].
  - apply Hc. intros w a w' H. apply request_ok in H as [[_ ->]|(t & _ & Ht & _ & Hu & Hs)]; [done|].
    eapply evolves_revoked; [by eapply users_updated|exact Hs].
  - apply Hc. intros w a w' H. apply restore_in_ok in H as [[_ ->]|(t & _ & Ht & _ & _ & Hu & Hs)]; [done|].
    apply evolves_same_sessions; [by eapply users_updated|done].
  - destruct (claim_in m cutoff user_id (state s)) as [[[] w]|] eqn:H; [|done..].
    apply claim_in_ok in H as [[? _]|(t & _ & Ht & _ & Hu & Hs)]; [done|].
    apply evolves_same_sessions; [by eapply users_updated|done].
  - destruct (decide (user_id ∈ claimed s)); [|done]. apply Hc. intros w [] w' H.
    apply remove_in_ok in H as [Hu Hs]. by eapply evolves_removed.
  - apply Hc, cancel_in_evolves.
  - apply Hc, mint_in_evolves.
  - apply Hc, resolve_in_evolves.
  - apply Hc, rotate_others_evolves.
  - apply Hc, revoke_in_evolves.
  - apply Hc, revoke_all_in_evolves.
  - apply Hc, rotate_in_evolves.
Qed.

Lemma account_runs_evolve os s : evolves (state s) (state (account_runs s os)).
Proof.
  revert s. induction os as [|o os IH]; intros s; [done|]. etransitivity; [apply account_run_evolves|apply IH].
Qed.

(** ** What ends sessions *)

Definition all_ended (user_id : Z) (w : world) : Prop :=
  forall id r, sessions w !! id = Some r -> s_user r = user_id -> is_Some (s_revoked r).

(** The transactions that take authority away from an account. *)
Inductive authority_change (user_id : Z) (w w' : world) : Prop :=
| by_role m change principal : change_role_in m user_id change principal w = Ok (tt, w') -> authority_change user_id w w'
| by_state m change l : state_of change <> active ->
    change_state_in m user_id change w = Ok (Some l, w') -> authority_change user_id w w'
| by_deletion m : request m user_id w = Ok (true, w') -> authority_change user_id w w'
| by_revocation m : revoke_all_in m user_id w = Ok (tt, w') -> authority_change user_id w w'.

Lemma set_revoked_some now r : is_Some (s_revoked (set_revoked now r)).
Proof. cbn. destruct (s_revoked r); by eexists. Qed.

Lemma authority_change_rows user_id w w' :
  authority_change user_id w w' ->
  evolves w w' /\ exists now, sessions w' = sessions (revoke_account user_id now w).
Proof.
  intros H. assert (Hs : exists now, sessions w' = sessions (revoke_account user_id now w)).
  { destruct H as [m change p H|m change l Hne H|m H|m H].
    - apply change_role_in_ok in H as (t & _ & _ & _ & Hs & _). eauto.
    - apply change_state_in_ok in H as (t & _ & [(? & _)|(l' & _ & _ & _ & _ & Hs)]); [done|].
      rewrite decide_False in Hs by done. eauto.
    - apply request_ok in H as [[? _]|(t & _ & _ & _ & _ & Hs)]; [done|]. eauto.
    - unfold revoke_all_in in H. txn_inv. by exists (m_now m). }
  split; [|done]. destruct Hs as [now Hs]. eapply evolves_revoked; [|exact Hs].
  destruct H as [m change p H|m change l Hne H|m H|m H].
  - apply change_role_in_ok in H as (t & Ht & _ & Hu & _). by eapply users_updated.
  - apply change_state_in_ok in H as (t & Ht & [(? & _)|(l' & _ & _ & _ & Hu & _)]); [done|].
    by eapply users_updated.
  - apply request_ok in H as [[? _]|(t & _ & Ht & _ & Hu & _)]; [done|]. by eapply users_updated.
  - apply revoke_all_in_same_users in H. by rewrite H.
Qed.

Lemma find_token_unique token w id r :
  tokens_unique w -> sessions w !! id = Some r -> s_token r = token_hash token ->
  find_token token w = (fun u => (id, r, u)) <$> users w !! s_user r.
Proof.
  intros Hun Hr Ht. unfold find_token.
  destruct (list_find _ _) as [[n [i q]]|] eqn:E.
  - apply list_find_Some in E as (Hl & Hq & _). apply list_elem_of_lookup_2, elem_of_map_to_list in Hl.
    assert (i = id) as -> by (eapply Hun; [done..|]; cbn in Hq; congruence).
    assert (q = r) as -> by congruence. by destruct (users w !! s_user r).
  - apply list_find_None in E. rewrite Forall_forall in E.
    destruct (E (id, r)); [by apply elem_of_map_to_list|done].
Qed.

Lemma ended_not_live now id r w :
  sessions w !! id = Some r -> is_Some (s_revoked r) -> is_live now id w = false.
Proof. intros Hr He. unfold is_live. by rewrite Hr, bool_decide_true. Qed.

Lemma ended_not_resolved now token id r w :
  tokens_unique w -> sessions w !! id = Some r -> s_token r = token_hash token -> is_Some (s_revoked r) ->
  resolve_in now token w = Ok (None, w).
Proof.
  intros Hun Hr Ht He. unfold resolve_in. txn_run. rewrite (find_token_unique _ _ _ _ Hun Hr Ht).
  destruct (users w !! s_user r) as [u|]; [|done]. cbn.
  unfold expired. by rewrite bool_decide_true by done.
Qed.

(** A change of authority ends every session of the account for good: after
    a role change, a suspension, a disabling, a request to leave or a
    revocation commits, no interleaving of requests, sign-ins and rotations
    makes a session row the account had then live again, and its token
    resolves to nothing, for as long as the account exists. *)
Theorem authority_change_ends_sessions user_id s w os id r now :
  rows_sound (state s) -> authority_change user_id (state s) w ->
  sessions (state s) !! id = Some r -> s_user r = user_id ->
  let s' := account_runs {| state := w; claimed := claimed s |} os in
  users (state s') !! user_id = None
  \/ exists r', sessions (state s') !! id = Some r' /\ s_token r' = s_token r /\ is_Some (s_revoked r')
       /\ is_live now id (state s') = false
       /\ forall token, token_hash token = s_token r -> resolve_in now token (state s') = Ok (None, state s').
Proof.
  intros Hsound Hchange Hr Hu s'. destruct (authority_change_rows _ _ _ Hchange) as (Hev & t & Hs).
  assert (Hr' : sessions w !! id = Some (set_revoked t r)).
  { rewrite Hs. cbn. rewrite lookup_revoke_where, Hr. cbn. by rewrite (proj2 (Z.eqb_eq _ _)). }
  pose proof (account_runs_evolve os {| state := w; claimed := claimed s |}) as Hruns.
  fold s' in Hruns. cbn [state] in Hruns.
  destruct (ev_ended _ _ Hruns id _ Hr' (set_revoked_some _ _)) as [Hkept|Hgone]; [right|left; by rewrite <- Hu].
  exists (set_revoked t r). split; [done|]. split; [done|]. split; [apply set_revoked_some|].
  split; [by eapply ended_not_live; [|apply set_revoked_some]|]. intros token Htoken.
  eapply ended_not_resolved; [|exact Hkept|done|apply set_revoked_some].
  by apply Hruns, Hev.
Qed.

(** ** Rotation *)

Lemma swap_token_ok p hash w w' :
  swap_token p hash w = Ok (tt, w') ->
  exists r, sessions w !! r_id p = Some r /\ s_token r = s_token (r_session p) /\ s_revoked r = None
    /\ w' = on_sessions (insert (r_id p) (set_token hash r)) w.
Proof.
  unfold swap_token. destruct (sessions w !! r_id p) as [r|]; [|done].
  destruct (_ && _) eqn:E; [|done]. apply andb_true_iff in E as [E1%bool_decide_eq_true E2%bool_decide_eq_true].
  destruct (token_taken _ _); [done|]. intros [= <-]. by exists r.
Qed.

Lemma swap_token_refused p hash w r :
  sessions w !! r_id p = Some r -> s_token r <> s_token (r_session p) -> swap_token p hash w = Err session_changed.
Proof. intros Hr Ht. unfold swap_token. by rewrite Hr, bool_decide_false. Qed.

(** The rotation spares the caller's own row. *)
Definition others_of (p : resolved) (sid : Z) (q : session_row) : bool :=
  (s_user q =? r_user_id p) && negb (sid =? r_id p).
Lemma lookup_spared p now rows : revoke_where (others_of p) now rows !! r_id p = rows !! r_id p.
Proof.
  rewrite lookup_revoke_where. destruct (rows !! r_id p) as [q|]; [|done]. cbn [fmap option_fmap option_map].
  unfold others_of. rewrite Z.eqb_refl. cbn [negb]. by rewrite andb_false_r.
Qed.

Lemma rotate_others_rows m d p spend w i w' :
  rotate_and_revoke_others m d p spend w = Ok (i, w') ->
  i_token i = d_token d
  /\ exists r, sessions w !! r_id p = Some r /\ s_token r = s_token (r_session p) /\ s_revoked r = None
    /\ sessions w' = <[r_id p := set_token (token_hash (d_token d)) r]>
         (revoke_where (others_of p) (m_now m) (sessions w)).
Proof.
  unfold rotate_and_revoke_others. fold (others_of p). intros H. txn_inv. split; [done|].
  match goal with Hs : swap_token _ _ _ = Ok (?x, _) |- _ => destruct x; apply swap_token_ok in Hs as (r & Hr & Ht & Hl & ->) end.
  cbn [sessions on_sessions] in Hr. rewrite lookup_spared in Hr.
  assert (Hsame : sessions ((if spend then spend_mailed (r_user_id p) (m_now m) else id)
                    (emit (erase_realtime_commands (r_user_id p) None (Some (r_id p))) w)) = sessions w)
    by by destruct spend.
  rewrite Hsame in Hr. exists r. split; [done|]. split; [done|]. split; [done|]. cbn. by rewrite Hsame.
Qed.

(** C30 Of two changes made with the same cookie one wins: a rotation that
    commits leaves the caller's session the only live one of the account,
    under the token just issued and otherwise unchanged, and a second request
    that resolved the same cookie before is refused with 409. *)
Theorem rotation_has_one_winner m d p spend w i w' :
  rotate_and_revoke_others m d p spend w = Ok (i, w') ->
  token_hash (i_token i) <> s_token (r_session p) ->
  (exists r, sessions w !! r_id p = Some r /\ sessions w' !! r_id p = Some (set_token (token_hash (i_token i)) r)
             /\ s_revoked r = None)
  /\ (forall id r, sessions w' !! id = Some r -> s_user r = r_user_id p -> s_revoked r = None -> id = r_id p)
  /\ (forall m' d' spend', rotate_and_revoke_others m' d' p spend' w' = Err session_changed).
Proof.
  intros H Hfresh. destruct (rotate_others_rows _ _ _ _ _ _ _ H) as (Hi & r & Hr & Ht & Hl & Hs).
  rewrite Hi in *. split; [|split].
  - exists r. by rewrite Hs, lookup_insert_eq.
  - intros id q Hq Hu Hlive. destruct (decide (id = r_id p)) as [|Hne]; [done|].
    rewrite Hs, lookup_insert_ne, lookup_revoke_where in Hq by done.
    destruct (sessions w !! id) as [q0|]; [|done]. injection Hq as <-.
    assert (Hu0 : s_user q0 = r_user_id p) by (by destruct (others_of p id q0) in Hu).
    assert (Ho : others_of p id q0 = true)
      by (unfold others_of; by rewrite (proj2 (Z.eqb_eq _ _) Hu0), (proj2 (Z.eqb_neq _ _) Hne)).
    rewrite Ho in Hlive.
    destruct (set_revoked_some (m_now m) q0) as [? E]. congruence.
  - intros m' d' spend'. unfold rotate_and_revoke_others. txn_run. cbn [orb].
    rewrite (swap_token_refused _ _ _ (set_token (token_hash (d_token d)) r)); [done|..|done].
    cbn [sessions on_sessions]. fold (others_of p). rewrite lookup_spared.
    assert (Hrow : sessions ((if spend' then spend_mailed (r_user_id p) (m_now m') else id)
                     (emit (erase_realtime_commands (r_user_id p) None (Some (r_id p))) w'))
                   = sessions w') by by destruct spend'.
    by rewrite Hrow, Hs, lookup_insert_eq.
Qed.

(** ** Which sessions are live *)

Lemma is_live_expired now id r w : sessions w !! id = Some r -> is_live now id w = negb (expired now r).
Proof.
  intros Hr. unfold is_live, expired. rewrite Hr.
  destruct (bool_decide _ || _); [done|]. destruct (s_idle r) as [t|]; [|done]. cbn.
  by rewrite Z.leb_antisym, negb_involutive.
Qed.

Lemma is_live_spec now id w :
  is_live now id w = true <-> exists r, sessions w !! id = Some r /\ s_revoked r = None /\ now < s_absolute r
    /\ match s_idle r with None => true | Some t => now <? t end = true.
Proof.
  unfold is_live. destruct (sessions w !! id) as [r|]; [|naive_solver]. split.
  - destruct (_ || _) eqn:E; [done|]. apply orb_false_iff in E as [E1%bool_decide_eq_false E2%Z.leb_gt].
    intros H. exists r. split; [done|]. by apply eq_None_not_Some in E1.
  - intros (q & [= <-] & H1 & H2 & H3). rewrite H1, bool_decide_false by (by intros [? ?]).
    by rewrite (proj2 (Z.leb_gt _ _)).
Qed.

(** The three questions about a session agree and its lifetime is bounded:
    in every state the system reaches, the sweep's query picks exactly the
    sessions [is_live] accepts, [is_live] accepts a session exactly when its
    token resolves to it, and a live session is younger than the twelve hours
    or, when remembered, the thirty days it was issued for. *)
Theorem live_sessions s os now :
  rows_sound (state s) ->
  let w := state (account_runs s os) in
  (forall ids id, id ∈ live_among now ids w <-> id ∈ ids /\ is_live now id w = true)
  /\ (forall id r u token, sessions w !! id = Some r -> users w !! s_user r = Some u ->
        s_token r = token_hash token ->
        is_live now id w = true <-> exists p w', resolve_in now token w = Ok (Some p, w') /\ r_id p = id)
  /\ (forall id r, sessions w !! id = Some r -> is_live now id w = true ->
        now < s_created r + (if s_remember r then REMEMBER_ABSOLUTE else ABSOLUTE)).
Proof.
  intros Hsound w. assert (Hw : rows_sound w) by by apply account_runs_evolve.
  destruct Hw as [Hun Hall]. clearbody w. split; [|split].
  - intros ids id. unfold live_among. rewrite elem_of_dom, is_live_spec. unfold is_Some.
    setoid_rewrite map_lookup_filter_Some. naive_solver.
  - intros id r u token Hr Hu Ht. rewrite (is_live_expired _ _ _ _ Hr). unfold resolve_in. txn_run.
    rewrite (find_token_unique _ _ _ _ Hun Hr Ht), Hu. cbn [fmap option_fmap option_map].
    destruct (expired now r); [naive_solver|]. split; [|done]. intros _.
    destruct (due_for_touch now r); eexists _, _; by split.
  - intros id r Hr Hlive. apply is_live_spec in Hlive as (q & Hq & _ & Hlt & _).
    rewrite Hr in Hq. injection Hq as <-. destruct (Hall _ _ Hr) as [Habs _]. by rewrite <- Habs.
Qed.

(** ** In a small installation *)

Lemma small_sound : rows_sound small_world.
Proof.
  assert (Hcase : forall id r, sessions small_world !! id = Some r ->
            (id = 11 /\ r = signed_in 1 "root" false) \/ (id = 33 /\ r = signed_in 3 "me" true)).
  { intros id r. unfold small_world. cbn [sessions].
    intros [[<- <-]|[_ [<- <-]%lookup_singleton_Some]]%lookup_insert_Some; auto. }
  split.
  - intros i j a b Ha Hb. destruct (Hcase _ _ Ha) as [[-> ->]|[-> ->]], (Hcase _ _ Hb) as [[-> ->]|[-> ->]];
      first [intros _; reflexivity|intros H; vm_compute in H; discriminate H].
  - intros id r Hr. destruct (Hcase _ _ Hr) as [[-> ->]|[-> ->]]; split; first [reflexivity|intros _; by eexists|discriminate].
Qed.

Definition demoted : world :=
  match request (at_time 5) 3 small_world with Ok (_, w) => w | Err _ => small_world end.

Lemma authority_change_ends_sessions_witness :
  resolve_in 7 "me" (state (account_runs {| state := demoted; claimed := ∅ |} [Resolve (at_time 6) "me"]))
  = Ok (None, state (account_runs {| state := demoted; claimed := ∅ |} [Resolve (at_time 6) "me"])).
Proof.
  destruct (authority_change_ends_sessions 3 small_system demoted [Resolve (at_time 6) "me"] 33
              (signed_in 3 "me" true) 7 small_sound
              (by_deletion 3 small_world demoted (at_time 5) eq_refl) eq_refl eq_refl)
    as [H|(r & _ & _ & _ & _ & H)].
  - vm_compute in H. discriminate H.
  - refine (H "me" _). vm_compute. reflexivity.
Defined.

Definition my_principal : resolved :=
  {| r_id := 33; r_session := signed_in 3 "me" true; r_user_id := 3; r_user := account_of member |}.
Definition first_draw : draw := {| d_id := 40; d_token := "fresh"; d_csrf := "x" |}.
Definition rotated : world :=
  match rotate_and_revoke_others (at_time 5) first_draw my_principal true small_world with
  | Ok (_, w) => w | Err _ => small_world end.

Lemma rotation_has_one_winner_witness :
  rotate_and_revoke_others (at_time 6) first_draw my_principal false rotated = Err session_changed.
Proof.
  refine (proj2 (proj2 (rotation_has_one_winner (at_time 5) first_draw my_principal true small_world
           {| i_token := "fresh"; i_csrf := "x"; i_max_age := Some 2592000 |} rotated _ _))
           (at_time 6) first_draw false);
    [vm_compute; reflexivity|vm_compute; discriminate].
Defined.

Lemma live_sessions_witness : is_live 7 33 (state (account_runs small_system [])) = true.
Proof.
  refine (proj2 (proj1 (proj2 (live_sessions small_system [] 7 small_sound)) 33 (signed_in 3 "me" true)
            (account_of member) "me" _ _ _) _);
    [vm_compute; reflexivity..|]. eexists _, _. split; vm_compute; reflexivity.
Defined.

(** A sign-in that read the account before a promotion and mints after it: the
    transaction of the sign-in does not read the account again, so the
    administrator it now is has a remembered session, which the promotion
    could not revoke. *)
Lemma stale_sign_in_is_remembered :
  let promoted := account_runs small_system
    [ChangeRole (at_time 5) 3 {| rc_role := admin; rc_attested := false |} (signed_in 1 "root" false);
     Mint (at_time 6) first_draw 3 (account_of member) true true] in
  u_role <$> users (state promoted) !! 3 = Some admin
  /\ exists r, sessions (state promoted) !! 40 = Some r /\ s_remember r = true
       /\ s_absolute r = 6 + REMEMBER_ABSOLUTE /\ is_live (6 + 6 * day) 40 (state promoted) = true.
Proof. vm_compute. split; [reflexivity|]. eexists. repeat split. Qed.
