(* ===== verification/CommandTables.v ===== *)
(** * The tables of the worker command journal

    The rows of src/backend/app/tables.py and src/backend/migrations that
    command_subjects.py and command_store.py read and write, with the check
    constraints of migrations 0030 to 0034.  A UUID is its canonical text, a
    time is in microseconds since 1970, a region and a state without a check
    constraint are texts. *)

From S2P Require Import Prelude Hashes Json Transactions AccountStore.
Open Scope Z_scope.

(** A worker connection is named by its worker and its incarnation. *)
Definition worker_key : Type := string * string.

Inductive lifecycle : Type := Connecting | Loading | Calibrating | Ready | Draining | Closed.
Inductive command_state : Type := Pending | Acknowledged | Erased.
Inductive session_state : Type := Queued | Assigning | Live | Idle | Ending | Ended.
Inductive range_state : Type := Outstanding | Drained | MeasurementExpired.
Inductive range_kind : Type := JobRange | SessionRange.

Global Instance lifecycle_eq_dec : EqDecision lifecycle.
Proof. solve_decision. Defined.
Global Instance command_state_eq_dec : EqDecision command_state.
Proof. solve_decision. Defined.
Global Instance session_state_eq_dec : EqDecision session_state.
Proof. solve_decision. Defined.
Global Instance range_state_eq_dec : EqDecision range_state.
Proof. solve_decision. Defined.
Global Instance range_kind_eq_dec : EqDecision range_kind.
Proof. solve_decision. Defined.

(** What a worker said of itself, and when it was heard: the columns of
    worker_connections no command depends on.  [ev_observations] is the object
    at [frame_p95_ms], the only key the observations ever hold. *)
Record worker_envelope := {
  ev_protocol : Z; ev_slots : Z; ev_capabilities : json; ev_manifests : json;
  ev_device : option string; ev_memory : option string; ev_execution : json; ev_revision : Z;
  ev_seen : Z; ev_expires : Z; ev_observations : option dict
}.
(** worker_connections *)
Record connection := {
  k_transport : string; k_region : string; k_epoch : Z; k_lease : string; k_lease_expires : Z;
  k_nonce : string; k_grant_expires : Z; k_grant_ready : bool; k_next : Z; k_floor : Z;
  k_lifecycle : lifecycle; k_closed : option Z; k_envelope : worker_envelope
}.
(** scheduler_leases *)
Record lease := { l_owner : string; l_epoch : Z; l_id : string; l_expires : Z }.
(** worker_commands *)
Record command_row := {
  c_id : string; c_kind : string; c_hash : string; c_account : option string;
  c_subject : option string; c_sequence : option Z; c_identity : option string;
  c_version : option Z; c_body : option (list Z); c_bytes : Z; c_state : command_state;
  c_created : Z; c_acknowledged : option Z; c_status : option string; c_code : option string;
  c_expected : option Z; c_ack : option string
}.
(** realtime_sessions *)
Record realtime_session := {
  rs_user : option string; rs_auth : option string; rs_browser : string; rs_region : string;
  rs_model : string; rs_effective : json; rs_desired : json; rs_params_revision : Z;
  rs_desired_revision : Z; rs_state : session_state; rs_generation : Z; rs_epoch : option Z;
  rs_started : option Z; rs_ended : option Z
}.
(** What the reports of an attempt or a range have counted. *)
Record usage := { us_sequence : Z; us_gpu : Z; us_frames : Z; us_duration : Z }.
Definition no_usage : usage := {| us_sequence := 0; us_gpu := 0; us_frames := 0; us_duration := 0 |}.

(** realtime_session_attempts, by session and control generation *)
Record session_attempt := {
  sa_worker : string; sa_incarnation : string; sa_epoch : Z; sa_attempt : string;
  sa_state : string; sa_range : option string; sa_usage : usage; sa_started : option Z;
  sa_ended : option Z
}.
(** The columns of a job only its scheduler reads and writes. *)
Record job_run := {
  jr_attempt : Z; jr_created : Z; jr_gpu : option Z; jr_input_fetch : option Z; jr_load : option Z;
  jr_postprocess : option Z; jr_reason : option string; jr_finished : option Z
}.
(** jobs *)
Record job_row := {
  jb_user : string; jb_model : string; jb_params : json; jb_state : job_state; jb_dispatch : Z;
  jb_source : option string; jb_dispatched : option Z; jb_run : job_run
}.
(** The phases and the outcome a terminal report leaves in a job's attempt. *)
Record outcome_columns := {
  oc_input_fetch : option Z; oc_load : option Z; oc_postprocess : option Z;
  oc_category : json; oc_score : json; oc_thumbnail : json; oc_failure : json
}.
Definition no_outcome : outcome_columns :=
  {| oc_input_fetch := None; oc_load := None; oc_postprocess := None; oc_category := JNull;
     oc_score := JNull; oc_thumbnail := JNull; oc_failure := JNull |}.

(** job_attempts, by job and dispatch sequence *)
Record job_attempt := {
  ja_command : string; ja_worker : string; ja_incarnation : string; ja_epoch : Z;
  ja_state : string; ja_token_hash : string; ja_range : option string; ja_terminal : option Z;
  ja_usage : usage; ja_outcome : outcome_columns
}.
(** worker_physical_ranges *)
Record physical_range := {
  pr_worker : string; pr_incarnation : string; pr_region : string; pr_epoch : Z;
  pr_account : option string; pr_kind : range_kind; pr_subject : string;
  pr_attempt : option string; pr_generation : option Z; pr_sequence : option Z;
  pr_state : range_state; pr_usage : usage; pr_floor : Z; pr_hash : option string
}.
(** worker_report_receipts, by range and report sequence *)
Record receipt := { rr_hash : string; rr_gpu : Z; rr_frames : Z; rr_duration : Z; rr_ack : string }.
(** users and sessions *)
Record principal := { p_role : role; p_state : account_state }.
Record binding := { b_user : string; b_idle : option Z; b_absolute : Z; b_revoked : option Z }.

Record store := {
  connections : gmap worker_key connection;
  leases : gmap string lease;
  commands : gmap worker_key (gmap Z command_row);
  realtime_sessions : gmap string realtime_session;
  session_attempts : gmap (string * Z) session_attempt;
  job_rows : gmap string job_row;
  job_attempts : gmap (string * Z) job_attempt;
  ranges : gmap string physical_range;
  principals : gmap string principal;
  bindings : gmap string binding;
  asset_owners : gmap string string;
  receipts : gmap (string * Z) receipt
}.

Definition on_connections f (s : store) : store :=
  {| connections := f (connections s); leases := leases s; commands := commands s;
     realtime_sessions := realtime_sessions s; session_attempts := session_attempts s;
     job_rows := job_rows s; job_attempts := job_attempts s; ranges := ranges s;
     principals := principals s; bindings := bindings s; asset_owners := asset_owners s;
     receipts := receipts s |}.
Definition on_commands f (s : store) : store :=
  {| connections := connections s; leases := leases s; commands := f (commands s);
     realtime_sessions := realtime_sessions s; session_attempts := session_attempts s;
     job_rows := job_rows s; job_attempts := job_attempts s; ranges := ranges s;
     principals := principals s; bindings := bindings s; asset_owners := asset_owners s;
     receipts := receipts s |}.
Definition on_realtime_sessions f (s : store) : store :=
  {| connections := connections s; leases := leases s; commands := commands s;
     realtime_sessions := f (realtime_sessions s); session_attempts := session_attempts s;
     job_rows := job_rows s; job_attempts := job_attempts s; ranges := ranges s;
     principals := principals s; bindings := bindings s; asset_owners := asset_owners s;
     receipts := receipts s |}.
Definition on_session_attempts f (s : store) : store :=
  {| connections := connections s; leases := leases s; commands := commands s;
     realtime_sessions := realtime_sessions s; session_attempts := f (session_attempts s);
     job_rows := job_rows s; job_attempts := job_attempts s; ranges := ranges s;
     principals := principals s; bindings := bindings s; asset_owners := asset_owners s;
     receipts := receipts s |}.
Definition on_job_rows f (s : store) : store :=
  {| connections := connections s; leases := leases s; commands := commands s;
     realtime_sessions := realtime_sessions s; session_attempts := session_attempts s;
     job_rows := f (job_rows s); job_attempts := job_attempts s; ranges := ranges s;
     principals := principals s; bindings := bindings s; asset_owners := asset_owners s;
     receipts := receipts s |}.
Definition on_job_attempts f (s : store) : store :=
  {| connections := connections s; leases := leases s; commands := commands s;
     realtime_sessions := realtime_sessions s; session_attempts := session_attempts s;
     job_rows := job_rows s; job_attempts := f (job_attempts s); ranges := ranges s;
     principals := principals s; bindings := bindings s; asset_owners := asset_owners s;
     receipts := receipts s |}.
Definition on_ranges f (s : store) : store :=
  {| connections := connections s; leases := leases s; commands := commands s;
     realtime_sessions := realtime_sessions s; session_attempts := session_attempts s;
     job_rows := job_rows s; job_attempts := job_attempts s; ranges := f (ranges s);
     principals := principals s; bindings := bindings s; asset_owners := asset_owners s;
     receipts := receipts s |}.
Definition on_receipts f (s : store) : store :=
  {| connections := connections s; leases := leases s; commands := commands s;
     realtime_sessions := realtime_sessions s; session_attempts := session_attempts s;
     job_rows := job_rows s; job_attempts := job_attempts s; ranges := ranges s;
     principals := principals s; bindings := bindings s; asset_owners := asset_owners s;
     receipts := f (receipts s) |}.
Definition on_leases f (s : store) : store :=
  {| connections := connections s; leases := f (leases s); commands := commands s;
     realtime_sessions := realtime_sessions s; session_attempts := session_attempts s;
     job_rows := job_rows s; job_attempts := job_attempts s; ranges := ranges s;
     principals := principals s; bindings := bindings s; asset_owners := asset_owners s;
     receipts := receipts s |}.

(** The rows of one connection, by sequence. *)
Definition journal (s : store) (k : worker_key) : gmap Z command_row := default ∅ (commands s !! k).
Definition on_journal (k : worker_key) f (s : store) : store :=
  on_commands (<[k := f (journal s k)]>) s.

(** ** Check constraints *)

(** [subject_sequence BETWEEN 1 AND 9223372036854775807] *)
Definition counter_column (z : option Z) : bool :=
  match z with Some z => (1 <=? z) && (z <=? 2 ^ 63 - 1) | None => false end.

Definition CONSUMING : list string := [
  "authority_expired"; "authority_mismatch"; "attempt_stale"; "revision_stale";
  "unsupported_control"; "out_of_memory"; "model_unavailable"; "invalid_params";
  "capacity_unavailable"; "dependency_unavailable"; "checkpoint_incompatible"].

Definition some {A} (x : option A) : bool := match x with Some _ => true | None => false end.
Definition none {A} (x : option A) : bool := negb (some x).

(** worker_commands_identity_hash *)
Definition identity_hash_column (r : command_row) : bool :=
  match c_identity r with
  | Some h => Nat.eqb (String.length h) 64
              && forallb (fun b => (48 <=? b) && (b <=? 57) || (97 <=? b) && (b <=? 102))
                   (bytes_of_string h)
  | None => true
  end.
(** worker_commands_identity *)
Definition identity_columns (r : command_row) : bool :=
  match c_state r with
  | Pending => some (c_account r) && some (c_subject r) && counter_column (c_sequence r)
               && some (c_identity r)
  | Acknowledged => some (c_subject r) && counter_column (c_sequence r) && some (c_identity r)
  | Erased => true
  end.
(** worker_commands_state_contract *)
Definition state_contract (r : command_row) : bool :=
  match c_state r with
  | Pending =>
      some (c_body r) && match c_version r with Some v => 0 <? v | None => false end
      && (1 <=? c_bytes r)
      && (c_bytes r <=? if bool_decide (c_kind r ∈ ["dispatch_job"; "open_session"; "update_session"])
                        then 1048576 else 16384)
      && none (c_status r) && none (c_code r) && none (c_expected r) && none (c_ack r)
      && none (c_acknowledged r)
  | Acknowledged =>
      none (c_body r) && none (c_version r) && (c_bytes r =? 0) && some (c_acknowledged r)
      && none (c_expected r)
      && match c_ack r with
         | Some body => (1 <=? Z.of_nat (String.length body)) && (Z.of_nat (String.length body) <=? 16384)
         | None => false end
      && match c_status r, c_code r with
         | Some "accepted", None => true
         | Some "refused", Some code => bool_decide (code ∈ CONSUMING)
         | _, _ => false end
  | Erased =>
      none (c_body r) && none (c_version r) && (c_bytes r =? 0) && none (c_status r)
      && none (c_code r) && none (c_expected r) && none (c_ack r) && none (c_acknowledged r)
  end.
(** worker_commands_kind *)
Definition kind_column (r : command_row) : bool :=
  bool_decide (c_kind r ∈ ["open_session"; "update_session"; "close_session"; "dispatch_job"; "cancel_job"]).

Definition row_contract (r : command_row) : bool :=
  identity_hash_column r && identity_columns r && state_contract r && kind_column r.

(** Two rows never share a command id. *)
Definition command_id_taken (id : string) (s : store) : bool :=
  bool_decide (map_Exists (fun _ j => map_Exists (fun _ r => c_id r = id) j) (commands s)).

(** [INSERT INTO worker_commands] *)
Definition insert_command (k : worker_key) (sequence : Z) (r : command_row) : txn store unit := fun s =>
  if bool_decide (is_Some (journal s k !! sequence)) then Err (IntegrityError "worker_commands_pkey")
  else if command_id_taken (c_id r) s then Err (IntegrityError "worker_commands_command_id_key")
  else if negb (0 <? sequence) || negb (row_contract r) then Err (IntegrityError "worker_commands_check")
  else Ok (tt, on_journal k (<[sequence := r]>) s).

(** [UPDATE worker_commands] of the row of one sequence, when there. *)
Definition update_command (k : worker_key) (sequence : Z) (f : command_row -> command_row)
  : txn store unit := fun s =>
  match journal s k !! sequence with
  | Some r => if row_contract (f r) then Ok (tt, on_journal k (<[sequence := f r]>) s)
              else Err (IntegrityError "worker_commands_check")
  | None => Ok (tt, s)
  end.

(** [UPDATE worker_connections] of one row, when there; the check is
    worker_connections_sequence. *)
Definition connection_contract (c : connection) : bool :=
  (0 <? k_next c) && (0 <=? k_floor c) && (k_floor c <? k_next c).
Definition update_connection (k : worker_key) (f : connection -> connection) : txn store unit := fun s =>
  match connections s !! k with
  | Some c => if connection_contract (f c) then Ok (tt, on_connections (<[k := f c]>) s)
              else Err (IntegrityError "worker_connections_sequence")
  | None => Ok (tt, s)
  end.
