(* ===== verification/CommandSubjects.v ===== *)
(** * The subject of a command: the session or job it acts on

    Models src/backend/app/command_subjects.py: who may command what, the
    claim a command makes on its session or job before it is sent, the checks
    of its delivery, and the rows an erasure selects.

    A handler runs in one transaction with its rows locked, so it reads and
    writes one state; the per-account gate orders transactions and is not a
    step here.  Storing a value in a jsonb column and binding a value to a
    bigint argument are the database driver's, parameters of the model. *)

From S2P Require Import Prelude PyFloat Hashes Json JsonFacts Protocol6 Uuid Transactions AccountStore CommandTables.
Open Scope Z_scope.

Definition MAX_SEQUENCE : Z := 2 ^ 63 - 1.

Definition session_subject : list string := ["session_id"; "attempt_id"; "control_generation"].
Definition job_subject : list string := ["job_id"; "dispatch_sequence"].

Definition SUBJECT_FIELDS (kind : string) : option (list string) :=
  if is_in kind ["open_session"; "update_session"; "close_session"] then Some session_subject
  else if is_in kind ["dispatch_job"; "cancel_job"] then Some job_subject
  else None.

Definition refused {A} (msg : string) : txn store A := raise (CommandRefused msg).
(** [if b: raise CommandRefused(msg)] in a transaction. *)
Definition refuse_when (b : bool) (msg : string) : txn store unit :=
  if b then refused msg else mret tt.

Definition RESERVED_FIELDS : list string :=
  ["type"; "worker_id"; "incarnation"; "region"; "owner_epoch"; "lease_id"; "lease_expires_at";
   "grant_nonce"; "command_sequence"; "command_id"; "body_hash"].

(** An account that is not a UUID is [None]. *)
Definition validate_command_identity (command_type : string) (account : option string) (fields : dict)
  : result exn unit :=
  _ ← require (some (SUBJECT_FIELDS command_type)) (CommandRefused "command type is not supported");
  _ ← require (some account) (CommandRefused "command account identity is unavailable");
  refuse_if (existsb (fun key => has_key key fields) RESERVED_FIELDS)
    (CommandRefused "command fields are invalid").

Definition command_size_limit (kind : string) (parameter_limit small_limit : Z) : Z :=
  if is_in kind ["dispatch_job"; "open_session"; "update_session"] then parameter_limit else small_limit.

(** ** The moment and the principal *)

Inductive auth_mode : Type := Unclaimed | NoAccounts | Accounts.

(** [e_connected]: there is a session factory; [e_scheduler] and [e_transport]
    are the two owner ids of this process.  [e_started] is the transaction's [now()]; the other times are readings of
    the clock at the check of the browser binding, at the check of lease and
    grant, and where a row is written. *)
Record moment := {
  e_connected : bool; e_mode : auth_mode; e_local_user : option string;
  e_scheduler : string; e_transport : string;
  e_started : Z; e_principal_clock : Z; e_deadline_clock : Z; e_write_clock : Z
}.

Definition current_owner (account : string) (s : store) : bool :=
  match principals s !! account with
  | Some p => bool_decide (p_role p <> viewer) && bool_decide (p_state p = active)
  | None => false
  end.

(** The idle and the absolute deadline of the browser's session. *)
Definition lock_browser_binding (m : moment) (account : string) (auth_session : option string)
    (s : store) : option (option Z * option Z) :=
  if negb (current_owner account s) then None
  else match e_mode m with
  | NoAccounts =>
      if bool_decide (e_local_user m = Some account) && none auth_session then Some (None, None)
      else None
  | Unclaimed => None
  | Accounts =>
      id ← auth_session;
      b ← bindings s !! id;
      if bool_decide (b_user b = account) && none (b_revoked b)
      then Some (b_idle b, Some (b_absolute b)) else None
  end.

Definition later (deadline : option Z) (now : Z) : bool :=
  match deadline with Some t => now <? t | None => true end.

Definition binding_is_live (m : moment) (deadlines : option (option Z * option Z)) : bool :=
  match deadlines with
  | None => false
  | Some (_, None) => true
  | Some (idle, Some absolute) =>
      (e_principal_clock m <? absolute) && later idle (e_principal_clock m)
  end.

Definition current_principal (m : moment) (account : string) (auth_session : option string)
    (s : store) : bool :=
  binding_is_live m (lock_browser_binding m account auth_session s).

(** ** The claim of a command *)

(** What the caller says of the session; an absent key is [None]. *)
Record session_context := {
  x_auth : option string; x_browser : option string; x_model : option string;
  x_params : option dict; x_base : json; x_revision : json; x_attempt : option string;
  x_terminal : bool
}.

Inductive claim : Type :=
| SessionClaim (subject attempt : string) (generation : json) (range account : string) (context : session_context)
| JobClaim (subject : string) (previous sequence : Z) (range : string) (token : json).

Definition opt_str (o : option string) : json := match o with Some s => JStr s | None => JNull end.
Definition opt_dict (o : option dict) : json := match o with Some d => JDict d | None => JNull end.
(** [context[k]] *)
Definition given {A} (k : string) (o : option A) : result exn A :=
  match o with Some a => Ok a | None => Err (KeyError k) end.

(** [z > v] for a stored integer and a value of the message. *)
Definition int_gt (z : Z) (v : json) : result exn bool :=
  match v with
  | JInt n => Ok (n <? z)
  | JBool b => Ok (Z.b2z b <? z)
  | JFloat f => Ok (float_lt_Z f z)
  | _ => Err (TypeError "'>' not supported")
  end.

(** [v[k]] *)
Definition subscript (v : json) (k : string) : result exn json :=
  match v with JDict d => item d k | _ => Err (TypeError "indices must be integers") end.
Definition uuid_field (fields : dict) (k : string) : result exn string :=
  v ← item fields k; uuid_of v.
Definition range_field (fields : dict) : result exn string :=
  budget ← item fields "work_budget"; r ← subscript budget "range_id"; uuid_of r.

(** What [prepare_command_subject] returns. *)
Record prepared := {
  pre_claim : option claim; pre_cancel : option job_attempt; pre_fields : dict;
  pre_desired : option (json * Z)
}.

(** The driver: a value bound to a bigint argument, a value stored as jsonb,
    a value stored in a text, boolean or float column. *)
Class Driver := {
  bigint : json -> result exn Z;
  jsonb : json -> result exn json;
  column : json -> result exn json
}.

(** An integer that fits is bound to itself, and a stored object is read back
    as an object. *)
Class DriverLaws `{Driver} : Prop := {
  bigint_int z : 1 <= z <= MAX_SEQUENCE -> bigint (JInt z) = Ok z;
  jsonb_object d v : jsonb (JDict d) = Ok v -> exists d', v = JDict d'
}.

Section Prepare.
Context `{Driver}.
Variable m : moment.
Variables (worker incarnation transport : string).

Definition prepare_open (fields : dict) (account : string) (context : option session_context)
: txn store prepared :=
match context with
| None => refused "session claim identity is unavailable"
| Some ctx =>
    session_id ← lift (uuid_field fields "session_id");
    existing ← read (fun s => realtime_sessions s !! session_id);
    stale ← lift match existing with
                 | None => Ok false
                 | Some e =>
                     if negb (bool_decide (rs_user e = Some account)) then Ok true
                     else browser ← given "browser_owner_id" (x_browser ctx);
                          if negb (bool_decide (rs_browser e = browser)) then Ok true
                          else generation ← item fields "control_generation";
                               int_gt (rs_generation e) generation
                 end;
    _ ← refuse_when stale "session claim identity is stale";
    attempt ← lift (uuid_field fields "attempt_id");
    generation ← lift (item fields "control_generation");
    range ← lift (range_field fields);
    mret {| pre_claim := Some (SessionClaim session_id attempt generation range account ctx);
            pre_cancel := None; pre_fields := fields; pre_desired := None |}
end.

(** The revisions of an update and what it may not change. *)
Definition update_changed (fields : dict) (ctx : session_context) : bool :=
match x_base ctx with
| JInt base =>
    (base <? 1) || (MAX_SEQUENCE <=? base)
    || negb (py_eq (x_revision ctx) (JInt (base + 1))) || is_bool (x_revision ctx)
    || number_ge (x_revision ctx) MAX_SEQUENCE
    || negb (py_eq (get fields "params_revision") (x_revision ctx))
    || negb (py_eq (get fields "model_id") (opt_str (x_model ctx)))
    || negb (py_eq (get fields "params") (opt_dict (x_params ctx)))
| _ => true
end.

Definition open_attempt (session_id : string) (generation : Z) (attempt_id : string) (s : store)
: option session_attempt :=
a ← session_attempts s !! (session_id, generation);
if bool_decide (sa_attempt a = attempt_id) && is_in (sa_state a) ["opening"; "running"] then Some a
else None.

(** The row of a session at one control generation. *)
Definition session_at (session_id : string) (generation : Z) (s : store) : option realtime_session :=
e ← realtime_sessions s !! session_id;
if rs_generation e =? generation then Some e else None.

Definition set_desired (params : json) (revision : Z) (e : realtime_session) : realtime_session :=
{| rs_user := rs_user e; rs_auth := rs_auth e; rs_browser := rs_browser e; rs_region := rs_region e;
   rs_model := rs_model e; rs_effective := rs_effective e; rs_desired := params;
   rs_params_revision := rs_params_revision e; rs_desired_revision := revision;
   rs_state := rs_state e; rs_generation := rs_generation e; rs_epoch := rs_epoch e;
   rs_started := rs_started e; rs_ended := rs_ended e |}.

Definition attempt_here (a : option session_attempt) : bool :=
match a with
| Some a => bool_decide (sa_worker a = worker) && bool_decide (sa_incarnation a = incarnation)
| None => false
end.

(** The session is the caller's, at the revision the caller saw. *)
Definition update_current (account attempt_id : string) (base : json) (ctx : session_context)
  (entity : realtime_session) (attempt : option session_attempt) (s : store) : bool :=
bool_decide (rs_user entity = Some account)
&& bool_decide (rs_auth entity = x_auth ctx)
&& bool_decide (Some (rs_browser entity) = x_browser ctx)
&& current_principal m account (rs_auth entity) s
&& bool_decide (Some (rs_model entity) = x_model ctx)
&& py_eq (JInt (rs_desired_revision entity)) base
&& attempt_here attempt
&& bool_decide (x_attempt ctx = Some attempt_id).

(** The compare-and-set of the desired parameters. *)
Definition swap_desired (session_id : string) (base : json) (params : json) (revision : Z)
: txn store (json * Z) :=
row ← read (fun s => realtime_sessions s !! session_id);
match row with
| Some e =>
    if py_eq (JInt (rs_desired_revision e)) base then
      _ ← write (on_realtime_sessions (<[session_id := set_desired params revision e]>));
      mret (params, revision)
    else refused "session desired update lost its compare-and-set"
| None => refused "session desired update lost its compare-and-set"
end.

Definition prepare_update (fields : dict) (account : string) (context : option session_context)
: txn store prepared :=
match context with
| None => refused "session update identity is unavailable"
| Some ctx =>
    session_id ← lift (uuid_field fields "session_id");
    attempt_id ← lift (uuid_field fields "attempt_id");
    generation ← lift (item fields "control_generation");
    _ ← refuse_when (update_changed fields ctx) "session desired update changed before commit";
    generation ← lift (bigint generation);
    entity ← read (session_at session_id generation);
    attempt ← read (open_attempt session_id generation attempt_id);
    match entity with
    | None => refused "session update is stale"
    | Some entity =>
        current ← read (update_current account attempt_id (x_base ctx) ctx entity attempt);
        _ ← refuse_when (negb current) "session update is stale";
        params ← lift (v ← item fields "params"; jsonb v);
        revision ← lift (bigint (x_revision ctx));
        desired ← swap_desired session_id (x_base ctx) params revision;
        mret {| pre_claim := None; pre_cancel := None;
                pre_fields := set_key "model_id" (JStr (rs_model entity)) fields;
                pre_desired := Some desired |}
    end
end.

Definition set_session_state (st : session_state) (e : realtime_session) : realtime_session :=
{| rs_user := rs_user e; rs_auth := rs_auth e; rs_browser := rs_browser e; rs_region := rs_region e;
   rs_model := rs_model e; rs_effective := rs_effective e; rs_desired := rs_desired e;
   rs_params_revision := rs_params_revision e; rs_desired_revision := rs_desired_revision e;
   rs_state := st; rs_generation := rs_generation e; rs_epoch := rs_epoch e;
   rs_started := rs_started e; rs_ended := rs_ended e |}.

(** [EXISTS (SELECT 1 FROM worker_commands ... state = 'pending')] *)
Definition subject_pending (subject : string) (sequence : Z) (s : store) : bool :=
bool_decide (map_Exists (fun _ j => map_Exists (fun _ r =>
  c_subject r = Some subject /\ c_sequence r = Some sequence /\ c_state r = Pending) j) (commands s)).

Definition close_current (account : string) (entity : realtime_session)
  (attempt : option session_attempt) (s : store) : bool :=
bool_decide (rs_user entity = Some account) && bool_decide (rs_state entity = Live)
&& bool_decide (rs_browser entity = transport)
&& current_principal m account (rs_auth entity) s && attempt_here attempt.

Definition prepare_close (fields : dict) (account : string) (context : option session_context)
: txn store prepared :=
session_id ← lift (uuid_field fields "session_id");
attempt_id ← lift (uuid_field fields "attempt_id");
generation ← lift (v ← item fields "control_generation"; bigint v);
entity ← read (session_at session_id generation);
attempt ← read (open_attempt session_id generation attempt_id);
match entity with
| None => refused "session close is stale"
| Some entity =>
    current ← read (close_current account entity attempt);
    _ ← refuse_when (negb current) "session close is stale";
    let terminal := match context with Some ctx => x_terminal ctx | None => false end in
    unproven ← read (subject_pending session_id generation);
    _ ← refuse_when (terminal && unproven) "session close has a pending command";
    _ ← write (on_realtime_sessions
                 (<[session_id := set_session_state (if terminal then Ending else Idle) entity]>));
    mret {| pre_claim := None; pre_cancel := None; pre_fields := fields; pre_desired := None |}
end.

(** [job_context] is the source the caller read, when it passes one. *)
Definition prepare_dispatch (fields : dict) (account : string) (job_context : option (option string))
: txn store prepared :=
job_id ← lift (uuid_field fields "job_id");
job ← read (fun s => job_rows s !! job_id);
match job with
| None => refused "job claim is stale"
| Some j =>
    stale ← lift (if negb (bool_decide (jb_user j = account)) || negb (bool_decide (jb_state j = queued))
                  then Ok true
                  else model ← item fields "model_id";
                       if negb (py_eq (JStr (jb_model j)) model) then Ok true
                       else params ← item fields "params"; Ok (negb (py_eq (jb_params j) params)));
    _ ← refuse_when stale "job claim is stale";
    _ ← refuse_when match job_context with
                    | Some source => negb (bool_decide (source = jb_source j)) | None => false end
          "job input changed before claim";
    available ← read (fun s => match jb_source j with
                               | Some asset => bool_decide (asset_owners s !! asset = Some account)
                               | None => true end);
    _ ← refuse_when (negb available) "job input is unavailable";
    let dispatch_sequence := jb_dispatch j + 1 in
    _ ← refuse_when (MAX_SEQUENCE <=? dispatch_sequence) "job dispatch sequence is exhausted";
    range ← lift (range_field fields);
    token ← lift (item fields "dispatch_token");
    mret {| pre_claim := Some (JobClaim job_id (jb_dispatch j) dispatch_sequence range token);
            pre_cancel := None;
            pre_fields := set_key "dispatch_sequence" (JInt dispatch_sequence) fields;
            pre_desired := None |}
end.

Definition isascii (s : string) : bool := all_chars (fun c => byte_val c <? 128) s.

Definition prepare_cancel (fields : dict) (account : string) : txn store prepared :=
match get fields "dispatch_sequence", get fields "dispatch_token" with
| JInt sequence, JStr token =>
    if negb (isascii token) then refused "job cancellation identity is unavailable" else
    job_id ← lift (uuid_field fields "job_id");
    job ← read (fun s => job_rows s !! job_id);
    let current := match job with
                   | Some j => bool_decide (jb_user j = account) && bool_decide (jb_state j = cancelled)
                               && (jb_dispatch j =? sequence)
                   | None => false end in
    _ ← refuse_when (negb current) "job cancellation is stale";
    attempt ← read (fun s => job_attempts s !! (job_id, sequence));
    match attempt with
    | Some a =>
        if bool_decide (ja_token_hash a = sha256 token) then
          mret {| pre_claim := None; pre_cancel := Some a; pre_fields := fields; pre_desired := None |}
        else refused "job cancellation token is stale"
    | None => refused "job cancellation token is stale"
    end
| _, _ => refused "job cancellation identity is unavailable"
end.

Definition prepare_command_subject (command_type : string) (fields : dict) (account : string)
  (context : option session_context) (job_context : option (option string)) : txn store prepared :=
if decide (command_type = "open_session") then prepare_open fields account context
else if decide (command_type = "update_session") then prepare_update fields account context
else if decide (command_type = "close_session") then prepare_close fields account context
else if decide (command_type = "dispatch_job") then prepare_dispatch fields account job_context
else if decide (command_type = "cancel_job") then prepare_cancel fields account
else mret {| pre_claim := None; pre_cancel := None; pre_fields := fields; pre_desired := None |}.

End Prepare.

(** ** Applying a claim *)

Section Apply.
Context `{Driver}.
Variable m : moment.
Variables (worker incarnation : string).
(** The locked row of the worker's connection. *)
Variable conn : connection.

(** [INSERT ... ON CONFLICT (id) DO UPDATE]: a known session keeps its user,
    its browser and what it had received. *)
Definition claimed_session (account : string) (ctx : session_context) (browser model : string)
  (params : json) (generation : Z) (existing : option realtime_session) : realtime_session :=
match existing with
| Some e =>
    {| rs_user := rs_user e; rs_auth := rs_auth e; rs_browser := rs_browser e; rs_region := rs_region e;
       rs_model := model; rs_effective := params; rs_desired := params; rs_params_revision := 1;
       rs_desired_revision := 1; rs_state := Assigning; rs_generation := generation;
       rs_epoch := Some (k_epoch conn); rs_started := None; rs_ended := None |}
| None =>
    {| rs_user := Some account; rs_auth := x_auth ctx; rs_browser := browser;
       rs_region := k_region conn; rs_model := model; rs_effective := params; rs_desired := params;
       rs_params_revision := 1; rs_desired_revision := 1; rs_state := Assigning;
       rs_generation := generation; rs_epoch := Some (k_epoch conn); rs_started := None;
       rs_ended := None |}
end.

Definition upsert_session (id account : string) (ctx : session_context) (generation : json)
: txn store Z :=
browser ← lift (given "browser_owner_id" (x_browser ctx));
model ← lift (given "model_id" (x_model ctx));
params ← lift (p ← given "params" (x_params ctx); jsonb (JDict p));
generation ← lift (bigint generation);
_ ← lift (require (0 <? generation) (IntegrityError "realtime_sessions_generation"));
existing ← read (fun s => realtime_sessions s !! id);
known ← read (fun s => some (principals s !! account));
_ ← lift (require (some existing || known) (IntegrityError "realtime_sessions_user_id_fkey"));
_ ← write (on_realtime_sessions
             (<[id := claimed_session account ctx browser model params generation existing]>));
mret generation.

Definition insert_attempt (id : string) (generation : Z) (attempt range : string) : txn store unit := fun s =>
if some (session_attempts s !! (id, generation)) then Err (IntegrityError "realtime_session_attempts_pkey")
else if bool_decide (map_Exists (fun _ a => sa_attempt a = attempt) (session_attempts s))
then Err (IntegrityError "realtime_session_attempts_attempt_id_key")
else Ok (tt, on_session_attempts (<[(id, generation) :=
  {| sa_worker := worker; sa_incarnation := incarnation; sa_epoch := k_epoch conn;
     sa_attempt := attempt; sa_state := "opening"; sa_range := Some range; sa_usage := no_usage;
     sa_started := None; sa_ended := None |}]>) s).

Definition insert_range (range : string) (r : physical_range) : txn store unit := fun s =>
if some (ranges s !! range) then Err (IntegrityError "worker_physical_ranges_pkey")
else if k_epoch conn <? 1 then Err (IntegrityError "physical_ranges_counters")
else Ok (tt, on_ranges (<[range := r]>) s).

Definition new_range (kind : range_kind) (account : option string) (subject : string)
  (attempt : option string) (generation sequence : option Z) : physical_range :=
{| pr_worker := worker; pr_incarnation := incarnation; pr_region := k_region conn;
   pr_epoch := k_epoch conn; pr_account := account; pr_kind := kind; pr_subject := subject;
   pr_attempt := attempt; pr_generation := generation; pr_sequence := sequence;
   pr_state := Outstanding; pr_usage := no_usage; pr_floor := 0; pr_hash := None |}.

Definition apply_session_claim (subject attempt : string) (generation : json) (range owner account : string)
  (ctx : session_context) : txn store unit :=
generation ← upsert_session subject owner ctx generation;
_ ← insert_attempt subject generation attempt range;
insert_range range (new_range SessionRange (Some account) subject (Some attempt) (Some generation) None).

Definition insert_job_attempt (job_id : string) (sequence : Z) (a : job_attempt) : txn store unit := fun s =>
if some (job_attempts s !! (job_id, sequence)) then Err (IntegrityError "job_attempts_pkey")
else if bool_decide (map_Exists (fun _ b => ja_command b = ja_command a) (job_attempts s))
then Err (IntegrityError "job_attempts_command_id_key")
else if sequence <? 1 then Err (IntegrityError "job_attempts_sequence")
else Ok (tt, on_job_attempts (<[(job_id, sequence) := a]>) s).

Definition running_job (sequence : Z) (j : job_row) : job_row :=
{| jb_user := jb_user j; jb_model := jb_model j; jb_params := jb_params j; jb_state := running;
 jb_dispatch := sequence; jb_source := jb_source j; jb_dispatched := Some (e_write_clock m);
   jb_run := jb_run j |}.

(** [UPDATE jobs SET state = 'running' ... RETURNING id] *)
Definition start_job (job_id : string) (previous sequence : Z) : txn store unit :=
job ← read (fun s => job_rows s !! job_id);
match job with
| Some j =>
    if bool_decide (jb_state j = queued) && (jb_dispatch j =? previous)
    then write (on_job_rows (<[job_id := running_job sequence j]>))
    else refused "job claim changed before commit"
| None => refused "job claim changed before commit"
end.

(** [v.encode()] of a token; a text with a lone surrogate has no encoding. *)
Definition token_text (v : json) : result exn string :=
match v with
| JStr t => if has_surrogate t then Err (ValueError "surrogates not allowed") else Ok t
| _ => Err (AttributeError "encode")
end.

Definition apply_job_claim (subject : string) (previous sequence : Z) (range : string) (token : json)
  (account command_id : string) : txn store unit :=
token ← lift (token_text token);
_ ← insert_job_attempt subject sequence
      {| ja_command := command_id; ja_worker := worker; ja_incarnation := incarnation;
         ja_epoch := k_epoch conn; ja_state := "dispatching"; ja_token_hash := sha256 token;
         ja_range := Some range; ja_terminal := None; ja_usage := no_usage; ja_outcome := no_outcome |};
_ ← start_job subject previous sequence;
insert_range range (new_range JobRange (Some account) subject None None (Some sequence)).

Definition claim_range (c : claim) : string :=
match c with SessionClaim _ _ _ range _ _ | JobClaim _ _ _ range _ => range end.

Definition apply_command_claim (c : option claim) (account command_id : string) : txn store unit :=
match c with
| None => mret tt
| Some c =>
    used ← read (fun s => some (ranges s !! claim_range c));
    _ ← refuse_when used "physical range identity is already used";
    match c with
    | SessionClaim subject attempt generation range owner ctx =>
        apply_session_claim subject attempt generation range owner account ctx
    | JobClaim subject previous sequence range token =>
        apply_job_claim subject previous sequence range token account command_id
    end
end.

End Apply.

(** ** Delivery *)

(** The parts of a stored command the checks of its delivery read. *)
Record subject_ref := { sr_account : string; sr_subject : option string; sr_sequence : option Z }.

Definition session_states (kind : string) : list session_state :=
  if decide (kind = "open_session") then [Assigning]
  else if decide (kind = "update_session") then [Live; Idle]
  else if decide (kind = "close_session") then [Idle; Ending]
  else [].
Definition attempt_states (kind : string) : list string :=
  if decide (kind = "open_session") then ["opening"]
  else if is_in kind ["update_session"; "close_session"] then ["running"]
  else if decide (kind = "dispatch_job") then ["dispatching"]
  else ["dispatching"; "running"].

(** The columns of either attempt the checks read. *)
Record attempt_ref := { ar_worker : string; ar_incarnation : string; ar_range : option string; ar_state : string }.
Definition of_session_attempt (a : session_attempt) : attempt_ref :=
  {| ar_worker := sa_worker a; ar_incarnation := sa_incarnation a; ar_range := sa_range a;
     ar_state := sa_state a |}.
Definition of_job_attempt (a : job_attempt) : attempt_ref :=
  {| ar_worker := ja_worker a; ar_incarnation := ja_incarnation a; ar_range := ja_range a;
     ar_state := ja_state a |}.

Section Delivery.
Variable m : moment.
Variables (worker incarnation transport : string).

Definition lock_delivery_session (c : subject_ref) (kind : string) (body : dict)
: txn store (option attempt_ref * option (option Z * option Z)) :=
entity ← read (fun s => id ← sr_subject c; realtime_sessions s !! id);
match entity with
| None => refused "session command is no longer current"
| Some e =>
    _ ← refuse_when (negb (bool_decide (rs_user e = Some (sr_account c)))
                     || negb (bool_decide (Some (rs_generation e) = sr_sequence c)))
          "session command is no longer current";
    deadlines ← read (lock_browser_binding m (sr_account c) (rs_auth e));
    _ ← refuse_when (none deadlines) "session command principal is no longer current";
    _ ← refuse_when (negb (bool_decide (rs_state e ∈ session_states kind)))
          "session command state is no longer current";
    _ ← refuse_when (negb (bool_decide (rs_browser e = transport))
                     || is_in kind ["open_session"; "update_session"]
                        && negb (py_eq (get body "model_id") (JStr (rs_model e))))
          "session command principal is no longer current";
    attempt_id ← lift (uuid_field body "attempt_id");
    attempt ← read (fun s => id ← sr_subject c; sequence ← sr_sequence c;
                             open_attempt id sequence attempt_id s);
    mret (of_session_attempt <$> attempt, deadlines)
end.

Definition lock_delivery_job (c : subject_ref) (kind : string)
: txn store (option attempt_ref * option (option Z * option Z)) :=
entity ← read (fun s => id ← sr_subject c; job_rows s !! id);
match entity with
| None => refused "job command is no longer current"
| Some j =>
    _ ← refuse_when (negb (bool_decide (jb_user j = sr_account c))
                     || negb (bool_decide (Some (jb_dispatch j) = sr_sequence c)))
          "job command is no longer current";
    _ ← refuse_when (negb (bool_decide (jb_state j =
                       if decide (kind = "dispatch_job") then running else cancelled)))
          "job command state is no longer current";
    owner ← read (current_owner (sr_account c));
    _ ← refuse_when (negb owner) "job command owner is no longer current";
    attempt ← read (fun s => id ← sr_subject c; sequence ← sr_sequence c;
                             job_attempts s !! (id, sequence));
    mret (of_job_attempt <$> attempt, None)
end.

Definition attempt_current (kind : string) (a : attempt_ref) : bool :=
bool_decide (ar_worker a = worker) && bool_decide (ar_incarnation a = incarnation)
&& is_in (ar_state a) (attempt_states kind).

Definition range_current (account : string) (range : option string) (s : store) : bool :=
match range with
| None => true
| Some id =>
    match ranges s !! id with
    | Some r => bool_decide (pr_account r = Some account) && bool_decide (pr_state r = Outstanding)
    | None => false
    end
end.

Definition ends_with_session (kind : string) : bool :=
is_in kind ["open_session"; "update_session"; "close_session"].

(** [kind.endswith("session")] is decided among the five command types. *)
Definition lock_delivery_subject (c : subject_ref) (kind : string) (body : dict)
: txn store (option (option Z * option Z)) :=
'(attempt, deadlines) ← (if ends_with_session kind then lock_delivery_session c kind body
                         else lock_delivery_job c kind);
match attempt with
| None => refused "command attempt is no longer current"
| Some a =>
    _ ← refuse_when (negb (attempt_current kind a)) "command attempt is no longer current";
    live ← read (range_current (sr_account c) (ar_range a));
    _ ← refuse_when (negb live) "command physical range is no longer current";
    mret deadlines
end.

End Delivery.

(** ** A report that ends a command *)

(** A report of the end of a session or job, as its fields were checked on
    receipt; [rc_attempt] is there for a session only. *)
Record reported := {
  rc_kind : string; rc_account : string; rc_subject : string; rc_sequence : Z; rc_worker : string;
  rc_incarnation : string; rc_range : string; rc_attempt : option string; rc_report : Z; rc_hash : string
}.

Definition is_close (r : reported) : bool := bool_decide (rc_kind r = "close_session").

Definition reported_identity (r : reported) : bool :=
  is_in (rc_kind r) ["close_session"; "dispatch_job"]
  && (1 <=? rc_sequence r) && (rc_sequence r <=? MAX_SEQUENCE) && (1 <=? rc_report r)
  && (text_length (rc_hash r) =? 64) && Bool.eqb (is_close r) (some (rc_attempt r)).

Definition range_identity (r : reported) (s : store) : bool :=
  match ranges s !! rc_range r with
  | Some p =>
      bool_decide (pr_worker p = rc_worker r) && bool_decide (pr_incarnation p = rc_incarnation r)
      && bool_decide (pr_kind p = if is_close r then SessionRange else JobRange)
      && bool_decide (pr_subject p = rc_subject r) && bool_decide (pr_attempt p = rc_attempt r)
      && bool_decide (pr_generation p = if is_close r then Some (rc_sequence r) else None)
      && bool_decide (pr_sequence p = if is_close r then None else Some (rc_sequence r))
  | None => false
  end.

(** The attempt has ended; the session counts only while it is at the
    generation of the report. *)
Definition close_proved (r : reported) (s : store) : bool :=
  match realtime_sessions s !! rc_subject r, session_attempts s !! (rc_subject r, rc_sequence r) with
  | Some e, Some a =>
      bool_decide (rs_user e = Some (rc_account r)) && (rc_sequence r <=? rs_generation e)
      && negb ((rs_generation e =? rc_sequence r) && negb (bool_decide (rs_state e ∈ [Idle; Ended])))
      && bool_decide (sa_state a = "ended") && bool_decide (Some (sa_attempt a) = rc_attempt r)
      && bool_decide (sa_worker a = rc_worker r) && bool_decide (sa_incarnation a = rc_incarnation r)
      && bool_decide (sa_range a = Some (rc_range r))
  | _, _ => false
  end.

Definition job_state_text (st : job_state) : string :=
  match st with
  | queued => "queued" | running => "running" | succeeded => "succeeded" | failed => "failed"
  | cancelled => "cancelled" end.

Definition job_end_proved (r : reported) (s : store) : bool :=
  match job_rows s !! rc_subject r, job_attempts s !! (rc_subject r, rc_sequence r) with
  | Some j, Some a =>
      bool_decide (jb_user j = rc_account r) && (jb_dispatch j =? rc_sequence r)
      && is_in (job_state_text (jb_state j)) ["running"; "completed"; "failed"; "cancelled"]
      && is_in (ja_state a) ["completed"; "failed"; "cancelled"] && some (ja_terminal a)
      && bool_decide (ja_worker a = rc_worker r) && bool_decide (ja_incarnation a = rc_incarnation r)
      && bool_decide (ja_range a = Some (rc_range r))
  | _, _ => false
  end.

(** The pending rows of the reported command, by sequence. *)
Definition lock_reported_subject_rows (r : reported) (s : store) : gmap Z command_row :=
  filter (fun kv : Z * command_row =>
    c_account kv.2 = Some (rc_account r) /\ c_kind kv.2 = rc_kind r
    /\ c_subject kv.2 = Some (rc_subject r) /\ c_sequence kv.2 = Some (rc_sequence r)
    /\ c_state kv.2 = Pending) (journal s (rc_worker r, rc_incarnation r)).

Definition lock_reported_command (r : reported) : txn store (gmap Z command_row) :=
  _ ← refuse_when (negb (reported_identity r)) "reported command identity is invalid";
  receipt ← read (fun s => bool_decide (rr_hash <$> receipts s !! (rc_range r, rc_report r) = Some (rc_hash r)));
  _ ← refuse_when (negb receipt) "physical report receipt is unavailable";
  same ← read (range_identity r);
  _ ← refuse_when (negb same) "physical report range identity changed";
  proved ← read (if is_close r then close_proved r else job_end_proved r);
  _ ← refuse_when (negb proved)
        (if is_close r then "session close report is not physically complete"
         else "job terminal report is not physically complete");
  read (lock_reported_subject_rows r).

(** ** The subject of an update's acknowledgement *)

Definition lock_update_ack_subject (hint : option command_row) (s : store)
  : option realtime_session * option session_attempt * option physical_range :=
  match hint with
  | Some h =>
      if negb (bool_decide (c_state h = Pending)) || negb (bool_decide (c_kind h = "update_session"))
      then (None, None, None)
      else
        let entity := id ← c_subject h; realtime_sessions s !! id in
        match entity, c_subject h, c_sequence h with
        | Some e, Some id, Some sequence =>
            if negb (rs_generation e =? sequence) then (entity, None, None)
            else
              let attempt := session_attempts s !! (id, sequence) in
              (entity, attempt, a ← attempt; range ← sa_range a; ranges s !! range)
        | _, _, _ => (entity, None, None)
        end
  | None => (None, None, None)
  end.

Definition read_committed_desired (session_id account : string) (generation : Z) (s : store)
  : option (json * Z) :=
  e ← session_at session_id generation s;
  if bool_decide (rs_user e = Some account) then Some (rs_desired e, rs_desired_revision e) else None.

(** ** What an erasure selects *)

(** The rows to erase and the connections to close. *)
Record selection := {
  sel_rows : command_row -> bool; sel_workers : gset worker_key
}.

Definition subject_command_kinds (kind : string) : result exn (list string) :=
  let kinds := if decide (kind = "job") then ["dispatch_job"; "cancel_job"]
               else if decide (kind = "session") then ["open_session"; "update_session"; "close_session"]
               else [kind] in
  if forallb (fun k => some (SUBJECT_FIELDS k)) kinds then Ok kinds
  else Err (CommandRefused "command erasure subject identity is invalid").

(** The workers of the open attempts of sessions whose physical range is one
    of the accounts', and of the dispatched attempts of jobs likewise. *)
Definition session_workers (accounts : string -> bool) (subject : string -> bool)
    (sequence : option Z) (s : store) : gset worker_key :=
  list_to_set (omap (fun kv : (string * Z) * session_attempt =>
    let '((id, generation), a) := kv in
    e ← realtime_sessions s !! id;
    range ← sa_range a;
    p ← ranges s !! range;
    account ← pr_account p;
    if accounts account && subject id
       && match sequence with Some q => generation =? q | None => true end
       && bool_decide (pr_kind p = SessionRange) && bool_decide (pr_subject p = id)
       && bool_decide (pr_attempt p = Some (sa_attempt a))
       && bool_decide (pr_generation p = Some generation)
       && bool_decide (rs_state e ∈ [Assigning; Live; Idle; Ending])
       && is_in (sa_state a) ["opening"; "running"]
    then Some (sa_worker a, sa_incarnation a) else None) (map_to_list (session_attempts s))).

Definition job_workers (accounts : string -> bool) (subject : string -> bool)
    (sequence : option Z) (current : bool) (s : store) : gset worker_key :=
  list_to_set (omap (fun kv : (string * Z) * job_attempt =>
    let '((id, dispatch), a) := kv in
    j ← job_rows s !! id;
    range ← ja_range a;
    p ← ranges s !! range;
    account ← pr_account p;
    if accounts account && subject id
       && match sequence with Some q => dispatch =? q | None => true end
       && (negb current || (dispatch =? jb_dispatch j))
       && bool_decide (pr_kind p = JobRange) && bool_decide (pr_subject p = id)
       && bool_decide (pr_sequence p = Some dispatch)
       && bool_decide (jb_state j ∈ [running; cancelled])
       && bool_decide (ja_state a = "dispatching")
    then Some (ja_worker a, ja_incarnation a) else None) (map_to_list (job_attempts s))).

Definition account_is (r : command_row) (accounts : string -> bool) : bool :=
  match c_account r with Some a => accounts a | None => false end.

(** Only the current attempt of a job counts. *)
Definition account_erasure_selection (accounts : list string) (s : store) : selection :=
  let owned a := bool_decide (a ∈ accounts) in
  {| sel_rows := fun r => account_is r owned;
     sel_workers := session_workers owned (fun _ => true) None s
                    ∪ job_workers owned (fun _ => true) None true s |}.

(** [ids] are the sessions of the account under one of the given browser
    sessions and not under the kept one. *)
Definition realtime_ids (account : string) (auth_sessions : option (list string)) (keep : option string)
    (s : store) : list string :=
  omap (fun kv : string * realtime_session =>
    let (id, e) := kv in
    if bool_decide (rs_user e = Some account)
       && match auth_sessions with
          | Some ids => match rs_auth e with Some a => bool_decide (a ∈ ids) | None => false end
          | None => true end
       && match keep with Some k => negb (bool_decide (rs_auth e = Some k)) | None => true end
    then Some id else None) (map_to_list (realtime_sessions s)).

Definition realtime_erasure_selection (account : string) (auth_sessions : option (list string))
    (keep : option string) (s : store) : option selection :=
  match auth_sessions with
  | Some [] => None
  | _ =>
      match realtime_ids account auth_sessions keep s with
      | [] => None
      | ids =>
          let chosen id := bool_decide (id ∈ ids) in
          Some {| sel_rows := fun r =>
                    account_is r (fun a => bool_decide (a = account)) && ends_with_session (c_kind r)
                    && match c_subject r with Some id => chosen id | None => false end;
                  sel_workers := session_workers (fun a => bool_decide (a = account)) chosen None s |}
      end
  end.

Definition subject_row (account subject : string) (kinds : list string) (sequence : option Z)
    (r : command_row) : bool :=
  account_is r (fun a => bool_decide (a = account)) && is_in (c_kind r) kinds
  && bool_decide (c_subject r = Some subject)
  && match sequence with Some q => bool_decide (c_sequence r = Some q) | None => true end.

Definition subject_erasure_selection (account kind subject : string) (sequence : option Z)
  : txn store selection :=
  kinds ← lift (subject_command_kinds kind);
  _ ← refuse_when match sequence with
                  | Some q => negb ((1 <=? q) && (q <=? MAX_SEQUENCE)) | None => false end
        "command erasure subject sequence is invalid";
  let owned a := bool_decide (a = account) in
  let chosen id := bool_decide (id = subject) in
  workers ← read (if forallb ends_with_session kinds
                  then session_workers owned chosen sequence
                  else job_workers owned chosen sequence false);
  mret {| sel_rows := subject_row account subject kinds sequence; sel_workers := workers |}.
