(* ===== verification/CommandStore.v ===== *)
(** * The durable journal of worker commands

    Models src/backend/app/command_store.py: a command is sealed and stored
    with its place in the worker's sequence in the transaction that claims its
    subject, delivered from the head of the journal, and retired by its
    acknowledgement, which advances the floor below which nothing is kept.

    Each function is one transaction.  The row locks it takes are held to its
    end, so a row read twice is the same row. *)

From S2P Require Import Prelude PyFloat Hashes Json JsonFacts Protocol6 Uuid PyInt KeyRing Transactions AccountStore CommandTables CommandSubjects.
Open Scope Z_scope.

Definition MAX_RETAINED_COMMANDS : Z := 256.
Definition MAX_PENDING_BYTES : Z := 4 * 1024 * 1024.
Definition MAX_SMALL_COMMAND_BYTES : Z := 16 * 1024.
Definition MAX_PARAMETER_COMMAND_BYTES : Z := 1024 * 1024.
Definition CONSUMING_REFUSALS : list string := [
  "authority_expired"; "authority_mismatch"; "attempt_stale"; "revision_stale";
  "unsupported_control"; "out_of_memory"; "model_unavailable"; "invalid_params";
  "capacity_unavailable"; "dependency_unavailable"; "checkpoint_incompatible"].
Definition ACK_COMMON : list string := [
  "worker_id"; "incarnation"; "region"; "owner_epoch"; "lease_id"; "lease_expires_at";
  "grant_nonce"; "command_sequence"; "command_id"; "body_hash"].

Record stored_command := {
  sc_worker : string; sc_incarnation : string; sc_sequence : Z; sc_id : string; sc_hash : string;
  sc_body : string; sc_created : Z; sc_account : option string; sc_subject : option string;
  sc_subject_sequence : option Z; sc_identity : option string
}.
Record publication := {
  pub_account : option string; pub_subject : option string; pub_sequence : option Z;
  pub_model : json; pub_params : json; pub_revision : json; pub_attempt : json
}.
Record ack_result := { ack_recorded : bool; ack_obsolete : bool; ack_publication : option publication }.
Definition not_recorded : ack_result :=
  {| ack_recorded := false; ack_obsolete := false; ack_publication := None |}.

(** ** The identity of a command *)

Definition aad (k : worker_key) (sequence : Z) (id hash : string) : result exn (list Z) :=
  text ← canonical_bytes (JDict [("body_hash", JStr hash); ("command_id", JStr id);
    ("command_sequence", JInt sequence); ("incarnation", JStr k.2); ("worker_id", JStr k.1)]);
  Ok (bytes_of_string text).

(** [s.endswith(suffix)] *)
Fixpoint endswith (suffix s : string) : bool :=
  bool_decide (s = suffix)
  || match s with String.String _ s => endswith suffix s | String.EmptyString => false end.

Definition ack_identity_projection (kind : string) (value : dict) : result exn dict :=
  match SUBJECT_FIELDS kind with
  | None => Err (CommandRefused "command kind has no ACK identity")
  | Some fields =>
      let names := ACK_COMMON ++ fields in
      _ ← refuse_if (existsb (fun name => negb (has_key name value)) names)
            (CommandRefused "command acknowledgement identity is incomplete");
      Ok (update_with (omap (fun name => v ← lookup_key name value; Some (name, v)) names)
            [("ack_variant", JStr (if endswith "session" kind then "session" else "job"));
             ("command_kind", JStr kind)])
  end.

Definition ack_identity_hash (kind : string) (value : dict) : result exn string :=
  projection ← ack_identity_projection kind value;
  text ← canonical_bytes (JDict projection);
  Ok (sha256 text).

Definition command_identity (kind : string) (value : dict) : result exn (string * Z) :=
  let (subject, sequence) :=
    if endswith "session" kind then (get value "session_id", get value "control_generation")
    else (get value "job_id", get value "dispatch_sequence") in
  subject_id ← match uuid_of subject with
               | Err (TypeError _ as e) => Err (CommandRefused "command subject identity is invalid")
               | Err e => if is_value_error e then Err (CommandRefused "command subject identity is invalid")
                          else Err e
               | Ok id => Ok id
               end;
  match sequence with
  | JInt z => if (1 <=? z) && (z <=? MAX_SEQUENCE) then Ok (subject_id, z)
              else Err (CommandRefused "command subject sequence is invalid")
  | _ => Err (CommandRefused "command subject sequence is invalid")
  end.

(** Every field named is the same in the command and in its ack. *)
Definition ack_matches (command ack : dict) : result exn bool :=
  kind ← item command "type";
  let subject := match kind with JStr k => default [] (SUBJECT_FIELDS k) | _ => [] end in
  let common := ["worker_id"; "incarnation"; "region"; "owner_epoch"; "lease_id"; "grant_nonce";
                 "command_sequence"; "command_id"; "body_hash"] in
  if existsb (fun field => negb (py_eq (get ack field) (get command field))) (common ++ subject)
  then Ok false
  else match lookup_key "lease_expires_at" ack with
       | None => Ok true
       | Some expires => e ← item command "lease_expires_at"; Ok (py_eq expires e)
       end.

(** ** A saved acknowledgement *)

(** [json.loads] of bytes.  A repeated key keeps its last value; the
    non-finite constants are read as a value [canonical_bytes] refuses, as are
    lone surrogates. *)
Definition json_loads (body : string) : result exn json :=
  if utf8_valid body
  then loads (fun ps => Ok (update_with ps [])) (Ok (JFloat SpecFloat.S754_nan)) body
  else Err (ValueError "invalid UTF-8").

Definition caught_here (e : exn) : bool :=
  is_value_error e || match e with KeyError _ | TypeError _ | CommandRefused _ => true | _ => false end.

(** The body proves that its row's command was answered. *)
Definition saved_ack_agrees (k : worker_key) (sequence : Z) (row : command_row) (body : string)
  : result exn bool :=
  value ← json_loads body;
  text ← canonical_bytes value;
  if negb (bool_decide (text = body)) then Ok false else
  match value with
  | JDict ack =>
      if negb (py_eq (get ack "type") (JStr "command_ack")) then Ok false else
      _ ← validate_message (JDict ack) (Some k.1) (Some k.2);
      status ← item ack "status";
      let code := opt_str (c_code row) in
      let refused := py_eq status (JStr "refused") in
      if negb (py_eq status (opt_str (c_status row))) || negb (py_eq (get ack "code") code)
         || negb (is_null (get ack "expected_sequence")) then Ok false
      else if py_eq status (JStr "accepted") && some (c_code row)
              || refused && negb (match c_code row with
                                  | Some c => is_in c CONSUMING_REFUSALS | None => false end)
      then Ok false
      else
        fields ← given (c_kind row) (SUBJECT_FIELDS (c_kind row));
        let required := ACK_COMMON ++ fields ++ ["type"; "status"]
                        ++ (if refused then ["code"] else []) in
        if negb (same_names (keys ack) required) then Ok false else
        id ← item ack "command_id"; hash ← item ack "body_hash"; number ← item ack "command_sequence";
        if py_eq id (JStr (c_id row)) && py_eq hash (JStr (c_hash row)) && py_eq number (JInt sequence)
        then identity ← ack_identity_hash (c_kind row) ack; Ok (bool_decide (c_identity row = Some identity))
        else Ok false
  | _ => Err (AttributeError "get")
  end.

Definition known_acknowledged (k : worker_key) (sequence : Z) (row : command_row) : result exn bool :=
  if negb (bool_decide (c_state row = Acknowledged)) || none (c_identity row)
     || none (c_acknowledged row) || some (c_expected row) then Ok false
  else match c_ack row with
  | None => Ok false
  | Some body =>
      if MAX_SMALL_COMMAND_BYTES <? blen body then Ok false
      else match saved_ack_agrees k sequence row body with
           | Err e => if caught_here e then Ok false else Err e
           | Ok b => Ok b
           end
  end.

(** ** The floor *)

(** The floor rises over rows that are known to be answered. *)
Fixpoint advance (known : Z -> result exn bool) (fuel : nat) (floor next : Z) : result exn Z :=
  match fuel with
  | O => Ok floor
  | S fuel =>
      if floor + 1 <? next then
        go ← known (floor + 1);
        if (go : bool) then advance known fuel (floor + 1) next else Ok floor
      else Ok floor
  end.
Definition advance_floor (known : Z -> result exn bool) (floor next : Z) : result exn Z :=
  advance known (Z.to_nat (next - floor)) floor next.

Definition known_row (k : worker_key) (rows : gmap Z command_row) (sequence : Z) : result exn bool :=
  match rows !! sequence with Some row => known_acknowledged k sequence row | None => Ok false end.

Definition set_floor (floor : Z) (c : connection) : connection :=
  {| k_transport := k_transport c; k_region := k_region c; k_epoch := k_epoch c; k_lease := k_lease c;
     k_lease_expires := k_lease_expires c; k_nonce := k_nonce c; k_grant_expires := k_grant_expires c;
     k_grant_ready := k_grant_ready c; k_next := k_next c; k_floor := floor;
     k_lifecycle := k_lifecycle c; k_closed := k_closed c; k_envelope := k_envelope c |}.
Definition bump_next (c : connection) : connection :=
  {| k_transport := k_transport c; k_region := k_region c; k_epoch := k_epoch c; k_lease := k_lease c;
     k_lease_expires := k_lease_expires c; k_nonce := k_nonce c; k_grant_expires := k_grant_expires c;
     k_grant_ready := k_grant_ready c; k_next := k_next c + 1; k_floor := k_floor c;
     k_lifecycle := k_lifecycle c; k_closed := k_closed c; k_envelope := k_envelope c |}.
Definition close_connection (now : Z) (ended : bool) (c : connection) : connection :=
  {| k_transport := k_transport c; k_region := k_region c; k_epoch := k_epoch c; k_lease := k_lease c;
     k_lease_expires := k_lease_expires c; k_nonce := k_nonce c; k_grant_expires := k_grant_expires c;
     k_grant_ready := k_grant_ready c; k_next := k_next c; k_floor := k_floor c;
     k_lifecycle := if ended then Closed else k_lifecycle c;
     k_closed := match k_closed c with Some t => Some t | None => Some now end; k_envelope := k_envelope c |}.

(** [DELETE ... WHERE command_sequence <= floor AND state = 'acknowledged'] *)
Definition below_floor (floor : Z) (sequence : Z) (r : command_row) : bool :=
  (sequence <=? floor) && bool_decide (c_state r = Acknowledged).
Definition drop_below (floor : Z) (j : gmap Z command_row) : gmap Z command_row :=
  filter (fun kv : Z * command_row => below_floor floor kv.1 kv.2 = false) j.

(** The floor moves and the rows below it go, when it rose. *)
Definition raise_floor (k : worker_key) (old floor : Z) : txn store unit :=
  if old <? floor then
    _ ← update_connection k (set_floor floor);
    write (on_journal k (drop_below floor))
  else mret tt.

(** ** [datetime.isoformat] of a UTC time, with [Z] for the offset *)

Fixpoint zeros (n : nat) : string := match n with O => "" | S n => "0" +:+ zeros n end.
(** [f"{z:0{n}}"] *)
Definition digits (n : nat) (z : Z) : string := zeros (n - String.length (dec_string z)) +:+ dec_string z.

(** The proleptic Gregorian date of a day counted from 1970-01-01. *)
Definition civil_from_days (days : Z) : Z * Z * Z :=
  let z := days + 719468 in
  let era := z / 146097 in
  let doe := z - era * 146097 in
  let yoe := (doe - doe / 1460 + doe / 36524 - doe / 146096) / 365 in
  let doy := doe - (365 * yoe + yoe / 4 - yoe / 100) in
  let mp := (5 * doy + 2) / 153 in
  let month := if mp <? 10 then mp + 3 else mp - 9 in
  let year := yoe + era * 400 + (if month <=? 2 then 1 else 0) in
  (year, month, doy - (153 * mp + 2) / 5 + 1).

Definition isoformat_utc (micros : Z) : string :=
  let day := micros / 86400000000 in
  let rest := micros mod 86400000000 in
  let '(y, m, d) := civil_from_days day in
  let seconds := rest / 1000000 in
  let fraction := rest mod 1000000 in
  digits 4 y +:+ "-" +:+ digits 2 m +:+ "-" +:+ digits 2 d +:+ "T"
  +:+ digits 2 (seconds / 3600) +:+ ":" +:+ digits 2 (seconds / 60 mod 60) +:+ ":"
  +:+ digits 2 (seconds mod 60)
  +:+ (if fraction =? 0 then "" else "." +:+ digits 6 fraction) +:+ "Z".

Example isoformat_epoch : isoformat_utc 0 = "1970-01-01T00:00:00Z".
Proof. vm_compute. reflexivity. Qed.
Example isoformat_leap_day : isoformat_utc 1709210096000250 = "2024-02-29T12:34:56.000250Z".
Proof. vm_compute. reflexivity. Qed.

(** ** Committing a command *)

(** The arguments of [commit_command]; [q_id] is the UUID drawn for the
    command, [q_iv] the nonce drawn to seal it. *)
Record commit_request := {
  q_worker : string; q_incarnation : string; q_type : string; q_fields : dict; q_nonce : string;
  q_transport : option string; q_account : option string; q_context : option session_context;
  q_job_context : option (option string); q_callback : bool; q_id : string; q_iv : list Z
}.
Definition q_key (q : commit_request) : worker_key := (q_worker q, q_incarnation q).

Section Store.
Context `{Driver} `{CryptoOps}.
Variable m : moment.
(** What [get_key_ring] returns. *)
Variable ring : result exn key_ring.

Definition expected_transport (transport : option string) : string := default (e_transport m) transport.

Definition ready_connection (k : worker_key) (s : store) : option connection :=
c ← connections s !! k;
if none (k_closed c) && bool_decide (k_lifecycle c = Ready) then Some c else None.

Definition allocation_changed (hint w : connection) : bool :=
negb (bool_decide (k_region w = k_region hint)) || negb (k_next w =? k_next hint)
|| negb (k_floor w =? k_floor hint).

Definition cancel_stale (k : worker_key) (cancel : option job_attempt) (w : connection) : bool :=
match cancel with
| Some a => negb (bool_decide (ja_worker a = k.1)) || negb (bool_decide (ja_incarnation a = k.2))
            || negb (ja_epoch a =? k_epoch w)
| None => false
end.

(** The connection with its work grant, under the lease of its region. *)
Definition lock_grant (k : worker_key) (transport nonce : string) (cancel : option job_attempt)
: txn store connection :=
hint ← read (ready_connection k);
match hint with
| None => refused "worker has no current work grant"
| Some hint =>
    lease ← read (fun s => leases s !! k_region hint);
    match lease with
    | None => refused "regional scheduler lease is unavailable"
    | Some l =>
        _ ← refuse_when (negb (bool_decide (l_owner l = e_scheduler m)))
              "regional scheduler lease is unavailable";
        w ← read (ready_connection k);
        match w with
        | None => refused "worker has no current work grant"
        | Some w =>
            _ ← refuse_when (negb (bool_decide (k_transport w = transport)) || negb (k_grant_ready w))
                  "worker has no current work grant";
            _ ← refuse_when (allocation_changed hint w)
                  "worker command allocation changed; retry the command";
            _ ← refuse_when (cancel_stale k cancel w) "job cancellation owner is stale";
            _ ← refuse_when (negb (bool_decide (k_nonce w = nonce))) "worker grant nonce is stale";
            _ ← refuse_when (negb (k_epoch w =? l_epoch l) || negb (bool_decide (k_lease w = l_id l)))
                  "worker authority is no longer current";
            _ ← refuse_when (negb (e_deadline_clock m <? l_expires l))
                  "regional scheduler lease has expired";
            _ ← refuse_when (negb (e_deadline_clock m <? k_grant_expires w)) "worker grant has expired";
            _ ← refuse_when (MAX_SEQUENCE <=? k_next w) "worker command sequence is exhausted";
            mret w
        end
    end
end.

(** The message without its hash. *)
Definition command_message (q : commit_request) (fields : dict) (w : connection) : dict :=
update_with [
  ("type", JStr (q_type q)); ("worker_id", JStr (q_worker q)); ("incarnation", JStr (q_incarnation q));
  ("region", JStr (k_region w)); ("owner_epoch", JInt (k_epoch w)); ("lease_id", JStr (k_lease w));
  ("lease_expires_at", JStr (isoformat_utc (k_lease_expires w)));
  ("grant_nonce", JStr (q_nonce q)); ("command_sequence", JInt (k_next w));
  ("command_id", JStr (q_id q))] fields.

(** The body with what the row records of it. *)
Record built := {
  bt_message : dict; bt_hash : string; bt_subject : string; bt_sequence : Z; bt_identity : string;
  bt_body : string
}.

Definition build_command (q : commit_request) (fields : dict) (w : connection) : result exn built :=
let message := command_message q fields w in
text ← canonical_bytes (JDict message);
let hash := sha256 text in
let message := set_key "body_hash" (JStr hash) message in
subject ← command_identity (q_type q) message;
identity ← ack_identity_hash (q_type q) message;
body ← match preflight_worker_control (JDict message) (Some (q_worker q)) (Some (q_incarnation q)) with
       | Err e => if is_value_error e then Err (CommandRefused "command does not match protocol6") else Err e
       | Ok body => Ok body
       end;
_ ← refuse_if (command_size_limit (q_type q) MAX_PARAMETER_COMMAND_BYTES MAX_SMALL_COMMAND_BYTES
               <? blen body) (CommandRefused "command exceeds protocol6 size limit");
Ok {| bt_message := message; bt_hash := hash; bt_subject := subject.1; bt_sequence := subject.2;
      bt_identity := identity; bt_body := body |}.

Definition retained_rows (rows : gmap Z command_row) (old floor : Z) : Z :=
Z.of_nat (size (if old <? floor then drop_below floor rows else rows)).
Definition pending_bytes (rows : gmap Z command_row) : Z :=
map_fold (fun _ r n => (if bool_decide (c_state r = Pending) then c_bytes r else 0) + n) 0 rows.

(** The sealed body and the version of the key that sealed it. *)
Definition seal_command (q : commit_request) (sequence : Z) (b : built) : result exn (list Z * Z) :=
match
  (r ← ring;
   ad ← aad (q_key q) sequence (q_id q) (bt_hash b);
   sealed ← encrypt r (q_iv q) "worker-command" (bytes_of_string (bt_body b)) ad;
   version ← version_of sealed;
   Ok (sealed, version))
with
| Err e => if is_key_ring_error e then Err (CommandRefused "worker command key is unavailable") else Err e
| Ok x => Ok x
end.

Definition pending_row (q : commit_request) (account : string) (b : built) (sealed : list Z) (version : Z)
: command_row :=
{| c_id := q_id q; c_kind := q_type q; c_hash := bt_hash b; c_account := Some account;
   c_subject := Some (bt_subject b); c_sequence := Some (bt_sequence b);
   c_identity := Some (bt_identity b); c_version := Some version; c_body := Some sealed;
   c_bytes := blen (bt_body b); c_state := Pending; c_created := e_started m;
   c_acknowledged := None; c_status := None; c_code := None; c_expected := None; c_ack := None |}.

Definition stored (q : commit_request) (account : string) (sequence : Z) (b : built) : stored_command :=
{| sc_worker := q_worker q; sc_incarnation := q_incarnation q; sc_sequence := sequence;
   sc_id := q_id q; sc_hash := bt_hash b; sc_body := ""; sc_created := e_started m;
   sc_account := Some account; sc_subject := Some (bt_subject b);
   sc_subject_sequence := Some (bt_sequence b); sc_identity := Some (bt_identity b) |}.

(** From the locked grant on: place, seal and store the message. *)
Definition store_command (q : commit_request) (account : string) (pre : prepared) (w : connection)
: txn store stored_command :=
let k := q_key q in
let sequence := k_next w in
b ← lift (build_command q (pre_fields pre) w);
rows ← read (fun s => journal s k);
floor ← lift (advance_floor (known_row k rows) (k_floor w) sequence);
_ ← raise_floor k (k_floor w) floor;
_ ← refuse_when ((MAX_RETAINED_COMMANDS <=? retained_rows rows (k_floor w) floor)
                 || (MAX_PENDING_BYTES <? pending_bytes rows + blen (bt_body b)))
      "worker command journal is full";
'(sealed, version) ← lift (seal_command q sequence b);
_ ← apply_command_claim m (q_worker q) (q_incarnation q) w (pre_claim pre) account (q_id q);
_ ← insert_command k sequence (pending_row q account b sealed version);
_ ← update_connection k bump_next;
mret (stored q account sequence b).

Definition commit_in (q : commit_request) (account : string)
: txn store (stored_command * option (json * Z)) :=
let transport := expected_transport (q_transport q) in
next_hint ← read (fun s => k_next <$> connections s !! q_key q);
_ ← refuse_when match next_hint with Some n => MAX_SEQUENCE <=? n | None => false end
      "worker command sequence is exhausted";
pre ← prepare_command_subject m (q_worker q) (q_incarnation q) transport (q_type q) (q_fields q) account
        (q_context q) (q_job_context q);
w ← lock_grant (q_key q) transport (q_nonce q) (pre_cancel pre);
command ← store_command q account pre w;
mret (command, pre_desired pre).

(** [None]: the callback is not called; the stored parameters are an object. *)
Definition published (callback : bool) (desired : option (json * Z)) : result exn (option (dict * Z)) :=
match callback, desired with
| true, Some (JDict params, revision) => Ok (Some (params, revision))
| true, Some _ => Err (TypeError "object is not a mapping")
| _, _ => Ok None
end.

Definition commit_command (q : commit_request) : action store (stored_command * option (dict * Z)) :=
match validate_command_identity (q_type q) (q_account q) (q_fields q), q_account q with
| Err e, _ => fail_with e
| Ok _, None => fail_with (CommandRefused "command account identity is unavailable")
| Ok _, Some account =>
    if q_callback q && negb (bool_decide (q_type q = "update_session"))
    then fail_with (CommandRefused "desired state callback is only valid for session updates")
    else if negb (e_connected m) then fail_with (CommandRefused "durable command store unavailable")
    else
      '(command, desired) ← atomic (commit_in q account);
      match published (q_callback q) desired with
      | Ok shown => mret (command, shown)
      | Err e => fail_with e
      end
end.

(** ** Reading the head of the journal *)

(** The fields that bind a message to the connection's authority. *)
Definition authority_stale (k : worker_key) (c : connection) (message : dict) : bool :=
existsb (fun fv : string * json => negb (py_eq (get message fv.1) fv.2))
  [("worker_id", JStr k.1); ("incarnation", JStr k.2); ("owner_epoch", JInt (k_epoch c));
   ("lease_id", JStr (k_lease c))].

(** [message["type"]] where a text is expected. *)
Definition kind_text (message : dict) : result exn string :=
v ← item message "type"; match v with JStr kind => Ok kind | _ => Err (AttributeError "endswith") end.

Definition open_row (k : worker_key) (c : connection) (sequence : Z) (row : command_row)
: result exn stored_command :=
plaintext ← match
              (r ← ring; ad ← aad k sequence (c_id row) (c_hash row);
               decrypt r "worker-command" (default [] (c_body row)) ad)
            with
            | Err e => if is_key_ring_error e
                       then Err (CommandRefused "retained worker command cannot be read") else Err e
            | Ok p => Ok p
            end;
let body := string_of_bytes plaintext in
message ← decode_control (RawBytes body);
_ ← refuse_if (authority_stale k c message) (CommandRefused "pending worker command authority is stale");
text ← canonical_bytes (JDict (without "body_hash" message));
_ ← require (bool_decide (sha256 text = c_hash row))
      (CommandRefused "retained worker command failed its body hash");
kind ← kind_text message;
subject ← command_identity kind message;
let unavailable := CommandRefused "retained worker command identity is unavailable" in
_ ← refuse_if (none (c_account row) || negb (bool_decide (c_subject row = Some subject.1))
               || negb (bool_decide (c_sequence row = Some subject.2))) unavailable;
identity ← ack_identity_hash kind message;
_ ← require (bool_decide (c_identity row = Some identity)) unavailable;
Ok {| sc_worker := k.1; sc_incarnation := k.2; sc_sequence := sequence; sc_id := c_id row;
      sc_hash := c_hash row; sc_body := body; sc_created := c_created row; sc_account := c_account row;
      sc_subject := c_subject row; sc_subject_sequence := c_sequence row; sc_identity := c_identity row |}.

(** The connection of this transport, whatever its state. *)
Definition own_connection (k : worker_key) (transport : string) (s : store) : option connection :=
c ← connections s !! k; if bool_decide (k_transport c = transport) then Some c else None.

(** The connection, open and under the live lease of its region. *)
Definition live_authority (k : worker_key) (transport : string) (s : store) : option connection :=
c ← own_connection k transport s;
l ← leases s !! k_region c;
if none (k_closed c) && bool_decide (k_lifecycle c ∈ [Ready; Draining])
   && (l_epoch l =? k_epoch c) && bool_decide (l_id l = k_lease c)
   && (e_deadline_clock m <? l_expires l)
then Some c else None.

(** Without authority an unanswered head must still be pending. *)
Definition fenced_head (k : worker_key) (transport : string) (s : store) : result exn (option stored_command) :=
match own_connection k transport s with
| Some c =>
    if k_floor c + 1 <? k_next c then
      match journal s k !! (k_floor c + 1) with
      | Some row => if bool_decide (c_state row = Pending) then Ok None
                    else Err (CommandRefused "worker command head is unresolved")
      | None => Err (CommandRefused "worker command head is unresolved")
      end
    else Ok None
| None => Ok None
end.

Definition read_exact_pending (worker incarnation : string) (transport : option string) (s : store)
: result exn (option stored_command) :=
if negb (e_connected m) then Err (CommandRefused "durable command store unavailable") else
let k := (worker, incarnation) in
let transport := expected_transport transport in
match live_authority k transport s with
| None => fenced_head k transport s
| Some c =>
    let sequence := k_floor c + 1 in
    if k_next c <=? sequence then Ok None
    else match journal s k !! sequence with
    | None => Err (CommandRefused "worker command journal has an unresolved gap")
    | Some row =>
        if bool_decide (c_state row = Pending) then command ← open_row k c sequence row; Ok (Some command)
        else Err (CommandRefused "worker command head is unresolved")
    end
end.

(** ** Erasing commands *)

Definition erased_row (r : command_row) : command_row :=
{| c_id := c_id r; c_kind := c_kind r; c_hash := c_hash r; c_account := c_account r;
   c_subject := c_subject r; c_sequence := c_sequence r; c_identity := c_identity r; c_version := None;
   c_body := None; c_bytes := 0; c_state := Erased; c_created := c_created r; c_acknowledged := None;
   c_status := None; c_code := None; c_expected := None; c_ack := None |}.

Definition erases (p : command_row -> bool) (r : command_row) : bool :=
p r && bool_decide (c_state r = Pending).
Definition erase_rows (p : command_row -> bool) (s : store) : store :=
on_commands (fun cs => (fun j : gmap Z command_row =>
  (fun r => if erases p r then erased_row r else r) <$> j) <$> cs) s.

(** The pending rows selected, by connection. *)
Definition pending_selected (p : command_row -> bool) (s : store) : gmap worker_key (gmap Z command_row) :=
(fun j => filter (fun kv : Z * command_row => erases p kv.2 = true) j) <$> commands s.
Definition pending_workers (p : command_row -> bool) (s : store) : gset worker_key :=
dom (filter (fun kv : worker_key * gmap Z command_row => kv.2 <> ∅) (pending_selected p s)).
Definition pending_count (p : command_row -> bool) (s : store) : Z :=
map_fold (fun _ j n => Z.of_nat (size j) + n) 0 (pending_selected p s).

(** The connections of the rows and of the selection close. *)
Definition close_workers (workers : gset worker_key) (s : store) : store :=
on_connections (map_imap (fun k c =>
  Some (if bool_decide (k ∈ workers) then close_connection (e_write_clock m) false c else c))) s.

Definition erase_pending_rows (sel : selection) : txn store Z :=
count ← read (pending_count (sel_rows sel));
workers ← read (fun s => pending_workers (sel_rows sel) s ∪ sel_workers sel);
if bool_decide (workers = ∅) then mret 0
else
  _ ← write (erase_rows (sel_rows sel));
  _ ← write (close_workers workers);
  mret count.

Definition erase_account_commands (accounts : list string) : txn store Z :=
sel ← read (account_erasure_selection accounts); erase_pending_rows sel.

Definition erase_realtime_commands (account : string) (auth_sessions : option (list string))
  (keep : option string) : txn store Z :=
sel ← read (realtime_erasure_selection account auth_sessions keep);
match sel with None => mret 0 | Some sel => erase_pending_rows sel end.

Definition erase_subject_commands (account kind subject : string) (sequence : option Z) : txn store Z :=
sel ← subject_erasure_selection account kind subject sequence; erase_pending_rows sel.

(** Only a single pending row is erased, and its connection stays open. *)
Definition erase_reported_subject_command (r : reported) : txn store Z :=
rows ← lock_reported_command r;
match map_to_list rows with
| [(sequence, row)] =>
    match c_identity row with
    | None => refused "pending command identity is unavailable"
    | Some h =>
        _ ← refuse_when (negb (HEX64 h)) "reported pending command identity changed";
        _ ← update_command (rc_worker r, rc_incarnation r) sequence erased_row;
        mret 1
    end
| _ => mret 0
end.

(** ** Delivering a command *)

(** The command handed over is the one the body says. *)
Definition delivery_body (c : stored_command) (k : worker_key) : result exn dict :=
let invalid := CommandRefused "command delivery body is invalid" in
let check :=
  body ← decode_control (RawBytes (sc_body c));
  if negb (py_eq (get body "worker_id") (JStr k.1)) || negb (py_eq (get body "incarnation") (JStr k.2))
  then Err (CommandRefused "command delivery body changed")
  else
    text ← canonical_bytes (JDict (without "body_hash" body));
    if negb (bool_decide (sha256 text = sc_hash c))
    then Err (CommandRefused "command delivery body changed")
    else
      kind ← item body "type";
      identity ← match kind with
                 | JStr kind => ack_identity_hash kind body
                 | _ => Err (CommandRefused "command kind has no ACK identity")
                 end;
      if bool_decide (sc_identity c = Some identity) then Ok body
      else Err (CommandRefused "command delivery body changed") in
match check with
| Err (KeyError _) => Err invalid
| Err e => if is_value_error e then Err invalid else Err e
| Ok body => Ok body
end.

Definition same_row (row : command_row) (c : stored_command) : bool :=
bool_decide (c_state row = Pending) && bool_decide (c_id row = sc_id c)
&& bool_decide (c_hash row = sc_hash c) && bool_decide (c_account row = sc_account c)
&& bool_decide (c_subject row = sc_subject c) && bool_decide (c_sequence row = sc_subject_sequence c)
&& bool_decide (c_identity row = sc_identity c).

Definition delivery_authority (l : lease) (w : connection) (transport : string) : bool :=
none (k_closed w) && bool_decide (k_transport w = transport)
&& bool_decide (l_owner l = e_scheduler m) && (k_epoch w =? l_epoch l)
&& bool_decide (k_lease w = l_id l) && k_grant_ready w && bool_decide (k_lifecycle w = Ready).

Definition delivery_live (l : lease) (w : connection) (deadlines : option (option Z * option Z)) : bool :=
let now := e_deadline_clock m in
let (idle, absolute) := default (None, None) deadlines in
(now <? l_expires l) && (now <? k_grant_expires w) && later absolute now && later idle now.

Definition deliver_in (c : stored_command) (ref : subject_ref) (k : worker_key) (transport : string)
  (body : dict) (registered : bool) : txn store bool :=
kind ← lift (kind_text body);
deadlines ← lock_delivery_subject m k.1 k.2 transport ref kind body;
head ← read (fun s => journal s k !! sc_sequence c);
_ ← refuse_when match head with Some row => negb (same_row row c) | None => true end
      "command is no longer pending";
hint ← read (fun s => connections s !! k);
match hint with
| None => refused "worker connection is unavailable"
| Some w =>
    lease ← read (fun s => leases s !! k_region w);
    match lease with
    | None => refused "worker delivery authority is stale"
    | Some l =>
        _ ← refuse_when (negb (delivery_authority l w transport)) "worker delivery authority is stale";
        _ ← refuse_when (negb (sc_sequence c =? k_floor w + 1))
              "command is not the unresolved journal head";
        _ ← refuse_when (negb (delivery_live l w deadlines))
              "worker delivery authority or browser binding expired";
        _ ← refuse_when (negb registered) "command delivery registration refused";
        mret true
    end
end.

(** [registered]: what [register] answers, called last of all. *)
Definition register_delivery (c : stored_command) (same_factory : bool) (worker incarnation transport : string)
  (registered : bool) : action store bool :=
match sc_account c with
| Some account =>
    if negb (e_connected m) || negb same_factory || negb (bool_decide (sc_worker c = worker))
       || negb (bool_decide (sc_incarnation c = incarnation)) || bool_decide (sc_body c = "")
    then fail_with (CommandRefused "command delivery identity changed")
    else match delivery_body c (worker, incarnation) with
    | Err e => fail_with e
    | Ok body =>
        atomic (deliver_in c {| sr_account := account; sr_subject := sc_subject c;
                                sr_sequence := sc_subject_sequence c |} (worker, incarnation) transport body registered)
    end
| None => fail_with (CommandRefused "command delivery identity changed")
end.

(** ** Acknowledging a command *)

(** What is read of an acknowledgement. *)
Record parsed_ack := {
  pa_worker : string; pa_incarnation : string; pa_sequence : Z; pa_id : string; pa_hash : json;
  pa_body : string
}.

Definition parse_ack (message : dict) (worker incarnation : string) : result exn parsed_ack :=
let invalid := CommandRefused "command acknowledgement is invalid" in
let check :=
  _ ← validate_message (JDict message) (Some worker) (Some incarnation);
  kind ← item message "type";
  _ ← require (py_eq kind (JStr "command_ack")) (ValueError "");
  source ← item message "worker_id";
  inc ← uuid_field message "incarnation";
  sequence ← item message "command_sequence";
  id ← uuid_field message "command_id";
  hash ← item message "body_hash";
  body ← canonical_bytes (JDict message);
  _ ← refuse_if (16 * 1024 <? blen body) (ValueError "");
  match source, sequence with
  | JStr source, JInt sequence =>
      Ok {| pa_worker := source; pa_incarnation := inc; pa_sequence := sequence; pa_id := id;
            pa_hash := hash; pa_body := body |}
  | _, _ => Err (ValueError "")
  end in
match check with
| Err (KeyError _) | Err (TypeError _) => Err invalid
| Err e => if is_value_error e then Err invalid else Err e
| Ok a => Ok a
end.

(** The code of a refusal that consumes its sequence; any status but
    [accepted] needs one. *)
Definition consuming (message : dict) : bool :=
py_eq (get message "status") (JStr "accepted")
|| match get message "code" with JStr c => is_in c CONSUMING_REFUSALS | _ => false end.

(** [z < v] *)
Definition int_lt (z : Z) (v : json) : result exn bool :=
match v with
| JInt n => Ok (z <? n)
| JBool b => Ok (z <? Z.b2z b)
| JFloat f => Ok (bool_decide (float_cmp_Z f z = Some Gt))
| _ => Err (TypeError "'<' not supported")
end.

(** The update still belongs to the running attempt of a current session. *)
Definition update_applies (k : worker_key) (transport : string) (row : command_row) (message command : dict)
  (subject : option realtime_session * option session_attempt * option physical_range) (s : store)
: result exn bool :=
match subject with
| (Some e, Some a, Some p) =>
    if negb (py_eq (get message "status") (JStr "accepted"))
       || negb (bool_decide (c_kind row = "update_session"))
       || negb (bool_decide (rs_user e = c_account row))
       || negb (bool_decide (Some (rs_generation e) = c_sequence row)) then Ok false
    else
      model ← item command "model_id";
      if negb (py_eq (JStr (rs_model e)) model) || negb (bool_decide (rs_state e ∈ [Live; Idle]))
         || negb (bool_decide (rs_browser e = transport))
         || negb match c_account row with
                 | Some account => current_principal m account (rs_auth e) s | None => false end
      then Ok false
      else
        revision ← item command "params_revision";
        newer ← int_lt (rs_params_revision e) revision;
        if negb newer || negb (bool_decide (sa_worker a = k.1)) || negb (bool_decide (sa_incarnation a = k.2))
        then Ok false
        else
          attempt ← uuid_field command "attempt_id";
          Ok (bool_decide (sa_attempt a = attempt) && bool_decide (sa_state a = "running")
              && bool_decide (pr_account p = c_account row) && bool_decide (pr_state p = Outstanding))
| _ => Ok false
end.

Definition set_effective (params : json) (revision : Z) (e : realtime_session) : realtime_session :=
{| rs_user := rs_user e; rs_auth := rs_auth e; rs_browser := rs_browser e; rs_region := rs_region e;
   rs_model := rs_model e; rs_effective := params; rs_desired := rs_desired e;
   rs_params_revision := revision; rs_desired_revision := rs_desired_revision e;
   rs_state := rs_state e; rs_generation := rs_generation e; rs_epoch := rs_epoch e;
   rs_started := rs_started e; rs_ended := rs_ended e |}.

(** The parameters take effect, and are published. *)
Definition apply_update (row : command_row) (command : dict) : txn store publication :=
params ← lift (item command "params");
stored ← lift (jsonb params);
revision ← lift (item command "params_revision");
number ← lift (bigint revision);
_ ← write (fun s => match c_subject row, c_sequence row with
                    | Some id, Some sequence =>
                        match session_at id sequence s with
                        | Some e => if rs_params_revision e <? number
                                    then on_realtime_sessions (<[id := set_effective stored number e]>) s
                                    else s
                        | None => s
                        end
                    | _, _ => s
                    end);
model ← lift (item command "model_id");
attempt ← lift (item command "attempt_id");
mret {| pub_account := c_account row; pub_subject := c_subject row; pub_sequence := c_sequence row;
        pub_model := model; pub_params := params; pub_revision := revision; pub_attempt := attempt |}.

Definition acknowledged_row (message : dict) (body : string) (r : command_row) : command_row :=
{| c_id := c_id r; c_kind := c_kind r; c_hash := c_hash r; c_account := c_account r;
   c_subject := c_subject r; c_sequence := c_sequence r; c_identity := c_identity r; c_version := None;
   c_body := None; c_bytes := 0; c_state := Acknowledged; c_created := c_created r;
   c_acknowledged := Some (e_write_clock m);
   c_status := match get message "status" with JStr s => Some s | _ => None end;
   c_code := match get message "code" with JStr s => Some s | _ => None end;
   c_expected := None; c_ack := Some body |}.
(** The statement for an erased row leaves the body columns as they are. *)
Definition answered_row (message : dict) (body : string) (r : command_row) : command_row :=
{| c_id := c_id r; c_kind := c_kind r; c_hash := c_hash r; c_account := c_account r;
   c_subject := c_subject r; c_sequence := c_sequence r; c_identity := c_identity r;
   c_version := c_version r; c_body := c_body r; c_bytes := c_bytes r; c_state := Acknowledged;
   c_created := c_created r; c_acknowledged := Some (e_write_clock m);
   c_status := match get message "status" with JStr s => Some s | _ => None end;
   c_code := match get message "code" with JStr s => Some s | _ => None end;
   c_expected := c_expected r; c_ack := Some body |}.

(** The pending command, when its key is still in the ring: [None] for a
    missing key. *)
Definition pending_command (k : worker_key) (sequence : Z) (row : command_row) : result exn (option dict) :=
match ring with
| Err e => if is_key_ring_error e then Ok None else Err e
| Ok r =>
    if match c_version row with Some v => bool_decide (v ∈ versions r) | None => false end then
      match
        (ad ← aad k sequence (c_id row) (c_hash row);
         plaintext ← decrypt r "worker-command" (default [] (c_body row)) ad;
         decode_control (RawBytes (string_of_bytes plaintext)))
      with
      | Err e => if is_key_ring_error e || is_value_error e
                 then Err (CommandRefused "pending command cannot be verified") else Err e
      | Ok command => Ok (Some command)
      end
    else Ok None
end.

(** The row is the command the acknowledgement names. *)
Definition ack_names_row (message : dict) (a : parsed_ack) (row : command_row) : result exn bool :=
if negb (bool_decide (c_id row = pa_id a)) || negb (py_eq (JStr (c_hash row)) (pa_hash a))
   || none (c_identity row) then Ok false
else match ack_identity_hash (c_kind row) message with
     | Err (CommandRefused _) => Ok false
     | Err e => Err e
     | Ok identity => Ok (bool_decide (c_identity row = Some identity))
     end.

(** A pending row is answered; its key may be gone.  [None]: the
    acknowledgement does not match and nothing is recorded. *)
Definition acknowledge_pending (k : worker_key) (transport : string) (message : dict) (a : parsed_ack)
  (row : command_row)
  (subject : option realtime_session * option session_attempt * option physical_range)
: txn store (option (option publication)) :=
if none (c_account row) then mret None else
command ← lift (pending_command k (pa_sequence a) row);
matched ← lift match command with Some c => ack_matches c message | None => Ok true end;
if negb matched then mret None
else
  applies ← (fun s => lift match command with
                           | Some c => update_applies k transport row message c subject s
                           | None => Ok false end s);
  shown ← match command, applies with
          | Some c, true => p ← apply_update row c; mret (Some p)
          | _, _ => mret None
          end;
  _ ← update_command k (pa_sequence a) (acknowledged_row message (pa_body a));
  _ ← (if none command then update_connection k (close_connection (e_write_clock m) true) else mret tt);
  mret (Some shown).

(** The rows as they were read, the one just answered among them. *)
Definition answered_or_known (k : worker_key) (rows : gmap Z command_row) (message : dict) (sequence current : Z)
: result exn bool :=
match rows !! current with
| None => Ok false
| Some row =>
    if none (c_identity row) then Ok false
    else if current =? sequence then
      Ok (negb (py_eq (get message "status") (JStr "refused") && negb (consuming message)))
    else known_acknowledged k current row
end.

Definition acknowledge_row (k : worker_key) (transport : string) (message : dict) (a : parsed_ack)
  (row : command_row)
  (subject : option realtime_session * option session_attempt * option physical_range)
: txn store (option (option publication)) :=
match c_state row with
| Acknowledged =>
    known ← lift (known_acknowledged k (pa_sequence a) row);
    mret (if known && bool_decide (c_ack row = Some (pa_body a)) then Some None else None)
| Erased =>
    _ ← update_command k (pa_sequence a) (answered_row message (pa_body a)); mret (Some None)
| Pending => acknowledge_pending k transport message a row subject
end.

Definition acknowledge_in (k : worker_key) (transport : string) (message : dict) (a : parsed_ack)
: txn store ack_result :=
let sequence := pa_sequence a in
hint ← read (fun s => journal s k !! sequence);
subject ← read (lock_update_ack_subject hint);
rows ← read (fun s => journal s k);
w ← read (fun s => connections s !! k);
match w with
| None => mret not_recorded
| Some w =>
    _ ← refuse_when (negb (bool_decide (k_transport w = transport)))
          "command acknowledgement transport is stale";
    match rows !! sequence with
    | None => mret {| ack_recorded := false; ack_obsolete := sequence <=? k_floor w;
                      ack_publication := None |}
    | Some row =>
        named ← lift (ack_names_row message a row);
        if negb named then mret not_recorded
        else
          answered ← acknowledge_row k transport message a row subject;
          match answered with
          | None => mret not_recorded
          | Some shown =>
              floor ← lift (advance_floor (answered_or_known k rows message sequence)
                              (k_floor w) (k_next w));
              _ ← raise_floor k (k_floor w) floor;
              mret {| ack_recorded := true; ack_obsolete := false; ack_publication := shown |}
          end
    end
end.

Definition acknowledge (message : dict) (worker incarnation transport : string) : action store ack_result :=
if negb (e_connected m) then fail_with (CommandRefused "durable command store unavailable")
else match parse_ack message worker incarnation with
| Err e => fail_with e
| Ok a =>
    if negb (bool_decide (pa_worker a = worker)) || negb (bool_decide (pa_incarnation a = incarnation))
    then fail_with (CommandRefused "command acknowledgement source is not bound")
    else if negb (consuming message) then mret not_recorded
    else atomic (acknowledge_in (worker, incarnation) transport message a)
end.

End Store.
