(* ===== verification/CommandFacts.v ===== *)
(** * What the command transactions do to the journal

    The parts of a transaction that leave the journal alone, the inversion of
    each transaction of CommandStore.v into its effect on the rows and the
    floor, and sums over the rows of a journal. *)

From S2P Require Import Prelude PyFloat Hashes Json JsonFacts Protocol6 Uuid PyInt KeyRing Transactions AccountStore CommandTables CommandSubjects CommandStore.
Open Scope Z_scope.

Lemma refuse_when_ok b msg s a s' : refuse_when b msg s = Ok (a, s') -> b = false /\ s' = s.
Proof. destruct b; [done|]. intros H. by apply mret_ok in H as [_ ->]. Qed.

(** Invert a transaction of the command store that returned. *)
Ltac cmd_inv :=
  repeat match goal with
  | H : refuse_when _ _ _ = Ok (_, ?s') |- _ => apply refuse_when_ok in H as [? H]; subst s'
  | H : refused _ _ = Ok _ |- _ => discriminate H
  | _ => txn_step_inv
  | u : unit |- _ => destruct u
  end.

(** ** What leaves the journal alone *)

Definition untouched (s s' : store) : Prop := commands s' = commands s /\ connections s' = connections s.

Global Instance untouched_preorder : PreOrder untouched.
Proof. split; [by intros s|]. intros a b c [H1 H2] [H3 H4]. split; congruence. Qed.

Lemma keeps_refuse_when b msg : keeps untouched (refuse_when b msg).
Proof. intros s a s' H. by apply refuse_when_ok in H as [_ ->]. Qed.
Lemma keeps_refused {A} msg : keeps untouched (@refused A msg).
Proof. by intros s a s' H. Qed.
#[export] Hint Resolve keeps_refuse_when keeps_refused : keeps.

Ltac untouched_step :=
  match goal with
  | |- keeps _ (refuse_when _ _) => apply keeps_refuse_when
  | |- keeps _ (refused _) => apply keeps_refused
  | |- untouched _ (on_realtime_sessions _ _) => by split
  | |- untouched _ (on_session_attempts _ _) => by split
  | |- untouched _ (on_job_rows _ _) => by split
  | |- untouched _ (on_job_attempts _ _) => by split
  | |- untouched _ (on_ranges _ _) => by split
  | |- untouched _ (match ?x with _ => _ end) => destruct x
  | |- untouched ?s ?s => reflexivity
  | _ => keep_step
  end.
Ltac untouch := repeat (cbv zeta; intros; untouched_step).

Section Untouched.
Context `{Driver}.
Variable m : moment.
Variables (worker incarnation transport : string).

Lemma prepare_untouched kind fields account context job_context :
keeps untouched (prepare_command_subject m worker incarnation transport kind fields account context job_context).
Proof.
unfold prepare_command_subject, prepare_open, prepare_update, prepare_close, prepare_dispatch, prepare_cancel,
  swap_desired. untouch.
Qed.

Lemma insert_attempt_untouched conn id g a r : keeps untouched (insert_attempt worker incarnation conn id g a r).
Proof. intros s u s'. unfold insert_attempt. repeat case_match; try done. by intros [= _ <-]. Qed.
Lemma insert_range_untouched conn id r : keeps untouched (insert_range conn id r).
Proof. intros s u s'. unfold insert_range. repeat case_match; try done. by intros [= _ <-]. Qed.
Lemma insert_job_attempt_untouched id q a : keeps untouched (insert_job_attempt id q a).
Proof. intros s u s'. unfold insert_job_attempt. repeat case_match; try done. by intros [= _ <-]. Qed.

Lemma apply_claim_untouched conn c account id :
keeps untouched (apply_command_claim m worker incarnation conn c account id).
Proof.
unfold apply_command_claim, apply_session_claim, apply_job_claim, upsert_session, start_job. untouch;
  first [apply insert_attempt_untouched|apply insert_range_untouched|apply insert_job_attempt_untouched].
Qed.

Lemma delivery_subject_untouched ref kind body :
keeps (fun s s' => s' = s) (lock_delivery_subject m worker incarnation transport ref kind body).
Proof.
intros s a s' H1. unfold lock_delivery_subject in H1. cmd_inv.
assert (w = s) as ->; [|by destruct a0 as [[]]; cmd_inv].
unfold lock_delivery_session, lock_delivery_job in Ha. destruct (ends_with_session kind);
  cmd_inv; by repeat (case_match; cmd_inv).
Qed.

End Untouched.

Lemma apply_update_untouched `{Driver} row command : keeps untouched (apply_update row command).
Proof. unfold apply_update. untouch. Qed.

(** ** The rows of a journal *)

Lemma journal_on_journal k k' f s :
  journal (on_journal k f s) k' = if decide (k' = k) then f (journal s k) else journal s k'.
Proof.
  unfold journal, on_journal, on_commands. cbn [commands]. destruct (decide (k' = k)) as [->|Hne].
  - by rewrite lookup_insert_eq.
  - by rewrite lookup_insert_ne by done.
Qed.
Lemma journal_on_journal_eq k f s : journal (on_journal k f s) k = f (journal s k).
Proof. rewrite journal_on_journal. by rewrite decide_True. Qed.

Lemma journal_commands s s' : commands s' = commands s -> journal s' = journal s.
Proof. intros H. unfold journal. by rewrite H. Qed.

Lemma lookup_drop_below floor (j : gmap Z command_row) n r :
  drop_below floor j !! n = Some r <-> j !! n = Some r /\ below_floor floor n r = false.
Proof. unfold drop_below. rewrite map_lookup_filter_Some. done. Qed.

(** What a row counts for in [pending_bytes]. *)
Definition weight (r : command_row) : Z := if bool_decide (c_state r = Pending) then c_bytes r else 0.

Lemma pending_bytes_insert (j : gmap Z command_row) n r :
  j !! n = None -> pending_bytes (<[n := r]> j) = weight r + pending_bytes j.
Proof.
  intros Hn. unfold pending_bytes. rewrite map_fold_insert_L; [done| |done].
  intros ? ? x y z ? ? ?. lia.
Qed.

Lemma row_contract_weight r : row_contract r = true -> 0 <= weight r <= 1048576.
Proof.
  unfold row_contract, state_contract, weight. intros H. destruct (c_state r); [|case_bool_decide; [done|lia]..].
  rewrite bool_decide_eq_true_2 by done. repeat rewrite andb_true_iff in H.
  destruct (bool_decide (c_kind r ∈ ["dispatch_job"; "open_session"; "update_session"])); lia.
Qed.

(** Fewer and lighter rows weigh less. *)
Lemma pending_bytes_le (j j' : gmap Z command_row) :
  (forall n r, j !! n = Some r -> 0 <= weight r) ->
  (forall n r', j' !! n = Some r' -> exists r, j !! n = Some r /\ weight r' <= weight r) ->
  pending_bytes j' <= pending_bytes j.
Proof.
  revert j. induction j' as [|n r' j' Hn IH] using map_ind; intros j Hpos Hle.
  - clear Hle. replace (pending_bytes ∅) with 0 by reflexivity.
    induction j as [|n r j Hn IH] using map_ind; [done|].
    rewrite pending_bytes_insert by done.
    assert (0 <= weight r) by (apply (Hpos n); by rewrite lookup_insert_eq).
    assert (0 <= pending_bytes j); [|lia]. apply IH. intros i x Hi. apply (Hpos i).
    rewrite lookup_insert_ne; [done|]. intros <-. congruence.
  - destruct (Hle n r') as (r & Hr & Hw); [by rewrite lookup_insert_eq|].
    rewrite pending_bytes_insert by done. rewrite <- (insert_delete_id j n r) by done.
    rewrite pending_bytes_insert by (by rewrite lookup_delete_eq).
    assert (pending_bytes j' <= pending_bytes (delete n j)); [|lia]. apply IH.
    + intros i x Hi. apply lookup_delete_Some in Hi as [_ Hi]. eauto.
    + intros i x Hi. assert (n <> i) by (intros <-; congruence).
      destruct (Hle i x) as (y & Hy & ?); [by rewrite lookup_insert_ne|].
      exists y. by rewrite lookup_delete_ne.
Qed.

(** ** The floor *)

Lemma advance_spec known fuel floor next floor' :
  advance known fuel floor next = Ok floor' -> floor < next ->
  floor <= floor' < next /\ forall n, floor < n <= floor' -> known n = Ok true.
Proof.
  revert floor. induction fuel as [|fuel IH]; intros floor; cbn [advance].
  - intros [= <-] ?. split; [lia|]. intros; lia.
  - destruct (floor + 1 <? next) eqn:E; [|intros [= <-] ?; split; [lia|]; intros; lia].
    intros H Hlt. apply bind_ok in H as (b & Hb & H). destruct b.
    + apply IH in H as [Hf Hk]; [|lia]. split; [lia|]. intros n Hn.
      destruct (decide (n = floor + 1)) as [->|]; [done|]. apply Hk. lia.
    + injection H as <-. split; [lia|]. intros; lia.
Qed.

(** Enough fuel: where the floor stops, the next row is not known. *)
Lemma advance_stops known fuel floor next floor' :
  advance known fuel floor next = Ok floor' -> (Z.to_nat (next - floor) <= fuel)%nat ->
  floor' + 1 < next -> known (floor' + 1) = Ok false.
Proof.
  revert floor. induction fuel as [|fuel IH]; intros floor; cbn [advance].
  - intros [= <-] ? ?. lia.
  - destruct (floor + 1 <? next) eqn:E; [|intros [= <-] ? ?; lia].
    intros H Hfuel Hend. apply bind_ok in H as (b & Hb & H). destruct b.
    + apply IH in H; [done|lia|done].
    + by injection H as <-.
Qed.

Lemma advance_floor_spec known floor next floor' :
  advance_floor known floor next = Ok floor' -> floor < next ->
  floor <= floor' < next /\ (forall n, floor < n <= floor' -> known n = Ok true)
  /\ (floor' + 1 < next -> known (floor' + 1) = Ok false).
Proof.
  intros H Hlt. destruct (advance_spec _ _ _ _ _ H Hlt) as [H1 H2]. split; [done|]. split; [done|].
  exact (advance_stops _ _ _ _ _ H ltac:(done)).
Qed.

Lemma known_acknowledged_state k n r :
  known_acknowledged k n r = Ok true -> c_state r = Acknowledged /\ is_Some (c_identity r).
Proof.
  unfold known_acknowledged. destruct (_ || some (c_expected r)) eqn:E; [done|]. intros _.
  rewrite !orb_false_iff in E. destruct E as (((E & E1) & _) & _).
  apply negb_false_iff, bool_decide_eq_true in E. split; [done|].
  unfold none, some in E1. destruct (c_identity r); [by eexists|done].
Qed.

Lemma known_row_state k rows n :
  known_row k rows n = Ok true -> exists r, rows !! n = Some r /\ c_state r = Acknowledged.
Proof.
  unfold known_row. destruct (rows !! n) as [r|]; [|done]. intros H%known_acknowledged_state.
  exists r. tauto.
Qed.

(** ** Effects on the journal and the connection *)

Lemma update_connection_ok k f s u s' :
  update_connection k f s = Ok (u, s') ->
  commands s' = commands s
  /\ connections s' = match connections s !! k with
                      | Some c => <[k := f c]> (connections s) | None => connections s end.
Proof.
  unfold update_connection. destruct (connections s !! k) as [c|] eqn:E; [|by intros [= _ <-]].
  destruct (connection_contract (f c)); [|done]. by intros [= _ <-].
Qed.

Lemma update_command_ok k n f s u s' r :
  update_command k n f s = Ok (u, s') -> journal s k !! n = Some r ->
  s' = on_journal k (<[n := f r]>) s /\ row_contract (f r) = true.
Proof.
  unfold update_command. intros H Hr. rewrite Hr in H. destruct (row_contract (f r)); [|done].
  by injection H as _ <-.
Qed.

Lemma insert_command_ok k n r s u s' :
  insert_command k n r s = Ok (u, s') ->
  s' = on_journal k (<[n := r]>) s /\ journal s k !! n = None /\ row_contract r = true
  /\ forall k' n' r', journal s k' !! n' = Some r' -> c_id r' <> c_id r.
Proof.
  unfold insert_command. case_bool_decide as Hn; [done|]. destruct (command_id_taken _ _) eqn:Et; [done|].
  destruct (_ || negb (row_contract r)) eqn:E; [done|]. intros [= _ <-].
  apply orb_false_iff in E as [_ E%negb_false_iff]. apply eq_None_not_Some in Hn. repeat split; try done.
  intros k' n' r' Hr' Hid. unfold command_id_taken in Et. apply bool_decide_eq_false in Et. apply Et.
  unfold journal in Hr'. destruct (commands s !! k') as [j|] eqn:Ej; [|done].
  exists k', j. split; [done|]. by exists n', r'.
Qed.

(** The rows once the floor has moved from [old]. *)
Definition kept (old floor : Z) (j : gmap Z command_row) : gmap Z command_row :=
  if old <? floor then drop_below floor j else j.

Lemma set_floor_same c : set_floor (k_floor c) c = c.
Proof. by destruct c. Qed.

Lemma raise_floor_ok k c floor s u s' :
  raise_floor k (k_floor c) floor s = Ok (u, s') -> connections s !! k = Some c -> k_floor c <= floor ->
  connections s' = <[k := set_floor floor c]> (connections s)
  /\ forall k', journal s' k' = if decide (k' = k) then kept (k_floor c) floor (journal s k) else journal s k'.
Proof.
  unfold raise_floor, kept. destruct (k_floor c <? floor) eqn:E; intros H Hc Hle.
  - cmd_inv. apply update_connection_ok in Ha as [Hcmd Hcon]. rewrite Hc in Hcon. split; [exact Hcon|].
    intros k'. rewrite journal_on_journal, (journal_commands _ _ Hcmd). done.
  - cmd_inv. replace floor with (k_floor c) by lia. rewrite set_floor_same, insert_id by done.
    split; [done|]. intros k'. by case_decide; subst.
Qed.

Lemma ready_connection_ok k s c :
  ready_connection k s = Some c <-> connections s !! k = Some c /\ k_closed c = None /\ k_lifecycle c = Ready.
Proof.
  unfold ready_connection. destruct (connections s !! k) as [d|]; cbn [mbind option_bind]; [|naive_solver].
  unfold none, some. destruct (k_closed d) eqn:E1; cbn [negb andb]; [naive_solver congruence|].
  case_bool_decide; naive_solver congruence.
Qed.

Section Commit.
Context `{Driver} `{CryptoOps}.
Variable m : moment.
Variable ring : result exn key_ring.

(** The grant a command is committed under. *)
Record granted (k : worker_key) (transport nonce : string) (s : store) (w : connection) : Prop := {
  gr_connection : connections s !! k = Some w;
  gr_open : k_closed w = None;
  gr_lifecycle : k_lifecycle w = Ready;
  gr_transport : k_transport w = transport;
  gr_ready : k_grant_ready w = true;
  gr_nonce : k_nonce w = nonce;
  gr_live : e_deadline_clock m < k_grant_expires w;
  gr_next : k_next w < MAX_SEQUENCE;
  gr_lease : exists l, leases s !! k_region w = Some l /\ l_owner l = e_scheduler m
               /\ l_epoch l = k_epoch w /\ l_id l = k_lease w /\ e_deadline_clock m < l_expires l
}.

Lemma lock_grant_ok k transport nonce cancel s w s' :
lock_grant m k transport nonce cancel s = Ok (w, s') -> s' = s /\ granted k transport nonce s w.
Proof.
unfold lock_grant. intros H1. cmd_inv.
destruct (ready_connection k s) as [h|] eqn:Eh; [|done]. cmd_inv.
destruct (leases s !! k_region h) as [l|] eqn:El; [|done]. cmd_inv. rewrite Eh in H1. cmd_inv.
apply ready_connection_ok in Eh as (Hc & Hclosed & Hlife). split; [done|].
repeat match goal with
| E : (_ || _) = false |- _ => apply orb_false_iff in E as [? ?]
| E : negb _ = false |- _ => apply negb_false_iff in E
| E : bool_decide _ = true |- _ => apply bool_decide_eq_true in E
end.
split; try done; try lia. exists l. repeat split; try done; lia.
Qed.

(** What a committed command did. *)
Record committed (q : commit_request) (account : string) (fields : dict) (s s' : store)
  (w : connection) (b : built) (floor : Z) (sealed : list Z) (version : Z) : Prop := {
  cm_built : build_command q fields w = Ok b;
  cm_floor : advance_floor (known_row (q_key q) (journal s (q_key q))) (k_floor w) (k_next w) = Ok floor;
  cm_count : retained_rows (journal s (q_key q)) (k_floor w) floor < MAX_RETAINED_COMMANDS;
  cm_bytes : pending_bytes (journal s (q_key q)) + blen (bt_body b) <= MAX_PENDING_BYTES;
  cm_sealed : seal_command ring q (k_next w) b = Ok (sealed, version);
  cm_contract : row_contract (pending_row m q account b sealed version) = true;
  cm_journal : forall k, journal s' k =
    if decide (k = q_key q)
    then <[k_next w := pending_row m q account b sealed version]> (kept (k_floor w) floor (journal s (q_key q)))
    else journal s k;
  cm_connections : connections s' = <[q_key q := bump_next (set_floor floor w)]> (connections s)
}.

Lemma store_command_ok q account pre w s c s' :
connections s !! q_key q = Some w -> k_floor w < k_next w ->
store_command m ring q account pre w s = Ok (c, s') ->
exists b floor sealed version, c = stored m q account (k_next w) b
  /\ committed q account (pre_fields pre) s s' w b floor sealed version.
Proof.
intros Hw Hlt H1. unfold store_command in H1. cmd_inv.
match goal with Hf : advance_floor _ _ _ = Ok ?f, Hb : build_command _ _ _ = Ok ?bb |- _ =>
  rename Hf into Hfloor, f into floor, Hb into Hbuilt, bb into b end.
match goal with Hs : seal_command _ _ _ _ = Ok _ |- _ => rename Hs into Hseal end.
destruct a4 as [sealed version]. cmd_inv.
destruct (advance_floor_spec _ _ _ _ Hfloor Hlt) as (Hle & _).
match goal with Hr : raise_floor _ _ _ _ = _ |- _ => apply raise_floor_ok in Hr as [Hcon Hj]; [|done|lia] end.
match goal with Hc : apply_command_claim _ _ _ _ _ _ _ _ = _ |- _ =>
  apply apply_claim_untouched in Hc as [Hcmd1 Hcon1] end.
match goal with Hi : insert_command _ _ _ _ = _ |- _ =>
  apply insert_command_ok in Hi as (-> & Hnone & Hrow & _) end.
match goal with Hu : update_connection _ _ _ = _ |- _ => apply update_connection_ok in Hu as [Hcmd2 Hcon2] end.
exists b, floor, sealed, version. split; [done|].
match goal with E : (_ || _) = false |- _ => apply orb_false_iff in E as [? ?] end.
split; try done; try lia.
- intros k. rewrite (journal_commands _ _ Hcmd2), journal_on_journal, (journal_commands _ _ Hcmd1).
  rewrite !Hj. by destruct (decide (k = q_key q)); rewrite ?decide_True by done.
- rewrite Hcon2. cbn [on_journal on_commands connections]. rewrite Hcon1, Hcon, lookup_insert_eq.
  by rewrite insert_insert_eq.
Qed.

End Commit.

Section Acknowledge.
Context `{Driver} `{CryptoOps}.
Variable m : moment.
Variable ring : result exn key_ring.
Variables (k : worker_key) (transport : string) (message : dict) (a : parsed_ack).

(** The row once its acknowledgement is recorded. *)
Record answered (row row' : command_row) : Prop := {
  an_names : ack_names_row message a row = Ok true;
  an_state : c_state row' = Acknowledged;
  an_contract : row_contract row = true -> row_contract row' = true;
  an_body : c_ack row' = Some (pa_body a);
  an_same : c_state row = Acknowledged -> row' = row /\ known_acknowledged k (pa_sequence a) row = Ok true;
  an_form : c_state row <> Acknowledged ->
    row' = acknowledged_row m message (pa_body a) row \/ row' = answered_row m message (pa_body a) row
}.

(** The connection may close, when the key of the command is gone. *)
Definition closed_or_same (w w' : connection) : Prop :=
w' = w \/ w' = close_connection (e_write_clock m) true w.

Lemma acknowledge_pending_ok row subject s r s' w :
journal s k !! pa_sequence a = Some row -> connections s !! k = Some w ->
acknowledge_pending m ring k transport message a row subject s = Ok (r, s') ->
(r = None /\ s' = s)
\/ exists shown w', r = Some shown /\ closed_or_same w w'
     /\ row_contract (acknowledged_row m message (pa_body a) row) = true
     /\ (forall k', journal s' k' = if decide (k' = k)
           then <[pa_sequence a := acknowledged_row m message (pa_body a) row]> (journal s k)
           else journal s k')
     /\ connections s' = <[k := w']> (connections s).
Proof.
intros Hrow Hw H1. unfold acknowledge_pending in H1. destruct (none (c_account row)); [cmd_inv; by left|].
cmd_inv. rename a0 into command. destruct a1; cbn [negb] in H1; [|cmd_inv; by left]. right. cmd_inv.
match goal with Ha : match command with Some _ => _ | None => _ end _ = Ok (?x, ?s1) |- _ =>
  assert (untouched s s1) as [Hcmd Hcon]; [|clear Ha] end.
{ destruct command as [c|]; [destruct a0|]; cmd_inv; [|reflexivity..]. by eapply apply_update_untouched. }
match goal with Hu : update_command _ _ _ _ = _ |- _ =>
  apply (update_command_ok _ _ _ _ _ _ row) in Hu as [-> Hcontract]; [|by rewrite (journal_commands _ _ Hcmd)] end.
eexists _, (if none command then close_connection (e_write_clock m) true w else w).
split; [done|]. split; [by destruct (none command); [right|left]|]. split; [done|].
destruct (none command); cmd_inv.
- match goal with Hu : update_connection _ _ _ = _ |- _ => apply update_connection_ok in Hu as [Hcmd2 Hcon2] end.
  split.
  + intros k'. rewrite (journal_commands _ _ Hcmd2), journal_on_journal, (journal_commands _ _ Hcmd). done.
  + rewrite Hcon2. cbn [on_journal on_commands connections]. by rewrite Hcon, Hw.
- split; [intros k'; by rewrite journal_on_journal, (journal_commands _ _ Hcmd)|].
  cbn [on_journal on_commands connections]. rewrite Hcon. by rewrite insert_id.
Qed.

Lemma acknowledge_row_ok row subject s r s' w :
journal s k !! pa_sequence a = Some row -> connections s !! k = Some w ->
ack_names_row message a row = Ok true ->
acknowledge_row m ring k transport message a row subject s = Ok (r, s') ->
(r = None /\ s' = s)
\/ exists shown row' w', r = Some shown /\ answered row row' /\ closed_or_same w w'
     /\ (forall k', journal s' k' = if decide (k' = k)
           then <[pa_sequence a := row']> (journal s k) else journal s k')
     /\ connections s' = <[k := w']> (connections s).
Proof.
intros Hrow Hw Hn H1. unfold acknowledge_row in H1. destruct (c_state row) eqn:Es.
- apply (acknowledge_pending_ok row subject s r s' w Hrow Hw) in H1
    as [?|(shown & w' & -> & Hcl & Hc & Hj & Hcon)]; [by left|right].
  eexists _, (acknowledged_row m message (pa_body a) row), w'. split; [done|]. split; [|done].
  split; try done; intros; [congruence|by left].
- cmd_inv. destruct (_ && _) eqn:E; [|by left]. apply andb_true_iff in E as [-> E%bool_decide_eq_true].
  right. eexists _, row, w. split; [done|]. split; [|split; [by left|]].
  + split; try done.
  + split; [|by rewrite insert_id]. intros k'. destruct (decide (k' = k)) as [->|]; [|done]. by rewrite insert_id.
- cmd_inv. right.
  match goal with Hu : update_command _ _ _ _ = _ |- _ =>
    apply (update_command_ok _ _ _ _ _ _ row) in Hu as [-> Hcontract]; [|done] end.
  eexists _, (answered_row m message (pa_body a) row), w. split; [done|]. split; [|split; [by left|]].
  + split; try done; intros; [congruence|by right].
  + split; [|by rewrite insert_id]. intros k'. apply journal_on_journal.
Qed.

(** What a recorded acknowledgement did. *)
Record recorded (s s' : store) (w w' : connection) (row row' : command_row) (floor : Z) : Prop := {
  rc_row : journal s k !! pa_sequence a = Some row;
  rc_answered : answered row row';
  rc_closed : closed_or_same w w';
  rc_floor : advance_floor (answered_or_known k (journal s k) message (pa_sequence a)) (k_floor w) (k_next w)
             = Ok floor;
  rc_journal : forall k', journal s' k' = if decide (k' = k)
    then kept (k_floor w) floor (<[pa_sequence a := row']> (journal s k)) else journal s k';
  rc_connections : connections s' = <[k := set_floor floor w']> (connections s)
}.

Lemma acknowledge_in_ok s r s' w :
connections s !! k = Some w -> k_floor w < k_next w ->
acknowledge_in m ring k transport message a s = Ok (r, s') ->
k_transport w = transport
/\ ((ack_recorded r = false /\ s' = s
     /\ (ack_obsolete r = true -> journal s k !! pa_sequence a = None /\ pa_sequence a <= k_floor w))
    \/ exists w' row row' floor, ack_recorded r = true /\ recorded s s' w w' row row' floor).
Proof.
intros Hw Hlt H1. unfold acknowledge_in in H1. cmd_inv. rewrite Hw in H1. cmd_inv.
match goal with E : negb _ = false |- _ => apply negb_false_iff, bool_decide_eq_true in E as Ht end. split; [done|].
destruct (journal s k !! pa_sequence a) as [row|] eqn:Er.
2: { cmd_inv. left. split; [done|]. split; [done|]. cbn. intros Hle. split; [done|lia]. }
cmd_inv. destruct a0; cbn [negb] in H1; [|cmd_inv; by left]. cmd_inv.
match goal with Ha : acknowledge_row _ _ _ _ _ _ _ _ _ = _ |- _ =>
  apply (acknowledge_row_ok row _ _ _ _ w) in Ha
    as [[-> ->]|(shown & row' & w' & -> & Han & Hcl & Hj & Hcon)]; [cmd_inv; by left| |done..] end.
right. cmd_inv.
match goal with Hf : advance_floor _ _ _ = Ok ?f |- _ => rename Hf into Hfloor, f into floor end.
destruct (advance_floor_spec _ _ _ _ Hfloor Hlt) as (Hle & _).
assert (Hold : k_floor w' = k_floor w) by (by destruct Hcl as [->| ->]).
match goal with Hr : raise_floor _ _ _ _ = _ |- _ =>
  rewrite <- Hold in Hr; apply raise_floor_ok in Hr as [Hcon2 Hj2];
    [|by rewrite Hcon, lookup_insert_eq|lia] end.
exists w', row, row', floor. split; [done|]. split; try done.
- intros k'. rewrite Hj2, !Hj, Hold. by destruct (decide (k' = k)); rewrite ?decide_True by done.
- by rewrite Hcon2, Hcon, insert_insert_eq.
Qed.

End Acknowledge.

(** ** Erasure *)

Definition mark (p : command_row -> bool) (r : command_row) : command_row :=
  if erases p r then erased_row r else r.

Section Erase.
Variable m : moment.

Definition fence (ws : gset worker_key) (k : worker_key) (c : connection) : connection :=
if bool_decide (k ∈ ws) then close_connection (e_write_clock m) false c else c.

(** What an erasure of the rows [p] with the workers [fenced] did. *)
Record erasure (p : command_row -> bool) (fenced ws : gset worker_key) (s s' : store) : Prop := {
  er_journal : forall k, journal s' k = mark p <$> journal s k;
  er_connections : forall k, connections s' !! k = fence ws k <$> connections s !! k;
  er_closed : forall k n r, journal s k !! n = Some r -> erases p r = true -> k ∈ ws;
  er_fenced : fenced ⊆ ws
}.

Lemma journal_erase_rows p s k : journal (erase_rows p s) k = mark p <$> journal s k.
Proof.
unfold journal, erase_rows, on_commands. cbn [commands]. rewrite lookup_fmap.
destruct (commands s !! k); cbn [fmap option_fmap option_map default]; [done|].
unfold default, from_option, id. by rewrite fmap_empty.
Qed.

Lemma connections_close ws s k : connections (close_workers m ws s) !! k = fence ws k <$> connections s !! k.
Proof.
unfold close_workers, on_connections. cbn [connections]. rewrite map_lookup_imap.
by destruct (connections s !! k).
Qed.

Lemma pending_workers_spec p s k n r :
journal s k !! n = Some r -> erases p r = true -> k ∈ pending_workers p s.
Proof.
intros Hr He. unfold journal in Hr. destruct (commands s !! k) as [j|] eqn:Ej; [|done].
unfold default, from_option, id in Hr.
unfold pending_workers. apply elem_of_dom. exists (filter (fun kv : Z * command_row => erases p kv.2 = true) j).
apply map_lookup_filter_Some. split.
- unfold pending_selected. by rewrite lookup_fmap, Ej.
- cbn [snd]. intros Hnil. eapply (map_filter_empty_not_lookup _ j n r); [exact Hnil|exact He|exact Hr].
Qed.

Lemma erase_pending_ok sel s n s' :
erase_pending_rows m sel s = Ok (n, s') ->
exists ws, erasure (sel_rows sel) (sel_workers sel) ws s s'.
Proof.
unfold erase_pending_rows. intros H. cmd_inv. case_bool_decide as E; cmd_inv.
- exists ∅. apply empty_union_L in E as [Ep Ef].
  assert (Hnone : forall k n r, journal s k !! n = Some r -> erases (sel_rows sel) r = true -> False).
  { intros k i r Hr He. pose proof (pending_workers_spec _ _ _ _ _ Hr He) as Hin. by rewrite Ep in Hin. }
  split.
  + intros k. symmetry. rewrite <- (map_fmap_id (journal s k)) at 2. apply map_fmap_ext.
    intros i r Hr. unfold mark. destruct (erases _ r) eqn:He; [|done]. by destruct (Hnone _ _ _ Hr He).
  + intros k. unfold fence. rewrite bool_decide_eq_false_2 by set_solver. by destruct (connections s !! k).
  + intros k i r Hr He. by destruct (Hnone _ _ _ Hr He).
  + by rewrite Ef.
- eexists. split.
  + intros k. unfold close_workers, on_connections, journal. cbn [commands]. apply journal_erase_rows.
  + intros k. exact (connections_close _ (erase_rows (sel_rows sel) s) k).
  + intros k i r Hr He. apply elem_of_union_l. by eapply pending_workers_spec.
  + set_solver.
Qed.

Lemma erase_reported_ok r s n s' :
erase_reported_subject_command r s = Ok (n, s') ->
s' = s \/ exists sequence row, journal s (rc_worker r, rc_incarnation r) !! sequence = Some row
  /\ c_state row = Pending
  /\ s' = on_journal (rc_worker r, rc_incarnation r) (<[sequence := erased_row row]>) s
  /\ row_contract (erased_row row) = true.
Proof.
unfold erase_reported_subject_command. intros H. cmd_inv.
unfold lock_reported_command in Ha. cmd_inv.
destruct (map_to_list (lock_reported_subject_rows r s)) as [|[sequence row] [|]] eqn:El; cmd_inv; try by left.
destruct (c_identity row) as [h|]; cmd_inv. right.
assert (Hrow : lock_reported_subject_rows r s !! sequence = Some row).
{ apply elem_of_map_to_list. rewrite El. left. }
apply map_lookup_filter_Some in Hrow as (Hrow & _ & _ & _ & _ & Hp). exists sequence, row.
match goal with Hu : update_command _ _ _ _ = _ |- _ =>
  apply (update_command_ok _ _ _ _ _ _ row) in Hu as [-> Hc]; [|done] end.
done.
Qed.

End Erase.

(** An acknowledgement of a row that is answered or gone changes nothing when
    the floor cannot rise. *)
Lemma acknowledge_again `{Driver} `{CryptoOps} m ring k transport message a s r s' w :
  connections s !! k = Some w ->
  match journal s k !! pa_sequence a with Some row => c_state row = Acknowledged | None => True end ->
  (forall floor, advance_floor (answered_or_known k (journal s k) message (pa_sequence a)) (k_floor w) (k_next w)
                 = Ok floor -> floor = k_floor w) ->
  acknowledge_in m ring k transport message a s = Ok (r, s') -> s' = s /\ ack_publication r = None.
Proof.
  intros Hw Hrow Hfloor Hrun. unfold acknowledge_in in Hrun. cmd_inv. rewrite Hw in Hrun. cmd_inv.
  destruct (journal s k !! pa_sequence a) as [row|] eqn:Er; [|by cmd_inv]. cmd_inv.
  match goal with Hn : ack_names_row _ _ _ = Ok ?b |- _ => destruct b; cbn [negb] in Hrun; [|by cmd_inv] end.
  unfold acknowledge_row in Hrun. rewrite Hrow in Hrun. cmd_inv.
  destruct (_ && bool_decide (c_ack row = _)); cmd_inv; [|done].
  match goal with Hf : advance_floor _ _ _ = Ok _ |- _ => apply Hfloor in Hf as -> end.
  match goal with Hr : raise_floor _ _ _ _ = _ |- _ =>
    unfold raise_floor in Hr; rewrite Z.ltb_irrefl in Hr end.
  by cmd_inv.
Qed.
