(* ===== verification/CommandJournal.v ===== *)
(** * The journal's invariant and how it evolves

    The system whose steps are the transactions of CommandStore.v, in any
    order, interleaved with what the other modules do to the same tables; the
    invariant of a journal, and the relation between the journal of two
    moments of a run. *)

From S2P Require Import Prelude PyFloat Hashes Json JsonFacts Protocol6 Uuid PyInt KeyRing Transactions AccountStore CommandTables CommandSubjects CommandStore CommandFacts.
From stdpp Require Import relations.
Open Scope Z_scope.

(** ** The invariant *)

Record journal_ok (c : connection) (j : gmap Z command_row) : Prop := {
  jo_floor : 0 <= k_floor c < k_next c;
  jo_dense : forall n, is_Some (j !! n) <-> k_floor c < n < k_next c;
  jo_count : Z.of_nat (size j) <= MAX_RETAINED_COMMANDS;
  jo_bytes : pending_bytes j <= MAX_PENDING_BYTES;
  jo_rows : forall n r, j !! n = Some r -> row_contract r = true
}.

(** A journal belongs to a connection. *)
Definition store_ok (s : store) : Prop :=
  forall k, match connections s !! k with
            | Some c => journal_ok c (journal s k)
            | None => journal s k = ∅
            end.

Lemma store_ok_untouched s s' : untouched s s' -> store_ok s -> store_ok s'.
Proof. intros [Hc Hn] H k. rewrite (journal_commands _ _ Hc), Hn. apply H. Qed.

Lemma lookup_kept old floor j n r : kept old floor j !! n = Some r -> j !! n = Some r.
Proof. unfold kept. destruct (old <? floor); [|done]. by intros [? _]%lookup_drop_below. Qed.

Lemma kept_dense old floor next (j : gmap Z command_row) :
  old <= floor < next ->
  (forall n, is_Some (j !! n) <-> old < n < next) ->
  (forall n, old < n <= floor -> exists r, j !! n = Some r /\ c_state r = Acknowledged) ->
  forall n, is_Some (kept old floor j !! n) <-> floor < n < next.
Proof.
  intros Hle Hd Ha n. unfold kept. destruct (old <? floor) eqn:E.
  2: { rewrite Hd. replace floor with old by lia. done. }
  split.
  - intros [r [Hr Hb]%lookup_drop_below]. assert (old < n < next) by (apply Hd; eauto).
    destruct (decide (n <= floor)); [|lia]. destruct (Ha n) as (r' & Hr' & Hs); [lia|].
    simplify_eq. unfold below_floor in Hb. rewrite Hs, (proj2 (Z.leb_le _ _)) in Hb by lia. done.
  - intros Hn. assert (is_Some (j !! n)) as [r Hr] by (apply Hd; lia). exists r.
    apply lookup_drop_below. split; [done|]. unfold below_floor.
    by rewrite (proj2 (Z.leb_gt _ _)) by lia.
Qed.

Lemma kept_size old floor (j : gmap Z command_row) : (size (kept old floor j) <= size j)%nat.
Proof.
  apply map_subseteq_size. apply map_subseteq_spec. intros n r. apply lookup_kept.
Qed.

Lemma kept_bytes old floor j :
  (forall n r, j !! n = Some r -> row_contract r = true) -> pending_bytes (kept old floor j) <= pending_bytes j.
Proof.
  intros Hrows. apply pending_bytes_le; [intros; by eapply row_contract_weight, Hrows|].
  intros n r Hr%lookup_kept. eauto with lia.
Qed.

Section Preserve.
Context `{Driver} `{CryptoOps}.
Variable m : moment.
Variable ring : result exn key_ring.

Lemma committed_ok q account fields s s' w b floor sealed version :
journal_ok w (journal s (q_key q)) ->
committed m ring q account fields s s' w b floor sealed version ->
journal_ok (bump_next (set_floor floor w)) (journal s' (q_key q)).
Proof.
intros [Hf Hd Hn Hb Hr] [_ Hfloor Hcount Hbytes _ Hrow Hj _]. rewrite Hj, decide_True by done.
destruct (advance_floor_spec _ _ _ _ Hfloor ltac:(lia)) as (Hle & Hknown & _).
assert (Hdense := kept_dense _ floor _ _ Hle Hd (fun n Hn => known_row_state _ _ _ (Hknown n Hn))).
assert (Hfresh : kept (k_floor w) floor (journal s (q_key q)) !! k_next w = None).
{ apply eq_None_not_Some. rewrite Hdense. lia. }
split; cbn [k_floor k_next bump_next set_floor].
- lia.
- intros n. rewrite lookup_insert_is_Some, Hdense. split; [|destruct (decide (k_next w = n)); [by left|right; lia]].
  intros [<-|[? ?]]; lia.
- rewrite map_size_insert_None by done. unfold retained_rows in Hcount.
  change (if k_floor w <? floor then _ else _) with (kept (k_floor w) floor (journal s (q_key q))) in Hcount. lia.
- rewrite pending_bytes_insert by done. pose proof (kept_bytes (k_floor w) floor _ Hr).
  unfold weight, pending_row. cbn [c_state c_bytes]. case_bool_decide; lia.
- intros n r. rewrite lookup_insert_Some. intros [[_ <-]|[_ Hr'%lookup_kept]]; [done|eauto].
Qed.

Lemma recorded_ok k message a s s' w w' row row' floor :
journal_ok w (journal s k) -> recorded m k message a s s' w w' row row' floor ->
journal_ok (set_floor floor w') (journal s' k).
Proof.
intros [Hf Hd Hn Hb Hr] [Hrow Han Hcl Hfloor Hj _]. rewrite Hj, decide_True by done.
destruct (advance_floor_spec _ _ _ _ Hfloor ltac:(lia)) as (Hle & Hknown & _).
set (j := <[pa_sequence a := row']> (journal s k)).
assert (Hsame : forall n, is_Some (j !! n) <-> is_Some (journal s k !! n)).
{ intros n. unfold j. rewrite lookup_insert_is_Some. split; [|destruct (decide (pa_sequence a = n)); by auto].
  intros [<-|[_ ?]]; [by eexists|done]. }
assert (Hrows : forall n r, j !! n = Some r -> row_contract r = true).
{ intros n r. unfold j. rewrite lookup_insert_Some. intros [[_ <-]|[_ ?]]; [|eauto].
  apply (an_contract _ _ _ _ _ _ Han). eauto. }
assert (Hnext : k_next w' = k_next w) by (by destruct Hcl as [->| ->]).
split; cbn [k_floor k_next set_floor]; rewrite ?Hnext; [lia| | | |].
- apply kept_dense; [done|intros n; by rewrite Hsame|].
  intros n Hn'. specialize (Hknown n Hn'). unfold answered_or_known in Hknown. unfold j.
  destruct (decide (n = pa_sequence a)) as [->|Hne].
  + exists row'. split; [by rewrite lookup_insert_eq|]. exact (an_state _ _ _ _ _ _ Han).
  + rewrite lookup_insert_ne by done. destruct (journal s k !! n) as [r|]; [|done].
    destruct (none (c_identity r)); [done|]. rewrite (proj2 (Z.eqb_neq _ _)) in Hknown by done.
    apply known_acknowledged_state in Hknown as [? _]. eauto.
- pose proof (kept_size (k_floor w) floor j). unfold j in *.
  rewrite map_size_insert_Some in * by (by eexists). lia.
- etransitivity; [apply kept_bytes; exact Hrows|]. etransitivity; [|exact Hb].
  apply pending_bytes_le; [intros n r Hn'; by eapply row_contract_weight, Hr|].
  intros n r. unfold j. rewrite lookup_insert_Some. intros [[<- <-]|[_ ?]]; [|eauto with lia].
  exists row. split; [done|]. pose proof (row_contract_weight _ (Hr _ _ Hrow)).
  unfold weight at 1. rewrite (an_state _ _ _ _ _ _ Han). by rewrite bool_decide_eq_false_2; [lia|].
- intros n r Hr'%lookup_kept. eauto.
Qed.

Lemma erased_row_contract r : row_contract r = true -> row_contract (erased_row r) = true.
Proof.
unfold row_contract. rewrite !andb_true_iff. intros (((? & _) & _) & ?). done.
Qed.

Lemma erased_row_weight r : row_contract r = true -> weight (erased_row r) <= weight r.
Proof. intros Hr%row_contract_weight. unfold weight at 1. by rewrite bool_decide_eq_false_2; [lia|]. Qed.

Lemma mark_ok p c (j : gmap Z command_row) : journal_ok c j -> journal_ok c (mark p <$> j).
Proof.
intros [Hf Hd Hn Hb Hr]. split; [done| | | |].
- intros n. rewrite lookup_fmap, fmap_is_Some. apply Hd.
- by rewrite map_size_fmap.
- etransitivity; [|exact Hb]. apply pending_bytes_le; [intros n r Hn'; by eapply row_contract_weight, Hr|].
  intros n r'. rewrite lookup_fmap_Some. intros (r & <- & Hr'). exists r. split; [done|]. unfold mark.
  destruct (erases p r); [|done]. apply erased_row_weight. eauto.
- intros n r'. rewrite lookup_fmap_Some. intros (r & <- & Hr'). unfold mark.
  destruct (erases p r); [apply erased_row_contract|]; eauto.
Qed.

Lemma erasure_ok p fenced ws s s' : erasure m p fenced ws s s' -> store_ok s -> store_ok s'.
Proof.
intros [Hj Hc _ _] Hs k. specialize (Hs k). rewrite Hj, Hc.
destruct (connections s !! k) as [c|]; cbn [fmap option_fmap option_map]; [|by rewrite Hs, fmap_empty].
apply (mark_ok p) in Hs. unfold fence. case_bool_decide; [|done]. by destruct Hs.
Qed.

End Preserve.

(** ** How a journal evolves *)

(** A row keeps what it says of its command; it does not become pending
    again, and an acknowledged row does not change. *)
Record row_follows (r r' : command_row) : Prop := {
  rf_id : c_id r' = c_id r;
  rf_kind : c_kind r' = c_kind r;
  rf_hash : c_hash r' = c_hash r;
  rf_account : c_account r' = c_account r;
  rf_subject : c_subject r' = c_subject r;
  rf_sequence : c_sequence r' = c_sequence r;
  rf_identity : c_identity r' = c_identity r;
  rf_pending : c_state r' = Pending -> r' = r;
  rf_acknowledged : c_state r = Acknowledged -> r' = r
}.

Lemma row_follows_refl r : row_follows r r.
Proof. by split. Qed.
Lemma row_follows_trans r1 r2 r3 : row_follows r1 r2 -> row_follows r2 r3 -> row_follows r1 r3.
Proof.
  intros [] []. split; try congruence.
  - intros Hp. assert (r3 = r2) as -> by auto. auto.
  - intros Ha. assert (r2 = r1) as -> by auto. auto.
Qed.

(** The counters of a connection only grow, and a row below the counter of
    new sequences was there before. *)
Record connection_follows (c c' : connection) (j j' : gmap Z command_row) : Prop := {
  cf_floor : k_floor c <= k_floor c';
  cf_next : k_next c <= k_next c';
  cf_rows : forall n r', n < k_next c -> j' !! n = Some r' -> exists r, j !! n = Some r /\ row_follows r r'
}.
Definition evolves (s s' : store) : Prop :=
  forall k c, connections s !! k = Some c ->
  exists c', connections s' !! k = Some c' /\ connection_follows c c' (journal s k) (journal s' k).

Lemma connection_follows_same c c' j :
  k_floor c' = k_floor c -> k_next c' = k_next c -> connection_follows c c' j j.
Proof. intros Hf Hn. split; [lia..|]. intros n r' _ Hr. exists r'. split; [done|]. apply row_follows_refl. Qed.

Global Instance evolves_preorder : PreOrder evolves.
Proof.
  split.
  - intros s k c Hc. exists c. split; [done|]. by apply connection_follows_same.
  - intros s1 s2 s3 H1 H2 k c Hc. destruct (H1 k c Hc) as (c2 & Hc2 & [F1 N1 R1]).
    destruct (H2 k c2 Hc2) as (c3 & Hc3 & [F2 N2 R2]). exists c3. split; [done|]. split; [lia..|].
    intros n r' Hn Hr. destruct (R2 n r') as (r2 & Hr2 & Hf2); [lia|done|].
    destruct (R1 n r2 Hn Hr2) as (r & Hr1 & Hf1). exists r. split; [done|]. by eapply row_follows_trans.
Qed.

Lemma evolves_untouched s s' : untouched s s' -> evolves s s'.
Proof.
  intros [Hc Hn] k c Hk. exists c. rewrite Hn, (journal_commands _ _ Hc). split; [done|].
  by apply connection_follows_same.
Qed.

(** One connection changed; the others and their journals did not. *)
Lemma evolves_at s s' k c c' j' :
  connections s !! k = Some c -> connections s' = <[k := c']> (connections s) ->
  (forall k', journal s' k' = if decide (k' = k) then j' else journal s k') ->
  connection_follows c c' (journal s k) j' -> evolves s s'.
Proof.
  intros Hc Hcon Hj Hf k' d Hd. rewrite Hcon, Hj. destruct (decide (k' = k)) as [->|Hne].
  - exists c'. rewrite lookup_insert_eq. split; [done|]. by simplify_eq.
  - exists d. rewrite lookup_insert_ne by done. split; [done|]. by apply connection_follows_same.
Qed.

Lemma store_ok_at s s' k c' j' :
  connections s' = <[k := c']> (connections s) ->
  (forall k', journal s' k' = if decide (k' = k) then j' else journal s k') ->
  journal_ok c' j' -> store_ok s -> store_ok s'.
Proof.
  intros Hcon Hj Hok Hs k'. rewrite Hcon, Hj. destruct (decide (k' = k)) as [->|Hne].
  - by rewrite lookup_insert_eq.
  - rewrite lookup_insert_ne by done. apply Hs.
Qed.

Definition good (s s' : store) : Prop := store_ok s -> store_ok s' /\ evolves s s'.
Global Instance good_preorder : PreOrder good.
Proof.
  split; [by intros s Hs|]. intros s1 s2 s3 H1 H2 Hs. destruct (H1 Hs) as [Hs2 He1].
  destruct (H2 Hs2) as [Hs3 He2]. split; [done|]. by etransitivity.
Qed.
Lemma good_untouched s s' : untouched s s' -> good s s'.
Proof. intros Hu Hs. split; [by eapply store_ok_untouched|by apply evolves_untouched]. Qed.

Section Steps.
Context `{Driver} `{CryptoOps}.
Variable m : moment.
Variable ring : result exn key_ring.

Lemma store_command_good q account pre w s c s' :
connections s !! q_key q = Some w -> store_command m ring q account pre w s = Ok (c, s') -> good s s'.
Proof.
intros Hw Hst Hs. pose proof (Hs (q_key q)) as Hok. rewrite Hw in Hok.
destruct (store_command_ok _ _ _ _ _ _ _ _ _ Hw (proj2 (jo_floor _ _ Hok)) Hst)
  as (b & floor & sealed & version & -> & Hcm).
pose proof (committed_ok _ _ _ _ _ _ _ _ _ _ _ _ Hok Hcm) as Hok'.
destruct Hcm as [_ Hfloor _ _ _ _ Hj Hcon].
destruct (advance_floor_spec _ _ _ _ Hfloor (proj2 (jo_floor _ _ Hok))) as (Hle & _).
rewrite (Hj (q_key q)), decide_True in Hok' by done.
split; [by eapply store_ok_at|]. eapply evolves_at; [done..|]. split; cbn; [lia..|].
intros n r' Hn. rewrite lookup_insert_ne by lia. intros Hr%lookup_kept. exists r'.
split; [done|]. apply row_follows_refl.
Qed.

Lemma commit_in_good q account : keeps good (commit_in m ring q account).
Proof.
intros s [c desired] s' Hrun. unfold commit_in in Hrun. cmd_inv.
match goal with Hp : prepare_command_subject _ _ _ _ _ _ _ _ _ _ = _ |- _ =>
  apply prepare_untouched, good_untouched in Hp; etransitivity; [exact Hp|] end.
match goal with Hg : lock_grant _ _ _ _ _ _ = _ |- _ => apply lock_grant_ok in Hg as [-> Hg] end.
simplify_eq. match goal with E : granted _ _ _ _ _ _ |- _ => rename E into Hg end.
by eapply store_command_good; [exact (gr_connection _ _ _ _ _ _ Hg)|].
Qed.

Lemma answered_follows k message a row row' : answered m k message a row row' -> row_follows row row'.
Proof.
intros [_ Hst _ _ Hsame Hform]. destruct (decide (c_state row = Acknowledged)) as [E|E].
- destruct (Hsame E) as [-> _]. apply row_follows_refl.
- destruct (Hform E) as [->| ->]; by split.
Qed.

Lemma acknowledge_in_good k transport message a : keeps good (acknowledge_in m ring k transport message a).
Proof.
intros s r s' Hrun Hs. destruct (connections s !! k) as [w|] eqn:Hw.
2: { unfold acknowledge_in in Hrun. cmd_inv. rewrite Hw in Hrun. by cmd_inv. }
pose proof (Hs k) as Hok. rewrite Hw in Hok. pose proof (proj2 (jo_floor _ _ Hok)) as Hlt.
destruct (acknowledge_in_ok _ _ _ _ _ _ _ _ _ _ Hw Hlt Hrun)
  as [_ [(_ & -> & _)|(w' & row & row' & floor & _ & Hrec)]]; [done|].
pose proof (recorded_ok _ _ _ _ _ _ _ _ _ _ _ Hok Hrec) as Hok'.
destruct Hrec as [Hrow Han Hcl Hfloor Hj Hcon].
destruct (advance_floor_spec _ _ _ _ Hfloor Hlt) as (Hle & _).
rewrite (Hj k), decide_True in Hok' by done.
split; [by eapply store_ok_at|]. eapply evolves_at; [done..|].
assert (Hnext : k_next w' = k_next w) by (by destruct Hcl as [->| ->]).
split; cbn; [lia..|]. intros n r' Hn Hr%lookup_kept.
apply lookup_insert_Some in Hr as [[<- <-]|[_ Hr]].
- exists row. split; [done|]. by eapply answered_follows.
- exists r'. split; [done|]. apply row_follows_refl.
Qed.

Lemma mark_follows p r : row_follows r (mark p r).
Proof.
unfold mark, erases. destruct (p r); cbn [andb]; [|apply row_follows_refl].
case_bool_decide; [|apply row_follows_refl]. split; try done. cbn. congruence.
Qed.

Lemma erasure_good p fenced ws s s' : erasure m p fenced ws s s' -> good s s'.
Proof.
intros He Hs. split; [by eapply erasure_ok|]. destruct He as [Hj Hc _ _]. intros k c Hk.
exists (fence m ws k c). rewrite Hc, Hk. split; [done|].
assert (k_floor (fence m ws k c) = k_floor c /\ k_next (fence m ws k c) = k_next c) as [Hf Hn]
  by (unfold fence; by case_bool_decide).
split; [lia..|]. intros n r'. rewrite Hj, lookup_fmap_Some. intros _ (r & <- & Hr).
exists r. split; [done|]. apply mark_follows.
Qed.

Lemma erase_reported_good r : keeps good (erase_reported_subject_command r).
Proof.
intros s n s' Hrun. apply erase_reported_ok in Hrun as [->|(i & row & Hr & Hp & -> & Hc)]; [done|].
intros Hs. set (k := (rc_worker r, rc_incarnation r)) in *.
pose proof (Hs k) as Hok. destruct (connections s !! (k : worker_key)) as [c|] eqn:Hk in Hok; [|by rewrite Hok, lookup_empty in Hr].
assert (Hok' : journal_ok c (<[i := erased_row row]> (journal s k))).
{ destruct Hok as [Hf Hd Hn Hb Hrows]. split; [done| | | |].
  - intros n'. rewrite <- Hd. rewrite lookup_insert_is_Some. split; [|destruct (decide (i = n')); by auto].
    intros [<-|[_ ?]]; [by eexists|done].
  - by rewrite map_size_insert_Some by (by eexists).
  - etransitivity; [|exact Hb]. apply pending_bytes_le; [intros; by eapply row_contract_weight, Hrows|].
    intros n' r'. rewrite lookup_insert_Some. intros [[<- <-]|[_ ?]]; [|eauto with lia].
    exists row. split; [done|]. apply erased_row_weight. eauto.
  - intros n' r'. rewrite lookup_insert_Some. intros [[_ <-]|[_ ?]]; [done|eauto]. }
assert (Hcon : connections (on_journal k (<[i := erased_row row]>) s) = <[k := c]> (connections s))
  by (by rewrite insert_id).
split; [eapply store_ok_at; [exact Hcon|exact (fun k' => journal_on_journal k k' _ s)|exact Hok'|exact Hs]|].
eapply evolves_at; [exact Hk|exact Hcon|exact (fun k' => journal_on_journal k k' _ s)|]. split; [lia..|].
intros n' r' _. rewrite lookup_insert_Some. intros [[<- <-]|[_ ?]].
- exists row. split; [done|]. split; try done. cbn. congruence.
- exists r'. split; [done|]. apply row_follows_refl.
Qed.

Lemma erase_pending_good sel : keeps good (erase_pending_rows m sel).
Proof. intros s n s' Hrun. apply erase_pending_ok in Hrun as [ws He]. by eapply erasure_good. Qed.

End Steps.
