(* ===== verification/CommandCodec.v ===== *)
(** * What a sealed command reads back as

    The bytes of a command are valid UTF-8 when its texts are, so the decoder
    of a socket reads them back as the same object, its keys sorted; sorting
    changes neither the body hash nor the identity of the command. *)

From S2P Require Import Prelude PyFloat Hashes Json JsonFacts Protocol6 Protocol6Facts Protocol6Codec Uuid PyInt KeyRing Transactions AccountStore CommandTables CommandSubjects CommandStore.
Open Scope Z_scope.

(** ** UTF-8 *)

Lemma utf8_app s t : utf8_valid s = true -> utf8_valid (s +:+ t) = utf8_valid t.
Proof.
  remember (String.length s) as n eqn:En. assert (Hn : (String.length s <= n)%nat) by lia. clear En.
  revert s Hn. induction n as [|n IH]; intros s Hn; [destruct s; [done|cbn in Hn; lia]|].
  destruct s as [|a s1]; [done|]. cbn [String.length] in Hn. rewrite append_cons. cbn [utf8_valid].
  destruct (byte_val a <? 0x80); [intros Hs; apply IH; [lia|done]|].
  destruct s1 as [|b s2]; [done|]. cbn [String.length] in Hn. rewrite append_cons. cbn [utf8_valid].
  destruct ((0xC2 <=? byte_val a) && (byte_val a <? 0xE0)).
  { intros [-> Hs]%andb_true_iff. cbn [andb]. apply IH; [lia|done]. }
  destruct s2 as [|c s3]; [done|]. cbn [String.length] in Hn. rewrite append_cons. cbn [utf8_valid].
  destruct ((0xE0 <=? byte_val a) && (byte_val a <? 0xF0)).
  { intros [-> Hs]%andb_true_iff. cbn [andb]. apply IH; [lia|done]. }
  destruct s3 as [|d s4]; [done|]. cbn [String.length] in Hn. rewrite append_cons. cbn [utf8_valid].
  intros [-> Hs]%andb_true_iff. cbn [andb]. apply IH; [lia|done].
Qed.

Lemma utf8_ascii s : ascii_text s = true -> utf8_valid s = true.
Proof.
  unfold ascii_text. induction s as [|c s IH]; [done|]. cbn [all_chars utf8_valid].
  intros [Hc Hs]%andb_true_iff. rewrite Hc. auto.
Qed.

Lemma utf8_join (sep : string) l :
  ascii_text sep = true -> Forall (fun t => utf8_valid t = true) l -> utf8_valid (join sep l) = true.
Proof.
  intros Hsep Hl. induction Hl as [|t l Ht Hl IH]; [done|]. destruct l as [|u l]; [done|].
  rewrite join_cons2, utf8_app, utf8_app; [done|by apply utf8_ascii|done].
Qed.

Lemma escape_high c : 128 <= byte_val c -> escape_char c = String.String c "".
Proof. byte_cases c; intros H; first [exact eq_refl|exfalso; vm_compute in H; congruence]. Qed.
Lemma escape_low c : byte_val c < 128 -> ascii_text (escape_char c) = true.
Proof. byte_cases c; intros H; first [exact eq_refl|exfalso; vm_compute in H; congruence]. Qed.

Lemma is_cont_high c : is_cont c = true -> 128 <= byte_val c.
Proof. unfold is_cont. lia. Qed.

Lemma utf8_escape s : utf8_valid s = true -> utf8_valid (escape s) = true.
Proof.
  remember (String.length s) as n eqn:En. assert (Hn : (String.length s <= n)%nat) by lia. clear En.
  revert s Hn. induction n as [|n IH]; intros s Hn; [destruct s; [done|cbn in Hn; lia]|].
  destruct s as [|a s1]; [done|]. cbn [String.length] in Hn. cbn [utf8_valid].
  destruct (byte_val a <? 0x80) eqn:Ea.
  { intros Hs. cbn [escape]. rewrite utf8_app; [apply IH; [lia|done]|].
    apply utf8_ascii, escape_low. lia. }
  destruct s1 as [|b s2]; [done|]. cbn [String.length] in Hn. cbn [escape]. rewrite (escape_high a) by lia.
  destruct ((0xC2 <=? byte_val a) && (byte_val a <? 0xE0)) eqn:E2.
  { intros [Hb Hs]%andb_true_iff. rewrite (escape_high b) by (by apply is_cont_high).
    rewrite !append_cons, !append_empty. cbn [utf8_valid]. rewrite Ea, E2, Hb. apply IH; [lia|done]. }
  destruct s2 as [|c s3]; [done|]. cbn [String.length] in Hn. cbn [escape].
  destruct ((0xE0 <=? byte_val a) && (byte_val a <? 0xF0)) eqn:E3.
  { intros [Hb Hs]%andb_true_iff. pose proof Hb as Hconts.
    rewrite !andb_true_iff in Hconts. destruct Hconts as (((Hb1 & Hb2) & _) & _).
    rewrite (escape_high b (is_cont_high b Hb1)), (escape_high c (is_cont_high c Hb2)).
    rewrite !append_cons, !append_empty. cbn [utf8_valid]. rewrite Ea, E2, E3, Hb. apply IH; [lia|done]. }
  destruct s3 as [|d s4]; [done|]. cbn [String.length] in Hn. cbn [escape].
  intros [Hb Hs]%andb_true_iff. pose proof Hb as Hconts. rewrite !andb_true_iff in Hconts.
  destruct Hconts as (((((_ & Hb1) & Hb2) & Hb3) & _) & _).
  rewrite (escape_high b (is_cont_high b Hb1)), (escape_high c (is_cont_high c Hb2)), (escape_high d (is_cont_high d Hb3)).
  rewrite !append_cons, !append_empty. cbn [utf8_valid]. rewrite Ea, E2, E3, Hb. apply IH; [lia|done].
Qed.

(** Every text of a value is the encoding of a text without surrogates. *)
Fixpoint utf8_texts (v : json) : bool :=
  match v with
  | JStr s => utf8_valid s
  | JList l => forallb utf8_texts l
  | JDict d => forallb (fun kv => utf8_valid kv.1 && utf8_texts kv.2) d
  | _ => true
  end.

Lemma utf8_string s : utf8_valid s = true -> utf8_valid (dump_string s) = true.
Proof.
  intros Hs. unfold dump_string. change (utf8_valid (escape s +:+ String.String quote "") = true).
  rewrite utf8_app; [done|]. by apply utf8_escape.
Qed.

Lemma int_text z t : dump_int z = Ok t -> ascii_text t = true.
Proof.
  unfold dump_int. destruct (Nat.ltb _ _); [discriminate|]. intros [= <-].
  destruct z; [done| |].
  - destruct (dec_string_pos p) as (u & -> & _). apply digits_ascii.
  - rewrite dec_string_neg. destruct (dec_string_pos p) as (u & -> & _).
    unfold ascii_text. cbn [all_chars]. apply andb_true_iff. split; [done|apply digits_ascii].
Qed.

Lemma utf8_dumps v t : clean v -> utf8_texts v = true -> dumps v = Ok t -> utf8_valid t = true.
Proof.
  revert t. induction v as [|b|z|f|s|l IH|d IH|] using json_ind'; intros t Hc Hu Ht;
    inversion Hc as [? Hf| |?|?|?|? Hcl|? Hnd Hcd]; subst; cbn [utf8_texts dumps] in Hu, Ht.
  - by injection Ht as <-.
  - injection Ht as <-. by destruct b.
  - by eapply utf8_ascii, int_text.
  - destruct (isfinite f); [|done]. injection Ht as <-. by apply utf8_ascii, float_ascii.
  - injection Ht as <-. by apply utf8_string.
  - apply bind_ok in Ht as (ts & Hts & [= <-]). apply traverse_ok in Hts.
    change (utf8_valid (join "," ts +:+ "]") = true). rewrite utf8_app; [done|]. apply utf8_join; [done|].
    clear Hc. induction Hts as [|v t l ts Hv Hts IHl]; [constructor|].
    rewrite !Forall_cons in *. cbn [forallb] in Hu. apply andb_true_iff in Hu as [Hu1 Hu2].
    destruct IH, Hcl. eauto.
  - apply bind_ok in Ht as (ts & Hts & [= <-]). apply traverse_ok in Hts.
    rewrite utf8_app by done. rewrite utf8_app; [done|]. apply utf8_join; [done|].
    rewrite Forall_fmap, sort_items_perm. clear Hc Hnd.
    induction Hts as [|[k v] [k' t] l ts Hv Hts IHl]; [constructor|].
    rewrite !Forall_cons in *. cbn [forallb fst snd] in *.
    rewrite !andb_true_iff in Hu. destruct Hu as [[Hk Hu1] Hu2], IH as [IHv IH], Hcd as [Hcv Hcd].
    cbn [fst snd] in *. apply bind_ok in Hv as (t' & Ht' & [= <- <-]). split; [|eauto].
    unfold dump_pair, compose. cbn [fst snd]. rewrite utf8_app by (by apply utf8_string).
    rewrite utf8_app by done. by eapply IHv.
Qed.

(** ** Decoding what was sent *)

Lemma sent_bytes_decode d worker incarnation text :
  clean (JDict d) -> utf8_texts (JDict d) = true ->
  preflight_worker_control (JDict d) worker incarnation = Ok text ->
  decode_control (RawBytes text) = Ok (sorted_dict d).
Proof.
  intros Hc Hu H. rewrite <- (preflight_decodes _ _ _ _ Hc H).
  unfold preflight_worker_control in H. ok_inv. unfold canonical_bytes in *. ok_inv.
  destruct (dumps (JDict d)) as [t|] eqn:Hd; [|discriminate]. ok_inv.
  unfold decode_control. rewrite (utf8_dumps _ _ Hc Hu Hd).
  match goal with Hj : check_json _ _ = Ok tt |- _ => destruct (tame_dumps _ 0 _ Hc Hj Hd) as [_ ->] end.
  done.
Qed.

(** ** Sorting changes nothing that is hashed *)

Definition norm_fields (d : dict) : dict := map (fun kv => (kv.1, norm kv.2)) d.

Lemma keys_norm d : keys (norm_fields d) = keys d.
Proof. unfold keys, norm_fields. change (map ?f d) with (f <$> d). by rewrite <- list_fmap_compose. Qed.

Lemma dumps_fields d t :
  Forall (fun kv => forall u, dumps kv.2 = Ok u -> dumps (norm kv.2) = Ok u) d ->
  dumps (JDict d) = Ok t -> dumps (JDict (norm_fields d)) = Ok t.
Proof.
  intros IH Ht. cbn [dumps] in *. apply bind_ok in Ht as (ts & Hts & Ht).
  assert (traverse (fun kv => s ← dumps kv.2; Ok (kv.1, s)) (norm_fields d) = Ok ts) as ->; [|done].
  apply traverse_ok. apply traverse_ok in Hts. unfold norm_fields.
  change (map ?f d) with (f <$> d). apply Forall2_fmap_l.
  clear Ht. induction Hts as [|kv u d ts Hkv Hts IHl]; [constructor|].
  apply Forall_cons in IH as [IHv IH]. constructor; [|by apply IHl].
  apply bind_ok in Hkv as (s & Hs & [= <-]). apply bind_ok. exists s. split; [exact (IHv s Hs)|done].
Qed.

Lemma dumps_norm v t : clean v -> dumps v = Ok t -> dumps (norm v) = Ok t.
Proof.
  revert t. induction v as [|b|z|f|s|l IH|d IH|] using json_ind'; intros t Hc Ht;
    inversion Hc as [? Hf| |?|?|?|? Hcl|? Hnd Hcd]; subst; try done.
  - cbn [dumps norm] in *. apply bind_ok in Ht as (ts & Hts & Ht).
    assert (traverse dumps (map norm l) = Ok ts) as ->; [|done].
    apply traverse_ok. apply traverse_ok in Hts. change (map norm l) with (norm <$> l). apply Forall2_fmap_l.
    clear Ht Hc. induction Hts as [|v u l ts Hv Hts IHl]; [constructor|].
    rewrite !Forall_cons in *. destruct IH as [IHv IH], Hcl as [Hcv Hcl]. constructor; [by apply IHv|by apply IHl].
  - cbn [norm]. apply (dumps_permuted (norm_fields d)); [by rewrite sort_items_perm|by rewrite keys_norm|].
    apply dumps_fields; [|done]. rewrite !Forall_forall in *. intros kv Hin u. by apply IH; [|apply Hcd].
Qed.

Lemma canonical_ok v t : canonical_bytes v = Ok t <-> check_json v 0 = Ok tt /\ dumps v = Ok t.
Proof.
  unfold canonical_bytes. destruct (check_json v 0) as [[]|]; cbn [mbind result_bind]; [|naive_solver].
  destruct (dumps v); naive_solver.
Qed.

Lemma without_absent k d : k ∉ keys d -> without k d = d.
Proof.
  unfold without, keys. induction d as [|[k' v] d IH]; [done|]. rewrite fmap_cons. cbn [fst].
  intros [Hne Hk]%not_elem_of_cons. rewrite filter_cons_True by (cbn; congruence). by rewrite IH.
Qed.

(** The body hash of the decoded command is over the bytes it was made of. *)
Lemma canonical_without_hash msg h t :
  clean (JDict msg) -> "body_hash" ∉ keys msg -> canonical_bytes (JDict msg) = Ok t ->
  canonical_bytes (JDict (without "body_hash" (sorted_dict (set_key "body_hash" (JStr h) msg)))) = Ok t.
Proof.
  intros Hc Hk Ht. rewrite canonical_ok in *. destruct Ht as [Hj Hd].
  assert (Hp : norm_fields msg ≡ₚ without "body_hash" (sorted_dict (set_key "body_hash" (JStr h) msg))).
  { rewrite set_key_fresh by done. unfold sorted_dict, without. rewrite map_app, sort_items_perm.
    change (map ?f msg) with (norm_fields msg). rewrite filter_app. cbn [map fst snd norm].
    rewrite filter_cons_False by (cbn; tauto). rewrite filter_nil, app_nil_r.
    change (filter _ (norm_fields msg)) with (without "body_hash" (norm_fields msg)).
    by rewrite without_absent by (by rewrite keys_norm). }
  inversion Hc as [| | | | | |? Hnd Hcd]; subst. split.
  - eapply check_json_permuted; [exact Hp|]. pose proof (check_json_norm _ _ Hj) as Hn.
    cbn [norm] in Hn. eapply check_json_permuted; [|exact Hn]. apply sort_items_perm.
  - eapply dumps_permuted; [exact Hp|by rewrite keys_norm|]. apply dumps_fields; [|done].
    rewrite Forall_forall in *. intros kv Hin u. by apply dumps_norm, Hcd.
Qed.

(** Fields that are texts or integers. *)
Definition scalar_field (k : string) : bool :=
  is_in k (UUID_FIELDS ++ POSITIVE ++ HASH_FIELDS ++ STRING_FIELDS ++ ["lease_expires_at"]).

Lemma scalar_typed k v : typed v k -> scalar_field k = true -> norm v = v.
Proof.
  intros [Hu Hp _ Hh Hs He] Hk. unfold scalar_field in Hk. apply is_in_spec in Hk.
  rewrite !elem_of_app in Hk. destruct Hk as [H|[H|[H|[H|H]]]].
  - specialize (Hu H). by destruct v.
  - specialize (Hp H). by destruct v.
  - by destruct (Hh H) as (s & -> & _).
  - specialize (Hs H). by destruct v.
  - apply list_elem_of_singleton in H. by destruct (He H) as (s & -> & _).
Qed.

Lemma lookup_scalar d k v :
  validate_types (JDict d) "" = Ok tt -> lookup_key k d = Some v -> scalar_field k = true -> norm v = v.
Proof. intros Ht Hk. by eapply scalar_typed, validate_types_typed, validate_types_field. Qed.

Lemma sorted_scalar d k :
  NoDup (keys d) -> validate_types (JDict d) "" = Ok tt -> scalar_field k = true ->
  lookup_key k (sorted_dict d) = lookup_key k d.
Proof.
  intros Hnd Ht Hk. rewrite lookup_sorted by done. destruct (lookup_key k d) as [v|] eqn:E; [|done].
  cbn. by rewrite (lookup_scalar _ _ _ Ht E Hk).
Qed.

Lemma subject_scalar kind fields k :
  SUBJECT_FIELDS kind = Some fields -> k ∈ ACK_COMMON ++ fields -> scalar_field k = true.
Proof.
  intros Hf. assert (forallb scalar_field (ACK_COMMON ++ fields) = true) as Hall.
  { unfold SUBJECT_FIELDS in Hf. destruct (is_in kind _); [by injection Hf as <-; vm_compute|].
    destruct (is_in kind _); [by injection Hf as <-; vm_compute|done]. }
  rewrite forallb_forall in Hall. intros Hin. apply Hall. by apply list_elem_of_In.
Qed.

Lemma identity_sorted kind d :
  NoDup (keys d) -> validate_types (JDict d) "" = Ok tt ->
  ack_identity_hash kind (sorted_dict d) = ack_identity_hash kind d.
Proof.
  intros Hnd Ht. unfold ack_identity_hash, ack_identity_projection.
  destruct (SUBJECT_FIELDS kind) as [fields|] eqn:Hf; [|done].
  assert (Hl : forall k, k ∈ ACK_COMMON ++ fields -> lookup_key k (sorted_dict d) = lookup_key k d).
  { intros k Hk. apply sorted_scalar; [done..|]. by eapply subject_scalar. }
  set (names := ACK_COMMON ++ fields) in *. clearbody names. clear Hf Ht Hnd.
  assert (existsb (fun name => negb (has_key name (sorted_dict d))) names
          = existsb (fun name => negb (has_key name d)) names) as ->.
  { induction names as [|k names IH]; [done|]. cbn [existsb]. unfold has_key at 1 3.
    rewrite (Hl k) by left. f_equal. apply IH. intros; apply Hl; by right. }
  assert (omap (fun name => v ← lookup_key name (sorted_dict d); Some (name, v)) names
          = omap (fun name => v ← lookup_key name d; Some (name, v)) names) as ->; [|done].
  induction names as [|k names IH]; [done|]. cbn [omap list_omap]. rewrite (Hl k) by left.
  rewrite IH; [done|]. intros; apply Hl; by right.
Qed.

Lemma command_identity_sorted kind d :
  NoDup (keys d) -> validate_types (JDict d) "" = Ok tt ->
  command_identity kind (sorted_dict d) = command_identity kind d.
Proof.
  intros Hnd Ht. unfold command_identity, get. by rewrite !(sorted_scalar d) by done.
Qed.

(** ** The fields of a command message *)

Lemma lookup_update_with e d k v :
  NoDup (keys e) -> lookup_key k e = Some v -> lookup_key k (update_with e d) = Some v.
Proof.
  unfold update_with. revert d. induction e as [|[k' v'] e IH]; intros d Hnd; [done|].
  unfold keys in Hnd. rewrite fmap_cons in Hnd. apply NoDup_cons in Hnd as [Hn Hnd].
  cbn [lookup_key fold_left fst snd]. case_decide as Hk.
  - subst k'. intros [= ->].
    change (lookup_key k (update_with e (set_key k v d)) = Some v).
    rewrite lookup_update_with_ne by done. apply lookup_set_key.
  - by apply IH.
Qed.

Lemma message_field q fields w k v :
  lookup_key k (command_message q [] w) = Some v ->
  lookup_key k (command_message q fields w) = Some v.
Proof.
  unfold command_message. intros Hk. apply lookup_update_with.
  - apply (bool_decide_unpack _). vm_compute. exact I.
  - exact Hk.
Qed.

Lemma string_of_bytes_of s : string_of_bytes (bytes_of_string s) = s.
Proof. induction s as [|c s IH]; [done|]. cbn [bytes_of_string string_of_bytes]. by rewrite val_byte_val, IH. Qed.

Lemma hex_ascii s : HEX64 s = true -> ascii_text s = true.
Proof.
  unfold HEX64, ascii_text. intros [_ H]%andb_true_iff. induction s as [|c s IH]; [done|].
  cbn [all_chars] in *. apply andb_true_iff in H as [Hc H]. rewrite IH by done. rewrite andb_true_r.
  unfold is_lower_hex, is_digit in Hc. lia.
Qed.

(** What a built command is. *)
Record built_of (q : commit_request) (fields : dict) (w : connection) (b : built) (text : string) : Prop := {
  bo_text : canonical_bytes (JDict (command_message q fields w)) = Ok text;
  bo_hash : bt_hash b = sha256 text;
  bo_message : bt_message b = set_key "body_hash" (JStr (bt_hash b)) (command_message q fields w);
  bo_subject : command_identity (q_type q) (bt_message b) = Ok (bt_subject b, bt_sequence b);
  bo_identity : ack_identity_hash (q_type q) (bt_message b) = Ok (bt_identity b);
  bo_body : preflight_worker_control (JDict (bt_message b)) (Some (q_worker q)) (Some (q_incarnation q))
            = Ok (bt_body b)
}.

Lemma build_command_ok q fields w b : build_command q fields w = Ok b -> exists text, built_of q fields w b text.
Proof.
  unfold build_command. intros H. apply bind_ok in H as (text & Htext & H). exists text. cbv zeta in H.
  apply bind_ok in H as ([subject sequence] & Hs & H). apply bind_ok in H as (identity & Hi & H).
  apply bind_ok in H as (body & Hb & H). apply bind_ok in H as (? & _ & [= <-]).
  destruct (preflight_worker_control _ _ _) as [body'|e] eqn:Hp; [|by destruct (is_value_error e)].
  injection Hb as ->. by split.
Qed.

Section ReadsBack.
Context `{Driver} `{CryptoLaws}.

Lemma seal_command_ok r q sequence b sealed version :
seal_command (Ok r) q sequence b = Ok (sealed, version) ->
exists ad, aad (q_key q) sequence (q_id q) (bt_hash b) = Ok ad
  /\ encrypt r (q_iv q) "worker-command" (bytes_of_string (bt_body b)) ad = Ok sealed.
Proof.
unfold seal_command. cbn [mbind result_bind]. intros Hs.
destruct (aad _ _ _ _) as [ad|e]; cbn [mbind result_bind] in Hs; [|by destruct (is_key_ring_error e)].
exists ad. split; [done|].
destruct (encrypt _ _ _ _ _) as [x|e]; cbn [mbind result_bind] in Hs; [|by destruct (is_key_ring_error e)].
destruct (version_of x) as [v|e]; cbn [mbind result_bind] in Hs; [by injection Hs as -> _|by destruct (is_key_ring_error e)].
Qed.

(** The decoded message of a built command, and what the journal checks of it. *)
Lemma built_decodes q fields w b text :
built_of q fields w b text -> clean (JDict (command_message q fields w)) ->
utf8_texts (JDict (command_message q fields w)) = true -> "body_hash" ∉ keys (command_message q fields w) ->
decode_control (RawBytes (bt_body b)) = Ok (sorted_dict (bt_message b))
/\ canonical_bytes (JDict (without "body_hash" (sorted_dict (bt_message b)))) = Ok text
/\ command_identity (q_type q) (sorted_dict (bt_message b)) = Ok (bt_subject b, bt_sequence b)
/\ ack_identity_hash (q_type q) (sorted_dict (bt_message b)) = Ok (bt_identity b)
/\ (forall k v, lookup_key k (command_message q [] w) = Some v -> scalar_field k = true ->
      k <> "body_hash" -> lookup_key k (sorted_dict (bt_message b)) = Some v).
Proof.
intros [Htext Hhash Hmsg Hs Hi Hb] Hc Hu Hk. inversion Hc as [| | | | | |? Hnd Hcd]; subst.
assert (Hval : validate_types (JDict (bt_message b)) "" = Ok tt).
{ unfold preflight_worker_control in Hb. apply bind_ok in Hb as ([] & Hv & _).
  destruct (validate_message_inv _ _ _ Hv) as (? & kind & [= <-] & Hval). exact (val_types _ _ _ _ Hval). }
assert (Hnd' : NoDup (keys (bt_message b))).
{ rewrite Hmsg, set_key_fresh by done. unfold keys. rewrite fmap_app. apply NoDup_app.
  split; [done|]. split; [|apply NoDup_singleton]. intros k Hk1 Hk2%list_elem_of_singleton. by subst. }
assert (Hcm : clean (JDict (bt_message b))).
{ constructor; [done|]. rewrite Hmsg, set_key_fresh by done. rewrite Forall_app. split; [done|].
  repeat constructor. }
assert (Hum : utf8_texts (JDict (bt_message b)) = true).
{ assert (Hbh : lookup_key "body_hash" (bt_message b) = Some (JStr (bt_hash b)))
    by (rewrite Hmsg; apply lookup_set_key).
  pose proof (validate_types_typed _ _ (validate_types_field _ _ _ Hval Hbh)) as Ht.
  destruct (typed_hash _ _ Ht) as (h & [= <-] & Hhex); [by left|].
  rewrite Hmsg, set_key_fresh by done. cbn [utf8_texts] in *. rewrite forallb_app, Hu. cbn.
  by rewrite (utf8_ascii _ (hex_ascii _ Hhex)). }
split; [by eapply sent_bytes_decode|]. split; [rewrite Hmsg; by apply canonical_without_hash|].
rewrite command_identity_sorted, identity_sorted by done. split; [done|]. split; [done|].
intros k v Hkv Hsc Hne. rewrite sorted_scalar by done. rewrite Hmsg, lookup_set_key_ne by done.
by apply message_field.
Qed.

End ReadsBack.
