(* ===== verification/CommandSamples.v ===== *)
(** * A worker with a live session, and a command to it

    A concrete store, ring and driver on which the witnesses of the journal's
    theorems evaluate. *)

From S2P Require Import Prelude PyFloat Hashes Json JsonFacts Protocol6 Samples Uuid PyInt KeyRing Transactions AccountStore CommandTables CommandSubjects CommandStore KeyRingSpec.
Open Scope Z_scope.

#[export] Existing Instance toy_ops.
#[export] Existing Instance toy_laws.

(** A driver that stores a value as it is. *)
#[export] Instance plain_driver : Driver := {
  bigint v := match v with JInt z => if (- 2 ^ 63 <=? z) && (z <=? MAX_SEQUENCE) then Ok z
                                     else Err OverflowError
              | _ => Err (TypeError "an integer is required") end;
  jsonb v := Ok v;
  column v := Ok v
}.
#[export] Instance plain_driver_laws : DriverLaws.
Proof.
  split.
  - intros z Hz. cbn [bigint plain_driver]. unfold MAX_SEQUENCE in *.
    rewrite !(proj2 (Z.leb_le _ _)) by lia. done.
  - intros d v [= <-]. eauto.
Qed.

Definition USER : string := "aaaaaaaa-aaaa-4aaa-8aaa-aaaaaaaaaaaa".
Definition SERVER : string := "22222222-2222-4222-8222-222222222222".
Definition LEASE : string := "33333333-3333-4333-8333-333333333333".
Definition GRANT : string := "44444444-4444-4444-8444-444444444444".
Definition SESSION : string := "55555555-5555-4555-8555-555555555555".
Definition ATTEMPT : string := "66666666-6666-4666-8666-666666666666".
Definition RANGE : string := "77777777-7777-4777-8777-777777777777".
Definition COMMAND : string := "99999999-9999-4999-8999-000000000001".
Definition KEY : worker_key := (WORKER, INCARNATION).

Definition plain_envelope : worker_envelope :=
  {| ev_protocol := 6; ev_slots := 1; ev_capabilities := JList []; ev_manifests := JList [];
     ev_device := Some "cuda"; ev_memory := Some "full"; ev_execution := JDict []; ev_revision := 1;
     ev_seen := 5; ev_expires := 90000005; ev_observations := None |}.

Definition idle_worker : connection :=
  {| k_transport := SERVER; k_region := "local"; k_epoch := 7; k_lease := LEASE;
     k_lease_expires := 1790985610000000; k_nonce := GRANT; k_grant_expires := 100; k_grant_ready := true;
     k_next := 1; k_floor := 0; k_lifecycle := Ready; k_closed := None; k_envelope := plain_envelope |}.

Definition live_session : realtime_session :=
  {| rs_user := Some USER; rs_auth := None; rs_browser := SERVER; rs_region := "local"; rs_model := "sdxl";
     rs_effective := JDict []; rs_desired := JDict []; rs_params_revision := 1; rs_desired_revision := 1;
     rs_state := Live; rs_generation := 1; rs_epoch := Some 7; rs_started := Some 5; rs_ended := None |}.

Definition empty_store : store :=
  {| connections := ∅; leases := ∅; commands := ∅; realtime_sessions := ∅; session_attempts := ∅;
     job_rows := ∅; job_attempts := ∅; ranges := ∅; principals := ∅; bindings := ∅; asset_owners := ∅;
     receipts := ∅ |}.

Definition serving : store :=
  {| connections := {[KEY := idle_worker]};
     leases := {["local" := {| l_owner := SERVER; l_epoch := 7; l_id := LEASE; l_expires := 100 |}]};
     commands := ∅;
     realtime_sessions := {[SESSION := live_session]};
     session_attempts := {[(SESSION, 1) :=
       {| sa_worker := WORKER; sa_incarnation := INCARNATION; sa_epoch := 7; sa_attempt := ATTEMPT;
          sa_state := "running"; sa_range := Some RANGE; sa_usage := no_usage; sa_started := Some 5;
          sa_ended := None |}]};
     job_rows := ∅; job_attempts := ∅;
     ranges := {[RANGE := {| pr_worker := WORKER; pr_incarnation := INCARNATION; pr_region := "local";
       pr_epoch := 7; pr_account := Some USER; pr_kind := SessionRange; pr_subject := SESSION;
       pr_attempt := Some ATTEMPT; pr_generation := Some 1; pr_sequence := None; pr_state := Outstanding;
       pr_usage := no_usage; pr_floor := 0; pr_hash := None |}]};
     principals := {[USER := {| p_role := member; p_state := AccountStore.active |}]};
     bindings := ∅; asset_owners := ∅; receipts := ∅ |}.

Definition now : moment :=
  {| e_connected := true; e_mode := NoAccounts; e_local_user := Some USER; e_scheduler := SERVER;
     e_transport := SERVER; e_started := 10; e_principal_clock := 11; e_deadline_clock := 12;
     e_write_clock := 13 |}.

Definition RING : key_ring := ring_of OLD_ROOT.

Definition close_request : commit_request :=
  {| q_worker := WORKER; q_incarnation := INCARNATION; q_type := "close_session";
     q_fields := [("session_id", JStr SESSION); ("attempt_id", JStr ATTEMPT); ("control_generation", JInt 1)];
     q_nonce := GRANT; q_transport := None; q_account := Some USER; q_context := None; q_job_context := None;
     q_callback := false; q_id := COMMAND; q_iv := replicate 12 7 |}.

Definition closing : store := (commit_command now (Ok RING) close_request serving).2.

Definition nothing : stored_command :=
  {| sc_worker := ""; sc_incarnation := ""; sc_sequence := 0; sc_id := ""; sc_hash := ""; sc_body := "";
     sc_created := 0; sc_account := None; sc_subject := None; sc_subject_sequence := None;
     sc_identity := None |}.
Definition head_command : stored_command :=
  match read_exact_pending now (Ok RING) WORKER INCARNATION None closing with
  | Ok (Some c) => c | _ => nothing end.

(** The worker's answer to the command. *)
Definition close_ack : dict :=
  [("type", JStr "command_ack")] ++ lease_fields
  ++ [("session_id", JStr SESSION); ("attempt_id", JStr ATTEMPT); ("control_generation", JInt 1);
      ("command_sequence", JInt 1); ("command_id", JStr COMMAND); ("body_hash", JStr (sc_hash head_command));
      ("status", JStr "accepted")].

(** The store once the answer is in. *)
Definition closed_store : store := (acknowledge now (Ok RING) close_ack WORKER INCARNATION SERVER closing).2.
