(* ===== verification/CommandStoreSpec.v ===== *)
(** * What the command journal promises

    Over every interleaving of the transactions of CommandStore.v with the
    other writers of its tables: the journal is dense and bounded, commands are
    delivered in order and keep their identity, an erased command is never
    delivered, and repeating an acknowledgement changes nothing. *)

From S2P Require Import Prelude PyFloat Hashes Json JsonFacts Protocol6 Uuid PyInt KeyRing Transactions AccountStore CommandTables CommandSubjects CommandStore CommandFacts CommandJournal Protocol6Facts Protocol6Codec KeyRingSpec CommandCodec Samples CommandSamples.
Open Scope Z_scope.

(** ** The system *)

(** What the rest of the server does to these tables: it registers, renews and
    closes connections, but leaves the commands and the counters of a
    connection alone; a new connection starts at the first sequence. *)
Record other_change (s s' : store) : Prop := {
  oc_commands : commands s' = commands s;
  oc_connections : forall k, match connections s !! k, connections s' !! k with
    | Some c, Some c' => k_floor c' = k_floor c /\ k_next c' = k_next c
    | None, Some c' => k_floor c' = 0 /\ k_next c' = 1
    | None, None => True
    | Some _, None => False
    end
}.

Lemma other_change_good s s' : other_change s s' -> good s s'.
Proof.
  intros [Hc Hn] Hs. split.
  - intros k. specialize (Hs k). specialize (Hn k). rewrite (journal_commands _ _ Hc).
    destruct (connections s !! k) as [c|], (connections s' !! k) as [c'|]; try done.
    + destruct Hn as [Hf Hx], Hs as [? Hd ? ? ?]. split; rewrite ?Hf, ?Hx; done.
    + destruct Hn as [Hf Hx]. rewrite Hs. split; rewrite ?Hf, ?Hx; try done.
      intros n. rewrite lookup_empty. split; [by intros []|lia].
  - intros k c Hk. specialize (Hn k). rewrite Hk in Hn. destruct (connections s' !! k) as [c'|]; [|done].
    exists c'. split; [done|]. rewrite (journal_commands _ _ Hc). destruct Hn. by apply connection_follows_same.
Qed.

Definition delivery : Type := worker_key * stored_command.

Section System.
Context `{Driver} `{CryptoOps}.

(** One transaction, and the delivery it registers. *)
Inductive step : store -> option delivery -> store -> Prop :=
| step_commit m ring q s : step s None (commit_command m ring q s).2
| step_register m c f worker incarnation transport b s s' :
    register_delivery m c f worker incarnation transport b s = (Ok true, s') ->
    step s (Some ((worker, incarnation), c)) s'
| step_refuse m c f worker incarnation transport b s e s' :
    register_delivery m c f worker incarnation transport b s = (Err e, s') -> step s None s'
| step_acknowledge m ring message worker incarnation transport s :
    step s None (acknowledge m ring message worker incarnation transport s).2
| step_erase_accounts m accounts s : step s None (atomic (erase_account_commands m accounts) s).2
| step_erase_realtime m account auth keep s :
    step s None (atomic (erase_realtime_commands m account auth keep) s).2
| step_erase_subject m account kind subject sequence s :
    step s None (atomic (erase_subject_commands m account kind subject sequence) s).2
| step_erase_reported r s : step s None (atomic (erase_reported_subject_command r) s).2
| step_other s s' : other_change s s' -> step s None s'.

(** A run and its deliveries, in order. *)
Inductive run : store -> list delivery -> store -> Prop :=
| run_nil s : run s [] s
| run_step s e s' ds s'' : step s e s' -> run s' ds s'' -> run s (option_list e ++ ds) s''.

Lemma atomic_good {A} (t : txn store A) s : keeps good t -> good s (atomic t s).2.
Proof. intros Ht. exact (action_keeps_atomic good t Ht s). Qed.

Lemma deliver_in_ok m c ref k transport body b s a s' :
deliver_in m c ref k transport body b s = Ok (a, s') ->
s' = s /\ exists row w, journal s k !! sc_sequence c = Some row /\ same_row row c = true
  /\ connections s !! k = Some w /\ sc_sequence c = k_floor w + 1.
Proof.
unfold deliver_in. intros Hrun. cmd_inv.
match goal with Hl : lock_delivery_subject _ _ _ _ _ _ _ _ = _ |- _ =>
  apply delivery_subject_untouched in Hl as -> end.
match goal with Hh : match _ with Some _ => _ | None => _ end = false |- _ => rename Hh into Hhead end.
destruct (journal s k !! sc_sequence c) as [row|]; [|done]. apply negb_false_iff in Hhead.
destruct (connections s !! k) as [w|]; [|done]. cmd_inv.
destruct (leases s !! k_region w); [|done]. cmd_inv.
split; [done|]. exists row, w. repeat split; try done.
match goal with E : negb (_ =? _) = false |- _ => apply negb_false_iff in E; lia end.
Qed.

Lemma register_ok m c f worker incarnation transport b s r s' :
register_delivery m c f worker incarnation transport b s = (r, s') ->
s' = s /\ (r = Ok true -> exists row w,
  journal s (worker, incarnation) !! sc_sequence c = Some row /\ same_row row c = true
  /\ connections s !! (worker, incarnation) = Some w /\ sc_sequence c = k_floor w + 1).
Proof.
unfold register_delivery. destruct (sc_account c); [|by intros [= <- <-]].
destruct (_ || bool_decide (sc_body c = "")); [by intros [= <- <-]|].
destruct (delivery_body c _) as [body|]; [|by intros [= <- <-]].
unfold atomic. destruct (deliver_in _ _ _ _ _ _ _ _) as [[a s1]|] eqn:E; intros [= <- <-]; [|done].
apply deliver_in_ok in E as [-> Hrow]. by split.
Qed.

Lemma commit_command_good m ring q s : good s (commit_command m ring q s).2.
Proof.
unfold commit_command. destruct (validate_command_identity _ _ _); [|done].
destruct (q_account q) as [account|]; [|done].
destruct (_ && _); [done|]. destruct (negb _); [done|].
unfold mbind, action_bind, atomic.
pose proof (commit_in_good m ring q account) as Hg.
destruct (commit_in m ring q account s) as [[[c d] s1]|] eqn:E; [|done].
apply Hg in E. by destruct (published _ _).
Qed.

Lemma step_good s e s' : step s e s' -> good s s'.
Proof.
destruct 1 as [m ring q s|m c f w i t b s s' Hr|m c f w i t b s e s' Hr|m ring msg w i t s| | | | |s s' Ho].
- apply commit_command_good.
- apply register_ok in Hr as [-> _]. reflexivity.
- apply register_ok in Hr as [-> _]. reflexivity.
- unfold acknowledge. destruct (negb _); [done|]. destruct (parse_ack _ _ _); [|done].
  destruct (_ || _); [done|]. destruct (negb _); [done|]. apply atomic_good, acknowledge_in_good.
- apply atomic_good. unfold erase_account_commands.
  apply keeps_bind; [apply _|apply keeps_read, _|intros; apply erase_pending_good].
- apply atomic_good. unfold erase_realtime_commands.
  apply keeps_bind; [apply _|apply keeps_read, _|intros [|]; [apply erase_pending_good|apply keeps_ret, _]].
- apply atomic_good. unfold erase_subject_commands.
  apply keeps_bind; [apply _| |intros; apply erase_pending_good].
  intros s1 sel s2 Hsel. enough (s2 = s1) as -> by reflexivity.
  unfold subject_erasure_selection in Hsel. by cmd_inv.
- apply atomic_good, erase_reported_good.
- by apply other_change_good.
Qed.

Lemma run_good s ds s' : run s ds s' -> good s s'.
Proof. induction 1 as [s|s e s' ds s'' Hs _ IH]; [reflexivity|]. etransitivity; [by eapply step_good|done]. Qed.

(** A delivery is of the pending row next to the floor. *)
Lemma delivered_row s k c s' :
step s (Some (k, c)) s' -> exists row w, journal s k !! sc_sequence c = Some row /\ same_row row c = true
  /\ connections s !! k = Some w /\ sc_sequence c = k_floor w + 1 /\ s' = s.
Proof.
inversion 1 as [|m c' f w i t b s1 s2 Hr| | | | | | |]; subst.
apply register_ok in Hr as [-> Hrow]. destruct (Hrow eq_refl) as (row & w' & ? & ? & ? & ?). by exists row, w'.
Qed.

(** The state a delivery of a run was made in. *)
Lemma run_split s l1 d l2 s' :
run s (l1 ++ d :: l2) s' -> exists s1 s2, run s l1 s1 /\ step s1 (Some d) s2 /\ run s2 l2 s'.
Proof.
remember (l1 ++ d :: l2) as ds eqn:Eds. intros Hr. revert l1 Eds.
induction Hr as [s|s e s1 ds s' Hs Hr IH]; intros l1 Eds; [by destruct l1|].
destruct e as [d'|]; cbn [option_list app] in Eds.
- destruct l1 as [|d'' l1]; injection Eds as -> Eds.
  + subst ds. exists s, s1. split; [constructor|done].
  + destruct (IH l1 Eds) as (s2 & s3 & H1 & H2). exists s2, s3. split; [|done].
    exact (run_step s (Some d'') s1 l1 s2 Hs H1).
- destruct (IH l1 Eds) as (s2 & s3 & H1 & H2). exists s2, s3. split; [|done].
  exact (run_step s None s1 l1 s2 Hs H1).
Qed.

(** A row delivered later was there before, pending all the while. *)
Lemma delivered_was_pending s ds s1 k d s2 c r :
store_ok s -> run s ds s1 -> step s1 (Some (k, d)) s2 ->
connections s !! k = Some c -> journal s k !! sc_sequence d = Some r ->
same_row r d = true.
Proof.
intros Hok Hrun Hstep Hc Hr. destruct (run_good _ _ _ Hrun Hok) as [_ Hev].
destruct (delivered_row _ _ _ _ Hstep) as (row & w & Hrow & Hsame & _).
destruct (Hev k c Hc) as (c' & _ & [_ _ Hrows]).
pose proof (Hok k) as Hj. rewrite Hc in Hj.
destruct (Hrows _ _ (proj2 (proj1 (jo_dense _ _ Hj _) (mk_is_Some _ _ Hr))) Hrow) as (r' & Hr' & Hf).
rewrite Hr in Hr'. injection Hr' as <-. assert (row = r) as ->; [|done].
apply (rf_pending _ _ Hf). unfold same_row in Hsame. rewrite !andb_true_iff in Hsame.
by destruct Hsame as ((((((?%bool_decide_eq_true & _) & _) & _) & _) & _) & _).
Qed.

End System.

(** ** Properties *)

Lemma dense_size (j : gmap Z command_row) lo hi :
  (forall n, is_Some (j !! n) <-> lo < n < hi) -> hi - lo - 1 <= Z.of_nat (size j).
Proof.
  intros Hd. destruct (decide (lo < hi)); [|lia].
  assert (Hsub : (list_to_set (seqZ (lo + 1) (hi - lo - 1)) : gset Z) ⊆ dom j).
  { intros n. rewrite elem_of_list_to_set, elem_of_seqZ, elem_of_dom, Hd. lia. }
  apply subseteq_size in Hsub. rewrite size_dom, size_list_to_set, length_seqZ in Hsub by apply NoDup_seqZ. lia.
Qed.

Lemma no_body r : row_contract r = true -> c_state r <> Pending -> c_body r = None.
Proof.
  unfold row_contract, state_contract. rewrite !andb_true_iff. intros [[_ Hs] _] Hn.
  destruct (c_state r); [done| |]; rewrite !andb_true_iff in Hs; unfold none, some in Hs;
    destruct (c_body r); naive_solver.
Qed.

Definition same_command (c d : stored_command) : Prop :=
  sc_id c = sc_id d /\ sc_hash c = sc_hash d /\ sc_identity c = sc_identity d
  /\ sc_account c = sc_account d /\ sc_subject c = sc_subject d
  /\ sc_subject_sequence c = sc_subject_sequence d.

Lemma same_row_command r c d : same_row r c = true -> same_row r d = true -> same_command c d.
Proof.
  unfold same_row, same_command. rewrite !andb_true_iff, !bool_decide_eq_true. intuition congruence.
Qed.

Lemma ack_names_some message a row : ack_names_row message a row = Ok true -> is_Some (c_identity row).
Proof.
  unfold ack_names_row, none, some. destruct (c_identity row); [by eexists|]. by rewrite orb_true_r.
Qed.

Section Promises.
Context `{Driver} `{CryptoOps}.

(** C2 The journal is dense and bounded: from an empty store, after any
  interleaving of commits, deliveries, acknowledgements and erasures with the
  registration of workers, a connection holds exactly one row for each
  sequence between its floor and its next sequence, at most 256 of them and
  at most four MiB of pending bodies. *)
Theorem journal_dense_and_bounded s ds s' k c :
connections s = ∅ -> commands s = ∅ -> run s ds s' -> connections s' !! k = Some c ->
0 <= k_floor c /\ k_next c - k_floor c <= 257
/\ (forall n, is_Some (journal s' k !! n) <-> k_floor c < n < k_next c)
/\ Z.of_nat (size (journal s' k)) <= MAX_RETAINED_COMMANDS
/\ pending_bytes (journal s' k) <= MAX_PENDING_BYTES
/\ (forall n r, journal s' k !! n = Some r -> row_contract r = true).
Proof.
intros Hcon Hcmd Hrun Hc.
assert (Hok : store_ok s) by (intros k'; rewrite Hcon; unfold journal; by rewrite Hcmd).
destruct (run_good _ _ _ Hrun Hok) as [Hok' _]. specialize (Hok' k). rewrite Hc in Hok'.
destruct Hok' as [Hf Hd Hn Hb Hr]. split; [lia|]. split; [|done].
pose proof (dense_size _ _ _ Hd). unfold MAX_RETAINED_COMMANDS in Hn. lia.
Qed.

(** C3 Commands are delivered in order: in any run the deliveries over one
  connection have sequences that never decrease, and two deliveries of the
  same sequence are of the same command, with the same id, body hash,
  identity hash and subject. *)
Theorem delivered_in_order s ds s' l1 l2 l3 k c d :
store_ok s -> run s ds s' -> ds = l1 ++ (k, c) :: l2 ++ (k, d) :: l3 ->
sc_sequence c <= sc_sequence d /\ (sc_sequence c = sc_sequence d -> same_command c d).
Proof.
intros Hok Hrun ->. destruct (run_split _ _ _ _ _ Hrun) as (s1 & s2 & H1 & Hstep & H2).
destruct (run_split _ _ _ _ _ H2) as (s3 & s4 & H3 & Hstep' & _).
destruct (delivered_row _ _ _ _ Hstep) as (row & w & Hrow & Hsame & Hw & Hseq & ->).
destruct (run_good _ _ _ H1 Hok) as [Hok1 _]. destruct (run_good _ _ _ H3 Hok1) as [_ Hev].
destruct (delivered_row _ _ _ _ Hstep') as (row' & w' & Hrow' & Hsame' & Hw' & Hseq' & _).
destruct (Hev k w Hw) as (w2 & Hw2 & [Hfl _ _]). simplify_eq. split; [lia|]. intros Heq.
rewrite Heq in Hrow. eapply same_row_command; [exact Hsame|].
by eapply (delivered_was_pending _ _ _ _ _ _ w row Hok1 H3 Hstep').
Qed.

(** The rows of one of the accounts. *)
Definition of_accounts (accounts : list string) (r : command_row) : Prop :=
exists account, c_account r = Some account /\ account ∈ accounts.

(** C21 An erased command is never delivered: once the commands of some
  accounts are erased, no row of theirs keeps a body, the connection of
  every row that was pending is closed, and in any run from there no
  delivery is of a command of theirs. *)
Theorem erased_never_delivered m accounts s n s1 ds s2 k r i :
store_ok s -> erase_account_commands m accounts s = Ok (n, s1) -> run s1 ds s2 ->
journal s k !! i = Some r -> of_accounts accounts r ->
(exists r', journal s1 k !! i = Some r' /\ c_body r' = None /\ c_state r' <> Pending)
/\ (c_state r = Pending -> forall c, connections s1 !! k = Some c -> k_closed c <> None)
/\ (forall c, (k, c) ∈ ds -> sc_sequence c <> i).
Proof.
intros Hok Herase Hrun Hr (account & Ha & Hin). unfold erase_account_commands in Herase. cmd_inv.
pose proof Herase as He. apply erase_pending_good in He. destruct (He Hok) as [Hok1 _]. clear He.
apply erase_pending_ok in Herase as [ws [Hj Hc Hclosed _]].
assert (Hp : sel_rows (account_erasure_selection accounts s) r = true).
{ cbn. unfold account_is. rewrite Ha. by apply bool_decide_eq_true. }
assert (Hr1 : exists r', journal s1 k !! i = Some r' /\ c_body r' = None /\ c_state r' <> Pending).
{ exists (mark (sel_rows (account_erasure_selection accounts s)) r).
  rewrite Hj, lookup_fmap, Hr. split; [done|]. unfold mark, erases. rewrite Hp. cbn [andb].
  case_bool_decide as Hs; [done|]. split; [|done]. pose proof (Hok k) as Hk.
  destruct (connections s !! k) as [c|] in Hk; [|by rewrite Hk, lookup_empty in Hr].
  pose proof (jo_rows _ _ Hk _ _ Hr) as Hcontract. by apply no_body. }
split; [done|]. split.
- intros Hs c. rewrite Hc, fmap_Some. intros (c0 & _ & ->). unfold fence.
  rewrite bool_decide_eq_true_2; [by destruct (k_closed c0) eqn:E; cbn; rewrite E|].
  eapply Hclosed; [exact Hr|]. unfold erases. rewrite Hp. by apply bool_decide_eq_true.
- intros c Hd <-. destruct Hr1 as (r1 & Hr1 & _ & Hnot).
  apply list_elem_of_split in Hd as (l1 & l2 & ->).
  destruct (run_split _ _ _ _ _ Hrun) as (s3 & s4 & H1 & Hstep & _).
  pose proof (Hok1 k) as Hk. destruct (connections s1 !! k) as [c1|] eqn:Hc1 in Hk;
    [|by rewrite Hk, lookup_empty in Hr1].
  pose proof (delivered_was_pending _ _ _ _ _ _ c1 r1 Hok1 H1 Hstep Hc1 Hr1) as Hsame.
  apply Hnot. unfold same_row in Hsame. rewrite !andb_true_iff in Hsame.
  by destruct Hsame as ((((((?%bool_decide_eq_true & _) & _) & _) & _) & _) & _).
Qed.

(** Where the floor stopped the next row is not answered, and the answered row
    is below it or stays acknowledged. *)
Lemma recorded_settled m k message a s s1 w w' row row' floor :
journal_ok w (journal s k) -> consuming message = true ->
recorded m k message a s s1 w w' row row' floor ->
match journal s1 k !! pa_sequence a with Some r => c_state r = Acknowledged | None => True end
/\ (forall floor', advance_floor (answered_or_known k (journal s1 k) message (pa_sequence a)) floor (k_next w)
                   = Ok floor' -> floor' = floor).
Proof.
intros Hok Hcons [Hrow Han _ Hfloor Hj _].
pose proof (an_state _ _ _ _ _ _ Han) as Hst. rewrite (Hj k), decide_True by done.
destruct (advance_floor_spec _ _ _ _ Hfloor (proj2 (jo_floor _ _ Hok))) as (Hle & _ & Hstop).
set (j := <[pa_sequence a := row']> (journal s k)) in *. split.
- destruct (kept _ _ _ !! _) as [r|] eqn:Er; [|done]. apply lookup_kept in Er. unfold j in Er.
  rewrite lookup_insert_eq in Er. by injection Er as <-.
- intros floor' Hadv. destruct (decide (floor' = floor)) as [|Hne]; [done|exfalso].
  destruct (advance_floor_spec _ _ _ _ Hadv ltac:(lia)) as (Hle' & Hknown & _).
  specialize (Hknown (floor + 1) ltac:(lia)). specialize (Hstop ltac:(lia)).
  unfold answered_or_known in Hknown, Hstop.
  destruct (decide (floor + 1 = pa_sequence a)) as [He|He].
  + rewrite He, Hrow, Z.eqb_refl, Hcons, andb_false_r in Hstop.
    destruct (ack_names_some _ _ _ (an_names _ _ _ _ _ _ Han)) as [h Hh]. rewrite Hh in Hstop. done.
  + destruct (kept _ _ j !! (floor + 1)) as [r|] eqn:Er; [|done]. apply lookup_kept in Er.
    unfold j in Er. rewrite lookup_insert_ne in Er by done. rewrite Er in Hstop.
    rewrite (proj2 (Z.eqb_neq _ _)) in Hknown, Hstop by done.
    destruct (none (c_identity r)); congruence.
Qed.

(** C20 An acknowledgement counts once: when it was recorded, receiving the
  same message again over the same connection leaves the store as it is and
  publishes nothing, whatever the clock and the key ring are then. *)
Theorem acknowledged_once m ring m' ring' message worker incarnation transport s r s1 :
store_ok s ->
acknowledge m ring message worker incarnation transport s = (Ok r, s1) -> ack_recorded r = true ->
(acknowledge m' ring' message worker incarnation transport s1).2 = s1
/\ (forall r2, (acknowledge m' ring' message worker incarnation transport s1).1 = Ok r2 ->
      ack_publication r2 = None).
Proof.
intros Hok Hack Hrec. unfold acknowledge in *.
destruct (negb (e_connected m)); [done|]. destruct (parse_ack _ _ _) as [a|]; [|done].
destruct (_ || _); [done|]. destruct (consuming message) eqn:Hcons; cbn [negb] in *; [|by injection Hack as <- _].
destruct (negb (e_connected m')); [done|]. set (k := (worker, incarnation)) in *.
unfold atomic in *. destruct (acknowledge_in m ring k transport message a s) as [[r' s']|] eqn:E; [|done].
injection Hack as <- <-. pose proof (Hok k) as Hk.
destruct (connections s !! (k : worker_key)) as [w|] eqn:Hw in Hk.
2: { unfold acknowledge_in in E. cmd_inv. rewrite Hw in E. by cmd_inv. }
destruct (acknowledge_in_ok _ _ _ _ _ _ _ _ _ _ Hw (proj2 (jo_floor _ _ Hk)) E)
  as [_ [(Hno & _)|(w' & row & row' & floor & _ & Hr)]]; [congruence|].
destruct (recorded_settled _ _ _ _ _ _ _ _ _ _ _ Hk Hcons Hr) as [Hrow Hfl].
destruct (acknowledge_in m' ring' k transport message a s') as [[r2 s2]|] eqn:E2; [|done].
assert (s2 = s' /\ ack_publication r2 = None) as [-> Hp]; [|by split; [|intros ? [= <-]]].
eapply (acknowledge_again _ _ _ _ _ _ s' r2 s2 (set_floor floor w')); [|exact Hrow| |exact E2].
- rewrite (rc_connections _ _ _ _ _ _ _ _ _ _ _ Hr). apply lookup_insert_eq.
- cbn [k_floor k_next set_floor]. intros f Hf. apply Hfl.
  replace (k_next w) with (k_next w'); [done|]. by destruct (rc_closed _ _ _ _ _ _ _ _ _ _ _ Hr) as [->| ->].
Qed.

End Promises.

(** C37 The loop that raises the floor ends with the highest floor it may: over
  rows whose check returns, the fuel it is given is enough, it stops below
  the next sequence, every row it passed is known to be answered, and the
  row it stopped before, if there is one, is not. *)
Theorem floor_loop_finishes known floor next :
  floor < next -> (forall n, floor < n < next -> exists b, known n = Ok b) ->
  exists floor', advance_floor known floor next = Ok floor' /\ floor <= floor' < next
    /\ (forall n, floor < n <= floor' -> known n = Ok true)
    /\ (floor' + 1 = next \/ known (floor' + 1) = Ok false).
Proof.
  intros Hlt Hknown. destruct (advance_floor known floor next) as [floor'|e] eqn:E.
  - exists floor'. split; [done|]. destruct (advance_floor_spec _ _ _ _ E Hlt) as (Hle & Hall & Hstop).
    split; [done|]. split; [done|]. destruct (decide (floor' + 1 = next)); [by left|right].
    apply Hstop. lia.
  - exfalso. unfold advance_floor in E. revert E. generalize (Z.to_nat (next - floor)) as fuel. intros fuel.
    revert floor Hlt Hknown. induction fuel as [|fuel IH]; [done|]. intros floor Hlt Hknown E. cbn [advance] in E. destruct (floor + 1 <? next) eqn:En; [|done].
    destruct (Hknown (floor + 1)) as [b Hb]; [lia|]. rewrite Hb in E. cbn [mbind result_bind] in E.
    destruct b; [|done]. apply (IH (floor + 1)); [lia|intros; apply Hknown; lia|done].
Qed.

(** ** Reading back what was committed *)

Section ReadBack.
Context `{Driver} `{CryptoLaws}.

Lemma py_eq_str s : py_eq (JStr s) (JStr s) = true.
Proof. by apply bool_decide_eq_true. Qed.
Lemma py_eq_int z : py_eq (JInt z) (JInt z) = true.
Proof. apply Z.eqb_refl. Qed.

(** The message carries the epoch and the lease it was built under. *)
Lemma built_authority q fields w b text c1 :
built_of q fields w b text -> clean (JDict (command_message q fields w)) ->
utf8_texts (JDict (command_message q fields w)) = true -> "body_hash" ∉ keys (command_message q fields w) ->
authority_stale (q_key q) c1 (sorted_dict (bt_message b))
= negb (bool_decide (k_epoch c1 = k_epoch w /\ k_lease c1 = k_lease w)).
Proof.
intros Hb Hc Hu Hk. destruct (built_decodes _ _ _ _ _ Hb Hc Hu Hk) as (_ & _ & _ & _ & Hfield).
unfold authority_stale, get. cbn [existsb fst snd q_key].
rewrite (Hfield "worker_id" _ eq_refl), (Hfield "incarnation" _ eq_refl), (Hfield "owner_epoch" _ eq_refl),
  (Hfield "lease_id" _ eq_refl) by done.
cbn [snd]. unfold default, from_option, id. rewrite !py_eq_str. cbn [negb orb py_eq]. rewrite orb_false_r.
destruct (Z.eqb_spec (k_epoch w) (k_epoch c1)); do 2 case_bool_decide; naive_solver.
Qed.

(** The row of a built command opens to it under its own authority, and under
  no other. *)
Lemma open_built m q account fields w c1 r r' b text sealed version :
built_of q fields w b text -> clean (JDict (command_message q fields w)) ->
utf8_texts (JDict (command_message q fields w)) = true -> "body_hash" ∉ keys (command_message q fields w) ->
seal_command (Ok r) q (k_next w) b = Ok (sealed, version) -> length (q_iv q) = NONCE_BYTES ->
roots r' !! KeyRing.active r = roots r !! KeyRing.active r ->
open_row (Ok r') (q_key q) c1 (k_next w) (pending_row m q account b sealed version)
= if bool_decide (k_epoch c1 = k_epoch w /\ k_lease c1 = k_lease w) then
    Ok {| sc_worker := q_worker q; sc_incarnation := q_incarnation q; sc_sequence := k_next w;
          sc_id := q_id q; sc_hash := bt_hash b; sc_body := bt_body b; sc_created := e_started m;
          sc_account := Some account; sc_subject := Some (bt_subject b);
          sc_subject_sequence := Some (bt_sequence b); sc_identity := Some (bt_identity b) |}
  else Err (CommandRefused "pending worker command authority is stale").
Proof.
intros Hb Hc Hu Hk Hseal Hiv Hroot.
destruct (built_decodes _ _ _ _ _ Hb Hc Hu Hk) as (Hdec & Hcan & Hid & Hident & Hfield).
destruct (seal_command_ok _ _ _ _ _ _ Hseal) as (ad & Had & Henc).
destruct (decrypt_encrypted r r' _ _ _ _ _ Hiv Henc Hroot) as [_ Hplain].
unfold open_row. cbn [pending_row c_id c_hash c_body c_account c_subject c_sequence c_identity default
  from_option mbind result_bind]. unfold id. rewrite Had. cbn [mbind result_bind]. rewrite Hplain.
cbn beta iota zeta delta [mbind result_bind]. rewrite string_of_bytes_of, Hdec. cbn [mbind result_bind].
rewrite (built_authority _ _ _ _ _ c1 Hb Hc Hu Hk).
case_bool_decide; [|done]. rewrite Hcan. cbn [negb refuse_if mbind result_bind].
rewrite bool_decide_eq_true_2 by (by rewrite (bo_hash _ _ _ _ _ Hb)). cbn [require mbind result_bind].
unfold kind_text. rewrite (proj2 (item_lookup _ _ _) (Hfield "type" _ eq_refl eq_refl ltac:(done))).
cbn beta iota zeta delta [mbind result_bind snd]. rewrite Hid. cbn [mbind result_bind fst snd none some].
rewrite !bool_decide_eq_true_2 by done. cbn [negb orb refuse_if mbind result_bind].
rewrite Hident. cbn [mbind result_bind]. by rewrite bool_decide_eq_true_2.
Qed.

Lemma live_authority_found m k transport s c : live_authority m k transport s = Some c -> connections s !! k = Some c.
Proof.
unfold live_authority, own_connection. destruct (connections s !! k) as [c'|]; [|done]. cbn [mbind option_bind].
destruct (bool_decide _); [|done]. cbn [mbind option_bind]. destruct (leases s !! _); [|done].
cbn [mbind option_bind]. by destruct (_ && (e_deadline_clock m <? _)); intros [= <-].
Qed.

(** A row of a journal, as long as it is not dropped, is the row it was when it
  is still pending. *)
Lemma head_later s ds s' k w n r c :
store_ok s -> run s ds s' -> connections s !! k = Some w -> n < k_next w -> journal s k !! n = Some r ->
connections s' !! k = Some c -> k_floor c < n ->
n < k_next c /\ exists r', journal s' k !! n = Some r' /\ (c_state r' = Pending -> r' = r).
Proof.
intros Hok Hrun Hw Hn Hr Hc Hf. destruct (run_good _ _ _ Hrun Hok) as [Hok' Hev].
destruct (Hev k w Hw) as (c' & Hc' & [_ Hnext Hrows]). rewrite Hc in Hc'. injection Hc' as <-.
split; [lia|]. pose proof (Hok' k) as Hj. rewrite Hc in Hj.
destruct (proj2 (jo_dense _ _ Hj n)) as [r' Hr']; [lia|]. exists r'. split; [done|].
destruct (Hrows n r' Hn Hr') as (r0 & Hr0 & Hfol). rewrite Hr in Hr0. injection Hr0 as <-.
exact (rf_pending _ _ Hfol).
Qed.

(** C19 A committed command is read back exactly, however much later: once a
  command is stored at a sequence, and after any interleaving of commits,
  deliveries, acknowledgements and erasures with the rest of the server, a
  reader with the live authority of the connection whose head is that
  sequence gets the command that was committed, with its id, hash, subject
  and identity, and a body that decodes to the message that was built, its
  keys sorted, under the hash of that message; it is refused when the row was
  answered or erased since, and when the connection was granted another epoch
  or lease than the command was built under, and nothing else can happen.
  The message is one the protocol can carry: no object in it has a key twice
  and each float is read back from its [repr] ([clean]), its texts are
  encodings of texts without surrogates ([utf8_texts]), and no field of the
  request is called [body_hash]; the nonce has its 12 bytes, and the reader's
  ring has the root the command was sealed under. *)
Theorem committed_command_reads_back m q account pre w s c s1 ds s2 m' r r' transport c1 :
store_ok s -> connections s !! q_key q = Some w ->
clean (JDict (command_message q (pre_fields pre) w)) ->
utf8_texts (JDict (command_message q (pre_fields pre) w)) = true ->
"body_hash" ∉ keys (command_message q (pre_fields pre) w) ->
length (q_iv q) = NONCE_BYTES -> roots r' !! KeyRing.active r = roots r !! KeyRing.active r ->
store_command m (Ok r) q account pre w s = Ok (c, s1) -> run s1 ds s2 ->
e_connected m' = true -> live_authority m' (q_key q) transport s2 = Some c1 ->
k_floor c1 + 1 = k_next w ->
exists text body row,
  canonical_bytes (JDict (command_message q (pre_fields pre) w)) = Ok text /\ sc_hash c = sha256 text
  /\ decode_control (RawBytes body)
     = Ok (sorted_dict (set_key "body_hash" (JStr (sc_hash c)) (command_message q (pre_fields pre) w)))
  /\ journal s2 (q_key q) !! k_next w = Some row
  /\ read_exact_pending m' (Ok r') (q_worker q) (q_incarnation q) (Some transport) s2
     = if bool_decide (c_state row = Pending) then
         if bool_decide (k_epoch c1 = k_epoch w /\ k_lease c1 = k_lease w) then
           Ok (Some {| sc_worker := sc_worker c; sc_incarnation := sc_incarnation c;
                       sc_sequence := sc_sequence c; sc_id := sc_id c; sc_hash := sc_hash c; sc_body := body;
                       sc_created := sc_created c; sc_account := sc_account c; sc_subject := sc_subject c;
                       sc_subject_sequence := sc_subject_sequence c; sc_identity := sc_identity c |})
         else Err (CommandRefused "pending worker command authority is stale")
       else Err (CommandRefused "worker command head is unresolved").
Proof.
intros Hok Hw Hc Hu Hk Hiv Hroot Hst Hrun Hm Hlive Hhead.
pose proof (Hok (q_key q)) as Hj0. rewrite Hw in Hj0. pose proof (proj2 (jo_floor _ _ Hj0)) as Hlt.
destruct (store_command_good _ _ _ _ _ _ _ _ _ Hw Hst Hok) as [Hok1 _].
destruct (store_command_ok _ _ _ _ _ _ _ _ _ Hw Hlt Hst) as (b & floor & sealed & version & -> & Hcm).
destruct Hcm as [Hbuilt _ _ _ Hseal _ Hj Hcon].
destruct (build_command_ok _ _ _ _ Hbuilt) as [text Hb].
destruct (head_later s1 ds s2 (q_key q) (bump_next (set_floor floor w)) (k_next w)
  (pending_row m q account b sealed version) c1 Hok1 Hrun) as (Hnext & row & Hrow & Hpend);
  [by rewrite Hcon, lookup_insert_eq|cbn; lia|by rewrite (Hj (q_key q)), decide_True, lookup_insert_eq
  |by eapply live_authority_found|lia|].
exists text, (bt_body b), row. split; [exact (bo_text _ _ _ _ _ Hb)|]. split; [exact (bo_hash _ _ _ _ _ Hb)|].
split; [cbn [sc_hash stored]; rewrite <- (bo_message _ _ _ _ _ Hb);
  by destruct (built_decodes _ _ _ _ _ Hb Hc Hu Hk) as [? _]|].
split; [exact Hrow|]. unfold read_exact_pending. rewrite Hm. cbn [negb expected_transport default from_option].
change (q_worker q, q_incarnation q) with (q_key q). unfold id. rewrite Hlive, Hhead.
rewrite (proj2 (Z.leb_gt _ _)) by lia. rewrite Hrow. case_bool_decide as Hp; [|done]. rewrite (Hpend Hp).
rewrite (open_built _ _ _ _ w c1 _ r' b text _ _ Hb Hc Hu Hk Hseal Hiv Hroot). by case_bool_decide.
Qed.

End ReadBack.

(** ** Instances *)

Lemma empty_serving : other_change empty_store serving.
Proof.
  split; [done|]. intros k. cbn [connections empty_store serving]. rewrite lookup_empty.
  destruct (decide (KEY = k)) as [<-|Hne]; [by rewrite lookup_singleton_eq|by rewrite lookup_singleton_ne].
Qed.

Lemma empty_ok : store_ok empty_store.
Proof. intros k. cbn [connections empty_store]. by rewrite lookup_empty. Qed.
Lemma serving_ok : store_ok serving.
Proof. exact (proj1 (other_change_good _ _ empty_serving empty_ok)). Qed.
Lemma closing_ok : store_ok closing.
Proof. exact (proj1 (commit_command_good now (Ok RING) close_request serving serving_ok)). Qed.

Lemma run_to_closing : run empty_store [] closing.
Proof.
  apply (run_step empty_store None serving [] closing); [apply step_other, empty_serving|].
  apply (run_step serving None closing [] closing); [apply step_commit|constructor].
Qed.

Lemma head_registered :
  register_delivery now head_command true WORKER INCARNATION SERVER true closing = (Ok true, closing).
Proof.
  destruct (register_delivery now head_command true WORKER INCARNATION SERVER true closing) as [r s'] eqn:E.
  destruct (register_ok _ _ _ _ _ _ _ _ _ _ E) as [-> _]. f_equal.
  assert (Hr : (register_delivery now head_command true WORKER INCARNATION SERVER true closing).1 = Ok true)
    by (vm_compute; reflexivity).
  by rewrite E in Hr.
Qed.

Lemma run_twice : run closing [(KEY, head_command); (KEY, head_command)] closing.
Proof.
  pose proof (step_register _ _ _ _ _ _ _ _ _ head_registered) as Hs.
  apply (run_step closing (Some (KEY, head_command)) closing [(KEY, head_command)] closing); [exact Hs|].
  apply (run_step closing (Some (KEY, head_command)) closing [] closing); [exact Hs|constructor].
Qed.

Lemma journal_dense_and_bounded_witness : pending_bytes (journal closing KEY) <= MAX_PENDING_BYTES.
Proof.
  refine (proj1 (proj2 (proj2 (proj2 (proj2 (journal_dense_and_bounded empty_store [] closing KEY
    (default idle_worker (connections closing !! KEY)) _ _ run_to_closing _))))));
    [reflexivity|reflexivity|vm_compute; reflexivity].
Defined.

Lemma delivered_in_order_witness : same_command head_command head_command.
Proof.
  exact (proj2 (delivered_in_order closing _ closing [] [] [] KEY head_command head_command closing_ok run_twice
    eq_refl) eq_refl).
Defined.

(** The erasure of the user's commands, with the command still pending. *)
Definition erased_store : store := (atomic (erase_account_commands now [USER]) closing).2.
Definition erased_result : result exn Z := (atomic (erase_account_commands now [USER]) closing).1.

Lemma erased_store_ok : erase_account_commands now [USER] closing = Ok (1, erased_store).
Proof.
  assert (Hr : erased_result = Ok 1) by (vm_compute; reflexivity).
  unfold erased_store, erased_result, atomic in *.
  destruct (erase_account_commands now [USER] closing) as [[n s]|e]; [|done]. by injection Hr as ->.
Qed.

Lemma erased_never_delivered_witness :
  exists r', journal erased_store KEY !! 1 = Some r' /\ c_body r' = None /\ c_state r' <> Pending.
Proof.
  assert (Hrow : exists r, journal closing KEY !! 1 = Some r /\ c_account r = Some USER).
  { assert (Hb : (c_account <$> journal closing KEY !! 1) = Some (Some USER)) by (vm_compute; reflexivity).
    destruct (journal closing KEY !! 1) as [r|]; [|done]. exists r. split; [done|]. by injection Hb. }
  destruct Hrow as (r & Hr & Ha).
  refine (proj1 (erased_never_delivered now [USER] closing 1 erased_store [] erased_store KEY r 1
    closing_ok erased_store_ok (run_nil _) Hr _)).
  exists USER. split; [exact Ha|]. by left.
Defined.

Definition ack_once : result exn ack_result :=
  (acknowledge now (Ok RING) close_ack WORKER INCARNATION SERVER closing).1.

Lemma acknowledged_once_witness :
  (acknowledge now (Err (KeyRingError "")) close_ack WORKER INCARNATION SERVER closed_store).2 = closed_store.
Proof.
  refine (proj1 (acknowledged_once now (Ok RING) now (Err (KeyRingError "")) close_ack WORKER INCARNATION SERVER
    closing {| ack_recorded := true; ack_obsolete := false; ack_publication := None |} closed_store
    closing_ok _ eq_refl)).
  assert (Hr : ack_once = Ok {| ack_recorded := true; ack_obsolete := false; ack_publication := None |})
    by (vm_compute; reflexivity).
  rewrite <- Hr. apply surjective_pairing.
Defined.

Definition plain_prepared : prepared :=
  {| pre_claim := None; pre_cancel := None; pre_fields := q_fields close_request; pre_desired := None |}.

(** The command is stored, and the next one is committed behind it. *)
Definition stored_first : result exn (stored_command * store) :=
  store_command now (Ok RING) close_request USER plain_prepared idle_worker serving.
Definition next_request : commit_request :=
  {| q_worker := q_worker close_request; q_incarnation := q_incarnation close_request; q_type := q_type close_request;
     q_fields := q_fields close_request; q_nonce := q_nonce close_request; q_transport := q_transport close_request;
     q_account := q_account close_request; q_context := q_context close_request;
     q_job_context := q_job_context close_request; q_callback := q_callback close_request;
     q_id := "99999999-9999-4999-8999-000000000002"; q_iv := q_iv close_request |}.
Definition committed_behind (s : store) : store := (commit_command now (Ok RING) next_request s).2.

Lemma committed_command_reads_back_witness :
  exists c s1 body got, stored_first = Ok (c, s1)
  /\ run s1 [] (committed_behind s1) /\ k_next <$> connections (committed_behind s1) !! KEY = Some 3
  /\ decode_control (RawBytes body)
     = Ok (sorted_dict (set_key "body_hash" (JStr (sc_hash c))
             (command_message close_request (q_fields close_request) idle_worker)))
  /\ read_exact_pending now (Ok RING) WORKER INCARNATION (Some SERVER) (committed_behind s1) = Ok (Some got)
  /\ sc_body got = body /\ sc_id got = sc_id c.
Proof.
  assert (Hsample : match stored_first with
    | Ok (_, s1) => match live_authority now KEY SERVER (committed_behind s1),
                          read_exact_pending now (Ok RING) WORKER INCARNATION (Some SERVER) (committed_behind s1) with
                    | Some c1, Ok (Some _) =>
                        bool_decide (k_floor c1 = 0 /\ k_next <$> connections (committed_behind s1) !! KEY = Some 3)
                    | _, _ => false
                    end
    | Err _ => false end = true) by (vm_compute; reflexivity).
  destruct stored_first as [[c s1]|e] eqn:E; [|discriminate Hsample]. cbv beta iota in Hsample.
  destruct (live_authority now KEY SERVER (committed_behind s1)) as [c1|] eqn:E1; [|discriminate Hsample].
  destruct (read_exact_pending now (Ok RING) WORKER INCARNATION (Some SERVER) (committed_behind s1))
    as [[got|]|] eqn:Eread; [|discriminate Hsample|discriminate Hsample].
  apply bool_decide_eq_true in Hsample as [Hf Hnext].
  pose proof E as E'. unfold stored_first in E'.
  assert (Hrun : run s1 [] (committed_behind s1)) by (exact (run_step s1 None _ [] _ (step_commit now (Ok RING) next_request s1) (run_nil _))).
  assert (Hclean : clean (JDict (command_message close_request (q_fields close_request) idle_worker))).
  { vm_compute. repeat constructor; apply (bool_decide_unpack _); vm_compute; exact I. }
  assert (Hkeys : "body_hash" ∉ keys (command_message close_request (q_fields close_request) idle_worker)).
  { apply (bool_decide_unpack _). vm_compute. exact I. }
  assert (Hutf : utf8_texts (JDict (command_message close_request (q_fields close_request) idle_worker)) = true)
    by (vm_compute; reflexivity).
  assert (Hhead : k_floor c1 + 1 = 1) by lia.
  destruct (committed_command_reads_back now close_request USER plain_prepared idle_worker serving c s1 []
    (committed_behind s1) now RING RING SERVER c1 serving_ok (lookup_singleton_eq KEY idle_worker) Hclean
    Hutf Hkeys eq_refl eq_refl E' Hrun eq_refl E1 Hhead) as (text & body & row & _ & _ & Hdec & _ & Hread).
  change (q_worker close_request) with WORKER in Hread. change (q_incarnation close_request) with INCARNATION in Hread.
  rewrite Eread in Hread. case_bool_decide; [|discriminate Hread]. case_bool_decide; [|discriminate Hread].
  injection Hread as ->. exists c, s1, body. eexists.
  exact (conj eq_refl (conj Hrun (conj Hnext (conj Hdec (conj Eread (conj eq_refl eq_refl)))))).
Defined.

Lemma floor_loop_finishes_witness :
  exists floor, advance_floor (fun n => Ok (n <=? 3)) 0 10 = Ok floor /\ 0 <= floor < 10.
Proof.
  destruct (floor_loop_finishes (fun n => Ok (n <=? 3)) 0 10) as (floor & H1 & H2 & _); [lia|by eauto|].
  exists floor. split; [exact H1|exact H2].
Defined.
