(* ===== verification/SchedulerLease.v ===== *)
(** * The regional lease and the grants under it

    Models the first half of src/backend/app/worker_authority.py: the lease one
    scheduler process holds on a region, the loop that keeps it, the row a
    worker gets when it registers, and the grant that lets it be given work.

    A process is named by its [SCHEDULER_OWNER_ID]; its global [_lease] is an
    entry of [au_leases].  [clock_timestamp()] moves on within a statement, so
    each occurrence has a reading of its own: those of a [moment], and the
    explicit [t_...] arguments where a statement has more. *)

From S2P Require Import Prelude PyFloat Hashes Json JsonFacts Protocol6 Uuid Transactions AccountStore CommandTables CommandSubjects KeyRing CommandStore.
Open Scope Z_scope.

Definition REGION : string := "local".
Definition LEASE_SECONDS : Z := 10.
Definition HEARTBEAT_SECONDS : Z := 90.
Definition seconds (n : Z) : Z := n * 1000000.

Record scheduler_lease := {
  sl_region : string; sl_owner : string; sl_epoch : Z; sl_id : string; sl_expires : Z
}.
Definition of_lease (region : string) (l : lease) : scheduler_lease :=
  {| sl_region := region; sl_owner := l_owner l; sl_epoch := l_epoch l; sl_id := l_id l;
     sl_expires := l_expires l |}.

(** The tables, and the lease each process remembers. *)
Record authority := { au_store : store; au_leases : gmap string scheduler_lease }.
Definition with_store (s : store) (a : authority) : authority :=
  {| au_store := s; au_leases := au_leases a |}.
Definition on_store {A} (t : txn store A) : action authority A := fun a =>
  match t (au_store a) with Ok (x, s) => (Ok x, with_store s a) | Err e => (Err e, a) end.
Definition remember (owner : string) (l : option scheduler_lease) (a : authority) : authority :=
  {| au_store := au_store a; au_leases := partial_alter (fun _ => l) owner (au_leases a) |}.

Definition unavailable {A} (msg : string) : txn store A := raise (AuthorityUnavailable msg).
Definition require_authority (b : bool) (msg : string) : txn store unit :=
  if b then mret tt else unavailable msg.

(** ** The lease *)

Section Lease.
Variable m : moment.

(** The row after [INSERT ... ON CONFLICT (region) DO UPDATE]; [None] when its
    condition keeps the row of another owner. *)
Definition taken_lease (lease_id : string) (t_epoch t_lease : Z) (current : option lease) : option lease :=
let expires := e_write_clock m + seconds LEASE_SECONDS in
match current with
| None => Some {| l_owner := e_scheduler m; l_epoch := 1; l_id := lease_id; l_expires := expires |}
| Some l =>
    let mine := bool_decide (l_owner l = e_scheduler m) in
    if mine || (l_expires l <=? e_deadline_clock m) then
      Some {| l_owner := e_scheduler m;
              l_epoch := if mine && (t_epoch <? l_expires l) then l_epoch l else l_epoch l + 1;
              l_id := if mine && (t_lease <? l_expires l) then l_id l else lease_id;
              l_expires := expires |}
    else None
end.

Definition set_lease_expires (t : Z) (c : connection) : connection :=
{| k_transport := k_transport c; k_region := k_region c; k_epoch := k_epoch c; k_lease := k_lease c;
   k_lease_expires := t; k_nonce := k_nonce c; k_grant_expires := k_grant_expires c;
   k_grant_ready := k_grant_ready c; k_next := k_next c; k_floor := k_floor c;
   k_lifecycle := k_lifecycle c; k_closed := k_closed c; k_envelope := k_envelope c |}.

(** [UPDATE worker_connections SET lease_expires_at] of the open rows under a
    lease. *)
Definition under_lease (region : string) (l : lease) (c : connection) : bool :=
bool_decide (k_region c = region) && (k_epoch c =? l_epoch l) && bool_decide (k_lease c = l_id l)
&& none (k_closed c).
Definition extend_connections (region : string) (l : lease) : store -> store :=
on_connections (fmap (fun c => if under_lease region l c then set_lease_expires (l_expires l) c else c)).

(** An owner epoch is a bigint. *)
Definition write_lease (region : string) (l : lease) : txn store scheduler_lease :=
if MAX_SEQUENCE <? l_epoch l then raise (IntegrityError "bigint out of range")
else
  _ ← write (on_leases (<[region := l]>));
  _ ← write (extend_connections region l);
  mret (of_lease region l).

Definition acquire_in (region lease_id : string) (t_epoch t_lease : Z) : txn store scheduler_lease :=
current ← read (fun s => leases s !! region);
match taken_lease lease_id t_epoch t_lease current with
| None => unavailable "regional scheduler lease is held"
| Some l => write_lease region l
end.

Definition acquire_scheduler_lease (region lease_id : string) (t_epoch t_lease : Z)
: action authority scheduler_lease :=
if negb (e_connected m) then fail_with (AuthorityUnavailable "durable authority unavailable")
else
  l ← on_store (acquire_in region lease_id t_epoch t_lease);
  _ ← perform (remember (e_scheduler m) (Some l));
  mret l.

(** [None]: no row matched. *)
Definition renewed_lease (mine : scheduler_lease) (current : option lease) : option lease :=
match current with
| Some l =>
    if bool_decide (l_owner l = e_scheduler m) && (l_epoch l =? sl_epoch mine)
       && bool_decide (l_id l = sl_id mine) && (e_deadline_clock m <? l_expires l)
    then Some {| l_owner := l_owner l; l_epoch := l_epoch l; l_id := l_id l;
                 l_expires := e_write_clock m + seconds LEASE_SECONDS |}
    else None
| None => None
end.

Definition renew_in (mine : scheduler_lease) : txn store (option scheduler_lease) :=
current ← read (fun s => leases s !! sl_region mine);
match renewed_lease mine current with
| None => mret None
| Some l => renewed ← write_lease (sl_region mine) l; mret (Some renewed)
end.

Definition current_lease (a : authority) : option scheduler_lease := au_leases a !! e_scheduler m.

Definition renew_scheduler_lease : action authority scheduler_lease := fun a =>
match current_lease a with
| Some mine =>
    if negb (e_connected m) then (Err (AuthorityUnavailable "regional scheduler lease is unavailable"), a)
    else
      (renewed ← on_store (renew_in mine);
       match renewed with
       | None =>
           _ ← perform (remember (e_scheduler m) None);
           fail_with (AuthorityUnavailable "regional scheduler lease was lost")
       | Some l => _ ← perform (remember (e_scheduler m) (Some l)); mret l
       end) a
| None => (Err (AuthorityUnavailable "regional scheduler lease is unavailable"), a)
end.

(** One pass of the maintenance loop.  The 2 s bound or a failure of the
    database may cut the call before its commit, or after it and before the
    process remembers the lease. *)
Inductive cut : Type := Undisturbed | CutBefore | CutAfter.

Definition maintain_call (lease_id : string) (t_epoch t_lease : Z) : action authority scheduler_lease :=
fun a =>
match current_lease a with
| None => acquire_scheduler_lease REGION lease_id t_epoch t_lease a
| Some _ => renew_scheduler_lease a
end.

(** The seconds the loop then sleeps. *)
Definition maintain_pass (c : cut) (lease_id : string) (t_epoch t_lease : Z) (a : authority)
: Z * authority :=
if negb (e_connected m) then (3, a)
else match c with
| CutBefore => (1, a)
| CutAfter => (1, with_store (au_store (maintain_call lease_id t_epoch t_lease a).2) a)
| Undisturbed =>
    match maintain_call lease_id t_epoch t_lease a with
    | (Ok _, a') | (Err (AuthorityUnavailable _), a') => (3, a')
    | (Err _, a') => (1, a')
    end
end.

End Lease.

(** ** Registration *)

(** What a worker says of itself in its hello. *)
Record registration := {
  g_worker : string; g_incarnation : string; g_protocol : Z; g_nonce : string;
  g_capabilities : list json; g_manifests : list json; g_device : option string;
  g_memory : option string; g_slots : Z; g_p95 : json; g_batch : json
}.

(** The live lease of the region, its row locked. *)
Definition live_lease (m : moment) (s : store) : option lease :=
  l ← leases s !! REGION; if e_deadline_clock m <? l_expires l then Some l else None.

Definition non_empty_text (v : json) : bool :=
  match v with JStr t => negb (bool_decide (t = "")) | _ => false end.

Definition execution_envelope (manifests : list json) (device memory p95 batch : json) : dict * bool :=
  ([("device", device); ("memory_mode", memory); ("models", JList manifests);
    ("realtime_p95_ms", or_empty p95); ("realtime_batch_ms", or_empty batch)],
   negb (bool_decide (manifests = [])) && non_empty_text device && non_empty_text memory).

(** The rows a newcomer of a worker id replaces: left behind by this process,
    or fenced out by a newer lease. *)
Definition replaced (m : moment) (worker : string) (l : lease) (k : worker_key) (c : connection) : bool :=
  bool_decide (k.1 = worker) && none (k_closed c)
  && (bool_decide (k_transport c = e_transport m) || negb (k_epoch c =? l_epoch l)
      || negb (bool_decide (k_lease c = l_id l))).

Definition open_worker (worker : string) (s : store) : bool :=
  bool_decide (map_Exists (fun (k : worker_key) c => k.1 = worker /\ none (k_closed c) = true) (connections s)).

(** [INSERT INTO worker_connections] *)
Definition insert_connection (k : worker_key) (c : connection) : txn store unit := fun s =>
  if some (connections s !! k) then Err (IntegrityError "worker_connections_pkey")
  else if open_worker k.1 s then Err (IntegrityError "worker_connections_one_current")
  else if negb ((ev_protocol (k_envelope c) =? 5) || (ev_protocol (k_envelope c) =? 6))
  then Err (IntegrityError "worker_connections_protocol")
  else if k_epoch c <? 1 then Err (IntegrityError "worker_connections_epoch")
  else if ev_slots (k_envelope c) <? 0 then Err (IntegrityError "worker_connections_slots")
  else Ok (tt, on_connections (<[k := c]>) s).

Section Workers.
Context `{Driver}.
Variable m : moment.

Definition registered (g : registration) (l : lease) (capabilities manifests envelope : json) (ready : bool)
: connection :=
{| k_transport := e_transport m; k_region := REGION; k_epoch := l_epoch l; k_lease := l_id l;
   k_lease_expires := l_expires l; k_nonce := g_nonce g; k_grant_expires := l_expires l;
   k_grant_ready := false; k_next := 1; k_floor := 0; k_lifecycle := Connecting; k_closed := None;
   k_envelope :=
     {| ev_protocol := g_protocol g; ev_slots := g_slots g; ev_capabilities := capabilities;
        ev_manifests := manifests; ev_device := g_device g; ev_memory := g_memory g;
        ev_execution := envelope; ev_revision := Z.b2z ready; ev_seen := e_write_clock m;
        ev_expires := e_write_clock m + seconds HEARTBEAT_SECONDS; ev_observations := None |} |}.

Definition register_in (g : registration) : txn store scheduler_lease :=
current ← read (live_lease m);
match current with
| None => unavailable "regional scheduler lease was lost"
| Some l =>
    _ ← require_authority (bool_decide (l_owner l = e_scheduler m))
          "regional scheduler lease is held by another owner";
    used ← read (fun s => bool_decide (map_Exists (fun (k : worker_key) _ => k.2 = g_incarnation g)
                                         (connections s)));
    _ ← require_authority (negb used) "worker incarnation was already used";
    _ ← write (on_connections (map_imap (fun k c =>
          Some (if replaced m (g_worker g) l k c then close_connection (e_write_clock m) true c else c))));
    connected ← read (open_worker (g_worker g));
    _ ← require_authority (negb connected) "worker id is connected to another owner";
    let '(envelope, ready) := execution_envelope (g_manifests g) (opt_str (g_device g))
                                (opt_str (g_memory g)) (g_p95 g) (g_batch g) in
    capabilities ← lift (jsonb (JList (g_capabilities g)));
    manifests ← lift (jsonb (JList (g_manifests g)));
    envelope ← lift (jsonb (JDict envelope));
    _ ← insert_connection (g_worker g, g_incarnation g)
          (registered g l capabilities manifests envelope ready);
    mret (of_lease REGION l)
end.

Definition register_worker (g : registration) : action store scheduler_lease :=
if negb (e_connected m) then fail_with (AuthorityUnavailable "durable authority unavailable")
else atomic (register_in g).

(** The open row of a worker that is connected to this process. *)
Definition own_connection (k : worker_key) (s : store) : option connection :=
c ← connections s !! k;
if bool_decide (k_transport c = e_transport m) && none (k_closed c) then Some c else None.

Definition set_envelope (f : worker_envelope -> worker_envelope) (c : connection) : connection :=
{| k_transport := k_transport c; k_region := k_region c; k_epoch := k_epoch c; k_lease := k_lease c;
   k_lease_expires := k_lease_expires c; k_nonce := k_nonce c; k_grant_expires := k_grant_expires c;
   k_grant_ready := k_grant_ready c; k_next := k_next c; k_floor := k_floor c;
   k_lifecycle := k_lifecycle c; k_closed := k_closed c; k_envelope := f (k_envelope c) |}.
Definition set_lifecycle (l : lifecycle) (c : connection) : connection :=
{| k_transport := k_transport c; k_region := k_region c; k_epoch := k_epoch c; k_lease := k_lease c;
   k_lease_expires := k_lease_expires c; k_nonce := k_nonce c; k_grant_expires := k_grant_expires c;
   k_grant_ready := k_grant_ready c; k_next := k_next c; k_floor := k_floor c;
   k_lifecycle := l; k_closed := k_closed c; k_envelope := k_envelope c |}.

(** [previous.get(key)] *)
Definition previous (e : json) (key : string) : result exn json :=
match e with JDict d => Ok (get d key) | _ => Err (AttributeError "get") end.

Definition new_models (manifests execution : json) (ready : bool) (e : worker_envelope) : worker_envelope :=
{| ev_protocol := ev_protocol e; ev_slots := ev_slots e; ev_capabilities := ev_capabilities e;
   ev_manifests := manifests; ev_device := ev_device e; ev_memory := ev_memory e;
   ev_execution := execution; ev_revision := if ready then Z.max (ev_revision e) 1 else 0;
   ev_seen := ev_seen e; ev_expires := ev_expires e; ev_observations := ev_observations e |}.

Definition update_models_in (k : worker_key) (manifests : list json) : txn store unit :=
l ← read (live_lease m);
row ← read (fun s => c ← own_connection k s; if bool_decide (k_region c = REGION) then Some c else None);
match l, row with
| Some l, Some c =>
    _ ← require_authority ((k_epoch c =? l_epoch l) && bool_decide (k_lease c = l_id l))
          "worker authority is no longer current";
    let before := ev_execution (k_envelope c) in
    device ← lift (previous before "device");
    memory ← lift (previous before "memory_mode");
    p95 ← lift (previous before "realtime_p95_ms");
    batch ← lift (previous before "realtime_batch_ms");
    let '(envelope, ready) := execution_envelope manifests device memory p95 batch in
    manifests ← lift (jsonb (JList manifests));
    envelope ← lift (jsonb (JDict envelope));
    update_connection k (set_envelope (new_models manifests envelope ready))
| _, _ => unavailable "worker authority is no longer current"
end.

(** A running job whose current attempt is another incarnation's of this
    worker. *)
Definition blocked (k : worker_key) (s : store) : bool :=
bool_decide (map_Exists (fun (id : string) j =>
  bool_decide (jb_state j = running) &&
  match job_attempts s !! (id, jb_dispatch j) with
  | Some a => bool_decide (ja_worker a = k.1) && negb (bool_decide (ja_incarnation a = k.2))
  | None => false
  end = true) (job_rows s)).

Definition activate_in (k : worker_key) : txn store bool :=
l ← read (live_lease m);
worker ← read (own_connection k);
match l, worker with
| Some l, Some c =>
    if negb (bool_decide (k_lifecycle c = Connecting)) || (ev_revision (k_envelope c) <? 1)
       || negb (truthy (ev_manifests (k_envelope c)))
       || negb (k_epoch c =? l_epoch l) || negb (bool_decide (k_lease c = l_id l))
    then mret false
    else
      stuck ← read (blocked k);
      if (stuck : bool) then mret false
      else _ ← update_connection k (set_lifecycle Ready); mret true
| _, _ => mret false
end.

Definition activate_initial_worker (k : worker_key) : action store bool :=
if negb (e_connected m) then mret false else atomic (activate_in k).

Definition update_worker_models (k : worker_key) (manifests : list json) : action store unit :=
if negb (e_connected m) then fail_with (AuthorityUnavailable "durable authority unavailable")
else _ ← atomic (update_models_in k manifests); _ ← activate_initial_worker k; mret tt.

(** ** Heartbeats and grants *)

(** [coalesce(observations->'frame_p95_ms', '{}') || new] *)
Definition touched (frame_p95_ms : option dict) (e : worker_envelope) : worker_envelope :=
{| ev_protocol := ev_protocol e; ev_slots := ev_slots e; ev_capabilities := ev_capabilities e;
   ev_manifests := ev_manifests e; ev_device := ev_device e; ev_memory := ev_memory e;
   ev_execution := ev_execution e; ev_revision := ev_revision e; ev_seen := e_write_clock m;
   ev_expires := e_write_clock m + seconds HEARTBEAT_SECONDS;
   ev_observations := match frame_p95_ms with
                      | None | Some [] => ev_observations e
                      | Some new => Some (update_with new (default [] (ev_observations e))) end |}.

(** [EXISTS (SELECT 1 FROM scheduler_leases ...)]: the lease the row was
    registered under is live. *)
Definition lease_is_current (c : connection) (s : store) : bool :=
match leases s !! k_region c with
| Some l => (l_epoch l =? k_epoch c) && bool_decide (l_id l = k_lease c) && (e_deadline_clock m <? l_expires l)
| None => false
end.

Definition touch_in (k : worker_key) (frame_p95_ms : option dict) : txn store unit :=
worker ← read (own_connection k);
match worker with
| Some c =>
    current ← read (lease_is_current c);
    _ ← require_authority (negb (bool_decide (k_lifecycle c = Closed)) && current)
          "worker authority is no longer current";
    update_connection k (set_envelope (touched frame_p95_ms))
| None => unavailable "worker authority is no longer current"
end.

Definition touch_worker (k : worker_key) (frame_p95_ms : option dict) : action store unit :=
if negb (e_connected m) then fail_with (AuthorityUnavailable "durable authority unavailable")
else atomic (touch_in k frame_p95_ms).

Record work_grant := {
  wg_worker : string; wg_incarnation : string; wg_region : string; wg_epoch : Z; wg_lease : string;
  wg_lease_expires : Z; wg_nonce : string; wg_ready : bool; wg_remaining_ms : Z
}.

(** Ready, at one reading of the clock. *)
Definition grant_ready (l : lease) (t : Z) (c : connection) : bool :=
bool_decide (k_lifecycle c = Ready) && (0 <? ev_revision (k_envelope c))
&& (l_epoch l =? k_epoch c) && bool_decide (l_id l = k_lease c) && (t <? l_expires l).

Definition granted_connection (nonce : string) (l : lease) (t_case : Z) (c : connection) : connection :=
{| k_transport := k_transport c; k_region := k_region c; k_epoch := k_epoch c; k_lease := k_lease c;
   k_lease_expires := l_expires l; k_nonce := nonce;
   k_grant_expires := if grant_ready l t_case c
                      then Z.min (l_expires l) (e_write_clock m + seconds 10) else e_write_clock m;
   k_grant_ready := grant_ready l (e_deadline_clock m) c; k_next := k_next c; k_floor := k_floor c;
   k_lifecycle := k_lifecycle c; k_closed := k_closed c; k_envelope := k_envelope c |}.

Definition renew_grant_in (k : worker_key) (nonce : string) (t_case t_return : Z) : txn store work_grant :=
worker ← read (own_connection k);
l ← read (fun s => c ← worker; leases s !! k_region c);
match worker, l with
| Some c, Some l =>
    _ ← require_authority (negb (bool_decide (k_nonce c = nonce))) "worker connection is no longer current";
    let c := granted_connection nonce l t_case c in
    _ ← update_connection k (fun _ => c);
    mret {| wg_worker := k.1; wg_incarnation := k.2; wg_region := k_region c; wg_epoch := k_epoch c;
            wg_lease := k_lease c; wg_lease_expires := k_lease_expires c; wg_nonce := k_nonce c;
            wg_ready := k_grant_ready c;
            wg_remaining_ms := if k_grant_ready c then (k_grant_expires c - t_return) / 1000 else 0 |}
| _, _ => unavailable "worker connection is no longer current"
end.

(** A failed activation is logged and does not stop the renewal. *)
Definition renew_worker_grant (k : worker_key) (nonce : string) (t_case t_return : Z) : action store work_grant :=
if negb (e_connected m) then fail_with (AuthorityUnavailable "durable authority unavailable")
else
  _ ← swallow (_ ← activate_initial_worker k; mret tt);
  atomic (renew_grant_in k nonce t_case t_return).

End Workers.
