(* ===== verification/LeaseFacts.v ===== *)
(** * How leases and grants evolve

    What a transaction of SchedulerLease.v does to the leases and to the
    columns of a connection that tie it to a lease, as relations between two
    stores; and the bound that a lease puts on what is held under it. *)

From S2P Require Import Prelude PyFloat Hashes Json JsonFacts Protocol6 Uuid Transactions AccountStore CommandTables CommandSubjects KeyRing CommandStore CommandFacts SchedulerLease.
Open Scope Z_scope.

Lemma require_authority_ok b msg s a s' : require_authority b msg s = Ok (a, s') -> b = true /\ s' = s.
Proof. destruct b; [|done]. intros H. by apply mret_ok in H as [_ ->]. Qed.

Ltac lease_inv :=
  repeat match goal with
  | H : require_authority _ _ _ = Ok (_, ?s') |- _ => apply require_authority_ok in H as [? H]; subst s'
  | H : unavailable _ _ = Ok _ |- _ => discriminate H
  | _ => progress cmd_inv
  end.

(** ** Leases *)

(** [l'] is what [l] became between the clock readings [t] and [t']: the epoch
    does not fall, one epoch has one owner, and a lease is only replaced once
    it has expired. *)
Record lease_follows (t t' : Z) (l l' : lease) : Prop := {
  lf_epoch : l_epoch l <= l_epoch l';
  lf_owner : l_epoch l' = l_epoch l -> l_owner l' = l_owner l;
  lf_kept : l_epoch l' = l_epoch l -> l_id l' = l_id l -> l_expires l <= l_expires l';
  lf_replaced : (l_epoch l' = l_epoch l -> l_id l' <> l_id l) -> l_expires l <= t';
  lf_written : l' = l \/ t <= l_expires l'
}.

Lemma lease_follows_refl t t' l : lease_follows t t' l l.
Proof. split; [lia|done|lia| |by left]. intros Hn. by destruct Hn. Qed.

Lemma lease_follows_trans t1 t2 t3 l1 l2 l3 :
  t1 <= t2 <= t3 -> lease_follows t1 t2 l1 l2 -> lease_follows t2 t3 l2 l3 -> lease_follows t1 t3 l1 l3.
Proof.
  intros Ht [E1 O1 K1 R1 W1] [E2 O2 K2 R2 W2]. split.
  - lia.
  - intros He. rewrite O2, O1 by lia. done.
  - intros He Hi. destruct (decide (l_id l2 = l_id l1)) as [H12|H12].
    + rewrite K1 by (lia || done). apply K2; [lia|congruence].
    + assert (l_expires l1 <= t2) by (by apply R1). destruct W2 as [->|W2]; [congruence|lia].
  - intros Hne. destruct (decide (l_epoch l2 = l_epoch l1 /\ l_id l2 = l_id l1)) as [[He Hi]|Hn].
    + rewrite K1 by done. apply R2. intros He3 Hi3. apply Hne; congruence.
    + assert (l_expires l1 <= t2); [|lia]. apply R1. intros He Hi. by apply Hn.
  - destruct W2 as [->|W2]; [|right; lia]. exact W1.
Qed.

Definition leases_follow (t t' : Z) (s s' : store) : Prop :=
  forall r l, leases s !! r = Some l -> exists l', leases s' !! r = Some l' /\ lease_follows t t' l l'.

(** A lease runs at most its full length from now. *)
Definition leases_bounded (t : Z) (s : store) : Prop :=
  forall r l, leases s !! r = Some l -> l_expires l <= t + seconds LEASE_SECONDS.

(** Something held under the lease [(epoch, id)] of a region until [expires]:
    the time is up, or that lease is the current one and lasts as long. *)
Definition held (t : Z) (s : store) (region : string) (epoch : Z) (id : string) (expires : Z) : Prop :=
  exists l, leases s !! region = Some l /\ epoch <= l_epoch l
    /\ (epoch = l_epoch l -> id = l_id l -> expires <= Z.max (l_expires l) t)
    /\ ((epoch = l_epoch l -> id <> l_id l) -> expires <= t).

Lemma held_live t s region epoch id expires :
  held t s region epoch id expires -> t < expires ->
  exists l, leases s !! region = Some l /\ l_epoch l = epoch /\ l_id l = id /\ expires <= l_expires l.
Proof.
  intros (l & Hl & He & Hk & Hr) Ht. exists l. split; [done|].
  destruct (decide (epoch = l_epoch l /\ id = l_id l)) as [[-> ->]|Hn].
  { specialize (Hk eq_refl eq_refl). repeat split; try done. lia. }
  exfalso. assert (expires <= t); [|lia]. apply Hr. intros E1 E2. by apply Hn.
Qed.

Lemma held_evolves t t' s s' region epoch id expires :
  t <= t' -> leases_follow t t' s s' -> held t s region epoch id expires -> held t' s' region epoch id expires.
Proof.
  intros Ht Hf (l & Hl & He & Hk & Hr). destruct (Hf _ _ Hl) as (l' & Hl' & [E O K R W]).
  exists l'. split; [done|]. split; [lia|].
  destruct (decide (epoch = l_epoch l /\ id = l_id l)) as [[-> ->]|Hn].
  - specialize (Hk eq_refl eq_refl). split.
    + intros He' Hi'. specialize (K (eq_sym He') (eq_sym Hi')). lia.
    + intros Hne. enough (l_expires l <= t') by lia. apply R. intros E1 E2. by apply Hne.
  - assert (expires <= t) by (apply Hr; intros E1 E2; by apply Hn). split; [|lia].
    intros E1 E2. destruct W as [->|W]; [by destruct Hn|lia].
Qed.

Lemma held_now t s region l :
  leases s !! region = Some l -> held t s region (l_epoch l) (l_id l) (l_expires l).
Proof. intros Hl. exists l. split; [done|]. split; [lia|]. split; [lia|]. intros Hn. by destruct Hn. Qed.

(** The readings of a step lie between the clock before and after it. *)
Definition within (t t' : Z) (readings : list Z) : Prop :=
  t <= t' /\ Forall (fun r => t <= r <= t') readings.

Section Taking.
Variables (m : moment) (t t' : Z).

Lemma taken_follows lease_id te tl l l' :
within t t' [e_deadline_clock m; e_write_clock m; te; tl] ->
l_expires l <= t + seconds LEASE_SECONDS ->
taken_lease m lease_id te tl (Some l) = Some l' -> lease_follows t t' l l'.
Proof.
intros [Ht Hr] Hb. rewrite !Forall_cons in Hr. destruct Hr as (Hd & Hw & He & Hl & _).
unfold taken_lease. destruct (_ || _) eqn:Ehold; [|done]. intros [= <-].
apply orb_true_iff in Ehold. unfold seconds, LEASE_SECONDS in *.
case_bool_decide as Hmine.
- destruct (te <? l_expires l) eqn:E1, (tl <? l_expires l) eqn:E2; cbn [andb];
    (split; cbn [l_epoch l_owner l_id l_expires]; [lia|by auto|lia|intros Hn|right; lia]);
    try lia; by destruct Hn.
- cbn [andb]. destruct Ehold as [?|Hexp]; [done|]. apply Z.leb_le in Hexp.
  split; cbn [l_epoch l_owner l_id l_expires]; [lia..|right; lia].
Qed.

Lemma renewed_follows mine l l' :
within t t' [e_deadline_clock m; e_write_clock m] ->
l_expires l <= t + seconds LEASE_SECONDS ->
renewed_lease m mine (Some l) = Some l' -> lease_follows t t' l l'.
Proof.
intros [Ht Hr] Hb. rewrite !Forall_cons in Hr. destruct Hr as (Hd & Hw & _).
unfold renewed_lease. destruct (_ && _) eqn:E; [|done]. intros [= <-].
unfold seconds, LEASE_SECONDS in *.
split; cbn [l_epoch l_owner l_id l_expires]; [lia|done|lia| |right; lia].
intros Hn. by destruct Hn.
Qed.

End Taking.

(** ** Connections *)

(** The columns of a row no heartbeat or grant changes. *)
Record row_kept (c c' : connection) : Prop := {
  rk_transport : k_transport c' = k_transport c;
  rk_region : k_region c' = k_region c;
  rk_epoch : k_epoch c' = k_epoch c;
  rk_lease : k_lease c' = k_lease c;
  rk_next : k_next c' = k_next c;
  rk_floor : k_floor c' = k_floor c;
  rk_closed : k_closed c' = k_closed c
}.

(** One row may have been rewritten, and [P] relates it to what it was. *)
Definition rewrites (k : worker_key) (P : connection -> connection -> Prop) (s s' : store) : Prop :=
  s' = s \/ exists c c', connections s !! k = Some c /\ P c c' /\ s' = on_connections (<[k := c']>) s.

Lemma update_connection_rewrites k f s u s' :
  update_connection k f s = Ok (u, s') -> rewrites k (fun c c' => c' = f c) s s'.
Proof.
  unfold update_connection. destruct (connections s !! k) as [c|] eqn:Hc.
  - destruct (connection_contract _); [|done]. intros [= _ <-]. right. eauto.
  - intros [= _ <-]. by left.
Qed.

Lemma rewrites_impl k (P Q : connection -> connection -> Prop) s s' :
  (forall c c', connections s !! k = Some c -> P c c' -> Q c c') -> rewrites k P s s' -> rewrites k Q s s'.
Proof. intros HPQ [->|(c & c' & Hc & HP & ->)]; [by left|right]. exists c, c'. eauto. Qed.

Section Updates.
Context `{Driver}.
Variable m : moment.

Lemma live_lease_ok s l :
live_lease m s = Some l -> leases s !! REGION = Some l /\ e_deadline_clock m < l_expires l.
Proof.
unfold live_lease. destruct (leases s !! REGION) as [l'|]; [|done]. simpl.
destruct (_ <? _) eqn:E; [|done]. intros [= ->]. split; [done|lia].
Qed.

Lemma own_connection_ok k s c :
own_connection m k s = Some c ->
connections s !! k = Some c /\ k_transport c = e_transport m /\ k_closed c = None.
Proof.
unfold own_connection. destruct (connections s !! k) as [c'|]; [|done]. simpl.
destruct (_ && _) eqn:E; [|done]. intros [= ->]. apply andb_true_iff in E as [->%bool_decide_eq_true E].
unfold none, some in E. by destruct (k_closed c).
Qed.

(** Everything but the grant of a row. *)
Definition enveloped (c c' : connection) : Prop :=
row_kept c c' /\ k_grant_expires c' = k_grant_expires c /\ k_grant_ready c' = k_grant_ready c.

Lemma update_models_ok k manifests s u s' :
update_models_in m k manifests s = Ok (u, s') -> rewrites k enveloped s s'.
Proof.
unfold update_models_in. intros Hrun. lease_inv.
destruct (live_lease m s); [|done]. destruct (c ← _; _) as [c|]; [|done]. lease_inv.
destruct (execution_envelope _ _ _ _ _). lease_inv.
eapply rewrites_impl; [|by eapply update_connection_rewrites]. by intros ? ? _ ->.
Qed.

Lemma activate_ok k s b s' :
activate_in m k s = Ok (b, s') -> rewrites k enveloped s s' /\ (b = true -> exists l c,
  leases s !! REGION = Some l /\ connections s !! k = Some c /\ k_closed c = None
  /\ k_lifecycle c = Connecting /\ k_epoch c = l_epoch l /\ k_lease c = l_id l /\ blocked k s = false).
Proof.
unfold activate_in. intros Hrun. lease_inv.
destruct (live_lease m s) as [l|] eqn:El; [|lease_inv; split; [by left|done]].
destruct (own_connection m k s) as [c|] eqn:Ec; [|lease_inv; split; [by left|done]].
destruct (_ || _) eqn:Eb in Hrun; [lease_inv; split; [by left|done]|]. lease_inv.
destruct (blocked k s) eqn:Ebl; [lease_inv; split; [by left|done]|]. lease_inv.
split; [eapply rewrites_impl; [|by eapply update_connection_rewrites]; by intros ? ? _ ->|].
intros _. exists l, c. apply live_lease_ok in El as [El _]. apply own_connection_ok in Ec as (Ec & _ & Ecl).
rewrite !orb_false_iff, !negb_false_iff, !bool_decide_eq_true in Eb.
destruct Eb as ((((? & _) & _) & ?) & ?). repeat split; try done. lia.
Qed.

Lemma touch_ok k p95 s u s' :
touch_in m k p95 s = Ok (u, s') -> rewrites k enveloped s s'.
Proof.
unfold touch_in. intros Hrun. lease_inv. destruct (own_connection m k s) as [c|]; [|done]. lease_inv.
eapply rewrites_impl; [|by eapply update_connection_rewrites]. by intros ? ? _ ->.
Qed.

(** A renewed grant ends no later than the lease it is under, and at once
    when that lease is not the current one. *)
Definition regranted (nonce : string) (tc : Z) (s : store) (c c' : connection) : Prop :=
row_kept c c' /\ exists l, leases s !! k_region c = Some l /\ c' = granted_connection m nonce l tc c.

Lemma renew_grant_ok k nonce tc tr s g s' :
renew_grant_in m k nonce tc tr s = Ok (g, s') ->
rewrites k (regranted nonce tc s) s s' /\ exists l c,
  connections s !! k = Some c /\ leases s !! k_region c = Some l
  /\ wg_ready g = grant_ready l (e_deadline_clock m) c
  /\ (wg_ready g = true ->
      wg_remaining_ms g = (k_grant_expires (granted_connection m nonce l tc c) - tr) / 1000).
Proof.
unfold renew_grant_in. intros Hrun. lease_inv.
destruct (own_connection m k s) as [c|] eqn:Ec; [|done]. apply own_connection_ok in Ec as (Ec & _ & _).
simpl in Hrun. destruct (leases s !! k_region c) as [l|] eqn:El; [|done]. lease_inv.
match goal with Hu : update_connection _ _ _ = _ |- _ => apply update_connection_rewrites in Hu; rename Hu into Hup end.
split.
- eapply rewrites_impl; [|exact Hup]. intros c1 c2 Hc1 ->. simplify_eq. split; [done|]. eauto.
- exists l, c. repeat split; try done. cbn. by intros ->.
Qed.

(** The rows a newcomer replaces are closed, then its own is there. *)
Definition closed_for (worker : string) (l : lease) (s : store) : gmap worker_key connection :=
map_imap (fun k c => Some (if replaced m worker l k c then close_connection (e_write_clock m) true c else c))
  (connections s).

Lemma closed_for_lookup worker l s k c' :
closed_for worker l s !! k = Some c' -> exists c, connections s !! k = Some c
  /\ c' = if replaced m worker l k c then close_connection (e_write_clock m) true c else c.
Proof.
unfold closed_for. rewrite map_lookup_imap. destruct (connections s !! k) as [c|]; [|done].
intros [= <-]. by exists c.
Qed.

Lemma register_inserts g s r s' :
register_in m g s = Ok (r, s') -> exists l capabilities manifests envelope ready,
  leases s !! REGION = Some l /\ e_deadline_clock m < l_expires l /\ l_owner l = e_scheduler m
  /\ r = of_lease REGION l
  /\ (forall k, is_Some (connections s !! k) -> k.2 <> g_incarnation g)
  /\ open_worker (g_worker g) (on_connections (fun _ => closed_for (g_worker g) l s) s) = false
  /\ s' = on_connections (fun _ => <[(g_worker g, g_incarnation g) :=
            registered m g l capabilities manifests envelope ready]> (closed_for (g_worker g) l s)) s.
Proof.
unfold register_in. intros Hrun. lease_inv. destruct (live_lease m s) as [l|] eqn:El; [|done].
apply live_lease_ok in El as [El Hlive]. lease_inv.
destruct (execution_envelope _ _ _ _ _) as [envelope ready]. lease_inv.
match goal with Hi : insert_connection _ _ _ = _ |- _ => rename Hi into Hins end.
unfold insert_connection in Hins. repeat (case_match; [done|]). injection Hins as <-.
eexists l, _, _, _, ready. split; [done|]. split; [done|]. split; [by eapply bool_decide_eq_true|].
split; [done|]. split; [|split; [|done]].
- intros k [c Hc] Hk. match goal with Hu : negb (bool_decide _) = true |- _ =>
    apply negb_true_iff, bool_decide_eq_false in Hu; apply Hu end. by exists k, c.
- by apply negb_true_iff.
Qed.

End Updates.
