(* ===== verification/SchedulerLeaseSpec.v ===== *)
(** * What leases, registrations and grants promise

    Over any interleaving of the processes' lease calls, the registrations,
    heartbeats and grants of workers, and the other writers of the tables: a
    grant never outlives the lease it is under, two processes never hold a
    region at once, a worker id has one open connection. *)

From S2P Require Import Prelude PyFloat Hashes Json JsonFacts Protocol6 Uuid Transactions AccountStore CommandTables CommandSubjects KeyRing CommandStore CommandFacts SchedulerLease LeaseFacts Samples CommandSamples.
Open Scope Z_scope.

(** ** The system *)

(** The clock of the database, the tables and memories, and the rows that
    lease calls returned and their process has yet to remember. *)
Record system := { sy_clock : Z; sy_authority : authority; sy_returned : list scheduler_lease }.
Definition sy_store (y : system) : store := au_store (sy_authority y).

Definition same_terms (c c' : connection) : Prop :=
  k_region c' = k_region c /\ k_epoch c' = k_epoch c /\ k_lease c' = k_lease c
  /\ k_grant_expires c' = k_grant_expires c.
Definition closed (c : connection) : Prop := k_closed c <> None.

(** What the other modules do to these tables: they leave the leases and the
    terms of a connection alone and open none. *)
Record other_writer (s s' : store) : Prop := {
  ow_leases : leases s' = leases s;
  ow_rows : forall k c', connections s' !! k = Some c' ->
    exists c, connections s !! k = Some c /\ same_terms c c' /\ (closed c -> closed c')
}.

Section System.
Context `{Driver}.

(** A transaction on the tables, with the further clock readings it takes. *)
Inductive table_step (m : moment) : list Z -> store -> store -> Prop :=
| ts_register g s r s' : register_in m g s = Ok (r, s') -> table_step m [] s s'
| ts_models k manifests s u s' : update_models_in m k manifests s = Ok (u, s') -> table_step m [] s s'
| ts_activate k s b s' : activate_in m k s = Ok (b, s') -> table_step m [] s s'
| ts_touch k p95 s u s' : touch_in m k p95 s = Ok (u, s') -> table_step m [] s s'
| ts_grant k nonce tc tr s g s' : renew_grant_in m k nonce tc tr s = Ok (g, s') -> table_step m [tc; tr] s s'
| ts_other s s' : other_writer s s' -> table_step m [] s s'.

Definition readings (m : moment) (more : list Z) : list Z := e_deadline_clock m :: e_write_clock m :: more.

(** What a process remembers it remembers under its own id. *)
Inductive lease_step : system -> system -> Prop :=
| ls_acquire m region id te tl y t' r s' :
    within (sy_clock y) t' (readings m [te; tl]) ->
    acquire_in m region id te tl (sy_store y) = Ok (r, s') ->
    lease_step y {| sy_clock := t'; sy_authority := with_store s' (sy_authority y);
                    sy_returned := r :: sy_returned y |}
| ls_renew m mine y t' r s' :
    within (sy_clock y) t' (readings m []) ->
    renew_in m mine (sy_store y) = Ok (Some r, s') ->
    lease_step y {| sy_clock := t'; sy_authority := with_store s' (sy_authority y);
                    sy_returned := r :: sy_returned y |}
| ls_remember y r :
    r ∈ sy_returned y ->
    lease_step y {| sy_clock := sy_clock y;
                    sy_authority := remember (sl_owner r) (Some r) (sy_authority y);
                    sy_returned := sy_returned y |}
| ls_forget y p :
    lease_step y {| sy_clock := sy_clock y; sy_authority := remember p None (sy_authority y);
                    sy_returned := sy_returned y |}
| ls_table m more y t' s' :
    within (sy_clock y) t' (readings m more) -> table_step m more (sy_store y) s' ->
    lease_step y {| sy_clock := t'; sy_authority := with_store s' (sy_authority y);
                    sy_returned := sy_returned y |}.

Definition lease_run : system -> system -> Prop := rtc lease_step.

(** ** The invariant *)

(** A remembered lease: while its epoch is the region's, so is its owner. *)
Definition remembered (t : Z) (s : store) (r : scheduler_lease) : Prop :=
held t s (sl_region r) (sl_epoch r) (sl_id r) (sl_expires r)
/\ forall l, leases s !! sl_region r = Some l -> sl_epoch r = l_epoch l -> sl_owner r = l_owner l.

Definition one_open (s : store) : Prop := forall (k1 k2 : worker_key) c1 c2,
connections s !! k1 = Some c1 -> connections s !! k2 = Some c2 ->
k_closed c1 = None -> k_closed c2 = None -> k1.1 = k2.1 -> k1 = k2.

Record authority_ok (y : system) : Prop := {
  ao_bounded : leases_bounded (sy_clock y) (sy_store y);
  ao_grants : forall k c, connections (sy_store y) !! k = Some c ->
    held (sy_clock y) (sy_store y) (k_region c) (k_epoch c) (k_lease c) (k_grant_expires c);
  ao_returned : forall r, r ∈ sy_returned y -> remembered (sy_clock y) (sy_store y) r;
  ao_memory : forall p r, au_leases (sy_authority y) !! p = Some r ->
    sl_owner r = p /\ remembered (sy_clock y) (sy_store y) r;
  ao_open : one_open (sy_store y)
}.

(** A row keeps the terms of an earlier one, or is held under a lease now. *)
Definition rows_from (t' : Z) (s s' : store) : Prop :=
forall k c', connections s' !! k = Some c' ->
(exists c, connections s !! k = Some c /\ same_terms c c')
\/ held t' s' (k_region c') (k_epoch c') (k_lease c') (k_grant_expires c').

(** Either the row of a lease is there with its owner, or a later one. *)
Record tables_follow (t t' : Z) (s s' : store) : Prop := {
  tf_clock : t <= t';
  tf_leases : leases_follow t t' s s';
  tf_bounded : leases_bounded t' s';
  tf_rows : rows_from t' s s';
  tf_open : one_open s -> one_open s'
}.

Lemma remembered_evolves t t' s s' r :
tables_follow t t' s s' -> remembered t s r -> remembered t' s' r.
Proof.
intros [Ht Hf _ _ _] [Hh Ho]. split; [by eapply held_evolves|].
intros l' Hl' He. destruct Hh as (l & Hl & Hle & _). destruct (Hf _ _ Hl) as (l2 & Hl2 & [E O _ _ _]).
simplify_eq. rewrite (Ho l Hl) by lia. symmetry. apply O. lia.
Qed.

Lemma authority_ok_follows y t' s' returned :
authority_ok y -> tables_follow (sy_clock y) t' (sy_store y) s' ->
(forall r, r ∈ returned -> r ∈ sy_returned y \/ remembered t' s' r) ->
authority_ok {| sy_clock := t'; sy_authority := with_store s' (sy_authority y); sy_returned := returned |}.
Proof.
intros [Hb Hg Hr Hm Ho] Hf Hnew. split; cbn; [apply Hf| | | |by apply (tf_open _ _ _ _ Hf)].
- intros k c' Hc'. destruct (tf_rows _ _ _ _ Hf _ _ Hc') as [(c & Hc & -> & -> & -> & ->)|?]; [|done].
  eapply held_evolves; [apply Hf..|]. by eapply Hg.
- intros r [Hin|?]%Hnew; [|done]. by eapply remembered_evolves; [|apply Hr].
- intros p r Hp. destruct (Hm p r Hp) as [? ?]. split; [done|]. by eapply remembered_evolves.
Qed.

(** ** What each step does *)

Lemma one_open_same (s s' : store) :
(forall k c', connections s' !! k = Some c' -> k_closed c' = None ->
   exists c, connections s !! k = Some c /\ k_closed c = None) -> one_open s -> one_open s'.
Proof.
intros Hf Ho k1 k2 c1 c2 H1 H2 O1 O2 Hk.
destruct (Hf _ _ H1 O1) as (? & ? & ?), (Hf _ _ H2 O2) as (? & ? & ?). by eapply Ho.
Qed.

(** Steps that leave the leases alone. *)
Lemma tables_follow_rows t t' s s' :
t <= t' -> leases_bounded t s -> leases s' = leases s -> rows_from t' s s' ->
(one_open s -> one_open s') -> tables_follow t t' s s'.
Proof.
intros Ht Hb Hl Hr Ho. split; try done.
- intros r l Hrl. rewrite Hl. exists l. split; [done|]. apply lease_follows_refl.
- intros r l. rewrite Hl. intros ?%Hb. lia.
Qed.

Lemma rewrites_rows k P s s' t t' :
t <= t' -> leases_bounded t s ->
(forall c c', connections s !! k = Some c -> P c c' -> k_closed c' = k_closed c /\
   (same_terms c c' \/ held t' s (k_region c') (k_epoch c') (k_lease c') (k_grant_expires c'))) ->
rewrites k P s s' -> tables_follow t t' s s'.
Proof.
intros Ht Hb HP [->|(c & c' & Hc & HPc & ->)].
{ apply tables_follow_rows; try done. intros k' d Hd. left. by exists d. }
destruct (HP _ _ Hc HPc) as [Hcl Hterms]. apply tables_follow_rows; try done.
- intros k' d. cbn. rewrite lookup_insert_Some. intros [[<- <-]|[_ Hd]]; [|left; by exists d].
  destruct Hterms; [left; eauto|by right].
- apply one_open_same. intros k' d. cbn. rewrite lookup_insert_Some.
  intros [[<- <-]|[_ Hd]] Hopen; [|eauto]. exists c. split; [done|congruence].
Qed.

Lemma enveloped_terms c c' : enveloped c c' -> k_closed c' = k_closed c /\ same_terms c c'.
Proof. intros [[] [? _]]. by repeat split. Qed.

Lemma granted_held m l nonce tc c t t' s :
within t t' (readings m [tc]) -> leases s !! k_region c = Some l ->
held t s (k_region c) (k_epoch c) (k_lease c) (k_grant_expires c) ->
let c' := granted_connection m nonce l tc c in
held t' s (k_region c') (k_epoch c') (k_lease c') (k_grant_expires c').
Proof.
intros [Ht Hr] Hl (l' & Hl' & He & _). rewrite Hl in Hl'. injection Hl' as <-. unfold readings in Hr. rewrite !Forall_cons in Hr.
destruct Hr as (_ & Hw & _). cbn. exists l. split; [done|]. split; [done|].
destruct (grant_ready l tc c) eqn:E; [|split; intros; lia]. split; [lia|].
intros Hn. unfold grant_ready in E. rewrite !andb_true_iff, bool_decide_eq_true in E.
destruct E as (((_ & E1) & E2) & _). apply bool_decide_eq_true in E2. exfalso. apply Hn; [lia|done].
Qed.

Lemma table_step_follows m more s s' t t' :
within t t' (readings m more) -> leases_bounded t s ->
(forall k c, connections s !! k = Some c ->
   held t s (k_region c) (k_epoch c) (k_lease c) (k_grant_expires c)) ->
table_step m more s s' -> tables_follow t t' s s'.
Proof.
intros [Ht Hread] Hb Hheld. destruct 1 as [g s r s' Hr|k ms s u s' Hr|k s b s' Hr|k p s u s' Hr
  |k nonce tc tr s g s' Hr|s s' [Hl Hrows]].
- destruct (register_inserts _ _ _ _ _ Hr) as (l & ca & ma & ev & rd & Hl & _ & _ & _ & _ & Hnone & ->).
  apply tables_follow_rows; [done..| |].
  + intros k c'. cbn [connections on_connections]. rewrite lookup_insert_Some. intros [[<- <-]|[_ Hc]].
    * right. by apply held_now.
    * apply closed_for_lookup in Hc as (c & Hc & ->).
      left. exists c. split; [done|]. by case_match.
  + intros Ho. apply bool_decide_eq_false in Hnone.
    assert (Hold : forall (k : worker_key) c, closed_for m (g_worker g) l s !! k = Some c ->
              k_closed c = None -> exists c0, connections s !! k = Some c0 /\ k_closed c0 = None).
    { intros k c (c0 & Hc & ->)%closed_for_lookup Hop.
      exists c0. split; [done|]. case_match; [|done]. cbn in Hop. by case_match. }
    assert (Hfree : forall (k : worker_key) c, closed_for m (g_worker g) l s !! k = Some c ->
              k_closed c = None -> k.1 <> g_worker g).
    { intros k c Hc Hop Hk. apply Hnone. exists k, c. split; [done|]. by rewrite Hop. }
    intros k1 k2 c1 c2. cbn [connections on_connections]. rewrite !lookup_insert_Some.
    intros [[<- <-]|[_ H1]] [[<- <-]|[_ H2]] O1 O2 Hk; [done| | |].
    * by destruct (Hfree _ _ H2 O2).
    * by destruct (Hfree _ _ H1 O1).
    * destruct (Hold _ _ H1 O1) as (? & ? & ?), (Hold _ _ H2 O2) as (? & ? & ?). by eapply Ho.
- eapply rewrites_rows; [done..| |by eapply update_models_ok].
  intros c c' _ [? ?]%enveloped_terms. by auto.
- eapply rewrites_rows; [done..| |by eapply activate_ok]. intros c c' _ [? ?]%enveloped_terms. by auto.
- eapply rewrites_rows; [done..| |by eapply touch_ok]. intros c c' _ [? ?]%enveloped_terms. by auto.
- eapply rewrites_rows; [done..| |by eapply renew_grant_ok].
  intros c c' Hc [Hk (l & Hl & ->)]. split; [by destruct Hk|]. right.
  eapply granted_held; [|done|by apply Hheld with k]. split; [done|].
  unfold readings in *. rewrite !Forall_cons in *. naive_solver.
- apply tables_follow_rows; [done..| |].
  + intros k c' Hc'. destruct (Hrows _ _ Hc') as (c & Hc & Hs & _). left. by exists c.
  + apply one_open_same. intros k c' Hc' Hop. destruct (Hrows _ _ Hc') as (c & Hc & _ & Hcl).
    exists c. split; [done|]. destruct (k_closed c) eqn:E; [|done]. exfalso. apply Hcl; [|done]. unfold closed. by rewrite E.
Qed.

Lemma write_lease_follows region l s r s' t t' :
t <= t' -> leases_bounded t s -> l_expires l <= t' + seconds LEASE_SECONDS ->
(forall old, leases s !! region = Some old -> lease_follows t t' old l) ->
write_lease region l s = Ok (r, s') ->
tables_follow t t' s s' /\ r = of_lease region l /\ leases s' !! region = Some l.
Proof.
intros Ht Hb Hexp Hfol Hrun. unfold write_lease in Hrun. case_match; [done|]. lease_inv.
split; [|split; [done|cbn; by rewrite lookup_insert_eq]]. split; [done|..].
- intros r0 l0 Hl0. cbn. destruct (decide (r0 = region)) as [->|Hne].
  + exists l. rewrite lookup_insert_eq. auto.
  + exists l0. rewrite lookup_insert_ne by done. split; [done|]. apply lease_follows_refl.
- intros r0 l0. cbn. rewrite lookup_insert_Some. intros [[_ <-]|[_ ?%Hb]]; lia.
- intros k c'. cbn. rewrite lookup_fmap_Some. intros (c & <- & Hc). left. exists c. split; [done|].
  by case_match.
- apply one_open_same. intros k c'. cbn. rewrite lookup_fmap_Some. intros (c & <- & Hc) Hop.
  exists c. split; [done|]. by case_match.
Qed.

Lemma remembered_now t region l s :
leases s !! region = Some l -> remembered t s (of_lease region l).
Proof.
intros Hl. split; [by apply held_now|]. cbn. intros l' Hl' _. by simplify_eq.
Qed.

Lemma within_sub t t' a b : (forall x, x ∈ b -> x ∈ a) -> within t t' a -> within t t' b.
Proof. intros Hs [? Hf]. split; [done|]. rewrite Forall_forall in *. eauto. Qed.

Lemma taken_fresh m id te tl t t' o l :
within t t' (readings m [te; tl]) -> taken_lease m id te tl o = Some l ->
l_expires l <= t' + seconds LEASE_SECONDS.
Proof.
intros [_ Hr]. unfold readings in Hr. rewrite !Forall_cons in Hr. destruct Hr as (_ & Hw & _).
unfold taken_lease. destruct o as [old|]; [case_match; [|done]|]; intros [= <-]; cbn; lia.
Qed.

Lemma lease_step_ok y y' : lease_step y y' -> authority_ok y -> authority_ok y'.
Proof.
destruct 1 as [m region id te tl y t' r s' Hw Hr|m mine y t' r s' Hw Hr|y r Hin|y p|m more y t' s' Hw Hs];
  intros Hok; pose proof Hok as [Hb Hg Hret Hmem Hop].
- unfold acquire_in in Hr. lease_inv.
  destruct (taken_lease _ _ _ _ _) as [l|] eqn:El; [|done].
  assert (Hl := taken_fresh _ _ _ _ _ _ _ _ Hw El). destruct (Hw) as [Ht _].
  assert (Hfol : forall old, leases (sy_store y) !! region = Some old -> lease_follows (sy_clock y) t' old l).
  { intros old Hold. rewrite Hold in El. eapply taken_follows; [exact Hw|by eapply Hb|exact El]. }
  destruct (write_lease_follows _ _ _ _ _ _ _ Ht Hb Hl Hfol Hr) as (Hf & -> & Hl').
  apply authority_ok_follows; [done..|]. intros r [->|Hin]%elem_of_cons; [|by left]. right.
  by apply remembered_now.
- unfold renew_in in Hr. lease_inv.
  destruct (renewed_lease _ _ _) as [l|] eqn:El; [|by lease_inv]. lease_inv. destruct (Hw) as [Ht Hrd].
  unfold renewed_lease in El. destruct (leases _ !! _) as [old|] eqn:Eold; [|done].
  assert (Hfol : forall old', Some old = Some old' -> lease_follows (sy_clock y) t' old' l).
  { intros old' [= <-]. eapply renewed_follows; [exact Hw|by eapply Hb|exact El]. }
  assert (Hl : l_expires l <= t' + seconds LEASE_SECONDS).
  { unfold readings in Hrd. rewrite !Forall_cons in Hrd. destruct Hrd as (_ & ? & _).
    case_match; [|done]. injection El as <-. cbn. lia. }
  match goal with Hwr : write_lease _ _ _ = _ |- _ =>
    rewrite <- Eold in Hfol; destruct (write_lease_follows _ _ _ _ _ _ _ Ht Hb Hl Hfol Hwr) as (Hf & Hr' & Hl') end.
  apply authority_ok_follows; [done..|]. intros r0 [->|Hin]%elem_of_cons; [|by left]. right.
  match goal with E : Some _ = Some _ |- _ => injection E as -> end. rewrite Hr'. by apply remembered_now.
- split; cbn; try done. intros p r'. destruct (decide (p = sl_owner r)) as [->|Hne].
  + rewrite lookup_partial_alter_eq. intros [= <-]. eauto.
  + rewrite lookup_partial_alter_ne by done. apply Hmem.
- split; cbn; try done. intros p' r'. destruct (decide (p' = p)) as [->|Hne].
  + by rewrite lookup_partial_alter_eq.
  + rewrite lookup_partial_alter_ne by done. apply Hmem.
- eapply authority_ok_follows; [done| |by left]. by eapply table_step_follows.
Qed.

Lemma lease_run_ok y y' : lease_run y y' -> authority_ok y -> authority_ok y'.
Proof. induction 1; eauto using lease_step_ok. Qed.

End System.

(** ** Properties *)

(** A database with neither leases nor connections, and no process up. *)
Definition boot (t : Z) (s : store) : system :=
  {| sy_clock := t; sy_authority := {| au_store := s; au_leases := ∅ |}; sy_returned := [] |}.

Lemma boot_ok t s : leases s = ∅ -> connections s = ∅ -> authority_ok (boot t s).
Proof.
  intros Hl Hc. split; cbn.
  - intros r l. by rewrite Hl.
  - intros k c. unfold sy_store. cbn. by rewrite Hc.
  - by intros r ?%elem_of_nil.
  - done.
  - intros k1 k2 c1 c2. unfold sy_store. cbn. by rewrite Hc.
Qed.

(** ** The calls of a process are steps of the system *)

(** A call goes from the commit of its transaction to what it remembers;
    between the two other steps may come. *)
Definition two_phases {A} `{Driver} (y : system) (t' : Z) (call : result exn A * authority) : Prop :=
  exists y1 y2, lease_run y y1 /\ lease_run y1 y2
  /\ sy_authority y1 = with_store (au_store call.2) (sy_authority y) /\ sy_authority y2 = call.2
  /\ sy_clock y <= sy_clock y1 <= t' /\ sy_clock y1 <= sy_clock y2 <= t'.

Section Calls.
Context `{Driver}.

Lemma with_store_same (a : authority) : with_store (au_store a) a = a.
Proof. by destruct a. Qed.

Lemma no_phase {A} (y : system) t' (r : result exn A) : sy_clock y <= t' -> two_phases y t' (r, sy_authority y).
Proof. exists y, y. cbn. rewrite with_store_same. repeat split; try done; lia. Qed.

(** The row was committed, then remembered by its owner. *)
Lemma row_phases {A} y t' r s' (x : A) :
sy_clock y <= t' ->
lease_step y {| sy_clock := t'; sy_authority := with_store s' (sy_authority y); sy_returned := r :: sy_returned y |} ->
two_phases y t' (Ok x, remember (sl_owner r) (Some r) (with_store s' (sy_authority y))).
Proof.
intros Ht Hs. eexists _, {| sy_clock := t'; sy_authority := _; sy_returned := r :: sy_returned y |}.
split; [by apply rtc_once|]. split; [eapply rtc_once, (ls_remember (Build_system _ _ _)); by left|].
repeat split; try done; cbn; lia.
Qed.

Lemma acquire_phases m region id te tl y t' :
within (sy_clock y) t' (readings m [te; tl]) ->
two_phases y t' (acquire_scheduler_lease m region id te tl (sy_authority y)).
Proof.
intros Hw. pose proof (proj1 Hw) as Ht. unfold acquire_scheduler_lease.
destruct (negb _); [by apply no_phase|]. unfold mbind, action_bind, on_store.
destruct (acquire_in m region id te tl (au_store (sy_authority y))) as [[r s']|e] eqn:Er; [|by apply no_phase].
assert (Hown : e_scheduler m = sl_owner r).
{ unfold acquire_in in Er. lease_inv. destruct (taken_lease _ _ _ _ _) as [l|] eqn:El; [|done].
  unfold write_lease in Er. case_match; [done|]. lease_inv. cbn. unfold taken_lease in El.
  destruct (leases _ !! _); [case_match; [|done]|]; by injection El as <-. }
cbn. rewrite Hown. apply row_phases; [done|]. by eapply ls_acquire.
Qed.

Lemma renew_phases m y t' :
within (sy_clock y) t' (readings m []) ->
two_phases y t' (renew_scheduler_lease m (sy_authority y)).
Proof.
intros Hw. pose proof (proj1 Hw) as Ht. unfold renew_scheduler_lease.
destruct (current_lease m _) as [mine|]; [|by apply no_phase].
destruct (negb _); [by apply no_phase|]. unfold mbind, action_bind, on_store.
destruct (renew_in m mine (au_store (sy_authority y))) as [[[r|] s']|e] eqn:Er; [| |by apply no_phase].
- assert (Hown : e_scheduler m = sl_owner r).
  { unfold renew_in in Er. lease_inv. destruct (renewed_lease _ _ _) as [l|] eqn:El; [|by lease_inv].
    lease_inv. match goal with Hwr : write_lease _ _ _ = _ |- _ => unfold write_lease in Hwr; case_match; [done|] end.
    lease_inv. simplify_eq. cbn. unfold renewed_lease in El. destruct (leases _ !! _); [|done].
    case_match; [|done]. injection El as <-. cbn.
    by match goal with Eb : (_ && _) = true |- _ => rewrite !andb_true_iff, bool_decide_eq_true in Eb; naive_solver end. }
  cbn. rewrite Hown. apply row_phases; [done|]. by eapply ls_renew.
- assert (s' = au_store (sy_authority y)) as ->.
  { unfold renew_in in Er. lease_inv. destruct (renewed_lease _ _ _); by lease_inv. }
  cbn. rewrite with_store_same. exists y, {| sy_clock := sy_clock y; sy_authority :=
    remember (e_scheduler m) None (sy_authority y); sy_returned := sy_returned y |}.
  split; [done|]. split; [apply rtc_once, ls_forget|]. repeat split; cbn; try done; try lia.
  by rewrite with_store_same.
Qed.

Lemma maintain_phases m id te tl y t' :
within (sy_clock y) t' (readings m [te; tl]) ->
two_phases y t' (maintain_call m id te tl (sy_authority y)).
Proof.
intros Hw. unfold maintain_call. destruct (current_lease _ _); [|by apply acquire_phases].
apply renew_phases. eapply within_sub; [|exact Hw]. unfold readings. intros x Hx. set_solver.
Qed.

End Calls.

(** ** A process that takes a lease and grants work under it *)

Definition at_time (t : Z) : moment :=
  {| e_connected := true; e_mode := NoAccounts; e_local_user := Some USER; e_scheduler := SERVER;
     e_transport := SERVER; e_started := t; e_principal_clock := t; e_deadline_clock := t;
     e_write_clock := t |}.

Definition hello : registration :=
  {| g_worker := WORKER; g_incarnation := INCARNATION; g_protocol := 6; g_nonce := GRANT;
     g_capabilities := []; g_manifests := [JDict [("id", JStr "sdxl")]]; g_device := Some "cuda";
     g_memory := Some "full"; g_slots := 1; g_p95 := JNull; g_batch := JNull |}.

Definition after {A} (t : txn store A) (s : store) : store := match t s with Ok (_, s') => s' | Err _ => s end.
Definition leased : store := after (acquire_in (at_time 10) REGION LEASE 10 10) empty_store.
Definition greeted : store := after (register_in (at_time 20) hello) leased.
Definition activated : store := after (activate_in (at_time 30) KEY) greeted.
Definition granted : store := after (renew_grant_in (at_time 40) KEY COMMAND 40 40) activated.

Definition held_lease : scheduler_lease :=
  {| sl_region := REGION; sl_owner := SERVER; sl_epoch := 1; sl_id := LEASE; sl_expires := 10000010 |}.
Definition scheduling (t : Z) (s : store) : system :=
  {| sy_clock := t; sy_authority := {| au_store := s; au_leases := {[SERVER := held_lease]} |};
     sy_returned := [held_lease] |}.

Lemma within_point t t' : t <= t' -> within t t' [t'; t'; t'; t'].
Proof. intros Ht. split; [done|]. repeat constructor; lia. Qed.

Lemma scheduling_step t t' s s' :
  t <= t' -> table_step (at_time t') [t'; t'] s s' \/ table_step (at_time t') [] s s' ->
  lease_step (scheduling t s) (scheduling t' s').
Proof.
  intros Ht Hs. pose proof (within_point _ _ Ht) as Hw.
  destruct Hs as [Hs|Hs]; (eapply (ls_table (at_time t') _ (scheduling t s)); [|exact Hs]);
    (eapply within_sub; [|exact Hw]); set_solver.
Qed.

Lemma granted_run : lease_run (boot 0 empty_store) (scheduling 40 granted).
Proof.
  eapply rtc_l; [eapply (ls_acquire (at_time 10) REGION LEASE 10 10 _ 10 held_lease leased);
    [by split; [|repeat constructor]|vm_compute; reflexivity]|].
  eapply rtc_l; [apply (ls_remember _ held_lease); by left|].
  eapply (rtc_l _ _ (scheduling 20 greeted)).
  { eapply (scheduling_step 10 20); [done|right]. eapply (ts_register _ hello). vm_compute. reflexivity. }
  eapply (rtc_l _ _ (scheduling 30 activated)).
  { eapply (scheduling_step 20 30); [done|right]. eapply (ts_activate _ KEY). vm_compute. reflexivity. }
  eapply rtc_once, (scheduling_step 30 40); [done|left]. eapply (ts_grant _ KEY COMMAND). vm_compute. reflexivity.
Qed.

Section Promises.
Context `{Driver}.

(** C22 A grant never outlives the lease it was given under: in any
    interleaving of lease calls, registrations, heartbeats, grants and other
    writers, a connection whose grant has not expired was registered under the
    lease its region has now, and that lease has not expired either. *)
Theorem grant_under_current_lease (t : Z) (s : store) (y : system) (k : worker_key) (c : connection)
  (Hleases : leases s = ∅) (Hconnections : connections s = ∅) (Hrun : lease_run (boot t s) y)
  (Hc : connections (sy_store y) !! k = Some c) (Hlive : sy_clock y < k_grant_expires c) :
exists l, leases (sy_store y) !! k_region c = Some l /\ l_epoch l = k_epoch c /\ l_id l = k_lease c
  /\ sy_clock y < l_expires l.
Proof.
destruct (lease_run_ok _ _ Hrun (boot_ok _ _ Hleases Hconnections)) as [_ Hg _ _ _].
destruct (held_live _ _ _ _ _ _ (Hg _ _ Hc) Hlive) as (l & Hl & He & Hi & Hx).
exists l. repeat split; try done. lia.
Qed.

(** C24 One scheduler per region: two processes never remember unexpired leases
    on one region, whatever was cut, delayed or taken over; and what a process
    remembers unexpired is what the table holds. *)
Theorem one_scheduler (t : Z) (s : store) (y : system) (p q : string) (r r' : scheduler_lease)
  (Hleases : leases s = ∅) (Hconnections : connections s = ∅) (Hrun : lease_run (boot t s) y)
  (Hp : au_leases (sy_authority y) !! p = Some r) (Hq : au_leases (sy_authority y) !! q = Some r')
  (Hregion : sl_region r = sl_region r') (Hlive : sy_clock y < sl_expires r) (Hlive' : sy_clock y < sl_expires r') :
p = q /\ sl_epoch r = sl_epoch r' /\ sl_id r = sl_id r'
/\ exists l, leases (sy_store y) !! sl_region r = Some l /\ l_owner l = p /\ sy_clock y < l_expires l.
Proof.
destruct (lease_run_ok _ _ Hrun (boot_ok _ _ Hleases Hconnections)) as [_ _ _ Hm _].
destruct (Hm _ _ Hp) as [<- [Hh Ho]], (Hm _ _ Hq) as [<- [Hh' Ho']].
destruct (held_live _ _ _ _ _ _ Hh Hlive) as (l & Hl & He & Hi & Hx).
destruct (held_live _ _ _ _ _ _ Hh' Hlive') as (l' & Hl' & He' & Hi' & _).
rewrite <- Hregion, Hl in Hl'. injection Hl' as <-.
assert (Hpl : sl_owner r = l_owner l) by (apply Ho; [done|lia]).
assert (Hql : sl_owner r' = l_owner l) by (apply Ho'; [by rewrite <- Hregion|lia]).
repeat split; [congruence..|]. exists l. repeat split; [done..|lia].
Qed.

(** A worker id has one open connection: in any interleaving of the
    registrations with everything else, two open connections of one worker id
    are the same row. *)
Theorem one_open_connection (t : Z) (s : store) (y : system) (k1 k2 : worker_key) (c1 c2 : connection)
  (Hleases : leases s = ∅) (Hconnections : connections s = ∅) (Hrun : lease_run (boot t s) y)
  (H1 : connections (sy_store y) !! k1 = Some c1) (H2 : connections (sy_store y) !! k2 = Some c2)
  (Hopen1 : k_closed c1 = None) (Hopen2 : k_closed c2 = None) (Hworker : k1.1 = k2.1) :
k1 = k2 /\ c1 = c2.
Proof.
destruct (lease_run_ok _ _ Hrun (boot_ok _ _ Hleases Hconnections)) as [_ _ _ _ Ho].
assert (k1 = k2) as <- by exact (Ho _ _ _ _ H1 H2 Hopen1 Hopen2 Hworker). split; congruence.
Qed.

(** A registration is refused by its own checks, never by a constraint of
    the table: what a registration of a supported protocol raises is
    [AuthorityUnavailable] or an error of storing the worker's own manifests. *)
Theorem registration_refused_cleanly (m : moment) (g : registration) (s : store) (e : exn)
  (Hprotocol : g_protocol g = 5 \/ g_protocol g = 6) (Hslots : 0 <= g_slots g)
  (Hepochs : forall r l, leases s !! r = Some l -> 1 <= l_epoch l)
  (Hrun : register_in m g s = Err e) :
(exists msg, e = AuthorityUnavailable msg) \/ (exists v, jsonb v = Err e).
Proof.
unfold register_in, mbind, txn_bind, read, write, lift, require_authority, unavailable, raise in Hrun.
destruct (execution_envelope (g_manifests g) (opt_str (g_device g)) (opt_str (g_memory g)) (g_p95 g) (g_batch g))
  as [envelope ready].
destruct (live_lease m s) as [l|] eqn:El; [|left; naive_solver]. apply live_lease_ok in El as [El _].
destruct (bool_decide (l_owner l = _)); cbn in Hrun; [|left; naive_solver].
destruct (bool_decide (map_Exists _ _)) eqn:Eused; cbn in Hrun; [left; naive_solver|].
destruct (open_worker _ _) eqn:Eopen; cbn in Hrun; [left; naive_solver|].
destruct (jsonb (JList (g_capabilities g))) eqn:E1; cbn in Hrun; [|right; naive_solver].
destruct (jsonb (JList (g_manifests g))) eqn:E2; cbn in Hrun; [|right; naive_solver].
destruct (jsonb (JDict envelope)) eqn:E3; cbn in Hrun; [|right; naive_solver].
exfalso. unfold insert_connection in Hrun. cbn [registered k_envelope ev_protocol ev_slots k_epoch fst] in Hrun.
rewrite Eopen in Hrun.
destruct (some _) eqn:Ethere.
{ apply bool_decide_eq_false in Eused. apply Eused.
  match type of Ethere with some ?o = true => destruct o as [c|] eqn:Hc; [|done] end.
  apply (closed_for_lookup m) in Hc as (c0 & Hc & _). by exists (g_worker g, g_incarnation g), c0. }
apply Hepochs in El. rewrite (proj2 (Z.ltb_ge (l_epoch l) 1)), (proj2 (Z.ltb_ge (g_slots g) 0)) in Hrun by done.
destruct Hprotocol as [Hpr|Hpr]; by rewrite Hpr in Hrun.
Qed.

(** The maintenance loop keeps within the system: a pass, wherever the two
    second bound or a database failure cuts it, is a run of the system that
    leaves the tables and the memories as the pass left them. *)
Theorem maintenance_refines (m : moment) (c : cut) (id : string) (te tl : Z) (y : system) (t' : Z)
  (Hwithin : within (sy_clock y) t' (readings m [te; tl])) :
exists y', lease_run y y' /\ sy_authority y' = (maintain_pass m c id te tl (sy_authority y)).2
  /\ sy_clock y <= sy_clock y' <= t'.
Proof.
pose proof (proj1 Hwithin). assert (Hstay : exists y', lease_run y y' /\ sy_authority y' = sy_authority y
  /\ sy_clock y <= sy_clock y' <= t') by (exists y; repeat split; try done; lia).
unfold maintain_pass. destruct (negb _); [done|].
destruct (maintain_phases m id te tl y t' Hwithin) as (y1 & y2 & H1 & H2 & E1 & E2 & T1 & T2).
destruct c; [|done|by exists y1].
exists y2. split; [by etransitivity|]. rewrite E2. split; [|lia].
destruct (maintain_call _ _ _ _ _) as [[r|e] a']; [done|]. by destruct e.
Qed.

(** A lost reply costs nothing: a process whose acquisition was committed but
    cut before it could remember it takes the same lease again on its next
    pass, with the same epoch and id, so the connections it registered stay
    under the current lease. *)
Theorem lost_reply_keeps_lease (m : moment) (id : string) (te tl : Z) (a : authority) (l : lease)
  (Hconnected : e_connected m = true) (Hforgot : current_lease m a = None)
  (Hl : leases (au_store a) !! REGION = Some l) (Hmine : l_owner l = e_scheduler m)
  (Hepoch : l_epoch l <= MAX_SEQUENCE) (Hte : te < l_expires l) (Htl : tl < l_expires l) :
exists a' r, maintain_pass m Undisturbed id te tl a = (3, a') /\ current_lease m a' = Some r
  /\ sl_epoch r = l_epoch l /\ sl_id r = l_id l
  /\ sl_expires r = e_write_clock m + seconds LEASE_SECONDS
  /\ (forall k c, connections (au_store a) !! k = Some c -> under_lease REGION l c = true ->
      exists c', connections (au_store a') !! k = Some c' /\ k_epoch c' = k_epoch c /\ k_lease c' = k_lease c
        /\ k_lease_expires c' = sl_expires r).
Proof.
unfold maintain_pass, maintain_call, acquire_scheduler_lease, mbind, action_bind, on_store, acquire_in.
rewrite Hconnected, Hforgot. cbn [negb]. unfold mbind, txn_bind, read, taken_lease. rewrite Hl.
rewrite bool_decide_eq_true_2, (proj2 (Z.ltb_lt _ _) Hte), (proj2 (Z.ltb_lt _ _) Htl) by done.
cbn [andb orb]. unfold write_lease. cbn [l_epoch]. rewrite (proj2 (Z.ltb_ge _ _) Hepoch).
eexists _, _. split; [reflexivity|]. split; [unfold current_lease; cbn; by rewrite lookup_partial_alter_eq|].
repeat split. intros k c Hc Hu. cbn. rewrite lookup_fmap, Hc. cbn. eexists. split; [done|].
unfold under_lease in *. cbn [l_epoch l_id]. by rewrite Hu.
Qed.

End Promises.

Lemma grant_under_current_lease_witness :
  exists l, leases granted !! REGION = Some l /\ l_epoch l = 1 /\ l_id l = LEASE /\ 40 < l_expires l.
Proof.
  destruct (connections granted !! KEY) as [c|] eqn:Hc; [|vm_compute in Hc; discriminate Hc].
  assert (Ht : k_region c = REGION /\ k_epoch c = 1 /\ k_lease c = LEASE /\ 40 < k_grant_expires c)
    by (vm_compute in Hc; injection Hc as <-; repeat split).
  destruct Ht as (Hr & He & Hi & Hx).
  destruct (grant_under_current_lease 0 empty_store (scheduling 40 granted) KEY c eq_refl eq_refl granted_run Hc Hx)
    as (l & Hl & El & Ei & Ex).
  exists l. rewrite Hr in Hl. repeat split; [exact Hl|congruence..|exact Ex].
Defined.

Lemma one_scheduler_witness :
  exists l, leases granted !! REGION = Some l /\ l_owner l = SERVER /\ 40 < l_expires l.
Proof.
  exact (proj2 (proj2 (proj2 (one_scheduler 0 empty_store (scheduling 40 granted) SERVER SERVER held_lease held_lease
    eq_refl eq_refl granted_run eq_refl eq_refl eq_refl eq_refl eq_refl)))).
Defined.

Lemma one_open_connection_witness :
  exists c, connections granted !! KEY = Some c /\ k_closed c = None.
Proof.
  destruct (connections granted !! KEY) as [c|] eqn:Hc; [|vm_compute in Hc; discriminate Hc].
  assert (Ho : k_closed c = None) by (vm_compute in Hc; by injection Hc as <-).
  destruct (one_open_connection 0 empty_store (scheduling 40 granted) KEY KEY c c eq_refl eq_refl granted_run
    Hc Hc Ho Ho eq_refl) as [_ _].
  exact (ex_intro _ c (conj eq_refl Ho)).
Defined.

Lemma registration_refused_cleanly_witness :
  (exists msg, AuthorityUnavailable "worker incarnation was already used" = AuthorityUnavailable msg)
  \/ (exists v, jsonb v = Err (AuthorityUnavailable "worker incarnation was already used")).
Proof.
  apply (registration_refused_cleanly (at_time 50) hello granted); [by right|done| |by vm_compute].
  intros r l Hl. enough (bool_decide (map_Forall (fun _ x => (1 <=? l_epoch x) = true) (leases granted)) = true) as Hb.
  { apply bool_decide_eq_true in Hb. specialize (Hb _ _ Hl). cbn in Hb. lia. }
  by vm_compute.
Defined.

Lemma maintenance_refines_witness :
  exists y', lease_run (boot 0 empty_store) y'
  /\ sy_authority y' = (maintain_pass (at_time 10) CutAfter LEASE 10 10 (sy_authority (boot 0 empty_store))).2.
Proof.
  destruct (maintenance_refines (at_time 10) CutAfter LEASE 10 10 (boot 0 empty_store) 10) as (y' & Hr & Ha & _).
  - by split; [|repeat constructor].
  - by exists y'.
Defined.

Lemma lost_reply_keeps_lease_witness :
  exists a' r, maintain_pass (at_time 50) Undisturbed COMMAND 50 50 {| au_store := granted; au_leases := ∅ |} = (3, a')
  /\ current_lease (at_time 50) a' = Some r /\ sl_epoch r = 1 /\ sl_id r = LEASE.
Proof.
  destruct (leases granted !! REGION) as [l|] eqn:Hl; [|vm_compute in Hl; discriminate Hl].
  assert (Hf : l_owner l = SERVER /\ l_epoch l = 1 /\ l_id l = LEASE /\ l_expires l = 10000010)
    by (vm_compute in Hl; by injection Hl as <-).
  destruct Hf as (Ho & He & Hi & Hx).
  destruct (lost_reply_keeps_lease (at_time 50) COMMAND 50 50 {| au_store := granted; au_leases := ∅ |} l)
    as (a' & r & Hp & Hc & Hre & Hri & _); [done|done|exact Hl|exact Ho|rewrite He; done|lia..|].
  exists a', r. repeat split; [exact Hp|exact Hc|congruence..].
Defined.
