(* ===== verification/SessionAuthority.v ===== *)
(** * The life of a realtime session on its worker

    Models the second half of src/backend/app/worker_authority.py, without the
    reports: what the end of a connection leaves behind, ending and abandoning
    a session, and the session a ready worker makes live.

    The per-account gate orders transactions and is not a step here; the gate
    of a session without an account is, because it raises. *)

From S2P Require Import Prelude PyFloat Hashes Json JsonFacts Protocol6 Uuid Transactions AccountStore CommandTables CommandSubjects KeyRing CommandStore SchedulerLease.
Open Scope Z_scope.

Definition attempt_open (a : session_attempt) : bool := is_in (sa_state a) ["opening"; "running"].
Definition attempt_of (k : worker_key) (a : session_attempt) : bool :=
  bool_decide (sa_worker a = k.1) && bool_decide (sa_incarnation a = k.2).

(** The open attempts of a connection and the accounts of their sessions. *)
Definition open_attempts (k : worker_key) (s : store) : list ((string * Z) * option string) :=
  omap (fun kv : (string * Z) * session_attempt =>
    let '((id, generation), a) := kv in
    e ← realtime_sessions s !! id;
    if attempt_of k a && attempt_open a then Some ((id, generation), rs_user e) else None)
  (map_to_list (session_attempts s)).

(** [hold_the_account(session, user_id)]: a NULL account has no key. *)
Definition account_of (user : option string) : result exn string :=
  match user with Some u => Ok u | None => Err (AttributeError "bytes") end.

Definition end_attempt (now : Z) (a : session_attempt) : session_attempt :=
  {| sa_worker := sa_worker a; sa_incarnation := sa_incarnation a; sa_epoch := sa_epoch a;
     sa_attempt := sa_attempt a; sa_state := "ended"; sa_range := sa_range a; sa_usage := sa_usage a;
     sa_started := sa_started a;
     sa_ended := match sa_ended a with Some t => Some t | None => Some now end |}.

Definition set_session_end (st : session_state) (ended : option Z) (e : realtime_session) : realtime_session :=
  {| rs_user := rs_user e; rs_auth := rs_auth e; rs_browser := rs_browser e; rs_region := rs_region e;
     rs_model := rs_model e; rs_effective := rs_effective e; rs_desired := rs_desired e;
     rs_params_revision := rs_params_revision e; rs_desired_revision := rs_desired_revision e;
     rs_state := st; rs_generation := rs_generation e; rs_epoch := rs_epoch e;
     rs_started := rs_started e; rs_ended := ended |}.

Section Sessions.
Context `{Driver}.
Variable m : moment.
Let now := e_write_clock m.

(** [UPDATE ... WHERE] of the attempts that satisfy a condition. *)
Definition end_attempts (p : (string * Z) -> session_attempt -> bool) : store -> store :=
on_session_attempts (map_imap (fun k a => Some (if p k a && attempt_open a then end_attempt now a else a))).

(** A terminal close whose receipt cannot come any more. *)
Definition end_closing (id : string) (generation : Z) : store -> store :=
on_realtime_sessions (alter (fun e =>
  if (rs_generation e =? generation) && bool_decide (rs_state e = Ending)
  then set_session_end Ended (match rs_ended e with Some t => Some t | None => Some now end) e
  else e) id).

Definition close_own_connection (k : worker_key) : txn store unit :=
update_connection k (fun c =>
  if bool_decide (k_transport c = e_transport m) then close_connection now true c else c).

Definition close_in (k : worker_key) : txn store unit :=
attempts ← read (open_attempts k);
owned ← lift (traverse (fun kv : (string * Z) * option string => u ← account_of kv.2; Ok (kv.1, u)) attempts);
_ ← txn_each (fun ku : (string * Z) * string =>
      _ ← erase_subject_commands m ku.2 "session" ku.1.1 (Some ku.1.2); mret tt) owned;
_ ← close_own_connection k;
_ ← write (end_attempts (fun _ a => attempt_of k a));
txn_each (fun ku : (string * Z) * string => write (end_closing ku.1.1 ku.1.2)) owned.

Definition close_worker (k : worker_key) : action store unit :=
if negb (e_connected m) then mret tt else atomic (close_in k).

(** ** Ending and abandoning *)

(** [SELECT user_id FROM realtime_sessions WHERE id] *)
Definition session_account (id : string) (s : store) : option string :=
e ← realtime_sessions s !! id; rs_user e.

Definition in_use (st : session_state) : bool := bool_decide (st ∈ [Assigning; Live; Idle; Ending]).

(** The open attempt of one generation. *)
Definition current_attempt (id : string) (generation : Z) (s : store) : option session_attempt :=
a ← session_attempts s !! (id, generation); if attempt_open a then Some a else None.

(** The outcome, and the worker whose connection is then closed. *)
Definition end_session_in (id : string) (generation : Z) (browser : string)
: txn store (bool * option worker_key) :=
user ← read (session_account id);
match user with
| None => mret (false, None)
| Some user =>
    entity ← read (fun s => e ← session_at id generation s;
                            if bool_decide (rs_browser e = browser) && in_use (rs_state e) then Some e else None);
    match entity with
    | None => mret (false, None)
    | Some _ =>
        attempt ← read (current_attempt id generation);
        _ ← erase_subject_commands m user "session" id (Some generation);
        _ ← (match attempt with
             | Some a => write (end_attempts (fun k b => bool_decide (k = (id, generation))
                                                && attempt_of (sa_worker a, sa_incarnation a) b))
             | None => mret tt
             end);
        _ ← write (on_realtime_sessions (alter (set_session_end Ended (Some now)) id));
        mret (true, (fun a => (sa_worker a, sa_incarnation a)) <$> attempt)
    end
end.

Definition end_realtime_session (id : string) (generation : Z) (browser : string)
: action store (bool * option worker_key) :=
if negb (e_connected m) then mret (false, None) else atomic (end_session_in id generation browser).

Definition abandon_in (id : string) (generation : Z) (attempt_id : string)
: txn store (bool * option worker_key) :=
user ← read (session_account id);
match user with
| None => mret (false, None)
| Some user =>
    entity ← read (session_at id generation);
    attempt ← read (open_attempt id generation attempt_id);
    match entity, attempt with
    | Some _, Some a =>
        _ ← erase_subject_commands m user "session" id (Some generation);
        _ ← write (end_attempts (fun k b => bool_decide (k = (id, generation))
                                            && bool_decide (sa_attempt b = attempt_id)));
        mret (true, Some (sa_worker a, sa_incarnation a))
    | _, _ => mret (false, None)
    end
end.

Definition abandon_realtime_attempt (id : string) (generation : Z) (attempt_id : string)
: action store (bool * option worker_key) :=
if negb (e_connected m) then mret (false, None) else atomic (abandon_in id generation attempt_id).

(** ** A session that becomes live *)

Definition start_attempt (a : session_attempt) : session_attempt :=
{| sa_worker := sa_worker a; sa_incarnation := sa_incarnation a; sa_epoch := sa_epoch a;
   sa_attempt := sa_attempt a; sa_state := "running"; sa_range := sa_range a; sa_usage := sa_usage a;
   sa_started := Some now; sa_ended := sa_ended a |}.
Definition made_live (epoch : Z) (e : realtime_session) : realtime_session :=
{| rs_user := rs_user e; rs_auth := rs_auth e; rs_browser := rs_browser e; rs_region := rs_region e;
   rs_model := rs_model e; rs_effective := rs_effective e; rs_desired := rs_desired e;
   rs_params_revision := rs_params_revision e; rs_desired_revision := rs_desired_revision e;
   rs_state := Live; rs_generation := rs_generation e; rs_epoch := Some epoch;
   rs_started := Some now; rs_ended := rs_ended e |}.

Definition range_of_worker (k : worker_key) (range : option string) (s : store) : option physical_range :=
id ← range; p ← ranges s !! id;
if bool_decide (pr_worker p = k.1) && bool_decide (pr_incarnation p = k.2) then Some p else None.

(** The lease and the grant the session goes live under. *)
Definition ready_authority (l : lease) (c : connection) (a : session_attempt) : bool :=
(l_epoch l =? k_epoch c) && bool_decide (l_id l = k_lease c) && (k_epoch c =? sa_epoch a)
&& k_grant_ready c.

Definition ready_in (k : worker_key) (id : string) (generation : json) (message : dict) : txn store bool :=
user ← read (session_account id);
match user with
| None => mret false
| Some _ =>
    entity ← read (fun s => realtime_sessions s !! id);
    bound ← lift (bigint generation);
    attempt ← read (fun s => session_attempts s !! (id, bound));
    match entity, attempt with
    | Some e, Some a =>
        if negb (bool_decide (rs_state e = Assigning)) || negb (py_eq (JInt (rs_generation e)) generation)
           || negb (attempt_of k a) then mret false
        else
          attempt_id ← lift (uuid_field message "attempt_id");
          if negb (bool_decide (sa_attempt a = attempt_id)) || negb (bool_decide (sa_state a = "opening"))
          then mret false
          else
            physical ← read (range_of_worker k (sa_range a));
            l ← read (fun s => leases s !! REGION);
            worker ← read (own_connection m k);
            match physical, l, worker with
            | Some p, Some l, Some c =>
                if negb (bool_decide (pr_state p = Outstanding)) || negb (ready_authority l c a)
                   || negb ((e_deadline_clock m <? l_expires l) && (e_deadline_clock m <? k_grant_expires c))
                then mret false
                else
                  _ ← write (on_session_attempts (alter start_attempt (id, bound)));
                  _ ← write (on_realtime_sessions (alter (made_live (k_epoch c)) id));
                  mret true
            | _, _, _ => mret false
            end
    | _, _ => mret false
    end
end.

End Sessions.

Definition accept_session_ready `{Driver} (m : moment) (k : worker_key) (message : dict) : action store bool :=
  if negb (e_connected m) then mret false
  else match (session_id ← uuid_field message "session_id"; generation ← item message "control_generation";
              Ok (session_id, generation)) with
       | Err e => fail_with e
       | Ok (id, generation) => atomic (ready_in m k id generation message)
       end.
