(* ===== verification/WorkerReports.v ===== *)
(** * The reports of a worker

    Models [commit_worker_report] of src/backend/app/worker_authority.py with
    [lock_report_subject] and [report_ack] of command_subjects.py: what a
    checkpoint or a terminal report counts, the receipt that answers its
    repetitions, and the end of its session or job.

    A report has passed [validate_message] when it gets here, so its counters
    and sequences are nonnegative signed63 integers and its hash a text; the
    parser refuses anything else. *)

From S2P Require Import Prelude PyFloat Hashes Json JsonFacts Protocol6 Uuid PyInt Transactions AccountStore CommandTables CommandSubjects KeyRing CommandStore SchedulerLease SessionAuthority.
Open Scope Z_scope.

(** ** What the report says *)

Definition int_item (d : dict) (k : string) : result exn Z :=
  v ← item d k;
  match v with
  | JInt z => if (0 <=? z) && (z <=? MAX_SEQUENCE) then Ok z else Err OverflowError
  | _ => Err (TypeError "an integer is required")
  end.
Definition int_or (d : dict) (k : string) (other : result exn Z) : result exn Z :=
  if has_key k d then int_item d k else other.
(** [d.get(k)] of an integer that may be absent. *)
Definition opt_int (d : dict) (k : string) : result exn (option Z) :=
  match get d k with JNull => Ok None | _ => z ← int_item d k; Ok (Some z) end.
Definition text_item (d : dict) (k : string) : result exn string :=
  v ← item d k; match v with JStr t => Ok t | _ => Err (TypeError "expected str") end.

Record work_report := {
  w_kind : string; w_session : bool; w_subject : string; w_generation : option Z;
  w_attempt : option string; w_dispatch : option Z; w_range : string; w_sequence : Z;
  w_hash : string; w_usage : usage; w_complete : bool; w_region : json; w_epoch : json; w_ack : dict
}.

Definition opt_num (o : option Z) : json := match o with Some z => JInt z | None => JNull end.

Definition report_ack (report : dict) (subject incarnation range : string) (attempt : option string)
    (generation dispatch : option Z) : result exn dict :=
  worker ← item report "worker_id";
  region ← item report "region";
  epoch ← item report "owner_epoch";
  sequence ← item report "report_sequence";
  hash ← item report "report_hash";
  gpu ← item report "gpu_ms";
  duration ← item report "duration_ms";
  let common := [("type", JStr "checkpoint_ack"); ("worker_id", worker); ("incarnation", JStr incarnation);
    ("region", region); ("owner_epoch", epoch); ("range_id", JStr range); ("report_sequence", sequence);
    ("report_hash", hash); ("gpu_ms", gpu); ("duration_ms", duration); ("status", JStr "accepted")] in
  Ok (if has_key "session_id" report
      then common ++ [("session_id", JStr subject); ("attempt_id", opt_str attempt);
                      ("control_generation", opt_num generation);
                      ("frames", default (JInt 0) (lookup_key "frames" report))]
      else common ++ [("job_id", JStr subject); ("dispatch_sequence", opt_num dispatch);
                      ("images", default (JInt 0) (lookup_key "images" report))]).

Definition parse_report (k : worker_key) (report : dict) : result exn work_report :=
  worker ← item report "worker_id";
  incarnation ← uuid_field report "incarnation";
  if negb (py_eq worker (JStr k.1)) || negb (bool_decide (incarnation = k.2))
  then Err (AuthorityUnavailable "worker report identity is not current") else
  let is_session := has_key "session_id" report in
  subject ← uuid_field report (if is_session then "session_id" else "job_id");
  generation ← opt_int report "control_generation";
  attempt ← (if is_session then a ← uuid_field report "attempt_id"; Ok (Some a) else Ok None);
  dispatch ← opt_int report "dispatch_sequence";
  range ← uuid_field report "range_id";
  sequence ← int_item report "report_sequence";
  hash ← text_item report "report_hash";
  gpu ← int_item report "gpu_ms";
  frames ← int_or report "frames" (int_or report "images" (Ok 0));
  duration ← int_item report "duration_ms";
  ack ← report_ack report subject incarnation range attempt generation dispatch;
  kind ← text_item report "type";
  region ← item report "region";
  epoch ← item report "owner_epoch";
  Ok {| w_kind := kind; w_session := is_session; w_subject := subject; w_generation := generation;
        w_attempt := attempt; w_dispatch := dispatch; w_range := range; w_sequence := sequence;
        w_hash := hash;
        w_usage := {| us_sequence := sequence; us_gpu := gpu; us_frames := frames; us_duration := duration |};
        w_complete := truthy (get report "physical_complete"); w_region := region; w_epoch := epoch;
        w_ack := ack |}.

(** The state a terminal report of a job leaves its attempt in. *)
Definition terminal_state (kind : string) : option string :=
  if decide (kind = "job_done") then Some "completed"
  else if decide (kind = "job_failed") then Some "failed"
  else if decide (kind = "job_cancelled") then Some "cancelled"
  else None.
Definition terminal_job (r : work_report) : bool := negb (w_session r) && some (terminal_state (w_kind r)).

(** ** The rows the report is about *)

Definition report_account (r : work_report) (s : store) : option string :=
  if w_session r then session_account (w_subject r) s else jb_user <$> job_rows s !! w_subject r.

(** The dispatch token a terminal report carries is the attempt's. *)
Definition token_matches (report : dict) (a : job_attempt) : bool :=
  match get report "dispatch_token" with
  | JStr token => isascii token && bool_decide (ja_token_hash a = sha256 token)
  | _ => false
  end.

(** Whether the report is of the job's current dispatch; [None] when its
    attempt is not there. *)
Definition lock_report_subject (k : worker_key) (report : dict) (r : work_report) (user : string)
    (s : store) : option bool :=
  if w_session r then
    e ← realtime_sessions s !! w_subject r;
    generation ← w_generation r;
    a ← session_attempts s !! (w_subject r, generation);
    if bool_decide (rs_user e = Some user) && attempt_of k a && py_eq (JInt (sa_epoch a)) (w_epoch r)
       && bool_decide (sa_range a = Some (w_range r)) && bool_decide (Some (sa_attempt a) = w_attempt r)
    then Some false else None
  else
    j ← job_rows s !! w_subject r;
    dispatch ← w_dispatch r;
    a ← job_attempts s !! (w_subject r, dispatch);
    if bool_decide (jb_user j = user) && bool_decide (ja_worker a = k.1)
       && bool_decide (ja_incarnation a = k.2) && py_eq (JInt (ja_epoch a)) (w_epoch r)
       && bool_decide (ja_range a = Some (w_range r)) && (negb (terminal_job r) || token_matches report a)
    then Some (jb_dispatch j =? dispatch) else None.

Definition range_matches (r : work_report) (p : physical_range) : bool :=
  bool_decide (pr_kind p = if w_session r then SessionRange else JobRange)
  && bool_decide (pr_subject p = w_subject r) && bool_decide (pr_attempt p = w_attempt r)
  && bool_decide (pr_generation p = w_generation r) && bool_decide (pr_sequence p = w_dispatch r).

Definition region_lease (region : json) (s : store) : option lease :=
  match region with JStr t => leases s !! t | _ => None end.

(** ** What it counts *)

Definition maxima (r : work_report) (p : physical_range) : usage :=
  {| us_sequence := w_sequence r;
     us_gpu := Z.max (us_gpu (pr_usage p)) (us_gpu (w_usage r));
     us_frames := Z.max (us_frames (pr_usage p)) (us_frames (w_usage r));
     us_duration := Z.max (us_duration (pr_usage p)) (us_duration (w_usage r)) |}.

(** [ack_type.update(...)] with the totals of the range. *)
Definition ack_totals (r : work_report) (u : usage) (ack : dict) : dict :=
  set_key (if w_session r then "frames" else "images") (JInt (us_frames u))
    (set_key "duration_ms" (JInt (us_duration u)) (set_key "gpu_ms" (JInt (us_gpu u)) ack)).
Definition stale_ack (r : work_report) (p : physical_range) : dict :=
  set_key (if w_session r then "frames" else "images") (JInt (us_frames (pr_usage p)))
    (set_key "duration_ms" (JInt (us_duration (pr_usage p)))
       (set_key "gpu_ms" (JInt (us_gpu (pr_usage p)))
          (set_key "code" (JStr "stale_report") (set_key "status" (JStr "refused") (w_ack r))))).

Definition count_range (r : work_report) (u : usage) (p : physical_range) : physical_range :=
  {| pr_worker := pr_worker p; pr_incarnation := pr_incarnation p; pr_region := pr_region p;
     pr_epoch := pr_epoch p; pr_account := pr_account p; pr_kind := pr_kind p; pr_subject := pr_subject p;
     pr_attempt := pr_attempt p; pr_generation := pr_generation p; pr_sequence := pr_sequence p;
     pr_state := pr_state p; pr_usage := u; pr_floor := pr_floor p; pr_hash := Some (w_hash r) |}.
Definition raise_report_floor (floor : Z) (p : physical_range) : physical_range :=
  {| pr_worker := pr_worker p; pr_incarnation := pr_incarnation p; pr_region := pr_region p;
     pr_epoch := pr_epoch p; pr_account := pr_account p; pr_kind := pr_kind p; pr_subject := pr_subject p;
     pr_attempt := pr_attempt p; pr_generation := pr_generation p; pr_sequence := pr_sequence p;
     pr_state := pr_state p; pr_usage := pr_usage p; pr_floor := Z.max (pr_floor p) floor;
     pr_hash := pr_hash p |}.

Section Report.
Context `{Driver}.
Variable m : moment.
Let now := e_write_clock m.

Definition count_session (r : work_report) (u : usage) (a : session_attempt) : session_attempt :=
{| sa_worker := sa_worker a; sa_incarnation := sa_incarnation a; sa_epoch := sa_epoch a;
   sa_attempt := sa_attempt a; sa_state := if w_complete r then "ended" else sa_state a;
   sa_range := sa_range a; sa_usage := u; sa_started := sa_started a;
   sa_ended := if w_complete r then Some now else sa_ended a |}.

(** A parameter that may be absent, bound to a bigint column. *)
Definition opt_bigint (v : json) : result exn (option Z) :=
match v with JNull => Ok None | _ => z ← bigint v; Ok (Some z) end.

Definition nonnegative (o : option Z) : bool := match o with Some z => 0 <=? z | None => true end.

(** The columns of a completed [job_done] or [job_failed] of the current
    dispatch; every parameter is bound whether or not it is used. *)
Definition report_outcome (report : dict) (r : work_report) (current : bool) (o : outcome_columns)
: result exn outcome_columns :=
input_fetch ← opt_bigint (get report "input_fetch_ms");
load ← opt_bigint (get report "load_ms");
postprocess ← opt_bigint (get report "postprocess_ms");
category ← column (get report "category");
score ← column (get report "category_score");
thumbnail ← column (default (JBool false) (lookup_key "has_thumbnail" report));
failure ← column (get report "failure_code");
let done_now := w_complete r && bool_decide (w_kind r = "job_done") && current in
let failed_now := w_complete r && bool_decide (w_kind r = "job_failed") && current in
let phase k v old := if done_now && has_key k report then v else old in
Ok {| oc_input_fetch := phase "input_fetch_ms" input_fetch (oc_input_fetch o);
      oc_load := phase "load_ms" load (oc_load o);
      oc_postprocess := phase "postprocess_ms" postprocess (oc_postprocess o);
      oc_category := if done_now then category else oc_category o;
      oc_score := if done_now then score else oc_score o;
      oc_thumbnail := if done_now then thumbnail else oc_thumbnail o;
      oc_failure := if failed_now then failure else oc_failure o |}.

Definition outcome_contract (o : outcome_columns) : bool :=
nonnegative (oc_input_fetch o) && nonnegative (oc_load o) && nonnegative (oc_postprocess o)
&& (is_null (oc_score o) || number_ge (oc_score o) 0 && number_le (oc_score o) 1).

Definition count_job (r : work_report) (u : usage) (o : outcome_columns) (a : job_attempt) : job_attempt :=
{| ja_command := ja_command a; ja_worker := ja_worker a; ja_incarnation := ja_incarnation a;
   ja_epoch := ja_epoch a;
   ja_state := match terminal_state (w_kind r) with
               | Some st => if w_complete r then st else ja_state a | None => ja_state a end;
   ja_token_hash := ja_token_hash a; ja_range := ja_range a;
   ja_terminal := if w_complete r then Some now else ja_terminal a; ja_usage := u; ja_outcome := o |}.

Definition count_attempt (report : dict) (r : work_report) (current : bool) (u : usage) : txn store unit :=
match w_session r, w_generation r, w_dispatch r with
| true, Some generation, _ =>
    write (on_session_attempts (alter (count_session r u) (w_subject r, generation)))
| false, _, Some dispatch =>
    a ← read (fun s => job_attempts s !! (w_subject r, dispatch));
    o ← lift (report_outcome report r current (default no_outcome (ja_outcome <$> a)));
    _ ← lift (require (outcome_contract o) (IntegrityError "job_attempts_phase_measurements"));
    write (on_job_attempts (alter (count_job r u o) (w_subject r, dispatch)))
| _, _, _ => mret tt
end.

(** A session that is not idle ends with its attempt. *)
Definition end_reported_session (r : work_report) : store -> store :=
on_realtime_sessions (alter (fun e =>
  if bool_decide (Some (rs_generation e) = w_generation r) && negb (bool_decide (rs_state e = Idle))
  then set_session_end Ended (Some now) e else e) (w_subject r)).

(** ** Receipts *)

Definition RETAINED_RECEIPTS : nat := 256.

Definition report_sequences (range : string) (rs : gmap (string * Z) receipt) : gset Z :=
list_to_set (omap (fun kv : (string * Z) * receipt =>
  if decide (kv.1.1 = range) then Some kv.1.2 else None) (map_to_list rs)).

(** [ORDER BY report_sequence DESC OFFSET 256] *)
Definition beyond_retained (all : gset Z) : gset Z :=
filter (fun q => (RETAINED_RECEIPTS <= size (filter (fun q' => (q < q')%Z) all))%nat) all.

(** [SELECT max(report_sequence) FROM removed] *)
Definition evicted_floor (removed : gset Z) : option Z :=
match elements removed with [] => None | q :: l => Some (foldr Z.max q l) end.

Definition insert_receipt (range : string) (sequence : Z) (x : receipt) : txn store unit := fun s =>
if some (receipts s !! (range, sequence)) then Err (IntegrityError "worker_report_receipts_pkey")
else if negb (0 <? sequence) then Err (IntegrityError "worker_reports_sequence")
else if negb ((0 <=? rr_gpu x) && (0 <=? rr_frames x) && (0 <=? rr_duration x))
then Err (IntegrityError "worker_reports_counters")
else if 16384 <? blen (rr_ack x) then Err (IntegrityError "worker_reports_ack_size")
else Ok (tt, on_receipts (<[(range, sequence) := x]>) s).

Definition evict_receipts (range : string) : txn store unit :=
removed ← read (fun s => beyond_retained (report_sequences range (receipts s)));
_ ← write (on_receipts (filter (fun kv : (string * Z) * receipt =>
                                 ~ (kv.1.1 = range /\ kv.1.2 ∈ removed))));
match evicted_floor removed with
| None => mret tt
| Some floor => write (on_ranges (alter (raise_report_floor floor) range))
end.

(** ** The whole transaction *)

Definition reported_command (k : worker_key) (r : work_report) (user : string) (sequence : Z) : reported :=
{| rc_kind := if w_session r then "close_session" else "dispatch_job"; rc_account := user;
   rc_subject := w_subject r; rc_sequence := sequence; rc_worker := k.1; rc_incarnation := k.2;
   rc_range := w_range r; rc_attempt := if w_session r then w_attempt r else None;
   rc_report := w_sequence r; rc_hash := w_hash r |}.

Definition subject_sequence (r : work_report) : option Z := if w_session r then w_generation r else w_dispatch r.

(** What the end of a session or job erases. *)
Definition erase_reported (k : worker_key) (r : work_report) (user : string) : txn store unit :=
if w_session r && w_complete r || terminal_job r then
  if w_complete r then
    match subject_sequence r with
    | Some sequence => _ ← erase_reported_subject_command (reported_command k r user sequence); mret tt
    | None => refused "reported command identity is invalid"
    end
  else
    _ ← erase_subject_commands m user (if w_session r then "session" else "job") (w_subject r)
          (subject_sequence r);
    mret tt
else mret tt.

(** The lease and the connection the report comes under. *)
Definition report_authority (r : work_report) (l : option lease) (c : option connection) : bool :=
match l, c with
| Some l, Some c =>
    (l_epoch l =? k_epoch c) && bool_decide (l_id l = k_lease c)
    && py_eq (JStr (k_region c)) (w_region r)
| _, _ => false
end.

Definition record_report (k : worker_key) (report : dict) (r : work_report) (user : string)
  (current : bool) (p : physical_range) : txn store string :=
let u := maxima r p in
ack ← lift (preflight_worker_control (JDict (ack_totals r u (w_ack r))) None None);
_ ← write (on_ranges (alter (count_range r u) (w_range r)));
_ ← count_attempt report r current u;
_ ← (if w_session r && w_complete r then write (end_reported_session r) else mret tt);
_ ← insert_receipt (w_range r) (w_sequence r)
      {| rr_hash := w_hash r; rr_gpu := us_gpu u; rr_frames := us_frames u; rr_duration := us_duration u;
         rr_ack := ack |};
_ ← evict_receipts (w_range r);
_ ← erase_reported k r user;
mret ack.

Definition report_in (k : worker_key) (report : dict) (r : work_report) : txn store string :=
user ← read (report_account r);
match user with
| None => unavailable "worker report attempt is unknown"
| Some user =>
    locked ← read (lock_report_subject k report r user);
    match locked with
    | None => unavailable "worker report range identity is unknown"
    | Some current =>
        physical ← read (range_of_worker k (Some (w_range r)));
        match physical with
        | None => unavailable "worker report range does not match"
        | Some p =>
            _ ← require_authority (range_matches r p) "worker report range does not match";
            _ ← (if terminal_job r && negb (w_complete r)
                 then _ ← subject_erasure_selection user "job" (w_subject r) (w_dispatch r); mret tt
                 else mret tt);
            l ← read (region_lease (w_region r));
            c ← read (own_connection m k);
            _ ← require_authority (report_authority r l c) "worker report authority is stale";
            _ ← require_authority (match l with Some l => e_deadline_clock m <? l_expires l | None => false end)
                  "worker report authority has expired";
            known ← read (fun s => receipts s !! (w_range r, w_sequence r));
            match known with
            | Some x =>
                _ ← require_authority (bool_decide (rr_hash x = w_hash r)) "worker report sequence changed bytes";
                mret (rr_ack x)
            | None =>
                if w_sequence r <=? pr_floor p
                then lift (preflight_worker_control (JDict (stale_ack r p)) None None)
                else record_report k report r user current p
            end
        end
    end
end.

Definition commit_worker_report (k : worker_key) (report : dict) : action store string :=
if negb (e_connected m) then fail_with (AuthorityUnavailable "worker report authority is unavailable")
else match parse_report k report with
     | Err e => fail_with e
     | Ok r => atomic (report_in k report r)
     end.

End Report.
