(* ===== verification/ReportFacts.v ===== *)
(** * Ranges, receipts and attempts: who changes them

    Only a report counts usage and writes receipts; everything else creates
    ranges and attempts with nothing counted, or moves an attempt towards its
    end.  [tables_evolve] is that relation; each transaction of
    command_store.py and worker_authority.py but the report satisfies it. *)

From S2P Require Import Prelude PyFloat Hashes Json JsonFacts Protocol6 Uuid PyInt KeyRing Transactions AccountStore CommandTables CommandSubjects CommandStore CommandFacts SchedulerLease LeaseFacts SessionAuthority WorkerReports.
Open Scope Z_scope.

(** ** The relation *)

(** What an attempt keeps; an ended one does not resume. *)
Record same_attempt (a a' : session_attempt) : Prop := {
  at_worker : sa_worker a' = sa_worker a;
  at_incarnation : sa_incarnation a' = sa_incarnation a;
  at_epoch : sa_epoch a' = sa_epoch a;
  at_id : sa_attempt a' = sa_attempt a;
  at_range : sa_range a' = sa_range a;
  at_ended : sa_state a = "ended" -> sa_state a' = "ended"
}.

(** The range of an attempt names it back. *)
Definition names_session (k : string * Z) (a : session_attempt) (p : physical_range) : Prop :=
  pr_kind p = SessionRange /\ pr_subject p = k.1 /\ pr_generation p = Some k.2
  /\ pr_attempt p = Some (sa_attempt a) /\ pr_sequence p = None
  /\ pr_worker p = sa_worker a /\ pr_incarnation p = sa_incarnation a.
Definition names_job (k : string * Z) (a : job_attempt) (p : physical_range) : Prop :=
  pr_kind p = JobRange /\ pr_subject p = k.1 /\ pr_sequence p = Some k.2
  /\ pr_attempt p = None /\ pr_generation p = None
  /\ pr_worker p = ja_worker a /\ pr_incarnation p = ja_incarnation a.

(** A range that is new in [s'], with nothing counted. *)
Definition new_in (s s' : store) (id : string) (p : physical_range) : Prop :=
  ranges s !! id = None /\ ranges s' !! id = Some p /\ pr_usage p = no_usage /\ pr_floor p = 0.

Record tables_evolve (s s' : store) : Prop := {
  te_receipts : receipts s' = receipts s;
  te_ranges : forall id p, ranges s !! id = Some p -> ranges s' !! id = Some p;
  te_new_ranges : forall id p, ranges s' !! id = Some p -> ranges s !! id = Some p \/ new_in s s' id p;
  te_sessions : forall k a, session_attempts s !! k = Some a ->
    exists a', session_attempts s' !! k = Some a' /\ same_attempt a a' /\ sa_usage a' = sa_usage a;
  te_new_sessions : forall k a', session_attempts s' !! k = Some a' -> session_attempts s !! k = None ->
    exists id p, sa_range a' = Some id /\ new_in s s' id p /\ names_session k a' p /\ sa_usage a' = no_usage;
  te_jobs : forall k a, job_attempts s !! k = Some a -> job_attempts s' !! k = Some a;
  te_new_jobs : forall k a', job_attempts s' !! k = Some a' -> job_attempts s !! k = None ->
    exists id p, ja_range a' = Some id /\ new_in s s' id p /\ names_job k a' p /\ ja_usage a' = no_usage
}.

Lemma same_attempt_refl a : same_attempt a a.
Proof. by split. Qed.
Lemma same_attempt_trans a b c : same_attempt a b -> same_attempt b c -> same_attempt a c.
Proof. intros [] []. split; try congruence. auto. Qed.

Lemma new_in_later s1 s2 s3 id p : tables_evolve s2 s3 -> new_in s1 s2 id p -> new_in s1 s3 id p.
Proof. intros He (H1 & H2 & H3 & H4). repeat split; try done. by apply (te_ranges _ _ He). Qed.
Lemma new_in_earlier s1 s2 s3 id p : tables_evolve s1 s2 -> new_in s2 s3 id p -> new_in s1 s3 id p.
Proof.
  intros He (H1 & H2 & H3 & H4). repeat split; try done. destruct (ranges s1 !! id) eqn:E; [|done].
  apply (te_ranges _ _ He) in E. congruence.
Qed.

Global Instance tables_evolve_preorder : PreOrder tables_evolve.
Proof.
  split.
  - intros s. split; try done; [by left| |intros k a' H1 H2; congruence..].
    intros k a Ha. exists a. split; [done|]. split; [apply same_attempt_refl|done].
  - intros s1 s2 s3 E1 E2. pose proof E1 as [R1 G1 N1 S1 A1 J1 B1]. pose proof E2 as [R2 G2 N2 S2 A2 J2 B2].
    split; [congruence|by auto| | | |by auto|].
    + intros id p [?|Hn]%N2; [|right; by eapply new_in_earlier].
      destruct (N1 id p) as [?|Hn]; [done|by left|right; by eapply new_in_later].
    + intros k a (a2 & H2 & Hs & Hu)%S1. destruct (S2 _ _ H2) as (a3 & H3 & Hs3 & Hu3).
      exists a3. split; [done|]. split; [by eapply same_attempt_trans|congruence].
    + intros k a3 H3 Hnone. destruct (session_attempts s2 !! k) as [a2|] eqn:H2.
      * destruct (A1 _ _ H2 Hnone) as (id & p & Hr & Hn & Hnm & Hu).
        destruct (S2 _ _ H2) as (a3' & H3' & [? ? ? ? ? _] & Hu3). simplify_eq.
        exists id, p. split; [congruence|]. split; [by eapply new_in_later|]. split; [|congruence].
        unfold names_session in *. naive_solver congruence.
      * destruct (A2 _ _ H3 H2) as (id & p & Hr & Hn & Hnm & Hu). exists id, p.
        split; [done|]. split; [by eapply new_in_earlier|done].
    + intros k a3 H3 Hnone. destruct (job_attempts s2 !! k) as [a2|] eqn:H2.
      * destruct (B1 _ _ H2 Hnone) as (id & p & Hr & Hn & Hnm & Hu). apply J2 in H2. simplify_eq.
        exists id, p. split; [done|]. split; [by eapply new_in_later|done].
      * destruct (B2 _ _ H3 H2) as (id & p & Hr & Hn & Hnm & Hu). exists id, p.
        split; [done|]. split; [by eapply new_in_earlier|done].
Qed.

(** The tables of the relation are the same. *)
Definition unmetered (s s' : store) : Prop :=
  receipts s' = receipts s /\ ranges s' = ranges s /\ session_attempts s' = session_attempts s
  /\ job_attempts s' = job_attempts s.
Global Instance unmetered_preorder : PreOrder unmetered.
Proof. split; [by intros s|]. unfold unmetered. intros a b c. naive_solver congruence. Qed.

Lemma unmetered_evolve s s' : unmetered s s' -> tables_evolve s s'.
Proof.
  intros (H1 & H2 & H3 & H4). split; rewrite ?H1, ?H2, ?H3, ?H4; try done; [by left| |intros; congruence..].
  intros k a Ha. exists a. split; [done|]. split; [apply same_attempt_refl|done].
Qed.

(** Attempts alone changed, each for the better. *)
Lemma attempts_evolve s f :
  (forall k, match session_attempts s !! k, f (session_attempts s) !! k with
             | Some a, Some a' => same_attempt a a' /\ sa_usage a' = sa_usage a
             | None, None => True | _, _ => False end) ->
  tables_evolve s (on_session_attempts f s).
Proof.
  intros Hf. split; cbn; try done; [by left| | |intros; congruence].
  - intros k a Ha. specialize (Hf k). rewrite Ha in Hf. destruct (f _ !! k) as [a'|]; [|done]. eauto.
  - intros k a' Ha Hn. specialize (Hf k). by rewrite Ha, Hn in Hf.
Qed.

(** ** The transactions *)

Lemma update_command_unmetered k n f : keeps unmetered (update_command k n f).
Proof. intros s u s'. unfold update_command. repeat case_match; try done; by intros [= _ <-]. Qed.
Lemma insert_command_unmetered k n r : keeps unmetered (insert_command k n r).
Proof. intros s u s'. unfold insert_command. repeat case_match; try done. by intros [= _ <-]. Qed.
Lemma update_connection_unmetered k f : keeps unmetered (update_connection k f).
Proof. intros s u s'. unfold update_connection. repeat case_match; try done; by intros [= _ <-]. Qed.
Lemma refuse_when_unmetered b msg : keeps unmetered (refuse_when b msg).
Proof. intros s a s' H. by apply refuse_when_ok in H as [_ ->]. Qed.
Lemma refused_unmetered {A} msg : keeps unmetered (@refused A msg).
Proof. by intros s a s' H. Qed.
#[export] Hint Resolve update_command_unmetered insert_command_unmetered update_connection_unmetered
  refuse_when_unmetered refused_unmetered : keeps.

Ltac unmetered_step :=
  match goal with
  | |- keeps _ (refuse_when _ _) => apply refuse_when_unmetered
  | |- keeps _ (refused _) => apply refused_unmetered
  | |- keeps _ (update_connection _ _) => apply update_connection_unmetered
  | |- keeps _ (update_command _ _ _) => apply update_command_unmetered
  | |- unmetered _ (on_connections _ _) => done
  | |- unmetered _ (on_commands _ _) => done
  | |- unmetered _ (on_journal _ _ _) => done
  | |- unmetered _ (on_realtime_sessions _ _) => done
  | |- unmetered _ (on_job_rows _ _) => done
  | |- unmetered _ (erase_rows _ _) => repeat split
  | |- unmetered _ (close_workers _ _ _) => repeat split
  | |- unmetered _ ?s => reflexivity
  | |- unmetered _ (match ?x with _ => _ end) => destruct x
  | _ => keep_step
  end.
Ltac unmeter := repeat (cbv zeta; intros; unmetered_step).

Section Transactions.
Context `{Driver}.
Variable m : moment.

Lemma erase_pending_unmetered sel : keeps unmetered (erase_pending_rows m sel).
Proof. unfold erase_pending_rows. unmeter. Qed.
Lemma erase_subject_unmetered account kind subject sequence :
keeps unmetered (erase_subject_commands m account kind subject sequence).
Proof.
unfold erase_subject_commands, subject_erasure_selection. unmeter. apply erase_pending_unmetered.
Qed.
Lemma erase_reported_unmetered r : keeps unmetered (erase_reported_subject_command r).
Proof. unfold erase_reported_subject_command, lock_reported_command. unmeter. Qed.

Lemma prepare_unmetered w i t kind fields account context job_context :
keeps unmetered (prepare_command_subject m w i t kind fields account context job_context).
Proof.
unfold prepare_command_subject, prepare_open, prepare_update, prepare_close, prepare_dispatch, prepare_cancel,
  swap_desired. unmeter.
Qed.

End Transactions.

Lemma keeps_lift_at {S A} (R : S -> S -> Prop) `{!PreOrder R} (f : S -> result exn A) :
  keeps R (fun s => lift (f s) s).
Proof. intros s a s' Ha. apply lift_ok in Ha as [_ ->]. reflexivity. Qed.

Section Commands.
Context `{Driver} `{CryptoOps}.
Variable m : moment.
Variable ring : result exn key_ring.

Lemma apply_update_unmetered row command : keeps unmetered (apply_update row command).
Proof. unfold apply_update. unmeter. Qed.
Lemma raise_floor_unmetered k old floor : keeps unmetered (raise_floor k old floor).
Proof. unfold raise_floor. unmeter. Qed.

Lemma acknowledge_unmetered k transport message a : keeps unmetered (acknowledge_in m ring k transport message a).
Proof.
unfold acknowledge_in, acknowledge_row, acknowledge_pending.
repeat (cbv zeta; intros;
  first [apply keeps_lift_at; apply _|apply apply_update_unmetered|apply raise_floor_unmetered|unmetered_step]).
Qed.

Lemma upsert_unmetered conn subject owner ctx generation :
keeps unmetered (upsert_session conn subject owner ctx generation).
Proof. unfold upsert_session. unmeter. Qed.
Lemma start_job_unmetered subject previous sequence : keeps unmetered (start_job m subject previous sequence).
Proof. unfold start_job. unmeter. Qed.

(** A claim makes one attempt and the range that names it. *)
Lemma session_claim_evolves w i conn subject attempt generation range owner account ctx s u s' :
apply_session_claim w i conn subject attempt generation range owner account ctx s = Ok (u, s') ->
tables_evolve s s'.
Proof.
unfold apply_session_claim. intros Hrun. cmd_inv. rename a into g.
match goal with Hu : upsert_session _ _ _ _ _ _ = Ok (_, ?s1) |- _ =>
  rename s1 into w0; apply upsert_unmetered in Hu as Hup end.
match goal with Hi : insert_attempt _ _ _ _ _ _ _ _ = _ |- _ => unfold insert_attempt in Hi;
  destruct (some (session_attempts w0 !! _)) eqn:Enew; [done|]; case_match; [done|]; injection Hi as <- end.
unfold insert_range in Hrun. cbn [ranges on_session_attempts] in Hrun.
destruct (some (ranges w0 !! range)) eqn:Erange; [done|]. case_match; [done|]. injection Hrun as <-.
assert (Hnone : session_attempts w0 !! (subject, g) = None) by (by destruct (session_attempts w0 !! _)).
assert (Hfree : ranges w0 !! range = None) by (by destruct (ranges w0 !! range)).
etransitivity; [by apply unmetered_evolve|]. split; cbn; try done.
- intros id p Hp. rewrite lookup_insert_ne; [done|]. intros <-. congruence.
- intros id p. rewrite lookup_insert_Some. intros [[<- <-]|[_ ?]]; [right|by left].
  repeat split; [done|]. cbn. by rewrite lookup_insert_eq.
- intros k b Hb. exists b. split; [|split; [apply same_attempt_refl|done]].
  rewrite lookup_insert_ne; [done|]. intros <-. congruence.
- intros k b. rewrite lookup_insert_Some. intros [[<- <-]|[_ Hb]] Hk; [|congruence].
  eexists range, _. split; [done|]. split.
  + split; [done|]. split; [cbn; by rewrite lookup_insert_eq|done].
  + by repeat split.
- intros; congruence.
Qed.

Lemma job_claim_evolves w i conn subject previous sequence range token account id s u s' :
apply_job_claim m w i conn subject previous sequence range token account id s = Ok (u, s') ->
tables_evolve s s'.
Proof.
unfold apply_job_claim. intros Hrun. cmd_inv.
match goal with Hi : insert_job_attempt _ _ _ _ = Ok (_, ?s1) |- _ => unfold insert_job_attempt in Hi;
  destruct (some (job_attempts s !! _)) eqn:Enew; [done|]; case_match; [done|]; case_match; [done|];
  injection Hi as <- end.
assert (Hnone : job_attempts s !! (subject, sequence) = None) by (by destruct (job_attempts s !! _)).
match goal with Hs : start_job _ _ _ _ _ = _ |- _ => apply start_job_unmetered in Hs as (R1 & G1 & A1 & J1) end. unfold insert_range in Hrun. rewrite G1 in Hrun. cbn in Hrun.
destruct (some (ranges s !! range)) eqn:Erange; [done|]. case_match; [done|]. injection Hrun as <-.
assert (Hfree : ranges s !! range = None) by (by destruct (ranges s !! range)).
split; cbn; rewrite ?R1, ?G1, ?A1, ?J1; cbn; try done.
- intros rid p Hp. rewrite lookup_insert_ne; [done|]. intros <-. congruence.
- intros rid p. rewrite lookup_insert_Some. intros [[<- <-]|[_ ?]]; [right|by left].
  repeat split; [done|]. cbn. rewrite G1. cbn. by rewrite lookup_insert_eq.
- intros k b Hb. exists b. split; [done|]. split; [apply same_attempt_refl|done].
- intros; congruence.
- intros k b Hb. rewrite lookup_insert_ne; [done|]. intros <-. congruence.
- intros k b. rewrite lookup_insert_Some. intros [[<- <-]|[_ Hb]] Hk; [|congruence].
  eexists range, _. split; [done|]. split.
  + split; [done|]. split; [cbn; rewrite G1; cbn; by rewrite lookup_insert_eq|done].
  + by repeat split.
Qed.

Lemma claim_evolves w i conn c account id : keeps tables_evolve (apply_command_claim m w i conn c account id).
Proof.
intros s u s' Hrun. unfold apply_command_claim in Hrun. destruct c as [c|]; [|by cmd_inv].
cmd_inv. destruct c; [by eapply session_claim_evolves|by eapply job_claim_evolves].
Qed.

Lemma commit_evolves q account : keeps tables_evolve (commit_in m ring q account).
Proof.
intros s r s' Hrun. unfold commit_in in Hrun. cmd_inv.
match goal with Hp : prepare_command_subject _ _ _ _ _ _ _ _ _ _ = _ |- _ => apply prepare_unmetered in Hp end.
match goal with Hg : lock_grant _ _ _ _ _ _ = _ |- _ => apply lock_grant_ok in Hg as [-> _] end.
match goal with Hst : store_command _ _ _ _ _ _ _ = _ |- _ => unfold store_command in Hst end. cmd_inv.
etransitivity; [by apply unmetered_evolve|].
match goal with Hr : raise_floor _ _ _ _ = _ |- _ => apply raise_floor_unmetered in Hr end.
etransitivity; [by apply unmetered_evolve|].
match goal with a : (list Z * Z)%type |- _ => destruct a; cmd_inv end.
match goal with Hc : apply_command_claim _ _ _ _ _ _ _ _ = _ |- _ => apply claim_evolves in Hc end.
etransitivity; [eassumption|].
match goal with Hi : insert_command _ _ _ _ = _ |- _ => apply insert_command_unmetered in Hi end.
match goal with Hu : update_connection _ _ _ = _ |- _ => apply update_connection_unmetered in Hu end.
apply unmetered_evolve. by etransitivity.
Qed.

End Commands.

(** ** The life of a session *)

Section Sessions.
Context `{Driver}.
Variable m : moment.

Lemma attempt_open_state a : attempt_open a = true <-> sa_state a = "opening" \/ sa_state a = "running".
Proof.
unfold attempt_open, is_in. rewrite bool_decide_eq_true, !elem_of_cons, elem_of_nil. naive_solver.
Qed.

Lemma end_attempts_evolve p s : tables_evolve s (end_attempts m p s).
Proof.
unfold end_attempts. apply attempts_evolve. intros k. rewrite map_lookup_imap.
destruct (session_attempts s !! k) as [a|]; [|done]. cbn. destruct (p k a && _) eqn:E.
- split; [|done]. by split.
- split; [apply same_attempt_refl|done].
Qed.

Ltac evolve :=
repeat first
  [ progress (cbv zeta; intros)
  | match goal with |- keeps tables_evolve (erase_subject_commands _ _ _ _ _) =>
      intros ? ? ? ?%erase_subject_unmetered; by apply unmetered_evolve end
  | match goal with |- keeps tables_evolve (update_connection _ _) =>
      intros ? ? ? ?%update_connection_unmetered; by apply unmetered_evolve end
  | match goal with |- tables_evolve _ (end_attempts _ _ _) => apply end_attempts_evolve end
  | match goal with |- tables_evolve _ (on_realtime_sessions _ _) => by apply unmetered_evolve end
  | match goal with |- tables_evolve _ (end_closing _ _ _ _) => by apply unmetered_evolve end
  | keep_step
  | apply keeps_txn_each; [apply _|] ].

Lemma close_evolves k : keeps tables_evolve (close_in m k).
Proof. unfold close_in, close_own_connection. evolve. Qed.
Lemma end_session_evolves id g b : keeps tables_evolve (end_session_in m id g b).
Proof. unfold end_session_in. evolve. Qed.
Lemma abandon_evolves id g a : keeps tables_evolve (abandon_in m id g a).
Proof. unfold abandon_in. evolve. Qed.

(** A session that becomes live: its attempt was opening on this worker, and
    the worker's grant and lease were current. *)
Record goes_live (k : worker_key) (id : string) (generation : json) (s s' : store) : Prop := mk_live {
  gl_witness : exists bound e a p l c,
    bigint generation = Ok bound
    /\ realtime_sessions s !! id = Some e /\ rs_state e = Assigning
    /\ session_attempts s !! (id, bound) = Some a /\ sa_state a = "opening"
    /\ sa_worker a = k.1 /\ sa_incarnation a = k.2
    /\ range_of_worker k (sa_range a) s = Some p /\ pr_state p = Outstanding
    /\ leases s !! REGION = Some l /\ own_connection m k s = Some c
    /\ k_grant_ready c = true /\ l_epoch l = k_epoch c /\ l_id l = k_lease c /\ sa_epoch a = k_epoch c
    /\ e_deadline_clock m < l_expires l /\ e_deadline_clock m < k_grant_expires c
    /\ s' = on_realtime_sessions (alter (made_live m (k_epoch c)) id)
              (on_session_attempts (alter (start_attempt m) (id, bound)) s)
}.

Lemma ready_ok k id generation message s b s' :
ready_in m k id generation message s = Ok (b, s') ->
(b = false /\ s' = s) \/ (b = true /\ goes_live k id generation s s').
Proof.
unfold ready_in. intros Hrun. cmd_inv. destruct (session_account id s); [|cmd_inv; by left]. cmd_inv.
destruct (realtime_sessions s !! id) as [e|] eqn:Ee; [|cmd_inv; by left].
match goal with Hb : bigint generation = Ok ?z |- _ => rename z into bound; rename Hb into Hbound end.
destruct (session_attempts s !! (id, bound)) as [a|] eqn:Ea; [|cmd_inv; by left].
destruct (_ || _) eqn:E1 in Hrun; [cmd_inv; by left|]. cmd_inv.
destruct (_ || _) eqn:E2 in Hrun; [cmd_inv; by left|]. cmd_inv.
destruct (range_of_worker k (sa_range a) s) as [p|] eqn:Ep; [|cmd_inv; by left].
destruct (leases s !! REGION) as [l|] eqn:El; [|cmd_inv; by left].
destruct (own_connection m k s) as [c|] eqn:Ec; [|cmd_inv; by left].
destruct (_ || _) eqn:E3 in Hrun; [cmd_inv; by left|]. cmd_inv. right. split; [done|]. split.
exists bound, e, a, p, l, c. unfold ready_authority, attempt_of in *.
rewrite ?orb_false_iff, ?negb_false_iff, ?andb_true_iff, ?bool_decide_eq_true in *.
repeat match goal with Hh : _ /\ _ |- _ => destruct Hh end.
repeat split; try done; lia.
Qed.

Lemma ready_evolves k id generation message : keeps tables_evolve (ready_in m k id generation message).
Proof.
intros s b s' [[_ ->]|[_ [(bound & e & a & p & l & c & _ & _ & _ & Ha & Hst & _ & _ & _ & _ & _ & _ & _ & _ & _ & _ & _ & _ & ->)]]]%ready_ok;
  [reflexivity|].
transitivity (on_session_attempts (alter (start_attempt m) (id, bound)) s); [|by apply unmetered_evolve].
apply attempts_evolve. intros k'.
destruct (decide (k' = (id, bound))) as [->|Hne].
- rewrite lookup_alter_eq, Ha. cbn. split; [|done]. split; try done. congruence.
- rewrite lookup_alter_ne by done. destruct (session_attempts s !! k'); [|done].
  split; [apply same_attempt_refl|done].
Qed.

(** ** Leases and registrations *)

Lemma rewrites_unmetered k P s s' : rewrites k P s s' -> unmetered s s'.
Proof. intros [->|(c & c' & _ & _ & ->)]; done. Qed.

Lemma register_unmetered g : keeps unmetered (register_in m g).
Proof. intros s r s' Hr. destruct (register_inserts _ _ _ _ _ Hr) as (? & ? & ? & ? & ? & _ & _ & _ & _ & _ & _ & ->). done. Qed.
Lemma update_models_unmetered k ms : keeps unmetered (update_models_in m k ms).
Proof. intros s u s' ?%update_models_ok. by eapply rewrites_unmetered. Qed.
Lemma activate_unmetered k : keeps unmetered (activate_in m k).
Proof. intros s u s' [? _]%activate_ok. by eapply rewrites_unmetered. Qed.
Lemma touch_unmetered k p : keeps unmetered (touch_in m k p).
Proof. intros s u s' ?%touch_ok. by eapply rewrites_unmetered. Qed.
Lemma renew_grant_unmetered k n tc tr : keeps unmetered (renew_grant_in m k n tc tr).
Proof. intros s u s' [? _]%renew_grant_ok. by eapply rewrites_unmetered. Qed.
Lemma acquire_unmetered region id te tl : keeps unmetered (acquire_in m region id te tl).
Proof.
intros s r s' Hr. unfold acquire_in in Hr. lease_inv. destruct (taken_lease _ _ _ _ _); [|done].
unfold write_lease in Hr. case_match; [done|]. by lease_inv.
Qed.
Lemma renew_lease_unmetered mine : keeps unmetered (renew_in m mine).
Proof.
intros s r s' Hr. unfold renew_in in Hr. lease_inv. destruct (renewed_lease _ _ _); [|by lease_inv].
lease_inv. match goal with Hw : write_lease _ _ _ = _ |- _ => unfold write_lease in Hw; case_match; [done|] end.
by lease_inv.
Qed.

End Sessions.
