(* ===== verification/ReportSystem.v ===== *)
(** * Reports among the other transactions

    What a report leaves in the tables, the system whose steps are reports and
    the other transactions, and the invariants of its runs: receipts stay above
    the floor of their range and are bounded in number, an attempt counts what
    its range counts, and what a report is checked against stays, so that the
    answer to one received again is known. *)

From S2P Require Import Prelude PyFloat Hashes Json JsonFacts Protocol6 Uuid PyInt KeyRing Transactions AccountStore CommandTables CommandSubjects CommandStore CommandFacts SchedulerLease LeaseFacts SessionAuthority WorkerReports ReportFacts.
Open Scope Z_scope.

(** ** Receipts *)

Lemma elem_of_report_sequences range rs q : q ∈ report_sequences range rs <-> is_Some (rs !! (range, q)).
Proof.
  unfold report_sequences. rewrite elem_of_list_to_set, list_elem_of_omap. split.
  - intros ([[rg q'] x] & Hin & Hd). apply elem_of_map_to_list in Hin. cbn in Hd.
    case_decide; [|done]. simplify_eq. by eexists.
  - intros [x Hx]. exists ((range, q), x). split; [by apply elem_of_map_to_list|]. cbn. by rewrite decide_True.
Qed.

Lemma report_sequences_insert (range : string) (q : Z) (x : receipt) (rs : gmap (string * Z) receipt) :
  report_sequences range (<[(range, q) := x]> rs) = {[q]} ∪ report_sequences range rs.
Proof.
  apply set_eq. intros z. rewrite elem_of_union, elem_of_singleton, !elem_of_report_sequences.
  rewrite lookup_insert_is_Some. destruct (decide (z = q)) as [->|]; naive_solver congruence.
Qed.

Lemma beyond_retained_below S x y : x ∈ beyond_retained S -> y ∈ S ∖ beyond_retained S -> x < y.
Proof.
  unfold beyond_retained. intros [Hx HS]%elem_of_filter [HyS Hy]%elem_of_difference.
  destruct (decide (x < y)); [done|]. exfalso. apply Hy. apply elem_of_filter. split; [|done].
  etransitivity; [exact Hx|]. apply subseteq_size. intros z [Hz Hin]%elem_of_filter.
  apply elem_of_filter. split; [lia|done].
Qed.

Lemma least_element (S : gset Z) : S <> ∅ -> exists z, z ∈ S /\ forall y, y ∈ S -> z <= y.
Proof.
  induction S as [|x S Hx IH] using set_ind_L; [done|]. intros _. destruct (decide (S = ∅)) as [->|Hne].
  - exists x. split; [set_solver|]. intros y Hy. assert (y = x) as -> by set_solver. lia.
  - destruct (IH Hne) as (z & Hz & Hmin). exists (Z.min x z). split.
    + destruct (Z.min_spec x z) as [[_ ->]|[_ ->]]; set_solver.
    + intros y [->%elem_of_singleton|Hy]%elem_of_union; [lia|]. specialize (Hmin y Hy). lia.
Qed.

Lemma beyond_retained_size S :
  (size S <= RETAINED_RECEIPTS + 1)%nat -> (size (S ∖ beyond_retained S) <= RETAINED_RECEIPTS)%nat.
Proof.
  intros Hsize. destruct (decide (size S <= RETAINED_RECEIPTS)%nat) as [Hle|Hgt].
  { etransitivity; [|exact Hle]. apply subseteq_size. set_solver. }
  destruct (least_element S) as (z & Hz & Hmin).
  { intros ->. rewrite size_empty in Hgt. lia. }
  assert (Hlt : size (S ∖ {[z]}) = (size S - 1)%nat).
  { rewrite size_difference by set_solver. by rewrite size_singleton. }
  transitivity (size (S ∖ {[z]})); [|lia]. apply subseteq_size.
  enough (z ∈ beyond_retained S) by set_solver. apply elem_of_filter. split; [|done].
  replace (filter (fun q' => (z < q')%Z) S) with (S ∖ {[z]}); [lia|].
  apply set_eq. intros y. rewrite elem_of_filter, elem_of_difference, elem_of_singleton. split.
  - intros [Hy Hne]. split; [|done]. specialize (Hmin y Hy). lia.
  - intros [Hlty Hy]. split; [done|lia].
Qed.

Lemma foldr_max_spec q l : let f := foldr Z.max q l in f ∈ q :: l /\ forall x, x ∈ q :: l -> x <= f.
Proof.
  cbn. induction l as [|y l [IH1 IH2]]; cbn.
  - split; [by left|]. intros x [->|[]%elem_of_nil]%elem_of_cons. lia.
  - split.
    + destruct (Z.max_spec y (foldr Z.max q l)) as [[_ ->]|[_ ->]]; set_solver.
    + intros x [->|[->|Hx]%elem_of_cons]%elem_of_cons; [|lia|].
      * specialize (IH2 q ltac:(left)). lia.
      * specialize (IH2 x ltac:(by right)). lia.
Qed.

Lemma evicted_floor_spec R :
  match evicted_floor R with
  | None => R = ∅
  | Some f => f ∈ R /\ forall x, x ∈ R -> x <= f
  end.
Proof.
  unfold evicted_floor. destruct (elements R) as [|q l] eqn:E.
  - by apply elements_empty_inv, leibniz_equiv in E.
  - pose proof (foldr_max_spec q l) as [H1 H2]. cbn in H1, H2. rewrite <- E in H1, H2.
    split; [by apply elem_of_elements|]. intros x Hx. apply H2. by apply elem_of_elements.
Qed.

(** ** What a report does *)

(** The parts of the tables a recorded report writes. *)
Record counts (m : moment) (k : worker_key) (r : work_report) (p : physical_range) (ack : string)
    (s s' : store) : Prop := {
  ct_receipts : exists x, rr_hash x = w_hash r /\ rr_ack x = ack
    /\ rr_gpu x = us_gpu (maxima r p) /\ rr_frames x = us_frames (maxima r p)
    /\ rr_duration x = us_duration (maxima r p)
    /\ let rs := <[(w_range r, w_sequence r) := x]> (receipts s) in
       let gone := beyond_retained (report_sequences (w_range r) rs) in
       receipts s' = filter (fun kv : (string * Z) * receipt => ~ (kv.1.1 = w_range r /\ kv.1.2 ∈ gone)) rs
       /\ exists p', ranges s' = <[w_range r := p']> (ranges s)
            /\ pr_usage p' = maxima r p
            /\ pr_floor p' = match evicted_floor gone with
                             | Some f => Z.max (pr_floor p) f | None => pr_floor p end
            /\ pr_worker p' = pr_worker p /\ pr_incarnation p' = pr_incarnation p
            /\ pr_kind p' = pr_kind p /\ pr_subject p' = pr_subject p /\ pr_attempt p' = pr_attempt p
            /\ pr_generation p' = pr_generation p /\ pr_sequence p' = pr_sequence p;
  ct_sessions : session_attempts s' =
    match w_session r, w_generation r with
    | true, Some g => alter (count_session m r (maxima r p)) (w_subject r, g) (session_attempts s)
    | _, _ => session_attempts s end;
  ct_jobs : exists o, job_attempts s' =
    match w_session r, w_dispatch r with
    | false, Some q => alter (count_job m r (maxima r p) o) (w_subject r, q) (job_attempts s)
    | _, _ => job_attempts s end;
  ct_ack : preflight_worker_control (JDict (ack_totals r (maxima r p) (w_ack r))) None None = Ok ack
}.

Section Report.
Context `{Driver}.
Variable m : moment.

Lemma erase_reported_keeps k r user : keeps unmetered (erase_reported m k r user).
Proof.
unfold erase_reported.
repeat first [match goal with |- keeps _ (erase_subject_commands _ _ _ _ _) => apply erase_subject_unmetered end
             |match goal with |- keeps _ (erase_reported_subject_command _) => apply erase_reported_unmetered end
             |progress (cbv zeta; intros)|unmetered_step].
Qed.

Lemma count_attempt_ok report r current u s a s' :
count_attempt m report r current u s = Ok (a, s') ->
receipts s' = receipts s /\ ranges s' = ranges s
/\ session_attempts s' =
    match w_session r, w_generation r with
    | true, Some g => alter (count_session m r u) (w_subject r, g) (session_attempts s)
    | _, _ => session_attempts s end
/\ exists o, job_attempts s' =
    match w_session r, w_dispatch r with
    | false, Some q => alter (count_job m r u o) (w_subject r, q) (job_attempts s)
    | _, _ => job_attempts s end.
Proof.
unfold count_attempt. intros Hrun.
destruct (w_session r), (w_generation r), (w_dispatch r); cmd_inv;
  (do 3 (split; [done|])); first [by exists no_outcome|eexists; reflexivity].
Qed.

Lemma record_report_ok k report r user current p s ack s' :
ranges s !! w_range r = Some p ->
record_report m k report r user current p s = Ok (ack, s') -> counts m k r p ack s s'.
Proof.
intros Hp Hrun. unfold record_report in Hrun. cmd_inv.
match goal with Hc : count_attempt _ _ _ _ _ _ = _ |- _ =>
  apply count_attempt_ok in Hc as (R1 & G1 & A1 & o & J1) end.
cbn in R1, G1, A1, J1.
match goal with Hi : insert_receipt _ _ ?x ?s1 = Ok (_, ?s2) |- _ =>
  unfold insert_receipt in Hi; repeat (case_match; [done|]); injection Hi as <-; set (rx := x) in * end.
match goal with He : erase_reported _ _ _ _ _ = _ |- _ => apply erase_reported_keeps in He as (R3 & G3 & A3 & J3) end.
match goal with Hs : (if w_session r && w_complete r then _ else _) ?s1 = Ok (_, ?s2) |- _ =>
  assert (unmetered s1 s2) as (R2 & G2 & A2 & J2) by (destruct (_ && _); by cmd_inv); clear Hs end.
match goal with Hv : evict_receipts _ _ = _ |- _ => unfold evict_receipts in Hv end. cmd_inv.
match goal with Hf : (match ?o with Some _ => _ | None => _ end) ?s1 = Ok (_, ?s2) |- _ =>
  assert (Hfin : receipts s2 = receipts s1 /\ session_attempts s2 = session_attempts s1
    /\ job_attempts s2 = job_attempts s1 /\ ranges s2 = match o with
       | Some f => alter (raise_report_floor f) (w_range r) (ranges s1) | None => ranges s1 end)
    by (destruct o; by cmd_inv); clear Hf end.
cbn in Hfin. rewrite R2, R1, G2, G1, A2, A1, J2, J1 in Hfin. destruct Hfin as (R4 & A4 & J4 & G4).
split; [|by rewrite A3, A4|exists o; by rewrite J3, J4|done].
exists rx. do 5 (split; [done|]). split; [by rewrite R3, R4|].
rewrite G3, G4. destruct (evicted_floor _) as [f|];
  [exists (raise_report_floor f (count_range r (maxima r p) p))|exists (count_range r (maxima r p) p)]; (split; [|by repeat split]).
- apply map_eq. intros i. destruct (decide (i = w_range r)) as [->|Hne].
  + rewrite lookup_alter_eq, lookup_alter_eq, Hp, lookup_insert_eq. done.
  + by rewrite !lookup_alter_ne, lookup_insert_ne by done.
- apply map_eq. intros i. destruct (decide (i = w_range r)) as [->|Hne].
  + rewrite lookup_alter_eq, Hp, lookup_insert_eq. done.
  + by rewrite lookup_alter_ne, lookup_insert_ne by done.
Qed.

(** The report is neither known nor below the floor of its range. *)
Definition newly (r : work_report) (s : store) : bool :=
none (receipts s !! (w_range r, w_sequence r))
&& match ranges s !! w_range r with Some p => pr_floor p <? w_sequence r | None => false end.

(** The rows a report passed its checks with. *)
Record admitted (k : worker_key) (report : dict) (r : work_report) (s : store) (p : physical_range) : Prop := {
  ad_range : ranges s !! w_range r = Some p;
  ad_worker : pr_worker p = k.1 /\ pr_incarnation p = k.2;
  ad_matches : range_matches r p = true;
  ad_subject : exists user, is_Some (lock_report_subject k report r user s)
}.

Lemma report_ok k report r s a s' :
report_in m k report r s = Ok (a, s') ->
exists p, admitted k report r s p /\
( (newly r s = false /\ s' = s /\ exists x, receipts s !! (w_range r, w_sequence r) = Some x
     /\ rr_hash x = w_hash r /\ rr_ack x = a)
  \/ (newly r s = false /\ s' = s /\ receipts s !! (w_range r, w_sequence r) = None
      /\ w_sequence r <= pr_floor p
      /\ preflight_worker_control (JDict (stale_ack r p)) None None = Ok a)
  \/ (newly r s = true /\ counts m k r p a s s') ).
Proof.
unfold report_in. intros Hrun. lease_inv. destruct (report_account r s) as [user|]; [|done]. lease_inv.
destruct (lock_report_subject k report r user s) as [current|] eqn:Elock; [|done]. lease_inv.
destruct (range_of_worker k (Some (w_range r)) s) as [p|] eqn:Ep; [|done]. lease_inv.
assert (Had : admitted k report r s p).
{ unfold range_of_worker in Ep. simpl in Ep. destruct (ranges s !! w_range r) as [p'|] eqn:Er; [|done].
  simpl in Ep. destruct (_ && _) eqn:Eb; [|done]. injection Ep as ->.
  apply andb_true_iff in Eb as [?%bool_decide_eq_true ?%bool_decide_eq_true]. split; try done.
  by exists user; rewrite Elock. }
exists p. split; [exact Had|]. pose proof (ad_range _ _ _ _ _ Had) as Hr. unfold newly. rewrite Hr.
match goal with Hs : (if terminal_job r && _ then _ else _) s = Ok (_, ?s1) |- _ =>
  assert (s1 = s) as -> by (destruct (_ && _); unfold subject_erasure_selection in *; by cmd_inv); clear Hs end.
lease_inv. destruct (receipts s !! (w_range r, w_sequence r)) as [x|] eqn:Ex.
- lease_inv. left. split; [done|]. split; [done|]. exists x.
  match goal with Hh : bool_decide (rr_hash x = _) = true |- _ => apply bool_decide_eq_true in Hh end. done.
- destruct (w_sequence r <=? pr_floor p) eqn:Efl.
  + lease_inv. right; left. rewrite (proj2 (Z.ltb_ge _ _)) by lia. repeat split; try done. lia.
  + right; right. rewrite (proj2 (Z.ltb_lt _ _)) by lia. split; [done|]. by eapply record_report_ok.
Qed.

End Report.

(** ** The system *)

Section System.
Context `{Driver} `{CryptoOps}.

(** Every other transaction that touches a range, an attempt or a session:
    those of command_store.py and of worker_authority.py.  The rest of the
    server leaves ranges, receipts and attempts alone. *)
Inductive quiet_txn (m : moment) : store -> store -> Prop :=
| qt_commit ring q account s r s' : commit_in m ring q account s = Ok (r, s') -> quiet_txn m s s'
| qt_acknowledge ring k t message a s r s' :
    acknowledge_in m ring k t message a s = Ok (r, s') -> quiet_txn m s s'
| qt_erase sel s n s' : erase_pending_rows m sel s = Ok (n, s') -> quiet_txn m s s'
| qt_erase_reported r s n s' : erase_reported_subject_command r s = Ok (n, s') -> quiet_txn m s s'
| qt_acquire region id te tl s r s' : acquire_in m region id te tl s = Ok (r, s') -> quiet_txn m s s'
| qt_renew mine s r s' : renew_in m mine s = Ok (r, s') -> quiet_txn m s s'
| qt_register g s r s' : register_in m g s = Ok (r, s') -> quiet_txn m s s'
| qt_models k ms s r s' : update_models_in m k ms s = Ok (r, s') -> quiet_txn m s s'
| qt_activate k s r s' : activate_in m k s = Ok (r, s') -> quiet_txn m s s'
| qt_touch k p s r s' : touch_in m k p s = Ok (r, s') -> quiet_txn m s s'
| qt_grant k n tc tr s r s' : renew_grant_in m k n tc tr s = Ok (r, s') -> quiet_txn m s s'
| qt_close k s r s' : close_in m k s = Ok (r, s') -> quiet_txn m s s'
| qt_end id g b s r s' : end_session_in m id g b s = Ok (r, s') -> quiet_txn m s s'
| qt_abandon id g a s r s' : abandon_in m id g a s = Ok (r, s') -> quiet_txn m s s'
| qt_ready k id g message s r s' : ready_in m k id g message s = Ok (r, s') -> quiet_txn m s s'
| qt_elsewhere s s' : unmetered s s' -> quiet_txn m s s'.

Lemma quiet_evolves m s s' : quiet_txn m s s' -> tables_evolve s s'.
Proof.
destruct 1 as [? ? ? ? ? ? Ht|? ? ? ? ? ? ? ? Ht|? ? ? ? Ht|? ? ? ? Ht|? ? ? ? ? ? ? Ht|? ? ? ? Ht|? ? ? ? Ht
  |? ? ? ? ? Ht|? ? ? ? Ht|? ? ? ? ? Ht|? ? ? ? ? ? ? Ht|? ? ? ? Ht|? ? ? ? ? ? Ht|? ? ? ? ? ? Ht|? ? ? ? ? ? ? Ht|? ? Ht].
all: first [by eapply commit_evolves|by eapply close_evolves|by eapply end_session_evolves|by eapply abandon_evolves
  |by eapply ready_evolves|apply unmetered_evolve].
all: first [by eapply acknowledge_unmetered|by eapply erase_pending_unmetered|by eapply erase_reported_unmetered
  |by eapply acquire_unmetered|by eapply renew_lease_unmetered|by eapply register_unmetered
  |by eapply update_models_unmetered|by eapply activate_unmetered|by eapply touch_unmetered
  |by eapply renew_grant_unmetered|done].
Qed.

(** A step, with what a newly recorded report measured on its range. *)
Inductive meter_step : store -> option (string * usage) -> store -> Prop :=
| ms_report m k report r s a s' :
    parse_report k report = Ok r -> report_in m k report r s = Ok (a, s') ->
    meter_step s (if newly r s then Some (w_range r, w_usage r) else None) s'
| ms_quiet m s s' : quiet_txn m s s' -> meter_step s None s'.

Inductive meter_run : store -> list (string * usage) -> store -> Prop :=
| mr_nil s : meter_run s [] s
| mr_step s e s' l s'' : meter_step s e s' -> meter_run s' l s'' -> meter_run s (option_list e ++ l) s''.

Lemma parse_report_sequence k report r :
parse_report k report = Ok r -> us_sequence (w_usage r) = w_sequence r.
Proof.
unfold parse_report. intros Hp.
repeat match type of Hp with
| (_ ≫= _) = Ok _ => apply bind_ok in Hp as (? & _ & Hp)
| (if _ then _ else _) = Ok _ => case_match; [done|]
end.
by injection Hp as <-.
Qed.

(** A report that was recorded, or a step that counts nothing. *)
Lemma meter_step_cases s e s' :
meter_step s e s' ->
(e = None /\ tables_evolve s s')
\/ exists m k report r p ack, e = Some (w_range r, w_usage r) /\ newly r s = true
     /\ us_sequence (w_usage r) = w_sequence r /\ admitted k report r s p /\ counts m k r p ack s s'.
Proof.
destruct 1 as [m k report r s a s' Hparse Hr|m s s' Hq]; [|left; split; [done|by eapply quiet_evolves]].
destruct (report_ok m k report r s a s' Hr) as (p & Had & [(Hn & -> & _)|[(Hn & -> & _)|[Hn Hc]]]); rewrite Hn.
- by left.
- by left.
- right. exists m, k, report, r, p, a. split; [done|]. split; [done|]. split; [|done].
  by apply parse_report_sequence in Hparse.
Qed.

(** ** Invariants *)

Record receipts_ok (s : store) : Prop := {
  ro_range : forall range q x, receipts s !! (range, q) = Some x ->
    exists p, ranges s !! range = Some p /\ pr_floor p < q;
  ro_size : forall range, (size (report_sequences range (receipts s)) <= RETAINED_RECEIPTS)%nat
}.

(** What a report leaves in the receipts of its range. *)
Lemma counts_sequences m k r p ack s s' :
counts m k r p ack s s' -> forall range, report_sequences range (receipts s') =
  if decide (range = w_range r) then
    let all := {[w_sequence r]} ∪ report_sequences range (receipts s) in all ∖ beyond_retained all
  else report_sequences range (receipts s).
Proof.
intros [(x & _ & _ & _ & _ & _ & Hr & _) _ _ _] range. rewrite Hr.
set (rs := <[(w_range r, w_sequence r) := x]> (receipts s)).
assert (Hall := report_sequences_insert (w_range r) (w_sequence r) x (receipts s)). fold rs in Hall.
apply set_eq. intros q. rewrite elem_of_report_sequences. unfold is_Some. setoid_rewrite map_lookup_filter_Some. cbn.
case_decide as Hrange.
- subst range. cbn. rewrite <- Hall. rewrite elem_of_difference, elem_of_report_sequences. unfold is_Some. naive_solver.
- rewrite elem_of_report_sequences. unfold is_Some, rs. setoid_rewrite lookup_insert_Some. naive_solver congruence.
Qed.

Lemma receipts_ok_step s e s' : meter_step s e s' -> receipts_ok s -> receipts_ok s'.
Proof.
intros Hs [Hr Hsz]. apply meter_step_cases in Hs as [[_ He]|(m & k & report & r & p & ack & _ & Hn & _ & Had & Hc)].
- split; rewrite (te_receipts _ _ He); [|done]. intros range q x Hx. destruct (Hr _ _ _ Hx) as (p & Hp & ?).
  exists p. split; [by apply (te_ranges _ _ He)|done].
- pose proof (counts_sequences _ _ _ _ _ _ _ Hc) as Hseq.
  assert (Hin : forall range q, is_Some (receipts s' !! (range, q)) -> q ∈ report_sequences range (receipts s'))
    by (intros; by apply elem_of_report_sequences).
  split.
  + intros range q x Hx. specialize (Hin range q (mk_is_Some _ _ Hx)). rewrite Hseq in Hin.
    destruct Hc as [(y & _ & _ & _ & _ & _ & _ & p' & Hp' & _ & Hfl & _) _ _ _]. rewrite Hp'.
    case_decide as Hrange.
    * subst range. exists p'. rewrite lookup_insert_eq. split; [done|]. rewrite Hfl. clear Hfl.
      rewrite report_sequences_insert. cbn in Hin. set (all := {[w_sequence r]} ∪ _) in *.
      assert (Hbase : pr_floor p < q).
      { apply elem_of_difference in Hin as [Hin _]. apply elem_of_union in Hin as [->%elem_of_singleton|Hin].
        - unfold newly in Hn. rewrite (ad_range _ _ _ _ _ Had) in Hn. apply andb_true_iff in Hn as [_ Hn]. lia.
        - apply elem_of_report_sequences in Hin as [z Hz]. destruct (Hr _ _ _ Hz) as (p0 & Hp0 & ?).
          rewrite (ad_range _ _ _ _ _ Had) in Hp0. by injection Hp0 as <-. }
      pose proof (evicted_floor_spec (beyond_retained all)) as Hev. destruct (evicted_floor _) as [f|]; [|done].
      destruct Hev as [Hf _]. pose proof (beyond_retained_below _ _ _ Hf Hin). lia.
    * apply elem_of_report_sequences in Hin as [z Hz]. rewrite lookup_insert_ne by done. by eapply Hr.
  + intros range. rewrite Hseq. case_decide; [|done]. cbn. apply beyond_retained_size.
    specialize (Hsz range). pose proof (size_union_alt {[w_sequence r]} (report_sequences range (receipts s))).
    rewrite size_singleton in *. assert (Hd := subseteq_size (report_sequences range (receipts s) ∖ {[w_sequence r]})
      (report_sequences range (receipts s)) ltac:(set_solver)). lia.
Qed.

(** ** How the tables evolve *)

Record meter_follows (s s' : store) : Prop := {
  mf_ranges : forall range p, ranges s !! range = Some p ->
    exists p', ranges s' !! range = Some p' /\ pr_floor p <= pr_floor p';
  mf_receipts : forall range q x, receipts s !! (range, q) = Some x ->
    receipts s' !! (range, q) = Some x
    \/ exists p', ranges s' !! range = Some p' /\ q <= pr_floor p'
}.

Lemma meter_follows_trans s1 s2 s3 : meter_follows s1 s2 -> meter_follows s2 s3 -> meter_follows s1 s3.
Proof.
intros [G1 R1] [G2 R2]. split.
- intros range p (p' & Hp' & ?)%G1. destruct (G2 _ _ Hp') as (p2 & ? & ?). exists p2. split; [done|lia].
- intros range q x [Hx|(p' & Hp' & ?)]%R1; [by apply R2|right].
  destruct (G2 _ _ Hp') as (p2 & ? & ?). exists p2. split; [done|lia].
Qed.

Lemma counts_range m k r p ack s s' :
counts m k r p ack s s' -> exists p', ranges s' = <[w_range r := p']> (ranges s)
  /\ pr_usage p' = maxima r p /\ pr_floor p <= pr_floor p'
  /\ pr_worker p' = pr_worker p /\ pr_incarnation p' = pr_incarnation p
  /\ pr_kind p' = pr_kind p /\ pr_subject p' = pr_subject p /\ pr_attempt p' = pr_attempt p
  /\ pr_generation p' = pr_generation p /\ pr_sequence p' = pr_sequence p.
Proof.
intros [(x & _ & _ & _ & _ & _ & _ & p' & Hp' & Hu & Hf & Hrest) _ _ _]. exists p'.
split; [done|]. split; [done|]. split; [|done]. rewrite Hf. destruct (evicted_floor _); lia.
Qed.

Lemma meter_step_follows s e s' : meter_step s e s' -> meter_follows s s'.
Proof.
intros [[_ He]|(m & k & report & r & p & ack & _ & Hn & _ & Had & Hc)]%meter_step_cases.
- split.
  + intros range p Hp. exists p. split; [by apply (te_ranges _ _ He)|lia].
  + intros range q x Hx. left. by rewrite (te_receipts _ _ He).
- destruct (counts_range _ _ _ _ _ _ _ Hc) as (p' & Hp' & _ & Hfl & _).
  pose proof (ad_range _ _ _ _ _ Had) as Hr. split.
  + intros range q Hq. rewrite Hp'. destruct (decide (range = w_range r)) as [->|Hne].
    * exists p'. rewrite lookup_insert_eq. split; [done|]. by simplify_eq.
    * exists q. rewrite lookup_insert_ne by done. split; [done|lia].
  + intros range q x Hx. destruct Hc as [(y & _ & _ & _ & _ & _ & Hrs & p2 & Hp2 & _ & Hf2 & _) _ _ _].
    assert (Hold : <[(w_range r, w_sequence r) := y]> (receipts s) !! (range, q) = Some x).
    { rewrite lookup_insert_ne; [done|]. intros [= <- <-]. unfold newly in Hn. by rewrite Hx in Hn. }
    set (gone := beyond_retained _) in *.
    destruct (decide (range = w_range r /\ q ∈ gone)) as [[-> Hgone]|Hkept].
    * right. exists p'. split; [by rewrite Hp', lookup_insert_eq|].
      assert (p' = p2) as -> by (rewrite Hp' in Hp2; apply (f_equal (lookup (w_range r))) in Hp2;
        rewrite !lookup_insert_eq in Hp2; by injection Hp2).
      rewrite Hf2. pose proof (evicted_floor_spec gone) as Hev. destruct (evicted_floor gone) as [f|].
      -- destruct Hev as [_ Hmax]. specialize (Hmax _ Hgone). lia.
      -- by rewrite Hev in Hgone.
    * left. rewrite Hrs. apply map_lookup_filter_Some. split; [done|]. exact Hkept.
Qed.

Lemma meter_run_follows s l s' : meter_run s l s' -> meter_follows s s'.
Proof.
induction 1 as [s|s e s' l s'' Hs _ IH].
- split; [intros range p Hp; exists p; split; [done|lia]|by left].
- eapply meter_follows_trans; [by eapply meter_step_follows|done].
Qed.

Lemma meter_run_receipts s l s' : meter_run s l s' -> receipts_ok s -> receipts_ok s'.
Proof. induction 1; eauto using receipts_ok_step. Qed.

(** ** What a range has counted *)

Definition reported_on (range : string) (l : list (string * usage)) : list usage :=
omap (fun e => if decide (e.1 = range) then Some e.2 else None) l.
(** Two measurements of one range, the second the later. *)
Definition join_usage (u v : usage) : usage :=
{| us_sequence := us_sequence v; us_gpu := Z.max (us_gpu u) (us_gpu v);
   us_frames := Z.max (us_frames u) (us_frames v); us_duration := Z.max (us_duration u) (us_duration v) |}.

Lemma maxima_join r p : us_sequence (w_usage r) = w_sequence r -> maxima r p = join_usage (pr_usage p) (w_usage r).
Proof. unfold maxima, join_usage. by intros ->. Qed.

(** A range keeps its identity and counts what was recorded on it. *)
Lemma meter_step_usage s e s' range p :
meter_step s e s' -> ranges s !! range = Some p ->
exists p', ranges s' !! range = Some p'
  /\ pr_usage p' = foldl join_usage (pr_usage p) (reported_on range (option_list e)).
Proof.
intros [[-> He]|(m & k & report & r & p0 & ack & -> & Hn & Hu & Had & Hc)]%meter_step_cases Hp.
- exists p. split; [by apply (te_ranges _ _ He)|done].
- destruct (counts_range _ _ _ _ _ _ _ Hc) as (p' & Hp' & Hu' & _). rewrite Hp'.
  pose proof (ad_range _ _ _ _ _ Had) as Hr. unfold reported_on. cbn.
  destruct (decide (w_range r = range)) as [<-|Hne].
  + exists p'. rewrite lookup_insert_eq. split; [done|]. simplify_eq. cbn. by rewrite Hu', maxima_join.
  + exists p. by rewrite lookup_insert_ne.
Qed.

(** ** What an attempt has counted *)

Record usage_agrees (s : store) : Prop := {
  ua_sessions : forall k a, session_attempts s !! k = Some a -> exists id p,
    sa_range a = Some id /\ ranges s !! id = Some p /\ names_session k a p /\ sa_usage a = pr_usage p;
  ua_jobs : forall k a, job_attempts s !! k = Some a -> exists id p,
    ja_range a = Some id /\ ranges s !! id = Some p /\ names_job k a p /\ ja_usage a = pr_usage p
}.

Lemma usage_agrees_evolve s s' : tables_evolve s s' -> usage_agrees s -> usage_agrees s'.
Proof.
intros He [Hs Hj]. split.
- intros k a' Ha'. destruct (session_attempts s !! k) as [a|] eqn:Ha.
  + destruct (te_sessions _ _ He _ _ Ha) as (a2 & Ha2 & [? ? ? ? ? _] & Hu). simplify_eq.
    destruct (Hs _ _ Ha) as (id & p & Hr & Hp & Hn & Hup). exists id, p.
    split; [congruence|]. split; [by apply (te_ranges _ _ He)|]. unfold names_session in *. naive_solver congruence.
  + destruct (te_new_sessions _ _ He _ _ Ha' Ha) as (id & p & Hr & (_ & Hp & Hup & _) & Hn & Hu).
    exists id, p. repeat split; try apply Hn; congruence.
- intros k a' Ha'. destruct (job_attempts s !! k) as [a|] eqn:Ha.
  + apply (te_jobs _ _ He) in Ha as Ha2. simplify_eq. destruct (Hj _ _ Ha) as (id & p & Hr & Hp & Hrest).
    exists id, p. split; [done|]. split; [by apply (te_ranges _ _ He)|done].
  + destruct (te_new_jobs _ _ He _ _ Ha' Ha) as (id & p & Hr & (_ & Hp & Hup & _) & Hn & Hu).
    exists id, p. repeat split; try apply Hn; congruence.
Qed.

(** The range a report writes to is the one of the attempt it writes to. *)
Lemma admitted_attempt k report r s p :
admitted k report r s p ->
if w_session r then exists g a, w_generation r = Some g
  /\ session_attempts s !! (w_subject r, g) = Some a /\ sa_range a = Some (w_range r)
  /\ pr_kind p = SessionRange /\ pr_subject p = w_subject r /\ pr_generation p = Some g
else exists q a, w_dispatch r = Some q
  /\ job_attempts s !! (w_subject r, q) = Some a /\ ja_range a = Some (w_range r)
  /\ pr_kind p = JobRange /\ pr_subject p = w_subject r /\ pr_sequence p = Some q.
Proof.
intros [_ _ Hm (user & current & Hl)]. unfold lock_report_subject in Hl.
unfold range_matches in Hm. rewrite !andb_true_iff, !bool_decide_eq_true in Hm.
destruct Hm as ((((Hk & Hsub) & _) & Hg) & Hq). destruct (w_session r).
- destruct (realtime_sessions s !! w_subject r); [|done]. destruct (w_generation r) as [g|]; [|done].
  cbn in Hl. destruct (session_attempts s !! (w_subject r, g)) as [a|] eqn:Ea; [|done]. cbn in Hl.
  destruct (_ && _) eqn:E; [|done]. rewrite !andb_true_iff, !bool_decide_eq_true in E.
  exists g, a. repeat split; try done. tauto.
- destruct (job_rows s !! w_subject r); [|done]. destruct (w_dispatch r) as [q|]; [|done].
  cbn in Hl. destruct (job_attempts s !! (w_subject r, q)) as [a|] eqn:Ea; [|done]. cbn in Hl.
  destruct (_ && _) eqn:E; [|done]. rewrite !andb_true_iff, !bool_decide_eq_true in E.
  exists q, a. repeat split; try done. tauto.
Qed.

Lemma usage_agrees_counts m k report r p ack s s' :
admitted k report r s p -> counts m k r p ack s s' -> usage_agrees s -> usage_agrees s'.
Proof.
intros Had Hc [Hs Hj]. destruct (counts_range _ _ _ _ _ _ _ Hc) as (p' & Hp' & Hu' & _ & Hw & Hi & Hkd & Hsub & Hat & Hg & Hq).
pose proof (ad_range _ _ _ _ _ Had) as Hrp. pose proof (admitted_attempt _ _ _ _ _ Had) as Hatt.
destruct Hc as [_ Hsess [o Hjobs] _].
assert (Hother : forall id pp, id <> w_range r -> ranges s !! id = Some pp -> ranges s' !! id = Some pp)
  by (intros; by rewrite Hp', lookup_insert_ne).
assert (Hmine : ranges s' !! w_range r = Some p') by (by rewrite Hp', lookup_insert_eq).
destruct (w_session r).
- destruct Hatt as (g & a0 & Hgen & Ha0 & Hr0 & Hk0 & Hs0 & Hg0). rewrite Hgen in Hsess. split.
  + intros key a. rewrite Hsess. destruct (decide (key = (w_subject r, g))) as [->|Hne].
    * rewrite lookup_alter_eq, Ha0. intros [= <-]. destruct (Hs _ _ Ha0) as (id & pp & Hid & Hpp & Hn & _).
      assert (id = w_range r) as -> by congruence. assert (pp = p) as -> by congruence.
      exists (w_range r), p'. split; [done|]. split; [done|]. unfold names_session in *. cbn in *.
      naive_solver congruence.
    * rewrite lookup_alter_ne by done. intros Ha. destruct (Hs _ _ Ha) as (id & pp & Hid & Hpp & Hn & Hu).
      exists id, pp. split; [done|]. split; [|done]. apply Hother; [|done]. intros ->.
      assert (pp = p) as -> by congruence. destruct Hn as (_ & Hn1 & Hn2 & _). apply Hne. destruct key. cbn in *. congruence.
  + intros key a. rewrite Hjobs. intros Ha. destruct (Hj _ _ Ha) as (id & pp & Hid & Hpp & Hn & Hu).
    exists id, pp. split; [done|]. split; [|done]. apply Hother; [|done]. intros ->.
    assert (pp = p) as -> by congruence. destruct Hn as (Hn & _). congruence.
- destruct Hatt as (q & a0 & Hgen & Ha0 & Hr0 & Hk0 & Hs0 & Hg0). rewrite Hgen in Hjobs. split.
  + intros key a. rewrite Hsess. intros Ha. destruct (Hs _ _ Ha) as (id & pp & Hid & Hpp & Hn & Hu).
    exists id, pp. split; [done|]. split; [|done]. apply Hother; [|done]. intros ->.
    assert (pp = p) as -> by congruence. destruct Hn as (Hn & _). congruence.
  + intros key a. rewrite Hjobs. destruct (decide (key = (w_subject r, q))) as [->|Hne].
    * rewrite lookup_alter_eq, Ha0. intros [= <-]. destruct (Hj _ _ Ha0) as (id & pp & Hid & Hpp & Hn & _).
      assert (id = w_range r) as -> by congruence. assert (pp = p) as -> by congruence.
      exists (w_range r), p'. split; [done|]. split; [done|]. unfold names_job in *. cbn in *.
      naive_solver congruence.
    * rewrite lookup_alter_ne by done. intros Ha. destruct (Hj _ _ Ha) as (id & pp & Hid & Hpp & Hn & Hu).
      exists id, pp. split; [done|]. split; [|done]. apply Hother; [|done]. intros ->.
      assert (pp = p) as -> by congruence. destruct Hn as (_ & Hn1 & Hn2 & _). apply Hne. destruct key. cbn in *. congruence.
Qed.

Lemma usage_agrees_step s e s' : meter_step s e s' -> usage_agrees s -> usage_agrees s'.
Proof.
intros [[_ He]|(m & k & report & r & p & ack & _ & _ & _ & Had & Hc)]%meter_step_cases.
- by apply usage_agrees_evolve.
- by eapply usage_agrees_counts.
Qed.

(** An attempt keeps its identity, and stays ended. *)
Lemma meter_step_attempt s e s' k a :
meter_step s e s' -> session_attempts s !! k = Some a ->
exists a', session_attempts s' !! k = Some a' /\ same_attempt a a'.
Proof.
intros [[_ He]|(m & k0 & report & r & p & ack & _ & _ & _ & Had & Hc)]%meter_step_cases Ha.
- destruct (te_sessions _ _ He _ _ Ha) as (a' & ? & ? & _). by exists a'.
- destruct Hc as [_ Hsess _ _]. rewrite Hsess.
  assert (Hkeep : session_attempts s !! k = Some a /\ same_attempt a a) by (split; [done|apply same_attempt_refl]).
  destruct (w_session r), (w_generation r) as [g|]; try by exists a.
  destruct (decide (k = (w_subject r, g))) as [->|Hne].
  + rewrite lookup_alter_eq, Ha. eexists. split; [done|]. split; try done. cbn. by intros ->; case_match.
  + rewrite lookup_alter_ne by done. by exists a.
Qed.

End System.

(** ** A report that is received again *)

(** A range and the attempt of a job keep what a report is checked against. *)
Record same_range (p p' : physical_range) : Prop := {
  sr_worker : pr_worker p' = pr_worker p;
  sr_incarnation : pr_incarnation p' = pr_incarnation p;
  sr_kind : pr_kind p' = pr_kind p;
  sr_subject : pr_subject p' = pr_subject p;
  sr_attempt : pr_attempt p' = pr_attempt p;
  sr_generation : pr_generation p' = pr_generation p;
  sr_sequence : pr_sequence p' = pr_sequence p
}.
Record same_dispatch (a a' : job_attempt) : Prop := {
  sd_worker : ja_worker a' = ja_worker a;
  sd_incarnation : ja_incarnation a' = ja_incarnation a;
  sd_epoch : ja_epoch a' = ja_epoch a;
  sd_range : ja_range a' = ja_range a;
  sd_token : ja_token_hash a' = ja_token_hash a
}.

(** What was there to be reported on is there still. *)
Record subjects_stay (s s' : store) : Prop := {
  ss_ranges : forall id p, ranges s !! id = Some p -> exists p', ranges s' !! id = Some p' /\ same_range p p';
  ss_sessions : forall k a, session_attempts s !! k = Some a ->
    exists a', session_attempts s' !! k = Some a' /\ same_attempt a a';
  ss_jobs : forall k a, job_attempts s !! k = Some a -> exists a', job_attempts s' !! k = Some a' /\ same_dispatch a a'
}.

Global Instance subjects_stay_preorder : PreOrder subjects_stay.
Proof.
  split.
  - intros s. split; [intros id p Hp; by exists p|intros k a Ha; exists a; split; [done|apply same_attempt_refl]
      |intros k a Ha; by exists a].
  - intros s1 s2 s3 [R1 A1 J1] [R2 A2 J2]. split.
    + intros id p (p2 & Hp2 & [])%R1. destruct (R2 _ _ Hp2) as (p3 & Hp3 & []). exists p3.
      split; [done|]. split; congruence.
    + intros k a (a2 & Ha2 & Hs2)%A1. destruct (A2 _ _ Ha2) as (a3 & Ha3 & Hs3). exists a3.
      split; [done|]. by eapply same_attempt_trans.
    + intros k a (a2 & Ha2 & [])%J1. destruct (J2 _ _ Ha2) as (a3 & Ha3 & []). exists a3.
      split; [done|]. split; congruence.
Qed.

Section Again.
Context `{Driver} `{CryptoOps}.

Lemma meter_step_subjects s e s' : meter_step s e s' -> subjects_stay s s'.
Proof.
intros Hstep. split; [| |].
- intros id p Hp. apply meter_step_cases in Hstep as [[_ He]|(m & k & report & r & p0 & ack & _ & _ & _ & Had & Hc)].
  + exists p. split; [by apply (te_ranges _ _ He)|done].
  + destruct (counts_range _ _ _ _ _ _ _ Hc) as (p' & Hp' & _ & _ & W & I & K & S & A & G & Q). rewrite Hp'.
    destruct (decide (id = w_range r)) as [->|Hne]; [|exists p; by rewrite lookup_insert_ne].
    exists p'. rewrite lookup_insert_eq. split; [done|].
    pose proof (ad_range _ _ _ _ _ Had). simplify_eq. by split.
- intros k a Ha. by eapply meter_step_attempt.
- intros k a Ha. apply meter_step_cases in Hstep as [[_ He]|(m & k0 & report & r & p0 & ack & _ & _ & _ & Had & Hc)].
  + exists a. split; [by apply (te_jobs _ _ He)|done].
  + destruct Hc as [_ _ [o Hjobs] _]. rewrite Hjobs.
    destruct (w_session r), (w_dispatch r) as [q|]; try by exists a.
    destruct (decide (k = (w_subject r, q))) as [->|Hne]; [|exists a; by rewrite lookup_alter_ne].
    rewrite lookup_alter_eq, Ha. by eexists.
Qed.

Lemma meter_run_subjects s l s' : meter_run s l s' -> subjects_stay s s'.
Proof. induction 1 as [s|s e s1 l s2 Hs _ IH]; [reflexivity|]. etransitivity; [by eapply meter_step_subjects|done]. Qed.

(** The rows a report names, and what it is checked against in them. *)
Record named_rows (k : worker_key) (report : dict) (r : work_report) (user : string) (s : store) (p : physical_range)
  : Prop := {
  nr_subject : is_Some (lock_report_subject k report r user s);
  nr_range : range_of_worker k (Some (w_range r)) s = Some p;
  nr_matches : range_matches r p = true
}.

Lemma named_rows_token k report report' r user s p :
get report' "dispatch_token" = get report "dispatch_token" ->
named_rows k report r user s p -> named_rows k report' r user s p.
Proof.
intros Ht [Hs Hr Hm]. split; [|done..]. unfold lock_report_subject, token_matches in *. by rewrite Ht.
Qed.

Lemma named_range k report r user s p : named_rows k report r user s p -> ranges s !! w_range r = Some p.
Proof.
intros [_ Hr _]. unfold range_of_worker in Hr. simpl in Hr. destruct (ranges s !! w_range r); [|done].
simpl in Hr. by destruct (_ && _).
Qed.

(** They stay what they are as long as the session or the job has its account. *)
Lemma named_rows_stay k report r user s s' p :
named_rows k report r user s p -> subjects_stay s s' -> report_account r s' = Some user ->
exists p', named_rows k report r user s' p'.
Proof.
intros [[current Hl] Hr Hm] [Hss_r Hss_a Hss_j] Hu.
unfold range_of_worker in Hr. simpl in Hr. destruct (ranges s !! w_range r) as [p0|] eqn:Ep; [|done]. simpl in Hr.
destruct (_ && _) eqn:Ew; [|done]. injection Hr as ->.
destruct (Hss_r _ _ Ep) as (p' & Hp' & [W I K S A G Q]). exists p'. split.
- unfold lock_report_subject, report_account, session_account in *. destruct (w_session r).
  + destruct (realtime_sessions s !! w_subject r) as [e|]; [|done]. destruct (w_generation r) as [g|]; [|done].
    simpl in Hl. destruct (session_attempts s !! (w_subject r, g)) as [a|] eqn:Ea; [|done]. simpl in Hl.
    destruct (_ && _) eqn:Eb in Hl; [|done]. rewrite !andb_true_iff in Eb. destruct Eb as ((((_ & E2) & E3) & E4) & E5).
    destruct (Hss_a _ _ Ea) as (a' & Ha' & [AW AI AE AA AR _]).
    destruct (realtime_sessions s' !! w_subject r) as [e'|]; [|done]. simpl in Hu |- *. rewrite Ha'. simpl.
    unfold attempt_of in *. rewrite AW, AI, AE, AA, AR, E2, E3, E4, E5, bool_decide_eq_true_2 by done. by eexists.
  + destruct (job_rows s !! w_subject r) as [j|]; [|done]. destruct (w_dispatch r) as [q|]; [|done].
    simpl in Hl. destruct (job_attempts s !! (w_subject r, q)) as [a|] eqn:Ea; [|done]. simpl in Hl.
    destruct (_ && _) eqn:Eb in Hl; [|done]. rewrite !andb_true_iff in Eb.
    destruct Eb as (((((_ & E2) & E3) & E4) & E5) & E6).
    destruct (Hss_j _ _ Ea) as (a' & Ha' & [AW AI AE AR AT]).
    destruct (job_rows s' !! w_subject r) as [j'|]; [|done]. simpl in Hu |- *. injection Hu as Hu. rewrite Ha'. simpl.
    unfold token_matches in *. rewrite AW, AI, AE, AR, AT, E2, E3, E4, E5, E6, bool_decide_eq_true_2 by done. by eexists.
- unfold range_of_worker. simpl. rewrite Hp'. simpl. by rewrite W, I, Ew.
- unfold range_matches in *. by rewrite K, S, A, G, Q.
Qed.

(** The authority a report is received under: its process has the connection
    and the connection has the live lease of the region it names. *)
Definition received_under (m : moment) (k : worker_key) (r : work_report) (s : store) : bool :=
report_authority r (region_lease (w_region r) s) (own_connection m k s)
&& match region_lease (w_region r) s with Some l => e_deadline_clock m <? l_expires l | None => false end.

(** The sequence of a dispatch is one a job can have. *)
Definition dispatch_in_range (r : work_report) : bool :=
match w_dispatch r with Some q => (1 <=? q) && (q <=? MAX_SEQUENCE) | None => true end.

(** What a report was answered under. *)
Lemma report_in_served m k report r s a s' :
report_in m k report r s = Ok (a, s') ->
exists user p, report_account r s = Some user /\ named_rows k report r user s p
  /\ received_under m k r s = true
  /\ (terminal_job r && negb (w_complete r) = true -> dispatch_in_range r = true).
Proof.
unfold report_in. intros Hrun. lease_inv. destruct (report_account r s) as [user|]; [|done]. lease_inv.
destruct (lock_report_subject k report r user s) as [current|] eqn:Elock; [|done]. lease_inv.
destruct (range_of_worker k (Some (w_range r)) s) as [p|] eqn:Ep; [|done]. lease_inv.
match goal with Hs : (if terminal_job r && _ then _ else _) s = Ok (_, ?s1) |- _ =>
  assert (s1 = s /\ (terminal_job r && negb (w_complete r) = true -> dispatch_in_range r = true)) as [-> Hd]; [|clear Hs] end.
{ destruct (terminal_job r && negb (w_complete r)); [|by cmd_inv].
  unfold subject_erasure_selection in *. cmd_inv. split; [done|]. intros _. unfold dispatch_in_range.
  destruct (w_dispatch r); [|done]. by apply negb_false_iff. }
lease_inv. exists user, p. split; [done|]. split; [split; [rewrite Elock; by eexists|exact Ep|done]|]. split; [|exact Hd].
unfold received_under. by apply andb_true_iff.
Qed.

(** The answer to a report whose rows and authority are there. *)
Lemma report_in_answers m k report r s user p :
report_account r s = Some user -> named_rows k report r user s p -> received_under m k r s = true ->
(terminal_job r && negb (w_complete r) = true -> dispatch_in_range r = true) ->
exists current, report_in m k report r s =
  match receipts s !! (w_range r, w_sequence r) with
  | Some x => if bool_decide (rr_hash x = w_hash r) then Ok (rr_ack x, s)
              else Err (AuthorityUnavailable "worker report sequence changed bytes")
  | None => if w_sequence r <=? pr_floor p
            then ack ← preflight_worker_control (JDict (stale_ack r p)) None None; Ok (ack, s)
            else record_report m k report r user current p s
  end.
Proof.
intros Hu [[current Hl] Hr Hm] Hauth Hd. exists current. apply andb_true_iff in Hauth as [Ha Ht].
unfold report_in, mbind, txn_bind, read, mret, txn_ret. rewrite Hu, Hl, Hr, Hm. cbn [require_authority mret txn_ret].
assert (He : (if terminal_job r && negb (w_complete r)
  then _ ← subject_erasure_selection user "job" (w_subject r) (w_dispatch r); mret tt else mret tt : txn store unit) s
  = Ok (tt, s)).
{ destruct (_ && _); [|done]. specialize (Hd eq_refl). unfold dispatch_in_range in Hd.
  unfold subject_erasure_selection, mbind, txn_bind, lift. simpl. destruct (w_dispatch r); [|done]. by rewrite Hd. }
unfold mbind, txn_bind, mret, txn_ret in He. rewrite He, Ha. cbn [require_authority]. unfold mret, txn_ret.
rewrite Ht. cbn [require_authority]. unfold mret, txn_ret.
destruct (receipts s !! (w_range r, w_sequence r)) as [x|].
- by destruct (bool_decide (rr_hash x = w_hash r)).
- destruct (w_sequence r <=? pr_floor p); [|done]. unfold lift. by destruct (preflight_worker_control _ _ _).
Qed.

End Again.
