(* ===== verification/WorkerReportsSpec.v ===== *)
(** * Properties of reports, attempts and the life of a session

    Over every interleaving of reports with the transactions of
    command_store.py and worker_authority.py. *)

From S2P Require Import Prelude PyFloat Hashes Json JsonFacts Protocol6 Samples Uuid PyInt KeyRing Transactions AccountStore CommandTables CommandSubjects CommandStore CommandFacts SchedulerLease LeaseFacts SessionAuthority WorkerReports ReportFacts ReportSystem KeyRingSpec CommandSamples.
Open Scope Z_scope.

(** ** A worker that reports on its live session *)

Definition REPORT_HASH : string := "0f2fab800b335f872a1fb033574c2e5cb25eb5b248af563e9c747012628fed17".

Definition checkpoint (sequence gpu frames duration : Z) : dict :=
  [("type", JStr "checkpoint"); ("worker_id", JStr WORKER); ("incarnation", JStr INCARNATION);
   ("session_id", JStr SESSION); ("attempt_id", JStr ATTEMPT); ("control_generation", JInt 1);
   ("range_id", JStr RANGE); ("report_sequence", JInt sequence); ("report_hash", JStr REPORT_HASH);
   ("gpu_ms", JInt gpu); ("frames", JInt frames); ("duration_ms", JInt duration);
   ("region", JStr "local"); ("owner_epoch", JInt 7)].

Definition parsed (d : dict) : work_report :=
  match parse_report KEY d with
  | Ok r => r
  | Err _ => {| w_kind := ""; w_session := false; w_subject := ""; w_generation := None; w_attempt := None;
                w_dispatch := None; w_range := ""; w_sequence := 0; w_hash := ""; w_usage := no_usage;
                w_complete := false; w_region := JNull; w_epoch := JNull; w_ack := [] |}
  end.
Definition report_1 : dict := checkpoint 1 40 3 900.
Definition reported_once : store := (commit_worker_report now KEY report_1 serving).2.
Definition first_ack : string :=
  match (commit_worker_report now KEY report_1 serving).1 with Ok a => a | Err _ => "" end.

Lemma report_1_parsed : parse_report KEY report_1 = Ok (parsed report_1).
Proof. vm_compute. reflexivity. Qed.
Lemma report_1_taken : report_in now KEY report_1 (parsed report_1) serving = Ok (first_ack, reported_once).
Proof. vm_compute. reflexivity. Qed.

(** ** Runs *)

Section Runs.
Context `{Driver} `{CryptoOps}.

Lemma meter_run_usage s l s' range p :
meter_run s l s' -> ranges s !! range = Some p ->
exists p', ranges s' !! range = Some p' /\ pr_usage p' = foldl join_usage (pr_usage p) (reported_on range l).
Proof.
intros Hrun. revert p. induction Hrun as [s|s e s1 l s2 Hs _ IH]; intros p Hp; [by exists p|].
destruct (meter_step_usage _ _ _ _ _ Hs Hp) as (p1 & Hp1 & Hu1). destruct (IH _ Hp1) as (p2 & Hp2 & Hu2).
exists p2. split; [done|]. unfold reported_on in *. by rewrite omap_app, foldl_app, Hu2, Hu1.
Qed.

Lemma meter_run_agrees s l s' : meter_run s l s' -> usage_agrees s -> usage_agrees s'.
Proof. induction 1; eauto using usage_agrees_step. Qed.

Lemma meter_run_attempt s l s' k a :
meter_run s l s' -> session_attempts s !! k = Some a ->
exists a', session_attempts s' !! k = Some a' /\ same_attempt a a'.
Proof.
intros Hrun. revert a. induction Hrun as [s|s e s1 l s2 Hs _ IH]; intros a Ha.
- exists a. split; [done|apply same_attempt_refl].
- destruct (meter_step_attempt _ _ _ _ _ Hs Ha) as (a1 & Ha1 & Hs1). destruct (IH _ Ha1) as (a2 & Ha2 & Hs2).
  exists a2. split; [done|]. by eapply same_attempt_trans.
Qed.

Lemma receipts_ok_none s : receipts s = ∅ -> receipts_ok s.
Proof.
intros He. split.
- intros range q x. by rewrite He.
- intros range. enough (report_sequences range (receipts s) = ∅) as -> by (rewrite size_empty; lia).
  apply set_eq. intros q. rewrite elem_of_report_sequences, He. split; [by intros []|set_solver].
Qed.

(** A report known or below the floor when it was answered is so later. *)
Lemma answered_stays m k report r s a s1 :
receipts_ok s -> report_in m k report r s = Ok (a, s1) -> us_sequence (w_usage r) = w_sequence r ->
parse_report k report = Ok r ->
(exists x, receipts s1 !! (w_range r, w_sequence r) = Some x /\ rr_hash x = w_hash r /\ rr_ack x = a)
\/ exists p, ranges s1 !! w_range r = Some p /\ w_sequence r <= pr_floor p.
Proof.
intros Hok Hr Hu Hparse.
destruct (report_ok m k report r s a s1 Hr) as (p & Had & [(_ & -> & x & Hx & Hh & Hack)|[(_ & -> & _ & Hle & _)|[Hn Hc]]]).
- left. by exists x.
- right. exists p. split; [by apply Had|done].
- destruct Hc as [(x & Hh & Hack & _ & _ & _ & Hrs & p' & Hp' & _ & Hf & _) _ _ _].
  set (gone := beyond_retained _) in *. destruct (decide (w_sequence r ∈ gone)) as [Hgone|Hkept].
  + right. exists p'. rewrite Hp', lookup_insert_eq. split; [done|]. rewrite Hf.
    pose proof (evicted_floor_spec gone) as Hev. destruct (evicted_floor gone) as [f|].
    * destruct Hev as [_ Hmax]. specialize (Hmax _ Hgone). lia.
    * by rewrite Hev in Hgone.
  + left. exists x. split; [|done]. rewrite Hrs. apply map_lookup_filter_Some.
    split; [by rewrite lookup_insert_eq|]. cbn. naive_solver.
Qed.

(** Where an answered report stands in any later state. *)
Lemma answered_later m k report r s0 s s1 s2 l0 l1 a :
receipts s0 = ∅ -> meter_run s0 l0 s -> parse_report k report = Ok r ->
report_in m k report r s = Ok (a, s1) -> meter_run s1 l1 s2 ->
receipts_ok s2
/\ ((exists x, receipts s2 !! (w_range r, w_sequence r) = Some x /\ rr_hash x = w_hash r /\ rr_ack x = a)
    \/ exists p, ranges s2 !! w_range r = Some p /\ w_sequence r <= pr_floor p).
Proof.
intros Hfresh Hbefore Hparse Hfirst Hbetween.
pose proof (meter_run_receipts _ _ _ Hbefore (receipts_ok_none _ Hfresh)) as Hok.
pose proof (parse_report_sequence _ _ _ Hparse) as Hu. split.
{ eapply meter_run_receipts; [exact Hbetween|]. eapply receipts_ok_step; [|exact Hok]. by eapply ms_report. }
destruct (meter_run_follows _ _ _ Hbetween) as [Hg Hrc].
destruct (answered_stays m k report r s a s1 Hok Hfirst Hu Hparse) as [(x & Hx & ? & ?)|(p & Hp & Hle)].
- destruct (Hrc _ _ _ Hx) as [?|(p' & ? & ?)]; [left; by exists x|right; by exists p'].
- right. destruct (Hg _ _ Hp) as (p' & ? & ?). exists p'. split; [done|lia].
Qed.

(** C23 A report is counted once.  When a report was answered, receiving it
    again, after any interleaving of other reports and transactions, in any
    process and at any time, changes nothing, whatever is said to it.  What is
    said to it: when the process that receives it has the open connection of
    the worker and that connection the live lease of the report's region, and
    the session or job still has its account, it is answered, as stale once the
    floor of its range has passed it (if that answer is a valid message) and
    with the same bytes until then.  It may come with other fields than the
    first, as long as it parses to the same report and, for the end of a job,
    carries the same dispatch token. *)
Theorem report_counted_once (m m' : moment) (k : worker_key) (report report' : dict) (r : work_report)
  (s0 s s1 s2 : store) (l0 l1 : list (string * usage)) (a : string)
  (Hfresh : receipts s0 = ∅) (Hbefore : meter_run s0 l0 s) (Hparse : parse_report k report = Ok r)
  (Hagain : parse_report k report' = Ok r) (Htoken : get report' "dispatch_token" = get report "dispatch_token")
  (Hfirst : report_in m k report r s = Ok (a, s1)) (Hbetween : meter_run s1 l1 s2) :
(commit_worker_report m' k report' s2).2 = s2
/\ (e_connected m' = true -> received_under m' k r s2 = true -> report_account r s2 = report_account r s ->
    exists p, ranges s2 !! w_range r = Some p
      /\ commit_worker_report m' k report' s2
         = (if w_sequence r <=? pr_floor p then preflight_worker_control (JDict (stale_ack r p)) None None else Ok a, s2)).
Proof.
destruct (answered_later m k report r s0 s s1 s2 l0 l1 a Hfresh Hbefore Hparse Hfirst Hbetween) as [Hok2 Hstays].
unfold commit_worker_report. split.
- destruct (negb (e_connected m')); [done|]. rewrite Hagain. unfold atomic.
  destruct (report_in m' k report' r s2) as [[b s3]|] eqn:Ein; [|done].
  destruct (report_ok m' k report' r s2 b s3 Ein) as (p & Had & [(_ & -> & _)|[(_ & -> & _)|[Hn _]]]); [done..|].
  unfold newly in Hn. rewrite (ad_range _ _ _ _ _ Had) in Hn. apply andb_true_iff in Hn as [Hn Hlt].
  destruct Hstays as [(x & Hx & _)|(p' & Hp' & Hle)]; [by rewrite Hx in Hn|].
  rewrite (ad_range _ _ _ _ _ Had) in Hp'. injection Hp' as <-. lia.
- intros Hm Hauth Hacc. rewrite Hm, Hagain. cbn [negb].
  destruct (report_in_served m k report r s a s1 Hfirst) as (user & p & Hu & Hrows & _ & Hd).
  assert (Hsub : subjects_stay s s2).
  { etransitivity; [exact (meter_step_subjects _ _ _ (ms_report m k report r s a s1 Hparse Hfirst))
      |exact (meter_run_subjects _ _ _ Hbetween)]. }
  rewrite Hu in Hacc. destruct (named_rows_stay k report r user s s2 p Hrows Hsub Hacc) as (p' & Hrows').
  apply (named_rows_token _ _ report') in Hrows'; [|done].
  destruct (report_in_answers m' k report' r s2 user p' Hacc Hrows' Hauth Hd) as (current & Heq).
  pose proof (named_range _ _ _ _ _ _ Hrows') as Hp'. exists p'. split; [done|]. unfold atomic. rewrite Heq.
  destruct Hstays as [(x & Hx & Hh & Ha)|(p2 & Hp2 & Hle)].
  + destruct (ro_range _ Hok2 _ _ _ Hx) as (p2 & Hp2 & Hlt). rewrite Hp' in Hp2. injection Hp2 as <-.
    rewrite Hx, Hh, bool_decide_eq_true_2 by exact eq_refl. cbv beta iota. rewrite (proj2 (Z.leb_gt _ _) Hlt), Ha. exact eq_refl.
  + rewrite Hp' in Hp2. injection Hp2 as <-. rewrite (proj2 (Z.leb_le _ _) Hle).
    destruct (receipts s2 !! (w_range r, w_sequence r)) as [x|] eqn:Hx.
    * destruct (ro_range _ Hok2 _ _ _ Hx) as (p2 & Hp2 & Hlt). rewrite Hp' in Hp2. injection Hp2 as <-. lia.
    * by destruct (preflight_worker_control (JDict (stale_ack r p')) None None).
Qed.

(** C40 A range meters the largest of what was reported on it: over any run its
    GPU time, frames and duration are the maxima of what they were and of the
    reports recorded meanwhile, and nothing else writes them. *)
Theorem range_meters_maximum (s s' : store) (l : list (string * usage)) (range : string) (p : physical_range)
  (Hrun : meter_run s l s') (Hp : ranges s !! range = Some p) :
exists p', ranges s' !! range = Some p'
  /\ us_gpu (pr_usage p') = foldl Z.max (us_gpu (pr_usage p)) (us_gpu <$> reported_on range l)
  /\ us_frames (pr_usage p') = foldl Z.max (us_frames (pr_usage p)) (us_frames <$> reported_on range l)
  /\ us_duration (pr_usage p') = foldl Z.max (us_duration (pr_usage p)) (us_duration <$> reported_on range l).
Proof.
destruct (meter_run_usage _ _ _ _ _ Hrun Hp) as (p' & Hp' & Hu). exists p'. split; [done|]. rewrite Hu.
generalize (pr_usage p). clear. induction (reported_on range l) as [|u us IH]; intros v; [done|]. apply (IH (join_usage v u)).
Qed.

(** Receipts are bounded: from a database without receipts, a range never has
    more than 256, each above the range's floor, so a report below the floor is
    stale and one above it is either new or answered from its receipt. *)
Theorem receipts_bounded (s0 s : store) (l : list (string * usage)) (range : string)
  (Hfresh : receipts s0 = ∅) (Hrun : meter_run s0 l s) :
(size (report_sequences range (receipts s)) <= 256)%nat
/\ forall q x, receipts s !! (range, q) = Some x -> exists p, ranges s !! range = Some p /\ pr_floor p < q.
Proof.
destruct (meter_run_receipts _ _ _ Hrun (receipts_ok_none _ Hfresh)) as [Hr Hs]. split; [apply Hs|]. intros q x. apply Hr.
Qed.

(** C25 An attempt counts what its range counts: every session attempt and every
    job attempt has one range that names it back, with the same usage, and this
    holds after any run if it held before. *)
Theorem attempts_count_their_range (s s' : store) (l : list (string * usage))
  (Hagrees : usage_agrees s) (Hrun : meter_run s l s') :
(forall k a, session_attempts s' !! k = Some a -> exists id p, sa_range a = Some id
   /\ ranges s' !! id = Some p /\ names_session k a p /\ sa_usage a = pr_usage p)
/\ (forall k a, job_attempts s' !! k = Some a -> exists id p, ja_range a = Some id
   /\ ranges s' !! id = Some p /\ names_job k a p /\ ja_usage a = pr_usage p).
Proof. destruct (meter_run_agrees _ _ _ Hrun Hagrees) as [H1 H2]. split; [exact H1|exact H2]. Qed.

(** An ended attempt stays ended: no later claim, ready, report, close or
    abandonment resumes it, gives it another worker or another range. *)
Theorem ended_attempt_stays_ended (s s' : store) (l : list (string * usage)) (k : string * Z) (a : session_attempt)
  (Hrun : meter_run s l s') (Ha : session_attempts s !! k = Some a) (Hended : sa_state a = "ended") :
exists a', session_attempts s' !! k = Some a' /\ sa_state a' = "ended" /\ sa_attempt a' = sa_attempt a
  /\ sa_worker a' = sa_worker a /\ sa_incarnation a' = sa_incarnation a /\ sa_range a' = sa_range a.
Proof.
destruct (meter_run_attempt _ _ _ _ _ Hrun Ha) as (a' & Ha' & [? ? ? ? ? He]). exists a'.
repeat split; try done. by apply He.
Qed.

End Runs.

(** ** Sessions that go live, and the end of a connection *)

Lemma traverse_err {A B} (f : A -> result exn B) (x0 : exn) l :
  (forall x e, f x = Err e -> e = x0) -> (exists x, x ∈ l /\ f x = Err x0) -> traverse f l = Err x0.
Proof.
  intros Honly (x & Hx & Hf). induction l as [|y l IH]; [by apply elem_of_nil in Hx|]. cbn.
  destruct (f y) as [b|e] eqn:Ey; cbn; [|by rewrite (Honly _ _ Ey)].
  apply elem_of_cons in Hx as [->|Hx]; [congruence|]. cbn in IH. by rewrite IH.
Qed.

Lemma open_attempts_in k s id g a e :
  session_attempts s !! (id, g) = Some a -> realtime_sessions s !! id = Some e ->
  attempt_of k a = true -> attempt_open a = true -> ((id, g), rs_user e) ∈ open_attempts k s.
Proof.
  intros Ha He Hk Ho. unfold open_attempts. apply list_elem_of_omap. exists ((id, g), a).
  split; [by apply elem_of_map_to_list|]. cbn. by rewrite He, Hk, Ho.
Qed.

Definition same_jobs (s s' : store) : Prop := job_rows s' = job_rows s.
Global Instance same_jobs_preorder : PreOrder same_jobs.
Proof. split; [by intros s|]. unfold same_jobs. congruence. Qed.

Section Ends.
Context `{Driver}.

(** A session goes live under a live grant: the answer of a worker makes a
    session live only when its attempt was opening on that very connection,
    its range is outstanding, and the connection's grant and the lease it is
    under are current; in every other case nothing changes. *)
Theorem session_goes_live_under_grant (m : moment) (k : worker_key) (message : dict) (s s' : store)
  (res : result exn bool) (Hrun : accept_session_ready m k message s = (res, s')) :
(res <> Ok true /\ s' = s)
\/ (res = Ok true /\ exists id bound e a l c,
     uuid_field message "session_id" = Ok id
     /\ realtime_sessions s !! id = Some e /\ rs_state e = Assigning
     /\ session_attempts s !! (id, bound) = Some a /\ sa_state a = "opening"
     /\ sa_worker a = k.1 /\ sa_incarnation a = k.2
     /\ own_connection m k s = Some c /\ k_grant_ready c = true /\ e_deadline_clock m < k_grant_expires c
     /\ leases s !! REGION = Some l /\ l_epoch l = k_epoch c /\ l_id l = k_lease c /\ e_deadline_clock m < l_expires l
     /\ realtime_sessions s' = <[id := made_live m (k_epoch c) e]> (realtime_sessions s)
     /\ session_attempts s' = <[(id, bound) := start_attempt m a]> (session_attempts s)).
Proof.
unfold accept_session_ready in Hrun. destruct (negb (e_connected m)); [by injection Hrun as <- <-; left|].
destruct (uuid_field message "session_id") as [id|x] eqn:Eid; cbn in Hrun; [|by injection Hrun as <- <-; left].
destruct (item message "control_generation") as [g|x]; cbn in Hrun; [|by injection Hrun as <- <-; left].
unfold atomic in Hrun. destruct (ready_in m k id g message s) as [[b s1]|x] eqn:Er;
  injection Hrun as <- <-; [|by left].
destruct (ready_ok m k id g message s b s1 Er) as [[-> ->]|[-> [Hlive]]]; [by left|right]. split; [done|].
destruct Hlive as (bound & e & a & p & l & c & Hb & He & Hst & Ha & Hsta & Hw & Hi & _ & _ & Hl & Hc & Hg & E1 & E2 & _ & T1 & T2 & ->).
exists id, bound, e, a, l, c. repeat split; try done; cbn.
- apply map_eq. intros i. destruct (decide (i = id)) as [->|Hne].
  + by rewrite lookup_alter_eq, lookup_insert_eq, He.
  + by rewrite lookup_alter_ne, lookup_insert_ne.
- apply map_eq. intros i. destruct (decide (i = (id, bound))) as [->|Hne].
  + by rewrite lookup_alter_eq, lookup_insert_eq, Ha.
  + by rewrite lookup_alter_ne, lookup_insert_ne.
Qed.

(** A connection with an orphaned session cannot be closed: while one of its
    open attempts is of a session whose account is gone, closing the worker
    raises before it writes anything, so the connection stays open and every
    attempt of it stays as it was. *)
Theorem orphaned_session_blocks_close (m : moment) (k : worker_key) (s : store) (id : string) (g : Z)
  (a : session_attempt) (e : realtime_session)
  (Hconnected : e_connected m = true) (Ha : session_attempts s !! (id, g) = Some a)
  (Hk : attempt_of k a = true) (Hopen : attempt_open a = true)
  (He : realtime_sessions s !! id = Some e) (Horphan : rs_user e = None) :
close_worker m k s = (Err (AttributeError "bytes"), s).
Proof.
pose proof (open_attempts_in _ _ _ _ _ _ Ha He Hk Hopen) as Hin. rewrite Horphan in Hin.
unfold close_worker. rewrite Hconnected. cbn [negb]. unfold atomic, close_in, mbind, txn_bind, read, lift.
rewrite (traverse_err _ (AttributeError "bytes")); [done| |].
- intros [key user] x. unfold account_of. destruct user; cbn; congruence.
- by exists ((id, g), None).
Qed.

Lemma count_attempt_jobs m report r current u : keeps same_jobs (count_attempt m report r current u).
Proof.
intros s x s' Hrun. unfold count_attempt in Hrun.
by destruct (w_session r), (w_generation r), (w_dispatch r); cmd_inv.
Qed.

Lemma evict_receipts_jobs range : keeps same_jobs (evict_receipts range).
Proof. intros s x s' Hrun. unfold evict_receipts in Hrun. cmd_inv. by destruct (evicted_floor _); cmd_inv. Qed.

Lemma insert_receipt_jobs range sequence x : keeps same_jobs (insert_receipt range sequence x).
Proof. intros s y s' Hrun. unfold insert_receipt in Hrun. repeat case_match; try done; injection Hrun as <- <-; done. Qed.

(** Only the end of the job's current dispatch is proved. *)
Lemma superseded_not_proved k r user dispatch s j :
w_session r = false -> job_rows s !! w_subject r = Some j -> dispatch < jb_dispatch j ->
job_end_proved (reported_command k r user dispatch) s = false.
Proof.
intros _ Hj Hlt. unfold job_end_proved. cbn [reported_command rc_subject rc_sequence]. rewrite Hj.
case_match; [|done]. rewrite (proj2 (Z.eqb_neq _ _)) by lia. by rewrite andb_false_r.
Qed.

(** The end of a superseded dispatch is never recorded: once its job was
    dispatched again, the completed terminal report of the earlier attempt is
    refused on every receipt, although the attempt is there and the report
    counts it as not current. *)
Theorem superseded_end_not_recorded (m : moment) (k : worker_key) (report : dict) (r : work_report) (s s' : store)
  (a : string) (j : job_row) (dispatch : Z)
  (Hterminal : terminal_job r = true) (Hcomplete : w_complete r = true) (Hdispatch : w_dispatch r = Some dispatch)
  (Hj : job_rows s !! w_subject r = Some j) (Hsuperseded : dispatch < jb_dispatch j)
  (Hnew : newly r s = true) : report_in m k report r s <> Ok (a, s').
Proof.
intros Hrun. assert (Hsess : w_session r = false) by (unfold terminal_job in Hterminal; by destruct (w_session r)).
unfold report_in in Hrun. lease_inv. destruct (report_account r s) as [user|]; [|done]. lease_inv.
destruct (lock_report_subject k report r user s); [|done]. lease_inv.
destruct (range_of_worker k (Some (w_range r)) s) as [p|] eqn:Ep; [|done]. lease_inv.
rewrite Hterminal, Hcomplete in *. cbn [negb andb] in *. lease_inv.
unfold newly in Hnew. destruct (receipts s !! _); [done|]. cbn [none some negb andb] in Hnew.
assert (Hp : ranges s !! w_range r = Some p).
{ unfold range_of_worker in Ep. cbn in Ep. destruct (ranges s !! w_range r); [|done]. cbn in Ep. destruct (_ && _); [exact Ep|done]. }
rewrite Hp in Hnew. rewrite (proj2 (Z.leb_gt _ _)) in Hrun by lia.
unfold record_report in Hrun. cmd_inv. rewrite Hsess in *. cbn [andb] in *. cmd_inv.
pose proof (count_attempt_jobs _ _ _ _ _ _ _ _ Ha1) as J1. pose proof (evict_receipts_jobs _ _ _ _ Ha4) as J4.
pose proof (insert_receipt_jobs _ _ _ _ _ _ Ha3) as J3.
assert (J : job_rows w4 = job_rows s) by (unfold same_jobs in *; cbn in *; congruence).
unfold erase_reported, subject_sequence in Ha5. rewrite Hsess, Hterminal, Hcomplete, Hdispatch in Ha5.
cbn [andb orb] in Ha5. cmd_inv.
match goal with He : erase_reported_subject_command _ _ = _ |- _ => unfold erase_reported_subject_command in He end.
cmd_inv.
match goal with He : lock_reported_command _ _ = _ |- _ => unfold lock_reported_command in He end. cmd_inv.
match goal with Hpr : negb (?b w4) = false |- _ =>
  assert (Hf : b w4 = false); [|by rewrite Hf in Hpr] end.
assert (is_close (reported_command k r user dispatch) = false) as -> by (apply bool_decide_eq_false; cbn; by rewrite Hsess).
eapply superseded_not_proved; [done|by rewrite J|done].
Qed.

End Ends.

(** ** The worker of the samples reports, ends and is asked again *)

Lemma serving_fresh : receipts serving = ∅.
Proof. reflexivity. Qed.

Lemma reported_newly : newly (parsed report_1) serving = true.
Proof. vm_compute. reflexivity. Qed.

Lemma reported_run : meter_run serving [(RANGE, w_usage (parsed report_1))] reported_once.
Proof.
  pose proof (ms_report now KEY report_1 (parsed report_1) serving first_ack reported_once report_1_parsed report_1_taken)
    as Hs.
  rewrite reported_newly in Hs. exact (mr_step _ (Some (RANGE, _)) _ [] _ Hs (mr_nil _)).
Qed.

(** The second report arrives before the first is sent again. *)
Definition report_2 : dict := checkpoint 2 55 4 1200.
Definition reported_twice : store := (commit_worker_report now KEY report_2 reported_once).2.
Definition second_ack : string :=
  match (commit_worker_report now KEY report_2 reported_once).1 with Ok a => a | Err _ => "" end.

Lemma report_2_parsed : parse_report KEY report_2 = Ok (parsed report_2).
Proof. vm_compute. reflexivity. Qed.
Lemma report_2_taken : report_in now KEY report_2 (parsed report_2) reported_once = Ok (second_ack, reported_twice).
Proof. vm_compute. reflexivity. Qed.
Lemma reported_second : exists l, meter_run reported_once l reported_twice.
Proof.
  eexists. exact (mr_step _ _ _ [] _ (ms_report now KEY report_2 (parsed report_2) reported_once second_ack
    reported_twice report_2_parsed report_2_taken) (mr_nil _)).
Qed.

Lemma report_counted_once_witness :
  exists p, ranges reported_twice !! RANGE = Some p /\ us_gpu (pr_usage p) = 55
    /\ commit_worker_report now KEY report_1 reported_twice = (Ok first_ack, reported_twice).
Proof.
  destruct reported_second as [l Hrun].
  destruct (report_counted_once now now KEY report_1 report_1 (parsed report_1) serving serving reported_once
    reported_twice [] l first_ack serving_fresh (mr_nil _) report_1_parsed report_1_parsed eq_refl report_1_taken Hrun)
    as [_ Hsaid].
  assert (Hlive : received_under now KEY (parsed report_1) reported_twice = true) by (vm_compute; reflexivity).
  assert (Hacc : report_account (parsed report_1) reported_twice = report_account (parsed report_1) serving)
    by (vm_compute; reflexivity).
  assert (Hw : w_range (parsed report_1) = RANGE /\ w_sequence (parsed report_1) = 1) by (split; vm_compute; reflexivity).
  assert (Hp : (fun p => (us_gpu (pr_usage p), pr_floor p)) <$> ranges reported_twice !! RANGE = Some (55, 0))
    by (vm_compute; reflexivity).
  destruct (Hsaid eq_refl Hlive Hacc) as (p & Hfound & Heq). destruct Hw as [Hw1 Hw2].
  rewrite Hw1 in Hfound. rewrite Hfound in Hp. injection Hp as Hgpu Hfloor.
  rewrite Hw2, Hfloor in Heq. exists p. exact (conj Hfound (conj Hgpu Heq)).
Defined.

Lemma range_meters_maximum_witness :
  exists p, ranges reported_once !! RANGE = Some p /\ us_gpu (pr_usage p) = 40
    /\ us_frames (pr_usage p) = 3 /\ us_duration (pr_usage p) = 900.
Proof.
  destruct (ranges serving !! RANGE) as [p|] eqn:Hp; [|vm_compute in Hp; discriminate Hp].
  assert (Hu : pr_usage p = no_usage) by (vm_compute in Hp; by injection Hp as <-).
  destruct (range_meters_maximum _ _ _ RANGE p reported_run Hp) as (p' & Hp' & G & F & T).
  rewrite Hu in G, F, T. vm_compute in G, F, T. exists p'. split; [exact Hp'|]. split; [exact G|]. split; [exact F|exact T].
Defined.

Lemma receipts_bounded_witness : (size (report_sequences RANGE (receipts reported_once)) <= 256)%nat.
Proof. exact (proj1 (receipts_bounded serving reported_once _ RANGE serving_fresh reported_run)). Defined.

Lemma serving_agrees : usage_agrees serving.
Proof.
  split; intros k a Ha; cbn in Ha; [|by rewrite lookup_empty in Ha].
  apply lookup_singleton_Some in Ha as [<- <-]. eexists RANGE, _. split; [done|].
  split; [apply lookup_singleton_eq|]. by repeat split.
Qed.

Lemma attempts_count_their_range_witness :
  exists a id p, session_attempts reported_once !! (SESSION, 1) = Some a /\ sa_range a = Some id
    /\ ranges reported_once !! id = Some p /\ sa_usage a = pr_usage p.
Proof.
  destruct (attempts_count_their_range serving reported_once _ serving_agrees reported_run) as [Hs _].
  destruct (session_attempts reported_once !! (SESSION, 1)) as [a|] eqn:Ha; [|vm_compute in Ha; discriminate Ha].
  destruct (Hs _ _ Ha) as (id & p & Hid & Hp & _ & Hu). exists a, id, p. repeat split; [exact Hid|exact Hp|exact Hu].
Defined.

(** The worker's last report of the session ends its attempt. *)
Definition last_report : dict := checkpoint 2 55 4 1200 ++ [("physical_complete", JBool true)].
Definition ended_once : store := (commit_worker_report now KEY last_report reported_once).2.
Definition last_ack : string :=
  match (commit_worker_report now KEY last_report reported_once).1 with Ok a => a | Err _ => "" end.

Lemma last_parsed : parse_report KEY last_report = Ok (parsed last_report).
Proof. vm_compute. reflexivity. Qed.
Lemma last_again : report_in now KEY last_report (parsed last_report) ended_once = Ok (last_ack, ended_once).
Proof. vm_compute. reflexivity. Qed.

Lemma last_known : newly (parsed last_report) ended_once = false.
Proof. vm_compute. reflexivity. Qed.
Lemma last_run : meter_run ended_once [] ended_once.
Proof.
  pose proof (ms_report now KEY last_report (parsed last_report) ended_once last_ack ended_once last_parsed last_again)
    as Hs.
  rewrite last_known in Hs. exact (mr_step _ None _ [] _ Hs (mr_nil _)).
Qed.

Lemma ended_attempt_stays_ended_witness :
  exists a, session_attempts ended_once !! (SESSION, 1) = Some a /\ sa_state a = "ended" /\ sa_worker a = WORKER.
Proof.
  destruct (session_attempts ended_once !! (SESSION, 1)) as [a|] eqn:Ha; [|vm_compute in Ha; discriminate Ha].
  assert (He : sa_state a = "ended" /\ sa_worker a = WORKER) by (vm_compute in Ha; by injection Ha as <-).
  destruct (ended_attempt_stays_ended ended_once ended_once [] (SESSION, 1) a last_run Ha (proj1 He))
    as (a' & Ha' & E & _ & W & _).
  exists a'. split; [exact (eq_trans (eq_sym Ha) Ha')|]. split; [exact E|]. exact (eq_trans W (proj2 He)).
Defined.

(** A session that is assigned, and the worker that answers. *)
Definition assigned : store :=
  on_session_attempts (fmap (fun a => {| sa_worker := sa_worker a; sa_incarnation := sa_incarnation a;
      sa_epoch := sa_epoch a; sa_attempt := sa_attempt a; sa_state := "opening"; sa_range := sa_range a;
      sa_usage := sa_usage a; sa_started := None; sa_ended := None |}))
    (on_realtime_sessions (fmap (fun e => {| rs_user := rs_user e; rs_auth := rs_auth e; rs_browser := rs_browser e;
      rs_region := rs_region e; rs_model := rs_model e; rs_effective := rs_effective e;
      rs_desired := rs_desired e; rs_params_revision := rs_params_revision e;
      rs_desired_revision := rs_desired_revision e; rs_state := Assigning; rs_generation := rs_generation e;
      rs_epoch := None; rs_started := None; rs_ended := None |})) serving).
Definition ready_answer : dict :=
  [("session_id", JStr SESSION); ("attempt_id", JStr ATTEMPT); ("control_generation", JInt 1)].

Lemma session_goes_live_under_grant_witness :
  exists e, realtime_sessions (accept_session_ready now KEY ready_answer assigned).2 !! SESSION = Some e
    /\ rs_state e = Live.
Proof.
  destruct (session_goes_live_under_grant now KEY ready_answer assigned
    (accept_session_ready now KEY ready_answer assigned).2 (accept_session_ready now KEY ready_answer assigned).1)
    as [[Hno _]|(_ & id & bound & e & a & l & c & Hid & _ & _ & _ & _ & _ & _ & _ & _ & _ & _ & _ & _ & _ & Hs & _)].
  - reflexivity.
  - exfalso. apply Hno. vm_compute. reflexivity.
  - exists (made_live now (k_epoch c) e). rewrite Hs. vm_compute in Hid. injection Hid as <-.
    split; [apply lookup_insert_eq|reflexivity].
Defined.

(** A session whose account was removed while it was open. *)
Definition orphaned : store :=
  on_realtime_sessions (fmap (fun e => {| rs_user := None; rs_auth := rs_auth e; rs_browser := rs_browser e;
    rs_region := rs_region e; rs_model := rs_model e; rs_effective := rs_effective e;
    rs_desired := rs_desired e; rs_params_revision := rs_params_revision e;
    rs_desired_revision := rs_desired_revision e; rs_state := rs_state e; rs_generation := rs_generation e;
    rs_epoch := rs_epoch e; rs_started := rs_started e; rs_ended := rs_ended e |})) serving.

Lemma orphaned_session_blocks_close_witness :
  close_worker now KEY orphaned = (Err (AttributeError "bytes"), orphaned).
Proof.
  destruct (session_attempts orphaned !! (SESSION, 1)) as [a|] eqn:Ha; [|vm_compute in Ha; discriminate Ha].
  destruct (realtime_sessions orphaned !! SESSION) as [e|] eqn:He; [|vm_compute in He; discriminate He].
  apply (orphaned_session_blocks_close now KEY orphaned SESSION 1 a e); [reflexivity|exact Ha| | |exact He|].
  - vm_compute in Ha. by injection Ha as <-.
  - vm_compute in Ha. by injection Ha as <-.
  - vm_compute in He. by injection He as <-.
Defined.

(** A job that was dispatched twice: its first attempt finishes after all. *)
Definition JOB : string := "88888888-8888-4888-8888-888888888888".
Definition TOKEN : string := "first".

Definition dispatched (current : Z) : store :=
  on_job_rows (fun _ => {[JOB := {| jb_user := USER; jb_model := "sdxl"; jb_params := JDict [];
      jb_state := running; jb_dispatch := current; jb_source := None; jb_dispatched := Some 5;
      jb_run := {| jr_attempt := current; jr_created := 4; jr_gpu := None; jr_input_fetch := None; jr_load := None;
                   jr_postprocess := None; jr_reason := None; jr_finished := None |} |}]})
    (on_job_attempts (fun _ => {[(JOB, 1) := {| ja_command := COMMAND; ja_worker := WORKER;
        ja_incarnation := INCARNATION; ja_epoch := 7; ja_state := "running"; ja_token_hash := sha256 TOKEN;
        ja_range := Some RANGE; ja_terminal := None; ja_usage := no_usage; ja_outcome := no_outcome |}]})
      (on_ranges (fun _ => {[RANGE := {| pr_worker := WORKER; pr_incarnation := INCARNATION; pr_region := "local";
          pr_epoch := 7; pr_account := Some USER; pr_kind := JobRange; pr_subject := JOB; pr_attempt := None;
          pr_generation := None; pr_sequence := Some 1; pr_state := Outstanding; pr_usage := no_usage;
          pr_floor := 0; pr_hash := None |}]}) serving)).

Definition job_finished : dict :=
  [("type", JStr "job_done"); ("worker_id", JStr WORKER); ("incarnation", JStr INCARNATION);
   ("job_id", JStr JOB); ("dispatch_sequence", JInt 1); ("dispatch_token", JStr TOKEN); ("range_id", JStr RANGE);
   ("report_sequence", JInt 1); ("report_hash", JStr REPORT_HASH); ("gpu_ms", JInt 40); ("images", JInt 1);
   ("duration_ms", JInt 900); ("physical_complete", JBool true); ("region", JStr "local"); ("owner_epoch", JInt 7)].

(** The same report of a job that was not dispatched again is recorded. *)
Example finished_recorded :
  match report_in now KEY job_finished (parsed job_finished) (dispatched 1) with
  | Ok (_, s) => ja_state <$> job_attempts s !! (JOB, 1) | Err _ => None end = Some "completed".
Proof. vm_compute. reflexivity. Qed.
Example superseded_refused :
  match report_in now KEY job_finished (parsed job_finished) (dispatched 2) with
  | Ok _ => "" | Err (CommandRefused msg) => msg | Err _ => "other" end
  = "job terminal report is not physically complete".
Proof. vm_compute. reflexivity. Qed.

Lemma superseded_end_not_recorded_witness :
  report_in now KEY job_finished (parsed job_finished) (dispatched 2) <> Ok (first_ack, dispatched 2).
Proof.
  destruct (job_rows (dispatched 2) !! JOB) as [j|] eqn:Hj; [|vm_compute in Hj; discriminate Hj].
  apply (superseded_end_not_recorded now KEY job_finished (parsed job_finished) (dispatched 2) (dispatched 2)
    first_ack j 1); [reflexivity|reflexivity|reflexivity|exact Hj| |vm_compute; reflexivity].
  vm_compute in Hj. injection Hj as <-. reflexivity.
Defined.
