(* ===== verification/Tasks.v ===== *)
(** * Handlers as interleaved tasks

    An asyncio handler runs without interruption between two awaits; at an
    await every other task of the process may run, and so may the database and
    the workers.  [prog] is a handler as the sequence of its awaited
    operations; a [pool] is the tasks of a process, which step in any order.

    [safe] is a rely-guarantee triple: whatever the other tasks do within their
    rely, every step of the program keeps the invariant, stays within its
    guarantee and leaves no charge without a keeper; [pool_safe] is its
    adequacy.  A charge is something that must not get lost; a task [carries]
    it when every way it can go on hands it to a keeper. *)

From S2P Require Import Prelude.

Section Programs.
Context {O : Type -> Type}.

Inductive prog (A : Type) : Type :=
| Ret (a : A)
| Do {X : Type} (o : O X) (k : X -> prog A)
| Fork (t : prog unit) (k : prog A).
Global Arguments Ret {A} a.
Global Arguments Do {A X} o k.
Global Arguments Fork {A} t k.

Fixpoint sequel {A B : Type} (p : prog A) (f : A -> prog B) : prog B :=
match p with
| Ret a => f a
| Do o k => Do o (fun x => sequel (k x) f)
| Fork t k => Fork t (sequel k f)
end.

(** A handler returns or raises. *)
Definition handler (A : Type) : Type := prog (result exn A).

Definition throw {A} (e : exn) : handler A := Ret (Err e).
(** [try: ... except Exception as error: ...] *)
Definition catch {A} (h : handler A) (f : exn -> handler A) : handler A :=
sequel h (fun r => match r with Ok a => Ret (Ok a) | Err e => f e end).
(** [try: ... finally: ...], where the cleanup does not raise. *)
Definition ending {A} (h : handler A) (cleanup : prog unit) : handler A :=
sequel h (fun r => sequel cleanup (fun _ => Ret r)).
(** An awaited operation that does not raise, and one that may. *)
Definition call {X} (o : O X) : handler X := Do o (fun x => Ret (Ok x)).
Definition attempt {X} (o : O (result exn X)) : handler X := Do o (fun x => Ret x).
(** [asyncio.create_task] *)
Definition spawn (t : prog unit) : handler unit := Fork t (Ret (Ok tt)).
(** A task whose result or exception nobody awaits. *)
Definition forget {A} (h : handler A) : prog unit := sequel h (fun _ => Ret tt).

(** Every operation the program may come to, on its task or on one it spawns,
    satisfies [P]; [R] says what an operation may return. *)
Section Every.
Context (R : forall X, O X -> X -> Prop).
Arguments R {X}.

Fixpoint every (P : bool -> forall X, O X -> Prop) {A : Type} (b : bool) (p : prog A) : Prop :=
match p with
| Ret _ => True
| Do o k => P b _ o /\ forall x, R o x -> every P b (k x)
| Fork t k => every P false t /\ every P b k
end.

Lemma every_impl (P P' : bool -> forall X, O X -> Prop) {A : Type} b (p : prog A) :
(forall b X o, P b X o -> P' b X o) -> every P b p -> every P' b p.
Proof.
intros HP. revert b. induction p as [A a|A X o k IH|A t IHt k IHk]; intros b; cbn; naive_solver.
Qed.
Lemma every_and (P P' : bool -> forall X, O X -> Prop) {A : Type} b (p : prog A) :
every P b p -> every P' b p -> every (fun b X o => P b X o /\ P' b X o) b p.
Proof.
revert b. induction p as [A a|A X o k IH|A t IHt k IHk]; intros b; cbn; naive_solver.
Qed.
Lemma every_sequel P {A B : Type} b (p : prog A) (f : A -> prog B) :
every P b p -> (forall a, every P b (f a)) -> every P b (sequel p f).
Proof.
revert b f. induction p as [A a|A X o k IH|A t IHt k IHk]; intros b f; cbn; naive_solver.
Qed.
Lemma every_catch P {A : Type} b (h : handler A) (f : exn -> handler A) :
every P b h -> (forall e, every P b (f e)) -> every P b (catch h f).
Proof. intros Hh Hf. apply every_sequel; [done|]. intros [a|e]; [done|apply Hf]. Qed.
Lemma every_ending P {A : Type} b (h : handler A) (cleanup : prog unit) :
every P b h -> every P b cleanup -> every P b (ending h cleanup).
Proof. intros Hh Hc. apply every_sequel; [done|]. intros r. by apply every_sequel. Qed.
Lemma every_forget P {A : Type} b (h : handler A) : every P b h -> every P b (forget h).
Proof. intros Hh. by apply every_sequel. Qed.
Lemma every_call (P : bool -> forall X, O X -> Prop) {X : Type} b (o : O X) : P b X o -> every P b (call o).
Proof. by split. Qed.
Lemma every_attempt (P : bool -> forall X, O X -> Prop) {X : Type} b (o : O (result exn X)) : P b _ o -> every P b (attempt o).
Proof. by split. Qed.
Lemma every_spawn P b (t : prog unit) : every P false t -> every P b (spawn t).
Proof. by split. Qed.
End Every.

End Programs.
Global Arguments prog : clear implicits.
Global Arguments handler : clear implicits.

Global Instance handler_ret {O} : MRet (handler O) := fun A a => Ret (Ok a).
Global Instance handler_bind {O} : MBind (handler O) := fun A B f h =>
  sequel h (fun r => match r with Ok a => f a | Err e => Ret (Err e) end).

(** The outcome of a handler as a value. *)
Definition call_result {O A} (h : handler O A) : handler O (result exn A) := sequel h (fun r => Ret (Ok r)).
Fixpoint handle_each {O A} (f : A -> handler O unit) (l : list A) : handler O unit :=
  match l with [] => mret tt | x :: l => f x ≫= fun _ => handle_each f l end.

Section EveryHandler.
Context {O : Type -> Type} (R : forall X, O X -> X -> Prop) (P : bool -> forall X, O X -> Prop).

Lemma every_bind {A B : Type} b (h : handler O A) (f : A -> handler O B) :
every R P b h -> (forall a, every R P b (f a)) -> every R P b (h ≫= f).
Proof. intros Hh Hf. apply every_sequel; [done|]. intros [a|e]; [apply Hf|done]. Qed.
Lemma every_call_bind {X B : Type} b (o : O X) (f : X -> handler O B) :
P b X o -> (forall x, R X o x -> every R P b (f x)) -> every R P b (call o ≫= f).
Proof. by split. Qed.
Lemma every_attempt_bind {X B : Type} b (o : O (result exn X)) (f : X -> handler O B) :
P b _ o -> (forall x, R _ o (Ok x) -> every R P b (f x)) -> every R P b (attempt o ≫= f).
Proof. intros Ho Hf. split; [done|]. intros [x|e] Hx; [by apply Hf|done]. Qed.
Lemma every_each {A : Type} b (f : A -> handler O unit) l :
(forall x, every R P b (f x)) -> every R P b (handle_each f l).
Proof. intros Hf. induction l as [|x l IH]; [done|]. by apply every_bind. Qed.
End EveryHandler.

(** Walk through a handler: what is left are its operations. *)
Ltac every_step :=
  match goal with
  | |- every _ _ _ (call _ ≫= _) => apply every_call_bind; [|intros ? ?]
  | |- every _ _ _ (attempt _ ≫= _) => apply every_attempt_bind; [|intros ? ?]
  | |- every _ _ _ (_ ≫= _) => apply every_bind; [|intros ?]
  | |- every _ _ _ (catch _ _) => apply every_catch; [|intros ?]
  | |- every _ _ _ (ending _ _) => apply every_ending
  | |- every _ _ _ (forget _) => apply every_forget
  | |- every _ _ _ (handle_each _ _) => apply every_each; intros ?
  | |- every _ _ _ (throw _) => exact I
  | |- every _ _ _ (mret _) => exact I
  | |- every _ _ _ (Ret _) => exact I
  | |- every _ _ _ (spawn _) => apply every_spawn
  | |- every _ _ _ (call _) => apply every_call
  | |- every _ _ _ (attempt _) => apply every_attempt
  | |- every _ _ _ (let '_ := ?x in _) => destruct x eqn:?
  | |- every _ _ _ (match ?x with _ => _ end) => destruct x eqn:?
  end.

(** ** Running *)

Section Running.
Context {O : Type -> Type} {S : Type}.
Variable exec : bool -> forall X, O X -> S -> X -> S -> Prop.
Arguments exec _ {X}.
(** What a new task may be, and what changes from outside.  One task at a time
  is the leader, the dispatch loop; the others are handlers. *)
Variable starts : bool -> S -> prog O unit -> Prop.
Variable outside : S -> S -> Prop.

Definition pool : Type := list (bool * prog O unit).
Definition led (l : pool) : Prop := exists p, (true, p) ∈ l.

Inductive pool_step : S * pool -> S * pool -> Prop :=
| pool_do s s' l1 l2 b X (o : O X) k x :
  exec b o s x s' -> pool_step (s, l1 ++ (b, Do o k) :: l2) (s', l1 ++ (b, k x) :: l2)
| pool_fork s l1 l2 b t k :
  pool_step (s, l1 ++ (b, Fork t k) :: l2) (s, l1 ++ (b, k) :: l2 ++ [(false, t)])
| pool_return s l1 l2 b u : pool_step (s, l1 ++ (b, Ret u) :: l2) (s, l1 ++ l2)
| pool_start s l (b : bool) t : starts b s t -> (b = true -> ~ led l) -> pool_step (s, l) (s, l ++ [(b, t)])
| pool_outside s s' l : outside s s' -> pool_step (s, l) (s', l).

Definition pool_run : S * pool -> S * pool -> Prop := rtc pool_step.

(** ** Rely and guarantee *)

Context (I : S -> Prop) (rely guar : bool -> S -> S -> Prop) {C : Type} (kept : C -> S -> Prop).

(** Every way the program can go on hands the charge to a keeper, or returns
  where [Q] holds. *)
Fixpoint carries {A : Type} (b : bool) (c : C) (p : prog O A) (Q : A -> S -> Prop) (s : S) : Prop :=
match p with
| Ret a => Q a s
| Do o k => forall s1 x s2, rely b s s1 -> I s1 -> exec b o s1 x s2 ->
  kept c s2 \/ carries b c (k x) Q s2
| Fork t k => carries false c t (fun _ _ => False) s \/ carries b c k Q s
end.

(** [K]: where the program may return with a charge. *)
Fixpoint safe {A : Type} (b : bool) (p : prog O A) (K : C -> A -> S -> Prop) (Q : A -> S -> Prop) (s : S) : Prop :=
match p with
| Ret a => Q a s
| Do o k => forall s1 x s2, rely b s s1 -> I s1 -> exec b o s1 x s2 ->
  I s2 /\ guar b s1 s2 /\ (forall c, kept c s1 -> kept c s2 \/ carries b c (k x) (K c) s2)
  /\ safe b (k x) K Q s2
| Fork t k => safe false t (fun _ _ _ => False) (fun _ _ => True) s /\ safe b k K Q s
end.
Definition hands_over (b : bool) (c : C) (p : prog O unit) : S -> Prop := carries b c p (fun _ _ => False).
Definition task_safe (b : bool) (p : prog O unit) : S -> Prop :=
safe b p (fun _ _ _ => False) (fun _ _ => True).

(** What the other tasks guarantee is what a task relies on. *)
Class Interference : Prop := {
rely_preorder b :: PreOrder (rely b);
rely_leader s s' : rely true s s' -> rely false s s';
guar_rely b b' s s' : ~ (b = true /\ b' = true) -> guar b s s' -> rely b' s s';
guar_own s s' : guar true s s' -> rely false s s';
outside_rely b s s' : outside s s' -> I s -> rely b s s';
outside_keeps s s' : outside s s' -> I s -> I s' /\ forall c, kept c s -> kept c s';
starts_safe b s p : starts b s p -> I s -> task_safe b p s
}.
Context `{!Interference}.

Lemma carries_impl {A : Type} b c (p : prog O A) (Q Q' : A -> S -> Prop) s :
(forall a s, Q a s -> Q' a s) -> carries b c p Q s -> carries b c p Q' s.
Proof.
revert b s Q Q'. induction p as [A a|A X o k IH|A t _ k IH]; intros b s Q Q' HQ; cbn; [auto| |naive_solver].
intros Hp s1 x s2 Hr HI He. destruct (Hp s1 x s2 Hr HI He); [by left|right; by eapply IH].
Qed.

Lemma carries_sequel {A B : Type} b c (p : prog O A) (f : A -> prog O B) Q s :
carries b c p (fun a => carries b c (f a) Q) s -> carries b c (sequel p f) Q s.
Proof.
revert s f. induction p as [A a|A X o k IH|A t _ k IH]; intros s f; cbn; [auto| |naive_solver].
intros Hp s1 x s2 Hr HI He. destruct (Hp s1 x s2 Hr HI He); [by left|right; by apply IH].
Qed.

Lemma rely_false b s s' : rely b s s' -> rely false s s'.
Proof. destruct b; [apply rely_leader|done]. Qed.

Lemma carries_rely {A : Type} b c (p : prog O A) Q s s' :
rely b s s' -> (forall a, Q a s -> Q a s') -> carries b c p Q s -> carries b c p Q s'.
Proof.
revert b Q. induction p as [A a|A X o k _|A t IHt k IHk]; intros b Q Hs HQ; cbn; [apply HQ| |].
- intros Hp s1 x s2 Hr. apply Hp. by etransitivity.
- intros [Ht|Hk]; [left|right; by eapply IHk]. eapply IHt; [by eapply rely_false|done|done].
Qed.

Lemma safe_impl {A : Type} b (p : prog O A) (K K' : C -> A -> S -> Prop) (Q Q' : A -> S -> Prop) s :
(forall c a s, K c a s -> K' c a s) -> (forall a s, Q a s -> Q' a s) -> safe b p K Q s -> safe b p K' Q' s.
Proof.
revert s K K' Q Q'. induction p as [A a|A X o k IH|A t _ k IH]; intros s K K' Q Q' HK HQ; cbn; [auto| |].
- intros Hp s1 x s2 Hr HI He. destruct (Hp s1 x s2 Hr HI He) as (? & ? & Hc & ?).
  split; [done|]. split; [done|]. split; [|by eapply IH]. intros c Hkept.
  destruct (Hc c Hkept); [by left|right]. eapply carries_impl; [apply HK|done].
- intros [Ht Hk]. split; [done|by eapply IH].
Qed.

Lemma safe_sequel {A B : Type} b (p : prog O A) (f : A -> prog O B) K Q s :
safe b p (fun c a => carries b c (f a) (K c)) (fun a => safe b (f a) K Q) s -> safe b (sequel p f) K Q s.
Proof.
revert s f. induction p as [A a|A X o k IH|A t _ k IH]; intros s f; cbn; [auto| |naive_solver].
intros Hp s1 x s2 Hr HI He. destruct (Hp s1 x s2 Hr HI He) as (? & ? & Hc & ?).
split; [done|]. split; [done|]. split; [|by apply IH]. intros c Hkept.
destruct (Hc c Hkept); [by left|right]. by apply carries_sequel.
Qed.

Lemma safe_rely {A : Type} b (p : prog O A) K Q s s' :
rely b s s' -> (forall a, Q a s -> Q a s') -> safe b p K Q s -> safe b p K Q s'.
Proof.
revert b K Q. induction p as [A a|A X o k _|A t IHt k IHk]; intros b K Q Hs HQ; cbn; [apply HQ| |].
- intros Hp s1 x s2 Hr. apply Hp. by etransitivity.
- intros [Ht Hk]. split; [|by eapply IHk]. eapply IHt; [by eapply rely_false|done|done].
Qed.

Lemma task_safe_rely b p s s' : rely b s s' -> task_safe b p s -> task_safe b p s'.
Proof. intros Hr. by apply safe_rely. Qed.
Lemma hands_over_rely b c p s s' : rely b s s' -> hands_over b c p s -> hands_over b c p s'.
Proof. intros Hr. by apply carries_rely. Qed.

(** A walk that keeps account of the charges on the task: [D] are those it
    carries where the program stands. *)
Fixpoint upholds {A : Type} (b : bool) (D : C -> Prop) (p : prog O A) (K : C -> A -> S -> Prop) (Q : A -> S -> Prop)
  (s : S) : Prop :=
match p with
| Ret a => Q a s /\ forall c, D c -> K c a s
| Do o k => forall s1 x s2, rely b s s1 -> I s1 -> exec b o s1 x s2 ->
    I s2 /\ guar b s1 s2 /\ exists D' : C -> Prop,
      (forall c, kept c s1 \/ D c -> kept c s2 \/ D' c) /\ upholds b D' (k x) K Q s2
| Fork t k => exists Dt Dk : C -> Prop, (forall c, D c -> Dt c \/ Dk c)
    /\ upholds false Dt t (fun _ _ _ => False) (fun _ _ => True) s /\ upholds b Dk k K Q s
end.

Lemma upholds_carries {A : Type} b D (p : prog O A) K Q s c : upholds b D p K Q s -> D c -> carries b c p (K c) s.
Proof.
revert b D K Q s. induction p as [A a|A X o k IH|A t IHt k IHk]; intros b D K Q s; cbn.
- intros [_ HK]. apply HK.
- intros Hp HD s1 x s2 Hr HI He. destruct (Hp s1 x s2 Hr HI He) as (_ & _ & D' & HD' & Hk).
  destruct (HD' c (or_intror HD)); [by left|right; by eapply IH].
- intros (Dt & Dk & HDD & Ht & Hk) HD. destruct (HDD c HD); [left; by eapply (IHt false Dt (fun _ _ _ => False))|].
  right. by eapply IHk.
Qed.

Lemma upholds_safe {A : Type} b D (p : prog O A) K Q s : upholds b D p K Q s -> safe b p K Q s.
Proof.
revert b D K Q s. induction p as [A a|A X o k IH|A t IHt k IHk]; intros b D K Q s; cbn.
- by intros [HQ _].
- intros Hp s1 x s2 Hr HI He. destruct (Hp s1 x s2 Hr HI He) as (? & ? & D' & HD' & Hk).
  split; [done|]. split; [done|]. split; [|by eapply IH].
  intros c Hc. destruct (HD' c (or_introl Hc)); [by left|right; by eapply upholds_carries].
- intros (Dt & Dk & _ & Ht & Hk). split; [by eapply IHt|by eapply IHk].
Qed.

Lemma upholds_impl {A : Type} b (D D' : C -> Prop) (p : prog O A) (K K' : C -> A -> S -> Prop)
  (Q Q' : A -> S -> Prop) s :
(forall c, D' c -> D c) -> (forall c a s, K c a s -> K' c a s) -> (forall a s, Q a s -> Q' a s) ->
upholds b D p K Q s -> upholds b D' p K' Q' s.
Proof.
revert b D D' K K' Q Q' s. induction p as [A a|A X o k IH|A t IHt k IHk]; intros b D D' K K' Q Q' s HD HK HQ; cbn.
- intros [Ha Hc]. split; [by apply HQ|]. intros c Hd. by apply HK, Hc, HD.
- intros Hp s1 x s2 Hr HI He. destruct (Hp s1 x s2 Hr HI He) as (? & ? & E & HE & Hk).
  split; [done|]. split; [done|]. exists E. split; [|by eapply IH; [..|exact Hk]].
  intros c [Hc|Hc]; apply HE; [by left|right; by apply HD].
- intros (Dt & Dk & HDD & Ht & Hk). exists Dt, Dk. split; [intros c Hc; by apply HDD, HD|]. split; [done|].
  by eapply IHk; [..|exact Hk].
Qed.

Lemma upholds_sequel {A B : Type} b D (p : prog O A) (f : A -> prog O B) (K' : C -> A -> S -> Prop)
  (Q' : A -> S -> Prop) K Q s :
upholds b D p K' Q' s ->
(forall a t, Q' a t -> upholds b (fun c => K' c a t) (f a) K Q t) -> upholds b D (sequel p f) K Q s.
Proof.
revert b D K' Q' s f. induction p as [A a|A X o k IH|A t IHt k IHk]; intros b D K' Q' s f; cbn.
- intros [Ha Hc] Hf. eapply upholds_impl; [..|by apply Hf]; auto.
- intros Hp Hf s1 x s2 Hr HI He. destruct (Hp s1 x s2 Hr HI He) as (? & ? & E & HE & Hk).
  split; [done|]. split; [done|]. exists E. split; [done|]. by eapply IH.
- intros (Dt & Dk & HDD & Ht & Hk) Hf. exists Dt, Dk. split; [done|]. split; [done|]. by eapply IHk.
Qed.

(** An operation that keeps the invariant and the charges wherever it runs, and
    one that leaves an assertion alone. *)
Definition good (b : bool) X (o : O X) : Prop := forall s x s', I s -> exec b o s x s' ->
I s' /\ guar b s s' /\ forall c, kept c s -> kept c s'.
Definition leaves (P : S -> Prop) (b : bool) X (o : O X) : Prop :=
forall s x s', I s -> P s -> exec b o s x s' -> P s'.

(** What an operation may return where the invariant holds. *)
Definition returns X (o : O X) (x : X) : Prop := exists b s s', I s /\ exec b o s x s'.

(** Such a program holds on to the assertion and to the charges on it. *)
Lemma every_upholds {A : Type} b (p : prog O A) (P : S -> Prop) (D : C -> Prop) s :
(forall s s', rely b s s' -> P s -> P s') ->
every returns (fun b' X o => good b' X o /\ leaves P b' X o) b p -> P s ->
upholds b D p (fun c _ _ => D c) (fun _ s => P s) s.
Proof.
revert b P D s. induction p as [A a|A X o k IH|A t IHt k IHk]; intros b P D s HP; cbn.
- by split.
- intros [[Ho Hl] Hk] Hs s1 x s2 Hr HI He. destruct (Ho _ _ _ HI He) as (HI2 & Hg & Hc).
  split; [done|]. split; [done|]. exists D. split; [naive_solver|].
  apply IH; [done|apply Hk; by exists b, s1, s2|]. eapply Hl; [exact HI|by eapply HP|done].
- intros [Ht Hk] Hs. exists (fun _ => False), D. split; [by right|]. split; [|by apply IHk].
  eapply upholds_impl; [..|apply (IHt false (fun _ => True) (fun _ => False) s)]; auto.
  eapply every_impl; [|exact Ht]. intros b' X o [Ho _]. by split.
Qed.

(** ** Adequacy *)

Record pool_ok (s : S) (l : pool) : Prop := {
po_invariant : I s;
po_safe : Forall (fun bp : bool * prog O unit => task_safe bp.1 bp.2 s) l;
po_leader : (length (filter (fun bp : bool * prog O unit => bp.1 = true) l) <= 1)%nat
}.
Definition charged (c : C) (s : S) (l : pool) : Prop :=
kept c s \/ Exists (fun bp : bool * prog O unit => hands_over bp.1 c bp.2 s) l.

Lemma leaders_app (l l' : pool) :
length (filter (fun bp : bool * prog O unit => bp.1 = true) (l ++ l'))
= (length (filter (fun bp : bool * prog O unit => bp.1 = true) l)
 + length (filter (fun bp : bool * prog O unit => bp.1 = true) l'))%nat.
Proof. by rewrite filter_app, length_app. Qed.
Lemma leaders_cons b p (l : pool) :
length (filter (fun bp : bool * prog O unit => bp.1 = true) ((b, p) :: l))
= ((if b then 1 else 0) + length (filter (fun bp : bool * prog O unit => bp.1 = true) l))%nat.
Proof. destruct b; [by rewrite filter_cons_True|by rewrite filter_cons_False]. Qed.
Lemma leader_alone (l : pool) p :
(true, p) ∈ l -> (1 <= length (filter (fun bp : bool * prog O unit => bp.1 = true) l))%nat.
Proof.
intros Hin. destruct (filter _ l) eqn:E; [|cbn; lia].
exfalso. eapply filter_nil_not_elem_of; [exact E| |exact Hin]. done.
Qed.
Lemma leaders_none (l : pool) : ~ led l -> filter (fun bp : bool * prog O unit => bp.1 = true) l = [].
Proof.
intros Hl. destruct (filter _ l) as [|[b p] l'] eqn:E; [done|]. exfalso. apply Hl. exists p.
assert (Hin : (b, p) ∈ filter (fun bp : bool * prog O unit => bp.1 = true) l) by (rewrite E; left).
apply list_elem_of_filter in Hin as [Hb Hin]. cbn in Hb. by subst b.
Qed.

(** The others around one task of the pool. *)
Lemma others_rely s s1 l1 l2 b p :
pool_ok s (l1 ++ (b, p) :: l2) -> guar b s s1 ->
Forall (fun bp : bool * prog O unit => rely bp.1 s s1) (l1 ++ l2).
Proof.
intros [_ _ Hl] Hg. apply Forall_forall. intros [b' p'] Hin. cbn. apply (guar_rely b); [|done].
intros [-> ->]. rewrite leaders_app, leaders_cons in Hl. apply elem_of_app in Hin.
cbn in *. destruct Hin as [Hin%leader_alone|Hin%leader_alone]; lia.
Qed.

Lemma Forall_zip_safe s s' (l : pool) :
Forall (fun bp : bool * prog O unit => rely bp.1 s s') l ->
Forall (fun bp : bool * prog O unit => task_safe bp.1 bp.2 s) l ->
Forall (fun bp : bool * prog O unit => task_safe bp.1 bp.2 s') l.
Proof. rewrite !Forall_forall. intros Hr Hs bp Hin. eapply task_safe_rely; [by apply Hr|by apply Hs]. Qed.
Lemma Exists_carried s s' c (l : pool) :
Forall (fun bp : bool * prog O unit => rely bp.1 s s') l ->
Exists (fun bp : bool * prog O unit => hands_over bp.1 c bp.2 s) l ->
Exists (fun bp : bool * prog O unit => hands_over bp.1 c bp.2 s') l.
Proof.
rewrite Forall_forall, !Exists_exists. intros Hr (bp & Hin & Hc). exists bp. split; [done|].
eapply hands_over_rely; [by apply Hr|done].
Qed.

Lemma Exists_app_cons (P : bool * prog O unit -> Prop) l1 x l2 :
Exists P (l1 ++ x :: l2) <-> P x \/ Exists P (l1 ++ l2).
Proof. rewrite !Exists_app, Exists_cons. tauto. Qed.
Lemma Forall_app_cons (P : bool * prog O unit -> Prop) l1 x l2 :
Forall P (l1 ++ x :: l2) <-> P x /\ Forall P (l1 ++ l2).
Proof. rewrite !Forall_app, Forall_cons. tauto. Qed.

Theorem pool_step_ok s l s' l' :
pool_step (s, l) (s', l') -> pool_ok s l ->
pool_ok s' l' /\ forall c, charged c s l -> charged c s' l'.
Proof.
intros Hstep. remember (s, l) as sl eqn:E1. remember (s', l') as sl' eqn:E2.
destruct Hstep as [t t' l1 l2 b X o k x He|t l1 l2 b f k|t l1 l2 b u|t l0 b p Hst Hb|t t' l0 Ho];
injection E1 as <- <-; injection E2 as <- <-; intros Hok.
- pose proof Hok as [HI Hs Hl]. apply Forall_app_cons in Hs as [Hp Hs].
  destruct (Hp t x t' ltac:(reflexivity) HI He) as (HI' & Hg & Hc & Hk).
  pose proof (others_rely _ _ _ _ _ _ Hok Hg) as Hr. split.
  + split; [done| |].
    * apply Forall_app_cons. split; [exact Hk|by eapply Forall_zip_safe].
    * rewrite leaders_app, leaders_cons in *. done.
  + intros c. unfold charged. rewrite !Exists_app_cons. intros [Hkept|[Hcar|Hcar]].
    * destruct (Hc c Hkept); [by left|by right; left].
    * destruct (Hcar t x t' ltac:(reflexivity) HI He); [by left|by right; left].
    * right. right. by eapply Exists_carried.
- destruct Hok as [HI Hs Hl]. apply Forall_app_cons in Hs as [[Hf Hk] Hs]. split.
  + split; [done| |].
    * apply Forall_app_cons. split; [exact Hk|]. rewrite app_assoc. apply Forall_app. split; [done|].
      by apply Forall_singleton.
    * rewrite !leaders_app, !leaders_cons, leaders_app, leaders_cons in *. cbn. lia.
  + intros c. unfold charged. rewrite !Exists_app_cons, app_assoc, (Exists_app _ (l1 ++ l2)), Exists_cons. cbn. tauto.
- destruct Hok as [HI Hs Hl]. apply Forall_app_cons in Hs as [_ Hs]. split.
  + split; [done..|]. rewrite leaders_app, leaders_cons in Hl. rewrite leaders_app. lia.
  + intros c. unfold charged. rewrite Exists_app_cons. cbn. tauto.
- destruct Hok as [HI Hs Hl]. split.
  + split; [done| |].
    * apply Forall_app. split; [done|]. apply Forall_singleton. by apply starts_safe.
    * rewrite leaders_app, leaders_cons. destruct b; cbn; [|lia]. rewrite leaders_none by auto. cbn. lia.
  + intros c. unfold charged. rewrite Exists_app. tauto.
- destruct Hok as [HI Hs Hl]. destruct (outside_keeps t t' Ho HI) as [HI' Hk].
  assert (Hr : Forall (fun bp : bool * prog O unit => rely bp.1 t t') l0).
  { apply Forall_forall. intros bp _. by apply outside_rely. }
  split; [split; [done|by eapply Forall_zip_safe|done]|].
  intros c [Hc|Hc]; [left; by apply Hk|right; by eapply Exists_carried].
Qed.

(** Every reachable state satisfies the invariant, and no charge is lost. *)
Theorem pool_safe s l s' l' :
pool_run (s, l) (s', l') -> pool_ok s l -> pool_ok s' l' /\ forall c, charged c s l -> charged c s' l'.
Proof.
intros Hrun. remember (s, l) as sl eqn:E1. remember (s', l') as sl' eqn:E2. revert s l E1.
induction Hrun as [sl|sl [s1 l1] sl'' Hstep _ IH]; intros s l -> Hok.
- injection E2 as -> ->. by split.
- destruct (pool_step_ok _ _ _ _ Hstep Hok) as [Hok1 Hc1]. destruct (IH E2 _ _ eq_refl Hok1) as [Hok2 Hc2].
  split; [done|]. intros c Hc. by apply Hc2, Hc1.
Qed.

(** What the tasks guarantee can be assumed of every step of a run. *)
Definition seen_exec (b : bool) X (o : O X) s x s' : Prop := exec b o s x s' /\ I s /\ I s' /\ guar b s s'.
Definition seen_starts (b : bool) s p : Prop := starts b s p /\ I s.
Definition seen_outside s s' : Prop := outside s s' /\ I s /\ I s' /\ forall b, rely b s s'.

End Running.

Section Seen.
Context {O : Type -> Type} {S : Type}.
Variable exec : bool -> forall X, O X -> S -> X -> S -> Prop.
Variable starts : bool -> S -> prog O unit -> Prop.
Variable outside : S -> S -> Prop.
Context (I : S -> Prop) (rely guar : bool -> S -> S -> Prop) {C : Type} (kept : C -> S -> Prop).
Context `{!Interference exec starts outside I rely guar kept}.

Theorem pool_seen s l s' l' :
pool_run exec starts outside (s, l) (s', l') -> pool_ok exec I rely guar kept s l ->
pool_run (seen_exec exec I guar) (seen_starts starts I) (seen_outside outside I rely) (s, l) (s', l').
Proof.
intros Hrun. remember (s, l) as sl eqn:E. revert s l E.
induction Hrun as [sl|sl [s1 l1] sl' Hstep _ IH]; intros s l -> Hok; [reflexivity|].
destruct (pool_step_ok exec starts outside I rely guar kept _ _ _ _ Hstep Hok) as [Hok1 _].
eapply rtc_l; [|by eapply IH]. destruct Hok as [HI Hs Hl], Hok1 as [HI1 _ _].
remember (s, l) as sl eqn:E1. remember (s1, l1) as sl1 eqn:E2.
destruct Hstep as [t t' la lb b X o k x He|t la lb b f k|t la lb b u|t l0 b p Hst Hb|t t' l0 Ho];
  injection E1 as <- <-; injection E2 as <- <-.
- apply pool_do. split; [done|]. apply Forall_app_cons in Hs as [Hp _].
  destruct (Hp t x t' ltac:(reflexivity) HI He) as (? & ? & _). done.
- apply pool_fork.
- apply pool_return.
- by apply pool_start.
- apply pool_outside. split; [done|]. split; [done|]. split; [done|]. intros b. by eapply outside_rely.
Qed.

End Seen.

(** ** Pools, executed

    Given an [answer] for each awaited operation, [advance] makes one step of
    one task and [began] starts one; what they compute are steps of the pool. *)

Section Advance.
Context {O : Type -> Type} {S C : Type}.
Variable exec : bool -> forall X, O X -> S -> X -> S -> Prop.
Variable starts : bool -> S -> prog O unit -> Prop.
Variable outside : S -> S -> Prop.
Variable answer : C -> forall X, O X -> S -> option (X * S).
Hypothesis answer_execs : forall c b X (o : O X) s x s', answer c X o s = Some (x, s') -> exec b X o s x s'.

Definition began (b : bool) (p : prog O unit) (sl : S * list (bool * prog O unit)) : option (S * list (bool * prog O unit)) :=
  if b && existsb fst sl.2 then None else Some (sl.1, sl.2 ++ [(b, p)]).
Definition advance (task : nat) (c : C) (sl : S * list (bool * prog O unit)) : option (S * list (bool * prog O unit)) :=
  let before := take task sl.2 in let after := drop (Datatypes.S task) sl.2 in
  match sl.2 !! task with
  | Some (b, Do o k) => '(x, s') ← answer c _ o sl.1; Some (s', before ++ (b, k x) :: after)
  | Some (b, Fork t k) => Some (sl.1, before ++ (b, k) :: after ++ [(false, t)])
  | Some (b, Ret _) => Some (sl.1, before ++ after)
  | None => None
  end.

Lemma began_step b p sl sl' : starts b sl.1 p -> began b p sl = Some sl' -> pool_step exec starts outside sl sl'.
Proof using Type.
  destruct sl as [s l]. unfold began. cbn. case_match eqn:E; [done|]. intros Hs [= <-]. apply pool_start; [done|].
  intros -> [q Hq]. cbn in E. assert (existsb fst l = true); [|congruence].
  apply existsb_exists. exists (true, q). split; [by apply list_elem_of_In|done].
Qed.
Lemma advance_step task c sl sl' : advance task c sl = Some sl' -> pool_step exec starts outside sl sl'.
Proof using answer_execs.
  destruct sl as [s l]. unfold advance. cbn. destruct (l !! task) as [[b p]|] eqn:E; [|done].
  assert (El : l = take task l ++ (b, p) :: drop (Datatypes.S task) l) by (symmetry; by apply take_drop_middle).
  intros Hp. rewrite El. clear El E. destruct p as [a|X o k|t k].
  - injection Hp as <-. apply pool_return.
  - destruct (answer c X o s) as [[x s']|] eqn:Ea; [|done]. injection Hp as <-. apply pool_do. by eapply answer_execs.
  - injection Hp as <-. apply pool_fork.
Qed.
End Advance.
