(* ===== verification/JobTables.v ===== *)
(** * The rows, keys and transactions of the job scheduler

    Models what src/backend/app/jobs.py reads and writes in PostgreSQL: the
    jobs with the state their attempts left them in, the assets they produced,
    the deletes still owed to the object store, and the keys of the objects.
    [db] adds to the [store] of the command journal the tables only jobs.py
    writes, and the row locks an open transaction holds over an await. *)

From S2P Require Import Prelude PyFloat Hashes Json Protocol6 Transactions AccountStore CommandTables CommandSubjects KeyRing CommandStore.
Open Scope Z_scope.

Definition TERMINAL_STATES : list job_state := [succeeded; failed; cancelled].
Definition terminal (st : job_state) : bool := bool_decide (st ∈ TERMINAL_STATES).
Definition THUMBNAIL_MAX_EDGE : Z := 384.

(** assets *)
Record asset := {
  as_user : string; as_job : option string; as_parent : option string; as_key : string; as_mime : string;
  as_width : Z; as_height : Z; as_expires : option Z
}.
(** pending_deletes, by storage key *)
Record pending_delete := { pd_attempts : Z; pd_error : string; pd_first : Z; pd_next : Z }.

(** A row a transaction has locked and not yet given back. *)
Inductive row_lock : Type := JobLock (id : string) | DeleteLock (key : string).
Global Instance row_lock_eq_dec : EqDecision row_lock.
Proof. solve_decision. Defined.

Record db := {
  d_store : store; d_assets : gmap string asset; d_pending : gmap string pending_delete; d_held : list row_lock
}.
Definition with_tables (s : store) (d : db) : db :=
  {| d_store := s; d_assets := d_assets d; d_pending := d_pending d; d_held := d_held d |}.
Definition on_assets f (d : db) : db :=
  {| d_store := d_store d; d_assets := f (d_assets d); d_pending := d_pending d; d_held := d_held d |}.
Definition on_pending f (d : db) : db :=
  {| d_store := d_store d; d_assets := d_assets d; d_pending := f (d_pending d); d_held := d_held d |}.
Definition on_held f (d : db) : db :=
  {| d_store := d_store d; d_assets := d_assets d; d_pending := d_pending d; d_held := f (d_held d) |}.

Definition tables {A} (t : txn store A) : txn db A := fun d =>
  match t (d_store d) with Ok (a, s) => Ok (a, with_tables s d) | Err e => Err e end.

Definition job_at (id : string) (d : db) : option job_row := job_rows (d_store d) !! id.
Definition set_job (id : string) (f : job_row -> job_row) : db -> db :=
  fun d => with_tables (on_job_rows (alter f id) (d_store d)) d.

(** ** Keys of the objects *)

Definition DISPATCH_PREFIX : string := "dispatch/".

Definition storage_keys_for_attempt (user job : string) (attempt : Z) : string * string :=
  let prefix := user +:+ "/" +:+ job +:+ "-attempt-" +:+ dec_string attempt in
  (prefix +:+ ".png", prefix +:+ "-thumb.webp").
Definition dispatch_keys_for_attempt (user job : string) (attempt : Z) : string * string :=
  let prefix := DISPATCH_PREFIX +:+ user +:+ "/" +:+ job +:+ "-attempt-" +:+ dec_string attempt in
  (prefix +:+ ".png", prefix +:+ "-thumb.webp").

Definition pair_list (kk : string * string) : list string := [kk.1; kk.2].
(** [range(1, attempt + 1)] *)
Definition attempts_to (attempt : Z) : list Z := seqZ 1 attempt.

Definition success_orphan_keys (user job : string) (attempt : Z) : list string :=
  concat ((fun earlier => pair_list (dispatch_keys_for_attempt user job earlier)
                          ++ (if earlier <? attempt then pair_list (storage_keys_for_attempt user job earlier) else []))
          <$> attempts_to attempt).
(** The keys [purge_attempt_blobs] removes. *)
Definition attempt_keys (user job : string) (attempt : Z) : list string :=
  concat ((fun earlier => pair_list (dispatch_keys_for_attempt user job earlier)
                          ++ pair_list (storage_keys_for_attempt user job earlier)) <$> attempts_to attempt).

(** ** The state of a job *)

Definition run_job (st : job_state) (f : job_run -> job_run) (j : job_row) : job_row :=
  {| jb_user := jb_user j; jb_model := jb_model j; jb_params := jb_params j; jb_state := st;
     jb_dispatch := jb_dispatch j; jb_source := jb_source j; jb_dispatched := jb_dispatched j;
     jb_run := f (jb_run j) |}.
Definition dispatched_at (t : Z) (j : job_row) : job_row :=
  {| jb_user := jb_user j; jb_model := jb_model j; jb_params := jb_params j; jb_state := running;
     jb_dispatch := jb_dispatch j; jb_source := jb_source j; jb_dispatched := Some t; jb_run := jb_run j |}.
(** [job.state = ...; job.failure_reason = reason; job.finished_at = ...] *)
Definition finish_run (reason : string) (finished : option Z) (r : job_run) : job_run :=
  {| jr_attempt := jr_attempt r; jr_created := jr_created r; jr_gpu := jr_gpu r;
     jr_input_fetch := jr_input_fetch r; jr_load := jr_load r; jr_postprocess := jr_postprocess r;
     jr_reason := Some reason; jr_finished := finished |}.
Definition second_attempt (r : job_run) : job_run :=
  {| jr_attempt := 2; jr_created := jr_created r; jr_gpu := jr_gpu r; jr_input_fetch := jr_input_fetch r;
     jr_load := jr_load r; jr_postprocess := jr_postprocess r; jr_reason := jr_reason r;
     jr_finished := jr_finished r |}.
Definition charge_run (gpu : Z) (r : job_run) : job_run :=
  {| jr_attempt := jr_attempt r; jr_created := jr_created r; jr_gpu := Some gpu;
     jr_input_fetch := jr_input_fetch r; jr_load := jr_load r; jr_postprocess := jr_postprocess r;
     jr_reason := jr_reason r; jr_finished := jr_finished r |}.

(** The phases a report measured; an absent one keeps the column. *)
Record phases := { ph_input_fetch : option Z; ph_load : option Z; ph_postprocess : option Z }.
Definition or_kept (new old : option Z) : option Z := match new with Some z => Some z | None => old end.
Definition succeed_run (gpu : Z) (ph : phases) (t : Z) (r : job_run) : job_run :=
  {| jr_attempt := jr_attempt r; jr_created := jr_created r; jr_gpu := Some gpu;
     jr_input_fetch := or_kept (ph_input_fetch ph) (jr_input_fetch r);
     jr_load := or_kept (ph_load ph) (jr_load r);
     jr_postprocess := or_kept (ph_postprocess ph) (jr_postprocess r);
     jr_reason := jr_reason r; jr_finished := Some t |}.

(** [INSERT INTO assets] *)
Definition insert_asset (id : string) (a : asset) : txn db unit := fun d =>
  if some (d_assets d !! id) then Err (IntegrityError "assets_pkey")
  else Ok (tt, on_assets (<[id := a]>)
    (with_tables
      {| connections := connections (d_store d); leases := leases (d_store d); commands := commands (d_store d);
         realtime_sessions := realtime_sessions (d_store d); session_attempts := session_attempts (d_store d);
         job_rows := job_rows (d_store d); job_attempts := job_attempts (d_store d); ranges := ranges (d_store d);
         principals := principals (d_store d); bindings := bindings (d_store d);
         asset_owners := <[id := as_user a]> (asset_owners (d_store d)); receipts := receipts (d_store d) |} d)).

Record image := { im_size : Z; im_type : string; im_width : Z; im_height : Z }.

Definition full_asset (user job : string) (source : option string) (key : string) (i : image) : asset :=
  {| as_user := user; as_job := Some job; as_parent := source; as_key := key; as_mime := "image/png";
     as_width := im_width i; as_height := im_height i; as_expires := None |}.
Definition thumb_asset (user job full : string) (key : string) (i : image) : asset :=
  {| as_user := user; as_job := Some job; as_parent := Some full; as_key := key; as_mime := "image/webp";
     as_width := im_width i; as_height := im_height i; as_expires := None |}.

(** A usable master, and a usable thumbnail. *)
Definition usable_image (i : image) : bool := (0 <? im_size i) && bool_decide (im_type i = "image/png").
Definition usable_thumb (i : image) : bool :=
  (0 <? im_size i) && bool_decide (im_type i = "image/webp")
  && (Z.max (im_width i) (im_height i) <=? THUMBNAIL_MAX_EDGE).

Section Transactions.
Variable m : moment.
Let now := e_write_clock m.

(** The commands of the job's current dispatch. *)
Definition erase_dispatched (user id : string) (j : job_row) : txn db unit :=
if 0 <? jb_dispatch j
then _ ← tables (erase_subject_commands m user "job" id (Some (jb_dispatch j))); mret tt
else mret tt.

Definition mark_failed_in (id reason : string) (expected : option Z) : txn db bool :=
job ← read (job_at id);
match job with
| None => mret false
| Some j =>
  if terminal (jb_state j) then mret false
  else if match expected with Some e => e <? jr_attempt (jb_run j) | None => false end then mret false
  else
    _ ← erase_dispatched (jb_user j) id j;
    _ ← write (set_job id (run_job failed (finish_run reason (Some now))));
    mret true
end.

(** [None]: nothing to cancel; else the worker whose connection is fenced. *)
Definition cancel_in (id reason : string) : txn db (option (option worker_key)) :=
job ← read (job_at id);
match job with
| None => mret None
| Some j =>
  if terminal (jb_state j) then mret None
  else
    fenced ← read (fun d => if 0 <? jb_dispatch j
                            then (fun a => (ja_worker a, ja_incarnation a))
                                 <$> job_attempts (d_store d) !! (id, jb_dispatch j)
                            else None);
    _ ← erase_dispatched (jb_user j) id j;
    _ ← write (set_job id (run_job cancelled (finish_run reason (Some now))));
    mret (Some fenced)
end.

Inductive requeued : Type :=
| Settled
| StillQueued (created : Z)
| Requeued (created : Z)
| Exhausted (user : string) (attempt : Z).

Definition requeue_in (id : string) : txn db requeued :=
job ← read (job_at id);
match job with
| None => mret Settled
| Some j =>
  if terminal (jb_state j) then mret Settled
  else if decide (jb_state j = queued) then mret (StillQueued (jr_created (jb_run j)))
  else if jr_attempt (jb_run j) =? 1 then
    _ ← write (set_job id (run_job queued second_attempt));
    mret (Requeued (jr_created (jb_run j)))
  else mret (Exhausted (jb_user j) (jr_attempt (jb_run j)))
end.

Definition charge_in (id : string) (gpu attempt : Z) : txn db bool :=
job ← read (job_at id);
match job with
| Some j =>
  if bool_decide (jb_state j = cancelled) && (jr_attempt (jb_run j) =? attempt)
  then _ ← write (set_job id (run_job cancelled (charge_run gpu))); mret true
  else mret false
| None => mret false
end.

(** What the commit of a finished attempt found. *)
Inductive verdict : Type :=
| Committed (asset_id : string)
| Superseded (discard cancelled_here charged : bool).

Definition insert_output (user id : string) (source : option string) (keys : string * string) (full_id thumb_id : string)
(full : image) (thumb : option image) : txn db unit :=
_ ← insert_asset full_id (full_asset user id source keys.1 full);
match thumb with
| None => mret tt
| Some t => insert_asset thumb_id (thumb_asset user id full_id keys.2 t)
end.

Definition succeed_in (user id : string) (attempt gpu : Z) (ph : phases) (full_id thumb_id : string)
(full : image) (thumb : option image) : txn db verdict :=
job ← read (job_at id);
match job with
| None => mret (Superseded true false false)
| Some j =>
  let here := jr_attempt (jb_run j) =? attempt in
  if terminal (jb_state j) || (attempt <? jr_attempt (jb_run j)) then
    let discard := (attempt <? jr_attempt (jb_run j)) || negb (bool_decide (jb_state j = succeeded)) in
    let cancelled_here := bool_decide (jb_state j = cancelled) && here in
    if cancelled_here && negb (gpu =? 0)
    then _ ← write (set_job id (run_job cancelled (charge_run gpu)));
         mret (Superseded discard cancelled_here true)
    else mret (Superseded discard cancelled_here false)
  else
    _ ← erase_dispatched user id j;
    _ ← write (set_job id (run_job succeeded (succeed_run gpu ph now)));
    _ ← insert_output user id (jb_source j) (storage_keys_for_attempt user id attempt) full_id thumb_id full thumb;
    mret (Committed full_id)
end.

End Transactions.

(** ** Finishing from a receipt *)

(** What [_recover_receipted_attempt] reads before it touches storage; [None]
    when there is no receipted end to finish from. *)
Record snapshot := {
  sn_user : string; sn_attempt : Z; sn_sequence : Z; sn_failed : bool; sn_range : string;
  sn_report : Z; sn_outcome : outcome_columns; sn_usage : usage; sn_terminal : option Z
}.

Definition receipted (range : string) (sequence : Z) (hash : string) (s : store) : bool :=
  bool_decide (rr_hash <$> receipts s !! (range, sequence) = Some hash).

Definition receipted_end (id : string) (d : db) : option snapshot :=
  let s := d_store d in
  j ← job_at id d;
  a ← job_attempts s !! (id, jb_dispatch j);
  range ← ja_range a;
  p ← ranges s !! range;
  hash ← pr_hash p;
  if bool_decide (jb_state j = running) && is_in (ja_state a) ["completed"; "failed"]
     && (0 <? us_sequence (ja_usage a)) && receipted range (us_sequence (ja_usage a)) hash s
  then Some {| sn_user := jb_user j; sn_attempt := jr_attempt (jb_run j); sn_sequence := jb_dispatch j;
               sn_failed := bool_decide (ja_state a = "failed"); sn_range := range;
               sn_report := us_sequence (ja_usage a); sn_outcome := ja_outcome a; sn_usage := ja_usage a;
               sn_terminal := ja_terminal a |}
  else None.

(** The job is running and its current attempt is in the state expected. *)
Definition attempt_stands (id : string) (sequence : Z) (state : string) (d : db) : option (job_row * job_attempt) :=
  j ← job_at id d;
  a ← job_attempts (d_store d) !! (id, sequence);
  if bool_decide (jb_state j = running) && (jb_dispatch j =? sequence) && bool_decide (ja_state a = state)
  then Some (j, a) else None.

Definition failure_text (o : outcome_columns) : string :=
  if py_eq (oc_failure o) (JStr "generation_failed") then "generation failed"
  else if py_eq (oc_failure o) (JStr "input_image_invalid") then "input image invalid"
  else "worker reported failure".

(** The failed end of an attempt whose state is [state]. *)
Definition fail_receipted_in (m : moment) (id : string) (n : snapshot) (state reason : string) : txn db bool :=
  stands ← read (attempt_stands id (sn_sequence n) state);
  match stands with
  | None => mret false
  | Some _ =>
      _ ← tables (erase_subject_commands m (sn_user n) "job" id (Some (sn_sequence n)));
      _ ← write (set_job id (run_job failed (finish_run reason (sn_terminal n))));
      mret true
  end.

(** The full image the job already has, the least by id. *)
Definition existing_image (id : string) (d : db) : option string :=
  match omap (fun ka : string * asset =>
          if bool_decide (as_job ka.2 = Some id) && bool_decide (as_mime ka.2 = "image/png") then Some ka.1 else None)
        (map_to_list (d_assets d)) with
  | [] => None
  | k :: l => Some (foldr (fun a b => if String.leb a b then a else b) k l)
  end.

Definition receipted_run (a : job_attempt) (r : job_run) : job_run :=
  {| jr_attempt := jr_attempt r; jr_created := jr_created r; jr_gpu := Some (us_gpu (ja_usage a));
     jr_input_fetch := oc_input_fetch (ja_outcome a); jr_load := oc_load (ja_outcome a);
     jr_postprocess := oc_postprocess (ja_outcome a); jr_reason := jr_reason r; jr_finished := ja_terminal a |}.

(** The receipt still stands for the attempt's last report. *)
Definition durable (a : job_attempt) (d : db) : bool :=
  match ja_range a ≫= fun range => ranges (d_store d) !! range with
  | Some p => (us_sequence (pr_usage p) =? us_sequence (ja_usage a))
              && match pr_hash p, ja_range a with
                 | Some hash, Some range => receipted range (us_sequence (pr_usage p)) hash (d_store d)
                 | _, _ => false end
  | None => false
  end.

(** The asset the job then has; [None]: the output is superseded. *)
Definition finish_receipted_in (m : moment) (id : string) (n : snapshot) (full_id thumb_id : string)
    (full : image) (thumb : option image) : txn db (option string) :=
  stands ← read (attempt_stands id (sn_sequence n) "completed");
  match stands with
  | None => mret None
  | Some (j, a) =>
      proof ← read (durable a);
      if (proof : bool) then
        existing ← read (existing_image id);
        shown ← (match existing with
                 | Some known => mret known
                 | None => _ ← insert_output (sn_user n) id (jb_source j)
                                 (storage_keys_for_attempt (sn_user n) id (sn_attempt n)) full_id thumb_id full thumb;
                           mret full_id
                 end);
        _ ← tables (erase_subject_commands m (sn_user n) "job" id (Some (sn_sequence n)));
        _ ← write (set_job id (run_job succeeded (receipted_run a)));
        mret (Some shown)
      else mret None
  end.

(** ** Deletes that are owed *)

Definition PENDING_DELETE_ERROR_MAX : Z := 1000.
Definition PENDING_DELETE_PASS_LIMIT : nat := 100.
Definition PENDING_DELETE_MAX_ATTEMPTS : Z := 8.
Definition PENDING_DELETE_BACKOFF_CAP : Z := 60.
Definition minutes (n : Z) : Z := n * 60000000.

(** [INSERT ... ON CONFLICT DO UPDATE SET last_error]: the schedule stays. *)
Definition record_pending_in (now : Z) (key error : string) : txn db unit :=
  write (on_pending (partial_alter (fun row => Some
    match row with
    | Some r => {| pd_attempts := pd_attempts r; pd_error := error; pd_first := pd_first r; pd_next := pd_next r |}
    | None => {| pd_attempts := 0; pd_error := error; pd_first := now; pd_next := now |}
    end) key)).

Definition insert_due (x : string * Z) : list (string * Z) -> list (string * Z) :=
  fix go l := match l with
              | [] => [x]
              | y :: l => if x.2 <=? y.2 then x :: y :: l else y :: go l
              end.
(** The due rows, the oldest first. *)
Definition due_deletes (now : Z) (d : db) : list string :=
  (take PENDING_DELETE_PASS_LIMIT
    (foldr insert_due []
      (omap (fun kr : string * pending_delete => if pd_next kr.2 <=? now then Some (kr.1, pd_next kr.2) else None)
         (map_to_list (d_pending d))))).*1.

Definition backoff_minutes (attempts : Z) : Z := Z.min (2 ^ attempts) PENDING_DELETE_BACKOFF_CAP.
Definition delayed (now : Z) (error : string) (r : pending_delete) : pending_delete :=
  {| pd_attempts := pd_attempts r + 1; pd_error := error; pd_first := pd_first r;
     pd_next := now + minutes (backoff_minutes (pd_attempts r + 1)) |}.
