(* ===== verification/Jobs.v ===== *)
(** * The job scheduler

    Models the dispatch machinery of src/backend/app/jobs.py: the queue, the
    jobs in flight, the dispatch loop with its sweeps, what a worker reports,
    cancellation, recovery after a restart and the deletes that are owed.

    A handler is a [prog]: its awaited operations in order, with the code
    between two awaits as one [Now].  [Now] is given a reading of
    [time.monotonic()]; a [Query] is a transaction that commits, [Hold] locks a
    row for a transaction that stays open until [Settle] or [Release].  Objects
    that are compared with [is], workers and entries, are handles. *)

From Stdlib Require Import SpecFloat.
From S2P Require Import Prelude PyFloat Hashes Json Protocol6 Uuid PyInt KeyRing Transactions AccountStore CommandTables CommandSubjects CommandStore ODict Tasks JobTables.
Open Scope Z_scope.

Definition JOB_DISPATCH_DEPTH : Z := 2.
Definition TIER_DEFAULT : Z := 1.

(** ** The queue *)

Record queue_hint := { h_tier : Z; h_enqueued : Z; h_id : string }.
Global Instance queue_hint_eq_dec : EqDecision queue_hint.
Proof. solve_decision. Defined.

(** The order of the dataclass: tier, age, then id. *)
Definition hint_le (a b : queue_hint) : bool :=
  (h_tier a <? h_tier b)
  || (h_tier a =? h_tier b) && ((h_enqueued a <? h_enqueued b)
                                || (h_enqueued a =? h_enqueued b) && String.leb (h_id a) (h_id b)).

Fixpoint least_hint (h : queue_hint) (l : list queue_hint) : queue_hint :=
  match l with [] => h | x :: l => least_hint (if hint_le h x then h else x) l end.
Fixpoint drop_hint (h : queue_hint) (l : list queue_hint) : list queue_hint :=
  match l with [] => [] | x :: l => if decide (x = h) then l else x :: drop_hint h l end.
(** [heapq.heappush] and [heappop]: a heap gives its least element back. *)
Definition heap_push (h : queue_hint) (heap : list queue_hint) : list queue_hint := h :: heap.
Definition heap_pop (heap : list queue_hint) : option queue_hint * list queue_hint :=
  match heap with
  | [] => (None, [])
  | h :: l => let least := least_hint h l in (Some least, drop_hint least (h :: l))
  end.

(** ** The state of the process *)

(** The columns of [realtime.Worker] the scheduler uses. *)
Record worker := {
  w_id : string; w_incarnation : option string; w_nonce : option string; w_protocol : Z;
  w_transport : option string; w_models : list string; w_slots_in_use : Z; w_jobs : Z;
  w_ready : bool; w_deadline : option Z
}.
Record in_flight := {
  f_worker : nat; f_key : string; f_thumb : string; f_user : string; f_token : string;
  f_attempt : Z; f_sequence : option Z
}.

Record process := {
  p_objects : gmap nat worker;
  p_workers : list (string * nat);
  p_entries : gmap nat in_flight;
  p_inflight : list (string * nat);
  p_lost : list string;
  p_queue : list queue_hint;
  p_progress : gmap string float;
  p_stamps : gmap string Z;
  p_subscribers : gmap string (list (list dict));
  p_epoch : Z; p_active : Z; p_paused : bool;
  p_connected : bool; p_stall : Z
}.

Definition on_objects f (p : process) : process :=
  {| p_objects := f (p_objects p); p_workers := p_workers p; p_entries := p_entries p; p_inflight := p_inflight p;
     p_lost := p_lost p; p_queue := p_queue p; p_progress := p_progress p; p_stamps := p_stamps p;
     p_subscribers := p_subscribers p; p_epoch := p_epoch p; p_active := p_active p; p_paused := p_paused p;
     p_connected := p_connected p; p_stall := p_stall p |}.
Definition on_workers f (p : process) : process :=
  {| p_objects := p_objects p; p_workers := f (p_workers p); p_entries := p_entries p; p_inflight := p_inflight p;
     p_lost := p_lost p; p_queue := p_queue p; p_progress := p_progress p; p_stamps := p_stamps p;
     p_subscribers := p_subscribers p; p_epoch := p_epoch p; p_active := p_active p; p_paused := p_paused p;
     p_connected := p_connected p; p_stall := p_stall p |}.
Definition on_entries f (p : process) : process :=
  {| p_objects := p_objects p; p_workers := p_workers p; p_entries := f (p_entries p); p_inflight := p_inflight p;
     p_lost := p_lost p; p_queue := p_queue p; p_progress := p_progress p; p_stamps := p_stamps p;
     p_subscribers := p_subscribers p; p_epoch := p_epoch p; p_active := p_active p; p_paused := p_paused p;
     p_connected := p_connected p; p_stall := p_stall p |}.
Definition on_inflight f (p : process) : process :=
  {| p_objects := p_objects p; p_workers := p_workers p; p_entries := p_entries p; p_inflight := f (p_inflight p);
     p_lost := p_lost p; p_queue := p_queue p; p_progress := p_progress p; p_stamps := p_stamps p;
     p_subscribers := p_subscribers p; p_epoch := p_epoch p; p_active := p_active p; p_paused := p_paused p;
     p_connected := p_connected p; p_stall := p_stall p |}.
Definition on_lost f (p : process) : process :=
  {| p_objects := p_objects p; p_workers := p_workers p; p_entries := p_entries p; p_inflight := p_inflight p;
     p_lost := f (p_lost p); p_queue := p_queue p; p_progress := p_progress p; p_stamps := p_stamps p;
     p_subscribers := p_subscribers p; p_epoch := p_epoch p; p_active := p_active p; p_paused := p_paused p;
     p_connected := p_connected p; p_stall := p_stall p |}.
Definition on_queue f (p : process) : process :=
  {| p_objects := p_objects p; p_workers := p_workers p; p_entries := p_entries p; p_inflight := p_inflight p;
     p_lost := p_lost p; p_queue := f (p_queue p); p_progress := p_progress p; p_stamps := p_stamps p;
     p_subscribers := p_subscribers p; p_epoch := p_epoch p; p_active := p_active p; p_paused := p_paused p;
     p_connected := p_connected p; p_stall := p_stall p |}.
Definition on_progress f (p : process) : process :=
  {| p_objects := p_objects p; p_workers := p_workers p; p_entries := p_entries p; p_inflight := p_inflight p;
     p_lost := p_lost p; p_queue := p_queue p; p_progress := f (p_progress p); p_stamps := p_stamps p;
     p_subscribers := p_subscribers p; p_epoch := p_epoch p; p_active := p_active p; p_paused := p_paused p;
     p_connected := p_connected p; p_stall := p_stall p |}.
Definition on_stamps f (p : process) : process :=
  {| p_objects := p_objects p; p_workers := p_workers p; p_entries := p_entries p; p_inflight := p_inflight p;
     p_lost := p_lost p; p_queue := p_queue p; p_progress := p_progress p; p_stamps := f (p_stamps p);
     p_subscribers := p_subscribers p; p_epoch := p_epoch p; p_active := p_active p; p_paused := p_paused p;
     p_connected := p_connected p; p_stall := p_stall p |}.
Definition on_subscribers f (p : process) : process :=
  {| p_objects := p_objects p; p_workers := p_workers p; p_entries := p_entries p; p_inflight := p_inflight p;
     p_lost := p_lost p; p_queue := p_queue p; p_progress := p_progress p; p_stamps := p_stamps p;
     p_subscribers := f (p_subscribers p); p_epoch := p_epoch p; p_active := p_active p; p_paused := p_paused p;
     p_connected := p_connected p; p_stall := p_stall p |}.
Definition set_gate (epoch active : Z) (paused : bool) (p : process) : process :=
  {| p_objects := p_objects p; p_workers := p_workers p; p_entries := p_entries p; p_inflight := p_inflight p;
     p_lost := p_lost p; p_queue := p_queue p; p_progress := p_progress p; p_stamps := p_stamps p;
     p_subscribers := p_subscribers p; p_epoch := epoch; p_active := active; p_paused := paused;
     p_connected := p_connected p; p_stall := p_stall p |}.

Definition bump_dispatch_epoch (p : process) : process := set_gate (p_epoch p + 1) (p_active p) true p.
Definition resume_dispatch (p : process) : process := set_gate (p_epoch p) (p_active p) false p.

(** The worker object of a handle; every handle in use has one. *)
Definition no_worker : worker :=
  {| w_id := ""; w_incarnation := None; w_nonce := None; w_protocol := 5; w_transport := None; w_models := [];
     w_slots_in_use := 0; w_jobs := 0; w_ready := false; w_deadline := None |}.
Definition worker_of (w : nat) (p : process) : worker := default no_worker (p_objects p !! w).
Definition entry_of (job : string) (p : process) : option (nat * in_flight) :=
  h ← od_get job (p_inflight p); e ← p_entries p !! h; Some (h, e).

(** ** Who may take a job *)

Definition takes_work (w : worker) : bool := none (w_incarnation w).
Definition has_current_work_grant (t : Z) (w : worker) : bool :=
  negb (w_protocol w =? 6)
  || w_ready w && match w_deadline w with None => true | Some d => t <? d end.
Definition takes_jobs (t : Z) (w : worker) : bool := takes_work w || has_current_work_grant t w.
Definition job_dispatch_depth (w : worker) : Z := if 0 <? w_slots_in_use w then 1 else JOB_DISPATCH_DEPTH.
Definition has_room (t : Z) (w : worker) : bool := takes_jobs t w && (w_jobs w <? job_dispatch_depth w).

Definition job_candidates (t : Z) (model : string) (p : process) : list nat :=
  filter (fun h => has_room t (worker_of h p) && bool_decide (model ∈ w_models (worker_of h p)) = true)
    (p_workers p).*2.
(** [min(candidates, key=jobs_in_flight)]: the first of the least loaded. *)
Definition least_loaded (p : process) (h : nat) (l : list nat) : nat :=
  foldl (fun best x => if w_jobs (worker_of x p) <? w_jobs (worker_of best p) then x else best) h l.
Definition pick_job_worker (t : Z) (model : string) (p : process) : option nat :=
  match job_candidates t model p with [] => None | h :: l => Some (least_loaded p h l) end.

Definition set_jobs (n : Z) (w : worker) : worker :=
  {| w_id := w_id w; w_incarnation := w_incarnation w; w_nonce := w_nonce w; w_protocol := w_protocol w;
     w_transport := w_transport w; w_models := w_models w; w_slots_in_use := w_slots_in_use w; w_jobs := n;
     w_ready := w_ready w; w_deadline := w_deadline w |}.
Definition take_job_slot (h : nat) : process -> process :=
  on_objects (alter (fun w => set_jobs (w_jobs w + 1) w) h).
Definition release_job_slot (h : nat) : process -> process :=
  on_objects (alter (fun w => set_jobs (Z.max 0 (w_jobs w - 1)) w) h).
Definition forget_worker (h : nat) (p : process) : process :=
  if decide (od_get (w_id (worker_of h p)) (p_workers p) = Some h)
  then on_workers (od_del (w_id (worker_of h p))) p else p.

(** ** Uploads and inputs *)

(** [hmac.compare_digest] of two texts is equality. *)
Definition upload_authorized (key : string) (token : json) (p : process) : bool :=
  match token with
  | JStr t =>
      negb (bool_decide (t = "")) && isascii t
      && existsb (fun jh : string * nat =>
           match p_entries p !! jh.2 with
           | Some e => is_in key [f_key e; f_thumb e] && bool_decide (t = f_token e)
           | None => false end) (p_inflight p)
  | _ => false
  end.

(** The capabilities by value, with their key and expiry in seconds. *)
Definition capabilities : Type := list (string * (string * Z)).
Definition expire_capabilities (now : Z) : capabilities -> capabilities := filter (fun c => now < c.2.2).
Definition register_input_capability (now : Z) (capability key : string) (expires : Z) (c : capabilities)
  : capabilities := od_set capability (key, expires) (expire_capabilities now c).
Definition resolve_input_capability (now : Z) (token : option string) (expires : option Z) (c : capabilities)
  : option string * capabilities :=
  let live := expire_capabilities now c in
  (match token, expires with
   | Some t, Some e =>
       if bool_decide (t = "") || negb (isascii t) || (e <=? now) then None
       else (fun x => x.2.1) <$> list_find (fun x : string * (string * Z) => x.2.2 = e /\ x.1 = t) live
            ≫= fun ix => Some ix
   | _, _ => None
   end, live).

(** ** What a worker measured *)

Definition two53 : Z := 2 ^ 53.
(** [float()] of a float or of an integer a float holds exactly. *)
Definition worker_float (v : json) (other : float) : float :=
  match v with
  | JFloat f => f
  | JInt z => if (- two53 <? z) && (z <? two53) then default other (float_of_Z z) else other
  | _ => other
  end.
Definition worker_int (v : json) : Z :=
  match match v with
        | JInt z => Some z
        | JFloat f => int_of_float f
        | _ => None
        end with
  | Some n => if (0 <=? n) && (n <? 2 ^ 31) then n else 0
  | None => 0
  end.

(** ** Events *)

Definition event_terminal (e : dict) : bool :=
  match get e "state" with JStr st => is_in st ["succeeded"; "failed"; "cancelled"] | _ => false end.
Definition MAILBOX : nat := 1.
(** The loop of [publish]: a full queue gives up its oldest event, unless that
    is the verdict. *)
Fixpoint offer_event (e : dict) (q : list dict) : list dict :=
  if decide ((length q < MAILBOX)%nat) then q ++ [e]
  else match q with
       | [] => [e]
       | oldest :: rest => if event_terminal oldest then rest ++ [oldest] else offer_event e rest
       end.
Definition post_event (e : dict) (q : list dict) : list dict :=
  if event_terminal e then [e] else offer_event e q.
Definition publish (job : string) (fields : dict) (p : process) : process :=
  let e := update_with fields [("job_id", JStr job)] in
  on_subscribers (alter (fmap (post_event e)) job) p.

(** ** Awaited operations *)

Inductive op : Type -> Type :=
| Now {X : Type} (f : Z -> process -> X * process) : op X
| Query {X : Type} (need : option row_lock) (t : moment -> string * string -> txn db X) : op (result exn X)
| Hold {X : Type} (l : row_lock) (f : moment -> db -> X) : op (result exn X)
| Settle (l : row_lock) (t : moment -> txn db unit) : op (result exn unit)
| Release (l : row_lock) : op unit
| Inspect (key : string) : op (result exn (option image))
| Promote (src dst : string) : op (result exn unit)
| Remove (why key : string) : op (result exn unit)
| Target (key token : string) : op (result exn (string * dict))
| FetchUrl (key : string) : op (result exn string)
| Send (w : nat) (message : dict) : op (result exn unit)
| Fresh : op string
| Token : op string
| Random : op (list Z)
| Admitted_ : op bool
| Deadline : op bool.

Abbreviation handler := (Tasks.handler op).

Definition look {X} (f : process -> X) : handler X := call (Now (fun _ p => (f p, p))).
Definition change (f : process -> process) : handler unit := call (Now (fun _ p => (tt, f p))).
Definition query {X} (need : option row_lock) (t : moment -> txn db X) : handler X :=
  attempt (Query need (fun m _ => t m)).
(** A transaction that inserts rows, with the ids they may take. *)
Definition inserting {X} (need : option row_lock) (t : moment -> string * string -> txn db X) : handler X :=
  attempt (Query need t).
Definition announce (job : string) (fields : dict) : handler unit := change (publish job fields).
Definition fresh_handle (p : process) : nat := fresh (dom (p_entries p)).

(** [asyncio.timeout]: the deadline may pass at any await. *)
Fixpoint cut_short {A} (late : A) (p : prog op A) : prog op A :=
  match p with
  | Ret a => Ret a
  | Do o k => Do Deadline (fun passed : bool => if passed then Ret late else Do o (fun x => cut_short late (k x)))
  | Fork t k => Fork t (cut_short late k)
  end.
Definition bounded {A} (h : handler A) : handler A := cut_short (Err TimeoutError) h.

(** [url.rstrip("/")] *)
Fixpoint rstrip_slashes (s : string) : string :=
  match s with
  | String.EmptyString => String.EmptyString
  | String.String c rest =>
      match rstrip_slashes rest with
      | String.EmptyString => if byte_val c =? 47 then String.EmptyString else String.String c String.EmptyString
      | r => String.String c r
      end
  end.
Definition asset_url (public_url asset : string) : string :=
  rstrip_slashes public_url +:+ "/api/v1/assets/" +:+ asset.

(** ** Deletes *)

Definition exn_name (e : exn) : string :=
  match e with
  | Protocol6Error _ => "Protocol6Error" | ValueError _ => "ValueError" | TypeError _ => "TypeError"
  | KeyError _ => "KeyError" | AttributeError _ => "AttributeError" | OverflowError => "OverflowError"
  | StructError _ => "error" | KeyRingError _ => "KeyRingError" | IntegrityError _ => "IntegrityError"
  | RuntimeError _ => "RuntimeError" | CommandRefused _ => "CommandRefused"
  | AuthorityUnavailable _ => "AuthorityUnavailable" | ProtocolError _ => "ProtocolError"
  | IndexError _ => "IndexError" | TimeoutError => "TimeoutError" | WebSocketDisconnect => "WebSocketDisconnect"
  | HTTPException _ _ => "HTTPException"
  end.
Definition exn_text (e : exn) : string :=
  match e with
  | Protocol6Error t | ValueError t | TypeError t | AttributeError t | StructError t | KeyRingError t
  | IntegrityError t | RuntimeError t | CommandRefused t | AuthorityUnavailable t | ProtocolError t
  | IndexError t | HTTPException _ t => t
  | KeyError k => "'" +:+ k +:+ "'"
  | OverflowError | TimeoutError | WebSocketDisconnect => ""
  end.
(** [s.rstrip(": ")] *)
Fixpoint rstrip_colons (s : string) : string :=
  match s with
  | String.EmptyString => String.EmptyString
  | String.String c rest =>
      match rstrip_colons rest with
      | String.EmptyString => if (byte_val c =? 58) || (byte_val c =? 32) then String.EmptyString
                              else String.String c String.EmptyString
      | r => String.String c r
      end
  end.
(** The first [n] characters. *)
Fixpoint take_text (n : Z) (s : string) : string :=
  match s with
  | String.EmptyString => String.EmptyString
  | String.String c rest =>
      if is_cont c then String.String c (take_text n rest)
      else if n <=? 0 then String.EmptyString else String.String c (take_text (n - 1) rest)
  end.
Definition trim_error (e : exn) : string :=
  let message := rstrip_colons (exn_name e +:+ ": " +:+ exn_text e) in
  if text_length message <=? PENDING_DELETE_ERROR_MAX then message
  else take_text PENDING_DELETE_ERROR_MAX message.

Definition record_pending_delete (key error : string) : handler unit :=
  connected ← look p_connected;
  if (connected : bool)
  then catch (query (Some (DeleteLock key)) (fun m => record_pending_in (e_write_clock m) key error)) (fun _ => mret tt)
  else mret tt.

(** Each key, whatever became of those before it. *)
Definition purge_keys (keys : list string) (what : string) : handler unit :=
  handle_each (fun key => catch (attempt (Remove what key)) (fun e => record_pending_delete key (trim_error e))) keys.
(** A purge a shutdown cuts short: what is left is recorded. *)
Definition cancelled_purge (pending : list string) : handler unit :=
  handle_each (fun key => record_pending_delete key "cleanup cancelled") pending.

Definition purge_attempt_blobs (user job : string) (attempt : Z) : handler unit :=
  purge_keys (attempt_keys user job attempt) ("attempt cleanup for job " +:+ job).
Definition schedule_blob_cleanup (h : handler unit) : handler unit := spawn (forget h).

(** One delete under the lock of its row; [None]: another replica holds it. *)
Definition retry_one_pending_delete (key : string) : handler unit :=
  row ← attempt (Hold (DeleteLock key) (fun m d =>
    match d_pending d !! key with
    | Some r => if e_started m <? pd_next r then None else Some r
    | None => None
    end));
  match row with
  | None => call (Release (DeleteLock key))
  | Some r =>
      removed ← call (Remove "pending delete" key);
      match removed with
      | Ok _ => attempt (Settle (DeleteLock key) (fun _ => write (on_pending (delete key))))
      | Err e => attempt (Settle (DeleteLock key)
                   (fun m => write (on_pending (alter (delayed (e_write_clock m) (trim_error e)) key))))
      end
  end.
Definition retry_pending_deletes : handler unit :=
  connected ← look p_connected;
  if (connected : bool) then
    due ← query None (fun m => read (due_deletes (e_started m)));
    handle_each retry_one_pending_delete due
  else mret tt.

(** ** The end of a job *)

Definition failed_event (reason : string) : dict := [("state", JStr "failed"); ("reason", JStr reason)].

Definition mark_failed (job reason : string) (expected : option Z) : handler bool :=
  done_here ← query (Some (JobLock job)) (fun m => mark_failed_in m job reason expected);
  if (done_here : bool) then _ ← announce job (failed_event reason); mret true else mret false.

Definition push_hint (job : string) (created : Z) : handler unit :=
  change (on_queue (heap_push {| h_tier := TIER_DEFAULT; h_enqueued := created; h_id := job |})).

Definition requeue_or_fail (job reason : string) : handler unit :=
  found ← query (Some (JobLock job)) (fun _ => requeue_in job);
  match found with
  | Settled => mret tt
  | StillQueued created => push_hint job created
  | Requeued created =>
      _ ← push_hint job created;
      announce job [("state", JStr "queued"); ("attempt", JInt 2)]
  | Exhausted user attempt =>
      failed_here ← mark_failed job reason None;
      if (failed_here : bool) then purge_attempt_blobs user job attempt else mret tt
  end.

(** ** Entries *)

Definition drop_stamps (job : string) (p : process) : process :=
  on_stamps (delete job) (on_progress (delete job) p).
Definition clear_if_current (h : nat) (job : string) (current : nat) (p : process) : process :=
  if decide (od_get job (p_inflight p) = Some current)
  then release_job_slot h (drop_stamps job (on_inflight (od_del job) p)) else p.
(** [_drop_early_entry] *)
Definition drop_early_entry (job : string) (current h : nat) (p : process) : process :=
  if decide (od_get job (p_inflight p) = Some current)
  then release_job_slot h (on_stamps (delete job) (on_inflight (od_del job) p)) else p.
(** [inflight.pop(job_id, None)] with its stamp and its slot. *)
Definition unregister (job : string) (h : nat) (p : process) : process :=
  release_job_slot h (on_stamps (delete job) (on_inflight (od_del job) p)).
Definition register_entry (job : string) (e : in_flight) (t : Z) (p : process) : nat * process :=
  let current := fresh_handle p in
  (current, on_stamps (<[job := t]>) (on_inflight (od_set job current)
              (on_entries (<[current := e]>) (take_job_slot (f_worker e) p)))).

Definition on_worker_lost (h : nat) (p : process) : process :=
  let mine := filter (fun je : string * nat => (f_worker <$> p_entries p !! je.2) = Some h) (p_inflight p) in
  foldl (fun p je => on_lost (fun l => l ++ [je.1]) (drop_stamps je.1 (on_inflight (od_del je.1) p))) p mine.

(** [realtime.close_fenced_worker], without the close of the socket. *)
Definition close_fenced_worker (k : worker_key) (p : process) : process :=
  match od_get k.1 (p_workers p) with
  | Some h => if decide (w_incarnation (worker_of h p) = Some k.2)
              then on_worker_lost h (forget_worker h p) else p
  | None => p
  end.

(** ** Cancelling *)

(** Best effort: a worker of protocol 6 is fenced and not asked. *)
Definition ask_worker_to_stop (job : string) (e : in_flight) : handler unit :=
  asked ← look (fun p => bool_decide (od_get (w_id (worker_of (f_worker e) p)) (p_workers p) = Some (f_worker e))
                         && negb (w_protocol (worker_of (f_worker e) p) =? 6));
  if (asked : bool) then
    _ ← call (Send (f_worker e) [("type", JStr "cancel_job"); ("job_id", JStr job);
                                 ("dispatch_token", JStr (f_token e))]);
    mret tt
  else mret tt.

Definition cancel (job reason : string) : handler bool :=
  found ← query (Some (JobLock job)) (fun m => cancel_in m job reason);
  match found with
  | None => mret false
  | Some fenced =>
      _ ← announce job [("state", JStr "cancelled"); ("reason", JStr reason)];
      _ ← (match fenced with Some k => change (close_fenced_worker k) | None => mret tt end);
      entry ← look (entry_of job);
      _ ← (match entry with Some (_, e) => ask_worker_to_stop job e | None => mret tt end);
      mret true
  end.

(** ** Dispatching to a worker of protocol 4 or 5 *)

Definition upload_fields (image thumb : string * dict) : dict :=
  [("upload", JDict [("url", JStr image.1); ("headers", JDict image.2)]);
   ("thumb_upload", JDict [("url", JStr thumb.1); ("headers", JDict thumb.2)])].

(** How the transaction of a dispatch ends: left without a write and with a
    result for the loop, or with the job failed or running. *)
Inductive dispatched : Type := Leave (result : bool) | SourceGone | Sent.

Definition dispatch_held (job : string) (j : job_row) (epoch : Z) : handler dispatched :=
  picked ← call (Now (fun t p => (pick_job_worker t (jb_model j) p, p)));
  match picked with
  | None => mret (Leave false)
  | Some w =>
      let '(key, thumb) := dispatch_keys_for_attempt (jb_user j) job (jr_attempt (jb_run j)) in
      token ← call Token;
      target ← attempt (Target key token);
      thumb_target ← attempt (Target thumb token);
      current ← call (Now (fun t p => register_entry job
        {| f_worker := w; f_key := key; f_thumb := thumb; f_user := jb_user j; f_token := token;
           f_attempt := jr_attempt (jb_run j); f_sequence := None |} t p));
      let message := [("type", JStr "dispatch_job"); ("job_id", JStr job); ("model_id", JStr (jb_model j));
                      ("params", jb_params j); ("dispatch_token", JStr token)]
                     ++ upload_fields target thumb_target in
      source ← (match jb_source j with
                | None => mret (Some [])
                | Some id =>
                    a ← query None (fun _ => read (fun d => d_assets d !! id));
                    match a with
                    | None => mret None
                    | Some a => url ← attempt (FetchUrl (as_key a)); mret (Some [("input", JDict [("url", JStr url)])])
                    end
                end);
      match source with
      | None => _ ← change (unregister job w); mret SourceGone
      | Some input =>
          before ← look p_epoch;
          if negb (before =? epoch) then _ ← change (unregister job w); mret (Leave true) else
          sent ← call (Send w (message ++ input));
          match sent with
          | Err _ =>
              call (Now (fun _ p =>
                let p := forget_worker w p in
                match od_get job (p_inflight p) with
                | None => (Leave true, p)
                | Some _ => (Leave false, unregister job w p)
                end))
          | Ok _ =>
              after ← look p_epoch;
              if negb (after =? epoch) then _ ← change (unregister job w); mret (Leave true) else mret Sent
          end
      end
  end.

Definition dispatch5 (job : string) (epoch : Z) : handler bool :=
  row ← attempt (Hold (JobLock job) (fun _ => job_at job));
  outcome ← catch (match (row : option job_row) with
                   | None => mret (Leave true)
                   | Some j => if decide (jb_state j = queued) then dispatch_held job j epoch else mret (Leave true)
                   end)
              (fun e => _ ← call (Release (JobLock job)); throw e);
  match outcome with
  | Leave b => _ ← call (Release (JobLock job)); mret b
  | SourceGone =>
      _ ← attempt (Settle (JobLock job) (fun m => write (set_job job (fun j => run_job failed (fun r => r) (dispatched_at (e_write_clock m) j)))));
      _ ← announce job (failed_event "source asset not found");
      mret true
  | Sent =>
      _ ← attempt (Settle (JobLock job) (fun m => write (set_job job (dispatched_at (e_write_clock m)))));
      _ ← announce job [("state", JStr "running")];
      mret true
  end.

(** ** Dispatching to a worker of protocol 6 *)

Section Protocol6.
Context `{Driver} `{CryptoOps}.
Variable ring : result exn key_ring.

Definition committing (q : commit_request) (m : moment) : txn db stored_command := fun d =>
match commit_command m ring q (d_store d) with
| (Ok (c, _), s) => Ok (c, with_tables s d)
| (Err e, _) => Err e
end.

Definition claim_committed (job : string) (k : worker_key) (previous : Z) (d : db) : bool :=
bool_decide (map_Exists (fun (js : string * Z) a =>
js.1 = job /\ ja_worker a = k.1 /\ ja_incarnation a = k.2 /\ previous < js.2) (job_attempts (d_store d))).

Definition set_entry_sequence (current : nat) (sequence : option Z) : process -> process :=
on_entries (alter (fun e => {| f_worker := f_worker e; f_key := f_key e; f_thumb := f_thumb e; f_user := f_user e;
                             f_token := f_token e; f_attempt := f_attempt e; f_sequence := sequence |}) current).

(** The job with its source asset; [Some None]: it names none. *)
Definition claimable (job : string) (d : db) : option (job_row * option (option asset)) :=
j ← job_at job d;
Some (j, match jb_source j with None => Some None | Some id => Some <$> d_assets d !! id end).

(** The two answers of [prepare]: [outcome["result"]] and [outcome["publish"]]. *)
Definition prepare_protocol6 (job : string) (w : nat) (k : worker_key) (nonce : string) (epoch : Z)
: handler (bool * bool) :=
first ← look p_epoch;
if negb (first =? epoch) then mret (true, false) else
found ← query None (fun _ => read (claimable job));
match found with
| None => mret (true, false)
| Some (j, source) =>
  if negb (bool_decide (jb_state j = queued)) then mret (true, false) else
  match source with
  | None => mret (false, false)
  | Some source =>
      second ← look p_epoch;
      if negb (second =? epoch) then mret (true, false) else
      let '(key, thumb) := dispatch_keys_for_attempt (jb_user j) job (jr_attempt (jb_run j)) in
      token ← call Token;
      target ← attempt (Target key token);
      thumb_target ← attempt (Target thumb token);
      range ← call Fresh;
      input ← (match source with
               | None => mret []
               | Some a => url ← attempt (FetchUrl (as_key a)); mret [("input", JDict [("url", JStr url)])]
               end);
      let fields := [("job_id", JStr job); ("model_id", JStr (jb_model j)); ("params", jb_params j);
                     ("dispatch_token", JStr token)]
                    ++ upload_fields target thumb_target
                    ++ [("work_budget", JDict [("range_id", JStr range); ("start_gpu_ms", JInt 0);
                                               ("gpu_ms_limit", JNull); ("remaining_wall_ms", JNull)])]
                    ++ input in
      current ← call (Now (fun t p => register_entry job
        {| f_worker := w; f_key := key; f_thumb := thumb; f_user := jb_user j; f_token := token;
           f_attempt := jr_attempt (jb_run j); f_sequence := Some (jb_dispatch j + 1) |} t p));
      id ← call Fresh;
      iv ← call Random;
      committed ← call_result (query (Some (JobLock job)) (committing
        {| q_worker := k.1; q_incarnation := k.2; q_type := "dispatch_job"; q_fields := fields; q_nonce := nonce;
           q_transport := None; q_account := Some (jb_user j); q_context := None;
           q_job_context := Some (jb_source j); q_callback := false; q_id := id; q_iv := iv |}));
      match committed with
      | Ok c => _ ← change (set_entry_sequence current (sc_subject_sequence c)); mret (true, true)
      | Err (CommandRefused msg) =>
          _ ← change (drop_early_entry job current w);
          mret (bool_decide (msg = "job claim is stale"), false)
      | Err _ =>
          claimed ← call_result (query None (fun _ => read (claim_committed job k (jb_dispatch j))));
          match claimed with
          | Err _ | Ok true => mret (true, false)
          | Ok false =>
              _ ← change (fun p => on_lost (fun l => l ++ [job]) (drop_early_entry job current w p));
              mret (true, false)
          end
      end
  end
end.

Definition delivery_identity (w : nat) (p : process) : option (worker_key * string) :=
if p_connected p
then i ← w_incarnation (worker_of w p); n ← w_nonce (worker_of w p); Some ((w_id (worker_of w p), i), n)
else None.

(** The owner of the worker's delivery runs the preparation, or the worker is
  being let go and nothing runs. *)
Definition dispatch_protocol6 (job : string) (w : nat) (epoch : Z) : handler bool :=
named ← look (delivery_identity w);
match named with
| None => mret false
| Some (k, nonce) =>
  admitted ← call Admitted_;
  if (admitted : bool) then
    '(result, shown) ← prepare_protocol6 job w k nonce epoch;
    _ ← (if (shown : bool) then announce job [("state", JStr "running")] else mret tt);
    mret result
  else mret false
end.

Definition current_attempt (job : string) (d : db) : option (job_row * job_attempt) :=
j ← job_at job d;
a ← job_attempts (d_store d) !! (job, jb_dispatch j);
Some (j, a).

(** A command of the journal that is about to be sent again after a restart. *)
Definition track_dispatched_command (w : nat) (job : string) (sequence : Z) (token : string) : handler bool :=
row ← query None (fun _ => read (current_attempt job));
match row with
| None => mret false
| Some (j, a) =>
  call (Now (fun t p =>
    if negb (bool_decide (jb_state j = running)) || negb (jb_dispatch j =? sequence)
       || negb (bool_decide (ja_worker a = w_id (worker_of w p)))
       || negb (bool_decide (Some (ja_incarnation a) = w_incarnation (worker_of w p)))
    then (false, p)
    else match entry_of job p with
         | Some (_, e) => (bool_decide (f_worker e = w) && bool_decide (f_sequence e = Some sequence), p)
         | None =>
             let '(key, thumb) := dispatch_keys_for_attempt (jb_user j) job (jr_attempt (jb_run j)) in
             (true, (register_entry job
               {| f_worker := w; f_key := key; f_thumb := thumb; f_user := jb_user j; f_token := token;
                  f_attempt := jr_attempt (jb_run j); f_sequence := Some sequence |} t p).2)
         end))
end.

(** ** The dispatch loop *)

Definition pick_with_protocol (t : Z) (model : string) (p : process) : option (nat * Z) :=
w ← pick_job_worker t model p;
Some (w, w_protocol (worker_of w p)).

Definition dispatch (job : string) : handler bool :=
epoch ← look p_epoch;
row ← query None (fun _ => read (job_at job));
match row with
| None => mret true
| Some j =>
  picked ← call (Now (fun t p => (pick_with_protocol t (jb_model j) p, p)));
  match picked with
  | None => mret false
  | Some (w, protocol) => if protocol =? 6 then dispatch_protocol6 job w epoch else dispatch5 job epoch
  end
end.

(** One pass over the lost jobs that were there when it began. *)
Fixpoint recover_lost (n : nat) : handler unit :=
match n with
| O => mret tt
| S n =>
  taken ← call (Now (fun _ p => match p_lost p with
                                | [] => (None, p)
                                | j :: l => (Some j, on_lost (fun _ => l) p) end));
  match taken with
  | None => throw (IndexError "pop from empty list")
  | Some job =>
      _ ← catch (requeue_or_fail job "worker disconnected") (fun _ => change (on_lost (fun l => l ++ [job])));
      recover_lost n
  end
end.

Definition stall_reason (stall : Z) : string := "no progress for " +:+ dec_string stall +:+ "s".

(** [Some]: the entry was stalled and is let go, with the worker it was on. *)
Definition pop_stalled (now : Z) (job : string) (p : process) : bool * process :=
match od_get job (p_inflight p) with
| None => (false, p)
| Some h =>
  let popped := on_inflight (od_del job) p in
  if now - default 0 (p_stamps p !! job) <? p_stall p * 1000000
  then (false, on_inflight (od_set job h) popped)
  else (true, match p_entries p !! h with
              | Some e => release_job_slot (f_worker e) (drop_stamps job popped)
              | None => drop_stamps job popped end)
end.

Definition sweep_stalled_jobs : handler unit :=
'(now, stall, ids) ← call (Now (fun t p => ((t, p_stall p, (p_inflight p).*1), p)));
handle_each (fun job =>
stalled ← call (Now (fun _ p => pop_stalled now job p));
if (stalled : bool) then
  catch (requeue_or_fail job (stall_reason stall))
    (fun e => _ ← change (on_lost (fun l => l ++ [job])); throw e)
else mret tt) ids.

(** The jobs left for a later tick go back to the queue however the pass ends. *)
Definition push_back (skipped : list queue_hint) : process -> process :=
on_queue (fun q => foldl (fun q h => heap_push h q) q skipped).

(** At most [n] jobs; the pass of the code has no bound of its own. *)
Fixpoint dispatch_pass (n : nat) (skipped : list queue_hint) : handler unit :=
match n with
| O => change (push_back skipped)
| S n =>
  popped ← call (Now (fun t p =>
    if existsb (fun sh : string * nat => has_room t (worker_of sh.2 p)) (p_workers p)
    then let '(h, q) := heap_pop (p_queue p) in (h, on_queue (fun _ => q) p)
    else (None, p)));
  match popped with
  | None => change (push_back skipped)
  | Some h =>
      done_here ← call_result (dispatch (h_id h));
      match done_here with
      | Ok true => dispatch_pass n skipped
      | Ok false => dispatch_pass n (skipped ++ [h])
      | Err e =>
          tracked ← look (fun p => some (od_get (h_id h) (p_inflight p)));
          if (tracked : bool) then change (push_back skipped)
          else _ ← change (fun p => push_back skipped (on_queue (heap_push h) p)); throw e
      end
  end
end.

Definition dispatch_step_body (n : nat) : handler unit :=
connected ← look p_connected;
if (connected : bool) then
lost ← look (fun p => length (p_lost p));
_ ← recover_lost lost;
_ ← sweep_stalled_jobs;
dispatch_pass n []
else mret tt.

Definition dispatch_step (n : nat) : handler unit :=
open ← call (Now (fun _ p => if p_paused p then (false, p)
                           else (true, set_gate (p_epoch p) (p_active p + 1) (p_paused p) p)));
if (open : bool) then
ending (dispatch_step_body n)
  (forget (change (fun p => set_gate (p_epoch p) (p_active p - 1) (p_paused p) p)))
else mret tt.

End Protocol6.

(** ** What a worker reports *)

(** [peer_uuid] *)
Definition peer_uuid (v : json) : result exn string :=
  match v with JStr t => parse_uuid t | _ => Err (ProtocolError "id must be a string") end.

(** [storable_text] of manifests.py: no NUL and no surrogate. *)
Definition storable_text (s : string) : bool :=
  all_chars (fun c => negb (byte_val c =? 0)) s && negb (has_surrogate s).

Section Reports.
(** [str()] of a value that is not a text. *)
Variable py_str : json -> string.
Variable public_url : string.

Definition reported_reason (control : dict) : string :=
let reason := match lookup_key "reason" control with
            | None => "worker reported failure" | Some (JStr t) => t | Some v => py_str v end in
if storable_text reason then reason else "worker reported failure".

Definition phase (control : dict) (field : string) : option Z :=
match get control field with JNull => None | v => Some (worker_int v) end.
Definition phases_of (control : dict) : phases :=
{| ph_input_fetch := phase control "input_fetch_ms"; ph_load := phase control "load_ms";
 ph_postprocess := phase control "postprocess_ms" |}.

(** Whether the worker may speak for the attempt in flight. *)
Definition speaks_for (w : nat) (control : dict) (e : in_flight) (p : process) : bool :=
bool_decide (f_worker e = w)
&& match get control "dispatch_token" with
 | JNull => w_protocol (worker_of w p) <? 3
 | JStr t => isascii t && bool_decide (t = f_token e)
 | _ => false
 end.

(** A progress that is no finite number leaves no trace. *)
Definition note_progress (job : string) (control : dict) (t : Z) (p : process) : process :=
let progress := worker_float (get control "progress") S754_nan in
if isfinite progress
then publish job [("state", JStr "running"); ("progress", JFloat progress)]
     (on_stamps (<[job := t]>) (on_progress (<[job := progress]>) p))
else p.

Definition fail_entry (job : string) (w current : nat) (e : in_flight) (what : string) : handler unit :=
_ ← change (clear_if_current w job current);
schedule_blob_cleanup (purge_keys (attempt_keys (f_user e) job (f_attempt e))
                       ("attempt cleanup for job " +:+ job +:+ what)).

(** [mark_failed] of a verdict and what follows from its answer; when it
  raises, the entry stays tracked. *)
Definition fail_attempt (job reason : string) (w current : nat) (e : in_flight) (what : string) : handler unit :=
committed ← call_result (mark_failed job reason (Some (f_attempt e)));
match committed with
| Err _ => mret tt
| Ok false => change (clear_if_current w job current)
| Ok true => fail_entry job w current e what
end.

Definition still_current (job : string) (current : nat) : handler bool :=
look (fun p => bool_decide (od_get job (p_inflight p) = Some current)).

(** The library copies made of the uploads. *)
Definition promote_output (e : in_flight) (library : string * string) (thumb : bool) : handler (list string) :=
first ← (if decide (f_key e = library.1) then mret []
       else _ ← attempt (Promote (f_key e) library.1); mret [library.1]);
second ← (if thumb && negb (bool_decide (f_thumb e = library.2))
        then _ ← attempt (Promote (f_thumb e) library.2); mret [library.2] else mret []);
mret (first ++ second).

Definition superseded_copies (job : string) : string := "superseded library copies for job " +:+ job.
Definition uncommitted_copies (job : string) : string := "uncommitted library copies for job " +:+ job.

Definition commit_output (job : string) (w current : nat) (e : in_flight) (control : dict)
(full : image) (thumb : option image) (promoted : list string) : handler unit :=
let gpu := worker_int (get control "gpu_ms") in
found ← call_result (inserting (Some (JobLock job)) (fun m ids =>
succeed_in m (f_user e) job (f_attempt e) gpu (phases_of control) ids.1 ids.2 full thumb));
match found with
| Err _ => mret tt
| Ok (Superseded discard cancelled_here _) =>
  _ ← (if negb (bool_decide (promoted = [])) && discard
       then schedule_blob_cleanup (purge_keys promoted (uncommitted_copies job)) else mret tt);
  if (cancelled_here : bool) then change (clear_if_current w job current) else mret tt
| Ok (Committed shown) =>
  _ ← change (clear_if_current w job current);
  _ ← schedule_blob_cleanup (purge_keys (success_orphan_keys (f_user e) job (f_attempt e))
                               ("dispatch orphans for job " +:+ job));
  announce job [("state", JStr "succeeded"); ("url", JStr (asset_url public_url shown))]
end.

Definition job_done (job : string) (w current : nat) (e : in_flight) (control : dict) : handler unit :=
connected ← look p_connected;
if negb connected then mret tt else
inspected ← call (Inspect (f_key e));
match inspected with
| Err _ => mret tt
| Ok found =>
  mine ← still_current job current;
  if negb mine then mret tt else
  match found with
  | None => fail_attempt job "worker output was missing or invalid" w current e ""
  | Some full =>
      if negb (usable_image full) then fail_attempt job "worker output was missing or invalid" w current e "" else
      thumb ← (match get control "has_thumbnail" with
               | JBool true =>
                   seen ← call (Inspect (f_thumb e));
                   mine ← still_current job current;
                   if negb mine then mret None
                   else mret (Some (match seen with
                                    | Ok (Some t) => if usable_thumb t then Some t else None
                                    | _ => None end))
               | _ => mret (Some None)
               end);
      match (thumb : option (option image)) with
      | None => mret tt
      | Some thumb =>
          connected ← look p_connected;
          if negb connected then mret tt else
          copies ← call_result (promote_output e (storage_keys_for_attempt (f_user e) job (f_attempt e)) (some thumb));
          match copies with
          | Err _ => fail_attempt job "could not commit output to the library" w current e ""
          | Ok promoted =>
              mine ← still_current job current;
              if negb mine
              then schedule_blob_cleanup (purge_keys promoted (superseded_copies job))
              else commit_output job w current e control full thumb promoted
          end
      end
  end
end.

Definition job_failed (job : string) (w current : nat) (e : in_flight) (control : dict) : handler unit :=
connected ← look p_connected;
if negb connected then mret tt else
committed ← call_result (mark_failed job (reported_reason control) (Some (f_attempt e)));
match committed with
| Ok true => fail_entry job w current e ""
| _ => mret tt
end.

Definition job_cancelled (job : string) (w current : nat) (e : in_flight) (control : dict) : handler unit :=
let gpu := worker_int (get control "gpu_ms") in
_ ← (if gpu =? 0 then mret tt
   else _ ← query (Some (JobLock job)) (fun _ => charge_in job gpu (f_attempt e)); mret tt);
change (clear_if_current w job current).

Definition is_report (kind : string) (control : dict) : bool :=
match get control "type" with JStr t => bool_decide (t = kind) | _ => false end.

Definition on_worker_message (w : nat) (control : dict) : handler unit :=
match (id ← item control "job_id"; peer_uuid id) : result exn string with
| Err e => throw e
| Ok job =>
  entry ← look (fun p => match entry_of job p with
                         | Some (h, e) => if speaks_for w control e p then Some (h, e) else None
                         | None => None end);
  match entry with
  | None => mret tt
  | Some (current, e) =>
      if negb (has_key "type" control) then throw (KeyError "type")
      else if is_report "job_cancelled" control then job_cancelled job w current e control
      else if is_report "job_progress" control then call (Now (fun t p => (tt, note_progress job control t p)))
      else if is_report "job_done" control then job_done job w current e control
      else job_failed job w current e control
  end
end.

End Reports.

(** ** Recovery after a restart *)

Section Recovery.
Variable public_url : string.

Definition fail_receipted (job : string) (n : snapshot) (state reason : string) : handler bool :=
failed_here ← query (Some (JobLock job)) (fun m => fail_receipted_in m job n state reason);
if (failed_here : bool) then
  _ ← announce job (failed_event reason);
  _ ← purge_attempt_blobs (sn_user n) job (sn_attempt n);
  mret true
else mret false.

Definition finish_receipted (job : string) (n : snapshot) : handler unit :=
let dispatch_keys := dispatch_keys_for_attempt (sn_user n) job (sn_attempt n) in
let library := storage_keys_for_attempt (sn_user n) job (sn_attempt n) in
found ← attempt (Inspect dispatch_keys.1);
match found with
| None => _ ← fail_receipted job n "completed" "worker output was missing or invalid"; mret tt
| Some full =>
    if negb (usable_image full)
    then _ ← fail_receipted job n "completed" "worker output was missing or invalid"; mret tt else
    thumb ← (if truthy (oc_thumbnail (sn_outcome n)) then
               t ← attempt (Inspect dispatch_keys.2);
               mret (match t with Some t => if usable_thumb t then Some t else None | None => None end)
             else mret None);
    copies ← call_result
      (_ ← attempt (Promote dispatch_keys.1 library.1);
       match (thumb : option image) with
       | None => mret [library.1]
       | Some _ => _ ← attempt (Promote dispatch_keys.2 library.2); mret [library.1; library.2]
       end);
    match copies with
    | Err _ => _ ← fail_receipted job n "completed" "could not commit output to the library"; mret tt
    | Ok promoted =>
        shown ← inserting (Some (JobLock job)) (fun m ids => finish_receipted_in m job n ids.1 ids.2 full thumb);
        match shown with
        | None => schedule_blob_cleanup (purge_keys promoted (uncommitted_copies job))
        | Some asset =>
            _ ← announce job [("state", JStr "succeeded"); ("url", JStr (asset_url public_url asset))];
            schedule_blob_cleanup (purge_keys (success_orphan_keys (sn_user n) job (sn_attempt n))
                                     ("dispatch orphans for job " +:+ job))
        end
    end
end.

(** [true]: there was a receipted end and it was followed. *)
Definition recover_receipted_attempt (job : string) : handler bool :=
connected ← look p_connected;
if negb connected then mret false else
snapshot ← query None (fun _ => read (receipted_end job));
match snapshot with
| None => mret false
| Some n =>
    _ ← (if sn_failed n then _ ← fail_receipted job n "failed" (failure_text (sn_outcome n)); mret tt
         else finish_receipted job n);
    mret true
end.

Definition recover_or_requeue (job : string) : handler unit :=
followed ← call_result (bounded (recover_receipted_attempt job));
match followed with
| Ok true => mret tt
| _ => requeue_or_fail job "restart while running"
end.

Definition by_age (l : list (string * job_row)) : list (string * job_row) :=
foldr (fix insert x l := match l with
         | [] => [x]
         | y :: l => if jr_created (jb_run x.2) <=? jr_created (jb_run y.2) then x :: y :: l else y :: insert x l
         end) [] l.
Definition unfinished (d : db) : list (string * job_row) :=
by_age (filter (fun ij : string * job_row => terminal (jb_state ij.2) = false) (map_to_list (job_rows (d_store d)))).

Definition recover : handler unit :=
pending ← query None (fun _ => read unfinished);
handle_each (fun ij : string * job_row =>
  if decide (jb_state ij.2 = running) then recover_or_requeue ij.1
  else push_hint ij.1 (jr_created (jb_run ij.2))) pending.

End Recovery.

(** The end of [create_generation]: the row, then its place in the queue. *)
Definition new_run (created : Z) : job_run :=
  {| jr_attempt := 1; jr_created := created; jr_gpu := None; jr_input_fetch := None; jr_load := None;
     jr_postprocess := None; jr_reason := None; jr_finished := None |}.
Definition insert_job (id user model : string) (params : json) (source : option string) (m : moment) : txn db Z :=
  fun d => if some (job_at id d) then Err (IntegrityError "jobs_pkey")
           else Ok (e_started m, with_tables (on_job_rows (<[id :=
             {| jb_user := user; jb_model := model; jb_params := params; jb_state := queued; jb_dispatch := 0;
                jb_source := source; jb_dispatched := None; jb_run := new_run (e_started m) |}]>) (d_store d)) d).
Definition submit_job (user model : string) (params : json) (source : option string) : handler string :=
  '(id, created) ← inserting None (fun m ids => created ← insert_job ids.1 user model params source m; mret (ids.1, created));
  _ ← push_hint id created;
  mret id.
