(* ===== verification/JobSystem.v ===== *)
(** * The job scheduler as it runs

    The handlers of Jobs.v as tasks of one process, over the tables, the object
    store and the workers.  [exec] gives an awaited operation its outcomes:
    what the database, the object store or a socket cannot promise comes out
    either way, and a transaction whose commit was not acknowledged may have
    taken effect.  [outside] is what the workers, the browsers and the rest of
    the API do; [starts] lists the tasks that begin, one dispatch loop at a
    time.

    Three fields of [studio] are no state of the code; they tell runs apart:
    the ids drawn so far, the keys a purge of superseded library copies or of a
    deleted account was asked to remove, and the rows inserted by a transaction
    that answered with an error. *)

From S2P Require Import Prelude PyFloat Hashes Json Protocol6 Uuid PyInt KeyRing Transactions AccountStore CommandTables CommandSubjects CommandStore ODict Tasks JobTables Jobs.
Open Scope Z_scope.

(** The canonical text of a UUID. *)
Definition is_uuid (s : string) : Prop := parse_uuid s = Ok s.

(** [None]: an object that is no image. *)
Record studio := {
  st_db : db; st_proc : process; st_blobs : gmap string (option image);
  st_issued : gset string; st_forfeited : gset string; st_doubtful : gset string
}.
Definition with_db (d : db) (s : studio) : studio :=
  {| st_db := d; st_proc := st_proc s; st_blobs := st_blobs s; st_issued := st_issued s;
     st_forfeited := st_forfeited s; st_doubtful := st_doubtful s |}.
Definition with_proc (p : process) (s : studio) : studio :=
  {| st_db := st_db s; st_proc := p; st_blobs := st_blobs s; st_issued := st_issued s;
     st_forfeited := st_forfeited s; st_doubtful := st_doubtful s |}.
Definition with_blobs (f : gmap string (option image) -> gmap string (option image)) (s : studio) : studio :=
  {| st_db := st_db s; st_proc := st_proc s; st_blobs := f (st_blobs s); st_issued := st_issued s;
     st_forfeited := st_forfeited s; st_doubtful := st_doubtful s |}.
Definition issue (ids : gset string) (s : studio) : studio :=
  {| st_db := st_db s; st_proc := st_proc s; st_blobs := st_blobs s; st_issued := ids ∪ st_issued s;
     st_forfeited := st_forfeited s; st_doubtful := st_doubtful s |}.
Definition forfeit (keys : gset string) (s : studio) : studio :=
  {| st_db := st_db s; st_proc := st_proc s; st_blobs := st_blobs s; st_issued := st_issued s;
     st_forfeited := keys ∪ st_forfeited s; st_doubtful := st_doubtful s |}.
(** The rows of [d] the database did not have. *)
Definition doubt (d : db) (s : studio) : studio :=
  {| st_db := st_db s; st_proc := st_proc s; st_blobs := st_blobs s; st_issued := st_issued s;
     st_forfeited := st_forfeited s;
     st_doubtful := dom (job_rows (d_store d)) ∖ dom (job_rows (d_store (st_db s))) ∪ st_doubtful s |}.

Definition jobs_row (id : string) (s : studio) : option job_row := job_at id (st_db s).
Definition held (id : string) (s : studio) : Prop := JobLock id ∈ d_held (st_db s).

Definition lock_free (need : option row_lock) (d : db) : Prop :=
  match need with Some l => l ∉ d_held d | None => True end.
Definition unlock (l : row_lock) : db -> db := on_held (filter (fun l' => (l' ≠ l))).
(** The connection failed, or the gate of the account was not given. *)
Definition lost_connection {X} (r : result exn X) : Prop := exists msg, r = Err (RuntimeError msg).

Definition runs_query {X} (need : option row_lock) (t : moment -> string * string -> txn db X)
    (s : studio) (r : result exn X) (s' : studio) : Prop :=
  exists m a b, ~ (a = b) /\ ~ (a ∈ st_issued s) /\ ~ (b ∈ st_issued s) /\ is_uuid a /\ is_uuid b
  /\ lock_free need (st_db s)
  /\ (let s1 := issue {[a; b]} s in
     match t m (a, b) (st_db s) with
     | Ok (x, d) => (r = Ok x /\ s' = with_db d s1)
                    \/ (lost_connection r /\ (s' = s1 \/ s' = with_db d (doubt d s1)))
     | Err e => r = Err e /\ s' = s1
     end).

Definition runs_settle (l : row_lock) (t : moment -> txn db unit) (s : studio) (r : result exn unit) (s' : studio)
    : Prop :=
  exists m, match t m (st_db s) with
            | Ok (_, d) => (r = Ok tt /\ s' = with_db (unlock l d) s)
                           \/ (lost_connection r
                               /\ (s' = with_db (unlock l (st_db s)) s \/ s' = with_db (unlock l d) s))
            | Err e => r = Err e /\ s' = with_db (unlock l (st_db s)) s
            end.

Definition names_superseded (why : string) : bool := String.prefix "superseded library copies for job " why.
Definition asked_to_remove (why key : string) (s : studio) : studio :=
  if names_superseded why then forfeit {[key]} s else s.

Definition exec (b : bool) (X : Type) (o : op X) : studio -> X -> studio -> Prop :=
  match o in op X return studio -> X -> studio -> Prop with
  | Now f => fun s x s' => exists t p, f t (st_proc s) = (x, p) /\ s' = with_proc p s
  | Query need t => runs_query need t
  | Hold l f => fun s r s' => ~ (l ∈ d_held (st_db s))
      /\ ((exists m, r = Ok (f m (st_db s)) /\ s' = with_db (on_held (cons l) (st_db s)) s)
          \/ lost_connection r /\ s' = s)
  | Settle l t => runs_settle l t
  | Release l => fun s _ s' => s' = with_db (unlock l (st_db s)) s
  | Inspect key => fun s r s' => s' = s /\ (r = Ok (mjoin (st_blobs s !! key)) \/ lost_connection r)
  | Promote src dst => fun s r s' =>
      match st_blobs s !! src with
      | Some i => (r = Ok tt /\ s' = with_blobs <[dst := i]> s)
                  \/ lost_connection r /\ (s' = s \/ s' = with_blobs <[dst := i]> s)
      | None => lost_connection r /\ s' = s
      end
  | Remove why key => fun s r s' => let s1 := asked_to_remove why key s in
      (r = Ok tt /\ s' = with_blobs (delete key) s1)
      \/ (exists e, r = Err e) /\ (s' = s1 \/ s' = with_blobs (delete key) s1)
  | Target _ _ => fun s _ s' => s' = s
  | FetchUrl _ => fun s _ s' => s' = s
  | Send _ _ => fun s _ s' => s' = s
  | Fresh => fun s x s' => ~ (x ∈ st_issued s) /\ is_uuid x /\ s' = issue {[x]} s
  | Token => fun s _ s' => s' = s
  | Random => fun s _ s' => s' = s
  | Admitted_ => fun s _ s' => s' = s
  | Deadline => fun s _ s' => s' = s
  end.

(** ** The rest of the world *)

(** A key of a job's output, in the library or waiting for it. *)
Definition generated_key (key : string) : Prop :=
  exists user job attempt, is_uuid user /\ is_uuid job /\ (attempt = 1 \/ attempt = 2)
  /\ key ∈ pair_list (storage_keys_for_attempt user job attempt)
           ++ pair_list (dispatch_keys_for_attempt user job attempt).

(** The registries of the connections change; the tables of the jobs in flight
    are the scheduler's. *)
Definition connections_change (p p' : process) : Prop :=
  p_entries p' = p_entries p /\ p_inflight p' = p_inflight p /\ p_lost p' = p_lost p /\ p_queue p' = p_queue p
  /\ p_epoch p <= p_epoch p'.

(** Rows other code writes: all but the jobs, their assets and their locks. *)
Definition others_write (d d' : db) : Prop :=
  job_rows (d_store d') = job_rows (d_store d) /\ d_assets d' = d_assets d /\ d_pending d' = d_pending d
  /\ d_held d' = d_held d.

(** The purge of a deleted account removes its objects first; what it could not
    remove is recorded. *)
Definition purges (keys gone : gset string) (owed : gmap string pending_delete) (s s' : studio) : Prop :=
  gone ⊆ keys /\ dom owed ⊆ keys
  /\ s' = forfeit keys (with_blobs (filter (fun ki => ki.1 ∉ gone))
            (with_db (on_pending (fun rows => owed ∪ rows) (st_db s)) s)).
(** Then its rows go: jobs no transaction holds, with all they made. *)
Definition erases (ids : gset string) (d d' : db) : Prop :=
  (forall id, id ∈ ids -> JobLock id ∉ d_held d)
  /\ (forall id, job_at id d' = if decide (id ∈ ids) then None else job_at id d)
  /\ (forall aid a, d_assets d' !! aid = Some a <->
                    d_assets d !! aid = Some a /\ (forall id, as_job a = Some id -> id ∉ ids))
  /\ d_pending d' = d_pending d /\ d_held d' = d_held d.

Inductive outside : studio -> studio -> Prop :=
| out_upload s key token i :
    upload_authorized key (JStr token) (st_proc s) = true -> outside s (with_blobs <[key := i]> s)
| out_connections s p : connections_change (st_proc s) p -> outside s (with_proc p s)
| out_tables s d : others_write (st_db s) d -> outside s (with_db d s)
| out_purge s s' keys gone owed : purges keys gone owed s s' -> outside s s'
| out_erase s ids d : erases ids (st_db s) d -> outside s (with_db d s)
| out_library s id a : as_job a = None -> id ∉ st_issued s -> is_uuid id ->
    outside s (issue {[id]} (with_db (on_assets <[id := a]> (st_db s)) s))
| out_object s key i : ~ generated_key key -> outside s (with_blobs (partial_alter (fun _ => i) key) s).

Section Tasks.
Context `{Driver} `{CryptoOps}.
Variable ring : result exn key_ring.
Variable py_str : json -> string.
Variable public_url : string.

(** Startup finishes the jobs a former process left and serves nobody yet. *)
Inductive starts (serving : bool) : bool -> studio -> prog op unit -> Prop :=
| start_dispatch s n : serving = true -> starts serving true s (forget (dispatch_step ring n))
| start_recovery s : serving = false -> starts serving true s (forget (recover public_url))
| start_report s w control : serving = true -> starts serving false s (forget (on_worker_message py_str public_url w control))
| start_disconnect s w : serving = true -> starts serving false s (forget (change (fun p => on_worker_lost w (forget_worker w p))))
| start_tracking s w job sequence token : serving = true -> starts serving false s (forget (track_dispatched_command w job sequence token))
| start_cancel s job reason : serving = true -> starts serving false s (forget (cancel job reason))
| start_submit s user model params source :
    serving = true -> is_uuid user -> starts serving false s (forget (submit_job user model params source))
| start_deletes s : serving = true -> starts serving false s (forget retry_pending_deletes).

Definition system_step (serving : bool) : studio * pool -> studio * pool -> Prop := pool_step exec (starts serving) outside.
Definition system_run (serving : bool) : studio * pool -> studio * pool -> Prop := pool_run exec (starts serving) outside.

End Tasks.

(** Nothing is running. *)
Definition at_rest (s : studio) : Prop :=
  d_held (st_db s) = [] /\ p_inflight (st_proc s) = [] /\ p_lost (st_proc s) = [] /\ p_queue (st_proc s) = [].
