(* ===== verification/JobFacts.v ===== *)
(** * What the transactions of the job scheduler do

    Each transaction of JobTables.v and each command commit, from its success:
    which row it touched and how the row moved. *)

From S2P Require Import Prelude PyFloat Hashes Json Protocol6 Uuid PyInt KeyRing Transactions AccountStore CommandTables CommandSubjects CommandStore CommandFacts ODict Tasks JobTables Jobs JobSystem.
Open Scope Z_scope.

(** ** Frames *)

Definition same_jobs_table (s s' : store) : Prop := job_rows s' = job_rows s.
Global Instance same_jobs_table_preorder : PreOrder same_jobs_table.
Proof. split; [by intros s|]. unfold same_jobs_table. intros a b c H1 H2. congruence. Qed.

(** The tables of the scheduler are as they were. *)
Definition aside (d d' : db) : Prop :=
  job_rows (d_store d') = job_rows (d_store d) /\ d_assets d' = d_assets d /\ d_pending d' = d_pending d
  /\ d_held d' = d_held d.
Global Instance aside_preorder : PreOrder aside.
Proof.
  split; [by intros d|]. intros a b c (H1 & H2 & H3 & H4) (G1 & G2 & G3 & G4).
  repeat split; congruence.
Qed.

Lemma keeps_refuse_when_jobs b msg : keeps same_jobs_table (refuse_when b msg).
Proof. intros s a s' H. by apply refuse_when_ok in H as [_ ->]. Qed.
Lemma update_connection_jobs k f : keeps same_jobs_table (update_connection k f).
Proof. intros s u s' H. unfold update_connection in H. repeat case_match; by simplify_eq. Qed.
Lemma insert_command_jobs k n r : keeps same_jobs_table (insert_command k n r).
Proof. intros s u s' H. unfold insert_command in H. repeat case_match; by simplify_eq. Qed.

Ltac jobs_frame_step :=
  match goal with
  | |- keeps _ (refuse_when _ _) => apply keeps_refuse_when_jobs
  | |- keeps _ (update_connection _ _) => apply update_connection_jobs
  | |- keeps _ (insert_command _ _ _) => apply insert_command_jobs
  | |- keeps _ (refused _) => by intros ? ? ? ?
  | |- same_jobs_table _ (match ?x with _ => _ end) => destruct x
  | |- same_jobs_table _ _ => reflexivity
  | _ => keep_step
  end.
Ltac frame_jobs := repeat (cbv zeta; intros; jobs_frame_step).

Section Frames.
Context `{Driver}.
Variable m : moment.

Lemma erase_subject_jobs account kind subject sequence :
  keeps same_jobs_table (erase_subject_commands m account kind subject sequence).
Proof.
  unfold erase_subject_commands, subject_erasure_selection, erase_pending_rows. frame_jobs.
Qed.

Lemma raise_floor_jobs k old floor : keeps same_jobs_table (raise_floor k old floor).
Proof. unfold raise_floor. frame_jobs. Qed.
End Frames.

Lemma tables_aside {A} (t : txn store A) : keeps same_jobs_table t -> keeps aside (tables t).
Proof.
  intros Ht d a d' H. unfold tables in H. destruct (t (d_store d)) as [[x s]|] eqn:E; [|done].
  injection H as <- <-. by split; [apply (Ht _ _ _ E)|].
Qed.

(** ** Rows *)

(** How the row of a job may move: its attempt never falls, a verdict is final,
    and only a new attempt takes a running job back to the queue. *)
Record row_le (r r' : job_row) : Prop := {
  rl_user : jb_user r' = jb_user r;
  rl_model : jb_model r' = jb_model r;
  rl_params : jb_params r' = jb_params r;
  rl_created : jr_created (jb_run r') = jr_created (jb_run r);
  rl_attempt : jr_attempt (jb_run r) <= jr_attempt (jb_run r');
  rl_final : terminal (jb_state r) = true ->
    jb_state r' = jb_state r /\ jr_attempt (jb_run r') = jr_attempt (jb_run r)
    /\ jr_reason (jb_run r') = jr_reason (jb_run r) /\ jr_finished (jb_run r') = jr_finished (jb_run r);
  rl_running : jb_state r = running -> jr_attempt (jb_run r') = jr_attempt (jb_run r) -> jb_state r' ≠ queued
}.

Lemma terminal_spec st : terminal st = true <-> st = succeeded \/ st = failed \/ st = cancelled.
Proof. destruct st; vm_compute; naive_solver. Qed.
Lemma terminal_false st : terminal st = false <-> st = queued \/ st = running.
Proof. destruct st; vm_compute; naive_solver. Qed.

Global Instance row_le_preorder : PreOrder row_le.
Proof.
  split.
  - intros r. split; try done; try lia. by intros -> _.
  - intros a b c [U M P C A F R] [U' M' P' C' A' F' R']. split; try congruence; try lia.
    + intros Ha. destruct (F Ha) as (E1 & E2 & E3 & E4). rewrite <- E1 in Ha.
      destruct (F' Ha) as (G1 & G2 & G3 & G4). repeat split; congruence.
    + intros Ha Hat Hc. assert (E : jr_attempt (jb_run b) = jr_attempt (jb_run a)) by lia.
      specialize (R Ha E). destruct (jb_state b) eqn:Eb; try done; try (by apply R'; [done|lia|]);
        (destruct F' as (G1 & _); [done|congruence]).
Qed.

Lemma job_at_set_job id f id' d :
  job_at id' (set_job id f d) = if decide (id' = id) then f <$> job_at id d else job_at id' d.
Proof.
  unfold job_at, set_job, with_tables. cbn. destruct (decide (id' = id)) as [->|Hne].
  - by rewrite lookup_alter_eq.
  - by rewrite lookup_alter_ne.
Qed.
Lemma job_at_aside id d d' : aside d d' -> job_at id d' = job_at id d.
Proof. unfold job_at. by intros (-> & _). Qed.

(** The row of [id] moved from [j] by [f], and nothing else of the scheduler's
    tables changed. *)
Record moves (id : string) (f : job_row -> job_row) (j : job_row) (d d' : db) : Prop := {
  mv_row : job_at id d = Some j;
  mv_rows : forall id', job_at id' d' = if decide (id' = id) then Some (f j) else job_at id' d;
  mv_assets : d_assets d' = d_assets d;
  mv_pending : d_pending d' = d_pending d;
  mv_held : d_held d' = d_held d
}.

Lemma moves_set_job id f j d d1 : job_at id d = Some j -> aside d d1 -> moves id f j d (set_job id f d1).
Proof.
  intros Hj Hd. pose proof (job_at_aside id _ _ Hd) as Hid. destruct Hd as (R & A & P & L).
  split; try done; cbn; try congruence.
  intros id'. rewrite job_at_set_job. destruct (decide (id' = id)); [by rewrite Hid, Hj|].
  unfold job_at. by rewrite R.
Qed.

Section Transactions.
Context `{Driver}.
Variable m : moment.

Lemma erase_dispatched_aside user id j : keeps aside (erase_dispatched m user id j).
Proof.
  unfold erase_dispatched. case_match; [|apply keeps_ret, _].
  apply keeps_bind; [apply _|apply tables_aside, erase_subject_jobs|intros _; apply keeps_ret, _].
Qed.

Lemma mark_failed_ok id reason expected d b d' :
  mark_failed_in m id reason expected d = Ok (b, d') ->
  if b then exists j, terminal (jb_state j) = false /\ (forall e, expected = Some e -> jr_attempt (jb_run j) <= e)
                      /\ moves id (run_job failed (finish_run reason (Some (e_write_clock m)))) j d d'
  else d' = d /\ forall j, job_at id d = Some j ->
       terminal (jb_state j) = true \/ exists e, expected = Some e /\ e < jr_attempt (jb_run j).
Proof.
  unfold mark_failed_in. intros Hrun. cmd_inv. destruct (job_at id d) as [j|] eqn:Ej.
  2: { cmd_inv. split; [done|]. intros ? [=]. }
  destruct (terminal (jb_state j)) eqn:Et.
  { cmd_inv. split; [done|]. intros ? [= <-]. by left. }
  destruct (match expected with Some e => _ | None => false end) eqn:Ee.
  { cmd_inv. split; [done|]. intros ? [= <-]. right. destruct expected as [e|]; [|done]. exists e. split; [done|lia]. }
  cmd_inv. match goal with He : erase_dispatched _ _ _ _ _ = _ |- _ => apply erase_dispatched_aside in He end.
  exists j. split; [done|]. split; [|by apply moves_set_job].
  intros e ->. lia.
Qed.

Lemma cancel_ok id reason d r d' :
  cancel_in m id reason d = Ok (r, d') ->
  match r with
  | None => d' = d
  | Some _ => exists j, terminal (jb_state j) = false
                        /\ moves id (run_job cancelled (finish_run reason (Some (e_write_clock m)))) j d d'
  end.
Proof.
  unfold cancel_in. intros Hrun. cmd_inv. destruct (job_at id d) as [j|] eqn:Ej; [|by cmd_inv].
  destruct (terminal (jb_state j)) eqn:Et; [by cmd_inv|]. cmd_inv.
  match goal with He : erase_dispatched _ _ _ _ _ = _ |- _ => apply erase_dispatched_aside in He end.
  exists j. split; [done|]. by apply moves_set_job.
Qed.
End Transactions.

Lemma requeue_ok id d r d' :
  requeue_in id d = Ok (r, d') ->
  match r with
  | Settled => d' = d /\ forall j, job_at id d = Some j -> terminal (jb_state j) = true
  | StillQueued created => d' = d /\ exists j, job_at id d = Some j /\ jb_state j = queued
                                               /\ created = jr_created (jb_run j)
  | Requeued created => exists j, jb_state j = running /\ jr_attempt (jb_run j) = 1
                                  /\ created = jr_created (jb_run j)
                                  /\ moves id (run_job queued second_attempt) j d d'
  | Exhausted user attempt => d' = d /\ exists j, job_at id d = Some j /\ jb_state j = running
                              /\ jb_user j = user /\ jr_attempt (jb_run j) = attempt /\ attempt ≠ 1
  end.
Proof.
  unfold requeue_in. intros Hrun. cmd_inv. destruct (job_at id d) as [j|] eqn:Ej; [|cmd_inv; by split].
  destruct (terminal (jb_state j)) eqn:Et; [cmd_inv; split; [done|]; by intros ? [= <-]|].
  apply terminal_false in Et. case_decide as Eq; [cmd_inv; eauto|]. destruct Et as [Et|Et]; [done|].
  destruct (jr_attempt (jb_run j) =? 1) eqn:Ea.
  - cmd_inv. exists j. split_and!; [done|lia|done|by apply moves_set_job].
  - cmd_inv. split; [done|]. exists j. split_and!; try done. lia.
Qed.

Lemma charge_ok id gpu attempt d b d' :
  charge_in id gpu attempt d = Ok (b, d') ->
  (d' = d \/ exists j, jb_state j = cancelled /\ moves id (run_job cancelled (charge_run gpu)) j d d').
Proof.
  unfold charge_in. intros Hrun. cmd_inv. destruct (job_at id d) as [j|] eqn:Ej; [|cmd_inv; by left].
  destruct (bool_decide _ && _) eqn:E; cmd_inv; [|by left].
  apply andb_true_iff in E as [Ec%bool_decide_eq_true _]. right. exists j. split; [done|by apply moves_set_job].
Qed.

(** ** Outputs *)

(** The assets of a job as the transaction added them. *)
Definition output_rows (user id : string) (source : option string) (keys : string * string)
    (full_id thumb_id : string) (full : image) (thumb : option image) (rows : gmap string asset) : gmap string asset :=
  let rows := <[full_id := full_asset user id source keys.1 full]> rows in
  match thumb with Some t => <[thumb_id := thumb_asset user id full_id keys.2 t]> rows | None => rows end.

Record adds_output (user id : string) (source : option string) (keys : string * string) (full_id thumb_id : string)
    (full : image) (thumb : option image) (d d' : db) : Prop := {
  ao_full : d_assets d !! full_id = None;
  ao_thumb : is_Some thumb -> d_assets d !! thumb_id = None /\ thumb_id ≠ full_id;
  ao_assets : d_assets d' = output_rows user id source keys full_id thumb_id full thumb (d_assets d);
  ao_rows : forall id', job_at id' d' = job_at id' d;
  ao_pending : d_pending d' = d_pending d;
  ao_held : d_held d' = d_held d
}.

Lemma insert_asset_ok id a d u d' :
  insert_asset id a d = Ok (u, d') ->
  d_assets d !! id = None /\ d_assets d' = <[id := a]> (d_assets d)
  /\ (forall id', job_at id' d' = job_at id' d) /\ d_pending d' = d_pending d /\ d_held d' = d_held d.
Proof.
  unfold insert_asset. destruct (d_assets d !! id) eqn:E; [done|]. cbn [some].
  intros Hr. injection Hr as _ <-. by repeat split.
Qed.

Lemma insert_output_ok user id source keys full_id thumb_id full thumb d u d' :
  insert_output user id source keys full_id thumb_id full thumb d = Ok (u, d') ->
  adds_output user id source keys full_id thumb_id full thumb d d'.
Proof.
  unfold insert_output. intros Hrun. cmd_inv.
  match goal with Hi : insert_asset _ _ _ = _ |- _ => apply insert_asset_ok in Hi as (N1 & A1 & R1 & P1 & L1) end.
  destruct thumb as [t|].
  - apply insert_asset_ok in Hrun as (N2 & A2 & R2 & P2 & L2). rewrite A1 in N2.
    apply lookup_insert_None in N2 as [N2 Hne].
    split; [done| |cbn; by rewrite A2, A1|intros id'; by rewrite R2, R1|congruence..].
    intros _. split; [exact N2|]. intros ->. congruence.
  - cmd_inv. split; try done.
Qed.

Section Outputs.
Context `{Driver}.
Variable m : moment.

(** The job succeeded with the output, or the attempt had been overtaken. *)
Definition succeeds (user id : string) (attempt gpu : Z) (ph : phases) (full_id thumb_id : string)
    (full : image) (thumb : option image) (d d' : db) : Prop :=
  exists j d1, terminal (jb_state j) = false /\ jr_attempt (jb_run j) <= attempt
  /\ moves id (run_job succeeded (succeed_run gpu ph (e_write_clock m))) j d d1
  /\ adds_output user id (jb_source j) (storage_keys_for_attempt user id attempt) full_id thumb_id full thumb d1 d'.

Lemma succeed_ok user id attempt gpu ph full_id thumb_id full thumb d v d' :
  succeed_in m user id attempt gpu ph full_id thumb_id full thumb d = Ok (v, d') ->
  match v with
  | Committed shown => shown = full_id /\ succeeds user id attempt gpu ph full_id thumb_id full thumb d d'
  | Superseded discard here _ =>
      (d' = d \/ exists j, jb_state j = cancelled /\ moves id (run_job cancelled (charge_run gpu)) j d d')
      /\ (here = true -> exists j, job_at id d = Some j /\ jb_state j = cancelled)
      /\ (discard = true -> forall j, job_at id d = Some j ->
            attempt < jr_attempt (jb_run j) \/ jb_state j = failed \/ jb_state j = cancelled)
      /\ (forall j, job_at id d = Some j -> terminal (jb_state j) = true \/ attempt < jr_attempt (jb_run j))
  end.
Proof.
  unfold succeed_in. intros Hrun. cmd_inv. destruct (job_at id d) as [j|] eqn:Ej.
  2: { cmd_inv. split; [by left|]. split; [done|]. split; by intros; simplify_eq. }
  destruct (terminal (jb_state j) || (attempt <? jr_attempt (jb_run j))) eqn:Eover.
  - apply orb_true_iff in Eover. cbv zeta in Hrun.
    assert (Hd : ((attempt <? jr_attempt (jb_run j)) || negb (bool_decide (jb_state j = succeeded))) = true ->
                 attempt < jr_attempt (jb_run j) \/ jb_state j = failed \/ jb_state j = cancelled).
    { intros [Hlt|Hne]%orb_true_iff; [left; lia|]. destruct Eover as [Et|Hlt]; [|left; lia].
      apply negb_true_iff, bool_decide_eq_false in Hne. apply terminal_spec in Et as [?|Et]; [done|by right]. }
    assert (Ho : terminal (jb_state j) = true \/ attempt < jr_attempt (jb_run j)) by (destruct Eover; [by left|right; lia]).
    destruct (bool_decide (jb_state j = cancelled) && _) eqn:Ehere; cbn [andb] in Hrun.
    + apply andb_true_iff in Ehere as [Ec%bool_decide_eq_true Ea].
      destruct (negb (gpu =? 0)); cmd_inv; (split; [|split; [intros _; by exists j|split; [intros ? ? [= <-]; by apply Hd|by intros ? [= <-]]]]).
      * right. exists j. split; [done|by apply moves_set_job].
      * by left.
    + cmd_inv. split; [by left|]. split; [done|]. split; [intros ? ? [= <-]; by apply Hd|by intros ? [= <-]].
  - apply orb_false_iff in Eover as [Et Ea]. cmd_inv.
    match goal with He : erase_dispatched _ _ _ _ _ = _ |- _ => apply erase_dispatched_aside in He end.
    match goal with Hi : insert_output _ _ _ _ _ _ _ _ _ = _ |- _ => apply insert_output_ok in Hi end.
    split; [done|]. eexists j, _. split; [done|]. split; [lia|]. split; [by apply moves_set_job|done].
Qed.

Lemma attempt_stands_ok id sequence state d j a :
  attempt_stands id sequence state d = Some (j, a) -> job_at id d = Some j /\ jb_state j = running.
Proof.
  unfold attempt_stands. intros Hs. apply bind_Some in Hs as (j' & Ej & Hs). apply bind_Some in Hs as (a' & Ea & Hs).
  destruct (_ && _) eqn:E in Hs; [|done]. simplify_eq. apply andb_true_iff in E as [E _].
  apply andb_true_iff in E as [E%bool_decide_eq_true _]. done.
Qed.

Lemma fail_receipted_ok id n state reason d b d' :
  fail_receipted_in m id n state reason d = Ok (b, d') ->
  if b then exists j, jb_state j = running /\ moves id (run_job failed (finish_run reason (sn_terminal n))) j d d'
  else d' = d.
Proof.
  unfold fail_receipted_in. intros Hrun. cmd_inv.
  destruct (attempt_stands _ _ _ _) as [[j a]|] eqn:Es; [|by cmd_inv]. apply attempt_stands_ok in Es as [Ej Er].
  cmd_inv. match goal with He : tables _ _ = _ |- _ => apply (tables_aside _ (erase_subject_jobs _ _ _ _ _)) in He end.
  exists j. split; [done|by apply moves_set_job].
Qed.

Lemma finish_receipted_ok id n full_id thumb_id full thumb d r d' :
  finish_receipted_in m id n full_id thumb_id full thumb d = Ok (r, d') ->
  match r with
  | None => d' = d
  | Some shown => exists j a d1 d2, jb_state j = running /\ job_at id d = Some j
      /\ (existing_image id d = Some shown /\ d1 = d
          \/ existing_image id d = None /\ shown = full_id
             /\ adds_output (sn_user n) id (jb_source j) (storage_keys_for_attempt (sn_user n) id (sn_attempt n))
                  full_id thumb_id full thumb d d1)
      /\ aside d1 d2 /\ moves id (run_job succeeded (receipted_run a)) j d1 d'
  end.
Proof.
  unfold finish_receipted_in. intros Hrun. cmd_inv.
  destruct (attempt_stands _ _ _ _) as [[j a]|] eqn:Es; [|by cmd_inv]. apply attempt_stands_ok in Es as [Ej Er].
  cmd_inv. match type of Hrun with (if ?b then _ else _) _ = _ => destruct b end; [|by cmd_inv].
  cmd_inv. match goal with He : tables _ _ = _ |- _ => apply (tables_aside _ (erase_subject_jobs _ _ _ _ _)) in He end.
  destruct (existing_image id d) as [known|] eqn:Eimg.
  - cmd_inv. eexists j, a, _, _. split_and!; [done..| |done|]; [by left|by apply moves_set_job].
  - cmd_inv. match goal with Hi : insert_output _ _ _ _ _ _ _ _ _ = _ |- _ => apply insert_output_ok in Hi end.
    eexists j, a, _, _. split_and!; [done..| |done|].
    + right. by split_and!.
    + apply moves_set_job; [|done].
      match goal with Hi : adds_output _ _ _ _ _ _ _ _ _ _ |- _ => by rewrite (ao_rows _ _ _ _ _ _ _ _ _ _ Hi) end.
Qed.
End Outputs.

Lemma insert_job_ok id user model params source m d created d' :
  insert_job id user model params source m d = Ok (created, d') ->
  job_at id d = None /\ d_assets d' = d_assets d /\ d_pending d' = d_pending d /\ d_held d' = d_held d
  /\ forall id', job_at id' d' = if decide (id' = id) then Some
       {| jb_user := user; jb_model := model; jb_params := params; jb_state := queued; jb_dispatch := 0;
          jb_source := source; jb_dispatched := None; jb_run := new_run created |} else job_at id' d.
Proof.
  unfold insert_job. destruct (job_at id d) eqn:E; [done|]. cbn [some]. intros Hr. injection Hr as <- <-.
  repeat split. intros id'. unfold job_at, with_tables. cbn. case_decide as Hd.
  - subst. by rewrite lookup_insert_eq.
  - by rewrite lookup_insert_ne.
Qed.

(** ** Claiming a job with a command *)

Section Claims.
Context `{Driver} `{CryptoOps}.
Variable m : moment.
Variable ring : result exn key_ring.

Lemma prepare_dispatch_ok worker incarnation transport fields account ctx job_ctx s pre s' job :
  item fields "job_id" = Ok (JStr job) -> is_uuid job ->
  prepare_command_subject m worker incarnation transport "dispatch_job" fields account ctx job_ctx s = Ok (pre, s') ->
  s' = s /\ exists j range token, job_rows s !! job = Some j /\ jb_state j = queued
  /\ pre_claim pre = Some (JobClaim job (jb_dispatch j) (jb_dispatch j + 1) range token).
Proof.
  intros Hid Hu. change (prepare_command_subject m worker incarnation transport "dispatch_job" fields account ctx job_ctx s)
    with (prepare_dispatch fields account job_ctx s).
  unfold prepare_dispatch. intros Hrun. cmd_inv.
  match goal with Hf : uuid_field _ _ = Ok ?a |- _ => unfold uuid_field in Hf; rewrite Hid in Hf; cbn in Hf;
    unfold is_uuid in Hu; rewrite Hu in Hf; injection Hf as <- end.
  destruct (job_rows s !! job) as [j|] eqn:Ej; [|by cmd_inv]. cmd_inv.
  match goal with E : (if _ || _ then Ok true else _) = Ok ?b, F : ?b = false |- _ =>
    destruct (negb (bool_decide (jb_user j = account)) || negb (bool_decide (jb_state j = queued))) eqn:Est; [congruence|] end.
  apply orb_false_iff in Est as [_ Est]. apply negb_false_iff, bool_decide_eq_true in Est.
  split; [done|]. eauto 10.
Qed.

Lemma job_claim_ok worker incarnation conn subject previous sequence range token account id s u s' :
  apply_job_claim m worker incarnation conn subject previous sequence range token account id s = Ok (u, s') ->
  exists j, job_rows s !! subject = Some j /\ jb_state j = queued
  /\ job_rows s' = <[subject := running_job m sequence j]> (job_rows s).
Proof.
  unfold apply_job_claim. intros Hrun. cmd_inv.
  match goal with Hi : insert_job_attempt _ _ _ _ = _ |- _ => unfold insert_job_attempt in Hi end.
  repeat case_match; simplify_eq. unfold insert_range in Hrun. repeat case_match; simplify_eq.
  match goal with Hs : start_job _ _ _ _ _ = _ |- _ => unfold start_job in Hs end. cmd_inv.
  match goal with Hs : match ?x with _ => _ end _ = Ok _ |- _ => destruct x as [j|] eqn:Ej; [|by cmd_inv] end.
  match goal with Hs : (if ?b then _ else _) _ = Ok _ |- _ => destruct b eqn:Eq; [|by cmd_inv] end.
  apply andb_true_iff in Eq as [Eq%bool_decide_eq_true _]. cmd_inv. exists j. by split_and!.
Qed.

Lemma store_command_jobs q account pre w s c s' :
  store_command m ring q account pre w s = Ok (c, s') ->
  match pre_claim pre with
  | Some (JobClaim subject _ sequence _ _) => exists j, job_rows s !! subject = Some j /\ jb_state j = queued
      /\ job_rows s' = <[subject := running_job m sequence j]> (job_rows s)
  | _ => True
  end.
Proof.
  intros Hrun. destruct (pre_claim pre) as [[|subject previous sequence range token]|] eqn:Ep; [done| |done].
  unfold store_command in Hrun. rewrite Ep in Hrun. cmd_inv.
  match goal with a : (list Z * Z)%type |- _ => destruct a; cmd_inv end.
  match goal with Hr : raise_floor _ _ _ _ = _ |- _ => apply raise_floor_jobs in Hr end.
  match goal with Hi : insert_command _ _ _ _ = _ |- _ => apply insert_command_jobs in Hi end.
  match goal with Hu : update_connection _ _ _ = _ |- _ => apply update_connection_jobs in Hu end.
  match goal with Hc : apply_command_claim _ _ _ _ _ _ _ _ = _ |- _ =>
    unfold apply_command_claim in Hc; cmd_inv; apply job_claim_ok in Hc as (j & Ej & Eq & Er) end.
  unfold same_jobs_table in *. exists j. split; [congruence|]. split; [done|]. congruence.
Qed.

Lemma committing_ok q d c d' job :
  q_type q = "dispatch_job" -> item (q_fields q) "job_id" = Ok (JStr job) -> is_uuid job ->
  committing ring q m d = Ok (c, d') ->
  exists j, jb_state j = queued /\ moves job (running_job m (jb_dispatch j + 1)) j d d'.
Proof.
  intros Hty Hid Hu. unfold committing. destruct (commit_command m ring q (d_store d)) as [[[c' o]|e] s'] eqn:Ec; [|done].
  intros Heq. injection Heq as -> <-.
  unfold commit_command in Ec. destruct (validate_command_identity _ _ _) as [u|e]; [|done].
  destruct (q_account q) as [account|]; [|done]. destruct (q_callback q && _); [done|].
  destruct (negb (e_connected m)); [done|]. cbn in Ec. unfold mbind, action_bind, atomic in Ec.
  destruct (commit_in m ring q account (d_store d)) as [[[c1 o1] s1]|e] eqn:Ein; [|done].
  assert (s1 = s') as ->. { destruct (published (q_callback q) o1); by injection Ec. }
  unfold commit_in in Ein. cmd_inv. rewrite Hty in *.
  match goal with Hp : prepare_command_subject _ _ _ _ _ _ _ _ _ _ = _ |- _ =>
    apply (prepare_dispatch_ok _ _ _ _ _ _ _ _ _ _ _ Hid Hu) in Hp as (-> & j & range & token & Ej & Eq & Ep) end.
  match goal with Hg : lock_grant _ _ _ _ _ _ = _ |- _ => apply lock_grant_ok in Hg as [-> _] end.
  match goal with Hst : store_command _ _ _ _ _ _ _ = _ |- _ => apply store_command_jobs in Hst; rewrite Ep in Hst;
    destruct Hst as (j' & Ej' & _ & Er) end.
  assert (j' = j) as -> by congruence. exists j. split; [done|]. split; try done.
  intros id. unfold job_at. cbn. rewrite Er. case_decide; [subst; by rewrite lookup_insert_eq|by rewrite lookup_insert_ne].
Qed.
End Claims.
