(* ===== verification/JobBase.v ===== *)
(** * What every step of the job scheduler keeps

    The invariant of the tables and of the jobs in flight, how rows may move,
    and what the dispatch loop can rely on while it holds the lock of a row.
    Each handler is shown to keep them; [seen_step] then lets every later proof
    assume them of each step. *)

From S2P Require Import Prelude PyFloat Hashes Json Protocol6 Uuid PyInt KeyRing Transactions AccountStore CommandTables CommandSubjects CommandStore CommandFacts ODict Tasks JobTables Jobs JobSystem JobFacts.
Open Scope Z_scope.

(** ** Relations *)

(** An entry only learns its dispatch sequence. *)
Definition same_entry (e e' : in_flight) : Prop :=
  f_worker e' = f_worker e /\ f_key e' = f_key e /\ f_thumb e' = f_thumb e /\ f_user e' = f_user e
  /\ f_token e' = f_token e /\ f_attempt e' = f_attempt e.
Definition entry_keys (job : string) (e : in_flight) : Prop :=
  (f_key e, f_thumb e) = dispatch_keys_for_attempt (f_user e) job (f_attempt e).

Definition entries_named (p : process) : Prop :=
  NoDup (p_inflight p).*1
  /\ forall job h, od_get job (p_inflight p) = Some h -> exists e, p_entries p !! h = Some e /\ entry_keys job e.
Definition entries_kept (p p' : process) : Prop :=
  forall h e, p_entries p !! h = Some e -> exists e', p_entries p' !! h = Some e' /\ same_entry e e'.
(** The job is in flight under an entry alike one it had, or one of [Q]. *)
Definition tracked (job : string) (h : nat) (e : in_flight) (p : process) : Prop :=
  od_get job (p_inflight p) = Some h /\ p_entries p !! h = Some e.
Definition tracked_as (Q : string -> in_flight -> Prop) (p : process) (job : string) (e : in_flight) : Prop :=
  exists e0, same_entry e0 e /\ ((exists h, tracked job h e0 p) \/ Q job e0).
(** How the process moves. *)
Definition any_entry (job : string) (e : in_flight) : Prop := True.
Record process_le (Q : string -> in_flight -> Prop) (p p' : process) : Prop := {
  pl_named : entries_named p -> entries_named p';
  pl_kept : entries_kept p p';
  pl_epoch : p_epoch p <= p_epoch p';
  pl_tracked : entries_named p -> forall job h e, tracked job h e p' -> tracked_as Q p job e
}.

Definition new_or {X} (issued : gset string) (id : string) (old : option X) (P : X -> Prop) : Prop :=
  ~ (id ∈ issued) \/ exists x, old = Some x /\ P x.

Record db_base (issued : gset string) (d : db) : Prop := {
  db_rows : forall id r, job_at id d = Some r ->
    id ∈ issued /\ is_uuid id /\ is_uuid (jb_user r) /\ (jr_attempt (jb_run r) = 1 \/ jr_attempt (jb_run r) = 2);
  db_assets : forall aid a, d_assets d !! aid = Some a -> aid ∈ issued;
  db_outputs : forall aid a id, d_assets d !! aid = Some a -> as_job a = Some id ->
    (exists r, job_at id d = Some r /\ jb_state r = succeeded) /\ (as_mime a = "image/png" \/ as_mime a = "image/webp");
  db_unique : forall aid aid' a a' id, d_assets d !! aid = Some a -> d_assets d !! aid' = Some a' ->
    as_job a = Some id -> as_job a' = Some id -> as_mime a = as_mime a' -> aid = aid'
}.
Record db_le (issued : gset string) (d d' : db) : Prop := {
  dl_rows : forall id r', job_at id d' = Some r' -> new_or issued id (job_at id d) (fun r => row_le r r');
  dl_assets : forall aid a, d_assets d' !! aid = Some a -> new_or issued aid (d_assets d !! aid) (eq a)
}.
(** What others do to a job: nothing while its lock is held; else its verdict. *)
Record db_calm (issued : gset string) (d d' : db) : Prop := {
  dc_held : forall id, JobLock id ∈ d_held d -> JobLock id ∈ d_held d'
            /\ forall r, job_at id d = Some r -> job_at id d' = Some r;
  dc_rows : forall id r', job_at id d' = Some r' -> terminal (jb_state r') = false ->
    new_or issued id (job_at id d)
      (fun r => jb_state r = jb_state r' /\ jr_attempt (jb_run r) = jr_attempt (jb_run r'))
}.

Definition base (s : studio) : Prop := db_base (st_issued s) (st_db s) /\ entries_named (st_proc s).
Record mono (s s' : studio) : Prop := {
  mo_issued : st_issued s ⊆ st_issued s';
  mo_forfeited : st_forfeited s ⊆ st_forfeited s';
  mo_doubtful : st_doubtful s ⊆ st_doubtful s';
  mo_kept : entries_kept (st_proc s) (st_proc s');
  mo_epoch : p_epoch (st_proc s) <= p_epoch (st_proc s');
  mo_db : db_le (st_issued s) (st_db s) (st_db s')
}.
Definition calm (s s' : studio) : Prop := db_calm (st_issued s) (st_db s) (st_db s').

Definition base_rely (b : bool) (s s' : studio) : Prop := mono s s' /\ (b = true -> calm s s').
Definition base_guar (b : bool) (s s' : studio) : Prop := mono s s' /\ (b = false -> calm s s').
(** No charges yet. *)
Definition no_charge (c : Empty_set) (s : studio) : Prop := False.

Lemma same_entry_refl e : same_entry e e.
Proof. by repeat split. Qed.
Lemma same_entry_trans a b c : same_entry a b -> same_entry b c -> same_entry a c.
Proof. intros (?&?&?&?&?&?) (?&?&?&?&?&?). repeat split; congruence. Qed.
Global Instance entries_kept_preorder : PreOrder entries_kept.
Proof.
  split; [intros p h e He; exists e; split; [done|apply same_entry_refl]|].
  intros a b c H1 H2 h e He. destruct (H1 _ _ He) as (e1 & He1 & S1). destruct (H2 _ _ He1) as (e2 & He2 & S2).
  exists e2. split; [done|by eapply same_entry_trans].
Qed.
Global Instance process_le_preorder Q : PreOrder (process_le Q).
Proof.
  split.
  - intros p. split; [done|reflexivity|lia|]. intros _ job h e Ht. exists e. split; [apply same_entry_refl|eauto].
  - intros a b c [N1 K1 E1 T1] [N2 K2 E2 T2]. split; [auto|by etransitivity|lia|].
    intros Hn job h e Ht. destruct (T2 (N1 Hn) _ _ _ Ht) as (e1 & S1 & [[h1 Ht1]|HQ]); [|exists e1; auto].
    destruct (T1 Hn _ _ _ Ht1) as (e0 & S0 & H0). exists e0. split; [by eapply same_entry_trans|done].
Qed.

Lemma new_or_trans {X} (issued issued' : gset string) id (x y : option X) (P Q R : X -> Prop) :
  issued ⊆ issued' -> new_or issued' id y Q -> (forall b, y = Some b -> Q b -> new_or issued id x R) ->
  new_or issued id x R.
Proof. intros Hi [Hn|(b & Hb & HQ)] Hxy; [left; set_solver|]. by eapply Hxy. Qed.

Global Instance mono_preorder : PreOrder mono.
Proof.
  split.
  - intros s. split; [done|done|done|reflexivity|lia|]. split; right; eauto. eexists; split; [done|reflexivity].
  - intros a b c [I1 F1 U1 K1 E1 [R1 A1]] [I2 F2 U2 K2 E2 [R2 A2]].
    split; [set_solver..|by etransitivity|lia|]. split.
    + intros id r Hr. eapply (new_or_trans _ _ _ _ _ (fun _ => True)); [exact I1|by apply R2|].
      intros r1 Hr1 Hle. destruct (R1 _ _ Hr1) as [?|(r0 & Hr0 & Hle0)]; [by left|right].
      exists r0. split; [done|by etransitivity].
    + intros aid x Hx. eapply (new_or_trans _ _ _ _ _ (fun _ => True)); [exact I1|by apply A2|].
      intros x1 Hx1 <-. by apply A1.
Qed.

Lemma calm_refl s : calm s s.
Proof. split; [done|]. intros id r Hr _. right. eauto. Qed.
Lemma calm_trans a b c : st_issued a ⊆ st_issued b -> calm a b -> calm b c -> calm a c.
Proof.
  intros Hi [H1 R1] [H2 R2]. split.
  - intros id Hid. destruct (H1 _ Hid) as [Hid1 Hr1]. destruct (H2 _ Hid1) as [Hid2 Hr2].
    split; [done|]. intros r Hr. by apply Hr2, Hr1.
  - intros id r Hr Ht. eapply (new_or_trans _ _ _ _ _ (fun _ => True)); [exact Hi|by apply R2|].
    intros r1 Hr1 [Hst Hat]. rewrite <- Hst in Ht. destruct (R1 _ _ Hr1 Ht) as [?|(r0 & Hr0 & Hst0 & Hat0)]; [by left|].
    right. exists r0. split; [done|]. split; congruence.
Qed.

Global Instance base_rely_preorder b : PreOrder (base_rely b).
Proof.
  split; [intros s; split; [reflexivity|intros _; apply calm_refl]|].
  intros x y z [M1 C1] [M2 C2]. split; [by etransitivity|]. intros Hb.
  eapply calm_trans; [apply mo_issued, M1|by apply C1|by apply C2].
Qed.

(** ** The process *)

(** A handler's step between two awaits. *)
Abbreviation quiet f := (forall Q (p : process), process_le Q p (f p)).

Lemma process_le_other Q p q q' :
  process_le Q p q -> p_entries q' = p_entries q -> p_inflight q' = p_inflight q -> p_epoch q' = p_epoch q ->
  process_le Q p q'.
Proof.
  intros [N K E T] He Hi Hep. split; [|intros h e Hh; rewrite He; by apply K|lia|].
  - intros Hp. unfold entries_named. rewrite Hi, He. by apply N.
  - intros Hn job h e. unfold tracked. rewrite Hi, He. by apply T.
Qed.
Lemma process_le_queue Q p q f : process_le Q p q -> process_le Q p (on_queue f q).
Proof. intros Hq. by eapply process_le_other. Qed.
Lemma process_le_lost Q p q f : process_le Q p q -> process_le Q p (on_lost f q).
Proof. intros Hq. by eapply process_le_other. Qed.
Lemma process_le_objects Q p q f : process_le Q p q -> process_le Q p (on_objects f q).
Proof. intros Hq. by eapply process_le_other. Qed.
Lemma process_le_workers Q p q f : process_le Q p q -> process_le Q p (on_workers f q).
Proof. intros Hq. by eapply process_le_other. Qed.
Lemma process_le_progress Q p q f : process_le Q p q -> process_le Q p (on_progress f q).
Proof. intros Hq. by eapply process_le_other. Qed.
Lemma process_le_stamps Q p q f : process_le Q p q -> process_le Q p (on_stamps f q).
Proof. intros Hq. by eapply process_le_other. Qed.
Lemma process_le_subscribers Q p q f : process_le Q p q -> process_le Q p (on_subscribers f q).
Proof. intros Hq. by eapply process_le_other. Qed.
Lemma process_le_gate Q p q n b : process_le Q p q -> process_le Q p (set_gate (p_epoch q) n b q).
Proof. intros Hq. by eapply process_le_other. Qed.
Lemma process_le_del Q p q job : process_le Q p q -> process_le Q p (on_inflight (od_del job) q).
Proof.
  intros [N K E T]. split; [|exact K|exact E|].
  - intros Hp. destruct (N Hp) as [Hd Hn]. split; [by apply od_del_nodup|].
    intros job' h. cbn. destruct (decide (job' = job)) as [->|]; [by rewrite od_get_del|].
    rewrite od_get_del_ne by done. by apply Hn.
  - intros Hn job' h e [Hj He]. cbn in Hj, He. destruct (decide (job' = job)) as [->|]; [by rewrite od_get_del in Hj|].
    rewrite od_get_del_ne in Hj by done. by apply (T Hn job' h).
Qed.
Lemma process_le_set Q p q job h : process_le Q p q ->
  (entries_named p -> exists e, p_entries q !! h = Some e /\ entry_keys job e) ->
  (entries_named p -> forall e, p_entries q !! h = Some e -> tracked_as Q p job e) ->
  process_le Q p (on_inflight (od_set job h) q).
Proof.
  intros [N K E T] Hh Ht. split; [|exact K|exact E|].
  - intros Hp. destruct (N Hp) as [Hd Hn]. split; [by apply od_set_nodup|].
    intros job' h'. cbn. destruct (decide (job' = job)) as [->|].
    + rewrite od_get_set. intros [= <-]. by apply Hh.
    + rewrite od_get_set_ne by done. by apply Hn.
  - intros Hn job' h' e [Hj He]. cbn in Hj, He. destruct (decide (job' = job)) as [->|].
    + rewrite od_get_set in Hj. injection Hj as <-. by apply Ht.
    + rewrite od_get_set_ne in Hj by done. by apply (T Hn job' h').
Qed.

Lemma fresh_handle_new p : p_entries p !! fresh_handle p = None.
Proof. apply not_elem_of_dom. unfold fresh_handle. apply is_fresh. Qed.

Lemma register_entry_le Q job e t p : entry_keys job e -> Q job e -> process_le Q p (register_entry job e t p).2.
Proof.
  intros He HQ. unfold register_entry. set (h := fresh_handle p). cbn.
  pose proof (fresh_handle_new p) as Hfresh. fold h in Hfresh.
  assert (Hkept : forall h' e', p_entries p !! h' = Some e' -> <[h := e]> (p_entries p) !! h' = Some e').
  { intros h' e' He'. rewrite lookup_insert_ne; [done|congruence]. }
  apply process_le_stamps, process_le_set.
  - split; [| |done|].
    + intros [Hd Hp]. split; [done|]. intros job' h' Hj. destruct (Hp job' h' Hj) as (e0 & He0 & Hn).
      exists e0. split; [by apply Hkept|done].
    + intros h' e' He'. exists e'. split; [by apply Hkept|apply same_entry_refl].
    + intros [_ Hp] job' h' e' [Hj He']. cbn in Hj, He'. exists e'. split; [apply same_entry_refl|]. left. exists h'.
      split; [done|]. destruct (Hp job' h' Hj) as (e0 & He0 & _). rewrite (Hkept _ _ He0) in He'. congruence.
  - intros _. exists e. cbn. by rewrite lookup_insert_eq.
  - intros _ e' He'. cbn in He'. rewrite lookup_insert_eq in He'. injection He' as <-.
    exists e. split; [apply same_entry_refl|by right].
Qed.

Lemma set_entry_sequence_le current n : quiet (set_entry_sequence current n).
Proof.
  intros Q p. assert (Hk : forall h, p_entries (set_entry_sequence current n p) !! h
      = (fun e => if decide (h = current) then
            {| f_worker := f_worker e; f_key := f_key e; f_thumb := f_thumb e; f_user := f_user e;
               f_token := f_token e; f_attempt := f_attempt e; f_sequence := n |} else e) <$> p_entries p !! h).
  { intros h. cbn. destruct (decide (h = current)) as [->|].
    - by rewrite lookup_alter_eq.
    - rewrite lookup_alter_ne by done. by destruct (p_entries p !! h). }
  split; [| |done|].
  - intros [Hd Hp]. split; [done|]. intros job h Hj. destruct (Hp job h Hj) as (e0 & He0 & Hn). rewrite Hk, He0.
    eexists. split; [done|]. by case_decide.
  - intros h e He. rewrite Hk, He. eexists. split; [done|]. case_decide; by repeat split.
  - intros _ job h e [Hj He]. rewrite Hk in He. destruct (p_entries p !! h) as [e0|] eqn:E0; [|done].
    cbn in He. injection He as <-. exists e0. split; [case_decide; by repeat split|]. left. by exists h.
Qed.

Lemma foldl_quiet {A} (f : process -> A -> process) l :
  (forall a, quiet (fun p => f p a)) -> quiet (fun p => foldl f p l).
Proof.
  intros Hf Q. induction l as [|a l IH]; intros p; cbn; [reflexivity|].
  etransitivity; [apply (Hf a)|apply IH].
Qed.

Create HintDb quiet.
Arguments register_entry : simpl never.
Arguments pop_stalled : simpl never.
Arguments note_progress : simpl never.
Arguments dispatch_keys_for_attempt : simpl never.
Arguments storage_keys_for_attempt : simpl never.
Ltac quiet_step :=
  match goal with
  | |- forall _ : process, process_le _ _ _ => intros ?
  | |- process_le ?Q ?p ?p => reflexivity
  | |- process_le ?Q ?p (if decide _ then _ else _) => case_decide
  | |- process_le ?Q ?p (match ?x with _ => _ end) => destruct x eqn:?
  | |- process_le ?Q ?p (match ?x with _ => _ end).2 => destruct x eqn:?; cbn [snd]
  | |- process_le ?Q ?p (_, _).2 => cbn [snd]
  | |- process_le ?Q ?p (on_inflight (od_del _) _) => apply process_le_del
  | |- process_le ?Q ?p (register_entry _ _ _ ?p).2 => apply register_entry_le; [unfold entry_keys; cbn; congruence|try exact I]
  | |- process_le ?Q ?p (push_back _ _) => unfold push_back
  | |- process_le ?Q ?p (on_queue _ _) => apply process_le_queue
  | |- process_le ?Q ?p (on_lost _ _) => apply process_le_lost
  | |- process_le ?Q ?p (on_objects _ _) => apply process_le_objects
  | |- process_le ?Q ?p (on_workers _ _) => apply process_le_workers
  | |- process_le ?Q ?p (on_progress _ _) => apply process_le_progress
  | |- process_le ?Q ?p (on_stamps _ _) => apply process_le_stamps
  | |- process_le ?Q ?p (on_subscribers _ _) => apply process_le_subscribers
  | |- process_le ?Q ?p (set_gate (p_epoch ?q) _ _ ?q) => apply process_le_gate
  end.
Ltac quietly := intros; repeat (quiet_step; cbv zeta beta).

Lemma publish_quiet job fields : quiet (publish job fields).
Proof. unfold publish. quietly. Qed.
Lemma clear_quiet h job current : quiet (clear_if_current h job current).
Proof. unfold clear_if_current, release_job_slot, drop_stamps. quietly. Qed.
Lemma drop_early_quiet job current h : quiet (drop_early_entry job current h).
Proof. unfold drop_early_entry, release_job_slot. quietly. Qed.
Lemma unregister_quiet job h : quiet (unregister job h).
Proof. unfold unregister, release_job_slot. quietly. Qed.
Lemma forget_worker_quiet h : quiet (forget_worker h).
Proof. unfold forget_worker. quietly. Qed.
Lemma unregister_forgotten_quiet Q job h p : process_le Q p (unregister job h (forget_worker h p)).
Proof. etransitivity; [apply forget_worker_quiet|apply unregister_quiet]. Qed.
Lemma worker_lost_quiet h : quiet (on_worker_lost h).
Proof. unfold on_worker_lost, drop_stamps. intros Q p. apply foldl_quiet. intros a ? ?. quietly. Qed.
Lemma fenced_quiet k : quiet (close_fenced_worker k).
Proof.
  unfold close_fenced_worker. intros Q p. quietly. etransitivity; [apply forget_worker_quiet|apply worker_lost_quiet].
Qed.
Lemma note_progress_quiet job control t : quiet (note_progress job control t).
Proof. unfold note_progress. quietly. etransitivity; [|apply publish_quiet]. quietly. Qed.
Lemma push_back_quiet skipped : quiet (push_back skipped).
Proof. unfold push_back. quietly. Qed.
Lemma pop_stalled_quiet Q now job p : process_le Q p (pop_stalled now job p).2.
Proof.
  unfold pop_stalled. destruct (od_get job (p_inflight p)) as [h|] eqn:Eh; [|reflexivity].
  case_match; cbn.
  - apply process_le_set; [quietly|by intros [_ Hp]; apply (Hp job h)|].
    intros _ e He. exists e. split; [apply same_entry_refl|]. left. by exists h.
  - case_match; unfold release_job_slot, drop_stamps; quietly.
Qed.
#[export] Hint Resolve publish_quiet clear_quiet drop_early_quiet unregister_quiet forget_worker_quiet
  worker_lost_quiet unregister_forgotten_quiet fenced_quiet push_back_quiet pop_stalled_quiet note_progress_quiet set_entry_sequence_le : quiet.

(** ** The tables *)

(** What a transaction may do to them, on the dispatch loop or off it. *)
Definition db_step (b : bool) (issued issued' : gset string) (d d' : db) : Prop :=
  db_base issued' d' /\ db_le issued d d' /\ (b = false -> db_calm issued d d').

Lemma db_base_issued issued issued' d : issued ⊆ issued' -> db_base issued d -> db_base issued' d.
Proof.
  intros Hi [R A O U]. split; [|by eauto|exact O|exact U].
  intros id r Hr. destruct (R _ _ Hr) as (? & ?). split; [set_solver|done].
Qed.

Lemma db_step_aside b issued issued' d d' : issued ⊆ issued' -> db_base issued d -> d_assets d' = d_assets d ->
  (forall id, job_at id d' = job_at id d) -> (forall id, JobLock id ∈ d_held d -> JobLock id ∈ d_held d') ->
  db_step b issued issued' d d'.
Proof.
  intros Hi Hd HA HR HL. split; [apply (db_base_issued _ _ _ Hi)|split].
  - destruct Hd as [R A O U]. split; intros *; rewrite ?HR, ?HA; eauto.
  - split; intros * Hx; rewrite ?HR, ?HA in Hx; right; eauto. eexists; split; [done|reflexivity].
  - intros _. split; [intros id Hid; split; [by apply HL|by rewrite HR]|].
    intros id r Hr _. rewrite HR in Hr. right. eauto.
Qed.

Lemma moves_rows_le issued id f j d d' : moves id f j d d' -> row_le j (f j) -> db_le issued d d'.
Proof.
  intros [Hj HR HA _ _] Hle. split.
  - intros id' r' Hr'. rewrite HR in Hr'. case_decide; right; [|exists r'; split; [done|reflexivity]].
    simplify_eq. eauto.
  - intros aid a Ha. rewrite HA in Ha. right; eauto.
Qed.
Lemma rows_calm issued id j j' d d' : ~ (JobLock id ∈ d_held d) -> d_held d' = d_held d -> job_at id d = Some j ->
  (forall id', job_at id' d' = if decide (id' = id) then Some j' else job_at id' d) ->
  terminal (jb_state j') = true -> db_calm issued d d'.
Proof.
  intros Hl HL Hj HR Ht. split.
  - intros id' Hid. rewrite HL, HR. split; [done|]. by rewrite decide_False by (intros ->; done).
  - intros id' r' Hr' Hf. rewrite HR in Hr'. case_decide; [simplify_eq; congruence|right; eauto].
Qed.

Lemma moves_step b issued issued' id f j d d' :
  issued ⊆ issued' -> db_base issued d -> moves id f j d d' -> row_le j (f j) ->
  (jr_attempt (jb_run (f j)) = 1 \/ jr_attempt (jb_run (f j)) = 2) ->
  (b = false -> ~ (JobLock id ∈ d_held d) /\ terminal (jb_state (f j)) = true) ->
  db_step b issued issued' d d'.
Proof.
  intros Hi Hd Hm Hle Hat Hb. split; [apply (db_base_issued _ _ _ Hi)|split; [by eapply moves_rows_le|]].
  - destruct Hm as [Hj HR HA _ _], Hd as [R A O U].
    split; intros *; rewrite ?HA; [|by eauto| |by eauto].
    + intros Hr. rewrite HR in Hr. case_decide; [|by eauto]. simplify_eq.
      destruct (R _ _ Hj) as (? & ? & Hu & _). split_and!; [done..| |done]. by rewrite (rl_user _ _ Hle).
    + intros Ha Hjob. destruct (O _ _ _ Ha Hjob) as ((r & Hr & Hs) & Hmime). split; [|done].
      rewrite HR. case_decide; [|by eauto]. simplify_eq. eexists. split; [done|].
      destruct (rl_final _ _ Hle) as (-> & _); [by rewrite Hs|done].
  - intros Hb'. destruct (Hb Hb') as [Hl Ht]. destruct Hm as [Hj HR _ _ HL]. by eapply rows_calm.
Qed.

(** The job ends with its output. *)
Record completes (id : string) (f : job_row -> job_row) (j : job_row) (user : string) (keys : string * string)
    (full_id thumb_id : string) (full : image) (thumb : option image) (d d' : db) : Prop := {
  co_row : job_at id d = Some j;
  co_open : terminal (jb_state j) = false;
  co_rows : forall id', job_at id' d' = if decide (id' = id) then Some (f j) else job_at id' d;
  co_assets : d_assets d' = output_rows user id (jb_source j) keys full_id thumb_id full thumb (d_assets d);
  co_full : d_assets d !! full_id = None;
  co_thumb : is_Some thumb -> d_assets d !! thumb_id = None /\ thumb_id ≠ full_id;
  co_pending : d_pending d' = d_pending d;
  co_held : d_held d' = d_held d
}.

Lemma succeeds_completes `{Driver} m user id attempt gpu ph full_id thumb_id full thumb d d' :
  succeeds m user id attempt gpu ph full_id thumb_id full thumb d d' ->
  exists j, jr_attempt (jb_run j) <= attempt
  /\ completes id (run_job succeeded (succeed_run gpu ph (e_write_clock m))) j user
       (storage_keys_for_attempt user id attempt) full_id thumb_id full thumb d d'.
Proof.
  intros (j & d1 & Ht & Hat & [Hj HR HA HP HL] & [F T A R P L]). exists j. split; [done|].
  split; try done; try congruence; [intros id'; by rewrite R, HR|].
  intros Hs. destruct (T Hs) as [? ?]. split; congruence.
Qed.

Lemma existing_image_none id d : existing_image id d = None <->
  forall aid a, d_assets d !! aid = Some a -> as_job a = Some id -> as_mime a ≠ "image/png".
Proof.
  unfold existing_image. split.
  - intros Hn aid a Ha Hj Hm.
    assert (Hin : aid ∈ omap (fun ka : string * asset =>
        if bool_decide (as_job ka.2 = Some id) && bool_decide (as_mime ka.2 = "image/png") then Some ka.1 else None)
        (map_to_list (d_assets d))).
    { apply list_elem_of_omap. exists (aid, a). split; [by apply elem_of_map_to_list|]. cbn.
      by rewrite !bool_decide_eq_true_2 by done. }
    destruct (omap _ _); [by apply elem_of_nil in Hin|done].
  - intros Hn. destruct (omap _ _) as [|k l] eqn:E; [done|].
    assert (Hin : k ∈ omap (fun ka : string * asset =>
        if bool_decide (as_job ka.2 = Some id) && bool_decide (as_mime ka.2 = "image/png") then Some ka.1 else None)
        (map_to_list (d_assets d))) by (rewrite E; left).
    apply list_elem_of_omap in Hin as ([aid a] & Ha%elem_of_map_to_list & Hk). cbn in Hk.
    destruct (bool_decide _ && bool_decide _) eqn:Eb; [|done].
    apply andb_true_iff in Eb as [Ej%bool_decide_eq_true Em%bool_decide_eq_true].
    by destruct (Hn _ _ Ha Ej).
Qed.

(** A running job has no image: its receipt is finished from once. *)
Lemma finish_receipted_completes `{Driver} issued m id n full_id thumb_id full thumb d r d' :
  db_base issued d -> finish_receipted_in m id n full_id thumb_id full thumb d = Ok (r, d') ->
  match r with
  | None => d' = d
  | Some shown => shown = full_id /\ exists j a, jb_state j = running
      /\ completes id (run_job succeeded (receipted_run a)) j (sn_user n)
           (storage_keys_for_attempt (sn_user n) id (sn_attempt n)) full_id thumb_id full thumb d d'
  end.
Proof.
  intros [R A O U] Hrun. apply finish_receipted_ok in Hrun. destruct r as [shown|]; [|done].
  destruct Hrun as (j & a & d1 & d2 & Hst & Hj & [[Hex ->]|(_ & -> & [F T A1 R1 P1 L1])] & (_ & _) & [Hj1 HR HA HP HL]).
  - enough (existing_image id d = None) by congruence. apply existing_image_none. intros aid x Hx Hjob _.
    destruct (O _ _ _ Hx Hjob) as ((r & Hr & Hs) & _). congruence.
  - split; [done|]. exists j, a. split; [done|]. split; try done; try congruence; [by rewrite Hst|].
    intros id'. rewrite HR, R1. done.
Qed.

Lemma output_lookup user id source keys full_id thumb_id full thumb rows aid a :
  output_rows user id source keys full_id thumb_id full thumb rows !! aid = Some a ->
  aid = full_id /\ a = full_asset user id source keys.1 full
  \/ (exists t, thumb = Some t /\ aid = thumb_id /\ a = thumb_asset user id full_id keys.2 t)
  \/ rows !! aid = Some a.
Proof.
  unfold output_rows. destruct thumb as [t|].
  - rewrite lookup_insert_Some. intros [[<- <-]|[_ Ha]]; [right; left; by exists t|].
    apply lookup_insert_Some in Ha as [[<- <-]|[_ Ha]]; [by left|by right; right].
  - rewrite lookup_insert_Some. intros [[<- <-]|[_ Ha]]; [by left|by right; right].
Qed.

Lemma completes_step b issued full_id thumb_id id f j user keys full thumb d d' :
  ~ (full_id ∈ issued) -> ~ (thumb_id ∈ issued) -> db_base issued d ->
  completes id f j user keys full_id thumb_id full thumb d d' -> row_le j (f j) -> jb_state (f j) = succeeded ->
  (jr_attempt (jb_run (f j)) = 1 \/ jr_attempt (jb_run (f j)) = 2) ->
  (b = false -> ~ (JobLock id ∈ d_held d)) ->
  db_step b issued ({[full_id; thumb_id]} ∪ issued) d d'.
Proof.
  intros Hf Ht Hd [Hj Ho HR HA Hnf Hnt _ HL] Hle Hs Hat Hb.
  assert (Hnone : forall aid a, d_assets d !! aid = Some a -> as_job a ≠ Some id).
  { intros aid a Ha Hjob. destruct (db_outputs _ _ Hd _ _ _ Ha Hjob) as ((r & Hr & Hs') & _).
    rewrite Hj in Hr. injection Hr as <-. by rewrite Hs' in Ho. }
  split; [split|split].
  - intros id' r Hr. rewrite HR in Hr. case_decide.
    + simplify_eq. destruct (db_rows _ _ Hd _ _ Hj) as (? & ? & ? & _). split_and!; [set_solver|done| |done].
      by rewrite (rl_user _ _ Hle).
    + destruct (db_rows _ _ Hd _ _ Hr) as (? & ?). split; [set_solver|done].
  - intros aid a Ha. rewrite HA in Ha. apply output_lookup in Ha as [[-> _]|[(t & _ & -> & _)|Ha]]; [set_solver..|].
    pose proof (db_assets _ _ Hd _ _ Ha). set_solver.
  - intros aid a id' Ha Hjob. rewrite HA in Ha. rewrite HR.
    apply output_lookup in Ha as [[_ ->]|[(t & _ & _ & ->)|Ha]]; cbn in *.
    1, 2: injection Hjob as <-; rewrite decide_True by done; split; [by eexists|auto].
    rewrite decide_False by (intros ->; by eapply Hnone). by eapply db_outputs.
  - intros aid aid' a a' id' Ha Ha' Hjob Hjob' Hm. rewrite HA in Ha, Ha'.
    apply output_lookup in Ha as [[-> ->]|[(t & Et & -> & ->)|Ha]], Ha' as [[-> ->]|[(t' & Et' & -> & ->)|Ha']];
      cbn in *; try done; simplify_eq; try (by exfalso; eapply Hnone).
    by eapply (db_unique _ _ Hd).
  - split.
    + intros id' r' Hr'. rewrite HR in Hr'. case_decide; right; [|exists r'; split; [done|reflexivity]].
      simplify_eq. eauto.
    + intros aid a Ha. rewrite HA in Ha. apply output_lookup in Ha as [[-> _]|[(t & _ & -> & _)|Ha]]; [by left..|].
      right. eauto.
  - intros Hb'. eapply rows_calm; [by apply Hb|done|done|exact HR|]. by rewrite Hs.
Qed.

Lemma insert_job_step b issued issued' id user model params source m d created d' :
  issued ⊆ issued' -> id ∈ issued' -> ~ (id ∈ issued) -> is_uuid id -> is_uuid user -> db_base issued d ->
  insert_job id user model params source m d = Ok (created, d') -> db_step b issued issued' d d'.
Proof.
  intros Hi Hin Hnew Hid Hu Hd Hrun. apply insert_job_ok in Hrun as (Hn & HA & _ & HL & HR).
  split; [split|split].
  - intros id' r Hr. rewrite HR in Hr. case_decide; [simplify_eq; cbn; auto|].
    destruct (db_rows _ _ Hd _ _ Hr) as (? & ?). split; [set_solver|done].
  - intros aid a Ha. rewrite HA in Ha. pose proof (db_assets _ _ Hd _ _ Ha). set_solver.
  - intros aid a id' Ha Hjob. rewrite HA in Ha. destruct (db_outputs _ _ Hd _ _ _ Ha Hjob) as ((r & Hr & Hs) & ?).
    split; [|done]. exists r. rewrite HR, decide_False; [done|]. intros ->. congruence.
  - intros *. rewrite HA. by apply (db_unique _ _ Hd).
  - split.
    + intros id' r' Hr'. rewrite HR in Hr'. case_decide; [left; by subst|right].
      exists r'. split; [done|reflexivity].
    + intros aid a Ha. rewrite HA in Ha. right. eauto.
  - intros _. split.
    + intros id' Hid'. rewrite HL. split; [done|]. intros r Hr. rewrite HR, decide_False; [done|]. intros ->. congruence.
    + intros id' r' Hr' _. rewrite HR in Hr'. case_decide; [left; by subst|right; eauto].
Qed.

(** ** Operations *)

Abbreviation base_good := (good exec base base_guar no_charge).

Lemma base_good_intro b X (o : op X) :
  (forall s x s', base s -> exec b X o s x s' -> base s' /\ base_guar b s s') -> base_good b X o.
Proof. intros Ho s x s' Hb He. destruct (Ho s x s' Hb He). split; [done|]. split; [done|]. intros []. Qed.

Lemma job_step_good Q b s s' : base s -> st_issued s ⊆ st_issued s' -> st_forfeited s ⊆ st_forfeited s' ->
  st_doubtful s ⊆ st_doubtful s' -> process_le Q (st_proc s) (st_proc s') ->
  db_step b (st_issued s) (st_issued s') (st_db s) (st_db s') -> base s' /\ base_guar b s s'.
Proof.
  intros [Hd Hp] Hi Hf Hu [N K E _] (Hd' & Hle & Hc). split; [split; [done|by apply N]|].
  split; [by split|]. intros Hb. by apply Hc.
Qed.

Lemma db_step_same b issued issued' d : issued ⊆ issued' -> db_base issued d -> db_step b issued issued' d d.
Proof. intros Hi Hd. by apply db_step_aside. Qed.
Lemma same_db_good Q b s s' : base s -> st_db s' = st_db s -> st_issued s ⊆ st_issued s' ->
  st_forfeited s ⊆ st_forfeited s' -> st_doubtful s ⊆ st_doubtful s' -> process_le Q (st_proc s) (st_proc s') ->
  base s' /\ base_guar b s s'.
Proof.
  intros Hb HD Hi Hf Hu Hp. apply (job_step_good Q); try done. rewrite HD. apply db_step_same; [done|apply Hb].
Qed.

Lemma good_now b X (f : Z -> process -> X * process) :
  (forall t p, process_le any_entry p (f t p).2) -> base_good b X (Now f).
Proof.
  intros Hf. apply base_good_intro. intros s x s' Hb (t & p & Ep & ->). apply (same_db_good any_entry); try done.
  cbn. by specialize (Hf t (st_proc s)); rewrite Ep in Hf.
Qed.

Lemma good_query b X need (t : moment -> string * string -> txn db X) :
  (forall m a c issued d x d', ~ (a = c) -> ~ (a ∈ issued) -> ~ (c ∈ issued) -> is_uuid a -> is_uuid c ->
     lock_free need d -> db_base issued d -> t m (a, c) d = Ok (x, d') ->
     db_step b issued ({[a; c]} ∪ issued) d d') ->
  base_good b _ (Query need t).
Proof.
  intros Ht. apply base_good_intro. intros s r s' Hb (m & a & c & Hne & Ha & Hc & Hua & Huc & Hl & Hrun). cbv zeta in Hrun.
  destruct (t m (a, c) (st_db s)) as [[x d]|e] eqn:Et.
  - assert (Hs : db_step b (st_issued s) ({[a; c]} ∪ st_issued s) (st_db s) d) by (eapply Ht; try done; apply Hb).
    destruct Hrun as [[_ ->]|[_ [->| ->]]]; [|apply (same_db_good any_entry); try done; cbn; set_solver|];
      apply (job_step_good any_entry); try done; cbn; set_solver.
  - destruct Hrun as [_ ->]. apply (same_db_good any_entry); try done. cbn. set_solver.
Qed.

Lemma good_read b X need (f : moment -> db -> X) : base_good b _ (Query need (fun m _ => read (f m))).
Proof.
  apply good_query. intros m a c issued d x d' _ _ _ _ _ _ Hd Hr. apply read_ok in Hr as [_ ->].
  apply db_step_same; [set_solver|done].
Qed.

Lemma good_hold b X l (f : moment -> db -> X) : base_good b _ (Hold l f).
Proof.
  apply base_good_intro. intros s r s' Hb (_ & [(m & _ & ->)|[_ ->]]); [|by apply (same_db_good any_entry)].
  apply (job_step_good any_entry); try done. apply db_step_aside; try done; [apply Hb|]. intros id Hid. cbn. by right.
Qed.

Lemma unlock_keeps l d id : l ≠ JobLock id -> JobLock id ∈ d_held d -> JobLock id ∈ d_held (unlock l d).
Proof. intros Hl Hid. cbn. apply list_elem_of_filter. split; [congruence|done]. Qed.

Lemma good_release b l : (b = false -> forall id, l ≠ JobLock id) -> base_good b _ (Release l).
Proof.
  intros Hl. apply base_good_intro. intros s r s' Hb ->. apply (job_step_good any_entry); try done.
  destruct (db_step_aside true (st_issued s) (st_issued s) (st_db s) (st_db s)) as (_ & Hle & _); try done; [apply Hb|].
  destruct Hb as [Hd _]. split; [by destruct Hd|]. split; [by destruct Hle|].
  intros Hb'. split; [|intros id r' Hr _; right; eauto].
  intros id Hid. split; [|done]. apply unlock_keeps; [by apply Hl|done].
Qed.

Lemma good_inert b X (o : op X) : (forall s x s', exec b X o s x s' -> st_db s' = st_db s /\ st_proc s' = st_proc s
  /\ st_issued s ⊆ st_issued s' /\ st_forfeited s ⊆ st_forfeited s' /\ st_doubtful s ⊆ st_doubtful s') ->
  base_good b X o.
Proof.
  intros Ho. apply base_good_intro. intros s x s' Hb He. destruct (Ho _ _ _ He) as (? & Hp & ? & ? & ?).
  apply (same_db_good any_entry); try done. by rewrite Hp.
Qed.

Ltac inert :=
  intros; apply good_inert; cbn; intros;
  repeat match goal with
  | H : _ /\ _ |- _ => destruct H
  | H : _ \/ _ |- _ => destruct H
  | H : match ?x with _ => _ end |- _ => destruct x
  end; subst; cbn; split_and!; try done; set_solver.
Lemma good_inspect b key : base_good b _ (Inspect key). Proof. inert. Qed.
Lemma good_promote b src dst : base_good b _ (Promote src dst). Proof. inert. Qed.
Lemma good_target b key token : base_good b _ (Target key token). Proof. inert. Qed.
Lemma good_fetch b key : base_good b _ (FetchUrl key). Proof. inert. Qed.
Lemma good_send b w message : base_good b _ (Send w message). Proof. inert. Qed.
Lemma good_fresh b : base_good b _ Fresh. Proof. inert. Qed.
Lemma good_token b : base_good b _ Token. Proof. inert. Qed.
Lemma good_random b : base_good b _ Random. Proof. inert. Qed.
Lemma good_admitted b : base_good b _ Admitted_. Proof. inert. Qed.
Lemma good_deadline b : base_good b _ Deadline. Proof. inert. Qed.
Lemma good_remove b why key : base_good b _ (Remove why key).
Proof.
  apply good_inert. cbn. unfold asked_to_remove. intros s x s' He.
  destruct (names_superseded why), He as [[_ ->]|[_ [->| ->]]]; cbn; split_and!; try done; set_solver.
Qed.
Create HintDb base_good.
#[export] Hint Resolve good_read good_hold good_inspect good_promote good_target good_fetch good_send good_fresh
  good_token good_random good_admitted good_deadline good_remove : base_good.

(** ** The scheduler's transactions *)

Lemma ends_le st f j :
  terminal (jb_state j) = false -> terminal st = true -> jr_attempt (f (jb_run j)) = jr_attempt (jb_run j) ->
  jr_created (f (jb_run j)) = jr_created (jb_run j) -> row_le j (run_job st f j).
Proof.
  intros Hj Hst Ha Hc. split; cbn; try done; try lia; try (by rewrite Hj). intros _ _ ->. done.
Qed.
Lemma charge_le gpu j : jb_state j = cancelled -> row_le j (run_job cancelled (charge_run gpu) j).
Proof. intros Hj. split; cbn; try done; try lia; by rewrite Hj. Qed.
Lemma requeue_le j : jb_state j = running -> jr_attempt (jb_run j) = 1 -> row_le j (run_job queued second_attempt j).
Proof. intros Hj Ha. split; cbn; try done; try lia; by rewrite Hj. Qed.
Lemma running_le m sequence j : jb_state j = queued -> row_le j (running_job m sequence j).
Proof. intros Hj. split; cbn; try done; try lia; by rewrite Hj. Qed.
Lemma dispatched_le t j : jb_state j = queued -> row_le j (dispatched_at t j).
Proof. intros Hj. split; cbn; try done; try lia; by rewrite Hj. Qed.
#[export] Hint Resolve ends_le charge_le requeue_le running_le dispatched_le : base_good.

Lemma base_attempt issued d id j : db_base issued d -> job_at id d = Some j ->
  jr_attempt (jb_run j) = 1 \/ jr_attempt (jb_run j) = 2.
Proof. intros Hd Hj. by apply (db_rows _ _ Hd) in Hj as (_ & _ & _ & ?). Qed.

Ltac same_step := apply db_step_same; [set_solver|done].
(** A transaction that moved one row. *)
Ltac one_row :=
  match goal with Hm : moves _ _ _ _ _, Hd : db_base _ _ |- _ =>
    pose proof (base_attempt _ _ _ _ Hd (mv_row _ _ _ _ _ Hm));
    eapply moves_step; [set_solver|done|exact Hm|auto with base_good|auto|]; try done end.

Section Handlers.
Context `{Driver}.

Lemma good_mark_failed b id reason expected :
  base_good b _ (Query (Some (JobLock id)) (fun m _ => mark_failed_in m id reason expected)).
Proof.
  apply good_query. intros m a c issued d x d' _ _ _ _ _ Hl Hd Hrun. apply mark_failed_ok in Hrun.
  destruct x; [|destruct Hrun as [-> _]; same_step]. destruct Hrun as (j & Ht & _ & Hm). one_row.
Qed.
Lemma good_cancel b id reason : base_good b _ (Query (Some (JobLock id)) (fun m _ => cancel_in m id reason)).
Proof.
  apply good_query. intros m a c issued d x d' _ _ _ _ _ Hl Hd Hrun. apply cancel_ok in Hrun.
  destruct x; [|subst; same_step]. destruct Hrun as (j & Ht & Hm). one_row.
Qed.
Lemma good_charge b id gpu attempt :
  base_good b _ (Query (Some (JobLock id)) (fun _ _ => charge_in id gpu attempt)).
Proof.
  apply good_query. intros m a c issued d x d' _ _ _ _ _ Hl Hd Hrun. apply charge_ok in Hrun as [->|(j & Hc & Hm)].
  - same_step.
  - one_row.
Qed.
Lemma good_requeue id : base_good true _ (Query (Some (JobLock id)) (fun _ _ => requeue_in id)).
Proof.
  apply good_query. intros m a c issued d x d' _ _ _ _ _ Hl Hd Hrun. apply requeue_ok in Hrun.
  destruct x; destruct Hrun as (? & Hrun); try (subst; same_step).
  destruct Hrun as (Hst & Hat & _ & Hm). one_row.
Qed.
Lemma good_fail_receipted b id n state reason :
  base_good b _ (Query (Some (JobLock id)) (fun m _ => fail_receipted_in m id n state reason)).
Proof.
  apply good_query. intros m a c issued d x d' _ _ _ _ _ Hl Hd Hrun. apply fail_receipted_ok in Hrun.
  destruct x; [|subst; same_step]. destruct Hrun as (j & Hst & Hm).
  assert (terminal (jb_state j) = false) by (by rewrite Hst). one_row.
Qed.
Lemma good_succeed b user id attempt gpu ph full thumb :
  base_good b _ (Query (Some (JobLock id)) (fun m ids => succeed_in m user id attempt gpu ph ids.1 ids.2 full thumb)).
Proof.
  apply good_query. intros m a c issued d x d' Hne Ha Hc _ _ Hl Hd Hrun. apply succeed_ok in Hrun.
  destruct x as [shown|discard here charged].
  - destruct Hrun as [_ Hs]. apply succeeds_completes in Hs as (j & _ & Hco).
    pose proof (base_attempt _ _ _ _ Hd (co_row _ _ _ _ _ _ _ _ _ _ _ Hco)).
    eapply completes_step; try done; apply ends_le; try done. apply Hco.
  - destruct Hrun as ([->|(j & Hst & Hm)] & _); [same_step|]. one_row.
Qed.
Lemma good_finish_receipted b id n full thumb :
  base_good b _ (Query (Some (JobLock id)) (fun m ids => finish_receipted_in m id n ids.1 ids.2 full thumb)).
Proof.
  apply good_query. intros m a c issued d x d' Hne Ha Hc _ _ Hl Hd Hrun.
  apply (finish_receipted_completes issued) in Hrun; [|done].
  destruct x as [shown|]; [|subst; same_step]. destruct Hrun as (_ & j & at_ & Hst & Hco).
  pose proof (base_attempt _ _ _ _ Hd (co_row _ _ _ _ _ _ _ _ _ _ _ Hco)).
  eapply completes_step; try done; apply ends_le; try done. by rewrite Hst.
Qed.
Lemma good_insert b user model params source : is_uuid user ->
  base_good b _ (Query None (fun m ids => created ← insert_job ids.1 user model params source m; mret (ids.1, created))).
Proof.
  intros Hu. apply good_query. intros m a c issued d x d' Hne Ha Hc Hua _ _ Hd Hrun. cmd_inv.
  eapply insert_job_step; [..|done]; try done; set_solver.
Qed.
Lemma good_record_pending b key error :
  base_good b _ (Query (Some (DeleteLock key)) (fun m _ => record_pending_in (e_write_clock m) key error)).
Proof.
  apply good_query. intros m a c issued d x d' _ _ _ _ _ _ Hd Hrun. apply write_ok in Hrun as ->.
  apply db_step_aside; try done. set_solver.
Qed.
Lemma good_committing `{CryptoOps} ring q job : q_type q = "dispatch_job" ->
  item (q_fields q) "job_id" = Ok (JStr job) -> is_uuid job ->
  base_good true _ (Query (Some (JobLock job)) (fun m _ => committing ring q m)).
Proof.
  intros Hty Hid Hu. apply good_query. intros m a c issued d x d' _ _ _ _ _ _ Hd Hrun.
  eapply committing_ok in Hrun as (j & Hq & Hm); [|done..]. one_row.
Qed.
End Handlers.
#[export] Hint Resolve good_mark_failed good_cancel good_charge good_requeue good_fail_receipted good_succeed
  good_finish_receipted good_insert good_record_pending : base_good.

Lemma good_settle_pending b key f :
  base_good b _ (Settle (DeleteLock key) (fun m => write (on_pending (f m)))).
Proof.
  assert (Hrel : forall l, l ≠ DeleteLock key -> forall d, l ∈ d_held d -> l ∈ d_held (unlock (DeleteLock key) d)).
  { intros l Hl d Hin. cbn. by apply list_elem_of_filter. }
  apply base_good_intro. intros s r s' Hb (m & Hrun). cbn in Hrun.
  assert (Hs : forall d, d_assets d = d_assets (st_db s) -> (forall id, job_at id d = job_at id (st_db s)) ->
                 d_held d = d_held (st_db s) -> base (with_db (unlock (DeleteLock key) d) s)
                 /\ base_guar b s (with_db (unlock (DeleteLock key) d) s)).
  { intros d HA HR HL. apply (job_step_good any_entry); try done. cbn. apply db_step_aside; try done; [apply Hb|].
    intros id Hid. apply Hrel; [done|]. by rewrite HL. }
  destruct Hrun as [[_ ->]|[_ [->| ->]]]; by apply Hs.
Qed.
#[export] Hint Resolve good_settle_pending : base_good.
Lemma good_release_delete b key : base_good b _ (Release (DeleteLock key)).
Proof. by apply good_release. Qed.
Lemma good_release_leader l : base_good true _ (Release l).
Proof. by apply good_release. Qed.
#[export] Hint Resolve good_release_delete good_release_leader : base_good.

(** ** Handlers off the dispatch loop *)

Abbreviation base_returns := (returns exec base).
Abbreviation sound := (every base_returns base_good).

Ltac now_step := apply good_now; intros ? ?; cbn; try reflexivity; auto with quiet; quietly; auto with quiet.
Ltac soundly :=
  repeat match goal with
  | |- every _ _ _ (look _ ≫= _) => unfold look at 1
  | |- every _ _ _ (change _ ≫= _) => unfold change at 1
  | |- every _ _ _ (query _ _ ≫= _) => unfold query at 1
  | |- every _ _ _ (inserting _ _ ≫= _) => unfold inserting at 1
  | |- every _ _ _ (call_result (query _ _) ≫= _) => unfold call_result at 1, query at 1
  | |- every _ _ _ (call_result _) => apply every_sequel; [|intros ?; exact I]
  | |- every _ _ _ (look _) => apply every_call
  | |- every _ _ _ (change _) => apply every_call
  | |- every _ _ _ (announce _ _) => apply every_call
  | |- every _ _ _ (push_hint _ _) => apply every_call
  | |- every _ _ _ (query _ _) => apply every_attempt
  | |- every _ _ _ (inserting _ _) => apply every_attempt
  | |- every _ _ _ _ => first [by auto with sound | every_step]
  | |- good _ _ _ _ _ _ (Now _) => now_step
  | |- good _ _ _ _ _ _ _ => by auto with base_good
  end.

Create HintDb sound.
Section Sound.
Context `{Driver}.

Lemma sound_record_pending b key error : sound b (record_pending_delete key error).
Proof. unfold record_pending_delete. soundly. Qed.
Hint Resolve sound_record_pending : sound.
Lemma sound_purge_keys b keys what : sound b (purge_keys keys what).
Proof. unfold purge_keys. soundly. Qed.
Hint Resolve sound_purge_keys : sound.
Lemma sound_retry_one b key : sound b (retry_one_pending_delete key).
Proof. unfold retry_one_pending_delete. soundly. Qed.
Hint Resolve sound_retry_one : sound.
Lemma sound_retry b : sound b retry_pending_deletes.
Proof. unfold retry_pending_deletes. soundly. Qed.
Lemma sound_mark_failed b job reason expected : sound b (mark_failed job reason expected).
Proof. unfold mark_failed. soundly. Qed.
Hint Resolve sound_mark_failed : sound.
Lemma sound_purge_attempt b user job attempt : sound b (purge_attempt_blobs user job attempt).
Proof. unfold purge_attempt_blobs. soundly. Qed.
Hint Resolve sound_purge_attempt : sound.
Lemma sound_cleanup b h : sound false h -> sound b (schedule_blob_cleanup h).
Proof. intros Hh. unfold schedule_blob_cleanup. split; [|exact I]. by apply every_forget. Qed.
Lemma sound_cleanup_keys b keys what : sound b (schedule_blob_cleanup (purge_keys keys what)).
Proof. apply sound_cleanup, sound_purge_keys. Qed.
Hint Resolve sound_cleanup_keys : sound.
Lemma sound_requeue job reason : sound true (requeue_or_fail job reason).
Proof. unfold requeue_or_fail. soundly. Qed.
Hint Resolve sound_requeue : sound.
Lemma sound_cancel b job reason : sound b (cancel job reason).
Proof. unfold cancel, ask_worker_to_stop. soundly. Qed.
Lemma sound_tracking b w job sequence token : sound b (track_dispatched_command w job sequence token).
Proof. unfold track_dispatched_command. soundly. Qed.
Lemma sound_recover_lost n : sound true (recover_lost n).
Proof. induction n; cbn [recover_lost]; soundly. Qed.
Lemma sound_sweep : sound true sweep_stalled_jobs.
Proof. unfold sweep_stalled_jobs. soundly. Qed.
Lemma sound_give_up b job w current e what : sound b (fail_entry job w current e what).
Proof. unfold fail_entry. soundly. Qed.
Hint Resolve sound_give_up : sound.
Lemma sound_fail_attempt b job reason w current e what : sound b (fail_attempt job reason w current e what).
Proof. unfold fail_attempt. soundly. Qed.
Hint Resolve sound_fail_attempt : sound.
Lemma sound_promote_output b e library thumb : sound b (promote_output e library thumb).
Proof. unfold promote_output. soundly. Qed.
Hint Resolve sound_promote_output : sound.
Lemma sound_commit_output b url job w current e control full thumb promoted :
  sound b (commit_output url job w current e control full thumb promoted).
Proof. unfold commit_output. soundly. Qed.
Hint Resolve sound_commit_output : sound.
Lemma sound_job_done b url job w current e control : sound b (job_done url job w current e control).
Proof. unfold job_done, still_current. soundly. Qed.
Hint Resolve sound_job_done : sound.
Lemma sound_report b py_str url w control : sound b (on_worker_message py_str url w control).
Proof. unfold on_worker_message, job_failed, job_cancelled. soundly. Qed.
Lemma sound_fail_receipted b job n state reason : sound b (fail_receipted job n state reason).
Proof. unfold fail_receipted. soundly. Qed.
Hint Resolve sound_fail_receipted : sound.
Lemma sound_finish_receipted b url job n : sound b (finish_receipted url job n).
Proof. unfold finish_receipted. soundly. Qed.
Hint Resolve sound_finish_receipted : sound.
Lemma sound_cut {A} b (late : A) (p : prog op A) : sound b p -> sound b (cut_short late p).
Proof.
  revert b late. induction p as [A a|A X o k IH|A t _ k IH]; intros b late; cbn; [done| |].
  - intros [Ho Hk]. split; [apply good_deadline|]. intros [] _; cbn; [done|]. split; [done|]. intros x Hx. by apply IH, Hk.
  - intros [Ht Hk]. split; [done|by apply IH].
Qed.
Lemma sound_bounded {A} b (h : handler A) : sound b h -> sound b (bounded h).
Proof. apply sound_cut. Qed.
Lemma sound_receipted b url job : sound b (recover_receipted_attempt url job).
Proof. unfold recover_receipted_attempt. soundly. Qed.
Hint Resolve sound_bounded sound_receipted : sound.
Lemma sound_recover url : sound true (recover url).
Proof. unfold recover, recover_or_requeue. soundly. Qed.
Lemma sound_submit b user model params source : is_uuid user -> sound b (submit_job user model params source).
Proof. intros Hu. unfold submit_job. soundly. Qed.
End Sound.

(** ** The dispatch loop *)

Section Dispatch.
Context `{Driver} `{CryptoOps}.
Variable ring : result exn key_ring.

Lemma sound_prepare job w k nonce epoch : is_uuid job -> sound true (prepare_protocol6 ring job w k nonce epoch).
Proof.
  intros Hu. unfold prepare_protocol6. soundly; try (by apply (good_committing _ _ job)).
Qed.
Lemma sound_dispatch6 job w epoch : is_uuid job -> sound true (dispatch_protocol6 ring job w epoch).
Proof.
  intros Hu. pose proof sound_prepare. unfold dispatch_protocol6. soundly.
Qed.
End Dispatch.

(** An operation that leaves the tables alone. *)
Definition tranquil (b : bool) X (o : op X) : Prop := forall s x s', exec b X o s x s' -> st_db s' = st_db s.

Ltac tranquil_op :=
  intros ? ? ?; cbn;
  repeat match goal with
  | |- _ -> _ => intro
  | H : _ /\ _ |- _ => destruct H
  | H : _ \/ _ |- _ => destruct H
  | H : ex _ |- _ => destruct H
  | H : match ?x with _ => _ end |- _ => destruct x
  end; by subst.
Lemma tranquil_read b X need (f : moment -> db -> X) : tranquil b _ (Query need (fun m _ => read (f m))).
Proof.
  intros s r s' (m & a & c & _ & _ & _ & _ & _ & _ & Hrun). cbn in Hrun.
  destruct Hrun as [[_ ->]|[_ [->| ->]]]; done.
Qed.
Lemma tranquil_remove b why key : tranquil b _ (Remove why key).
Proof.
  intros s r s'. cbn. unfold asked_to_remove. destruct (names_superseded why); intros [[_ ->]|[_ [->| ->]]]; done.
Qed.
Ltac tranquilly :=
  repeat match goal with
  | |- every _ _ _ (look _) => apply every_call
  | |- every _ _ _ (change _) => apply every_call
  | |- every _ _ _ (query _ _) => apply every_attempt
  | |- every _ _ _ _ => every_step
  | |- tranquil _ _ (Query _ _) => apply tranquil_read
  | |- tranquil _ _ _ => tranquil_op
  end.

Lemma tranquil_dispatch_held job j epoch : every base_returns tranquil true (dispatch_held job j epoch).
Proof. unfold dispatch_held. tranquilly. Qed.
Lemma sound_dispatch_held job j epoch : sound true (dispatch_held job j epoch).
Proof. unfold dispatch_held. soundly. Qed.

Abbreviation base_upholds := (upholds exec base base_rely base_guar no_charge).

Lemma sound_upholds {A} b D (p : prog op A) K s : sound b p -> base_upholds b D p K (fun _ _ => True) s.
Proof.
  intros Hp. eapply upholds_impl; [..|apply (every_upholds _ _ _ _ _ b p (fun _ => True) (fun _ => False) s)]; auto.
  - intros [].
  - intros [].
  - eapply every_impl; [|exact Hp]. intros b' X o Ho. by split.
Qed.

(** While the loop holds the lock of a job, the row is its own. *)
Definition row_held (job : string) (row : option job_row) (s : studio) : Prop :=
  held job s /\ forall j, row = Some j -> jobs_row job s = Some j.
Lemma row_held_stable job row s s' : base_rely true s s' -> row_held job row s -> row_held job row s'.
Proof.
  intros [_ Hc] [Hh Hr]. destruct (dc_held _ _ _ (Hc eq_refl) job Hh) as [Hh' Hrow]. split; [done|].
  intros j Hj. by apply Hrow, Hr.
Qed.

Lemma settle_step job f j s r s' :
  base s -> row_held job (Some j) s -> jb_state j = queued -> (forall m, row_le j (f m j)) ->
  (forall m, jr_attempt (jb_run (f m j)) = jr_attempt (jb_run j)) ->
  runs_settle (JobLock job) (fun m => write (set_job job (f m))) s r s' -> base s' /\ base_guar true s s'.
Proof.
  intros Hb [_ Hrow] Hq Hle Hat (m & Hrun). specialize (Hrow _ eq_refl).
  pose proof (base_attempt _ _ _ _ (proj1 Hb) Hrow) as Hatt. rewrite <- (Hat m) in Hatt.
  assert (Hun : forall d, db_step true (st_issued s) (st_issued s) (st_db s) d ->
                base (with_db (unlock (JobLock job) d) s) /\ base_guar true s (with_db (unlock (JobLock job) d) s)).
  { intros d ([R A O U] & [R1 A1] & _). by apply (job_step_good any_entry). }
  assert (Hset : db_step true (st_issued s) (st_issued s) (st_db s) (set_job job (f m) (st_db s))).
  { eapply moves_step; [done|apply Hb|apply (moves_set_job _ _ _ _ _ Hrow); reflexivity|done|done|done]. }
  assert (Hsame : db_step true (st_issued s) (st_issued s) (st_db s) (st_db s)) by (apply db_step_same; [done|apply Hb]).
  cbn in Hrun. destruct Hrun as [[_ ->]|[_ [->| ->]]]; by apply Hun.
Qed.

Section DispatchLoop.
Context `{Driver} `{CryptoOps}.
Variable ring : result exn key_ring.
Let D : Empty_set -> Prop := fun _ => False.
Let K {A} : Empty_set -> A -> studio -> Prop := fun _ _ _ => False.

Lemma settle_then job f j epoch ev s :
  row_held job (Some j) s -> jb_state j = queued -> (forall m, row_le j (f m j)) ->
  (forall m, jr_attempt (jb_run (f m j)) = jr_attempt (jb_run j)) ->
  base_upholds true D
    (attempt (Settle (JobLock job) (fun m => write (set_job job (f m)))) ≫= fun _ => announce job ev ≫= fun _ => mret epoch)
    (@K (result exn bool)) (fun _ _ => True) s.
Proof.
  intros Hrow Hq Hle Hat. eapply (upholds_sequel _ _ _ _ _ _ _ _ _ K (fun _ _ => True)).
  - intros s1 r s2 Hr HI He. apply (row_held_stable _ _ _ _ Hr) in Hrow.
    destruct (settle_step _ _ _ _ _ _ HI Hrow Hq Hle Hat He) as [HI2 Hg]. split; [done|]. split; [done|].
    exists D. by split; [intros []|].
  - intros [u|e] t _; [|by split]. apply sound_upholds. soundly.
Qed.

Lemma dispatch5_safe job epoch s : base_upholds true D (dispatch5 job epoch) (@K _) (fun _ _ => True) s.
Proof.
  intros s1 row s2 _ HI He. destruct (good_hold true _ _ _ _ _ _ HI He) as (HI2 & Hg & _).
  split; [done|]. split; [done|]. exists D. split; [intros []|].
  destruct row as [row|e]; [|by split].
  assert (Hrow : row_held job row s2).
  { destruct He as (_ & [(m & Hr & ->)|[[msg Hr] _]]); [|done]. injection Hr as ->. split; [by left|done]. }
  clear He Hg HI HI2 s1. rename s2 into t.
  eapply (upholds_sequel _ _ _ _ _ _ _ _ _ (@K _)
            (fun r t => match r with
                        | Ok (SourceGone | Sent) => exists j, row = Some j /\ jb_state j = queued /\ row_held job (Some j) t
                        | _ => True end)).
  - eapply (upholds_sequel _ _ _ _ _ _ _ _ _ (@K _)
              (fun r t => match r with
                          | Ok (SourceGone | Sent) => exists j, row = Some j /\ jb_state j = queued /\ row_held job (Some j) t
                          | _ => True end)).
    + destruct row as [j|]; [|by split]. case_decide as Hq; [|by split].
      eapply upholds_impl; [..|apply (every_upholds _ _ _ _ _ true (dispatch_held job j epoch) (row_held job (Some j)) D)];
        [done|intros []| |apply row_held_stable| |exact Hrow].
      * cbn. intros [[]|] t' Ht'; try done; by exists j.
      * apply every_and; [apply sound_dispatch_held|]. eapply every_impl; [|apply tranquil_dispatch_held].
        intros b X o Ho u x u' _ [Hh Hj] Hx. apply Ho in Hx. unfold row_held, held, jobs_row in *. by rewrite Hx.
    + intros [o|e] t'.
      * destruct o; cbn; by split.
      * intros _ s1 u s2' Hr HI He. destruct (good_release_leader _ _ _ _ HI He) as (? & ? & _).
        split; [done|]. split; [done|]. exists D. by split; [intros []|].
  - intros [o|e] t' Ho; [|by split]. destruct o as [b| |].
    + apply sound_upholds. soundly.
    + destruct Ho as (j & _ & Hq & Hh). eapply (settle_then job _ j); [done|done|..]; [|done].
      intros m. split; cbn; try done; try lia; by rewrite Hq.
    + destruct Ho as (j & _ & Hq & Hh). eapply (settle_then job _ j); [done|done|..]; [|done].
      intros m. auto with base_good.
Qed.
Let any {A} : A -> studio -> Prop := fun _ _ => True.

Lemma safe_bind {A B} b (h : handler A) (f : A -> handler B) s :
  (base_upholds b D h (@K _) any s) -> (forall a t, base_upholds b D (f a) (@K _) any t) ->
  base_upholds b D (h ≫= f) (@K _) any s.
Proof.
  intros Hh Hf. eapply (upholds_sequel _ _ _ _ _ _ _ _ _ (@K _) any); [exact Hh|].
  intros [a|e] t _; [apply Hf|by split].
Qed.

Lemma known_job job s :
  base_upholds true D (query None (fun _ => read (job_at job))) (@K _)
    (fun r _ => match r with Ok (Some _) => is_uuid job | _ => True end) s.
Proof.
  intros s1 r s2 Hr HI He. destruct (good_read _ _ _ _ _ _ _ HI He) as (HI2 & Hg & _). split; [done|]. split; [done|].
  exists D. split; [intros []|]. split; [|intros []].
  destruct He as (m & a & c & _ & _ & _ & _ & _ & _ & Hrun). cbn in Hrun.
  destruct r as [[j|]|e]; [|done..]. destruct Hrun as [[Hj _]|[[msg Hj] _]]; [|done]. injection Hj as Hj.
  symmetry in Hj. by apply (db_rows _ _ (proj1 HI)) in Hj as (_ & ? & _).
Qed.

Lemma dispatch_safe job s : base_upholds true D (dispatch ring job) (@K _) any s.
Proof.
  unfold dispatch. apply safe_bind; [apply sound_upholds; soundly|]. intros epoch t.
  eapply (upholds_sequel _ _ _ _ _ _ _ _ _ (@K _)); [apply known_job|].
  intros [[j|]|e] t' Hu; [|by split..]. cbn in Hu. apply safe_bind; [apply sound_upholds; soundly|].
  intros [[w protocol]|] t''; [|by split]. case_match; [apply sound_upholds, sound_dispatch6, Hu|apply dispatch5_safe].
Qed.

Lemma dispatch_pass_safe n : forall skipped s, base_upholds true D (dispatch_pass ring n skipped) (@K _) any s.
Proof.
  induction n as [|n IH]; intros skipped s; cbn [dispatch_pass]; [apply sound_upholds; soundly|].
  apply safe_bind; [apply sound_upholds; soundly|]. intros [h|] t; [|apply sound_upholds; soundly].
  apply safe_bind.
  - eapply (upholds_sequel _ _ _ _ _ _ _ _ _ (@K _) any); [apply dispatch_safe|]. intros r t' _. by split.
  - intros [[]|e] t'; [apply IH..|]. apply sound_upholds. soundly.
Qed.

Lemma dispatch_step_safe n s : base_upholds true D (dispatch_step ring n) (@K _) any s.
Proof.
  pose proof sound_recover_lost. pose proof sound_sweep.
  unfold dispatch_step, dispatch_step_body. apply safe_bind; [apply sound_upholds; soundly|].
  intros [] t; [|by split]. eapply (upholds_sequel _ _ _ _ _ _ _ _ _ (@K _) any).
  - apply safe_bind; [apply sound_upholds; soundly|]. intros [] t'; [|by split].
    apply safe_bind; [apply sound_upholds; soundly|]. intros k t''.
    apply safe_bind; [apply sound_upholds; soundly|]. intros ? ?.
    apply safe_bind; [apply sound_upholds; soundly|]. intros ? ?. apply dispatch_pass_safe.
  - intros r t' _. apply sound_upholds. apply every_sequel; [soundly|]. intros _. exact I.
Qed.

End DispatchLoop.

(** ** The invariant in every run *)

Lemma outside_base b s s' : outside s s' -> base s -> base s' /\ base_rely b s s'.
Proof.
  intros Ho Hb. assert (Hg : forall b, base s' /\ base_guar b s s'); [|destruct (Hg false) as (? & ? & Hc); split; [done|]; split; [done|]; intros _; by apply Hc].
  clear b. intros b. destruct Ho as [s key token i Hup|s p (He & Hi & _ & _ & Hep)|s d (HR & HA & _ & HL)
    |s s' keys gone owed (_ & _ & ->)|s ids d (Hids & HR & HA & _ & HL)|s id a Hj Hn Hu|s key i Hk].
  - by apply (same_db_good any_entry).
  - apply (same_db_good any_entry); try done. cbn. split; [unfold entries_named; by rewrite Hi, He| |done|].
    + intros h e Hh. rewrite He. exists e. split; [done|apply same_entry_refl].
    + intros _ job h e [Hj Hh]. rewrite Hi in Hj. rewrite He in Hh. exists e. split; [apply same_entry_refl|].
      left. by exists h.
  - apply (job_step_good any_entry); try done. cbn. apply db_step_aside; try done; [apply Hb|intros id; unfold job_at; by rewrite HR|].
    intros id. cbn. by rewrite HL.
  - apply (job_step_good any_entry); try done; [cbn; set_solver|]. cbn. apply db_step_aside; try done. apply Hb.
  - apply (job_step_good any_entry); try done. cbn. destruct Hb as [[R A O U] _].
    assert (Hrow : forall id r, job_at id d = Some r -> job_at id (st_db s) = Some r /\ ~ (id ∈ ids)).
    { intros id r Hr. rewrite HR in Hr. by case_decide. }
    split; [split|split].
    + intros id r Hr. apply Hrow in Hr as [Hr _]. by apply R.
    + intros aid a Ha. apply HA in Ha as [Ha _]. by eapply A.
    + intros aid a id Ha Hjob. apply HA in Ha as [Ha Hout]. destruct (O _ _ _ Ha Hjob) as ((r & Hr & Hs) & Hm).
      split; [|done]. exists r. split; [|done]. rewrite HR, decide_False by (by apply Hout). done.
    + intros aid aid' a a' id Ha Ha' Hj Hj' Hm. apply HA in Ha as [Ha _], Ha' as [Ha' _]. by eapply U.
    + split.
      * intros id r Hr. apply Hrow in Hr as [Hr _]. right. exists r. split; [done|reflexivity].
      * intros aid a Ha. apply HA in Ha as [Ha _]. right. eauto.
    + intros _. split.
      * intros id Hid. rewrite HL. split; [done|]. intros r Hr. rewrite HR, decide_False; [done|].
        intros Hin. by apply (Hids id).
      * intros id r Hr _. apply Hrow in Hr as [Hr _]. right. eauto.
  - apply (job_step_good any_entry); try done; [cbn; set_solver|]. cbn. destruct Hb as [[R A O U] _].
    assert (Hold : forall aid x, <[id := a]> (d_assets (st_db s)) !! aid = Some x -> is_Some (as_job x) ->
                   d_assets (st_db s) !! aid = Some x).
    { intros aid x Hx [y Hy]. apply lookup_insert_Some in Hx as [[_ <-]|[_ Hx]]; [congruence|done]. }
    split; [split|split].
    + intros id' r Hr. destruct (R _ _ Hr). split; [set_solver|done].
    + intros aid x Hx. cbn in Hx. apply lookup_insert_Some in Hx as [[<- _]|[_ Hx]]; [set_solver|].
      apply A in Hx. set_solver.
    + intros aid x id' Hx Hjob. by apply (O aid x id'); [apply Hold; [done|by eexists]|].
    + intros aid aid' x x' id' Hx Hx' Hjx Hjx' Hm.
      eapply U; [apply Hold; [exact Hx|by eexists]|apply Hold; [exact Hx'|by eexists]|done..].
    + split.
      * intros id' r Hr. right. exists r. split; [done|reflexivity].
      * intros aid x Hx. cbn in Hx. apply lookup_insert_Some in Hx as [[<- _]|[_ Hx]]; [by left|right; eauto].
    + intros _. split; [done|]. intros id' r Hr _. right. eauto.
  - by apply (same_db_good any_entry).
Qed.

Section System.
Context `{Driver} `{CryptoOps}.
Variable ring : result exn key_ring.
Variable py_str : json -> string.
Variable public_url : string.
Variable serving : bool.
Abbreviation base_ok := (pool_ok exec base base_rely base_guar no_charge).
Abbreviation seen_step := (pool_step (seen_exec exec base base_guar)
  (seen_starts (starts ring py_str public_url serving) base) (seen_outside outside base base_rely)).

Lemma starts_base b s p : starts ring py_str public_url serving b s p -> task_safe exec base base_rely base_guar no_charge b p s.
Proof.
  intros Hs. eapply (upholds_safe _ _ _ _ _ _ (fun _ => False)).
  destruct Hs; [|apply sound_upholds, every_forget..].
  - eapply (upholds_sequel _ _ _ _ _ _ _ _ _ (fun _ _ _ => False)); [apply dispatch_step_safe|]. intros r t _. by split.
  - apply sound_recover.
  - apply sound_report.
  - soundly. etransitivity; [apply forget_worker_quiet|apply worker_lost_quiet].
  - apply sound_tracking.
  - apply sound_cancel.
  - by apply sound_submit.
  - apply sound_retry.
Qed.

#[export] Instance base_interference :
  Interference exec (starts ring py_str public_url serving) outside base base_rely base_guar no_charge.
Proof.
  split.
  - apply _.
  - intros s s' [Hm _]. by split.
  - intros b b' s s' Hb [Hm Hc]. split; [done|]. intros ->. destruct b; [tauto|by apply Hc].
  - intros s s' [Hm _]. by split.
  - intros b s s' Ho HI. by apply outside_base.
  - intros s s' Ho HI. destruct (outside_base false _ _ Ho HI). split; [done|]. intros [].
  - intros b s p Hs _. by apply starts_base.
Qed.

(** From an empty process on a sound database. *)
Lemma base_ok_start s : base s -> base_ok s [].
Proof. intros Hb. split; [done|constructor|cbn; lia]. Qed.

Lemma seen_base (a b : studio * pool) : rtc seen_step a b -> base a.1 -> base b.1 /\ mono a.1 b.1.
Proof.
  intros Hab. induction Hab as [x|x y z Hxy _ IH]; [intros Hx; split; [done|reflexivity]|]. intros Hx.
  assert (Hy : base y.1 /\ mono x.1 y.1).
  { destruct Hxy as [? ? ? ? ? ? ? ? ? (_ & _ & ? & ? & _)| | | |? ? ? (_ & _ & ? & Hr)]; cbn in *;
      try (by split); try (split; [done|reflexivity]). split; [done|apply (Hr true)]. }
  destruct (IH (proj1 Hy)) as [? ?]. split; [done|]. etransitivity; [apply Hy|done].
Qed.
(** Whatever tasks are under way. *)
Lemma system_goes_on s l s' l' : base_ok s l -> system_run ring py_str public_url serving (s, l) (s', l') ->
  rtc seen_step (s, l) (s', l') /\ base s' /\ mono s s'.
Proof.
  intros Hok Hrun. assert (Hs : rtc seen_step (s, l) (s', l')).
  { eapply pool_seen; [apply base_interference|exact Hrun|exact Hok]. }
  split; [done|]. apply (seen_base _ _ Hs). by destruct Hok.
Qed.
Lemma system_ok s s' l : base s -> system_run ring py_str public_url serving (s, []) (s', l) -> base_ok s' l.
Proof.
  intros Hb Hrun. eapply pool_safe; [apply base_interference|exact Hrun|by apply base_ok_start].
Qed.
Lemma system_seen s s' l : base s -> system_run ring py_str public_url serving (s, []) (s', l) ->
  rtc seen_step (s, []) (s', l) /\ base s' /\ mono s s'.
Proof. intros Hb. by apply system_goes_on, base_ok_start. Qed.
End System.
