(* ===== verification/JobObjects.v ===== *)
(** * The objects behind the assets of jobs

    A purge removes keys no asset names and none will: [doomed].  Every other
    key with an object keeps it, so the asset rows the jobs leave have their
    objects; the exceptions are the purges [st_forfeited] tells of. *)

From S2P Require Import Prelude PyFloat Hashes Json JsonFacts Protocol6 Uuid ODict PyInt KeyRing Transactions AccountStore CommandTables CommandSubjects CommandStore CommandFacts Tasks JobTables Jobs JobSystem JobFacts JobBase.
Open Scope Z_scope.

(** ** The keys of a job's objects

    Keys are made of ids of a fixed shape, so a key tells its user, job and
    attempt, and no upload waiting for the library has a key of the library. *)

Lemma append_inj (s s' t t' : string) : String.length s = String.length s' -> s +:+ t = s' +:+ t' -> s = s' /\ t = t'.
Proof.
  revert s'. induction s as [|c s IH]; intros [|c' s'] Hl Happ; try discriminate Hl; [done|].
  injection Hl as Hl. cbn in Happ. injection Happ as -> Happ. by destruct (IH s' Hl Happ) as [-> ->].
Qed.

Lemma hex_digit_not_i y : 0 <= y < 16 -> hex_digit y ≠ "i"%char.
Proof.
  intros Hy. assert (Hin : y ∈ seqZ 0 16) by (apply elem_of_seqZ; lia). cbv in Hin.
  repeat (apply elem_of_cons in Hin as [->|Hin]; [by vm_compute|]). by apply elem_of_nil in Hin.
Qed.

Lemma uuid_string_shape n : String.length (uuid_string n) = 36%nat
  /\ exists x y rest, 0 <= y < 16 /\ uuid_string n = String.String x (String.String (hex_digit y) rest).
Proof.
  unfold uuid_string. remember (be_bytes 16 n) as l eqn:El.
  assert (Hl : exists l', l = Z.land (Z.shiftr n (8 * 15)) 255 :: l' /\ length l' = 15%nat) by (subst; by eexists).
  destruct Hl as (l' & -> & Hlen). clear El. do 15 (destruct l' as [|? l']; [done|]). destruct l'; [|done].
  split; [reflexivity|]. eexists _, _, _. split; [|cbn; reflexivity]. apply Z.mod_pos_bound. lia.
Qed.

Lemma is_uuid_string s : is_uuid s -> exists n, s = uuid_string n.
Proof.
  unfold is_uuid, parse_uuid. intros Hs. repeat case_match; try discriminate Hs. injection Hs as Hs. by eexists.
Qed.
Lemma is_uuid_length s : is_uuid s -> String.length s = 36%nat.
Proof. intros [n ->]%is_uuid_string. apply uuid_string_shape. Qed.

Definition an_attempt (a : Z) : Prop := a = 1 \/ a = 2.

Lemma storage_key_inj user job attempt user' job' attempt' key :
  is_uuid user -> is_uuid job -> an_attempt attempt -> is_uuid user' -> is_uuid job' -> an_attempt attempt' ->
  key ∈ pair_list (storage_keys_for_attempt user job attempt) ->
  key ∈ pair_list (storage_keys_for_attempt user' job' attempt') ->
  user = user' /\ job = job' /\ attempt = attempt'.
Proof.
  intros Hu Hj Ha Hu' Hj' Ha' Hk Hk'.
  assert (Hform : forall u j a k, k ∈ pair_list (storage_keys_for_attempt u j a) ->
            exists suffix, (suffix = ".png" \/ suffix = "-thumb.webp")
            /\ k = u +:+ "/" +:+ j +:+ "-attempt-" +:+ dec_string a +:+ suffix).
  { intros u j a k Hin. unfold storage_keys_for_attempt, pair_list in Hin. cbn [fst snd] in Hin.
    apply elem_of_cons in Hin as [->|Hin]; [exists ".png"|apply list_elem_of_singleton in Hin as ->; exists "-thumb.webp"];
      (split; [auto|]); rewrite !append_assoc; done. }
  destruct (Hform _ _ _ _ Hk) as (x & Hx & ->). destruct (Hform _ _ _ _ Hk') as (y & Hy & E).
  apply append_inj in E as [-> E]; [|by rewrite (is_uuid_length user), (is_uuid_length user')].
  apply append_inj in E as [_ E]; [|done].
  apply append_inj in E as [-> E]; [|by rewrite (is_uuid_length job), (is_uuid_length job')].
  split; [done|]. split; [done|].
  destruct Ha as [->| ->], Ha' as [->| ->], Hx as [->| ->], Hy as [->| ->]; try done; by vm_compute in E.
Qed.

Lemma dispatch_key_not_storage user job attempt user' job' attempt' key :
  is_uuid user' ->
  key ∈ pair_list (dispatch_keys_for_attempt user job attempt) ->
  ~ (key ∈ pair_list (storage_keys_for_attempt user' job' attempt')).
Proof.
  intros Hu Hk Hk'. apply is_uuid_string in Hu as [n ->].
  destruct (uuid_string_shape n) as (_ & x & y & rest & Hy & E).
  assert (exists r, key = String.String "d" (String.String "i" r)) as [r ->].
  { unfold dispatch_keys_for_attempt, pair_list in Hk. cbn [fst snd] in Hk.
    apply elem_of_cons in Hk as [->|Hk]; [|apply list_elem_of_singleton in Hk as ->]; by eexists. }
  unfold storage_keys_for_attempt, pair_list in Hk'. cbn [fst snd] in Hk'. rewrite E in Hk'.
  pose proof (hex_digit_not_i y Hy).
  apply elem_of_cons in Hk' as [Hk'|Hk']; [|apply list_elem_of_singleton in Hk'];
    rewrite !append_cons in Hk'; injection Hk' as _ Hi _; done.
Qed.

(** ** Assertions every step keeps *)

Definition library_key (key user job : string) (attempt : Z) : Prop :=
  is_uuid user /\ is_uuid job /\ an_attempt attempt /\ key ∈ pair_list (storage_keys_for_attempt user job attempt).
Definition open_for (job : string) (attempt : Z) (s : studio) : Prop :=
  exists r, jobs_row job s = Some r /\ terminal (jb_state r) = false /\ jr_attempt (jb_run r) <= attempt.
(** An asset a job made has the key. *)
Definition named (key : string) (s : studio) : Prop :=
  exists aid a, d_assets (st_db s) !! aid = Some a /\ is_Some (as_job a) /\ as_key a = key.
(** No such asset has the key and no transaction will insert one. *)
Definition doomed (key : string) (s : studio) : Prop :=
  ~ named key s /\ forall user job attempt, library_key key user job attempt ->
    job ∈ st_issued s /\ ~ open_for job attempt s.
Definition secure (key : string) (s : studio) : Prop :=
  is_Some (st_blobs s !! key) \/ key ∈ st_forfeited s \/ doomed key s.

(** An entry in flight, by the job's row. *)
Definition attempt_of (user job : string) (attempt : Z) (s : studio) : Prop :=
  is_uuid user /\ is_uuid job /\ an_attempt attempt /\ job ∈ st_issued s
  /\ forall r, jobs_row job s = Some r -> attempt <= jr_attempt (jb_run r).

Record objects (s : studio) : Prop := {
  ob_keys : forall aid a job, d_assets (st_db s) !! aid = Some a -> as_job a = Some job ->
    exists user attempt, library_key (as_key a) user job attempt
    /\ forall r, jobs_row job s = Some r -> jr_attempt (jb_run r) <= attempt;
  ob_named : forall key, named key s -> is_Some (st_blobs s !! key) \/ key ∈ st_forfeited s;
  ob_pending : forall key r, d_pending (st_db s) !! key = Some r -> doomed key s \/ key ∈ st_forfeited s;
  ob_entries : forall job h e, od_get job (p_inflight (st_proc s)) = Some h -> p_entries (st_proc s) !! h = Some e ->
    attempt_of (f_user e) job (f_attempt e) s
}.

(** How a step may change the objects: [mono], what is doomed stays so, and
    what is secure stays so. *)
Record later (s s' : studio) : Prop := {
  la_mono : mono s s';
  la_doomed : forall key, doomed key s -> doomed key s';
  la_secure : forall key, secure key s -> secure key s'
}.
Global Instance later_preorder : PreOrder later.
Proof.
  split; [intros s; by split|]. intros a b c [M1 D1 S1] [M2 D2 S2]. split; [by etransitivity|auto..].
Qed.

Definition stable (P : studio -> Prop) : Prop := forall s s', later s s' -> P s -> P s'.

Lemma stable_pure (P : Prop) : stable (fun _ => P).
Proof. by intros s s' _. Qed.
Lemma stable_and P Q : stable P -> stable Q -> stable (fun s => P s /\ Q s).
Proof. intros HP HQ s s' H [? ?]. split; eauto. Qed.
Lemma stable_or P Q : stable P -> stable Q -> stable (fun s => P s \/ Q s).
Proof. intros HP HQ s s' H [?|?]; [left|right]; eauto. Qed.
Lemma stable_impl (A : Prop) P : stable P -> stable (fun s => A -> P s).
Proof. intros HP s s' H Hs Ha. eapply HP; eauto. Qed.
Lemma stable_forall {A} (P : A -> studio -> Prop) : (forall a, stable (P a)) -> stable (fun s => forall a, P a s).
Proof. intros HP s s' H Hs a. eapply HP; eauto. Qed.
Lemma stable_doomed key : stable (doomed key).
Proof. intros s s' H. apply (la_doomed _ _ H). Qed.
Lemma stable_secure key : stable (secure key).
Proof. intros s s' H. apply (la_secure _ _ H). Qed.
Lemma stable_forfeited key : stable (fun s => key ∈ st_forfeited s).
Proof. intros s s' H. apply (mo_forfeited _ _ (la_mono _ _ H)). Qed.
Lemma stable_issued id : stable (fun s => id ∈ st_issued s).
Proof. intros s s' H. apply (mo_issued _ _ (la_mono _ _ H)). Qed.

(** A row that was there when the id was drawn comes from the row before. *)
Lemma mono_row s s' id r' : mono s s' -> id ∈ st_issued s -> jobs_row id s' = Some r' ->
  exists r, jobs_row id s = Some r /\ row_le r r'.
Proof. intros Hm Hi Hr. destruct (dl_rows _ _ _ (mo_db _ _ Hm) _ _ Hr) as [?|?]; [done|done]. Qed.

Lemma open_mono s s' job attempt : mono s s' -> job ∈ st_issued s -> open_for job attempt s' -> open_for job attempt s.
Proof.
  intros Hm Hi (r' & Hr' & Ht & Ha). destruct (mono_row _ _ _ _ Hm Hi Hr') as (r & Hr & Hle).
  exists r. split; [done|]. pose proof (rl_attempt _ _ Hle). split; [|lia].
  destruct (terminal (jb_state r)) eqn:E; [|done]. destruct (rl_final _ _ Hle E) as (Hs & _). congruence.
Qed.
Lemma stable_attempt user job attempt : stable (attempt_of user job attempt).
Proof.
  intros s s' H (Hu & Hj & Ha & Hi & Hr). pose proof (la_mono _ _ H) as Hm. split; [done|]. split; [done|]. split; [done|].
  split; [by apply (mo_issued _ _ Hm)|]. intros r' Hr'. destruct (mono_row _ _ _ _ Hm Hi Hr') as (r & Hr0 & Hle).
  pose proof (rl_attempt _ _ Hle). specialize (Hr _ Hr0). lia.
Qed.
Create HintDb stable.
#[export] Hint Resolve stable_pure stable_impl stable_and stable_or stable_forall stable_doomed stable_secure stable_forfeited
  stable_issued stable_attempt : stable.

(** The attempt is over: the job went on without it. *)
Definition closed (job : string) (attempt : Z) (s : studio) : Prop :=
  job ∈ st_issued s /\ forall r, jobs_row job s = Some r ->
    attempt < jr_attempt (jb_run r) \/ jb_state r = failed \/ jb_state r = cancelled.
Lemma stable_closed job attempt : stable (closed job attempt).
Proof.
  intros s s' H [Hi Hr]. pose proof (la_mono _ _ H) as Hm. split; [by apply (mo_issued _ _ Hm)|].
  intros r' Hr'. destruct (mono_row _ _ _ _ Hm Hi Hr') as (r & Hr0 & Hle).
  pose proof (rl_attempt _ _ Hle). destruct (Hr _ Hr0) as [Hlt|Hst]; [left; lia|right].
  destruct (rl_final _ _ Hle) as (-> & _); [|done]. apply terminal_spec. tauto.
Qed.
#[export] Hint Resolve stable_closed : stable.

Lemma closed_doomed s key user job attempt : base s -> objects s -> library_key key user job attempt ->
  closed job attempt s -> doomed key s.
Proof.
  intros [Hb _] Ho (Hu & Hj & Ha & Hk) [Hi Hr]. split.
  - intros (aid & a & Has & [job' Hjob] & <-).
    destruct (ob_keys _ Ho _ _ _ Has Hjob) as (u' & a' & (Hu' & Hj' & Ha' & Hk') & Hle).
    destruct (storage_key_inj _ _ _ _ _ _ _ Hu Hj Ha Hu' Hj' Ha' Hk Hk') as (<- & <- & <-).
    destruct (db_outputs _ _ Hb _ _ _ Has Hjob) as ((r & Hrow & Hs) & _).
    specialize (Hle _ Hrow). destruct (Hr _ Hrow) as [?|[?|?]]; [lia|congruence..].
  - intros u' job' a' (Hu' & Hj' & Ha' & Hk').
    destruct (storage_key_inj _ _ _ _ _ _ _ Hu Hj Ha Hu' Hj' Ha' Hk Hk') as (<- & <- & <-).
    split; [done|]. intros (r & Hrow & Ht & Hle). destruct (Hr _ Hrow) as [?|Hst]; [lia|].
    assert (terminal (jb_state r) = true) by (apply terminal_spec; tauto). congruence.
Qed.

Lemma dispatch_doomed s key user job attempt : objects s ->
  key ∈ pair_list (dispatch_keys_for_attempt user job attempt) -> doomed key s.
Proof.
  intros Ho Hk. split.
  - intros (aid & a & Has & [job' Hjob] & <-).
    destruct (ob_keys _ Ho _ _ _ Has Hjob) as (u' & a' & (Hu' & Hj' & Ha' & Hk') & _).
    exact (dispatch_key_not_storage _ _ _ _ _ _ _ Hu' Hk Hk').
  - intros u' job' a' (Hu' & Hj' & Ha' & Hk'). exfalso.
    exact (dispatch_key_not_storage _ _ _ _ _ _ _ Hu' Hk Hk').
Qed.

Lemma elem_of_concat {A} (x : A) ls : x ∈ concat ls <-> exists l, x ∈ l /\ l ∈ ls.
Proof.
  induction ls as [|l ls IH]; cbn; [split; [by intros ?%elem_of_nil|by intros (l & _ & ?%elem_of_nil)]|].
  rewrite elem_of_app, IH. split.
  - intros [Hx|(l' & Hx & Hl)]; [exists l; split; [done|by left]|exists l'; split; [done|by right]].
  - intros (l' & Hx & [->|Hl]%elem_of_cons); [by left|right; by exists l'].
Qed.
Lemma attempts_to_spec earlier attempt : an_attempt attempt -> earlier ∈ attempts_to attempt ->
  an_attempt earlier /\ earlier <= attempt.
Proof.
  unfold attempts_to, an_attempt. intros Ha Hin. apply elem_of_seqZ in Hin. lia.
Qed.

(** The keys of an attempt that is over, and those its success leaves. *)
Lemma attempt_keys_doomed s user job attempt key : base s -> objects s -> attempt_of user job attempt s ->
  closed job attempt s -> key ∈ attempt_keys user job attempt -> doomed key s.
Proof.
  intros Hb Ho (Hu & Hj & Ha & Hi & Hr) Hc Hk. unfold attempt_keys in Hk.
  apply elem_of_concat in Hk as (l & Hk & Hl). apply list_elem_of_fmap in Hl as (earlier & -> & He).
  apply attempts_to_spec in He as [Hea Hle]; [|done].
  apply elem_of_app in Hk as [Hk|Hk]; [by eapply dispatch_doomed|].
  apply (closed_doomed s key user job earlier); [done|done|by split_and!|]. destruct Hc as [Hi' Hcl]. split; [done|].
  intros r Hrow. destruct (Hcl _ Hrow) as [?|?]; [left; lia|by right].
Qed.
Lemma orphan_keys_doomed s user job attempt key : base s -> objects s -> attempt_of user job attempt s ->
  key ∈ success_orphan_keys user job attempt -> doomed key s.
Proof.
  intros Hb Ho (Hu & Hj & Ha & Hi & Hr) Hk. unfold success_orphan_keys in Hk.
  apply elem_of_concat in Hk as (l & Hk & Hl). apply list_elem_of_fmap in Hl as (earlier & -> & He).
  apply attempts_to_spec in He as [Hea Hle]; [|done].
  apply elem_of_app in Hk as [Hk|Hk]; [by eapply dispatch_doomed|].
  destruct (earlier <? attempt) eqn:Elt; [|by apply elem_of_nil in Hk].
  apply (closed_doomed s key user job earlier); [done|done|by split_and!|]. split; [done|].
  intros r Hrow. specialize (Hr _ Hrow). left. lia.
Qed.

(** ** Steps *)

Abbreviation seen := (seen_exec exec base base_guar).

Lemma attempt_mono user job attempt s s' : mono s s' -> attempt_of user job attempt s -> attempt_of user job attempt s'.
Proof.
  intros Hm (Hu & Hj & Ha & Hi & Hr). split; [done|]. split; [done|]. split; [done|].
  split; [by apply (mo_issued _ _ Hm)|]. intros r' Hr'. destruct (mono_row _ _ _ _ Hm Hi Hr') as (r & Hr0 & Hle).
  pose proof (rl_attempt _ _ Hle). specialize (Hr _ Hr0). lia.
Qed.

(** The entries of [p'] are those of [p] or stand for an attempt. *)
Definition entry_attempt (s : studio) (job : string) (e : in_flight) : Prop := attempt_of (f_user e) job (f_attempt e) s.

Record plain_step (s s' : studio) : Prop := {
  ps_assets : forall aid a, d_assets (st_db s') !! aid = Some a -> is_Some (as_job a) -> d_assets (st_db s) !! aid = Some a;
  ps_blobs : forall key, is_Some (st_blobs s !! key) ->
    is_Some (st_blobs s' !! key) \/ doomed key s \/ key ∈ st_forfeited s';
  ps_pending : forall key r, d_pending (st_db s') !! key = Some r ->
    is_Some (d_pending (st_db s) !! key) \/ doomed key s \/ key ∈ st_forfeited s';
  ps_entries : forall job h e, tracked job h e (st_proc s') -> tracked_as (entry_attempt s) (st_proc s) job e
}.

Lemma plain_later s s' : base s -> objects s -> mono s s' -> plain_step s s' -> objects s' /\ later s s'.
Proof.
  intros [Hb _] [K N P E] Hm [HA HB HP HE].
  assert (Hnamed : forall key, named key s' -> named key s).
  { intros key (aid & a & Ha & Hj & Hk). exists aid, a. split; [by apply HA|done]. }
  assert (Hdoomed : forall key, doomed key s -> doomed key s').
  { intros key [Hn Ho]. split; [by intros ?%Hnamed|]. intros u j a Hl. destruct (Ho _ _ _ Hl) as [Hi Hop].
    split; [by apply (mo_issued _ _ Hm)|]. intros Hop'. by eapply Hop, open_mono. }
  assert (Hsecure : forall key, secure key s -> secure key s').
  { intros key [Hx|[Hf|Hd]]; [|right; left; by apply (mo_forfeited _ _ Hm)|right; right; auto].
    destruct (HB _ Hx) as [?|[?|?]]; [by left|right; right; auto|by right; left]. }
  split; [|by split]. split.
  - intros aid a job Ha Hj. assert (Ha0 : d_assets (st_db s) !! aid = Some a) by (apply HA; [done|by eexists]).
    destruct (K _ _ _ Ha0 Hj) as (u & at_ & Hl & Hle). exists u, at_. split; [done|].
    destruct (db_outputs _ _ Hb _ _ _ Ha0 Hj) as ((r0 & Hr0 & Hs0) & _).
    destruct (db_rows _ _ Hb _ _ Hr0) as (Hi & _). intros r Hr.
    destruct (mono_row _ _ _ _ Hm Hi Hr) as (r1 & Hr1 & Hle1). unfold jobs_row in Hr1. assert (r1 = r0) as -> by congruence.
    destruct (rl_final _ _ Hle1) as (_ & -> & _); [by rewrite Hs0|]. by apply Hle.
  - intros key Hk%Hnamed. destruct (N _ Hk) as [Hx|Hf]; [|right; by apply (mo_forfeited _ _ Hm)].
    destruct (HB _ Hx) as [?|[[? _]|?]]; [by left|done|by right].
  - intros key r Hk. destruct (HP _ _ Hk) as [[r0 Hr0]|[?|?]]; [|left; auto|by right].
    destruct (P _ _ Hr0) as [?|?]; [left; auto|right; by apply (mo_forfeited _ _ Hm)].
  - intros job h e Hj He. destruct (HE job h e) as (e0 & (_ & _ & _ & Hu & _ & Ha) & H0); [by split|]. rewrite Hu, Ha.
    eapply attempt_mono; [exact Hm|]. destruct H0 as [[h0 [Hj0 He0]]|H0]; [by eapply E|exact H0].
Qed.

Definition later_good (b : bool) X (o : op X) (P : studio -> Prop) : Prop :=
  forall s x s', P s -> objects s -> seen b X o s x s' -> objects s' /\ later s s'.

Lemma same_entries_step p p' Q : p_entries p' = p_entries p -> p_inflight p' = p_inflight p ->
  forall job h e, tracked job h e p' -> tracked_as Q p job e.
Proof.
  intros He Hi job h e [Hj Hh]. rewrite Hi in Hj. rewrite He in Hh. exists e. split; [apply same_entry_refl|].
  left. by exists h.
Qed.

(** Tables, objects and entries as they were, or more objects. *)
Lemma later_inert b X (o : op X) P : (forall s x s', exec b X o s x s' -> d_assets (st_db s') = d_assets (st_db s)
  /\ d_pending (st_db s') = d_pending (st_db s) /\ st_proc s' = st_proc s
  /\ forall key, is_Some (st_blobs s !! key) -> is_Some (st_blobs s' !! key)) -> later_good b X o P.
Proof.
  intros Ho s x s' _ Hob (He & Hb & _ & Hm & _). destruct (Ho _ _ _ He) as (HA & HP & Hpr & HB).
  apply plain_later; try done. split.
  - intros aid a. by rewrite HA.
  - intros key Hk. left. auto.
  - intros key r. rewrite HP. intros Hr. left. by eexists.
  - apply same_entries_step; by rewrite Hpr.
Qed.

Lemma later_now b X (f : Z -> process -> X * process) P :
  (forall t s, P s -> process_le (entry_attempt s) (st_proc s) (f t (st_proc s)).2) -> later_good b X (Now f) P.
Proof.
  intros Hf s x s' HP Hob ((t & p & Ep & ->) & Hb & _ & Hm & _). apply plain_later; try done. split; cbn; eauto.
  specialize (Hf t s HP). rewrite Ep in Hf. apply (pl_tracked _ _ _ Hf), Hb.
Qed.

(** A transaction that leaves assets and owed deletes alone. *)
Definition plain_txn {X} (t : moment -> string * string -> txn db X) : Prop :=
  forall m ids d x d', t m ids d = Ok (x, d') -> d_assets d' = d_assets d /\ d_pending d' = d_pending d.
Lemma plain_effect b X need (t : moment -> string * string -> txn db X) s r s' :
  plain_txn t -> exec b _ (Query need t) s r s' ->
  d_assets (st_db s') = d_assets (st_db s) /\ d_pending (st_db s') = d_pending (st_db s) /\ st_proc s' = st_proc s
  /\ st_blobs s' = st_blobs s.
Proof.
  intros Ht (m & a & c & _ & _ & _ & _ & _ & _ & Hrun). cbv zeta in Hrun.
  destruct (t m (a, c) (st_db s)) as [[x d]|e] eqn:Et; [destruct (Ht _ _ _ _ _ Et)|];
    [destruct Hrun as [[_ ->]|[_ [->| ->]]]|destruct Hrun as [_ ->]]; done.
Qed.
Lemma later_query b X need (t : moment -> string * string -> txn db X) P :
  plain_txn t -> later_good b _ (Query need t) P.
Proof.
  intros Ht. apply later_inert. intros s r s' He.
  destruct (plain_effect _ _ _ _ _ _ _ Ht He) as (? & ? & ? & ->). done.
Qed.

Lemma plain_read {X} (f : moment -> db -> X) : plain_txn (fun m _ => read (f m)).
Proof. intros m ids d x d' Hr. by apply read_ok in Hr as [_ ->]. Qed.
Section Plain.
Context `{Driver}.
Lemma plain_mark_failed id reason expected : plain_txn (fun m _ => mark_failed_in m id reason expected).
Proof.
  intros m ids d x d' Hr. apply mark_failed_ok in Hr. destruct x; [|by destruct Hr as [-> _]].
  by destruct Hr as (j & _ & _ & [_ _ HA HP _]).
Qed.
Lemma plain_cancel id reason : plain_txn (fun m _ => cancel_in m id reason).
Proof.
  intros m ids d x d' Hr. apply cancel_ok in Hr. destruct x; [|by subst]. by destruct Hr as (j & _ & [_ _ HA HP _]).
Qed.
Lemma plain_charge id gpu attempt : plain_txn (fun _ _ => charge_in id gpu attempt).
Proof.
  intros m ids d x d' Hr. apply charge_ok in Hr as [->|(j & _ & [_ _ HA HP _])]; done.
Qed.
Lemma plain_requeue id : plain_txn (fun _ _ => requeue_in id).
Proof.
  intros m ids d x d' Hr. apply requeue_ok in Hr.
  destruct x; [by destruct Hr as [-> _]|by destruct Hr as [-> _]| |by destruct Hr as [-> _]].
  by destruct Hr as (j & _ & _ & _ & [_ _ HA HP _]).
Qed.
Lemma plain_insert user model params source :
  plain_txn (fun m ids => created ← insert_job ids.1 user model params source m; mret (ids.1, created)).
Proof. intros m ids d x d' Hr. cmd_inv. by apply insert_job_ok in Ha as (_ & HA & HP & _). Qed.
Lemma plain_committing `{CryptoOps} ring q : plain_txn (fun m _ => committing ring q m).
Proof.
  intros m ids d x d'. unfold committing. destruct (commit_command _ _ _ _) as [[[c o]|e] s]; [|done].
  intros Hr. by injection Hr as _ <-.
Qed.
End Plain.
Create HintDb later_good.
#[export] Hint Resolve plain_read plain_mark_failed plain_cancel plain_charge plain_requeue plain_insert
  plain_committing later_query : later_good.

Ltac later_inert := intros; apply later_inert; intros ? ? ?; cbn;
  repeat match goal with
  | |- _ -> _ => intro
  | H : _ /\ _ |- _ => destruct H
  | H : _ \/ _ |- _ => destruct H
  | H : ex _ |- _ => destruct H
  | H : match ?x with _ => _ end |- _ => destruct x
  end; subst; cbn; split_and!; try done.
Lemma later_hold b X l (f : moment -> db -> X) P : later_good b _ (Hold l f) P. Proof. later_inert. Qed.
Lemma later_release b l P : later_good b _ (Release l) P. Proof. later_inert. Qed.
Lemma later_inspect b key P : later_good b _ (Inspect key) P. Proof. later_inert. Qed.
Lemma later_promote b src dst P : later_good b _ (Promote src dst) P.
Proof.
  later_inert; intros key Hk; destruct (decide (key = dst)) as [->|];
    rewrite ?lookup_insert_eq, ?lookup_insert_ne by done; done.
Qed.
Lemma later_target b key token P : later_good b _ (Target key token) P. Proof. later_inert. Qed.
Lemma later_fetch b key P : later_good b _ (FetchUrl key) P. Proof. later_inert. Qed.
Lemma later_send b w message P : later_good b _ (Send w message) P. Proof. later_inert. Qed.
Lemma later_fresh b P : later_good b _ Fresh P. Proof. later_inert. Qed.
Lemma later_token b P : later_good b _ Token P. Proof. later_inert. Qed.
Lemma later_random b P : later_good b _ Random P. Proof. later_inert. Qed.
Lemma later_admitted b P : later_good b _ Admitted_ P. Proof. later_inert. Qed.
Lemma later_deadline b P : later_good b _ Deadline P. Proof. later_inert. Qed.
#[export] Hint Resolve later_hold later_release later_inspect later_promote later_target later_fetch later_send
  later_fresh later_token later_random later_admitted later_deadline : later_good.

(** A key on its way out. *)
Definition removable (what key : string) (s : studio) : Prop :=
  doomed key s \/ key ∈ st_forfeited s \/ names_superseded what = true.
Definition owed (key : string) (s : studio) : Prop := doomed key s \/ key ∈ st_forfeited s.
Lemma stable_owed key : stable (owed key).
Proof. apply stable_or; [apply stable_doomed|apply stable_forfeited]. Qed.
Lemma stable_removable what key : stable (removable what key).
Proof. apply stable_or; [apply stable_doomed|]. apply stable_or; [apply stable_forfeited|apply stable_pure]. Qed.
#[export] Hint Resolve stable_owed stable_removable : stable.

Lemma remove_step b what key s r s' : removable what key s -> objects s -> seen b _ (Remove what key) s r s' ->
  objects s' /\ later s s' /\ owed key s'.
Proof.
  intros Hrem Hob (He & Hb & _ & Hm & _). cbn in He. set (s1 := asked_to_remove what key s) in He.
  assert (Hs1 : st_db s1 = st_db s /\ st_proc s1 = st_proc s /\ st_blobs s1 = st_blobs s
                /\ (doomed key s \/ key ∈ st_forfeited s1)).
  { unfold s1, asked_to_remove. destruct (names_superseded what) eqn:En; cbn; split_and!; try done.
    - right. set_solver.
    - destruct Hrem as [?|[?|?]]; [by left|by right|congruence]. }
  destruct Hs1 as (HD & Hp & Hbl & Hk).
  assert (Hs' : (s' = s1 \/ s' = with_blobs (delete key) s1)) by (destruct He as [[_ ->]|[_ ?]]; auto).
  assert (Hf : st_db s' = st_db s /\ st_proc s' = st_proc s /\ st_forfeited s' = st_forfeited s1
               /\ forall k, is_Some (st_blobs s !! k) -> k ≠ key -> is_Some (st_blobs s' !! k)).
  { destruct Hs' as [->| ->]; cbn; split_and!; try done; rewrite Hbl; [done|].
    intros k Hk' Hne. by rewrite lookup_delete_ne. }
  destruct Hf as (HD' & Hp' & Hf' & Hbl').
  assert (Hpl : objects s' /\ later s s').
  { apply plain_later; try done. split.
    - intros aid a. by rewrite HD'.
    - intros k Hs. destruct (decide (k = key)) as [->|Hne]; [|left; auto]. rewrite Hf'. tauto.
    - intros k x. rewrite HD'. intros Hx. left. by eexists.
    - apply same_entries_step; by rewrite Hp'. }
  destruct Hpl as [Ho' Hl]. split; [done|]. split; [done|].
  destruct Hk as [Hd|Hk]; [left; by apply (la_doomed _ _ Hl)|right; by rewrite Hf'].
Qed.

Lemma record_step b key error s r s' : owed key s -> objects s ->
  seen b _ (Query (Some (DeleteLock key)) (fun m _ => record_pending_in (e_write_clock m) key error)) s r s' ->
  objects s' /\ later s s'.
Proof.
  intros Howed Hob ((m & a & c & _ & _ & _ & _ & _ & _ & Hrun) & Hb & _ & Hm & _). cbn in Hrun.
  apply plain_later; try done.
  assert (Hs : st_proc s' = st_proc s /\ st_blobs s' = st_blobs s /\ d_assets (st_db s') = d_assets (st_db s)
    /\ st_forfeited s' = st_forfeited s
    /\ forall k x, d_pending (st_db s') !! k = Some x -> is_Some (d_pending (st_db s) !! k) \/ k = key).
  { destruct Hrun as [[_ ->]|[_ [->| ->]]]; cbn; split_and!; try done.
    2: intros k x Hx; left; by eexists.
    all: intros k x Hx; destruct (decide (k = key)) as [->|Hne]; [by right|];
      rewrite lookup_partial_alter_ne in Hx by done; left; by eexists. }
  destruct Hs as (Hp & Hbl & HA & Hf & HP). split.
  - intros aid x. by rewrite HA.
  - intros k Hk. rewrite Hbl. by left.
  - intros k x Hx. destruct (HP _ _ Hx) as [?| ->]; [by left|right]. rewrite Hf. exact Howed.
  - apply same_entries_step; by rewrite Hp.
Qed.

(** The assets of a finished attempt have their objects. *)
Lemma output_step s s' id f j user attempt full_id thumb_id full thumb :
  base s -> objects s -> mono s s' -> attempt_of user id attempt s -> jr_attempt (jb_run j) <= attempt ->
  jr_attempt (jb_run (f j)) = jr_attempt (jb_run j) ->
  completes id f j user (storage_keys_for_attempt user id attempt) full_id thumb_id full thumb (st_db s) (st_db s') ->
  st_proc s' = st_proc s -> st_blobs s' = st_blobs s -> st_forfeited s' = st_forfeited s ->
  secure (storage_keys_for_attempt user id attempt).1 s ->
  (is_Some thumb -> secure (storage_keys_for_attempt user id attempt).2 s) ->
  objects s' /\ later s s'.
Proof.
  intros [Hb _] [K N P E] Hm Hat Hja Hfa Hco Hp Hbl Hf Hs1 Hs2. pose proof Hat as (Hu & Hid & Haa & Hi & _).
  set (keys := storage_keys_for_attempt user id attempt) in *.
  pose proof (co_row _ _ _ _ _ _ _ _ _ _ _ Hco) as Hrow. pose proof (co_open _ _ _ _ _ _ _ _ _ _ _ Hco) as Hopen.
  assert (Hkey : forall k, k ∈ pair_list keys -> ~ doomed k s).
  { intros k Hk [_ Hd]. destruct (Hd user id attempt) as [_ Hno]; [by split_and!|]. apply Hno. by exists j. }
  assert (Hsec : forall k, secure k s -> k ∈ pair_list keys -> is_Some (st_blobs s !! k) \/ k ∈ st_forfeited s).
  { intros k [?|[?|?]] Hk; [by left|by right|]. by destruct (Hkey k Hk). }
  assert (Hnew : forall aid a, d_assets (st_db s') !! aid = Some a -> d_assets (st_db s) !! aid = Some a
            \/ (as_job a = Some id /\ as_key a ∈ pair_list keys /\ (is_Some (st_blobs s !! as_key a) \/ as_key a ∈ st_forfeited s))).
  { intros aid a Ha. rewrite (co_assets _ _ _ _ _ _ _ _ _ _ _ Hco) in Ha.
    apply output_lookup in Ha as [[_ ->]|[(t & Et & _ & ->)|?]]; [right..|by left]; cbn; (split; [done|]).
    - assert (keys.1 ∈ pair_list keys) by left. split; [done|by apply Hsec].
    - assert (keys.2 ∈ pair_list keys) by (right; left). split; [done|]. apply Hsec; [|done]. apply Hs2. by rewrite Et. }
  assert (Hdoomed : forall key, doomed key s -> doomed key s').
  { intros key [Hn Ho]. split.
    - intros (aid & a & Ha & Hj & Hk). destruct (Hnew _ _ Ha) as [Ha0|(_ & Hin & _)].
      + apply Hn. by exists aid, a.
      + rewrite Hk in Hin. by apply (Hkey key).
    - intros u jb a Hl. destruct (Ho _ _ _ Hl) as [Hi' Hop]. split; [by apply (mo_issued _ _ Hm)|].
      intros Hop'. by eapply Hop, open_mono. }
  assert (Hsecure : forall key, secure key s -> secure key s').
  { intros key [Hx|[Hx|Hx]]; [left; by rewrite Hbl|right; left; by rewrite Hf|right; right; auto]. }
  split; [|by split]. split.
  - intros aid a job Ha Hj. destruct (Hnew _ _ Ha) as [Ha0|(Hj' & Hin & _)].
    + destruct (K _ _ _ Ha0 Hj) as (u & at_ & Hl & Hle). exists u, at_. split; [done|].
      destruct (db_outputs _ _ Hb _ _ _ Ha0 Hj) as ((r0 & Hr0 & Hs0) & _).
      destruct (db_rows _ _ Hb _ _ Hr0) as (Hij & _). intros r Hr.
      destruct (mono_row _ _ _ _ Hm Hij Hr) as (r1 & Hr1 & Hle1). unfold jobs_row in Hr1. assert (r1 = r0) as -> by congruence.
      destruct (rl_final _ _ Hle1) as (_ & -> & _); [by rewrite Hs0|]. by apply Hle.
    + assert (job = id) as -> by congruence. exists user, attempt. split; [by split_and!|].
      intros r Hr. unfold jobs_row in Hr. rewrite (co_rows _ _ _ _ _ _ _ _ _ _ _ Hco), decide_True in Hr by done.
      injection Hr as <-. lia.
  - intros key (aid & a & Ha & Hj & Hk). rewrite Hbl, Hf. destruct (Hnew _ _ Ha) as [Ha0|(_ & _ & Hin)].
    + apply N. by exists aid, a.
    + by rewrite Hk in Hin.
  - intros key r Hk. rewrite (co_pending _ _ _ _ _ _ _ _ _ _ _ Hco) in Hk. rewrite Hf.
    destruct (P _ _ Hk) as [?|?]; [left; auto|by right].
  - intros job h e Hj He. rewrite Hp in Hj, He. eapply attempt_mono; [exact Hm|by eapply E].
Qed.

(** ** Handlers *)

Abbreviation later_upholds := (upholds seen objects (fun _ => later) (fun _ => later) no_charge).
(** From a state of [P] the program keeps the invariant and ends in one of [Q]. *)
Definition obeys {A} (b : bool) (P : studio -> Prop) (h : prog op A) (Q : A -> studio -> Prop) : Prop :=
  forall s, P s -> later_upholds b (fun _ => False) h (fun _ _ _ => False) Q s.

Lemma obeys_weaken {A} b (P P' : studio -> Prop) (h : prog op A) (Q Q' : A -> studio -> Prop) :
  obeys b P h Q -> (forall s, P' s -> P s) -> (forall a s, Q a s -> Q' a s) -> obeys b P' h Q'.
Proof. intros Hh HP HQ s Hs. eapply upholds_impl; [..|by apply Hh, HP]; auto. Qed.
Lemma obeys_ret {A} b (P : studio -> Prop) (a : A) (Q : A -> studio -> Prop) :
  (forall s, P s -> Q a s) -> obeys b P (Ret a) Q.
Proof. intros HQ s Hs. split; [auto|by intros []]. Qed.
Lemma obeys_sequel {A B} b (P : studio -> Prop) (h : prog op A) (f : A -> prog op B) Q' Q :
  obeys b P h Q' -> (forall a, obeys b (Q' a) (f a) Q) -> obeys b P (sequel h f) Q.
Proof.
  intros Hh Hf s Hs. eapply upholds_sequel; [by apply Hh|]. intros a t Ha. by apply Hf.
Qed.
Lemma obeys_bind {A B} b (P : studio -> Prop) (h : handler A) (f : A -> handler B) Q' Q :
  obeys b P h Q' -> (forall a, obeys b (Q' (Ok a)) (f a) Q) -> (forall e s, Q' (Err e) s -> Q (Err e) s) ->
  obeys b P (h ≫= f) Q.
Proof. intros Hh Hf He. eapply obeys_sequel; [exact Hh|]. intros [a|e]; [apply Hf|]. apply obeys_ret. apply He. Qed.
(** Where nothing is said of exceptions. *)
Definition on_ok {A} (Q : A -> studio -> Prop) (r : result exn A) (s : studio) : Prop :=
  match r with Ok a => Q a s | Err _ => True end.
Lemma on_ok_top {A} (r : result exn A) s : on_ok (fun _ _ => True) r s.
Proof. by destruct r. Qed.
Lemma obeys_then {A B} b (P : studio -> Prop) (h : handler A) (f : A -> handler B) Q' Q :
  obeys b P h (on_ok Q') -> (forall a, obeys b (Q' a) (f a) (on_ok Q)) -> obeys b P (h ≫= f) (on_ok Q).
Proof. intros Hh Hf. by eapply obeys_bind. Qed.
Lemma obeys_do {X A} b (P : studio -> Prop) (o : op X) (k : X -> prog op A) Q' Q : stable P ->
  (forall s x s', P s -> objects s -> seen b X o s x s' -> objects s' /\ later s s' /\ Q' x s') ->
  (forall x, obeys b (Q' x) (k x) Q) -> obeys b P (Do o k) Q.
Proof.
  intros HP Ho Hk s Hs s1 x s2 Hr HI He. destruct (Ho s1 x s2) as (? & ? & ?); [by eapply HP|done..|].
  split; [done|]. split; [done|]. exists (fun _ => False). split; [by intros []|]. by apply Hk.
Qed.
Lemma obeys_call {X} b (P : studio -> Prop) (o : op X) (Q : X -> studio -> Prop) : stable P ->
  (forall s x s', P s -> objects s -> seen b X o s x s' -> objects s' /\ later s s' /\ Q x s') ->
  obeys b P (call o) (on_ok Q).
Proof. intros HP Ho. eapply obeys_do; [done|exact Ho|]. intros x. by apply obeys_ret. Qed.
Lemma obeys_attempt {X} b (P : studio -> Prop) (o : op (result exn X)) (Q : result exn X -> studio -> Prop) : stable P ->
  (forall s x s', P s -> objects s -> seen b _ o s x s' -> objects s' /\ later s s' /\ Q x s') ->
  obeys b P (attempt o) Q.
Proof. intros HP Ho. eapply obeys_do; [done|exact Ho|]. intros x. by apply obeys_ret. Qed.
Lemma obeys_spawn b (P : studio -> Prop) (h : handler unit) :
  obeys false P h (fun _ _ => True) -> obeys b P (schedule_blob_cleanup h) (fun _ => P).
Proof.
  intros Hh s Hs. exists (fun _ => False), (fun _ => False). split; [auto|]. split; [|by split].
  apply (obeys_sequel _ _ _ _ _ _ Hh); [|exact Hs]. intros a. by apply obeys_ret.
Qed.

(** Handlers whose every operation keeps the invariant under [P]. *)
Lemma obeys_every {A} b (h : prog op A) (P : studio -> Prop) : stable P ->
  every (fun _ _ _ => True) (fun b' X o => later_good b' X o P) b h -> obeys b P h (fun _ => P).
Proof.
  intros HP. revert b. induction h as [A a|A X o k IH|A t IHt k IHk]; intros b Hev s Hs.
  - by split; [|intros []].
  - destruct Hev as [Ho Hk]. intros s1 x s2 Hr HI He. apply (HP _ _ Hr) in Hs.
    destruct (Ho s1 x s2 Hs HI He) as [HI2 Hg]. split; [done|]. split; [done|]. exists (fun _ => False).
    split; [by intros []|]. apply IH; [by apply Hk|by eapply HP].
  - destruct Hev as [Ht Hk]. exists (fun _ => False), (fun _ => False). split; [auto|]. split.
    + eapply upholds_impl; [..|apply (IHt false Ht s Hs)]; auto.
    + by apply IHk.
Qed.
Lemma obeys_safe b (h : prog op unit) (P : studio -> Prop) s Q : obeys b P h Q -> P s ->
  task_safe seen objects (fun _ => later) (fun _ => later) no_charge b h s.
Proof.
  intros Hh Hs. eapply (upholds_safe _ _ _ _ _ _ (fun _ => False)).
  eapply upholds_impl; [..|by apply Hh]; auto.
Qed.

Ltac later_now_step := apply later_now; intros ? ? ?; cbn; try reflexivity; auto with quiet; quietly; auto with quiet.
Ltac every_later :=
  repeat match goal with
  | |- every _ _ _ (look _ ≫= _) => unfold look at 1
  | |- every _ _ _ (change _ ≫= _) => unfold change at 1
  | |- every _ _ _ (query _ _ ≫= _) => unfold query at 1
  | |- every _ _ _ (inserting _ _ ≫= _) => unfold inserting at 1
  | |- every _ _ _ (call_result _) => apply every_sequel; [|intros ?; exact I]
  | |- every _ _ _ (look _) => apply every_call
  | |- every _ _ _ (change _) => apply every_call
  | |- every _ _ _ (announce _ _) => apply every_call
  | |- every _ _ _ (push_hint _ _) => apply every_call
  | |- every _ _ _ (query _ _) => apply every_attempt
  | |- every _ _ _ (inserting _ _) => apply every_attempt
  | |- every _ _ _ _ => first [by auto with later | every_step]
  | |- later_good _ _ (Now _) _ => later_now_step
  | |- later_good _ _ _ _ => by auto with later_good
  end.

Lemma obeys_frame {A} b (P F : studio -> Prop) (h : prog op A) Q : stable F -> obeys b P h Q ->
  obeys b (fun s => P s /\ F s) h (fun a s => Q a s /\ F s).
Proof.
  intros HF Hh s [Hs Hf]. specialize (Hh s Hs). clear Hs. revert s Hf Hh. revert b.
  assert (Hgen : forall b D s, F s -> later_upholds b D h (fun _ _ _ => False) Q s ->
            later_upholds b D h (fun _ _ _ => False) (fun a s => Q a s /\ F s) s).
  { induction h as [A a|A X o k IH|A t _ k IHk]; intros b D s Hs; cbn.
    - tauto.
    - intros Hh s1 x s2 Hr HI He. destruct (Hh s1 x s2 Hr HI He) as (? & Hg & D' & ? & ?).
      split; [done|]. split; [done|]. exists D'. split; [done|]. apply IH; [|done]. by apply (HF _ _ Hg), (HF _ _ Hr).
    - intros (Dt & Dk & ? & ? & ?). exists Dt, Dk. split; [done|]. split; [done|]. by apply IHk. }
  intros b s. apply Hgen.
Qed.
Lemma obeys_keep {A} b (P : studio -> Prop) (h : prog op A) Q : stable P -> obeys b P h Q ->
  obeys b P h (fun a s => Q a s /\ P s).
Proof.
  intros HP Hh. eapply obeys_weaken; [by apply (obeys_frame b P P)|by split|done].
Qed.
Lemma obeys_catch {A} b (P : studio -> Prop) (h : handler A) (f : exn -> handler A) Q' Q :
  obeys b P h Q' -> (forall a s, Q' (Ok a) s -> Q (Ok a) s) -> (forall e, obeys b (Q' (Err e)) (f e) Q) ->
  obeys b P (catch h f) Q.
Proof. intros Hh Ha He. eapply obeys_sequel; [exact Hh|]. intros [a|e]; [by apply obeys_ret, Ha|apply He]. Qed.
Lemma obeys_call_result {A} b (P : studio -> Prop) (h : handler A) Q :
  obeys b P h Q -> obeys b P (call_result h) (on_ok Q).
Proof. intros Hh. eapply obeys_sequel; [exact Hh|]. intros r. by apply obeys_ret. Qed.
Lemma obeys_each {A} b (P : studio -> Prop) (f : A -> handler unit) l : stable P ->
  (forall x, x ∈ l -> obeys b P (f x) (fun _ _ => True)) -> obeys b P (handle_each f l) (fun _ _ => True).
Proof.
  intros HP. induction l as [|x l IH]; intros Hf; [by apply obeys_ret|]. cbn [handle_each].
  eapply (obeys_bind _ _ _ _ (fun _ => P)); [|intros ?; apply IH; intros y Hy; apply Hf; by right|done].
  eapply obeys_weaken; [apply (obeys_keep b P (f x) (fun _ _ => True) HP), Hf; left|done|]. by intros r t [_ Ht].
Qed.
Lemma obeys_top {A} b (P : studio -> Prop) (h : prog op A) Q : obeys b P h Q -> obeys b P h (fun _ _ => True).
Proof. intros Hh. by eapply obeys_weaken. Qed.
(** Operations that need nothing. *)
Lemma obeys_free {A} b (h : prog op A) (P : studio -> Prop) : stable P ->
  every (fun _ _ _ => True) (fun b' X o => later_good b' X o (fun _ => True)) b h -> obeys b P h (fun _ => P).
Proof.
  intros HP Hh. apply obeys_every; [done|]. eapply every_impl; [|exact Hh]. intros b' X o Ho s x s' _. by apply Ho.
Qed.
Create HintDb later.
Ltac stabilize :=
  unfold on_ok; cbn;
  repeat match goal with
  | |- stable (fun _ => ?P) => exact (stable_pure P)
  | |- stable (fun _ => _ /\ _) => apply stable_and
  | |- stable (fun _ => _ \/ _) => apply stable_or
  | |- stable (fun _ => _ -> _) => first [apply stable_impl | apply stable_forall; intros ?]
  | |- stable (fun _ => match ?x with _ => _ end) => destruct x
  | |- stable (match ?x with _ => _ end) => destruct x
  | |- stable _ => solve [auto with stable]
  | |- stable (fun x => ?f x) => progress change (stable f)
  | |- stable _ => fail 2
  end.

(** ** Deletes *)

Section Handlers.
Context `{Driver}.

Lemma record_obeys b key error (P : studio -> Prop) : stable P -> (forall s, P s -> owed key s) ->
  obeys b P (record_pending_delete key error) (fun _ => P).
Proof.
  intros HP Ho. apply obeys_every; [done|]. unfold record_pending_delete. every_later.
  intros s r s' Hs Hob He. eapply record_step; [by apply Ho|done|exact He].
Qed.

Lemma purge_obeys b keys what (P : studio -> Prop) : stable P ->
  (forall s key, base s -> objects s -> P s -> key ∈ keys -> removable what key s) ->
  obeys b P (purge_keys keys what) (fun _ _ => True).
Proof.
  intros HP Hk. apply obeys_each; [done|]. intros key Hin.
  eapply (obeys_catch _ _ _ _ (fun _ => owed key)); [|done|].
  - apply obeys_attempt; [done|]. intros s x s' Hs Hob He. pose proof He as (_ & Hb & _).
    destruct (remove_step _ _ _ _ _ _ (Hk _ _ Hb Hob Hs Hin) Hob He) as (? & ? & ?). by split_and!.
  - intros e. eapply obeys_top, record_obeys; [apply stable_owed|done].
Qed.

Lemma purge_attempt_obeys b user job attempt :
  obeys b (fun s => attempt_of user job attempt s /\ closed job attempt s) (purge_attempt_blobs user job attempt) (fun _ _ => True).
Proof.
  apply purge_obeys; [auto with stable|]. intros s key Hb Hob [Ha Hc] Hk. left. by eapply attempt_keys_doomed.
Qed.

Lemma release_delete_good b key P : later_good b _ (Release (DeleteLock key)) P.
Proof. apply later_release. Qed.

Lemma settle_pending_good b key f P : (forall m rows k r, f m rows !! k = Some r -> is_Some (rows !! k)) ->
  later_good b _ (Settle (DeleteLock key) (fun m => write (on_pending (f m)))) P.
Proof.
  intros Hf s r s' _ Hob ((m & Hrun) & Hb & _ & Hm & _). cbn in Hrun. apply plain_later; try done.
  assert (Hs : st_proc s' = st_proc s /\ st_blobs s' = st_blobs s /\ d_assets (st_db s') = d_assets (st_db s)
    /\ forall k x, d_pending (st_db s') !! k = Some x -> is_Some (d_pending (st_db s) !! k)).
  { destruct Hrun as [[_ ->]|[_ [->| ->]]]; cbn; split_and!; try done; try apply Hf; by eauto. }
  destruct Hs as (Hp & Hbl & HA & HP'). split.
  - intros aid x. by rewrite HA.
  - intros k Hk. rewrite Hbl. by left.
  - intros k x Hx. left. by eapply HP'.
  - apply same_entries_step; by rewrite Hp.
Qed.

Lemma retry_one_obeys b key : obeys b (fun _ => True) (retry_one_pending_delete key) (fun _ _ => True).
Proof.
  unfold retry_one_pending_delete.
  eapply (obeys_bind _ _ _ _ (on_ok (fun row s => is_Some row -> owed key s))); [| |done].
  - apply obeys_attempt; [apply stable_pure|]. intros s r s' _ Hob He.
    destruct (later_hold _ _ _ _ (fun _ => True) s r s' I Hob He) as [Ho Hl]. split; [done|]. split; [done|].
    destruct He as ((_ & [(m & -> & ->)|[[msg ->] _]]) & _); [|done]. cbn. intros Hrow.
    apply (stable_owed key _ _ Hl). destruct (d_pending (st_db s) !! key) as [r|] eqn:Er; [|by destruct Hrow].
    by apply (ob_pending _ Hob _ _ Er).
  - intros [r|]; [|eapply obeys_top, obeys_every; [stabilize|every_later]].
    eapply (obeys_bind _ _ _ _ (fun _ _ => True)); [| |done].
    + eapply obeys_weaken; [eapply (obeys_call _ (owed key) _ (fun _ _ => True)); [apply stable_owed|]| |done].
      * intros s x s' Hs Hob He.
        assert (Hrem : removable "pending delete" key s) by (destruct Hs; [by left|by right; left]).
        by destruct (remove_step _ _ _ _ _ _ Hrem Hob He) as (? & ? & _).
      * cbn. intros s Hs. apply Hs. by eexists.
    + intros [u|e]; eapply obeys_top, obeys_every; [stabilize|apply every_attempt, settle_pending_good; intros m rows k x Hx
        |stabilize|apply every_attempt, settle_pending_good; intros m rows k x Hx].
      * apply lookup_delete_Some in Hx as [_ Hx]. by eexists.
      * apply lookup_alter_Some in Hx as [(-> & y & Hy & _)|[_ Hx]]; by eexists.
Qed.
Lemma retry_obeys b : obeys b (fun _ => True) retry_pending_deletes (fun _ _ => True).
Proof.
  unfold retry_pending_deletes. eapply (obeys_bind _ _ _ _ (fun _ _ => True)); [|intros []|done].
  - eapply obeys_every; [stabilize|every_later].
  - eapply (obeys_bind _ _ _ _ (fun _ _ => True)); [eapply obeys_every; [stabilize|every_later]| |done].
    intros due. apply obeys_each; [apply stable_pure|]. intros key _. apply retry_one_obeys.
  - by apply obeys_ret.
Qed.
End Handlers.

(** ** Verdicts *)

Definition settled_bad (job : string) (s : studio) : Prop :=
  job ∈ st_issued s /\ forall r, jobs_row job s = Some r -> jb_state r = failed \/ jb_state r = cancelled.
Lemma stable_settled_bad job : stable (settled_bad job).
Proof.
  intros s s' H [Hi Hr]. pose proof (la_mono _ _ H) as Hm. split; [by apply (mo_issued _ _ Hm)|].
  intros r' Hr'. destruct (mono_row _ _ _ _ Hm Hi Hr') as (r & Hr0 & Hle).
  destruct (rl_final _ _ Hle) as (-> & _); [|by apply Hr]. apply terminal_spec. specialize (Hr _ Hr0). tauto.
Qed.
Lemma settled_bad_closed job attempt s : settled_bad job s -> closed job attempt s.
Proof. intros [Hi Hr]. split; [done|]. intros r Hrow. right. by apply Hr. Qed.
#[export] Hint Resolve stable_settled_bad : stable.

Lemma obeys_query {X} b (P : studio -> Prop) need (t : moment -> string * string -> txn db X) (Q : X -> studio -> Prop) :
  stable P -> plain_txn t ->
  (forall s s' m ids x, P s -> base s -> objects s -> base s' -> later s s' ->
     t m ids (st_db s) = Ok (x, st_db s') -> Q x s') ->
  obeys b P (attempt (Query need t)) (on_ok Q).
Proof.
  intros HP Ht HQ. apply obeys_attempt; [done|]. intros s r s' Hs Hob He.
  destruct (later_query _ _ _ _ (fun _ => True) Ht s r s' I Hob He) as [Ho Hl].
  split; [done|]. split; [done|]. destruct r as [x|]; [|done]. destruct He as (He & Hb & Hb' & _).
  destruct He as (m & a & c & _ & _ & _ & _ & _ & _ & Hrun). cbv zeta in Hrun.
  destruct (t m (a, c) (st_db s)) as [[y d]|e] eqn:Et; [|by destruct Hrun as [? _]].
  destruct Hrun as [[Hx ->]|[[msg Hx] _]]; [|done]. injection Hx as ->. by eapply HQ.
Qed.
(** Steps that say nothing of their result. *)
Lemma obeys_skip {A} b (P : studio -> Prop) (h : handler A) : stable P ->
  every (fun _ _ _ => True) (fun b' X o => later_good b' X o (fun _ => True)) b h -> obeys b P h (on_ok (fun _ => P)).
Proof. intros HP Hh. eapply obeys_weaken; [by apply (obeys_free _ _ P)|done|]. by intros [a|e] s. Qed.
Lemma obeys_end {A} b (P : studio -> Prop) (h : handler A) : stable P ->
  every (fun _ _ _ => True) (fun b' X o => later_good b' X o (fun _ => True)) b h -> obeys b P h (on_ok (fun _ _ => True)).
Proof. intros HP Hh. eapply obeys_weaken; [by apply (obeys_free _ _ P)|done|]. intros; apply on_ok_top. Qed.
Ltac skip := apply obeys_skip; [stabilize|every_later].
Ltac finish := apply obeys_end; [stabilize|every_later].

Section Verdicts.
Context `{Driver}.

Lemma moved_bad id f j s s' : base s -> later s s' -> moves id f j (st_db s) (st_db s') ->
  (jb_state (f j) = failed \/ jb_state (f j) = cancelled) -> settled_bad id s'.
Proof.
  intros Hb Hl Hm Hst. split.
  - apply (mo_issued _ _ (la_mono _ _ Hl)). by destruct (db_rows _ _ (proj1 Hb) _ _ (mv_row _ _ _ _ _ Hm)).
  - intros r Hr. unfold jobs_row in Hr. rewrite (mv_rows _ _ _ _ _ Hm), decide_True in Hr by done. by injection Hr as <-.
Qed.

Lemma mark_failed_obeys b job reason expected (P : studio -> Prop) : stable P ->
  obeys b P (mark_failed job reason expected) (on_ok (fun r s => P s /\ (r = true -> settled_bad job s))).
Proof.
  intros HP. eapply obeys_weaken; [apply (obeys_keep b P _ (on_ok (fun r s => r = true -> settled_bad job s)) HP)|done|].
  2: { intros [r|e] s; cbn; tauto. }
  unfold mark_failed. eapply obeys_then.
  - apply (obeys_query _ _ _ _ (fun r s => r = true -> settled_bad job s)); [done|apply plain_mark_failed|].
    intros s s' m ids x _ Hb _ _ Hl Hrun ->. apply mark_failed_ok in Hrun as (j & _ & _ & Hm).
    eapply moved_bad; [done..|exact Hm|]. by left.
  - intros []; [|by apply obeys_ret]. eapply obeys_then; [skip|]. intros u. apply obeys_ret. cbn. auto.
Qed.

Lemma requeue_obeys b job reason : obeys b (fun _ => True) (requeue_or_fail job reason) (on_ok (fun _ _ => True)).
Proof.
  unfold requeue_or_fail. eapply obeys_then.
  - apply (obeys_query _ _ _ _ (fun r s => match r with Exhausted user attempt => attempt_of user job attempt s | _ => True end));
      [apply stable_pure|apply plain_requeue|].
    intros s s' m ids x _ Hb _ _ Hl Hrun. apply requeue_ok in Hrun. destruct x; try done.
    destruct Hrun as (Hd & j & Hj & _ & <- & <- & _). apply (stable_attempt _ _ _ _ _ Hl).
    destruct (db_rows _ _ (proj1 Hb) _ _ Hj) as (Hi & Hid & Hu & Ha). split_and!; try done.
    intros r Hr. unfold jobs_row in Hr. rewrite Hj in Hr. by injection Hr as <-.
  - intros [|created|created|user attempt]; [by apply obeys_ret|skip|skip|].
    eapply obeys_then; [apply mark_failed_obeys; stabilize|]. intros []; [|by apply obeys_ret].
    eapply obeys_weaken; [apply purge_attempt_obeys| |by intros; apply on_ok_top].
    intros s [Ha Hb]. split; [done|]. by apply settled_bad_closed, Hb.
Qed.
End Verdicts.

(** ** Reports *)

Lemma prefix_append s t : String.prefix s (s +:+ t) = true.
Proof.
  induction s as [|c s IH]; [by destruct t|]. change (String.String c s +:+ t) with (String.String c (s +:+ t)).
  cbn [String.prefix]. destruct (ascii_dec c c); [exact IH|congruence].
Qed.
Lemma superseded_named job : names_superseded (superseded_copies job) = true.
Proof. apply prefix_append. Qed.

Section Reports.
Context `{Driver}.
Variable py_str : json -> string.
Variable public_url : string.

(** The entry a report is about. *)
Definition reporting (job : string) (e : in_flight) (s : studio) : Prop :=
entry_keys job e /\ attempt_of (f_user e) job (f_attempt e) s.
Lemma stable_reporting job e : stable (reporting job e).
Proof. unfold reporting. stabilize. Qed.
Hint Resolve stable_reporting : stable.

Lemma give_up_obeys b job w current e what :
obeys b (fun s => reporting job e s /\ closed job (f_attempt e) s) (fail_entry job w current e what) (on_ok (fun _ _ => True)).
Proof.
unfold fail_entry. eapply obeys_then; [skip|]. intros u. cbn.
eapply obeys_weaken; [apply (obeys_spawn _ (fun s => reporting job e s /\ closed job (f_attempt e) s))|done|by intros; apply on_ok_top].
apply purge_obeys; [stabilize|]. intros s key Hb Hob [[_ Ha] Hc] Hk. left. by eapply attempt_keys_doomed.
Qed.

Lemma fail_attempt_obeys b job reason w current e what :
obeys b (reporting job e) (fail_attempt job reason w current e what) (on_ok (fun _ _ => True)).
Proof.
unfold fail_attempt. eapply obeys_then.
- apply obeys_call_result, mark_failed_obeys. stabilize.
- intros [[]|err]; [|finish|by apply obeys_ret].
  eapply obeys_weaken; [apply give_up_obeys| |done]. intros s [Hr Hbad]. split; [done|]. by apply settled_bad_closed, Hbad.
Qed.

Lemma job_failed_obeys b job w current e control :
obeys b (reporting job e) (job_failed py_str job w current e control) (on_ok (fun _ _ => True)).
Proof.
unfold job_failed. eapply obeys_then; [skip|]. intros []; cbn [negb]; [|by apply obeys_ret]. eapply obeys_then.
- apply obeys_call_result, mark_failed_obeys. stabilize.
- intros [[]|err]; [|by apply obeys_ret..].
  eapply obeys_weaken; [apply give_up_obeys| |done]. intros s [Hr Hbad]. split; [done|]. by apply settled_bad_closed, Hbad.
Qed.

Definition library_of (job : string) (e : in_flight) : string * string :=
storage_keys_for_attempt (f_user e) job (f_attempt e).
(** The library has what the upload was. *)
Definition promoted_to (library : string * string) (thumb : bool) (promoted : list string) (s : studio) : Prop :=
(forall key, key ∈ promoted -> key ∈ pair_list library) /\ secure library.1 s /\ (thumb = true -> secure library.2 s).
Lemma stable_promoted library thumb promoted : stable (promoted_to library thumb promoted).
Proof. unfold promoted_to. stabilize. Qed.
Hint Resolve stable_promoted : stable.

Lemma upload_not_library job e s : reporting job e s ->
f_key e ≠ (library_of job e).1 /\ f_thumb e ≠ (library_of job e).2.
Proof.
intros [Hk (Hu & _)]. unfold entry_keys in Hk.
assert (Hd : forall k, k ∈ pair_list (f_key e, f_thumb e) -> ~ (k ∈ pair_list (library_of job e))).
{ intros k. rewrite Hk. by apply dispatch_key_not_storage. }
split; intros Heq.
- apply (Hd (f_key e)); [left|rewrite Heq; left].
- apply (Hd (f_thumb e)); [right; left|rewrite Heq; right; left].
Qed.

Lemma promote_key_obeys b (P : studio -> Prop) src dst : stable P ->
obeys b P (attempt (Promote src dst)) (on_ok (fun _ s => P s /\ secure dst s)).
Proof.
intros HP. apply obeys_attempt; [done|]. intros s r s' Hs Hob He.
destruct (later_promote _ _ _ (fun _ => True) s r s' I Hob He) as [Ho Hl]. split; [done|]. split; [done|].
destruct r as [u|]; [|done]. split; [by apply (HP _ _ Hl)|]. destruct He as (He & _). cbn in He.
destruct (st_blobs s !! src) as [i|]; [|by destruct He as [[? ?] _]].
destruct He as [[_ ->]|[[? ?] _]]; [|done]. left. cbn. by rewrite lookup_insert_eq.
Qed.

Lemma promote_output_obeys b job e thumb :
obeys b (reporting job e) (promote_output e (library_of job e) thumb)
  (on_ok (fun promoted s => reporting job e s /\ promoted_to (library_of job e) thumb promoted s)).
Proof.
unfold promote_output. case_decide as Hk.
{ intros s Hs. by destruct (upload_not_library _ _ _ Hs). }
eapply (obeys_then _ _ _ _ (fun first s => reporting job e s /\ first = [(library_of job e).1] /\ secure (library_of job e).1 s)).
- eapply obeys_then; [apply promote_key_obeys; stabilize|]. intros u. apply obeys_ret. cbn. tauto.
- intros first. destruct (thumb && _) eqn:Et.
  + eapply obeys_then.
    * eapply obeys_then; [apply promote_key_obeys; stabilize|].
      intros u. apply (obeys_ret _ _ _ (on_ok (fun second s => (reporting job e s /\ first = [(library_of job e).1]
        /\ secure (library_of job e).1 s) /\ second = [(library_of job e).2] /\ secure (library_of job e).2 s))). cbn. tauto.
    * intros second. apply obeys_ret. intros s ((Hr & -> & H1) & -> & H2). split; [done|]. split; [|done].
      intros key Hin. exact Hin.
  + apply obeys_ret. intros s (Hr & -> & H1). split; [done|]. split; [intros key [->|Hin]%elem_of_cons; [left|by apply elem_of_nil in Hin]|].
    split; [done|]. intros ->. cbn in Et. apply negb_false_iff, bool_decide_eq_true in Et.
    by destruct (upload_not_library _ _ _ Hr).
Qed.

Lemma commit_step b job e gpu ph full thumb s r s' :
reporting job e s -> promoted_to (library_of job e) (some thumb) [] s -> objects s ->
seen b _ (Query (Some (JobLock job)) (fun m ids =>
  succeed_in m (f_user e) job (f_attempt e) gpu ph ids.1 ids.2 full thumb)) s r s' ->
objects s' /\ later s s' /\ match r with
  | Ok (Superseded true _ _) => closed job (f_attempt e) s'
  | _ => True end.
Proof.
intros [_ Hat] (_ & Hs1 & Hs2) Hob (He & Hb & Hb' & Hm & _).
destruct He as (m & a & c & _ & _ & _ & _ & _ & _ & Hrun). cbv zeta in Hrun. cbn [fst snd] in Hrun.
assert (Hsame : forall s'', d_assets (st_db s'') = d_assets (st_db s) -> d_pending (st_db s'') = d_pending (st_db s) ->
  st_proc s'' = st_proc s -> st_blobs s'' = st_blobs s -> mono s s'' -> objects s'' /\ later s s'').
{ intros s'' HA HP Hp Hbl Hm'. apply plain_later; try done. split; [intros ? ?; by rewrite HA|intros; left; by rewrite Hbl| |].
  - intros key x. rewrite HP. intros Hx. left. by eexists.
  - apply same_entries_step; by rewrite Hp. }
destruct (succeed_in _ _ _ _ _ _ _ _ _ _ _) as [[v d]|err] eqn:Es; [|destruct Hrun as [-> ->]; split; [apply Hsame; done|]; split; [by apply Hsame|done]].
apply succeed_ok in Es. destruct v as [shown|discard here charged].
- destruct Es as [_ Hsuc]. apply succeeds_completes in Hsuc as (j & Hja & Hco).
  destruct Hrun as [[-> ->]|[[msg ->] [->| ->]]]; [|split; [by apply Hsame|split; [by apply Hsame|done]]|].
  all: match goal with |- objects ?s2 /\ _ => assert (Ho : objects s2 /\ later s s2) end;
    [eapply (output_step _ _ _ _ _ _ _ _ _ _ _ Hb Hob Hm Hat Hja); [|exact Hco|done..|exact Hs1|];
       [done|intros [t ->]; by apply Hs2]
    |destruct Ho; by split_and!].
- destruct Es as (Hd & _ & Hcl & _).
  assert (HAP : d_assets d = d_assets (st_db s) /\ d_pending d = d_pending (st_db s)).
  { destruct Hd as [->|(j & _ & [_ _ ? ? _])]; done. }
  destruct HAP as [HA HP].
  assert (Ho : objects s' /\ later s s').
  { destruct Hrun as [[_ ->]|[_ [->| ->]]]; by apply Hsame. }
  destruct Ho as [Ho Hl]. split; [done|]. split; [done|]. destruct r as [[|dis h' c']|]; try done. destruct dis; [|done].
  destruct Hrun as [[Hr _]|[[msg Hr] _]]; [|done]. injection Hr as <- _ _.
  apply (stable_closed _ _ _ _ Hl). destruct Hat as (_ & _ & _ & Hi & _). split; [done|]. by apply Hcl.
Qed.
Lemma commit_output_obeys b job w current e control full thumb promoted :
obeys b (fun s => reporting job e s /\ promoted_to (library_of job e) (some thumb) promoted s)
  (commit_output public_url job w current e control full thumb promoted) (on_ok (fun _ _ => True)).
Proof.
unfold commit_output. cbv zeta. eapply (obeys_then _ _ _ _ (fun found s =>
  (reporting job e s /\ promoted_to (library_of job e) (some thumb) promoted s)
  /\ match found with Ok (Superseded true _ _) => closed job (f_attempt e) s | _ => True end)).
- apply obeys_call_result. unfold inserting. apply obeys_attempt; [stabilize|]. intros s r s' [Hr Hp] Hob He.
  destruct (commit_step b job e (worker_int (get control "gpu_ms")) (phases_of control) full thumb s r s' Hr) as (Ho & Hl & Hq); [|done|exact He|].
  { destruct Hp as (_ & ? & ?). split; [intros key Hin; by apply elem_of_nil in Hin|done]. }
  split; [done|]. split; [done|]. split; [|done]. split; [by apply (stable_reporting _ _ _ _ Hl)|by apply (stable_promoted _ _ _ _ _ Hl)].
- intros [[shown|discard here charged]|err]; [| |by apply obeys_ret].
  + eapply obeys_then; [skip|]. intros u. eapply obeys_then.
    * eapply obeys_weaken; [apply (obeys_spawn _ (reporting job e))| |].
      -- apply purge_obeys; [stabilize|]. intros s key Hb Hob [_ Ha] Hk. left. by eapply orphan_keys_doomed.
      -- by intros s [[? _] _].
      -- intros [u'|err] s; [|done]. intros Hr. exact Hr.
    * intros u'. finish.
  + eapply (obeys_then _ _ _ _ (fun _ _ => True)).
    * destruct (negb _ && discard) eqn:Ed; [|by apply obeys_ret]. apply andb_true_iff in Ed as [_ ->].
      eapply obeys_weaken; [apply (obeys_spawn _ (fun s => (reporting job e s /\ promoted_to (library_of job e) (some thumb) promoted s)
        /\ closed job (f_attempt e) s))|done|by intros; apply on_ok_top].
      apply purge_obeys; [stabilize|]. intros s key Hb Hob (([_ Hat] & Hp & _) & Hc) Hin. left.
      destruct Hat as (Hu & Hid & Ha & _). by apply (closed_doomed s key (f_user e) job (f_attempt e)); [..|split_and!; auto|].
    * intros u. destruct here; [|by apply obeys_ret]. finish.
Qed.

Lemma job_done_obeys b job w current e control :
obeys b (reporting job e) (job_done public_url job w current e control) (on_ok (fun _ _ => True)).
Proof.
unfold job_done, still_current. eapply obeys_then; [skip|]. intros []; cbn [negb]; [|by apply obeys_ret].
eapply obeys_then; [skip|]. intros [found|err]; [|by apply obeys_ret].
eapply obeys_then; [skip|]. intros []; cbn [negb]; [|by apply obeys_ret].
destruct found as [full|]; [|apply fail_attempt_obeys].
destruct (negb (usable_image full)); [apply fail_attempt_obeys|].
eapply (obeys_then _ _ _ _ (fun _ => reporting job e)).
- skip.
- intros [thumb|]; [|by apply obeys_ret]. eapply obeys_then; [skip|]. intros []; cbn [negb]; [|by apply obeys_ret].
  eapply obeys_then.
  + apply obeys_call_result, (obeys_keep b (reporting job e)), promote_output_obeys. stabilize.
  + intros [promoted|err]; [|eapply obeys_weaken; [apply fail_attempt_obeys| |done]].
    * eapply obeys_then; [skip|]. intros []; cbn [negb]; 
        [eapply obeys_weaken; [apply commit_output_obeys|by intros s [Hq _]|done]|].
      eapply obeys_weaken; [apply (obeys_spawn _ (fun _ => True))|done|by intros; apply on_ok_top].
      apply purge_obeys; [stabilize|]. intros s key _ _ _ _. right. right. apply superseded_named.
    * by intros s [_ Hr].
Qed.
Lemma report_obeys b w control :
obeys b (fun _ => True) (on_worker_message py_str public_url w control) (on_ok (fun _ _ => True)).
Proof.
unfold on_worker_message. destruct (_ : result exn string) as [job|err]; [|by apply obeys_ret].
eapply (obeys_then _ _ _ _ (fun entry s => match entry with Some (_, e) => reporting job e s | None => True end)).
- apply obeys_call; [stabilize|]. intros s x s' _ Hob He.
  assert (Hg : objects s' /\ later s s').
  { eapply later_now; [|exact I|exact Hob|exact He]. intros t s0 _. reflexivity. }
  destruct Hg as [Ho Hl]. split; [done|]. split; [done|]. destruct He as ((t & p & Ep & ->) & (_ & Hn) & _).
  injection Ep as <- <-. unfold entry_of. destruct (od_get job _) as [h|] eqn:Eh; [|done]. cbn.
  destruct (proj2 Hn _ _ Eh) as (e & Ee & Hk). rewrite Ee. cbn. destruct (speaks_for _ _ _ _); [|done].
  split; [done|]. apply (stable_attempt _ _ _ _ _ Hl). by eapply (ob_entries _ Hob).
- intros [[current e]|]; [|by apply obeys_ret]. destruct (negb _); [by apply obeys_ret|].
  destruct (is_report _ _); [unfold job_cancelled; finish|].
  destruct (is_report _ _); [finish|]. destruct (is_report _ _); [apply job_done_obeys|apply job_failed_obeys].
Qed.
End Reports.

(** ** Dispatching *)

(** A row, with what its ids and its attempt say as long as it is there. *)
Definition row_of (job : string) (j : job_row) : studio -> Prop := attempt_of (jb_user j) job (jr_attempt (jb_run j)).
Lemma stable_row_of job j : stable (row_of job j).
Proof. apply stable_attempt. Qed.
#[export] Hint Resolve stable_row_of : stable.
Lemma row_read job j s : base s -> jobs_row job s = Some j -> row_of job j s.
Proof.
  intros [Hb _] Hj. destruct (db_rows _ _ Hb _ _ Hj) as (Hi & Hid & Hu & Ha). split_and!; try done.
  intros r Hr. rewrite Hj in Hr. by injection Hr as <-.
Qed.
Lemma entry_of_row job j s w key thumb token sequence :
  row_of job j s -> entry_attempt s job {| f_worker := w; f_key := key; f_thumb := thumb; f_user := jb_user j;
    f_token := token; f_attempt := jr_attempt (jb_run j); f_sequence := sequence |}.
Proof. done. Qed.
#[export] Hint Resolve entry_of_row : quiet.

Lemma settle_job_good b job f P : later_good b _ (Settle (JobLock job) (fun m => write (set_job job (f m)))) P.
Proof.
  apply later_inert. intros s r s' (m & Hrun). cbn in Hrun.
  destruct Hrun as [[_ ->]|[_ [->| ->]]]; done.
Qed.
#[export] Hint Resolve settle_job_good : later_good.

Section Dispatching.
Context `{Driver} `{CryptoOps}.
Variable ring : result exn key_ring.

Lemma every_dispatch_held R b job j epoch :
  every R (fun b' X o => later_good b' X o (row_of job j)) b (dispatch_held job j epoch).
Proof. unfold dispatch_held. every_later. Qed.
Hint Resolve every_dispatch_held : later.

Lemma dispatch5_obeys b job epoch : obeys b (fun _ => True) (dispatch5 job epoch) (on_ok (fun _ _ => True)).
Proof.
  unfold dispatch5. eapply (obeys_then _ _ _ _ (fun row s => match row with Some j => row_of job j s | None => True end)).
  - apply obeys_attempt; [stabilize|]. intros s r s' _ Hob He.
    destruct (later_hold _ _ _ _ (fun _ => True) s r s' I Hob He) as [Ho Hl]. split; [done|]. split; [done|].
    destruct He as ((_ & [(m & -> & ->)|[[msg ->] _]]) & Hb & _); [|done]. cbn.
    destruct (job_at job (st_db s)) as [j|] eqn:Ej; [|done]. apply (stable_row_of _ _ _ _ Hl). by apply row_read.
  - intros [j|]; cbv beta iota; [|finish].
    eapply obeys_weaken; [apply (obeys_every b _ (row_of job j)); [stabilize|every_later]|done|by intros; apply on_ok_top].
Qed.

Lemma prepare_obeys b job w k nonce epoch :
  obeys b (fun _ => True) (prepare_protocol6 ring job w k nonce epoch) (on_ok (fun _ _ => True)).
Proof.
  unfold prepare_protocol6. eapply obeys_then; [skip|]. intros first. destruct (negb _); [by apply obeys_ret|].
  eapply (obeys_then _ _ _ _ (fun found s => match found with Some (j, _) => row_of job j s | None => True end)).
  - apply obeys_query; [stabilize|apply plain_read|]. intros s s' m ids x _ Hb _ _ Hl Hrun.
    apply read_ok in Hrun as [-> _]. unfold claimable. destruct (job_at job (st_db s)) as [j|] eqn:Ej; [|done]. cbn.
    apply (stable_row_of _ _ _ _ Hl). by apply row_read.
  - intros [[j source]|]; [|by apply obeys_ret].
    eapply obeys_weaken; [apply (obeys_every b _ (row_of job j)); [stabilize|]|done|by intros; apply on_ok_top].
    every_later.
Qed.

Lemma dispatch6_obeys b job w epoch :
  obeys b (fun _ => True) (dispatch_protocol6 ring job w epoch) (on_ok (fun _ _ => True)).
Proof.
  unfold dispatch_protocol6. eapply obeys_then; [skip|]. intros [[k nonce]|]; [|by apply obeys_ret].
  eapply obeys_then; [skip|]. intros []; [|by apply obeys_ret].
  eapply obeys_then; [apply prepare_obeys|]. intros [result shown]. finish.
Qed.

Lemma track_obeys b w job sequence token :
  obeys b (fun _ => True) (track_dispatched_command w job sequence token) (on_ok (fun _ _ => True)).
Proof.
  unfold track_dispatched_command.
  eapply (obeys_then _ _ _ _ (fun found s => match found with Some (j, _) => row_of job j s | None => True end)).
  - apply obeys_query; [stabilize|apply plain_read|]. intros s s' m ids x _ Hb _ _ Hl Hrun.
    apply read_ok in Hrun as [-> _]. unfold current_attempt. destruct (job_at job (st_db s)) as [j|] eqn:Ej; [|done]. cbn.
    destruct (job_attempts _ !! _); [|done]. cbn. apply (stable_row_of _ _ _ _ Hl). by apply row_read.
  - intros [[j a]|]; [|by apply obeys_ret].
    eapply obeys_weaken; [apply (obeys_every b _ (row_of job j)); [stabilize|]|done|by intros; apply on_ok_top].
    every_later.
Qed.

Lemma dispatch_obeys b job : obeys b (fun _ => True) (dispatch ring job) (on_ok (fun _ _ => True)).
Proof.
  unfold dispatch. eapply obeys_then; [skip|]. intros epoch. eapply obeys_then; [skip|]. intros [j|]; [|by apply obeys_ret].
  eapply obeys_then; [skip|]. intros [[w protocol]|]; [|by apply obeys_ret].
  destruct (protocol =? 6); [apply dispatch6_obeys|apply dispatch5_obeys].
Qed.

Lemma dispatch_pass_obeys b n : forall skipped,
  obeys b (fun _ => True) (dispatch_pass ring n skipped) (on_ok (fun _ _ => True)).
Proof.
  induction n as [|n IH]; intros skipped; cbn [dispatch_pass]; [finish|].
  eapply obeys_then; [skip|]. intros [h|]; [|finish].
  eapply (obeys_then _ _ _ _ (fun _ _ => True)).
  - eapply obeys_weaken; [apply obeys_call_result, dispatch_obeys|done|by intros; apply on_ok_top].
  - intros [[]|err]; [apply IH..|finish].
Qed.

Lemma recover_lost_obeys b n : obeys b (fun _ => True) (recover_lost n) (on_ok (fun _ _ => True)).
Proof.
  induction n as [|n IH]; cbn [recover_lost]; [by apply obeys_ret|].
  eapply obeys_then; [skip|]. intros [job|]; [|by apply obeys_ret].
  eapply (obeys_then _ _ _ _ (fun _ _ => True)); [|intros u; apply IH].
  eapply obeys_catch; [apply requeue_obeys|done|]. intros err. finish.
Qed.

Lemma sweep_obeys b : obeys b (fun _ => True) sweep_stalled_jobs (on_ok (fun _ _ => True)).
Proof.
  unfold sweep_stalled_jobs. eapply obeys_then; [skip|]. intros [[now stall] ids].
  eapply obeys_weaken; [apply (obeys_each b (fun _ => True)); [stabilize|]|done|by intros; apply on_ok_top].
  intros job _. eapply obeys_top, (obeys_then _ _ _ _ (fun _ _ => True)); [finish|].
  intros []; [|by apply (obeys_ret _ _ _ (on_ok (fun _ _ => True)))].
  eapply obeys_catch; [apply requeue_obeys|done|]. intros err. finish.
Qed.

Lemma dispatch_step_obeys b n : obeys b (fun _ => True) (dispatch_step ring n) (fun _ _ => True).
Proof.
  unfold dispatch_step, dispatch_step_body. eapply obeys_top, obeys_then; [skip|].
  intros []; [|by apply (obeys_ret _ _ _ (on_ok (fun _ _ => True)))].
  eapply (obeys_sequel _ _ _ _ (fun _ _ => True)).
  - eapply obeys_top, obeys_then; [skip|]. intros []; [|by apply (obeys_ret _ _ _ (on_ok (fun _ _ => True)))].
    eapply obeys_then; [skip|]. intros k. eapply obeys_then; [apply recover_lost_obeys|]. intros u.
    eapply obeys_then; [apply sweep_obeys|]. intros u'. apply dispatch_pass_obeys.
  - intros r. eapply (obeys_sequel _ _ _ _ (fun _ _ => True)).
    + apply (obeys_free b _ (fun _ => True)); [stabilize|every_later].
    + intros u. apply obeys_ret. intros s _. apply on_ok_top.
Qed.
End Dispatching.

(** ** Every run *)

Lemma not_generated_doomed s key : objects s -> ~ generated_key key -> doomed key s.
Proof.
  intros Ho Hk.
  assert (Hl : forall user job attempt, ~ library_key key user job attempt).
  { intros u j a (Hu & Hj & Ha & Hin). apply Hk. exists u, j, a. split_and!; try done. apply elem_of_app. by left. }
  split; [|intros u j a Hlk; by destruct (Hl u j a)].
  intros (aid & a & Has & [job Hjob] & <-). destruct (ob_keys _ Ho _ _ _ Has Hjob) as (u & at_ & Hlk & _).
  by eapply Hl.
Qed.

Lemma outside_later s s' : seen_outside outside base base_rely s s' -> objects s -> objects s' /\ later s s'.
Proof.
  intros (Ho & Hb & _ & Hr) Hob. destruct (Hr false) as [Hm _]. apply plain_later; try done.
  destruct Ho as [s key token i Hup|s p (He & Hi & _ & _ & _)|s d (_ & HA & HP & _)
    |s s' keys gone rows (Hg & Hrows & ->)|s ids d (_ & _ & HA & HP & _)|s id a Hj _ _|s key i Hk];
    (split; cbn; [| | |try (by apply same_entries_step)]); eauto.
  - intros k [x Hx]. left. destruct (decide (k = key)) as [->|]; [by rewrite lookup_insert_eq|].
    by rewrite lookup_insert_ne, Hx.
  - intros aid a. by rewrite HA.
  - intros k r. rewrite HP. eauto.
  - intros k [x Hx]. destruct (decide (k ∈ gone)) as [Hin|Hout]; [right; right; set_solver|].
    left. exists x. by apply map_lookup_filter_Some.
  - intros k r Hr'. apply lookup_union_Some_raw in Hr' as [Hr'|[_ Hr']]; [|by left; eexists].
    right. right. apply elem_of_dom_2 in Hr'. set_solver.
  - intros aid a Ha _. by apply HA in Ha as [Ha _].
  - intros k r. rewrite HP. eauto.
  - intros aid x Hx [y Hy]. apply lookup_insert_Some in Hx as [[_ <-]|[_ Hx]]; [congruence|done].
  - intros k [x Hx]. destruct (decide (k = key)) as [->|Hne].
    + right. left. by apply not_generated_doomed.
    + left. by rewrite lookup_partial_alter_ne, Hx.
Qed.

Section Objects.
Context `{Driver} `{CryptoOps}.
Variable ring : result exn key_ring.
Variable py_str : json -> string.
Variable public_url : string.

Lemma starts_later b s p : starts ring py_str public_url true b s p ->
  task_safe seen objects (fun _ => later) (fun _ => later) no_charge b p s.
Proof.
  assert (Hforget : forall {A} b (h : handler A), obeys b (fun _ => True) h (fun _ _ => True) ->
    forall s, task_safe seen objects (fun _ => later) (fun _ => later) no_charge b (forget h) s).
  { intros A b' h Hh s'. eapply (obeys_safe _ _ (fun _ => True)); [|done].
    eapply obeys_sequel; [exact Hh|]. intros a. by apply (obeys_ret _ _ _ (fun _ _ => True)). }
  assert (Hfree : forall {A} b (h : handler A),
    every (fun _ _ _ => True) (fun b' X o => later_good b' X o (fun _ => True)) b h ->
    obeys b (fun _ => True) h (fun _ _ => True)).
  { intros A b' h Hh. eapply obeys_top, (obeys_free b' h (fun _ => True)); [stabilize|done]. }
  intros Hs. destruct Hs; try discriminate; apply Hforget.
  - apply dispatch_step_obeys.
  - eapply obeys_top, report_obeys.
  - apply Hfree. every_later. etransitivity; [apply forget_worker_quiet|apply worker_lost_quiet].
  - eapply obeys_top, track_obeys.
  - apply Hfree. unfold cancel, ask_worker_to_stop. every_later.
  - apply Hfree. unfold submit_job. every_later.
  - apply retry_obeys.
Qed.

#[export] Instance objects_interference :
  Interference seen (seen_starts (starts ring py_str public_url true) base) (seen_outside outside base base_rely)
    objects (fun _ => later) (fun _ => later) no_charge.
Proof.
  split; try done.
  - intros _. apply _.
  - intros _ s s' Ho Hob. by apply outside_later.
  - intros s s' Ho Hob. split; [by apply (outside_later s)|by intros []].
  - intros b s p [Hs _] _. by apply starts_later.
Qed.

Lemma run_objects s s' l : base s -> objects s -> system_run ring py_str public_url true (s, []) (s', l) ->
  base s' /\ objects s' /\ mono s s'.
Proof.
  intros Hb Ho Hrun. apply system_seen in Hrun as (Hrun & Hb' & Hm); [|done]. split; [done|]. split; [|done].
  eapply pool_safe in Hrun as [[Ho' _ _] _]; [exact Ho'|apply objects_interference|].
  split; [done|constructor|cbn; lia].
Qed.
End Objects.
