(* ===== verification/JobSamples.v ===== *)
(** * A studio with two workers

    A job submitted, dispatched to a worker of protocol 5 and reported done,
    on which the witnesses of the theorems about jobs evaluate. *)

From S2P Require Import Prelude PyFloat Hashes Json Protocol6 Samples Uuid ODict PyInt KeyRing Transactions AccountStore CommandTables CommandSubjects CommandStore CommandSamples Tasks JobTables Jobs JobSystem JobFacts JobBase JobObjects.
Open Scope Z_scope.

(** ** Runs, executed

    [answer] gives an awaited operation one of the outcomes [exec] allows it,
    [advance] one step of one task, and [play] a whole schedule; whatever they
    compute is a step, or a run, of the system. *)

(** How an operation comes out: when, whether its connection fails, and then
    whether it took effect; and what it returns where that is free. *)
Record choice := {
  ch_time : Z; ch_moment : moment; ch_fails : bool; ch_applied : bool; ch_text : string; ch_target : string * dict;
  ch_bytes : list Z; ch_admitted : bool
}.

(** Ids follow on the ids drawn. *)
Definition next_id (n : Z) (s : studio) : string := uuid_string (2 ^ 100 + Z.of_nat (size (st_issued s)) + n).
Definition uuid_text (id : string) : bool := match parse_uuid id with Ok t => bool_decide (t = id) | Err _ => false end.
Definition issuable (id : string) (s : studio) : bool := bool_decide (~ (id ∈ st_issued s)) && uuid_text id.
Definition lock_is_free (need : option row_lock) (d : db) : bool :=
  match need with Some l => bool_decide (l ∉ d_held d) | None => true end.
Definition CONNECTION_LOST : exn := RuntimeError "connection lost".

Definition answer_query {X} (c : choice) (need : option row_lock) (t : moment -> string * string -> txn db X) (s : studio)
    : option (result exn X * studio) :=
  let a := next_id 0 s in let b := next_id 1 s in
  if issuable a s && issuable b s && negb (bool_decide (a = b)) && lock_is_free need (st_db s) then
    let s1 := issue {[a; b]} s in
    Some (match t (ch_moment c) (a, b) (st_db s) with
          | Ok (x, d) => if ch_fails c then (Err CONNECTION_LOST, if ch_applied c then with_db d (doubt d s1) else s1)
                         else (Ok x, with_db d s1)
          | Err e => (Err e, s1)
          end)
  else None.

Definition answer_settle (c : choice) (l : row_lock) (t : moment -> txn db unit) (s : studio) : result exn unit * studio :=
  match t (ch_moment c) (st_db s) with
  | Ok (_, d) => if ch_fails c
                 then (Err CONNECTION_LOST, with_db (unlock l (if ch_applied c then d else st_db s)) s)
                 else (Ok tt, with_db (unlock l d) s)
  | Err e => (Err e, with_db (unlock l (st_db s)) s)
  end.

Definition answer (c : choice) (X : Type) (o : op X) : studio -> option (X * studio) :=
  match o in op X return studio -> option (X * studio) with
  | Now f => fun s => let '(x, p) := f (ch_time c) (st_proc s) in Some (x, with_proc p s)
  | Query need t => answer_query c need t
  | Hold l f => fun s =>
      if lock_is_free (Some l) (st_db s) then
        Some (if ch_fails c then (Err CONNECTION_LOST, s)
              else (Ok (f (ch_moment c) (st_db s)), with_db (on_held (cons l) (st_db s)) s))
      else None
  | Settle l t => fun s => Some (answer_settle c l t s)
  | Release l => fun s => Some (tt, with_db (unlock l (st_db s)) s)
  | Inspect key => fun s => Some (if ch_fails c then Err CONNECTION_LOST else Ok (mjoin (st_blobs s !! key)), s)
  | Promote src dst => fun s => Some
      match st_blobs s !! src with
      | Some i => if ch_fails c then (Err CONNECTION_LOST, if ch_applied c then with_blobs <[dst := i]> s else s)
                  else (Ok tt, with_blobs <[dst := i]> s)
      | None => (Err CONNECTION_LOST, s)
      end
  | Remove why key => fun s => let s1 := asked_to_remove why key s in Some
      (if ch_fails c then (Err CONNECTION_LOST, if ch_applied c then with_blobs (delete key) s1 else s1)
       else (Ok tt, with_blobs (delete key) s1))
  | Target _ _ => fun s => Some (if ch_fails c then Err CONNECTION_LOST else Ok (ch_target c), s)
  | FetchUrl _ => fun s => Some (if ch_fails c then Err CONNECTION_LOST else Ok (ch_text c), s)
  | Send _ _ => fun s => Some (if ch_fails c then Err CONNECTION_LOST else Ok tt, s)
  | Fresh => fun s => let id := next_id 0 s in if issuable id s then Some (id, issue {[id]} s) else None
  | Token => fun s => Some (ch_text c, s)
  | Random => fun s => Some (ch_bytes c, s)
  | Admitted_ => fun s => Some (ch_admitted c, s)
  | Deadline => fun s => Some (ch_fails c, s)
  end.

#[local] Opaque next_id.
Lemma uuid_text_spec id : uuid_text id = true -> is_uuid id.
Proof. unfold uuid_text, is_uuid. case_match; [|done]. by intros ->%bool_decide_eq_true_1. Qed.
Lemma issuable_spec id s : issuable id s = true -> ~ (id ∈ st_issued s) /\ is_uuid id.
Proof.
  unfold issuable. intros [H1 H2]%andb_true_iff. split; [by eapply bool_decide_eq_true_1|by apply uuid_text_spec].
Qed.
Lemma lock_is_free_spec need d : lock_is_free need d = true -> lock_free need d.
Proof. destruct need; cbn; [|done]. by intros ?%bool_decide_eq_true_1. Qed.

Lemma answer_query_runs {X} c need (t : moment -> string * string -> txn db X) s r s' :
  answer_query c need t s = Some (r, s') -> runs_query need t s r s'.
Proof.
  unfold answer_query. case_match eqn:E; [|done]. rewrite !andb_true_iff in E. destruct E as (((Ha & Hb) & Hne) & Hl).
  apply issuable_spec in Ha as [Ha Ua], Hb as [Hb Ub]. apply lock_is_free_spec in Hl.
  apply negb_true_iff, bool_decide_eq_false in Hne. intros H. exists (ch_moment c), (next_id 0 s), (next_id 1 s).
  split_and!; try assumption. destruct (t _ _ _) as [[x d]|e]; [|by simplify_eq].
  destruct (ch_fails c); simplify_eq; [right|by left]. split; [by eexists|]. destruct (ch_applied c); auto.
Qed.

Lemma answer_execs c b X (o : op X) s x s' : answer c X o s = Some (x, s') -> exec b X o s x s'.
Proof.
  assert (Hlost : forall Y, lost_connection (Err CONNECTION_LOST : result exn Y)) by (by eexists).
  destruct o; cbn; intros H.
  - destruct (f _ _) as [y p] eqn:E. simplify_eq. by exists (ch_time c), p.
  - by eapply answer_query_runs.
  - case_match eqn:El; [|done]. apply bool_decide_eq_true_1 in El. split; [done|].
    destruct (ch_fails c); simplify_eq; eauto.
  - exists (ch_moment c). unfold answer_settle in H. destruct (t _ _) as [[[] d]|e]; [|by simplify_eq].
    destruct (ch_fails c); simplify_eq; [right|by left]. split; [done|]. destruct (ch_applied c); auto.
  - by simplify_eq.
  - destruct (ch_fails c); simplify_eq; auto.
  - destruct (st_blobs s !! src); [|by simplify_eq]. destruct (ch_fails c); simplify_eq; [|by left].
    right. split; [done|]. destruct (ch_applied c); auto.
  - destruct (ch_fails c); simplify_eq; [|by left]. right. split; [by eexists|]. destruct (ch_applied c); auto.
  - by destruct (ch_fails c); simplify_eq.
  - by destruct (ch_fails c); simplify_eq.
  - by destruct (ch_fails c); simplify_eq.
  - case_match eqn:E; [|done]. apply issuable_spec in E as [? ?]. by simplify_eq.
  - by simplify_eq.
  - by simplify_eq.
  - by simplify_eq.
  - by simplify_eq.
Qed.

(** ** Schedules *)

Section Play.
Context `{Driver} `{CryptoOps}.
Variable ring : result exn key_ring.
Variable py_str : json -> string.
Variable public_url : string.
Variable serving : bool.

Inductive move : Type :=
| Step (task : nat) (c : choice)
| Dispatch (n : nat)
| Recover
| Report (w : nat) (control : dict)
| Disconnect (w : nat)
| Cancel (job reason : string)
| Submit (user model : string) (params : json) (source : option string)
| Deletes
| Upload (key token : string) (i : option image).

Definition make_move (m : move) (sl : studio * pool) : option (studio * pool) :=
  match m with
  | Step task c => advance answer task c sl
  | Recover => if serving then None else began true (forget (recover public_url)) sl
  | Upload key token i =>
      if upload_authorized key (JStr token) (st_proc sl.1) then Some (with_blobs <[key := i]> sl.1, sl.2) else None
  | Submit user model params source =>
      if serving && uuid_text user then began false (forget (submit_job user model params source)) sl else None
  | _ => if negb serving then None else
      match m with
      | Dispatch n => began true (forget (dispatch_step ring n)) sl
      | Report w control => began false (forget (on_worker_message py_str public_url w control)) sl
      | Disconnect w => began false (forget (change (fun p => on_worker_lost w (forget_worker w p)))) sl
      | Cancel job reason => began false (forget (cancel job reason)) sl
      | _ => began false (forget retry_pending_deletes) sl
      end
  end.
Fixpoint play (ms : list move) (sl : studio * pool) : option (studio * pool) :=
  match ms with [] => Some sl | m :: ms => make_move m sl ≫= play ms end.

Abbreviation step := (system_step ring py_str public_url serving).

Lemma make_move_step m sl sl' : make_move m sl = Some sl' -> step sl sl'.
Proof.
  intros Hm.
  assert (Hb : forall b p, starts ring py_str public_url serving b sl.1 p -> began b p sl = Some sl' -> step sl sl')
    by (intros b p; apply began_step).
  destruct m; unfold make_move in Hm; try (case_match eqn:E; [|done || idtac]); try done.
  - eapply advance_step; [apply answer_execs|exact Hm].
  - eapply Hb; [|exact Hm]. constructor. by apply negb_false_iff.
  - eapply Hb; [|exact Hm]. by constructor.
  - eapply Hb; [|exact Hm]. constructor. by apply negb_false_iff.
  - eapply Hb; [|exact Hm]. constructor. by apply negb_false_iff.
  - eapply Hb; [|exact Hm]. constructor. by apply negb_false_iff.
  - apply andb_true_iff in E as [E Hu]. eapply Hb; [|exact Hm]. constructor; [done|by apply uuid_text_spec].
  - eapply Hb; [|exact Hm]. constructor. by apply negb_false_iff.
  - injection Hm as <-. destruct sl as [s l]. by apply pool_outside, out_upload with token.
Qed.

Lemma play_run ms sl sl' : play ms sl = Some sl' -> system_run ring py_str public_url serving sl sl'.
Proof.
  revert sl. induction ms as [|m ms IH]; intros sl; cbn; [by intros [= <-]; constructor|].
  destruct (make_move m sl) as [sl1|] eqn:E; [|done]. cbn. intros Hp. eapply rtc_l; [by eapply make_move_step|by apply IH].
Qed.
End Play.

Definition PUBLIC_URL : string := "https://studio.example/".
Definition TOKEN : string := "token-a".
Definition TOKEN_B : string := "token-b".
Definition no_text (v : json) : string := "".
Definition GEN_RING : result exn key_ring := Ok RING.

Definition plain : choice :=
  {| ch_time := 1000000; ch_moment := now; ch_fails := false; ch_applied := false; ch_text := TOKEN;
     ch_target := ("https://objects.example/put", []); ch_bytes := [1; 2; 3]; ch_admitted := true |}.
Definition failing : choice :=
  {| ch_time := 1000000; ch_moment := now; ch_fails := true; ch_applied := false; ch_text := TOKEN;
     ch_target := ("", []); ch_bytes := [1; 2; 3]; ch_admitted := true |}.
Definition much_later : choice :=
  {| ch_time := 1000000000; ch_moment := now; ch_fails := false; ch_applied := false; ch_text := TOKEN_B;
     ch_target := ("https://objects.example/put", []); ch_bytes := [1; 2; 3]; ch_admitted := true |}.
Definition steps (task n : nat) : list move := repeat (Step task plain) n.

Definition worker5 : worker :=
  {| w_id := "worker-cuda"; w_incarnation := None; w_nonce := None; w_protocol := 5; w_transport := None;
     w_models := ["sdxl"]; w_slots_in_use := 0; w_jobs := 0; w_ready := true; w_deadline := None |}.
Definition worker6 : worker :=
  {| w_id := WORKER; w_incarnation := Some INCARNATION; w_nonce := Some GRANT; w_protocol := 6; w_transport := None;
     w_models := ["sdxl"]; w_slots_in_use := 0; w_jobs := 1; w_ready := true; w_deadline := None |}.
Definition fleet_process : process :=
  {| p_objects := {[0%nat := worker5; 1%nat := worker6]}; p_workers := [("worker-cuda", 0%nat); (WORKER, 1%nat)];
     p_entries := ∅; p_inflight := []; p_lost := []; p_queue := []; p_progress := ∅; p_stamps := ∅;
     p_subscribers := ∅; p_epoch := 0; p_active := 0; p_paused := false; p_connected := true; p_stall := 300 |}.
Definition idle_studio : studio :=
  {| st_db := {| d_store := empty_store; d_assets := ∅; d_pending := ∅; d_held := [] |}; st_proc := fleet_process;
     st_blobs := ∅; st_issued := ∅; st_forfeited := ∅; st_doubtful := ∅ |}.

(** The id the submission gives. *)
Definition JOB : string := next_id 0 idle_studio.
Definition IMAGE : image := {| im_size := 1000; im_type := "image/png"; im_width := 512; im_height := 512 |}.
Definition dispatch_key : string := (dispatch_keys_for_attempt USER JOB 1).1.
Definition library_png : string := (storage_keys_for_attempt USER JOB 1).1.
Definition job_done_report (token : string) : dict :=
  [("type", JStr "job_done"); ("job_id", JStr JOB); ("dispatch_token", JStr token); ("gpu_ms", JInt 40)].

Abbreviation played ms sl := (play GEN_RING no_text PUBLIC_URL true ms sl).
Definition submitted : list move := Submit USER "sdxl" (JDict []) None :: steps 0 3.
Definition uploaded (token : string) : list move :=
  [Upload dispatch_key token (Some IMAGE); Report 0 (job_done_report token)].
(** Submitted, dispatched, rendered, and the uploads cleaned up. *)
Definition dispatched : list move := submitted ++ Dispatch 5 :: steps 0 23.
Definition completed : list move := uploaded TOKEN ++ steps 0 15.

(** The commit of the dispatch fails after the command was sent; while the
    worker's report is being followed the job stalls, is sent again as the same
    attempt and completes; then the first report goes on. *)
Definition twice_as_one_attempt : list move :=
  submitted ++ Dispatch 5 :: steps 0 17 ++ Step 0 failing :: steps 0 4
  ++ uploaded TOKEN ++ steps 0 6
  ++ Dispatch 5 :: repeat (Step 1 much_later) 26 ++ uploaded TOKEN_B ++ repeat (Step 1 much_later) 15
  ++ steps 0 5.

(** A cancellation while the task that follows the report has its reads behind
    it and its writes before it. *)
Definition cancelled_under_way : list move := uploaded TOKEN ++ steps 0 6 ++ Cancel JOB "user" :: steps 1 6.

(** The worker chosen first disconnects before the row is locked. *)
Definition chosen_again : list move :=
  submitted ++ Dispatch 5 :: steps 0 8 ++ Disconnect 0 :: steps 1 2 ++ steps 0 7.

(** Where a schedule that ends with no task left has led to. *)
Definition ends (ms : list move) (s : studio) : bool :=
  match played ms (s, []) with Some (_, []) => true | _ => false end.
Definition reached (ms : list move) (s : studio) : studio := default s (fst <$> played ms (s, [])).
Lemma reached_run ms s : ends ms s = true -> system_run GEN_RING no_text PUBLIC_URL true (s, []) (reached ms s, []).
Proof.
  unfold ends, reached. destruct (played ms (s, [])) as [[s' l]|] eqn:E; [|done]. destruct l; [|done].
  intros _. cbn. by eapply play_run.
Qed.

Lemma played_to ms sl d : bool_decide (is_Some (played ms sl)) = true -> played ms sl = Some (default d (played ms sl)).
Proof. intros [sl' E]%bool_decide_eq_true_1. by rewrite E. Qed.

Definition dispatched_studio : studio := reached dispatched idle_studio.
Definition finished_studio : studio := reached completed dispatched_studio.

Lemma idle_base : base idle_studio.
Proof.
  split; [|split; [constructor|by intros job h Hj]]. unfold idle_studio.
  split; cbn [st_db st_issued d_assets]; unfold job_at; cbn [d_store job_rows empty_store]; intros *; by rewrite lookup_empty.
Qed.
Lemma idle_objects : objects idle_studio.
Proof.
  unfold idle_studio. split; cbn [st_db d_assets d_pending].
  - intros aid a job. by rewrite lookup_empty.
  - intros key (aid & a & Ha & _). cbn [st_db d_assets] in Ha. by rewrite lookup_empty in Ha.
  - intros key r. by rewrite lookup_empty.
  - by intros job h e Hj.
Qed.

Lemma dispatched_run : system_run GEN_RING no_text PUBLIC_URL true (idle_studio, []) (dispatched_studio, []).
Proof. apply reached_run. by vm_compute. Qed.
Lemma finished_run : system_run GEN_RING no_text PUBLIC_URL true (dispatched_studio, []) (finished_studio, []).
Proof. apply reached_run. by vm_compute. Qed.
Lemma dispatched_base : base dispatched_studio /\ objects dispatched_studio.
Proof.
  destruct (run_objects GEN_RING no_text PUBLIC_URL _ _ _ idle_base idle_objects dispatched_run) as (? & ? & _). by split.
Qed.
