(* ===== verification/JobsSpec.v ===== *)
(** * What the job scheduler promises

    Over every interleaving of its tasks, of failing connections and of what
    the workers, the browsers and the rest of the API do: verdicts are final,
    a job has one output, and the output is there.  Then the queue, the
    mailbox of a subscriber, and two schedules the code does not mean. *)

From S2P Require Import Prelude PyFloat Hashes Json JsonFacts Protocol6 Samples Protocol6Codec Uuid ODict PyInt KeyRing Transactions AccountStore CommandTables CommandSubjects CommandStore CommandSamples Tasks JobTables Jobs JobSystem JobFacts JobBase JobObjects JobSamples.
Open Scope Z_scope.

Section Runs.
Context `{Driver} `{CryptoOps}.
Variable ring : result exn key_ring.
Variable py_str : json -> string.
Variable public_url : string.
Abbreviation run serving := (system_run ring py_str public_url serving).

(** C4.  A verdict is final and a job is tried at most twice: between any two
    moments of a run, with whatever tasks under way at the first, however they
    interleave and whatever connection fails, at startup and while serving, a
    job that was succeeded, failed or cancelled keeps that state with its
    attempt, its reason and its time; its attempt never falls and never
    passes 2, and it goes from running back to the queue only as its second
    attempt; whose it is and what was asked for never change. *)
Theorem verdicts_stand serving s0 s l s' l' id r r' :
  base s0 -> run serving (s0, []) (s, l) -> run serving (s, l) (s', l') ->
  jobs_row id s = Some r -> jobs_row id s' = Some r' ->
  (terminal (jb_state r) = true ->
     jb_state r' = jb_state r /\ jr_attempt (jb_run r') = jr_attempt (jb_run r)
     /\ jr_reason (jb_run r') = jr_reason (jb_run r) /\ jr_finished (jb_run r') = jr_finished (jb_run r))
  /\ jr_attempt (jb_run r) <= jr_attempt (jb_run r') <= 2
  /\ (jb_state r = running -> jb_state r' = queued -> jr_attempt (jb_run r) = 1 /\ jr_attempt (jb_run r') = 2)
  /\ jb_user r' = jb_user r /\ jb_model r' = jb_model r /\ jb_params r' = jb_params r.
Proof.
  intros Hb Hrun0 Hrun Hr Hr'. apply system_ok in Hrun0; [|done]. destruct (Hrun0) as [[Hb0 _] _ _].
  apply system_goes_on in Hrun as (_ & [Hb' _] & Hm); [|done].
  destruct (db_rows _ _ Hb0 _ _ Hr) as (Hi & _ & _ & Ha).
  destruct (db_rows _ _ Hb' _ _ Hr') as (_ & _ & _ & Ha').
  destruct (mono_row _ _ _ _ Hm Hi Hr') as (r0 & Hr0 & Hle). assert (r0 = r) as -> by congruence.
  pose proof (rl_attempt _ _ Hle). split; [apply (rl_final _ _ Hle)|]. split; [lia|]. split; [|split_and!; apply Hle].
  intros Hst Hq. destruct (decide (jr_attempt (jb_run r') = jr_attempt (jb_run r))) as [E|Hne]; [|lia].
  by destruct (rl_running _ _ Hle Hst E).
Qed.

(** C6.  A job has one output: whatever interleaves, only a succeeded job has
    assets, and it has at most one full image and at most one thumbnail. *)
Theorem one_output_each serving s s' l aid a id :
  base s -> run serving (s, []) (s', l) -> d_assets (st_db s') !! aid = Some a -> as_job a = Some id ->
  (exists r, jobs_row id s' = Some r /\ jb_state r = succeeded)
  /\ (as_mime a = "image/png" \/ as_mime a = "image/webp")
  /\ forall aid' a', d_assets (st_db s') !! aid' = Some a' -> as_job a' = Some id -> as_mime a' = as_mime a -> aid' = aid.
Proof.
  intros Hb Hrun Ha Hid. apply system_seen in Hrun as (_ & [Hb' _] & _); [|done].
  destruct (db_outputs _ _ Hb' _ _ _ Ha Hid) as [Hr Hm]. split; [done|]. split; [done|].
  intros aid' a' Ha' Hid' E. by eapply db_unique.
Qed.

(** C5.  What a job made is there: whatever tasks interleave while serving,
    whatever transaction, promotion or removal fails and whatever the cleanups
    remove, the object of every asset a job made is in the object store under
    the asset's key; the exceptions are the keys a purge of superseded library
    copies, or of a deleted account, was asked to remove. *)
Theorem outputs_are_there s s' l aid a id :
  base s -> objects s -> run true (s, []) (s', l) -> d_assets (st_db s') !! aid = Some a -> as_job a = Some id ->
  is_Some (st_blobs s' !! as_key a) \/ as_key a ∈ st_forfeited s'.
Proof.
  intros Hb Ho Hrun Ha Hid. apply run_objects in Hrun as (_ & Ho' & _); [|done..].
  apply (ob_named _ Ho'). exists aid, a. split; [done|]. split; [by eexists|done].
Qed.

(** An upload reaches only the keys of its own attempt: whatever
    interleaves, a token that is accepted for a key is that of a job in
    flight, the key is one of the two its attempt uploads to, and it is no key
    of the library, so no worker overwrites an output that was committed. *)
Theorem uploads_confined serving s s' l key token :
  base s -> run serving (s, []) (s', l) -> upload_authorized key (JStr token) (st_proc s') = true ->
  (exists job h e, od_get job (p_inflight (st_proc s')) = Some h /\ p_entries (st_proc s') !! h = Some e
     /\ f_token e = token /\ key ∈ pair_list (dispatch_keys_for_attempt (f_user e) job (f_attempt e)))
  /\ forall user job attempt, is_uuid user -> ~ (key ∈ pair_list (storage_keys_for_attempt user job attempt)).
Proof.
  intros Hb Hrun Hu. apply system_seen in Hrun as (_ & [_ [Hd Hn]] & _); [|done].
  unfold upload_authorized in Hu. apply andb_true_iff in Hu as [_ Hu]. apply existsb_exists in Hu as ([job h] & Hin & Hu).
  apply list_elem_of_In in Hin. pose proof (od_elem_get _ _ _ Hd Hin) as Hj. destruct (Hn _ _ Hj) as (e & He & Hk).
  cbn in Hu. rewrite He in Hu. apply andb_true_iff in Hu as [Hkey Ht]. apply bool_decide_eq_true_1 in Ht.
  assert (Hin' : key ∈ pair_list (dispatch_keys_for_attempt (f_user e) job (f_attempt e))).
  { rewrite <- Hk. unfold pair_list. cbn. unfold is_in in Hkey. by apply bool_decide_eq_true_1 in Hkey. }
  split; [by exists job, h, e|]. intros user job' attempt Hu'. by eapply dispatch_key_not_storage.
Qed.

End Runs.

(** The job was cancelled while the task that follows the worker's report had
    read it as running. *)
Definition the_row (s : studio) : job_row := default (Build_job_row "" "" JNull queued 0 None None (new_run 0)) (jobs_row JOB s).
Definition cancelled_midway : studio * pool := default (idle_studio, []) (played cancelled_under_way (dispatched_studio, [])).
Definition report_goes_on : studio * pool := default (idle_studio, []) (played (steps 0 7) cancelled_midway).
Lemma midway_runs :
  system_run GEN_RING no_text PUBLIC_URL true (dispatched_studio, []) (cancelled_midway.1, cancelled_midway.2)
  /\ system_run GEN_RING no_text PUBLIC_URL true (cancelled_midway.1, cancelled_midway.2) (report_goes_on.1, report_goes_on.2).
Proof.
  rewrite <- !surjective_pairing. split; eapply play_run; apply played_to; by vm_compute.
Qed.
Lemma verdicts_stand_witness :
  length cancelled_midway.2 = 1%nat
  /\ jobs_row JOB cancelled_midway.1 = Some (the_row cancelled_midway.1) /\ jb_state (the_row cancelled_midway.1) = cancelled
  /\ jobs_row JOB report_goes_on.1 = Some (the_row report_goes_on.1) /\ jb_state (the_row report_goes_on.1) = cancelled.
Proof.
  assert (Hr : jobs_row JOB cancelled_midway.1 = Some (the_row cancelled_midway.1)) by (vm_compute; reflexivity).
  assert (Hr' : jobs_row JOB report_goes_on.1 = Some (the_row report_goes_on.1)) by (vm_compute; reflexivity).
  assert (Hs : jb_state (the_row cancelled_midway.1) = cancelled) by (vm_compute; reflexivity).
  split; [vm_compute; reflexivity|]. split; [exact Hr|]. split; [exact Hs|]. split; [exact Hr'|]. rewrite <- Hs.
  destruct midway_runs as [H0 H1].
  apply (verdicts_stand GEN_RING no_text PUBLIC_URL true _ _ _ _ _ _ _ _ (proj1 dispatched_base) H0 H1 Hr Hr').
  rewrite Hs. reflexivity.
Defined.

Definition OUTPUT : string := next_id 4 idle_studio.
Definition the_output (s : studio) : asset := default (full_asset "" "" None "" IMAGE) (d_assets (st_db s) !! OUTPUT).
Lemma one_output_each_witness :
  d_assets (st_db finished_studio) !! OUTPUT = Some (the_output finished_studio)
  /\ as_job (the_output finished_studio) = Some JOB
  /\ exists r, jobs_row JOB finished_studio = Some r /\ jb_state r = succeeded.
Proof.
  assert (Ha : d_assets (st_db finished_studio) !! OUTPUT = Some (the_output finished_studio)) by (vm_compute; reflexivity).
  assert (Hj : as_job (the_output finished_studio) = Some JOB) by (vm_compute; reflexivity).
  split; [exact Ha|]. split; [exact Hj|].
  exact (proj1 (one_output_each GEN_RING no_text PUBLIC_URL true _ _ _ _ _ _ (proj1 dispatched_base) finished_run Ha Hj)).
Defined.

Lemma outputs_are_there_witness :
  d_assets (st_db finished_studio) !! OUTPUT = Some (the_output finished_studio)
  /\ st_forfeited finished_studio = ∅
  /\ (is_Some (st_blobs finished_studio !! as_key (the_output finished_studio))
      \/ as_key (the_output finished_studio) ∈ st_forfeited finished_studio).
Proof.
  assert (Ha : d_assets (st_db finished_studio) !! OUTPUT = Some (the_output finished_studio)) by (vm_compute; reflexivity).
  assert (Hj : as_job (the_output finished_studio) = Some JOB) by (vm_compute; reflexivity).
  split; [exact Ha|]. split; [vm_compute; reflexivity|].
  exact (outputs_are_there GEN_RING no_text PUBLIC_URL _ _ _ _ _ _ (proj1 dispatched_base) (proj2 dispatched_base)
    finished_run Ha Hj).
Defined.

Lemma uploads_confined_witness :
  upload_authorized dispatch_key (JStr TOKEN) (st_proc dispatched_studio) = true
  /\ ~ (dispatch_key ∈ pair_list (storage_keys_for_attempt USER JOB 1)).
Proof.
  assert (Hu : upload_authorized dispatch_key (JStr TOKEN) (st_proc dispatched_studio) = true) by (vm_compute; reflexivity).
  split; [exact Hu|].
  refine (proj2 (uploads_confined GEN_RING no_text PUBLIC_URL true _ _ _ _ _ idle_base dispatched_run Hu) USER JOB 1 _).
  by vm_compute.
Defined.

(** ** Two schedules the code does not mean *)

Definition output_lost (s : studio) : bool :=
  existsb (fun ia : string * asset => bool_decide (as_job ia.2 = Some JOB) && none (st_blobs s !! as_key ia.2))
    (map_to_list (d_assets (st_db s))).

(** A cleanup can remove an output that was committed: when the commit of
    a dispatch fails after the command was sent, the job stays queued at its
    attempt and its second dispatch shares the library keys of the first.  If
    the worker's report on the first is still being followed when the job
    stalls, is sent again and completes, that handler then finds its entry
    replaced and purges the library copies it made, the winner's: the job is
    succeeded, its asset is shown, and there is no object under its key. *)
Theorem superseded_cleanup_loses_output :
  exists s, system_run GEN_RING no_text PUBLIC_URL true (idle_studio, []) (s, [])
  /\ (exists r, jobs_row JOB s = Some r /\ jb_state r = succeeded /\ jr_attempt (jb_run r) = 1)
  /\ exists aid a, d_assets (st_db s) !! aid = Some a /\ as_job a = Some JOB /\ st_blobs s !! as_key a = None.
Proof.
  exists (reached twice_as_one_attempt idle_studio). split; [apply reached_run; by vm_compute|]. split.
  - eexists. split; [vm_compute; reflexivity|]. by split.
  - exists (next_id 8 idle_studio), (default (full_asset "" "" None "" IMAGE)
      (d_assets (st_db (reached twice_as_one_attempt idle_studio)) !! next_id 8 idle_studio)).
    split_and!; vm_compute; reflexivity.
Qed.

Definition op_sends (X : Type) (o : op X) : option (nat * dict) := match o with Send w m => Some (w, m) | _ => None end.
Definition task_sends (p : prog op unit) : option (nat * dict) := match p with @Do _ _ X o _ => op_sends X o | _ => None end.
(** The loop is about to send a worker of protocol 6 a bare [dispatch_job]. *)
Definition sends_unjournaled (s : studio) (l : pool) : bool :=
  match l with
  | [(true, p)] =>
      match task_sends p with
      | Some (w, m) => (w_protocol (worker_of w (st_proc s)) =? 6) && bool_decide (get m "type" = JStr "dispatch_job")
                       && negb (has_key "command_id" m) && negb (has_key "command_sequence" m)
                       && negb (has_key "body_hash" m)
      | None => false
      end
  | _ => false
  end.

(** A worker of protocol 6 can be sent a command that is in no journal:
    the loop asks for the protocol of the worker it picks, then locks the row
    and picks again without asking.  When the worker of protocol 5 it had
    picked disconnects in between, the second pick is a worker of protocol 6,
    and what is sent over its socket is a bare [dispatch_job] without identity,
    sequence or hash. *)
Theorem unjournaled_command_to_protocol6 :
  exists s w m k, system_run GEN_RING no_text PUBLIC_URL true (idle_studio, []) (s, [(true, Do (Send w m) k)])
  /\ w_protocol (worker_of w (st_proc s)) = 6 /\ get m "type" = JStr "dispatch_job"
  /\ has_key "command_id" m = false /\ has_key "command_sequence" m = false /\ has_key "body_hash" m = false.
Proof.
  assert (Hc : match played chosen_again (idle_studio, []) with Some (s, l) => sends_unjournaled s l | None => false end = true)
    by (vm_compute; reflexivity).
  destruct (played chosen_again (idle_studio, [])) as [[s l]|] eqn:E; [|done]. apply play_run in E.
  destruct l as [|[[] [?|X o k|? ?]] [|? ?]]; try done. unfold sends_unjournaled, task_sends in Hc.
  destruct o; try done. cbn [op_sends] in Hc.
  rewrite !andb_true_iff, !negb_true_iff, Z.eqb_eq in Hc. destruct Hc as ((((Hw & Ht) & ?) & ?) & ?).
  apply bool_decide_eq_true_1 in Ht. by exists s, w, message, k.
Qed.

(** ** The queue *)

Lemma hint_le_spec a b : hint_le a b = true <->
  h_tier a < h_tier b
  \/ h_tier a = h_tier b /\ (h_enqueued a < h_enqueued b
                            \/ h_enqueued a = h_enqueued b /\ String.leb (h_id a) (h_id b) = true).
Proof.
  unfold hint_le. rewrite orb_true_iff, andb_true_iff, orb_true_iff, andb_true_iff.
  by rewrite !Z.ltb_lt, !Z.eqb_eq.
Qed.
Lemma hint_le_total a b : hint_le a b = false -> hint_le b a = true.
Proof.
  intros Hf. apply not_true_iff_false in Hf. apply hint_le_spec. rewrite hint_le_spec in Hf.
  destruct (Z.lt_trichotomy (h_tier a) (h_tier b)) as [?|[Et|?]]; [destruct Hf; by left| |by left].
  right. split; [done|]. destruct (Z.lt_trichotomy (h_enqueued a) (h_enqueued b)) as [?|[Ee|?]];
    [destruct Hf; right; split; [done|by left]| |by left].
  right. split; [done|]. apply string_leb_total, not_true_iff_false. intros Hs. apply Hf. auto.
Qed.
Lemma hint_le_refl a : hint_le a a = true.
Proof. destruct (hint_le a a) eqn:E; [done|]. pose proof (hint_le_total _ _ E). congruence. Qed.
Lemma hint_le_trans a b c : hint_le a b = true -> hint_le b c = true -> hint_le a c = true.
Proof.
  rewrite !hint_le_spec.
  assert (Ht : String.leb (h_id a) (h_id b) = true -> String.leb (h_id b) (h_id c) = true ->
               String.leb (h_id a) (h_id c) = true).
  { intros H1 H2. apply leb_le in H1, H2. apply leb_le. by etransitivity. }
  intros [?|[? [?|[? ?]]]] [?|[? [?|[? ?]]]]; try (left; lia); right; split; try lia; try (left; lia); right;
    split; [lia|auto].
Qed.

Lemma least_hint_spec h l : least_hint h l ∈ h :: l /\ forall x, x ∈ h :: l -> hint_le (least_hint h l) x = true.
Proof.
  revert h. induction l as [|y l IH]; intros h; cbn [least_hint].
  - split; [left|]. intros x ->%list_elem_of_singleton. apply hint_le_refl.
  - destruct (IH (if hint_le h y then h else y)) as [Hin Hle]. split; [destruct (hint_le h y); set_solver|].
    assert (Hbest : forall x, x = h \/ x = y -> hint_le (if hint_le h y then h else y) x = true).
    { intros x Hx. destruct (hint_le h y) eqn:E; [|apply hint_le_total in E]; destruct Hx as [->| ->]; done || apply hint_le_refl. }
    intros x Hx. assert (Hcase : (x = h \/ x = y) \/ x ∈ l) by set_solver.
    destruct Hcase as [Hx'|Hx']; [|apply Hle; by right].
    eapply hint_le_trans; [apply Hle; left|by apply Hbest].
Qed.
Lemma drop_hint_spec h l : h ∈ l -> l ≡ₚ h :: drop_hint h l.
Proof.
  induction l as [|x l IH]; [by intros ?%elem_of_nil|]. cbn. intros Hin. case_decide as E; [by subst|].
  apply elem_of_cons in Hin as [->|Hin]; [done|]. rewrite (IH Hin) at 1. apply Permutation_swap.
Qed.

(** The queue gives the right job: a pop returns a hint of the least tier,
    of these one that was submitted first, and of these the least id; the
    others stay, and a push only adds its own. *)
Theorem queue_pops_least heap h rest :
  heap_pop heap = (Some h, rest) ->
  heap ≡ₚ heap_push h rest
  /\ forall x, x ∈ heap -> h_tier h < h_tier x
       \/ h_tier h = h_tier x /\ (h_enqueued h < h_enqueued x
                                \/ h_enqueued h = h_enqueued x /\ String.leb (h_id h) (h_id x) = true).
Proof.
  destruct heap as [|h0 l]; [done|]. unfold heap_pop. intros [= <- <-]. destruct (least_hint_spec h0 l) as [Hin Hle].
  split; [by apply drop_hint_spec|]. intros x Hx. by apply hint_le_spec, Hle.
Qed.

Definition hint_b : queue_hint := {| h_tier := 1; h_enqueued := 7; h_id := "b" |}.
Definition hint_c : queue_hint := {| h_tier := 1; h_enqueued := 5; h_id := "c" |}.
Lemma queue_pops_least_witness :
  heap_pop [hint_b; hint_c] = (Some hint_c, [hint_b]) /\ [hint_b; hint_c] ≡ₚ heap_push hint_c [hint_b].
Proof.
  assert (E : heap_pop [hint_b; hint_c] = (Some hint_c, [hint_b])) by (vm_compute; reflexivity).
  split; [exact E|]. exact (proj1 (queue_pops_least _ _ _ E)).
Defined.

(** ** The mailbox *)

(** C38.  A subscriber misses no verdict: after any events a mailbox that began
    empty holds exactly one, the last verdict if there was one and else the
    newest event; later progress never displaces a verdict. *)
Theorem mailbox_keeps_verdict (events : list dict) :
  foldl (fun q e => post_event e q) [] events
  = match last (filter (fun e => event_terminal e = true) events), last events with
    | Some verdict, _ => [verdict]
    | None, Some newest => [newest]
    | None, None => []
    end.
Proof.
  induction events as [|e events IH] using rev_ind; [done|].
  rewrite foldl_app, IH, filter_app, last_snoc. cbn [foldl]. unfold post_event at 1. destruct (event_terminal e) eqn:Ee.
  - rewrite filter_cons_True, filter_nil, last_snoc by done. done.
  - rewrite filter_cons_False, filter_nil, app_nil_r by congruence.
    destruct (last (filter _ events)) as [v|] eqn:Ev.
    + assert (Hv : event_terminal v = true).
      { apply last_Some in Ev as [l El].
        assert (Hin : v ∈ filter (fun e => event_terminal e = true) events) by (rewrite El; set_solver).
        by apply list_elem_of_filter in Hin as [? _]. }
      cbn. by rewrite Hv.
    + destruct (last events) as [x|] eqn:Ex; [|done]. cbn. destruct (event_terminal x) eqn:Et; [|done].
      exfalso. apply last_Some in Ex as [l ->]. rewrite filter_app, filter_cons_True in Ev by done.
      by rewrite filter_nil, last_snoc in Ev.
Qed.
