(* ===== verification/Relay.v ===== *)
(** * The realtime relay: sessions, slots and the queue

    Models the session half of src/backend/app/realtime.py: the workers a
    process knows, the browser sessions it holds, the slot each occupies, the
    queue of those that wait, their mailboxes, and the tasks that place, shed,
    resume, release and close them.

    A task is a [prog] over the operations below.  The code between two awaits
    is one [Now] or the end of one [Wait]; so what picks a worker, takes its
    slot and ends the attempt before is one step where the code has no await in
    between.  Workers are handles, a session object is its id: it stays an
    object after the dictionary has lost it.  What names this process in the
    context of a command is left to the command store. *)

From S2P Require Import Prelude PyFloat Hashes Json Protocol6 Uuid PyInt ODict Tasks JobTables Jobs.
Open Scope Z_scope.

Definition MAX_CANVAS_PAYLOAD_BYTES : Z := 1 * 1024 * 1024.
Definition CLOSE_PROTOCOL_VIOLATION : Z := 4000.
Definition CLOSE_NO_CAPACITY : Z := 4003.
Definition ERROR_FRAME_TOO_LARGE : Z := 4005.
Definition CLOSE_UNAUTHORIZED : Z := 4401.
Definition REALTIME_BAR_MS : Z := 500.
Definition MAX_REALTIME_SESSIONS_PER_USER : Z := 2.
(** Times are microseconds of the monotonic clock. *)
Definition FRAME_TOO_LARGE_INTERVAL : Z := 1000000.
Definition WORKER_DEAD : Z := 90000000.
Definition IDLE_RELEASE : Z := 60000000.
Definition FRAME_HEADER_2_VERSION : Z := 5.
Definition CANVAS_FRAME : Z := 1.
Definition GENERATED_FRAME : Z := 2.
Definition LEGACY_FRAME_HEADER_BYTES : nat := 17.
Definition FRAME_HEADER_BYTES : nat := 21.

(** ** Workers *)

(** What the relay adds to the scheduler's columns of a worker. *)
Record relay_worker := {
  rw_base : worker; rw_slots : Z; rw_p95 : option (gmap string Z); rw_batch : option (gmap string (list Z));
  rw_seen : Z
}.
Definition rw_in_use (w : relay_worker) : Z := w_slots_in_use (rw_base w).
Definition free_slots (w : relay_worker) : Z := rw_slots w - rw_in_use w.
Definition takes_sessions (t : Z) (w : relay_worker) : bool := takes_jobs t (rw_base w).
Definition serves (model : string) (w : relay_worker) : bool := bool_decide (model ∈ w_models (rw_base w)).

Definition set_slots (n : Z) (w : worker) : worker :=
  {| w_id := w_id w; w_incarnation := w_incarnation w; w_nonce := w_nonce w; w_protocol := w_protocol w;
     w_transport := w_transport w; w_models := w_models w; w_slots_in_use := n; w_jobs := w_jobs w;
     w_ready := w_ready w; w_deadline := w_deadline w |}.
Definition add_slots (n : Z) (w : relay_worker) : relay_worker :=
  {| rw_base := set_slots (rw_in_use w + n) (rw_base w); rw_slots := rw_slots w; rw_p95 := rw_p95 w;
     rw_batch := rw_batch w; rw_seen := rw_seen w |}.

(** ** Sessions *)

Inductive session_state : Type := SQueued | SAssigning | SLive | SIdle | SEnding | SEnded.
Global Instance session_state_eq_dec : EqDecision session_state.
Proof. solve_decision. Defined.

(** Where the session stands with the workers. *)
Record placement := {
  pl_worker : option nat; pl_state : session_state; pl_generation : Z; pl_attempt : option string;
  pl_ready : bool; pl_ok : bool; pl_assigned : Z; pl_queued : option Z; pl_position : option Z
}.
(** Its parameters; [pm_stamp] tells one object of [desired_params] from the
    next, which the code compares with [is]. *)
Record parameters := {
  pm_params : dict; pm_revision : Z; pm_desired : dict; pm_desired_revision : Z; pm_stamp : Z
}.
(** What the browser has drawn; a frame is its bytes. *)
Abbreviation bytes := (list Z).
Record drawing := {
  dr_last : Z; dr_revision : Z; dr_forwarded : Z; dr_pending : option bytes; dr_error_after : Z
}.
(** The outbox of the browser. *)
Record mailbox := {
  mb_controls : list dict; mb_frame : option bytes; mb_close : option (Z * option string); mb_wake : bool
}.
Record session := {
  se_model : string; se_user : option string; se_auth : option string; se_header : Z;
  se_place : placement; se_params : parameters; se_drawing : drawing; se_mail : mailbox
}.
Definition on_place (f : placement -> placement) (s : session) : session :=
  {| se_model := se_model s; se_user := se_user s; se_auth := se_auth s; se_header := se_header s;
     se_place := f (se_place s); se_params := se_params s; se_drawing := se_drawing s; se_mail := se_mail s |}.
Definition on_params (f : parameters -> parameters) (s : session) : session :=
  {| se_model := se_model s; se_user := se_user s; se_auth := se_auth s; se_header := se_header s;
     se_place := se_place s; se_params := f (se_params s); se_drawing := se_drawing s; se_mail := se_mail s |}.
Definition on_drawing (f : drawing -> drawing) (s : session) : session :=
  {| se_model := se_model s; se_user := se_user s; se_auth := se_auth s; se_header := se_header s;
     se_place := se_place s; se_params := se_params s; se_drawing := f (se_drawing s); se_mail := se_mail s |}.
Definition on_mail (f : mailbox -> mailbox) (s : session) : session :=
  {| se_model := se_model s; se_user := se_user s; se_auth := se_auth s; se_header := se_header s;
     se_place := se_place s; se_params := se_params s; se_drawing := se_drawing s; se_mail := f (se_mail s) |}.
Definition state_of (s : session) : session_state := pl_state (se_place s).

Definition set_state (st : session_state) (pl : placement) : placement :=
  {| pl_worker := pl_worker pl; pl_state := st; pl_generation := pl_generation pl; pl_attempt := pl_attempt pl;
     pl_ready := pl_ready pl; pl_ok := pl_ok pl; pl_assigned := pl_assigned pl; pl_queued := pl_queued pl;
     pl_position := pl_position pl |}.
Definition set_worker (w : option nat) (pl : placement) : placement :=
  {| pl_worker := w; pl_state := pl_state pl; pl_generation := pl_generation pl; pl_attempt := pl_attempt pl;
     pl_ready := pl_ready pl; pl_ok := pl_ok pl; pl_assigned := pl_assigned pl; pl_queued := pl_queued pl;
     pl_position := pl_position pl |}.
Definition set_answer (ready ok : bool) (pl : placement) : placement :=
  {| pl_worker := pl_worker pl; pl_state := pl_state pl; pl_generation := pl_generation pl;
     pl_attempt := pl_attempt pl; pl_ready := ready; pl_ok := ok; pl_assigned := pl_assigned pl;
     pl_queued := pl_queued pl; pl_position := pl_position pl |}.
Definition set_attempt (a : option string) (pl : placement) : placement :=
  {| pl_worker := pl_worker pl; pl_state := pl_state pl; pl_generation := pl_generation pl; pl_attempt := a;
     pl_ready := pl_ready pl; pl_ok := pl_ok pl; pl_assigned := pl_assigned pl; pl_queued := pl_queued pl;
     pl_position := pl_position pl |}.
Definition set_assigned (t : Z) (pl : placement) : placement :=
  {| pl_worker := pl_worker pl; pl_state := pl_state pl; pl_generation := pl_generation pl;
     pl_attempt := pl_attempt pl; pl_ready := pl_ready pl; pl_ok := pl_ok pl; pl_assigned := t;
     pl_queued := pl_queued pl; pl_position := pl_position pl |}.
Definition set_queue (queued position : option Z) (pl : placement) : placement :=
  {| pl_worker := pl_worker pl; pl_state := pl_state pl; pl_generation := pl_generation pl;
     pl_attempt := pl_attempt pl; pl_ready := pl_ready pl; pl_ok := pl_ok pl; pl_assigned := pl_assigned pl;
     pl_queued := queued; pl_position := position |}.
Definition next_generation (pl : placement) : placement :=
  {| pl_worker := pl_worker pl; pl_state := pl_state pl; pl_generation := pl_generation pl + 1;
     pl_attempt := pl_attempt pl; pl_ready := pl_ready pl; pl_ok := pl_ok pl; pl_assigned := pl_assigned pl;
     pl_queued := pl_queued pl; pl_position := pl_position pl |}.
(** [session.params = dict(session.desired_params)] and the two revisions. *)
Definition restart_params (pm : parameters) : parameters :=
  {| pm_params := pm_desired pm; pm_revision := 1; pm_desired := pm_desired pm; pm_desired_revision := 1;
     pm_stamp := pm_stamp pm |}.
Definition set_desired (d : dict) (revision : Z) (pm : parameters) : parameters :=
  {| pm_params := pm_params pm; pm_revision := pm_revision pm; pm_desired := d; pm_desired_revision := revision;
     pm_stamp := pm_stamp pm + 1 |}.
Definition set_params (d : dict) (revision : Z) (pm : parameters) : parameters :=
  {| pm_params := d; pm_revision := revision; pm_desired := pm_desired pm;
     pm_desired_revision := pm_desired_revision pm; pm_stamp := pm_stamp pm |}.
(** A new attempt opens with the desired parameters. *)
Definition new_attempt (s : session) : session := on_params restart_params (on_place next_generation s).

(** ** The mailbox *)

Definition post (control : dict) : session -> session := on_mail (fun m =>
  match mb_close m with
  | Some _ => m
  | None => {| mb_controls := mb_controls m ++ [control]; mb_frame := mb_frame m; mb_close := None; mb_wake := true |}
  end).
Definition post_frame (data : bytes) : session -> session := on_mail (fun m =>
  match mb_close m with
  | Some _ => m
  | None => {| mb_controls := mb_controls m; mb_frame := Some data; mb_close := None; mb_wake := true |}
  end).
Definition post_close (code : Z) (message : option string) : session -> session := on_mail (fun m =>
  match mb_close m with
  | Some _ => m
  | None => {| mb_controls := mb_controls m; mb_frame := None; mb_close := Some (code, message); mb_wake := true |}
  end).

Definition set_error_after (t : Z) (d : drawing) : drawing :=
  {| dr_last := dr_last d; dr_revision := dr_revision d; dr_forwarded := dr_forwarded d; dr_pending := dr_pending d;
     dr_error_after := t |}.
Definition set_pending (f : option bytes) (d : drawing) : drawing :=
  {| dr_last := dr_last d; dr_revision := dr_revision d; dr_forwarded := dr_forwarded d; dr_pending := f;
     dr_error_after := dr_error_after d |}.
Definition set_forwarded (r : Z) (d : drawing) : drawing :=
  {| dr_last := dr_last d; dr_revision := dr_revision d; dr_forwarded := r; dr_pending := dr_pending d;
     dr_error_after := dr_error_after d |}.
Definition accept_input (t revision : Z) (d : drawing) : drawing :=
  {| dr_last := t; dr_revision := revision; dr_forwarded := dr_forwarded d; dr_pending := dr_pending d;
     dr_error_after := dr_error_after d |}.

Definition frame_too_large : dict :=
  [("type", JStr "error"); ("code", JInt ERROR_FRAME_TOO_LARGE);
   ("message", JStr ("canvas frame exceeds " +:+ dec_string MAX_CANVAS_PAYLOAD_BYTES +:+ " bytes"))].
Definition post_frame_too_large (t : Z) (s : session) : session :=
  if (t <? dr_error_after (se_drawing s)) || negb (bool_decide (mb_controls (se_mail s) = [])) then s
  else post frame_too_large (on_drawing (set_error_after (t + FRAME_TOO_LARGE_INTERVAL)) s).

(** ** The process *)

Record relay := {
  r_objects : gmap nat relay_worker;
  r_workers : list (string * nat);
  r_sessions : gmap string session;
  r_open : list string;
  r_closing : list ((string * Z) * (string * string * nat));
  r_admission : bool; r_database : bool
}.
Definition on_objects f (p : relay) : relay :=
  {| r_objects := f (r_objects p); r_workers := r_workers p; r_sessions := r_sessions p; r_open := r_open p;
     r_closing := r_closing p; r_admission := r_admission p; r_database := r_database p |}.
Definition on_workers f (p : relay) : relay :=
  {| r_objects := r_objects p; r_workers := f (r_workers p); r_sessions := r_sessions p; r_open := r_open p;
     r_closing := r_closing p; r_admission := r_admission p; r_database := r_database p |}.
Definition on_sessions f (p : relay) : relay :=
  {| r_objects := r_objects p; r_workers := r_workers p; r_sessions := f (r_sessions p); r_open := r_open p;
     r_closing := r_closing p; r_admission := r_admission p; r_database := r_database p |}.
Definition on_open f (p : relay) : relay :=
  {| r_objects := r_objects p; r_workers := r_workers p; r_sessions := r_sessions p; r_open := f (r_open p);
     r_closing := r_closing p; r_admission := r_admission p; r_database := r_database p |}.
Definition on_closing f (p : relay) : relay :=
  {| r_objects := r_objects p; r_workers := r_workers p; r_sessions := r_sessions p; r_open := r_open p;
     r_closing := f (r_closing p); r_admission := r_admission p; r_database := r_database p |}.

Definition no_session : session :=
  {| se_model := ""; se_user := None; se_auth := None; se_header := 1;
     se_place := {| pl_worker := None; pl_state := SEnded; pl_generation := 1; pl_attempt := None; pl_ready := false;
                    pl_ok := false; pl_assigned := 0; pl_queued := None; pl_position := None |};
     se_params := {| pm_params := []; pm_revision := 1; pm_desired := []; pm_desired_revision := 1; pm_stamp := 0 |};
     se_drawing := {| dr_last := 0; dr_revision := 0; dr_forwarded := 0; dr_pending := None; dr_error_after := 0 |};
     se_mail := {| mb_controls := []; mb_frame := None; mb_close := None; mb_wake := false |} |}.
Definition bare_worker : relay_worker :=
  {| rw_base := no_worker; rw_slots := 0; rw_p95 := None; rw_batch := None; rw_seen := 0 |}.
(** Every id and handle in use has an object. *)
Definition session_of (id : string) (p : relay) : session := default no_session (r_sessions p !! id).
Definition worker_at (w : nat) (p : relay) : relay_worker := default bare_worker (r_objects p !! w).
Definition update (id : string) (f : session -> session) : relay -> relay := on_sessions (alter f id).
Definition is_live (id : string) (p : relay) : bool := bool_decide (id ∈ r_open p).
Definition connected (w : nat) (p : relay) : bool :=
  bool_decide (od_get (w_id (rw_base (worker_at w p))) (r_workers p) = Some w).
Definition held_by (w : nat) (s : session) : bool := bool_decide (pl_worker (se_place s) = Some w).

Definition transition (id : string) (expected : list session_state) (new : session_state) (p : relay) : bool * relay :=
  let st := state_of (session_of id p) in
  if decide (st = SEnded) then (false, p)
  else if decide (st ∈ expected) then (true, update id (on_place (set_state new)) p)
  else (false, p).

(** ** The queue *)

Definition queue_key (s : session) : Z := default 0 (pl_queued (se_place s)).
(** A stable sort. *)
Definition insert_by {A} (key : A -> Z) (x : A) : list A -> list A :=
  fix go l := match l with [] => [x] | y :: l => if key x <=? key y then x :: y :: l else y :: go l end.
Definition queued_sessions (p : relay) : list string :=
  foldr (insert_by (fun id => queue_key (session_of id p))) []
    (filter (fun id => state_of (session_of id p) = SQueued) (r_open p)).

Definition queued_event (position : Z) : dict := [("type", JStr "queued"); ("position", JInt position)].
Definition set_position (position : Z) (pl : placement) : placement := set_queue (pl_queued pl) (Some position) pl.
Definition tell_position (force : bool) (position : Z) (s : session) : session :=
  on_place (set_position position)
    (if force || negb (bool_decide (pl_position (se_place s) = Some position)) then post (queued_event position) s else s).
Definition post_positions (force : bool) (p : relay) : relay :=
  foldl (fun p ni => update ni.2 (tell_position force (Z.of_nat (S ni.1))) p) p
    (imap pair (queued_sessions p)).
Definition keepalive : dict := [("type", JStr "keepalive")].
Definition post_keepalives (p : relay) : relay :=
  foldl (fun p id => update id (fun s =>
    if negb (bool_decide (state_of s = SQueued)) && bool_decide (mb_controls (se_mail s) = []) then post keepalive s else s) p)
    p (r_open p).

Definition requeue (t : Z) (id : string) (p : relay) : bool * relay :=
  let '(moved, p) := transition id [SAssigning] SQueued p in
  if moved then
    (true, post_positions false (update id (on_place (fun pl =>
       set_queue (match pl_queued pl with Some q => Some q | None => Some t end) (pl_position pl) pl)) p))
  else (false, p).

(** ** Admission *)

Definition count_models (l : list string) : list (string * Z) :=
  foldl (fun c m => od_set m (default 0 (od_get m c) + 1) c) [] l.
(** The models of the sessions in the dictionary that are on [w]. *)
Definition models_on (w : nat) (excluding : list string) (p : relay) : list string :=
  (fun id => se_model (session_of id p)) <$>
    filter (fun id => held_by w (session_of id p) = true /\ ~ (id ∈ excluding)) (r_open p).
Definition class_cost (w : relay_worker) (model : string) (count : Z) : Z :=
  if count <=? 0 then 0
  else match default ∅ (rw_batch w) !! model with
       | Some curve => if count <=? Z.of_nat (length curve) then default 0 (curve !! Z.to_nat (count - 1))
                       else REALTIME_BAR_MS + 1
       | None => match default ∅ (rw_p95 w) !! model with Some p95 => count * p95 | None => 0 end
       end.
Definition class_admission_cost (w : relay_worker) (counts : list (string * Z)) : Z :=
  foldr (fun mc total => class_cost w mc.1 mc.2 + total) 0 counts.
Definition live_admission_cost (w : nat) (extra : option string) (excluding : list string) (p : relay) : Z :=
  match rw_p95 (worker_at w p) with
  | None => 0
  | Some _ => class_admission_cost (worker_at w p)
                (count_models (models_on w excluding p ++ match extra with Some m => [m] | None => [] end))
  end.

(** How much room the worker has for the model; [None]: none. *)
Definition leftover (t : Z) (model : string) (w : nat) (p : relay) : option Z :=
  let o := worker_at w p in
  if takes_sessions t o && serves model o && has_current_work_grant t (rw_base o) then
    match rw_p95 o with
    | None => if 0 <? free_slots o then Some (free_slots o) else None
    | Some p95 =>
        match p95 !! model with
        | None => None
        | Some _ => let room := REALTIME_BAR_MS - live_admission_cost w (Some model) [] p in
                    if 0 <=? room then Some room else None
        end
    end
  else None.
(** [max(ranked, key=...)]: the first of the greatest. *)
Fixpoint best_ranked (best : Z * nat) (l : list (Z * nat)) : nat :=
  match l with
  | [] => best.2
  | x :: l => best_ranked (if best.1 <? x.1 then x else best) l
  end.
Definition pick_worker (t : Z) (model : string) (excluded : list string) (p : relay) : option nat :=
  match omap (fun ih : string * nat =>
          if bool_decide (w_id (rw_base (worker_at ih.2 p)) ∈ excluded) then None
          else (fun room => (room, ih.2)) <$> leftover t model ih.2 p) (r_workers p) with
  | [] => None
  | x :: l => Some (best_ranked x l)
  end.
Definition model_known (t : Z) (model : string) (p : relay) : bool :=
  existsb (fun ih : string * nat => serves model (worker_at ih.2 p) && takes_sessions t (worker_at ih.2 p)) (r_workers p).

(** The sessions it starts to admit. *)
Definition admit_queued (t : Z) (p : relay) : list string * relay :=
  let '(admitted, p) := foldl (fun '(admitted, p) id =>
    match pick_worker t (se_model (session_of id p)) [] p with
    | None => (admitted, p)
    | Some _ => let '(moved, p) := transition id [SQueued] SAssigning p in
                (if moved then admitted ++ [id] else admitted, p)
    end) ([], p) (queued_sessions p) in
  (admitted, post_positions false p).

(** Newest first, until what is left fits. *)
Fixpoint shed_until (w : nat) (l victims : list string) (p : relay) : list string :=
  match l with
  | [] => victims
  | id :: l => let victims := victims ++ [id] in
               if live_admission_cost w None victims p <=? REALTIME_BAR_MS then victims else shed_until w l victims p
  end.
Definition over_capacity_sessions (w : nat) (p : relay) : list string :=
  match rw_p95 (worker_at w p) with
  | None => []
  | Some _ =>
      if live_admission_cost w None [] p <=? REALTIME_BAR_MS then []
      else shed_until w
             (foldr (insert_by (fun id => - pl_assigned (se_place (session_of id p)))) []
                (filter (fun id => held_by w (session_of id p) = true /\ state_of (session_of id p) = SLive) (r_open p)))
             [] p
  end.

(** ** Slots *)

Definition take_slot (id : string) (w : nat) (p : relay) : relay :=
  on_objects (alter (add_slots 1) w)
    (update id (on_place (fun pl => set_answer false false (set_worker (Some w) pl))) p).
Definition give_back (id : string) (w : nat) (p : relay) : relay :=
  on_objects (alter (add_slots (-1)) w) (update id (on_place (set_worker None)) p).

Definition message_generation (control : dict) : option Z :=
  match get control "control_generation" with JInt z => if z <? 1 then None else Some z | _ => None end.
Definition with_generation (payload : dict) (generation : Z) : dict :=
  set_key "control_generation" (JInt generation) payload.

(** The 21 bytes inside, as each side speaks them. *)
Fixpoint be_value (l : bytes) (acc : Z) : Z := match l with [] => acc | b :: l => be_value l (acc * 256 + b) end.
Definition revision_bytes (frame : bytes) : bytes := take 4 (drop LEGACY_FRAME_HEADER_BYTES frame).
Definition frame_revision (frame : bytes) : Z := be_value (revision_bytes frame) 0.
Definition without_revision (frame : bytes) : bytes :=
  take LEGACY_FRAME_HEADER_BYTES frame ++ drop FRAME_HEADER_BYTES frame.
Definition with_revision (revision : Z) (frame : bytes) : bytes :=
  take LEGACY_FRAME_HEADER_BYTES frame ++ be_bytes 4 revision ++ drop LEGACY_FRAME_HEADER_BYTES frame.
Definition to_worker_frame (w : relay_worker) (frame : bytes) (s : session) : bytes * session :=
  (if w_protocol (rw_base w) <? FRAME_HEADER_2_VERSION then without_revision frame else frame,
   on_drawing (set_forwarded (frame_revision frame)) s).
Definition to_browser_frame (s : session) (frame : bytes) : bytes :=
  if se_header s =? 1 then without_revision frame else frame.
Definition frame_header_bytes (header : Z) : nat :=
  if header =? 1 then LEGACY_FRAME_HEADER_BYTES else FRAME_HEADER_BYTES.

Definition arm_settlement (id : string) (w : nat) (generation : Z) (p : relay) : relay :=
  match se_user (session_of id p) with
  | Some user => if connected w p
                 then on_closing (od_set (id, generation) (user, se_model (session_of id p), w)) p else p
  | None => p
  end.

(** ** Awaited operations *)

(** What a segment draws from outside: the clock, fresh ids and a seed. *)
Record tick := { tk_now : Z; tk_id : string; tk_range : string; tk_seed : Z }.
(** What the browser sent; a control comes parsed, or refused. *)
Inductive incoming : Type := Disconnected | Frame (data : bytes) | Control (control : result exn dict).
Inductive outgoing : Type := OutControl (control : dict) | OutFrame (data : bytes) | OutClose (code : Z).

Inductive op : Type -> Type :=
| Now {X : Type} (f : tick -> relay -> X * relay) : op X
(** Waits for [ready], or, when it is limited, until it times out. *)
| Wait {X : Type} (limited : bool) (ready : relay -> bool) (f : bool -> tick -> relay -> X * relay) : op X
| Send (w : nat) (message : dict) : op (result exn unit)
| SendFrame (w : nat) (data : bytes) : op unit
(** The preparation of a command: whether it was committed. *)
| Commit (w : nat) (kind : string) (fields : dict) (context : option dict) : op (result exn bool)
| Deliver (w : nat) : op unit
| Abandon (id : string) (generation : Z) (attempt : string) : op (result exn unit)
| EndSession (id : string) (generation : Z) : op (result exn unit)
| ReadDesired (id user : string) (generation : Z) : op (result exn (option (dict * Z)))
| AcceptReady (w : nat) (control : dict) : op (result exn bool)
| StillLive (auth : option string) : op bool
| LiveAmong (auths : list string) : op (result exn (list string))
| Receive (id : string) : op incoming
| Tell (id : string) (o : outgoing) : op unit
| Sleep : op unit
| Never : op Empty_set.

Abbreviation handler := (Tasks.handler op).
Definition segment {X} (f : tick -> relay -> X * relay) : handler X := call (Now f).
Definition look {X} (f : relay -> X) : handler X := call (Now (fun _ p => (f p, p))).
Definition change (f : relay -> relay) : handler unit := call (Now (fun _ p => (tt, f p))).
(** The bound of a loop of the model is used up: nothing more happens. *)
Definition out_of_fuel {A} : handler A := Do Never (fun e : Empty_set => match e with end).
(** [safe_send] *)
Definition safe_send (w : nat) (message : dict) : handler unit := _ ← call (Send w message); mret tt.
Definition spawn_all {A} (f : A -> handler unit) (l : list A) : handler unit :=
  foldr (fun x rest => Fork (forget (f x)) rest) (Ret (Ok tt)) l.

(** [send_v6_command] *)
Definition work_granted (t : Z) (w : nat) (p : relay) : bool :=
  let o := rw_base (worker_at w p) in
  (w_protocol o =? 6) && has_current_work_grant t o && bool_decide (is_Some (w_incarnation o)) && bool_decide (is_Some (w_nonce o)) && connected w p.
(** A refused command is a [ProtocolError]; what else the preparation raises
    comes through. *)
Definition send_v6 (w : nat) (kind : string) (fields : dict) (context : option dict) (mirror : relay -> relay)
    : handler unit :=
  granted ← segment (fun tk p => (work_granted (tk_now tk) w p, p));
  if negb granted then throw (ProtocolError "worker has no current protocol6 work grant") else
  prepared ← call (Commit w kind fields context);
  match prepared with
  | Ok committed =>
      _ ← (if (committed : bool) then change mirror else mret tt);
      call (Deliver w)
  | Err (CommandRefused _) => throw (ProtocolError "worker command was refused")
  | Err e => throw e
  end.
Definition as_mirrored (id : string) (generation : Z) (attempt : option string) (stamp : Z) (params : dict) (revision : Z)
    (p : relay) : relay :=
  let s := session_of id p in
  if is_live id p && (pl_generation (se_place s) =? generation)
     && bool_decide (pl_attempt (se_place s) = attempt) && (pm_stamp (se_params s) =? stamp)
  then update id (on_params (set_desired params revision)) p else p.

(** ** Ending an attempt *)

Inductive closing_call : Type := CallAbandon (attempt : string) | CallClose.
(** [close_abandoned_session], up to its await. *)
Definition abandoned_call (id : string) (w : nat) (p : relay) : option closing_call :=
  if connected w p then
    if w_protocol (rw_base (worker_at w p)) =? 6
    then CallAbandon <$> pl_attempt (se_place (session_of id p))
    else Some CallClose
  else None.
Definition close_message (id : string) (generation : Z) : dict :=
  with_generation [("type", JStr "close_session"); ("session_id", JStr id)] generation.
Definition close_abandoned (id : string) (w : nat) (generation : Z) (c : closing_call) : handler unit :=
  match c with
  | CallAbandon attempt_id => attempt (Abandon id generation attempt_id)
  | CallClose => safe_send w (close_message id generation)
  end.

(** [_send_v6_close_session]; a close that takes too long raises [TimeoutError]. *)
Definition send_v6_close (id : string) (w : nat) (generation : Z) (attempt_id user : option string) (v6 terminal : bool)
    : handler bool :=
  match attempt_id, user with
  | Some a, Some u =>
      if negb v6 then mret false else
      sent ← call_result (send_v6 w "close_session"
        [("session_id", JStr id); ("attempt_id", JStr a); ("control_generation", JInt generation)]
        (if terminal then Some [("terminal", JBool true)] else None) (fun p => p));
      match sent with
      | Ok _ => mret true
      | Err (ProtocolError _) => mret false
      | Err e => throw e
      end
  | _, _ => mret false
  end.

(** [_end_and_fence] and the deadline of a close. *)
Definition end_and_fence (id : string) (generation : Z) : handler unit :=
  open ← look r_admission;
  if (open : bool) then spawn (forget (attempt (EndSession id generation))) else attempt (EndSession id generation).
Definition close_deadline (id : string) (generation : Z) (w : nat) : handler unit :=
  _ ← call Sleep;
  due ← look (fun p => connected w p && r_admission p);
  if (due : bool) then end_and_fence id generation else mret tt.

(** ** Giving the slot back *)

Inductive releasing : Type :=
| RAdmit (admitted : list string)
| RClose (w : nat) (generation : Z)
| RIdle (w : nat) (generation : Z) (attempt user : option string)
| REnd (w : nat) (generation : Z) (attempt user : option string) (closing : bool).

(** [release], up to its first await. *)
Definition release_begin (closing : bool) (id : string) (t : Z) (p : relay) : releasing * relay :=
  let s := session_of id p in
  let admits p := let '(admitted, p) := admit_queued t p in (RAdmit admitted, p) in
  match pl_worker (se_place s) with
  | None => admits p
  | Some w =>
      let generation := pl_generation (se_place s) in
      let p := give_back id w p in
      if connected w p then
        let p := arm_settlement id w generation p in
        if w_protocol (rw_base (worker_at w p)) =? 6 then
          if decide (state_of s = SIdle) then (RIdle w generation (pl_attempt (se_place s)) (se_user s), p)
          else (REnd w generation (pl_attempt (se_place s)) (se_user s) closing, p)
        else (RClose w generation, p)
      else admits p
  end.

(** [with suppress(asyncio.TimeoutError)] *)
Definition suppress_timeout (h : handler unit) : handler unit :=
  catch h (fun e => match e with TimeoutError => mret tt | e => throw e end).

(** How the tasks that [admit_queued] starts run. *)
Section Releasing.
Variable admission : string -> handler unit.

Definition admit_waiting : handler unit :=
admitted ← segment (fun tk p => admit_queued (tk_now tk) p);
spawn_all admission admitted.

Definition release_rest (id : string) (r : releasing) : handler unit :=
match r with
| RAdmit admitted => spawn_all admission admitted
| RClose w generation => _ ← suppress_timeout (safe_send w (close_message id generation)); admit_waiting
| RIdle w generation attempt_id user =>
    _ ← suppress_timeout
      (sent ← send_v6_close id w generation attempt_id user true false;
       if (sent : bool) then mret tt else
       now_attempt ← look (fun p => pl_attempt (se_place (session_of id p)));
       match now_attempt with
       | Some a => attempt (Abandon id generation a)
       | None => mret tt
       end);
    admit_waiting
| REnd w generation attempt_id user closing =>
    closed ← (if (closing : bool)
              then catch (send_v6_close id w generation attempt_id user true true)
                         (fun e => match e with TimeoutError => mret false | e => throw e end)
              else mret false);
    _ ← (if (closed : bool) then spawn (forget (close_deadline id generation w))
         else suppress_timeout (end_and_fence id generation));
    admit_waiting
end.

Definition release (closing : bool) (id : string) : handler unit :=
r ← segment (fun tk p => release_begin closing id (tk_now tk) p);
release_rest id r.

End Releasing.

(** ** Placing *)

Record opening := { op_sent : Z; op_v6 : bool; op_attempt : string; op_fields : dict; op_context : dict }.
(** Where the loop of [place_session] stands: done, with what its caller did
    next, opening the session on a worker, or giving an open up. *)
Inductive placing (X : Type) : Type :=
| Placed (x : X)
| Trying (w : nat) (o : opening) (skipped : list string)
| Abandoning (w : nat) (sent : Z) (c : closing_call) (skipped : list string).
Arguments Placed {X} x.
Arguments Trying {X} w o skipped.
Arguments Abandoning {X} w sent c skipped.

Definition opt_str (o : option string) : json := match o with Some s => JStr s | None => JNull end.
Definition open_fields (id attempt range : string) (s : session) : dict :=
  [("session_id", JStr id); ("attempt_id", JStr attempt); ("control_generation", JInt (pl_generation (se_place s)));
   ("model_id", JStr (se_model s)); ("params", JDict (pm_desired (se_params s)));
   ("work_budget", JDict [("gpu_ms_limit", JNull); ("range_id", JStr range); ("remaining_wall_ms", JNull);
                          ("start_gpu_ms", JInt 0)])].
Definition open_context (attempt : string) (s : session) : dict :=
  [("auth_session_id", opt_str (se_auth s)); ("model_id", JStr (se_model s));
   ("params", JDict (pm_desired (se_params s))); ("attempt_id", JStr attempt);
   ("control_generation", JInt (pl_generation (se_place s)));
   ("desired_revision", JInt (pm_desired_revision (se_params s)))].
Definition open_message (id : string) (s : session) : dict :=
  with_generation [("type", JStr "open_session"); ("session_id", JStr id); ("model_id", JStr (se_model s));
                   ("params", JDict (pm_params (se_params s)))] (pl_generation (se_place s)).

(** [assign], up to its first await. *)
Definition assign_begin (id : string) (w : nat) (tk : tick) (p : relay) : opening * relay :=
  let p := take_slot id w p in
  let v6 := w_protocol (rw_base (worker_at w p)) =? 6 in
  let p := if v6 then update id (on_place (set_attempt (Some (tk_id tk)))) p else p in
  let s := session_of id p in
  ({| op_sent := pl_generation (se_place s); op_v6 := v6; op_attempt := tk_id tk;
      op_fields := if v6 then open_fields id (tk_id tk) (tk_range tk) s else open_message id s;
      op_context := open_context (tk_id tk) s |}, p).

Section Placing.
Context {X : Type}.
(** What the caller does with the answer of [place_session] before its next
    await. *)
Variable after : bool -> tick -> relay -> X * relay.

(** The head of the loop. *)
Definition try_next (id : string) (skipped : list string) (tk : tick) (p : relay) : placing X * relay :=
let s := session_of id p in
if is_live id p && bool_decide (state_of s = SAssigning) then
  match pick_worker (tk_now tk) (se_model s) skipped p with
  | None => let '(x, p) := after false tk p in (Placed x, p)
  | Some w => let '(o, p) := assign_begin id w tk p in (Trying w o skipped, p)
  end
else let '(x, p) := after (bool_decide (state_of s = SLive)) tk p in (Placed x, p).

(** [assign] on [w] answered [ok]: the rest of the loop's body, and its head. *)
Definition place_next (id : string) (skipped : list string) (w : nat) (started : Z) (ok : bool) (tk : tick) (p : relay)
    : placing X * relay :=
let s := session_of id p in
if ok || bool_decide (state_of s = SLive) then let '(x, p) := after true tk p in (Placed x, p)
else if negb (is_live id p) || negb (bool_decide (state_of s = SAssigning)) then let '(x, p) := after false tk p in (Placed x, p)
else
  let p := if pl_generation (se_place s) =? started then update id new_attempt p else p in
  try_next id (skipped ++ [w_id (rw_base (worker_at w p))]) tk p.

(** [assign] gives up: the slot goes back if this call still owns it. *)
Definition compensate (id : string) (skipped : list string) (w : nat) (started : Z) (tk : tick) (p : relay)
    : placing X * relay :=
if held_by w (session_of id p) then
  let p := give_back id w p in
  match abandoned_call id w p with
  | Some c => (Abandoning w started c skipped, p)
  | None => place_next id skipped w started false tk p
  end
else place_next id skipped w started false tk p.

(** The end of [assign] once the worker answered. *)
Definition answered (id : string) (skipped : list string) (w : nat) (started : Z) (tk : tick) (p : relay)
    : placing X * relay :=
let pl := se_place (session_of id p) in
if negb (pl_generation pl =? started) then
  place_next id skipped w started (bool_decide (pl_state pl = SLive)) tk p
else if pl_ok pl && bool_decide (pl_worker pl = Some w) then
  let p := if decide (pl_state pl = SAssigning)
           then update id (on_place (set_assigned (tk_now tk))) (transition id [SAssigning] SLive p).2 else p in
  place_next id skipped w started true tk p
else compensate id skipped w started tk p.

(** What [assign] treats as the failure of its worker. *)
Definition assign_fails (e : exn) : bool :=
match e with TimeoutError | RuntimeError _ | ProtocolError _ => true | _ => false end.

(** The open: [false] when the session left meanwhile. *)
Definition open_on (id : string) (w : nat) (o : opening) : handler bool :=
if op_v6 o then
  sent ← call_result (send_v6 w "open_session" (op_fields o) (Some (op_context o)) (fun p => p));
  match sent with
  | Err (ProtocolError msg) => _ ← change (update id (on_place (set_attempt None))); throw (ProtocolError msg)
  | Err e => throw e
  | Ok _ =>
      gone ← look (fun p => negb (held_by w (session_of id p)) || negb (is_live id p));
      if (gone : bool) then _ ← attempt (Abandon id (op_sent o) (op_attempt o)); mret false else mret true
  end
else _ ← attempt (Send w (op_fields o)); mret true.

Fixpoint place_loop (n : nat) (id : string) (d : placing X) : handler X :=
match n, d with
| _, Placed x => mret x
| O, _ => out_of_fuel
| S n, Abandoning w sent c skipped =>
    _ ← close_abandoned id w sent c;
    segment (place_next id skipped w sent false) ≫= place_loop n id
| S n, Trying w o skipped =>
    let failed := compensate id skipped w (op_sent o) in
    opened ← call_result (open_on id w o);
    match opened with
    | Err e => if assign_fails e then segment failed ≫= place_loop n id else throw e
    | Ok false =>
        segment (fun tk p =>
          let p := if held_by w (session_of id p) then give_back id w p else p in
          place_next id skipped w (op_sent o) false tk p) ≫= place_loop n id
    | Ok true =>
        call (Wait true (fun p => pl_ready (se_place (session_of id p)))
          (fun arrived => if arrived then answered id skipped w (op_sent o) else failed)) ≫= place_loop n id
    end
end.
End Placing.

(** ** The tasks that place a session *)

Definition ready_limits : json :=
  JDict [("max_frame_bytes", JInt MAX_CANVAS_PAYLOAD_BYTES); ("formats", JList [JStr "webp"; JStr "png"]);
         ("width", JInt 512); ("height", JInt 512)].
Definition ready_event (id : string) : dict :=
  [("type", JStr "ready"); ("session_id", JStr id); ("limits", ready_limits)].
Definition plain_event (kind : string) : dict := [("type", JStr kind)].

(** What follows a placement: nothing, a release, or the frame that waited. *)
Inductive placed : Type := PDone | PRelease (r : releasing) | PForward (w : nat) (frame : bytes).

(** The newest frame that waited goes to the worker of the session. *)
Definition forward_pending (id : string) (p : relay) : placed * relay :=
  let s := session_of id p in
  let p := update id (on_drawing (set_pending None)) p in
  match dr_pending (se_drawing s), pl_worker (se_place s) with
  | Some frame, Some w =>
      let '(data, s) := to_worker_frame (worker_at w p) frame (session_of id p) in
      (PForward w data, update id (fun _ => s) p)
  | _, _ => (PDone, p)
  end.

(** Tells the browser, unless the session was shed or lost meanwhile. *)
Definition announce_admission (id : string) (was_live : bool) (p : relay) : relay :=
  if decide (state_of (session_of id p) = SLive)
  then update id (post (if was_live then plain_event "resumed" else ready_event id)) p else p.
(** Without a frame to forward there is no await before the announcement. *)
Definition admit_after (id : string) (was_live ok : bool) (tk : tick) (p : relay) : placed * relay :=
  if ok then
    if is_live id p then
      let '(x, p) := forward_pending id (update id (on_place (set_queue None None)) p) in
      (x, match x with PDone => announce_admission id was_live p | _ => p end)
    else let '(r, p) := release_begin false id (tk_now tk) p in (PRelease r, p)
  else (PDone, (requeue (tk_now tk) id p).2).

(** [admit], with [n] bounding its loops and the tasks it starts. *)
Fixpoint admit_session (n : nat) (id : string) : handler unit :=
  match n with
  | O => out_of_fuel
  | S n =>
      '(was_live, d) ← segment (fun tk p =>
        let was_live := negb (pl_assigned (se_place (session_of id p)) =? 0) in
        let '(d, p) := try_next (admit_after id was_live) id [] tk p in ((was_live, d), p));
      x ← place_loop (admit_after id was_live) n id d;
      match x with
      | PDone => mret tt
      | PRelease r => release_rest (admit_session n) id r
      | PForward w frame => _ ← call (SendFrame w frame); change (announce_admission id was_live)
      end
  end.

Definition reassign_after (id : string) (ok : bool) (tk : tick) (p : relay) : placed * relay :=
  if ok then
    if is_live id p then (PDone, update id (post (plain_event "resumed")) p)
    else let '(r, p) := release_begin false id (tk_now tk) p in (PRelease r, p)
  else
    let '(queued, p) := requeue (tk_now tk) id p in
    if queued then let '(admitted, p) := admit_queued (tk_now tk) p in (PRelease (RAdmit admitted), p) else (PDone, p).

(** The attempt [reassign] ends: its worker, generation and the desired
    parameters it began with. *)
Record leaving := { lv_worker : option nat; lv_generation : Z; lv_stamp : Z; lv_call : option closing_call }.
Definition reassign_begin (id : string) (p : relay) : option leaving * relay :=
  let s := session_of id p in
  let '(going, p) := match state_of s with
                     | SLive => transition id [SLive] SAssigning p
                     | SAssigning => (true, p)
                     | _ => (false, p)
                     end in
  if negb going then (None, p) else
  let generation := pl_generation (se_place s) in
  let l c := {| lv_worker := pl_worker (se_place s); lv_generation := generation; lv_stamp := pm_stamp (se_params s); lv_call := c |} in
  match pl_worker (se_place s) with
  | None => (Some (l None), p)
  | Some w =>
      let p := arm_settlement id w generation (give_back id w p) in
      (Some (l (abandoned_call id w p)), p)
  end.
(** A committed snapshot past what the process holds, unless an edit came in. *)
Definition take_committed (id : string) (stamp : Z) (committed : option (dict * Z)) (p : relay) : relay :=
  let pm := se_params (session_of id p) in
  match committed with
  | Some (params, revision) =>
      if (pm_desired_revision pm <? revision) && (pm_stamp pm =? stamp)
      then update id (on_params (set_desired params revision)) p else p
  | None => p
  end.

Definition reassign (n : nat) (id : string) : handler unit :=
  begun ← segment (fun _ p => reassign_begin id p);
  match begun with
  | None => mret tt
  | Some l =>
      _ ← (match lv_worker l, lv_call l with
           | Some w, Some c => close_abandoned id w (lv_generation l) c
           | _, _ => mret tt
           end);
      live ← segment (fun _ p =>
        if is_live id p then (Some (if r_database p then se_user (session_of id p) else None),
                              update id (post (plain_event "interrupted")) p)
        else (None, p));
      match (live : option (option string)) with
      | None => mret tt
      | Some user =>
          committed ← (match user with
                       | Some u => attempt (ReadDesired id u (lv_generation l))
                       | None => mret None
                       end);
          d ← segment (fun tk p =>
            let p := update id new_attempt (take_committed id (lv_stamp l) committed p) in
            try_next (reassign_after id) id
              (match lv_worker l with Some w => [w_id (rw_base (worker_at w p))] | None => [] end) tk p);
          x ← place_loop (reassign_after id) n id d;
          match x with
          | PRelease r => release_rest (admit_session n) id r
          | _ => mret tt
          end
      end
  end.
(** A won transition starts one task. *)
Definition schedule_reassign (id : string) (p : relay) : bool * relay := transition id [SLive] SAssigning p.
Definition schedule_resume_idle (id : string) (p : relay) : bool * relay := transition id [SIdle] SAssigning p.

Definition resume_after (id : string) (ok : bool) (tk : tick) (p : relay) : placed * relay :=
  if ok then
    if is_live id p then forward_pending id p
    else let '(r, p) := release_begin false id (tk_now tk) p in (PRelease r, p)
  else (PDone, (requeue (tk_now tk) id p).2).
Definition resume_idle (n : nat) (id : string) : handler unit :=
  d ← segment (fun tk p =>
    if is_live id p then let '(d, p) := try_next (resume_after id) id [] tk (update id new_attempt p) in (Some d, p)
    else (None, p));
  match d with
  | None => mret tt
  | Some d =>
      x ← place_loop (resume_after id) n id d;
      match x with
      | PDone => mret tt
      | PRelease r => release_rest (admit_session n) id r
      | PForward w frame => call (SendFrame w frame)
      end
  end.

(** ** Sweeps and revocation *)

Definition end_session (id : string) (p : relay) : relay :=
  let p := on_open (filter (fun i => (i ≠ id))) p in
  let p := (transition id [SQueued; SAssigning; SLive; SIdle; SEnding] SEnding p).2 in
  (transition id [SEnding] SEnded p).2.

(** [_close_sessions] *)
Definition close_sessions (n : nat) (doomed : list string) : handler unit :=
  handle_each (fun id =>
    r ← segment (fun tk p =>
      release_begin false id (tk_now tk)
        (update id (post_close CLOSE_UNAUTHORIZED (Some "session revoked")) (end_session id p)));
    release_rest (admit_session n) id r) doomed.
Definition revoked_sessions (user : string) (auth keep : option string) (p : relay) : list string :=
  filter (fun id => let s := session_of id p in
    se_user s = Some user /\ (auth = None \/ se_auth s = auth) /\ (keep = None \/ se_auth s ≠ keep)) (r_open p).
Definition close_revoked (n : nat) (user : string) (auth keep : option string) : handler unit :=
  doomed ← look (revoked_sessions user auth keep);
  close_sessions n doomed.
Definition close_none_mode_sockets (n : nat) : handler unit :=
  doomed ← look (fun p => filter (fun id => se_auth (session_of id p) = None) (r_open p));
  close_sessions n doomed.

(** [close_dead_sessions]: the account sessions its sockets hold, and those of
    them the database still knows; where it does not answer nothing happens. *)
Definition held_accounts (p : relay) : list (string * string) :=
  foldl (fun held id =>
    match se_auth (session_of id p), se_user (session_of id p) with
    | Some auth, Some user => od_set auth user held
    | _, _ => held
    end) [] (r_open p).
Definition close_dead_sessions (n : nat) : handler unit :=
  held ← look held_accounts;
  match held with
  | [] => mret tt
  | held =>
      live ← call (LiveAmong held.*1);
      match live with
      | Err _ => mret tt
      | Ok live =>
          handle_each (fun au : string * string =>
            if bool_decide (au.1 ∈ live) then mret tt else close_revoked n au.2 (Some au.1) None) held
      end
  end.

Definition release_idle_sessions (n : nat) : handler unit :=
  '(cutoff, ids) ← segment (fun tk p => ((tk_now tk - IDLE_RELEASE, r_open p), p));
  handle_each (fun id =>
    r ← segment (fun tk p =>
      let s := session_of id p in
      if negb (bool_decide (state_of s = SLive)) || (cutoff <=? dr_last (se_drawing s)) then (None, p)
      else let '(r, p) := release_begin false id (tk_now tk) (transition id [SLive] SIdle p).2 in (Some r, p));
    match r with Some r => release_rest (admit_session n) id r | None => mret tt end) ids.

(** The ticks of [sweep_dead_sessions] that await nothing. *)
Definition sweep_queue (n : nat) : handler unit :=
  admitted ← segment (fun tk p =>
    let '(admitted, p) := admit_queued (tk_now tk) p in (admitted, post_keepalives (post_positions true p)));
  spawn_all (admit_session n) admitted.

(** ** The browser *)

(** [session_seed] *)
Definition session_seed (v : json) : option Z :=
  match v with JInt z => Some z | JFloat f => if float_is_integer f then int_of_float f else None | _ => None end.
Definition seeded (drawn : Z) (params : dict) : dict :=
  set_key "seed" (JInt (default drawn (session_seed (get params "seed")))) params.

Definition new_session (model : string) (user auth : option string) (header : Z) (params : dict) (t : Z) : session :=
  {| se_model := model; se_user := user; se_auth := auth; se_header := header;
     se_place := {| pl_worker := None; pl_state := SAssigning; pl_generation := 1; pl_attempt := None;
                    pl_ready := false; pl_ok := false; pl_assigned := 0; pl_queued := None; pl_position := None |};
     se_params := {| pm_params := params; pm_revision := 1; pm_desired := params; pm_desired_revision := 1;
                     pm_stamp := 0 |};
     se_drawing := {| dr_last := t; dr_revision := 0; dr_forwarded := 0; dr_pending := None; dr_error_after := 0 |};
     se_mail := {| mb_controls := []; mb_frame := None; mb_close := None; mb_wake := false |} |}.

Definition sessions_of (user : option string) (p : relay) : list string :=
  filter (fun id => se_user (session_of id p) = user
    /\ state_of (session_of id p) ≠ SEnding /\ state_of (session_of id p) ≠ SEnded) (r_open p).
(** The count of the account's sockets and the new session, in one step. *)
Definition open_session (model : string) (user auth : option string) (header : Z) (params : dict) (tk : tick) (p : relay)
    : option string * relay :=
  if MAX_REALTIME_SESSIONS_PER_USER <=? Z.of_nat (length (sessions_of user p)) then (None, p)
  else (Some (tk_id tk),
        on_open (fun l => l ++ [tk_id tk])
          (on_sessions <[tk_id tk := new_session model user auth header (seeded (tk_seed tk) params) (tk_now tk)]> p)).

Definition send_out (id : string) (o : outgoing) : handler unit := call (Tell id o).
(** What the writer does next: tell something and go on, or wait, or end. *)
Inductive writing : Type := WTell (o : outgoing) (more : bool) | WClose (code : Z) (message : option string) | WIdle.
Definition next_out (p_session : session) : writing * session :=
  let m := se_mail p_session in
  match mb_controls m, mb_close m, mb_frame m with
  | control :: rest, _, _ =>
      (WTell (OutControl control) true,
       on_mail (fun m => {| mb_controls := rest; mb_frame := mb_frame m; mb_close := mb_close m; mb_wake := mb_wake m |}) p_session)
  | [], Some (code, message), _ => (WClose code message, p_session)
  | [], None, Some frame =>
      (WTell (OutFrame frame) false,
       on_mail (fun m => {| mb_controls := []; mb_frame := None; mb_close := None; mb_wake := mb_wake m |}) p_session)
  | [], None, None => (WIdle, p_session)
  end.
Definition clear_wake : session -> session := on_mail (fun m =>
  {| mb_controls := mb_controls m; mb_frame := mb_frame m; mb_close := mb_close m; mb_wake := false |}).
Definition step_writer (id : string) (woken : bool) (p : relay) : writing * relay :=
  let s := session_of id p in
  let '(w, s) := next_out (if woken then clear_wake s else s) in (w, update id (fun _ => s) p).
Definition error_event (code : Z) (message : string) : dict :=
  [("type", JStr "error"); ("code", JInt code); ("message", JStr message)].

(** [browser_writer]: after a frame, and when nothing is left, it waits. *)
Fixpoint writer_loop (n : nat) (id : string) (w : writing) : handler unit :=
  match n with
  | O => out_of_fuel
  | S n =>
      let waiting := call (Wait false (fun p => mb_wake (se_mail (session_of id p))) (fun _ _ p => step_writer id true p))
                     ≫= writer_loop n id in
      match w with
      | WIdle => waiting
      | WClose code message =>
          _ ← (match message with Some text => send_out id (OutControl (error_event code text)) | None => mret tt end);
          send_out id (OutClose code)
      | WTell o true => _ ← send_out id o; segment (fun _ p => step_writer id false p) ≫= writer_loop n id
      | WTell o false => _ ← send_out id o; waiting
      end
  end.
Definition browser_writer (n : nat) (id : string) : handler unit := writer_loop n id WIdle.

(** What a canvas frame comes to. *)
Inductive drawn : Type := DNothing | DResume | DForward (w : nat) (data : bytes) | DViolation (message : string) | DRaise (e : exn).

(** The session a frame names: the 16 bytes after its kind. *)
Definition frame_session_id (data : bytes) : result exn string :=
  if (length data <? LEGACY_FRAME_HEADER_BYTES)%nat then Err (ProtocolError "binary frame shorter than the header")
  else Ok (uuid_string (be_value (take 16 (drop 1 data)) 0)).

Definition keep_frame (id : string) (f : option bytes) : relay -> relay := update id (on_drawing (set_pending f)).
(** The frame is accepted as the newest input. *)
Definition accept_frame (id : string) (t revision : Z) (frame : bytes) (p : relay) : drawn * relay :=
  let p := update id (on_drawing (accept_input t revision)) p in
  let s := session_of id p in
  match state_of s, pl_worker (se_place s) with
  | SIdle, _ => let '(won, p) := schedule_resume_idle id (keep_frame id (Some frame) p) in
                (if won then DResume else DNothing, p)
  | SAssigning, _ | SQueued, _ => (DNothing, keep_frame id (Some frame) p)
  | _, Some w =>
      let p := keep_frame id None p in
      let '(data, s) := to_worker_frame (worker_at w p) frame (session_of id p) in
      (DForward w data, update id (fun _ => s) p)
  | _, None => (DNothing, p)
  end.
Definition canvas_frame (id : string) (data : bytes) (t : Z) (p : relay) : drawn * relay :=
  let s := session_of id p in
  match frame_session_id data with
  | Err _ => (DViolation "binary frame shorter than the header", p)
  | Ok named =>
      if negb (bool_decide (named = id)) || negb (default 0 (head data) =? CANVAS_FRAME)
      then (DViolation "frame does not belong to this session", p)
      else
        let header := frame_header_bytes (se_header s) in
        if (length data <? header)%nat then (DViolation "binary frame shorter than the header", p)
        else if Z.of_nat header + MAX_CANVAS_PAYLOAD_BYTES <? Z.of_nat (length data)
        then (DNothing, update id (post_frame_too_large t) p)
        else if se_header s =? 2 then
          let revision := frame_revision data in
          if revision <=? dr_revision (se_drawing s) then (DNothing, p) else accept_frame id t revision data p
        else
          let revision := dr_revision (se_drawing s) + 1 in
          (* The revision is stamped in four bytes. *)
          if 2 ^ 32 <=? revision
          then (DRaise OverflowError, update id (on_drawing (accept_input (dr_last (se_drawing s)) revision)) p)
          else accept_frame id t revision (with_revision revision data) p
  end.

(** What an update comes to: nothing more, a control for a worker of an older
    protocol, or a command. *)
Inductive updated : Type :=
| UNothing
| USend (w : nat) (message : dict)
| UCommand (w : nat) (fields context : dict) (generation : Z) (attempt : option string) (stamp revision : Z) (params : dict)
| UViolation (message : string).

Section Browser.
(** The manifest's check of parameters, by the model's id: JSON schema. *)
Variable invalid_params : string -> dict -> option string.

Definition params_event (params : dict) : dict := [("type", JStr "params_updated"); ("params", JDict params)].
Definition hold_params (params : dict) (pm : parameters) : parameters :=
set_params params (pm_revision pm) (set_desired params (pm_desired_revision pm) pm).

Definition update_params (id : string) (control : dict) (t : Z) (p : relay) : updated * relay :=
let s := session_of id p in
let refuse message := (UNothing, update id (post (error_event CLOSE_PROTOCOL_VIOLATION message)) p) in
match get control "params" with
| JDict params =>
    if has_key "seed" params then refuse "seed is fixed at session open and cannot be changed" else
    match invalid_params (se_model s) params with
    | Some message => refuse message
    | None =>
        let merged := update_with (pm_desired (se_params s)) params in
        match invalid_params (se_model s) merged with
        | Some message => refuse message
        | None =>
            let p := update id (on_drawing (accept_input t (dr_revision (se_drawing s)))) p in
            match pl_worker (se_place s) with
            | None => (UNothing, update id (fun s => post (params_event merged) (on_params (hold_params merged) s)) p)
            | Some w =>
                let generation := pl_generation (se_place s) in
                if w_protocol (rw_base (worker_at w p)) =? 6 then
                  let next := pm_desired_revision (se_params s) + 1 in
                  let attempt_id := opt_str (pl_attempt (se_place s)) in
                  (UCommand w
                     [("session_id", JStr id); ("attempt_id", JStr (default "None" (pl_attempt (se_place s)))); ("control_generation", JInt generation);
                      ("model_id", JStr (se_model s)); ("params", JDict merged); ("params_revision", JInt next)]
                     [("auth_session_id", opt_str (se_auth s)); ("attempt_id", attempt_id);
                      ("control_generation", JInt generation); ("model_id", JStr (se_model s));
                      ("base_desired_revision", JInt (pm_desired_revision (se_params s)));
                      ("desired_revision", JInt next); ("params", JDict merged)]
                     generation (pl_attempt (se_place s)) (pm_stamp (se_params s)) next merged, p)
                else
                  (USend w (with_generation [("type", JStr "update_session"); ("session_id", JStr id);
                                             ("params", JDict merged)] generation),
                   update id (on_params (hold_params merged)) p)
            end
        end
    end
| _ => (UViolation "params must be an object", p)
end.

Definition apply_update (n : nat) (id : string) (u : updated) : handler unit :=
match u with
| USend w message =>
    _ ← safe_send w message;
    match get message "params" with JDict params => change (update id (post (params_event params))) | _ => mret tt end
| UCommand w fields context generation attempt_id stamp revision params =>
    (* Without an attempt the subject of the command is no identity. *)
    sent ← call_result (match attempt_id with
                        | Some _ => send_v6 w "update_session" fields (Some context)
                                      (as_mirrored id generation attempt_id stamp params revision)
                        | None => throw (ProtocolError "worker command was refused")
                        end);
    match sent with
    | Err (ProtocolError _) =>
        won ← segment (fun _ p => schedule_reassign id
                 (update id (on_params (fun pm => set_desired params (pm_desired_revision pm) pm)) p));
        if (won : bool) then spawn (forget (reassign n id)) else mret tt
    | Err e => throw e
    | Ok _ => mret tt
    end
| _ => mret tt
end.

(** A refusal is told and ends the session. *)
Definition violated (id message : string) : handler bool :=
_ ← change (update id (post_close CLOSE_PROTOCOL_VIOLATION (Some message))); mret false.

(** One message of the browser; [false]: the loop ends. *)
Definition browser_message (n : nat) (id : string) (m : incoming) : handler bool :=
match m with
| Disconnected => mret false
| Frame data =>
    d ← segment (fun tk p => canvas_frame id data (tk_now tk) p);
    match d with
    | DNothing => mret true
    | DResume => _ ← spawn (forget (resume_idle n id)); mret true
    | DForward w data => _ ← call (SendFrame w data); mret true
    | DViolation message => violated id message
    | DRaise e => throw e
    end
| Control (Err (ProtocolError message)) => violated id message
| Control (Err e) => throw e
| Control (Ok control) =>
    if bool_decide (get control "type" = JStr "close") then
      _ ← change (update id (post_close 1000 None)); mret false
    else if bool_decide (get control "type" = JStr "update_params") then
      u ← segment (fun tk p => update_params id control (tk_now tk) p);
      match u with
      | UViolation message => violated id message
      | u => _ ← apply_update n id u; mret true
      end
    else mret true
end.
Fixpoint browser_loop (n fuel : nat) (id : string) : handler unit :=
match fuel with
| O => out_of_fuel
| S fuel =>
    m ← call (Receive id);
    more ← browser_message n id m;
    if (more : bool) then browser_loop n fuel id else mret tt
end.

Definition open_after (id : string) (ok : bool) (tk : tick) (p : relay) : unit * relay :=
(tt, if ok then update id (post (ready_event id)) p else (requeue (tk_now tk) id p).2).
Definition serve_browser (n : nat) (id : string) : handler unit :=
_ ← spawn (forget (browser_writer n id));
d ← segment (try_next (open_after id) id []);
_ ← place_loop (open_after id) n id d;
browser_loop n n id.

(** [realtime], once the socket is accepted and its [open] was read. *)
Definition realtime (n : nat) (model : string) (user auth : option string) (header : Z) (params : dict) : handler unit :=
opened ← segment (open_session model user auth header params);
match opened with
| None => mret tt
| Some id =>
    live ← call (StillLive auth);
    if negb live then
      removed ← segment (fun _ p => if is_live id p then (true, on_open (filter (fun i => (i ≠ id))) p) else (false, p));
      if (removed : bool) then mret tt else throw (KeyError id)
    else
      ending (serve_browser n id)
        (forget (r ← segment (fun tk p => release_begin true id (tk_now tk) (end_session id p));
                 release_rest (admit_session n) id r))
end.
End Browser.

(** ** What a worker reports *)

Definition control_session (control : dict) : result exn string := id ← item control "session_id"; peer_uuid id.

(** The report is about the attempt the session is in, on this worker. *)
Definition current_report (w : nat) (id : string) (control : dict) (p : relay) : bool :=
  held_by w (session_of id p)
  && bool_decide (message_generation control = Some (pl_generation (se_place (session_of id p)))).

(** [known]: the session was in the dictionary when the report came in. *)
Definition mark_ready (w : nat) (id : string) (control : dict) (known durable : bool) (t : Z) (p : relay) : relay :=
  if known && current_report w id control p && durable then
    let '(moved, p) := transition id [SAssigning] SLive p in
    if moved then update id (on_place (fun pl => set_answer true true (set_assigned t pl))) p else p
  else p.
Definition session_ready (w : nat) (control : dict) : handler unit :=
  match control_session control with
  | Err e => throw e
  | Ok id =>
      '(known, v6) ← look (fun p => (is_live id p, w_protocol (rw_base (worker_at w p)) =? 6));
      durable ← (if v6 && bool_decide (is_Some (message_generation control)) then attempt (AcceptReady w control) else mret true);
      segment (fun tk p => (tt, mark_ready w id control known durable (tk_now tk) p))
  end.

(** [true]: a reassignment starts. *)
Definition mark_refused (w : nat) (id : string) (control : dict) (p : relay) : bool * relay :=
  if is_live id p && current_report w id control p then
    match state_of (session_of id p) with
    | SAssigning => (false, update id (on_place (set_answer true false)) p)
    | SLive => schedule_reassign id p
    | _ => (false, p)
    end
  else (false, p).
Definition session_refused (n : nat) (w : nat) (control : dict) : handler unit :=
  match control_session control with
  | Err e => throw e
  | Ok id =>
      won ← segment (fun _ p => mark_refused w id control p);
      if (won : bool) then spawn (forget (reassign n id)) else mret tt
  end.

(** The attempt's totals are settled once, by the worker that ran it. *)
Definition settle_closed (w : nat) (id : string) (control : dict) (p : relay) : option (string * string) * relay :=
  match message_generation control with
  | Some generation =>
      match od_get (id, generation) (r_closing p) with
      | Some (user, model, owner) =>
          if decide (owner = w) then (Some (user, model), on_closing (od_del (id, generation)) p) else (None, p)
      | None => (None, p)
      end
  | None => (None, p)
  end.

(** An acknowledged update is published to the browser that made it. *)
Definition publish_update (w : nat) (id user : string) (generation : Z) (attempt_id : option string) (params : dict)
    (revision : Z) (p : relay) : relay :=
  let s := session_of id p in
  if held_by w s && is_live id p && bool_decide (state_of s ∈ [SAssigning; SLive])
     && bool_decide (se_user s = Some user) && (pl_generation (se_place s) =? generation)
     && bool_decide (pl_attempt (se_place s) = attempt_id)
  then update id (fun s => post (params_event params) (on_params (set_params params revision) s)) p else p.

(** A frame the worker generated, for the browser of a session it holds. *)
Definition relay_frame (w : nat) (data : bytes) (p : relay) : result exn relay :=
  id ← frame_session_id data;
  let s := session_of id p in
  if held_by w s && is_live id p then
    if negb (default 0 (head data) =? GENERATED_FRAME) then Err (ProtocolError "worker frame is not a generated frame")
    else if w_protocol (rw_base (worker_at w p)) <? FRAME_HEADER_2_VERSION then
      Ok (update id (post_frame (to_browser_frame s (with_revision (dr_forwarded (se_drawing s)) data))) p)
    else if (length data <? FRAME_HEADER_BYTES)%nat then Err (ProtocolError "binary frame shorter than the header")
    else Ok (update id (post_frame (to_browser_frame s data)) p)
  else Ok p.

Definition FRAME_P95_MAX_MS : Z := 60000.
Definition whole_number (v : json) : option Z :=
  match v with JInt z => Some z | JFloat f => if float_is_integer f then int_of_float f else None | _ => None end.
Definition usable_ms (v : json) : option Z :=
  z ← whole_number v; if (0 <? z) && (z <=? FRAME_P95_MAX_MS) then Some z else None.
Definition parse_frame_p95 (raw : json) : option (list (string * Z)) :=
  match raw with JDict d => Some (omap (fun kv : string * json => (fun z => (kv.1, z)) <$> usable_ms kv.2) d) | _ => None end.
Fixpoint parse_curve (values : list json) (last : Z) : option (list Z) :=
  match values with
  | [] => Some []
  | v :: values => z ← usable_ms v; if z <? last then None else (cons z) <$> parse_curve values z
  end.
Definition parse_batch_ms (raw : json) : option (list (string * list Z)) :=
  match raw with
  | JDict d => Some (omap (fun kv : string * json =>
      match kv.2 with
      | JList values => if (length values =? 0)%nat || (16 <? length values)%nat then None
                        else (fun curve => (kv.1, curve)) <$> parse_curve values 0
      | _ => None
      end) d)
  | _ => None
  end.

(** A heartbeat raises the admission costs of models it names. *)
Definition raise_cost (measured : list (string * Z)) (o : relay_worker) : bool * relay_worker :=
  match rw_p95 o with
  | None => (false, o)
  | Some p95 =>
      foldl (fun '(raised, o) (mv : string * Z) =>
        match default ∅ (rw_p95 o) !! mv.1 with
        | Some held =>
            if serves mv.1 o && (held <? mv.2) then
              (true, {| rw_base := rw_base o; rw_slots := rw_slots o; rw_p95 := <[mv.1 := mv.2]> <$> rw_p95 o;
                        rw_batch := delete mv.1 <$> rw_batch o; rw_seen := rw_seen o |})
            else (raised, o)
        | None => (raised, o)
        end) (false, o) measured
  end.
Definition saw (t : Z) (o : relay_worker) : relay_worker :=
  {| rw_base := rw_base o; rw_slots := rw_slots o; rw_p95 := rw_p95 o; rw_batch := rw_batch o; rw_seen := t |}.
(** The sessions it sheds. *)
Definition heartbeat (w : nat) (control : dict) (t : Z) (p : relay) : list string * relay :=
  let p := on_objects (alter (saw t) w) p in
  match parse_frame_p95 (get control "frame_p95_ms") with
  | None => ([], p)
  | Some measured =>
      let '(raised, o) := raise_cost measured (worker_at w p) in
      let p := on_objects (alter (fun _ => o) w) p in
      if raised then
        foldl (fun '(won, p) id => let '(moved, p) := schedule_reassign id p in (if moved then won ++ [id] else won, p))
          ([], p) (over_capacity_sessions w p)
      else ([], p)
  end.
Definition on_heartbeat (n : nat) (w : nat) (control : dict) : handler unit :=
  won ← segment (fun tk p => heartbeat w control (tk_now tk) p);
  spawn_all (reassign n) won.

(** ** The life of a connection *)

(** A registration takes the id over; a new object has a new handle. *)
Definition register_worker (o : relay_worker) (p : relay) : relay :=
  let w := fresh (dom (r_objects p)) in
  on_workers (od_set (w_id (rw_base o)) w) (on_objects <[w := o]> p).
Definition worker_joined (n : nat) (o : relay_worker) : handler unit :=
  _ ← change (register_worker o);
  admitted ← segment (fun tk p => admit_queued (tk_now tk) p);
  spawn_all (admit_session n) admitted.

Definition drop_worker (w : nat) (p : relay) : relay :=
  if connected w p then on_workers (od_del (w_id (rw_base (worker_at w p)))) p else p.
(** The orphans of a lost worker: those assigning stop waiting, those live are
    placed anew. *)
Definition lose_sessions (w : nat) (p : relay) : list string * relay :=
  foldl (fun '(won, p) id =>
    match state_of (session_of id p) with
    | SAssigning => (won, update id (on_place (set_answer true false)) p)
    | SLive => let '(moved, p) := schedule_reassign id p in (if moved then won ++ [id] else won, p)
    | _ => (won, p)
    end) ([], p) (filter (fun id => held_by w (session_of id p) = true) (r_open p)).
Definition finalize_worker (n : nat) (w : nat) : handler unit :=
  _ ← change (drop_worker w);
  won ← segment (fun _ p => lose_sessions w p);
  _ ← spawn_all (reassign n) won;
  change (on_closing (filter (fun kv : (string * Z) * (string * string * nat) => kv.2.2 ≠ w))).
(** The workers [reap_once] closes. *)
Definition silent_workers (t : Z) (p : relay) : list nat :=
  filter (fun w => rw_seen (worker_at w p) < t - WORKER_DEAD) (r_workers p).*2.
