(* ===== verification/RelaySystem.v ===== *)
(** * The relay as it runs

    The tasks of Relay.v interleaved, with what the workers, the browsers, the
    database and the rest of the API may do in between. *)

From S2P Require Import Prelude PyFloat Hashes Json Protocol6 Uuid PyInt ODict Tasks JobTables Jobs Relay.
Open Scope Z_scope.

Definition fresh_tick (tk : tick) (p : relay) : Prop := r_sessions p !! tk_id tk = None.

(** The waiter of an event goes on once the event was set, even where it is
    cleared before the waiter runs, so it may go on at any time. *)
Definition exec (b : bool) (X : Type) (o : op X) : relay -> X -> relay -> Prop :=
  match o in op X return relay -> X -> relay -> Prop with
  | Now f => fun p x p' => exists tk, fresh_tick tk p /\ f tk p = (x, p')
  | Wait limited ready f => fun p x p' => exists tk arrived, fresh_tick tk p
      /\ (arrived = false -> limited = true) /\ f arrived tk p = (x, p')
  | Never => fun _ _ _ => False
  | Send _ _ => fun p _ p' => p' = p
  | SendFrame _ _ => fun p _ p' => p' = p
  | Commit _ _ _ _ => fun p _ p' => p' = p
  | Deliver _ => fun p _ p' => p' = p
  | Abandon _ _ _ => fun p _ p' => p' = p
  | EndSession _ _ => fun p _ p' => p' = p
  | ReadDesired _ _ _ => fun p _ p' => p' = p
  | AcceptReady _ _ => fun p _ p' => p' = p
  | StillLive _ => fun p _ p' => p' = p
  | LiveAmong _ => fun p _ p' => p' = p
  | Receive _ => fun p _ p' => p' = p
  | Tell _ _ => fun p _ p' => p' = p
  | Sleep => fun p _ p' => p' = p
  end.

(** The grant, the jobs and the models of a worker change; its slots and its
    costs are the relay's. *)
Definition same_room (o o' : relay_worker) : Prop :=
  rw_in_use o' = rw_in_use o /\ rw_slots o' = rw_slots o /\ rw_p95 o' = rw_p95 o /\ rw_batch o' = rw_batch o
  /\ w_id (rw_base o') = w_id (rw_base o).
(** Workers change and leave, the database comes and goes. *)
Definition outside (p p' : relay) : Prop :=
  r_sessions p' = r_sessions p /\ r_open p' = r_open p
  /\ (forall w, option_relation same_room (fun _ => False) (fun _ => False) (r_objects p !! w) (r_objects p' !! w))
  /\ (forall kv, kv ∈ r_workers p' -> kv ∈ r_workers p).

(** Costs as [parse_frame_p95] and [parse_batch_ms] let them through. *)
Definition costs_wf (o : relay_worker) : Prop :=
  (forall p95 m v, rw_p95 o = Some p95 -> p95 !! m = Some v -> 0 < v)
  /\ (forall batch m c, rw_batch o = Some batch -> batch !! m = Some c -> Forall (fun v => 0 < v) c /\ Sorted Z.le c).
Definition new_worker (o : relay_worker) : Prop := rw_in_use o = 0 /\ costs_wf o.

Section Tasks.
Variable invalid_params : string -> dict -> option string.

Inductive starts : bool -> relay -> prog op unit -> Prop :=
| start_browser p n model user auth header params : header = 1 \/ header = 2 ->
    starts false p (forget (realtime invalid_params n model user auth header params))
| start_ready p w control : starts false p (forget (session_ready w control))
| start_refused p n w control : starts false p (forget (session_refused n w control))
| start_closed p w id control : starts false p (forget (segment (fun _ p => settle_closed w id control p)))
| start_published p w id user generation attempt_id params revision :
    starts false p (forget (change (publish_update w id user generation attempt_id params revision)))
| start_frame p w data : starts false p (forget (change (fun p => match relay_frame w data p with Ok p' => p' | Err _ => p end)))
| start_heartbeat p n w control : starts false p (forget (on_heartbeat n w control))
| start_joined p n o : new_worker o -> starts false p (forget (worker_joined n o))
| start_lost p n w : starts false p (forget (finalize_worker n w))
| start_revoked p n user auth keep : starts false p (forget (close_revoked n user auth keep))
| start_accounts p n : starts false p (forget (close_none_mode_sockets n))
| start_dead p n : starts false p (forget (close_dead_sessions n))
| start_idle p n : starts false p (forget (release_idle_sessions n))
| start_sweep p n : starts false p (forget (sweep_queue n)).

Definition relay_step : relay * pool -> relay * pool -> Prop := pool_step exec starts outside.
Definition relay_run : relay * pool -> relay * pool -> Prop := pool_run exec starts outside.
End Tasks.

(** A process that has just started. *)
Definition empty_relay : relay :=
  {| r_objects := ∅; r_workers := []; r_sessions := ∅; r_open := []; r_closing := []; r_admission := true;
     r_database := true |}.
