(* ===== verification/RelayFacts.v ===== *)
(** * What the relay's updates keep

    The cost of a set of sessions, how a session may move, and the invariant of
    slots, room and counts, through every update of Relay.v. *)

From S2P Require Import Prelude PyFloat Hashes Json Protocol6 Uuid PyInt ODict Tasks JobTables Jobs Relay RelaySystem.
Open Scope Z_scope.

(** ** The cost of sessions *)

Definition occ (m : string) (l : list string) : Z := Z.of_nat (length (filter (fun x => (x = m)) l)).
Fixpoint sum_over {A} (f : A -> Z) (l : list A) : Z := match l with [] => 0 | x :: l => f x + sum_over f l end.

Lemma occ_app m l k : occ m (l ++ k) = occ m l + occ m k.
Proof. unfold occ. rewrite filter_app, length_app. lia. Qed.
Lemma occ_single m x : occ m [x] = if decide (x = m) then 1 else 0.
Proof. unfold occ. destruct (decide (x = m)); [by rewrite filter_cons_True|by rewrite filter_cons_False]. Qed.
Lemma occ_nonneg m l : 0 <= occ m l.
Proof. unfold occ. lia. Qed.
Lemma occ_not_in m l : m ∉ l -> occ m l = 0.
Proof.
  intros Hm. unfold occ. destruct (filter _ l) as [|x k] eqn:E; [done|]. exfalso.
  assert (Hx : x ∈ filter (fun x => (x = m)) l) by (rewrite E; left).
  apply list_elem_of_filter in Hx as [-> Hx]. done.
Qed.

Lemma sum_over_le {A} (f g : A -> Z) l : (forall x, x ∈ l -> f x <= g x) -> sum_over f l <= sum_over g l.
Proof.
  induction l as [|x l IH]; intros Hl; cbn; [done|].
  pose proof (Hl x ltac:(left)). specialize (IH (fun y Hy => Hl y ltac:(by right))). lia.
Qed.
Lemma sum_over_ext {A} (f g : A -> Z) l : (forall x, x ∈ l -> f x = g x) -> sum_over f l = sum_over g l.
Proof. intros Hl. apply Z.le_antisymm; apply sum_over_le; intros x Hx; rewrite Hl; done. Qed.
Lemma sum_over_elem {A} (f : A -> Z) l x : (forall y, 0 <= f y) -> x ∈ l -> f x <= sum_over f l.
Proof.
  intros Hf. assert (Hpos : forall k, 0 <= sum_over f k) by (induction k as [|y k IH]; cbn; [done|specialize (Hf y); lia]).
  induction l as [|y l IH]; [by intros ?%elem_of_nil|]. intros [->|Hx]%elem_of_cons; cbn.
  - specialize (Hpos l). lia.
  - specialize (IH Hx). specialize (Hf y). lia.
Qed.
(** Two functions that differ at one element. *)
Lemma sum_over_at (f g : string -> Z) l x : NoDup l -> x ∈ l -> (forall y, y ≠ x -> f y = g y) ->
  sum_over f l = sum_over g l + (f x - g x).
Proof.
  induction 1 as [|y l Hy _ IH]; [by intros ?%elem_of_nil|]. intros Hx Hfg. cbn. apply elem_of_cons in Hx as [->|Hx].
  - rewrite (sum_over_ext f g l); [lia|]. intros z Hz. apply Hfg. by intros ->.
  - rewrite (IH Hx Hfg), (Hfg y); [lia|]. by intros ->.
Qed.

Definition cost_of (o : relay_worker) (l : list string) : Z := class_admission_cost o (count_models l).

Lemma count_models_snoc l m :
  count_models (l ++ [m]) = od_set m (default 0 (od_get m (count_models l)) + 1) (count_models l).
Proof. unfold count_models. by rewrite foldl_app. Qed.
Lemma count_models_get l m : default 0 (od_get m (count_models l)) = occ m l.
Proof.
  induction l as [|x l IH] using rev_ind; [done|]. rewrite count_models_snoc, occ_app, occ_single, <- IH.
  destruct (decide (x = m)) as [->|Hne]; [by rewrite od_get_set|]. rewrite od_get_set_ne by done. lia.
Qed.
Lemma class_admission_set o m v d : NoDup d.*1 ->
  class_admission_cost o (od_set m v d)
  = class_admission_cost o d - class_cost o m (default 0 (od_get m d)) + class_cost o m v.
Proof.
  unfold class_admission_cost. induction d as [|[k x] d IH]; cbn; intros Hd.
  - lia.
  - apply NoDup_cons in Hd as [Hk Hd]. destruct (decide (k = m)) as [->|Hne]; cbn; [lia|]. rewrite IH by done. lia.
Qed.
Lemma count_models_nodup l : NoDup (count_models l).*1.
Proof.
  induction l as [|m l IH] using rev_ind; [constructor|]. rewrite count_models_snoc. by apply od_set_nodup.
Qed.

Lemma cost_of_sum o l D : NoDup D -> l ⊆ D -> cost_of o l = sum_over (fun m => class_cost o m (occ m l)) D.
Proof.
  intros HD. induction l as [|x l IH] using rev_ind; intros Hsub.
  - unfold cost_of. cbn. symmetry. rewrite (sum_over_ext _ (fun _ => 0)); [|done].
    clear. induction D; cbn; [done|]. lia.
  - unfold cost_of. rewrite count_models_snoc, class_admission_set, count_models_get by apply count_models_nodup.
    change (class_admission_cost o (count_models l)) with (cost_of o l). rewrite IH by set_solver.
    rewrite (sum_over_at (fun m => class_cost o m (occ m (l ++ [x]))) (fun m => class_cost o m (occ m l)) D x);
      [|done|set_solver|].
    + rewrite occ_app, occ_single. rewrite decide_True by done. lia.
    + intros y Hy. rewrite occ_app, occ_single, decide_False by done. by rewrite Z.add_0_r.
Qed.

Lemma default_lookup {A} (o : option (gmap string A)) m v :
  default ∅ o !! m = Some v -> exists x, o = Some x /\ x !! m = Some v.
Proof. destruct o as [x|]; unfold default, from_option, id; [by exists x|]. by rewrite lookup_empty. Qed.
Lemma class_cost_nonneg o m k : costs_wf o -> 0 <= class_cost o m k.
Proof.
  intros [Hp Hc]. unfold class_cost, REALTIME_BAR_MS. case_match eqn:E; [done|].
  destruct (default ∅ (rw_batch o) !! m) as [c|] eqn:Eb.
  - case_match; [|done]. destruct (c !! Z.to_nat (k - 1)) as [v|] eqn:Ev; cbn; [|done].
    apply default_lookup in Eb as (batch & Erb & Eb).
    destruct (Hc batch m c Erb Eb) as [Hf _]. rewrite Forall_lookup in Hf. specialize (Hf _ _ Ev). lia.
  - destruct (default ∅ (rw_p95 o) !! m) as [v|] eqn:Ev; [|done].
    apply default_lookup in Ev as (p95 & Erp & Ev). specialize (Hp p95 m v Erp Ev). nia.
Qed.
Lemma sorted_le c : Sorted Z.le c -> forall i j x y, (i <= j)%nat -> c !! i = Some x -> c !! j = Some y -> x <= y.
Proof.
  intros Hs%Sorted_StronglySorted; [|intros ? ? ?; lia]. induction Hs as [|z c Hs IH Hf]; [done|].
  intros [|i] [|j] x y Hij Hx Hy; cbn in *; try lia.
  - simplify_eq. lia.
  - simplify_eq. rewrite Forall_lookup in Hf. by eapply Hf.
  - eapply IH; [|exact Hx|exact Hy]. lia.
Qed.
Lemma class_cost_mono o m k k' : costs_wf o -> 0 <= k' <= k -> class_cost o m k <= REALTIME_BAR_MS ->
  class_cost o m k' <= class_cost o m k.
Proof.
  intros Hwf Hk Hbar. pose proof (class_cost_nonneg o m k Hwf) as Hpos. destruct Hwf as [Hp Hc].
  unfold class_cost in *. destruct (k' <=? 0) eqn:E'; [by case_match|]. apply Z.leb_gt in E'.
  rewrite (proj2 (Z.leb_gt k 0)) in * by lia. destruct (default ∅ (rw_batch o) !! m) as [c|] eqn:Eb.
  - destruct (k <=? Z.of_nat (length c)) eqn:El; [|unfold REALTIME_BAR_MS in *; lia]. apply Z.leb_le in El.
    rewrite (proj2 (Z.leb_le k' _)) by lia.
    apply default_lookup in Eb as (batch & Erb & Eb).
    destruct (Hc batch m c Erb Eb) as [_ Hs].
    destruct (lookup_lt_is_Some_2 c (Z.to_nat (k' - 1))) as [x Hx]; [lia|].
    destruct (lookup_lt_is_Some_2 c (Z.to_nat (k - 1))) as [y Hy]; [lia|].
    rewrite Hx, Hy. cbn. by eapply (sorted_le c Hs (Z.to_nat (k' - 1)) (Z.to_nat (k - 1))); [lia|..].
  - destruct (default ∅ (rw_p95 o) !! m) as [v|] eqn:Ev; [|done].
    apply default_lookup in Ev as (p95 & Erp & Ev). specialize (Hp p95 m v Erp Ev). nia.
Qed.
(** Fewer sessions of each model cost no more, where the many fit. *)
Lemma cost_of_mono o l l' : costs_wf o -> (forall m, occ m l' <= occ m l) -> cost_of o l <= REALTIME_BAR_MS ->
  cost_of o l' <= cost_of o l.
Proof.
  intros Hwf Hocc Hbar. set (D := remove_dups (l ++ l')).
  assert (HD : NoDup D) by apply NoDup_remove_dups.
  assert (Hin : forall x, x ∈ l ++ l' -> x ∈ D) by (intros x; unfold D; by rewrite elem_of_remove_dups).
  rewrite (cost_of_sum o l D) in * by (done || (intros x Hx; apply Hin; set_solver)).
  rewrite (cost_of_sum o l' D) by (done || (intros x Hx; apply Hin; set_solver)).
  apply sum_over_le. intros m Hm. apply class_cost_mono; [done|split; [apply occ_nonneg|apply Hocc]|].
  etransitivity; [|exact Hbar]. apply (sum_over_elem (fun m => class_cost o m (occ m l))); [|done].
  intros y. by apply class_cost_nonneg.
Qed.
Lemma cost_of_perm o l l' : costs_wf o -> (forall m, occ m l' = occ m l) -> cost_of o l' = cost_of o l.
Proof.
  intros Hwf Hocc. set (D := remove_dups (l ++ l')).
  assert (HD : NoDup D) by apply NoDup_remove_dups.
  assert (Hin : forall x, x ∈ l ++ l' -> x ∈ D) by (intros x; unfold D; by rewrite elem_of_remove_dups).
  rewrite (cost_of_sum o l D), (cost_of_sum o l' D) by (done || (intros x Hx; apply Hin; set_solver)).
  apply sum_over_ext. intros m _. by rewrite Hocc.
Qed.

(** ** How sessions move *)

(** An ended session stays ended, attempts and revisions grow, the first close
    stays and nothing is posted behind it. *)
Definition mail_wf (m : mailbox) : Prop := is_Some (mb_close m) -> mb_frame m = None.
Record mail_le (m m' : mailbox) : Prop := {
  ml_close : forall c, mb_close m = Some c -> mb_close m' = Some c /\ mb_controls m' `suffix_of` mb_controls m;
  ml_wf : mail_wf m -> mail_wf m'
}.
Record session_le (s s' : session) : Prop := {
  sl_model : se_model s' = se_model s;
  sl_user : se_user s' = se_user s;
  sl_auth : se_auth s' = se_auth s;
  sl_header : se_header s' = se_header s;
  sl_generation : pl_generation (se_place s) <= pl_generation (se_place s');
  sl_revision : dr_revision (se_drawing s) <= dr_revision (se_drawing s');
  sl_ended : state_of s = SEnded -> state_of s' = SEnded;
  sl_ending : state_of s = SEnding -> state_of s' = SEnding \/ state_of s' = SEnded;
  sl_mail : mail_le (se_mail s) (se_mail s')
}.
#[export] Instance mail_le_po : PreOrder mail_le.
Proof.
  split.
  - intros m. split; [|done]. by intros c Hc.
  - intros m1 m2 m3 [Hc Hw] [Hc' Hw']. split; [|auto]. intros c H1. destruct (Hc c H1) as [H2 ?].
    destruct (Hc' c H2) as [? ?]. split; [done|]. by etransitivity.
Qed.
#[export] Instance session_le_po : PreOrder session_le.
Proof.
  split.
  - intros s. split; auto; reflexivity.
  - intros s1 s2 s3 [????????] [????????]. split; try congruence; try lia; auto; [|by etransitivity].
    intros [?|?]%sl_ending0; auto.
Qed.

Definition tame (f : session -> session) : Prop := forall s, session_le s (f s) /\ pl_worker (se_place (f s)) = pl_worker (se_place s).

Lemma mail_post c m : mail_le m (match mb_close m with Some _ => m | None =>
  {| mb_controls := mb_controls m ++ [c]; mb_frame := mb_frame m; mb_close := None; mb_wake := true |} end).
Proof. destruct (mb_close m) eqn:E; [done|]. split; [by rewrite E|]. by intros _ [? ?]. Qed.
Lemma tame_id : tame (fun s => s).
Proof. by split. Qed.
Lemma tame_comp f g : tame f -> tame g -> tame (fun s => g (f s)).
Proof. intros Hf Hg s. destruct (Hf s), (Hg (f s)). split; [by etransitivity|congruence]. Qed.
Lemma tame_on_mail f : (forall m, mail_le m (f m)) -> tame (on_mail f).
Proof. intros Hf s. split; [|done]. split; cbn; auto; reflexivity. Qed.
Lemma tame_on_params f : tame (on_params f).
Proof. intros s. split; [|done]. split; cbn; auto; reflexivity. Qed.
Lemma tame_on_drawing f : (forall d, dr_revision d <= dr_revision (f d)) -> tame (on_drawing f).
Proof. intros Hf s. split; [|done]. split; cbn; auto; try reflexivity. Qed.
Lemma tame_on_place f : (forall pl, pl_generation pl <= pl_generation (f pl) /\ pl_state (f pl) = pl_state pl /\ pl_worker (f pl) = pl_worker pl) ->
  tame (on_place f).
Proof.
  intros Hf s. destruct (Hf (se_place s)) as (Hg & Hs & Hw). split; [|done].
  split; cbn; auto; try reflexivity; unfold state_of; cbn; rewrite Hs; auto.
Qed.
Lemma tame_post c : tame (post c).
Proof. apply tame_on_mail. intros m. apply mail_post. Qed.
Lemma tame_post_frame d : tame (post_frame d).
Proof.
  apply tame_on_mail. intros m. destruct (mb_close m) eqn:E; [done|]. split; [by rewrite E|]. by intros _ [? ?].
Qed.
Lemma tame_post_close c msg : tame (post_close c msg).
Proof. apply tame_on_mail. intros m. destruct (mb_close m) eqn:E; [done|]. split; [by rewrite E|]. by intros _ _. Qed.
Lemma tame_new_attempt : tame new_attempt.
Proof. intros s. split; [|done]. split; cbn; auto; try reflexivity. lia. Qed.
Create HintDb tame.
#[export] Hint Resolve tame_id tame_on_params tame_post tame_post_frame tame_post_close tame_new_attempt : tame.
#[export] Hint Extern 2 (tame (on_place _)) => apply tame_on_place; intros ?; cbn; repeat split; lia : tame.
#[export] Hint Extern 2 (tame (on_drawing _)) => apply tame_on_drawing; intros ?; cbn; lia : tame.
Lemma tame_tell_position force n : tame (tell_position force n).
Proof.
  intros s. unfold tell_position. case_match; [|by apply (tame_on_place (set_position n))].
  apply (tame_comp (post (queued_event n)) (on_place (set_position n))); auto with tame.
Qed.
Lemma tame_too_large t : tame (post_frame_too_large t).
Proof.
  intros s. unfold post_frame_too_large. case_match; [by apply tame_id|].
  apply (tame_comp (on_drawing (set_error_after (t + FRAME_TOO_LARGE_INTERVAL))) (post frame_too_large)); auto with tame.
Qed.
Lemma tame_next_out : tame (fun s => (next_out s).2).
Proof.
  intros s. split; [|unfold next_out; by repeat case_match].
  assert (Hm : mail_le (se_mail s) (se_mail (next_out s).2)).
  { unfold next_out. destruct (se_mail s) as [cs fr cl wk] eqn:E. destruct cs as [|c cs]; cbn.
    - destruct cl as [[? ?]|]; cbn; [by rewrite E|]. destruct fr; cbn; [|by rewrite E]. by split.
    - split; [|unfold mail_wf; cbn; rewrite E; auto]. cbn. rewrite E. cbn. intros x ->. split; [done|]. by exists [c]. }
  split; try (unfold next_out; repeat case_match; cbn; auto; reflexivity). done.
Qed.
Lemma tame_clear_wake : tame clear_wake.
Proof. apply tame_on_mail. intros m. split; [|auto]. intros c Hc. by split. Qed.
Lemma tame_to_worker_frame w frame : tame (fun s => (to_worker_frame w frame s).2).
Proof. intros s. cbn. apply tame_on_drawing. done. Qed.
#[export] Hint Resolve tame_tell_position tame_too_large tame_next_out tame_clear_wake tame_to_worker_frame : tame.

(** ** How the process moves *)

Definition same_costs (o o' : relay_worker) : Prop := rw_p95 o' = rw_p95 o /\ rw_batch o' = rw_batch o.
(** The costs of a worker only rise, and while none does its curves stay. *)
Definition cost_map_le (c c' : option (gmap string Z)) : Prop :=
  option_relation (fun c c' : gmap string Z => forall m, option_relation Z.le (fun _ => False) (fun _ => False) (c !! m) (c' !! m))
    (fun _ => False) (fun _ => False) c c'.
Record costs_le (o o' : relay_worker) : Prop := {
  cl_p95 : cost_map_le (rw_p95 o) (rw_p95 o');
  cl_batch : rw_p95 o' = rw_p95 o -> rw_batch o' = rw_batch o
}.
Lemma cost_map_le_refl c : cost_map_le c c.
Proof. destruct c as [c|]; [|done]. unfold cost_map_le. cbn. intros m. destruct (c !! m); cbn; [lia|done]. Qed.
Lemma cost_map_le_trans c1 c2 c3 : cost_map_le c1 c2 -> cost_map_le c2 c3 -> cost_map_le c1 c3.
Proof.
  unfold cost_map_le. destruct c1 as [c1|], c2 as [c2|], c3 as [c3|]; try done. cbn. intros H12 H23 m. specialize (H12 m). specialize (H23 m).
  destruct (c1 !! m), (c2 !! m), (c3 !! m); cbn in *; try done. lia.
Qed.
Lemma cost_map_le_antisym c c' : cost_map_le c c' -> cost_map_le c' c -> c' = c.
Proof.
  unfold cost_map_le. destruct c as [c|], c' as [c'|]; try done. cbn. intros H H'. f_equal. apply map_eq. intros m. specialize (H m). specialize (H' m).
  destruct (c !! m), (c' !! m); cbn in *; try done. f_equal. lia.
Qed.
(** Costs that are back where they were never rose. *)
Lemma costs_le_between o1 o2 o3 : costs_le o1 o2 -> costs_le o2 o3 -> rw_p95 o3 = rw_p95 o1 ->
  same_costs o1 o2 /\ same_costs o2 o3.
Proof.
  intros [H12 Hb12] [H23 Hb23] E. assert (Hp : rw_p95 o2 = rw_p95 o1).
  { apply cost_map_le_antisym; [done|]. by rewrite <- E. }
  split; (split; [congruence|]); [apply Hb12|apply Hb23]; congruence.
Qed.
#[export] Instance costs_le_po : PreOrder costs_le.
Proof.
  split; [intros o; split; [apply cost_map_le_refl|done]|]. intros o1 o2 o3 H12 H23.
  split; [eapply cost_map_le_trans; [apply H12|apply H23]|]. intros E.
  destruct (costs_le_between _ _ _ H12 H23 E) as [[_ ?] [_ ?]]. congruence.
Qed.
Lemma same_costs_le o o' : same_costs o o' -> costs_le o o'.
Proof. intros [Hp Hb]. split; [rewrite Hp; apply cost_map_le_refl|done]. Qed.

(** The sessions on a worker. *)
Definition on_worker (w : nat) (p : relay) : gset string := dom (filter (fun kv : string * session => held_by w kv.2 = true) (r_sessions p)).
Definition held (w : nat) (p : relay) : Z := Z.of_nat (size (on_worker w p)).
Lemma elem_on_worker w p id : id ∈ on_worker w p <-> pl_worker (se_place (session_of id p)) = Some w.
Proof.
  unfold on_worker, session_of. rewrite elem_of_dom. unfold is_Some. setoid_rewrite map_lookup_filter_Some.
  unfold held_by. split.
  - by intros (s & -> & Hs%bool_decide_eq_true).
  - destruct (r_sessions p !! id) as [s|] eqn:E; cbn; [|done]. intros Hs. exists s. split; [done|].
    by apply bool_decide_eq_true.
Qed.

(** The frames of the sessions on a worker stay within the bar. *)
Definition fits (w : nat) (p : relay) : Prop := live_admission_cost w None [] p <= REALTIME_BAR_MS.
(** Sessions are never forgotten, and each moves on; neither are workers, and
    as long as no cost of one rises its sessions fit once they do, and it gets
    none with which they would not. *)
Definition sessions_move (p p' : relay) : Prop :=
  forall id s, r_sessions p !! id = Some s -> exists s', r_sessions p' !! id = Some s' /\ session_le s s'.
Definition fits_kept (p p' : relay) : Prop :=
  forall w o, r_objects p !! w = Some o ->
    exists o', r_objects p' !! w = Some o' /\ costs_le o o'
      /\ (same_costs o o' -> (fits w p -> fits w p') /\ (fits w p' \/ on_worker w p' ⊆ on_worker w p)).
Record grows (p p' : relay) : Prop := { gr_sessions : sessions_move p p'; gr_fits : fits_kept p p' }.
#[export] Instance grows_po : PreOrder grows.
Proof.
  split; [intros p; split; [by intros id s Hs; exists s|intros w o Ho; exists o]|].
  { split; [done|]. split; [done|]. intros _. split; [done|by right]. }
  intros p1 p2 p3 [H12 F12] [H23 F23]. split.
  - intros id s Hs. destruct (H12 id s Hs) as (s2 & Hs2 & ?), (H23 id s2 Hs2) as (s3 & ? & ?). exists s3.
    split; [done|]. by etransitivity.
  - intros w o Ho. destruct (F12 w o Ho) as (o2 & Ho2 & L12 & K12), (F23 w o2 Ho2) as (o3 & ? & L23 & K23). exists o3.
    split; [done|]. split; [by etransitivity|]. intros [Hp _]. destruct (costs_le_between _ _ _ L12 L23 Hp) as [S12 S23].
    destruct (K12 S12) as [F12' O12], (K23 S23) as [F23' O23]. split; [by auto|].
    destruct O23 as [?|O23]; [by left|]. destruct O12 as [?|O12]; [left; by apply F23'|right]. by etransitivity.
Qed.
(** A worker keeps its costs and room, and what it loses of its slots in use
    was a session's. *)
Definition room_le (w : nat) (p p' : relay) (o o' : relay_worker) : Prop :=
  same_costs o o' /\ rw_slots o' = rw_slots o /\ rw_in_use o' <= rw_in_use o
  /\ held w p' + rw_in_use o <= held w p + rw_in_use o'.
(** What no task needs to guard: sessions move on, leave workers and the
    dictionary, and slots come back with them. *)
Record shrinks (p p' : relay) : Prop := {
  sh_dom : dom (r_sessions p') = dom (r_sessions p);
  sh_le : forall id, session_le (session_of id p) (session_of id p');
  sh_open : r_open p' `sublist_of` r_open p;
  sh_worker : forall id w, pl_worker (se_place (session_of id p')) = Some w -> pl_worker (se_place (session_of id p)) = Some w;
  sh_objects : forall w, option_relation (room_le w p p') (fun _ => False) (fun _ => False) (r_objects p !! w) (r_objects p' !! w)
}.
#[export] Instance shrinks_po : PreOrder shrinks.
Proof.
  split.
  - intros p. split; try done. intros w. destruct (r_objects p !! w); cbn; [|done]. split; [done|]. lia.
  - intros p1 p2 p3 [? Hle12 ? ? ?] [? Hle23 ? ? ?]. split; [congruence|intros id; by transitivity (session_of id p2)| | |].
    { by transitivity (r_open p2). }
    { auto. }
    intros w. specialize (sh_objects0 w). specialize (sh_objects1 w).
    destruct (r_objects p1 !! w), (r_objects p2 !! w), (r_objects p3 !! w); cbn in *; try done.
    destruct sh_objects0 as ([? ?] & ? & ? & ?), sh_objects1 as ([? ?] & ? & ? & ?).
    split; [split; congruence|]. split; [congruence|]. lia.
Qed.
Lemma shrinks_sessions p p' : shrinks p p' -> sessions_move p p'.
Proof.
  intros [Hd Hl _ _ _] id s Hs. assert (Hid : id ∈ dom (r_sessions p')) by (rewrite Hd; apply elem_of_dom; exists s; exact Hs).
  apply elem_of_dom in Hid as [s' Hs']. exists s'. split; [done|]. specialize (Hl id). unfold session_of in Hl.
  by rewrite Hs, Hs' in Hl.
Qed.

Lemma session_of_update id f p : is_Some (r_sessions p !! id) -> session_of id (update id f p) = f (session_of id p).
Proof. intros [s Hs]. unfold session_of, update. cbn. by rewrite lookup_alter_eq, Hs. Qed.
Lemma session_of_update_ne id id' f p : id ≠ id' -> session_of id (update id' f p) = session_of id p.
Proof. intros Hne. unfold session_of, update. cbn. by rewrite lookup_alter_ne. Qed.
Lemma session_of_update_none id f p : r_sessions p !! id = None -> update id f p = p.
Proof. intros Hn. unfold update, on_sessions. rewrite alter_id' by done. by destruct p. Qed.
Lemma dom_update id f p : dom (r_sessions (update id f p)) = dom (r_sessions p).
Proof. apply dom_alter_L. Qed.

(** Nothing of the slots changes. *)
Lemma shrinks_calm p p' : dom (r_sessions p') = dom (r_sessions p) ->
  (forall id, session_le (session_of id p) (session_of id p')
              /\ pl_worker (se_place (session_of id p')) = pl_worker (se_place (session_of id p))) ->
  r_open p' `sublist_of` r_open p -> r_objects p' = r_objects p -> shrinks p p'.
Proof.
  intros Hd Hs Ho Hw. split; [done|intros id; by apply Hs|done|intros id w <-; symmetry; apply Hs|].
  intros w. rewrite Hw. destruct (r_objects p !! w) as [o|]; cbn; [|done]. split; [done|]. split; [done|]. split; [done|].
  assert (Hheld : on_worker w p' = on_worker w p).
  { apply set_eq. intros id. rewrite !elem_on_worker. by rewrite (proj2 (Hs id)). }
  unfold held. rewrite Hheld. lia.
Qed.
Lemma shrinks_update_at id f p :
  (is_Some (r_sessions p !! id) -> session_le (session_of id p) (f (session_of id p))
    /\ pl_worker (se_place (f (session_of id p))) = pl_worker (se_place (session_of id p))) ->
  shrinks p (update id f p).
Proof.
  intros Hf. destruct (r_sessions p !! id) as [s|] eqn:E.
  - apply shrinks_calm; [apply dom_update| |done|done]. intros id'. destruct (decide (id' = id)) as [->|Hne].
    + rewrite session_of_update by done. by apply Hf.
    + by rewrite session_of_update_ne.
  - by rewrite session_of_update_none.
Qed.
Lemma shrinks_update id f p : tame f -> shrinks p (update id f p).
Proof. intros Hf. apply shrinks_update_at. intros _. apply Hf. Qed.
Lemma shrinks_set id s p : session_le (session_of id p) s /\ pl_worker (se_place s) = pl_worker (se_place (session_of id p)) ->
  shrinks p (update id (fun _ => s) p).
Proof. intros Hs. by apply shrinks_update_at. Qed.
Lemma shrinks_workers f p : shrinks p (on_workers f p).
Proof. by apply shrinks_calm. Qed.
Lemma shrinks_closing f p : shrinks p (on_closing f p).
Proof. by apply shrinks_calm. Qed.
Lemma shrinks_open f p : f (r_open p) `sublist_of` r_open p -> shrinks p (on_open f p).
Proof. intros Hf. by apply shrinks_calm. Qed.
Create HintDb relay.
#[export] Hint Resolve shrinks_update shrinks_workers shrinks_closing : relay.

Lemma shrinks_transition id expected new p :
  (SEnding ∈ expected -> new = SEnding \/ new = SEnded) -> shrinks p (transition id expected new p).2.
Proof.
  intros He. unfold transition. case_decide as H1; [done|]. case_decide as H2; [|done]. cbn.
  apply shrinks_update_at. intros _. split; [|done]. split; cbn; auto; try reflexivity; [done|].
  unfold state_of in *. cbn in *. intros H3. apply He. by rewrite <- H3.
Qed.
Lemma shrinks_give_back id w p : pl_worker (se_place (session_of id p)) = Some w -> shrinks p (give_back id w p).
Proof.
  intros Hw. assert (Hid : is_Some (r_sessions p !! id)).
  { unfold session_of in Hw. by destruct (r_sessions p !! id). }
  assert (Hs : forall id', se_place (session_of id' (give_back id w p))
                          = if decide (id' = id) then set_worker None (se_place (session_of id p)) else se_place (session_of id' p)).
  { intros id'. change (session_of id' (give_back id w p)) with (session_of id' (update id (on_place (set_worker None)) p)).
    case_decide as Hd; [subst id'; by rewrite session_of_update|by rewrite session_of_update_ne]. }
  assert (Hon : forall w', on_worker w' (give_back id w p) = if decide (w' = w) then on_worker w p ∖ {[id]} else on_worker w' p).
  { intros w'. apply set_eq. intros id'. rewrite elem_on_worker, Hs. case_decide as Hd; cbn.
    - subst id'. case_decide; [set_solver|]. rewrite elem_on_worker. split; [done|]. rewrite Hw. congruence.
    - case_decide; [subst w'; rewrite elem_of_difference, elem_of_singleton|]; rewrite elem_on_worker; tauto. }
  split.
  - apply dom_update.
  - intros id'. change (session_of id' (give_back id w p)) with (session_of id' (update id (on_place (set_worker None)) p)).
    destruct (decide (id' = id)) as [->|Hne]; [|by rewrite session_of_update_ne]. rewrite session_of_update by done.
    split; cbn; auto; reflexivity.
  - done.
  - intros id' w'. rewrite Hs. case_decide; [done|auto].
  - intros w'. cbn. destruct (decide (w' = w)) as [->|Hne].
    + rewrite lookup_alter_eq. destruct (r_objects p !! w) as [o|]; cbn; [|done]. split; [done|]. split; [done|].
      unfold held. rewrite Hon, decide_True by done. cbn.
      assert (Hin : id ∈ on_worker w p) by by apply elem_on_worker.
      rewrite size_difference, size_singleton by set_solver.
      assert (size (on_worker w p) ≠ 0)%nat by (intros Hz%size_empty_inv; set_solver).
      unfold rw_in_use. cbn. unfold rw_in_use. lia.
    + rewrite lookup_alter_ne by done. destruct (r_objects p !! w') as [o|]; cbn; [|done]. split; [done|]. split; [done|].
      unfold held. rewrite Hon, decide_False by done. lia.
Qed.

(** ** The invariant *)

Record inv (p : relay) : Prop := {
  iv_slots : forall w o, r_objects p !! w = Some o -> held w p <= rw_in_use o;
  iv_known : forall id w, pl_worker (se_place (session_of id p)) = Some w -> is_Some (r_objects p !! w);
  iv_room : forall w o, r_objects p !! w = Some o -> rw_p95 o = None -> rw_in_use o <= Z.max 0 (rw_slots o);
  iv_costs : forall w o, r_objects p !! w = Some o -> costs_wf o;
  iv_nodup : NoDup (r_open p);
  iv_open : forall id, id ∈ r_open p -> is_Some (r_sessions p !! id);
  iv_cap : forall user, Z.of_nat (length (sessions_of user p)) <= MAX_REALTIME_SESSIONS_PER_USER;
  iv_mail : forall id, mail_wf (se_mail (session_of id p))
}.

Lemma occ_cons m x l : occ m (x :: l) = (if decide (x = m) then 1 else 0) + occ m l.
Proof. change (x :: l) with ([x] ++ l). by rewrite occ_app, occ_single. Qed.
(** Sessions that leave a list of models. *)
Lemma occ_filter_le m (f f' : string -> string) (P P' : string -> Prop) `{!forall x, Decision (P x)}
    `{!forall x, Decision (P' x)} l l' :
  l' `sublist_of` l -> (forall x, P' x -> P x /\ f' x = f x) -> occ m (f' <$> filter P' l') <= occ m (f <$> filter P l).
Proof.
  intros Hsub Hf. induction Hsub as [|x l' l _ IH|x l' l _ IH]; [done| |].
  - destruct (decide (P' x)) as [Hx|Hx].
    + destruct (Hf x Hx) as [Hp Hfx]. rewrite !filter_cons_True by done. rewrite !fmap_cons, !occ_cons, Hfx. lia.
    + rewrite (filter_cons_False P') by done. destruct (decide (P x)); [rewrite filter_cons_True by done|by rewrite filter_cons_False].
      rewrite fmap_cons, occ_cons. case_decide; lia.
  - destruct (decide (P x)); [rewrite filter_cons_True by done|by rewrite filter_cons_False].
    rewrite fmap_cons, occ_cons. case_decide; lia.
Qed.
Lemma occ_filter_join m (f f' : string -> string) (P P' : string -> Prop) `{!forall x, Decision (P x)}
    `{!forall x, Decision (P' x)} l id :
  NoDup l -> (forall x, x ≠ id -> P' x -> P x /\ f' x = f x) ->
  occ m (f' <$> filter P' l) <= occ m (f <$> filter P l) + if decide (f' id = m) then 1 else 0.
Proof.
  intros Hl Hf. induction Hl as [|x l Hx _ IH]; [unfold occ; cbn; case_decide; lia|].
  destruct (decide (x = id)) as [->|Hne].
  - assert (Hle : occ m (f' <$> filter P' l) <= occ m (f <$> filter P l)).
    { clear IH. induction l as [|y l IH]; [done|]. apply not_elem_of_cons in Hx as [Hy Hx]. specialize (IH Hx).
      destruct (decide (P' y)) as [Hpy|Hpy].
      - destruct (Hf y ltac:(congruence) Hpy) as [Hp Hfy]. rewrite !filter_cons_True by done. rewrite !fmap_cons, !occ_cons, Hfy. lia.
      - rewrite (filter_cons_False P') by done. destruct (decide (P y)); [rewrite filter_cons_True by done|by rewrite filter_cons_False].
        rewrite fmap_cons, occ_cons. case_decide; lia. }
    assert (H1 : occ m (f' <$> filter P' (id :: l)) <= (if decide (f' id = m) then 1 else 0) + occ m (f' <$> filter P' l)).
    { destruct (decide (P' id)); [rewrite filter_cons_True by done|rewrite filter_cons_False by done; case_decide; lia].
      rewrite fmap_cons, occ_cons. lia. }
    assert (H2 : occ m (f <$> filter P l) <= occ m (f <$> filter P (id :: l))).
    { destruct (decide (P id)); [rewrite filter_cons_True by done|by rewrite filter_cons_False].
      rewrite fmap_cons, occ_cons. destruct (decide (f id = m)); lia. }
    clear -Hle H1 H2; lia.
  - destruct (decide (P' x)) as [Hpx|Hpx].
    + destruct (Hf x Hne Hpx) as [Hp Hfx]. rewrite !filter_cons_True by done. rewrite !fmap_cons, !occ_cons, Hfx. lia.
    + rewrite (filter_cons_False P') by done. destruct (decide (P x)); [rewrite filter_cons_True by done|by rewrite filter_cons_False].
      rewrite fmap_cons, occ_cons. destruct (decide (f x = m)); lia.
Qed.

Lemma cost_same o o' l : same_costs o o' -> cost_of o' l = cost_of o l.
Proof.
  intros [Hp Hb]. unfold cost_of, class_admission_cost. induction (count_models l) as [|x d IH]; cbn; [done|].
  rewrite IH. unfold class_cost. by rewrite Hp, Hb.
Qed.
Lemma costs_wf_same o o' : same_costs o o' -> costs_wf o -> costs_wf o'.
Proof. intros [Hp Hb] Hc. unfold costs_wf in *. by rewrite Hp, Hb. Qed.
Lemma worker_at_some w o p : r_objects p !! w = Some o -> worker_at w p = o.
Proof. unfold worker_at. by intros ->. Qed.
Lemma bare_costs : costs_wf bare_worker.
Proof. split; intros ? ? ?; cbn; congruence. Qed.
Lemma worker_costs p w : inv p -> costs_wf (worker_at w p).
Proof.
  intros Hi. unfold worker_at. destruct (r_objects p !! w) as [o|] eqn:E; cbn; [by eapply (iv_costs _ Hi)|apply bare_costs].
Qed.
Lemma live_cost_alt w extra p :
  live_admission_cost w extra [] p
  = match rw_p95 (worker_at w p) with
    | None => 0
    | Some _ => cost_of (worker_at w p) (models_on w [] p ++ match extra with Some m => [m] | None => [] end)
    end.
Proof. done. Qed.
(** A worker that holds no more of any model, or what fits. *)
Lemma fits_less w p p' extra l : costs_wf (worker_at w p) -> same_costs (worker_at w p) (worker_at w p') ->
  live_admission_cost w extra [] p <= REALTIME_BAR_MS ->
  l = models_on w [] p ++ match extra with Some m => [m] | None => [] end ->
  (forall m, occ m (models_on w [] p') <= occ m l) -> fits w p'.
Proof.
  unfold fits.
  intros Hwf Hsame Hbar -> Hocc. rewrite live_cost_alt in *. rewrite (proj1 Hsame).
  destruct (rw_p95 (worker_at w p)); [|done]. rewrite (cost_same (worker_at w p)) by done. etransitivity; [|exact Hbar].
  apply cost_of_mono; [done| |done]. intros m. rewrite app_nil_r. apply Hocc.
Qed.

(** A worker without sessions. *)
Lemma fits_empty w p : on_worker w p = ∅ -> fits w p.
Proof.
  intros Hno. unfold fits. rewrite live_cost_alt. assert (Hm : models_on w [] p = []); [|rewrite Hm; by case_match].
  unfold models_on. erewrite (list_filter_iff _ (fun _ => False)); [|].
  - induction (r_open p) as [|id l IH]; [done|]. by rewrite filter_cons_False by tauto.
  - intros id. split; [|done]. intros [Hh%bool_decide_eq_true_1 _]. assert (Hin : id ∈ on_worker w p) by by apply elem_on_worker.
    rewrite Hno in Hin. set_solver.
Qed.

Lemma shrinks_object p p' w o' : shrinks p p' -> r_objects p' !! w = Some o' ->
  exists o, r_objects p !! w = Some o /\ room_le w p p' o o'.
Proof.
  intros [_ _ _ _ Hw] Ho. specialize (Hw w). rewrite Ho in Hw. destruct (r_objects p !! w) as [o|]; [by exists o|done].
Qed.
Lemma shrinks_object_at p p' w : shrinks p p' -> same_costs (worker_at w p) (worker_at w p').
Proof.
  intros [_ _ _ _ Hw]. specialize (Hw w). unfold worker_at.
  destruct (r_objects p !! w), (r_objects p' !! w); cbn in *; try done. by destruct Hw.
Qed.
Lemma held_by_spec w s : held_by w s = true <-> pl_worker (se_place s) = Some w.
Proof. apply bool_decide_eq_true. Qed.
Lemma length_filter_sublist {A} (P P' : A -> Prop) `{!forall x, Decision (P x)} `{!forall x, Decision (P' x)} l l' :
  l' `sublist_of` l -> (forall x, x ∈ l' -> P' x -> P x) -> (length (filter P' l') <= length (filter P l))%nat.
Proof.
  induction 1 as [|x l' l _ IH|x l' l _ IH]; intros Hf; [done| |].
  - specialize (IH (fun y Hy => Hf y ltac:(by right))). destruct (decide (P' x)) as [Hx|Hx].
    + rewrite !filter_cons_True by (done || (apply Hf; [left|done])). cbn. lia.
    + rewrite (filter_cons_False P') by done. destruct (decide (P x)); [rewrite filter_cons_True by done; cbn; lia|by rewrite filter_cons_False].
  - specialize (IH Hf). destruct (decide (P x)); [rewrite filter_cons_True by done; cbn; lia|by rewrite filter_cons_False].
Qed.
(** A session that counts towards its account's cap counted before. *)
Definition counted (user : option string) (s : session) : Prop := se_user s = user /\ state_of s ≠ SEnding /\ state_of s ≠ SEnded.
Lemma counted_le user s s' : session_le s s' -> counted user s' -> counted user s.
Proof.
  intros Hl (Hu & He & Hd). split; [by rewrite <- Hu, (sl_user _ _ Hl)|]. split; intros H.
  - by destruct (sl_ending _ _ Hl H).
  - by apply Hd, (sl_ended _ _ Hl).
Qed.

Lemma shrinks_grows p p' : inv p -> shrinks p p' -> grows p p'.
Proof.
  intros Hi Hs. split; [by apply shrinks_sessions|]. intros w o Ho. pose proof (sh_objects _ _ Hs w) as Hr. rewrite Ho in Hr.
  destruct (r_objects p' !! w) as [o'|]; [|done]. destruct Hr as (Hc & _). exists o'. split; [done|].
  split; [by apply same_costs_le|]. intros _. split; [|right; intros id; rewrite !elem_on_worker; apply (sh_worker _ _ Hs)]. intros Hf.
  eapply (fits_less w p p' None); [by eapply worker_costs|by apply shrinks_object_at|exact Hf|done|].
  intros m. rewrite app_nil_r. apply occ_filter_le; [apply (sh_open _ _ Hs)|]. intros id [Hh Hx].
  apply held_by_spec in Hh. split; [split; [apply held_by_spec; by apply (sh_worker _ _ Hs)|done]|by rewrite (sl_model _ _ (sh_le _ _ Hs id))].
Qed.
Lemma inv_shrinks p p' : inv p -> shrinks p p' -> inv p'.
Proof.
  intros Hi Hs. pose proof (sh_le _ _ Hs) as Hle. split.
  - intros w o' Ho'. destruct (shrinks_object _ _ _ _ Hs Ho') as (o & Ho & _ & _ & Hu & Hh).
    pose proof (iv_slots _ Hi _ _ Ho). lia.
  - intros id w Hw. apply (sh_worker _ _ Hs) in Hw. destruct (iv_known _ Hi _ _ Hw) as [o Ho].
    pose proof (sh_objects _ _ Hs w) as Hr. rewrite Ho in Hr. by destruct (r_objects p' !! w).
  - intros w o' Ho'. destruct (shrinks_object _ _ _ _ Hs Ho') as (o & Ho & [Hp _] & Hsl & Hu & _). rewrite Hp, Hsl.
    intros Hn. pose proof (iv_room _ Hi _ _ Ho Hn). lia.
  - intros w o' Ho'. destruct (shrinks_object _ _ _ _ Hs Ho') as (o & Ho & Hc & _).
    eapply costs_wf_same; [done|by eapply (iv_costs _ Hi)].
  - eapply sublist_NoDup; [apply (iv_nodup _ Hi)|apply (sh_open _ _ Hs)].
  - intros id Hid. apply elem_of_dom. rewrite (sh_dom _ _ Hs). apply elem_of_dom, (iv_open _ Hi).
    eapply elem_of_sublist; [done|apply (sh_open _ _ Hs)].
  - intros user. etransitivity; [|apply (iv_cap _ Hi user)]. apply inj_le. apply length_filter_sublist; [apply (sh_open _ _ Hs)|].
    intros id _ Hc. by apply (counted_le user _ _ (Hle id)).
  - intros id. apply (ml_wf _ _ (sl_mail _ _ (Hle id))), (iv_mail _ Hi).
Qed.

(** ** What the invariant is kept by *)

(** The step a segment may take. *)
Definition ok (p p' : relay) : Prop := inv p -> inv p' /\ grows p p'.
#[export] Instance ok_po : PreOrder (ok).
Proof.
  split; [by intros p Hi|]. intros p1 p2 p3 H12 H23 Hi. destruct (H12 Hi) as [Hi2 ?], (H23 Hi2) as [? ?].
  split; [done|]. by etransitivity.
Qed.
Lemma ok_shrinks p p' : shrinks p p' -> ok p p'.
Proof. intros Hs Hi. split; [by eapply inv_shrinks|by eapply shrinks_grows]. Qed.
#[export] Hint Resolve ok_shrinks : relay.

(** A slot is taken by the session of a place that has room for it. *)
Definition has_room (w : nat) (model : string) (p : relay) : Prop :=
  is_Some (r_objects p !! w)
  /\ match rw_p95 (worker_at w p) with
     | None => 0 < free_slots (worker_at w p)
     | Some _ => live_admission_cost w (Some model) [] p <= REALTIME_BAR_MS
     end.

Lemma take_slot_place id w p id' : is_Some (r_sessions p !! id) ->
  session_of id' (take_slot id w p) = if decide (id' = id) then on_place (fun pl => set_answer false false (set_worker (Some w) pl)) (session_of id p)
                                      else session_of id' p.
Proof.
  intros Hid. unfold take_slot. change (session_of id' (on_objects ?f ?q)) with (session_of id' q).
  case_decide as Hd; [subst id'; by rewrite session_of_update|by rewrite session_of_update_ne].
Qed.
Lemma take_slot_le id w p id' : session_le (session_of id' p) (session_of id' (take_slot id w p)).
Proof.
  destruct (r_sessions p !! id) as [s|] eqn:E.
  - rewrite take_slot_place by done. case_decide as Hd; [subst id'|done]. split; cbn; auto; reflexivity.
  - unfold take_slot. rewrite session_of_update_none by done. done.
Qed.
Lemma grows_sessions p p' : dom (r_sessions p') = dom (r_sessions p) ->
  (forall id, session_le (session_of id p) (session_of id p')) -> sessions_move p p'.
Proof.
  intros Hd Hl id s Hs. assert (Hid : id ∈ dom (r_sessions p')) by (rewrite Hd; apply elem_of_dom; exists s; exact Hs).
  apply elem_of_dom in Hid as [s' Hs']. exists s'. split; [done|]. specialize (Hl id). unfold session_of in Hl.
  by rewrite Hs, Hs' in Hl.
Qed.
Lemma take_slot_objects id w p w' : r_objects (take_slot id w p) !! w' = (if decide (w' = w) then add_slots 1 <$> r_objects p !! w else r_objects p !! w').
Proof. cbn. case_decide as Hd; [subst w'; by rewrite lookup_alter_eq|by rewrite lookup_alter_ne]. Qed.
Lemma take_slot_same id w p w' : same_costs (worker_at w' p) (worker_at w' (take_slot id w p)).
Proof. unfold worker_at. rewrite take_slot_objects. case_decide as Hd; [subst w'|done]. by destruct (r_objects p !! w). Qed.
Lemma take_slot_held id w p w' : is_Some (r_sessions p !! id) ->
  held w' (take_slot id w p) <= held w' p + if decide (w' = w) then 1 else 0.
Proof.
  intros Hid. unfold held. case_decide as Hd.
  - subst w'. assert (Hsub : on_worker w (take_slot id w p) ⊆ {[id]} ∪ on_worker w p).
    { intros id'. rewrite elem_of_union, elem_of_singleton, !elem_on_worker, take_slot_place by done. case_decide; auto. }
    apply subseteq_size in Hsub. rewrite size_union_alt, size_singleton in Hsub.
    assert (size (on_worker w p ∖ {[id]}) <= size (on_worker w p))%nat by (apply subseteq_size; set_solver). lia.
  - rewrite Z.add_0_r. apply inj_le, subseteq_size. intros id'. rewrite !elem_on_worker, take_slot_place by done.
    case_decide; [|done]. cbn. congruence.
Qed.
(** Taking a slot where there is room for it keeps every worker within the
    bar; the worker it is taken from fits afterwards whatever it cost. *)
Lemma fits_take_slot id w p : inv p -> id ∈ r_open p -> has_room w (se_model (session_of id p)) p ->
  fits_kept p (take_slot id w p).
Proof.
  intros Hi Hid [_ Hroom] w' o' Ho'. assert (His : is_Some (r_sessions p !! id)) by by apply (iv_open _ Hi).
  pose proof (take_slot_le id w p) as Hle. pose proof (take_slot_same id w p w') as Hsame.
  assert (Hcosts : costs_wf (worker_at w' p)) by by eapply worker_costs.
  exists (if decide (w' = w) then add_slots 1 o' else o').
  assert (Hat : r_objects (take_slot id w p) !! w' = Some (if decide (w' = w) then add_slots 1 o' else o')).
  { rewrite take_slot_objects. case_decide as Hd; [subst w'; by rewrite Ho'|done]. }
  split; [exact Hat|]. rewrite (worker_at_some _ _ _ Ho'), (worker_at_some _ _ _ Hat) in Hsame.
  split; [by apply same_costs_le|]. intros _. pose proof (take_slot_same id w p w') as Hsame'.
  destruct (decide (w' = w)) as [->|Hne].
  - enough (fits w (take_slot id w p)) by auto.
    destruct (rw_p95 (worker_at w p)) eqn:Ep; [|unfold fits; by rewrite live_cost_alt, (proj1 Hsame'), Ep].
    eapply (fits_less w p _ (Some (se_model (session_of id p)))); [done|done|done|done|]. intros m.
    rewrite occ_app, occ_single. rewrite <- (sl_model _ _ (Hle id)).
    apply (occ_filter_join m _ (fun id' => se_model (session_of id' (take_slot id w p)))); [apply (iv_nodup _ Hi)|].
    intros id' Hne. rewrite take_slot_place, decide_False by done. done.
  - split; [|right; intros id'; rewrite !elem_on_worker, take_slot_place by done; case_decide; cbn; [congruence|done]].
    intros Hf. eapply (fits_less w' p _ None); [done|done|exact Hf|done|].
    intros m. rewrite app_nil_r. apply occ_filter_le; [done|]. intros id'. rewrite take_slot_place by done.
    case_decide as Hd; [|done]. intros [Hh%held_by_spec _]. cbn in Hh. congruence.
Qed.
Lemma ok_take_slot id w p : id ∈ r_open p -> has_room w (se_model (session_of id p)) p -> ok p (take_slot id w p).
Proof.
  intros Hid [[o Ho] Hroom] Hi. assert (His : is_Some (r_sessions p !! id)) by by apply (iv_open _ Hi).
  pose proof (take_slot_le id w p) as Hle. split; [|split; [apply grows_sessions; [apply dom_update|done]|by apply fits_take_slot]].
  rewrite (worker_at_some w o p Ho) in Hroom. split.
  - intros w' o'. rewrite take_slot_objects. pose proof (take_slot_held id w p w' His) as Hh. case_decide as Hd.
    + subst w'. rewrite Ho. intros [= <-]. pose proof (iv_slots _ Hi _ _ Ho). unfold rw_in_use in *. cbn. unfold rw_in_use. lia.
    + intros Ho'. pose proof (iv_slots _ Hi _ _ Ho'). lia.
  - intros id' w'. rewrite take_slot_place, take_slot_objects by done.
    assert (Hk : pl_worker (se_place (session_of id' p)) = Some w' -> is_Some (if decide (w' = w) then add_slots 1 <$> r_objects p !! w else r_objects p !! w')).
    { intros H%(iv_known _ Hi). case_decide; [subst w'; by rewrite Ho|done]. }
    destruct (decide (id' = id)); [|done]. cbn. intros [= <-]. rewrite decide_True by done. by rewrite Ho.
  - intros w' o'. rewrite take_slot_objects. case_decide as Hd; [subst w'|by apply (iv_room _ Hi)].
    rewrite Ho. intros [= <-]. cbn. intros Hn. rewrite Hn in Hroom. unfold free_slots, rw_in_use in *. cbn. unfold rw_in_use. lia.
  - intros w' o'. rewrite take_slot_objects. case_decide as Hd; [subst w'|by apply (iv_costs _ Hi)].
    rewrite Ho. intros [= <-]. by apply (iv_costs _ Hi) in Ho.
  - exact (iv_nodup _ Hi).
  - intros id' Hid'. cbn. by apply lookup_alter_is_Some, (iv_open _ Hi).
  - intros user. etransitivity; [|apply (iv_cap _ Hi user)]. apply inj_le. apply length_filter_sublist; [done|].
    intros id' _ Hc. by apply (counted_le user _ _ (Hle id')).
  - intros id'. apply (ml_wf _ _ (sl_mail _ _ (Hle id'))), (iv_mail _ Hi).
Qed.

(** A worker that is picked has room. *)
Lemma best_ranked_in best l : best_ranked best l = best.2 \/ best_ranked best l ∈ l.*2.
Proof.
  revert best. induction l as [|x l IH]; intros best; cbn; [by left|]. destruct (IH (if best.1 <? x.1 then x else best)) as [->|H].
  - case_match; [right; left|by left].
  - right. by right.
Qed.
Lemma best_ranked_greatest best l x : x ∈ best :: l -> exists r, (r, best_ranked best l) ∈ best :: l /\ x.1 <= r.
Proof.
  revert best x. induction l as [|y l IH]; intros best x Hx; cbn.
  - apply list_elem_of_singleton in Hx as ->. exists best.1. split; [rewrite <- surjective_pairing; left|done].
  - set (b := if best.1 <? y.1 then y else best). assert (Hb : best.1 <= b.1 /\ y.1 <= b.1).
    { unfold b. destruct (best.1 <? y.1) eqn:E; [apply Z.ltb_lt in E|apply Z.ltb_ge in E]; lia. }
    assert (Hin : forall r w, (r, w) ∈ b :: l -> (r, w) ∈ best :: y :: l).
    { intros r w [Hrw|Hrw]%elem_of_cons; [|by right; right]. unfold b in Hrw. case_match; rewrite Hrw; [right; left|left]. }
    apply elem_of_cons in Hx as [->|Hx]; [|apply elem_of_cons in Hx as [->|Hx]].
    + destruct (IH b b ltac:(left)) as (r & Hr & ?). exists r. split; [by apply Hin|lia].
    + destruct (IH b b ltac:(left)) as (r & Hr & ?). exists r. split; [by apply Hin|lia].
    + destruct (IH b x ltac:(by right)) as (r & Hr & ?). exists r. split; [by apply Hin|lia].
Qed.
Definition ranked (t : Z) (model : string) (excluded : list string) (p : relay) : list (Z * nat) :=
  omap (fun ih : string * nat =>
          if bool_decide (w_id (rw_base (worker_at ih.2 p)) ∈ excluded) then None
          else (fun room => (room, ih.2)) <$> leftover t model ih.2 p) (r_workers p).
Lemma elem_ranked t model excluded p room w :
  (room, w) ∈ ranked t model excluded p
  <-> w ∈ (r_workers p).*2 /\ (w_id (rw_base (worker_at w p)) ∉ excluded) /\ leftover t model w p = Some room.
Proof.
  unfold ranked. rewrite list_elem_of_omap. split.
  - intros ([i h] & Hin & Hx). cbn in Hx. case_bool_decide; [done|]. apply fmap_Some in Hx as (r & Hr & [= -> ->]).
    split; [|done]. apply list_elem_of_fmap. by exists (i, h).
  - intros (Hin & Hex & Hl). apply list_elem_of_fmap in Hin as ([i h] & -> & Hin). exists (i, h). split; [done|]. cbn in *.
    rewrite bool_decide_eq_false_2 by done. by rewrite Hl.
Qed.
Lemma pick_worker_spec t model excluded p :
  match pick_worker t model excluded p with
  | Some w => exists room, (room, w) ∈ ranked t model excluded p /\ forall x, x ∈ ranked t model excluded p -> x.1 <= room
  | None => ranked t model excluded p = []
  end.
Proof.
  unfold pick_worker. fold (ranked t model excluded p). destruct (ranked t model excluded p) as [|x l]; [done|].
  assert (Hgen : forall best, exists room, (room, best_ranked best l) ∈ best :: l /\ forall y, y ∈ best :: l -> y.1 <= room); [|apply Hgen].
  induction l as [|z l IH]; intros best; cbn.
  - exists best.1. split; [rewrite <- surjective_pairing; left|]. by intros y ->%list_elem_of_singleton.
  - set (b := if best.1 <? z.1 then z else best). destruct (IH b) as (room & Hin & Hmax).
    pose proof (Hmax b ltac:(left)) as Hb. exists room. split.
    + apply elem_of_cons in Hin as [Hrw|Hrw]; [|by right; right]. unfold b in Hrw at 2. rewrite Hrw. case_match; [right; left|left].
    + assert (best.1 <= b.1 /\ z.1 <= b.1).
      { unfold b. destruct (best.1 <? z.1) eqn:E; [apply Z.ltb_lt in E|apply Z.ltb_ge in E]; lia. }
      intros y [->|[->|Hy]%elem_of_cons]%elem_of_cons; [lia|lia|]. apply Hmax. by right.
Qed.
Lemma leftover_room t model w p room : leftover t model w p = Some room -> has_room w model p.
Proof.
  unfold leftover, has_room. intros H. destruct (takes_sessions t (worker_at w p) && _ && _) eqn:E; [|done].
  apply andb_true_iff in E as [[_ Hsv]%andb_true_iff _]. split.
  - unfold worker_at in Hsv. by destruct (r_objects p !! w).
  - destruct (rw_p95 (worker_at w p)) as [p95|].
    + destruct (p95 !! model); [|done]. case_match eqn:El; [|done]. apply Z.leb_le in El. lia.
    + case_match eqn:El; [|done]. by apply Z.ltb_lt in El.
Qed.
Lemma pick_worker_room t model excluded p w : pick_worker t model excluded p = Some w -> has_room w model p.
Proof.
  intros Hp. pose proof (pick_worker_spec t model excluded p) as H. rewrite Hp in H.
  destruct H as (room & (_ & _ & Hl)%elem_ranked & _). by eapply leftover_room.
Qed.

Lemma live_cost_bare p w l : r_objects p !! w = None -> live_admission_cost w None l p = 0.
Proof. intros Hn. unfold live_admission_cost, worker_at. by rewrite Hn. Qed.

(** A new session. *)
Lemma ok_open_session model user auth header params tk p :
  fresh_tick tk p -> ok p (open_session model user auth header params tk p).2.
Proof.
  intros Hfresh Hi. unfold open_session. case_match eqn:Ec; [by split|]. apply Z.leb_gt in Ec. cbn.
  set (s := new_session _ _ _ _ _ _). set (p' := on_open _ _).
  assert (Hno : tk_id tk ∉ r_open p).
  { intros Hin. apply (iv_open _ Hi) in Hin as [? Hin]. unfold fresh_tick in Hfresh. congruence. }
  assert (Hs : forall id, session_of id p' = if decide (id = tk_id tk) then s else session_of id p).
  { intros id. unfold session_of. cbn. case_decide as Hd; [subst id; by rewrite lookup_insert_eq|by rewrite lookup_insert_ne]. }
  assert (Hsame : forall id, id ∈ r_open p -> session_of id p' = session_of id p).
  { intros id Hid. rewrite Hs. rewrite decide_False; [done|]. by intros ->. }
  assert (Hp : pl_worker (se_place (session_of (tk_id tk) p)) = None).
  { unfold session_of. unfold fresh_tick in Hfresh. by rewrite Hfresh. }
  assert (Hon : forall w, on_worker w p' = on_worker w p).
  { intros w. apply set_eq. intros id. rewrite !elem_on_worker, Hs. destruct (decide (id = tk_id tk)) as [->|]; [|done].
    rewrite Hp. done. }
  split; [|split].
  2: { intros id s' Hs'; exists s'; split; [|done]; cbn; rewrite lookup_insert_ne; [done|]; intros <-; unfold fresh_tick in Hfresh; congruence. }
  2: { intros w o Ho. exists o. split; [done|]. split; [done|]. intros _. split; [|right; by rewrite Hon]. intros Hf.
    eapply (fits_less w p p' None); [by eapply worker_costs|done|exact Hf|done|].
    intros m. rewrite app_nil_r. unfold models_on. cbn. rewrite filter_app, fmap_app, occ_app.
    rewrite filter_cons_False, filter_nil, Z.add_0_r; [|rewrite Hs, decide_True by done; intros [Hh%held_by_spec _]; done].
    apply Z.eq_le_incl. clear -Hsame. induction (r_open p) as [|id l IH]; [done|].
    specialize (IH (fun i Hin => Hsame i ltac:(by right))). pose proof (Hsame id ltac:(left)) as Hid.
    rewrite !filter_cons, Hid. case_decide; [|done]. by rewrite !fmap_cons, !occ_cons, IH, Hid. }
  split.
  - intros w o Ho. unfold held. rewrite Hon. by apply (iv_slots _ Hi).
  - intros id w. rewrite Hs. case_decide; [done|]. apply (iv_known _ Hi).
  - exact (iv_room _ Hi).
  - exact (iv_costs _ Hi).
  - cbn. apply NoDup_app. split; [exact (iv_nodup _ Hi)|]. split; [|apply NoDup_singleton]. by intros id Hin ->%list_elem_of_singleton.
  - intros id Hid. cbn. rewrite lookup_insert_is_Some. destruct (decide (tk_id tk = id)); [by left|right]. split; [done|].
    cbn in Hid. apply elem_of_app in Hid as [?|?%list_elem_of_singleton]; [by apply (iv_open _ Hi)|by subst].
  - intros user'. unfold sessions_of in *. cbn in *. rewrite filter_app, length_app.
    assert (Hle : (length (filter (counted user' ∘ (fun id => session_of id p')) (r_open p))
                   <= length (filter (counted user' ∘ (fun id => session_of id p)) (r_open p)))%nat).
    { apply length_filter_sublist; [done|]. intros id Hid. cbn. by rewrite Hsame. }
    change (filter (fun id => se_user (session_of id p') = user' /\ _) (r_open p)) with (filter (counted user' ∘ (fun id => session_of id p')) (r_open p)).
    pose proof (iv_cap _ Hi user') as Hcap. unfold sessions_of in Hcap.
    change (filter _ (r_open p)) with (filter (counted user' ∘ (fun id => session_of id p)) (r_open p)) in Hcap.
    destruct (decide (user = user')) as [<-|Hne].
    + change (filter _ (r_open p)) with (filter (counted user ∘ (fun id => session_of id p)) (r_open p)) in Ec.
      cbn. destruct (decide _); cbn [length]; unfold MAX_REALTIME_SESSIONS_PER_USER in *; lia.
    + rewrite filter_cons_False; [cbn; lia|]. rewrite Hs, decide_True by done. by intros [Hu _].
  - intros id. rewrite Hs. case_decide; [|apply (iv_mail _ Hi)]. by intros [? ?].
Qed.

(** A worker that joins, and one whose costs are raised. *)
Lemma fresh_object p : r_objects p !! fresh (dom (r_objects p)) = None.
Proof. apply not_elem_of_dom, is_fresh. Qed.
(** One object is replaced. *)
Lemma inv_object p w o : inv p ->
  held w p <= rw_in_use o -> (rw_p95 o = None -> rw_in_use o <= Z.max 0 (rw_slots o)) -> costs_wf o ->
  inv (on_objects <[w := o]> p).
Proof.
  intros Hi Hheld Hroom Hwf. split.
  - intros w' o'. cbn. destruct (decide (w' = w)) as [->|Hne].
    + rewrite lookup_insert_eq. by intros [= <-].
    + rewrite lookup_insert_ne by done. apply (iv_slots _ Hi).
  - intros id w' Hw. cbn. rewrite lookup_insert_is_Some. destruct (decide (w = w')); [by left|right].
    split; [done|]. by apply (iv_known _ Hi id).
  - intros w' o'. cbn. destruct (decide (w' = w)) as [->|Hne].
    + rewrite lookup_insert_eq. by intros [= <-].
    + rewrite lookup_insert_ne by done. apply (iv_room _ Hi).
  - intros w' o'. cbn. destruct (decide (w' = w)) as [->|Hne].
    + rewrite lookup_insert_eq. by intros [= <-].
    + rewrite lookup_insert_ne by done. apply (iv_costs _ Hi).
  - exact (iv_nodup _ Hi).
  - exact (iv_open _ Hi).
  - exact (iv_cap _ Hi).
  - exact (iv_mail _ Hi).
Qed.
(** The other workers cost what they did. *)
Lemma fits_elsewhere w o p w' : w' ≠ w -> fits w' p -> fits w' (on_objects <[w := o]> p).
Proof. intros Hne. unfold fits, live_admission_cost, worker_at. cbn. by rewrite lookup_insert_ne. Qed.
Lemma ok_register o p : new_worker o -> ok p (register_worker o p).
Proof.
  intros [Hu Hwf] Hi. unfold register_worker. set (w := fresh (dom (r_objects p))).
  assert (Hno : on_worker w p = ∅).
  { apply set_eq. intros id. rewrite elem_on_worker. split; [|set_solver]. intros Hw%(iv_known _ Hi).
    unfold w in Hw. rewrite fresh_object in Hw. by destruct Hw. }
  split; [|split].
  - apply (inv_shrinks (on_objects <[w := o]> p)); [|apply shrinks_workers].
    apply inv_object; [done| | |done].
    + unfold held. rewrite Hno, size_empty. cbn. lia.
    + rewrite Hu. lia.
  - by intros id s Hs; exists s.
  - intros w' o' Ho'. exists o'. assert (Hne : w' ≠ w) by (intros ->; unfold w in Ho'; by rewrite fresh_object in Ho').
    split; [cbn; by rewrite lookup_insert_ne|]. split; [done|]. intros _. split; [by apply fits_elsewhere|by right].
Qed.

Lemma ok_outside p p' : outside p p' -> ok p p'.
Proof.
  intros (Hs & Ho & Hw & _). apply ok_shrinks. assert (Hat : forall id, session_of id p' = session_of id p).
  { intros id. unfold session_of. by rewrite Hs. }
  assert (Hh : forall w, held w p' = held w p) by (intros w; unfold held, on_worker; by rewrite Hs).
  split; [by rewrite Hs|intros id; by rewrite Hat|by rewrite Ho|intros id w; by rewrite Hat|].
  intros w. specialize (Hw w). destruct (r_objects p !! w), (r_objects p' !! w); cbn in *; try done.
  destruct Hw as (Hu & Hsl & Hp & Hb & _). split; [done|]. split; [done|]. rewrite Hh. lia.
Qed.

(** The costs a worker reports are raised and stay usable. *)
Definition recosted (o o' : relay_worker) : Prop :=
  rw_in_use o' = rw_in_use o /\ rw_slots o' = rw_slots o /\ costs_le o o' /\ (costs_wf o -> costs_wf o').
#[export] Instance recosted_po : PreOrder recosted.
Proof.
  split; [by intros o|]. intros o1 o2 o3 (? & ? & ? & ?) (? & ? & ? & ?).
  split; [congruence|]. split; [congruence|]. split; [by etransitivity|auto].
Qed.
Lemma recosted_saw t o : recosted o (saw t o).
Proof. split; [done|]. split; [done|]. split; [by apply same_costs_le|done]. Qed.
Lemma recosted_raise p95 m h v o : rw_p95 o = Some p95 -> p95 !! m = Some h -> h < v ->
  recosted o {| rw_base := rw_base o; rw_slots := rw_slots o; rw_p95 := <[m := v]> <$> rw_p95 o;
                rw_batch := delete m <$> rw_batch o; rw_seen := rw_seen o |}.
Proof.
  intros Ep Eh Hv. split; [done|]. split; [done|]. split.
  { split; cbn; rewrite Ep.
    - intros m'. destruct (decide (m' = m)) as [->|Hne]; [rewrite Eh, lookup_insert_eq; cbn; lia|].
      rewrite lookup_insert_ne by done. destruct (p95 !! m'); cbn; [lia|done].
    - intros [= E]. assert (Hm : <[m := v]> p95 !! m = p95 !! m) by by rewrite E.
      rewrite lookup_insert_eq, Eh in Hm. injection Hm as ->. lia. }
  intros [Hp Hb]. cbn. rewrite Ep.
  pose proof (Hp p95 m h Ep Eh) as Hh. split; cbn.
  - intros ? m' v' [= <-]. destruct (decide (m' = m)) as [->|Hne].
    + rewrite lookup_insert_eq. intros [= <-]. lia.
    + rewrite lookup_insert_ne by done. by apply Hp.
  - intros ? m' c Hx. apply fmap_Some in Hx as (curves & Hcurves & ->). intros [_ Hc]%lookup_delete_Some. by apply (Hb curves m').
Qed.
Lemma recosted_raise_cost measured o : recosted o (raise_cost measured o).2.
Proof.
  unfold raise_cost. destruct (rw_p95 o) as [p95|] eqn:E0; [|done]. clear p95 E0.
  set (f := fun '(raised, o) mv => _).
  assert (Hf : forall acc, recosted acc.2 (foldl f acc measured).2); [|by apply (Hf (false, o))].
  induction measured as [|[m v] l IH]; intros [raised x]; cbn [foldl]; [done|]. etransitivity; [|apply IH].
  unfold f at 1. cbn -[recosted]. destruct (default ∅ (rw_p95 x) !! m) as [h|] eqn:Eh; [|done].
  case_match eqn:Ec; [|done]. apply andb_true_iff in Ec as [_ Ec%Z.ltb_lt].
  apply default_lookup in Eh as (p95 & Ep & Eh). by eapply recosted_raise.
Qed.
