(* ===== verification/RelaySegments.v ===== *)
(** * The segments of the relay

    What runs between two awaits only lets sessions move on ([shrinks]), or
    keeps the invariant where it takes a slot, opens a session, adds a worker
    or raises costs ([ok]). *)

From S2P Require Import Prelude PyFloat Hashes Json Protocol6 Uuid PyInt ODict Tasks JobTables Jobs Relay RelaySystem RelayFacts.
Open Scope Z_scope.

Lemma then_update id f p q : tame f -> shrinks p q -> shrinks p (update id f q).
Proof. intros Hf Hs. etransitivity; [exact Hs|by apply shrinks_update]. Qed.
Lemma then_closing f p q : shrinks p q -> shrinks p (on_closing f q).
Proof. intros Hs. etransitivity; [exact Hs|apply shrinks_closing]. Qed.
Lemma then_workers f p q : shrinks p q -> shrinks p (on_workers f q).
Proof. intros Hs. etransitivity; [exact Hs|apply shrinks_workers]. Qed.
Lemma then_transition id expected new p q :
  (SEnding ∈ expected -> new = SEnding \/ new = SEnded) -> shrinks p q -> shrinks p (transition id expected new q).2.
Proof. intros He Hs. etransitivity; [exact Hs|by apply shrinks_transition]. Qed.
Lemma shrinks_refl p : shrinks p p.
Proof. done. Qed.
#[export] Hint Resolve then_update then_closing then_workers shrinks_refl : relay.

(** Through a [let] on a pair. *)
Lemma pair_snd {A B : Type} (x : A * B) : x = (x.1, x.2).
Proof. by destruct x. Qed.
Lemma foldl_shrinks {A} (f : relay -> A -> relay) l p : (forall q x, shrinks q (f q x)) -> shrinks p (foldl f p l).
Proof. intros Hf. revert p. induction l as [|x l IH]; intros p; cbn; [done|]. etransitivity; [apply Hf|apply IH]. Qed.
Lemma foldl_shrinks_snd {A B} (f : B * relay -> A -> B * relay) l x : (forall q a, shrinks q.2 (f q a).2) -> shrinks x.2 (foldl f x l).2.
Proof. intros Hf. revert x. induction l as [|a l IH]; intros x; cbn; [done|]. etransitivity; [apply Hf|apply IH]. Qed.

Lemma shrinks_post_positions force p : shrinks p (post_positions force p).
Proof. apply foldl_shrinks. intros q [n id]. auto with relay tame. Qed.
Lemma shrinks_post_keepalives p : shrinks p (post_keepalives p).
Proof. apply foldl_shrinks. intros q id. apply shrinks_update. intros s. case_match; [apply tame_post|apply tame_id]. Qed.
Lemma shrinks_requeue t id p : shrinks p (requeue t id p).2.
Proof.
  unfold requeue. destruct (transition id [SAssigning] SQueued p) as [moved q] eqn:E.
  assert (Hq : shrinks p q). { change q with (moved, q).2. rewrite <- E. apply shrinks_transition. set_solver. }
  destruct moved; [|done]. cbn. etransitivity; [|apply shrinks_post_positions]. auto with relay tame.
Qed.
Lemma shrinks_admit_queued t p : shrinks p (admit_queued t p).2.
Proof.
  unfold admit_queued. set (x := foldl _ _ _). assert (Hx : shrinks p x.2).
  { apply (foldl_shrinks_snd (B := list string) _ _ ([], p)). intros [admitted q] id. cbn. case_match; [|done].
    destruct (transition id [SQueued] SAssigning q) as [moved r] eqn:E. cbn. change r with (moved, r).2. rewrite <- E.
    apply shrinks_transition. set_solver. }
  destruct x as [admitted q]. cbn in *. etransitivity; [done|apply shrinks_post_positions].
Qed.
Lemma shrinks_arm_settlement id w generation p : shrinks p (arm_settlement id w generation p).
Proof. unfold arm_settlement. repeat case_match; auto with relay. Qed.
Lemma shrinks_schedule id p : shrinks p (schedule_reassign id p).2.
Proof. apply shrinks_transition. set_solver. Qed.
Lemma shrinks_end_session id p : shrinks p (end_session id p).
Proof.
  unfold end_session. etransitivity; [|apply then_transition; [auto|]; apply then_transition; [auto|done]].
  apply shrinks_open, sublist_filter.
Qed.
Lemma shrinks_release_begin closing id t p : shrinks p (release_begin closing id t p).2.
Proof.
  assert (Hadmit : forall q, shrinks p q -> shrinks p (let '(admitted, q) := admit_queued t q in (RAdmit admitted, q)).2).
  { intros q Hq. etransitivity; [exact Hq|]. rewrite (surjective_pairing (admit_queued t q)). apply shrinks_admit_queued. }
  unfold release_begin. destruct (pl_worker (se_place (session_of id p))) as [w|] eqn:Ew; [|by apply Hadmit].
  pose proof (shrinks_give_back id w p Ew) as Hg. case_match; [|by apply Hadmit].
  pose proof (shrinks_arm_settlement id w (pl_generation (se_place (session_of id p))) (give_back id w p)) as Ha.
  case_match; [case_decide|]; cbn; by etransitivity.
Qed.
#[export] Hint Resolve shrinks_post_positions shrinks_post_keepalives shrinks_requeue shrinks_admit_queued shrinks_arm_settlement
  shrinks_schedule shrinks_end_session shrinks_release_begin : relay.

(** ** Placing *)

Lemma take_slot_update id w f p : id ∈ r_open p -> tame f -> 
  has_room w (se_model (session_of id p)) p -> ok p (update id f (take_slot id w p)).
Proof. intros Hid Hf Hroom. etransitivity; [by apply ok_take_slot|]. auto with relay. Qed.
Lemma ok_assign_begin id w tk p : id ∈ r_open p -> has_room w (se_model (session_of id p)) p ->
  ok p (assign_begin id w tk p).2.
Proof.
  intros Hid Hroom. unfold assign_begin. cbn. case_match; [|by apply ok_take_slot].
  apply take_slot_update; auto with tame.
Qed.

Section Placing.
Context {X : Type} (after : bool -> tick -> relay -> X * relay) .
Context (Hafter : forall ok_ tk p, ok p (after ok_ tk p).2).

Lemma ok_after ok_ tk p q : ok p q -> ok p (let '(x, p) := after ok_ tk q in (Placed (X := X) x, p)).2.
Proof using Hafter. intros Hq. rewrite (surjective_pairing (after ok_ tk q)). etransitivity; [exact Hq|apply Hafter]. Qed.
Lemma ok_try_next id skipped tk p : ok p (try_next after id skipped tk p).2.
Proof using Hafter.
  unfold try_next. case_match eqn:El; [|by apply ok_after]. apply andb_true_iff in El as [Hl _].
  apply bool_decide_eq_true in Hl. destruct (pick_worker _ _ _ p) as [w|] eqn:Ep; [|by apply ok_after].
  rewrite (surjective_pairing (assign_begin id w tk p)). apply ok_assign_begin; [done|]. by eapply pick_worker_room.
Qed.
Lemma ok_place_next id skipped w started b tk p : ok p (place_next after id skipped w started b tk p).2.
Proof using Hafter.
  unfold place_next. case_match; [by apply ok_after|]. case_match; [by apply ok_after|].
  case_match; [|apply ok_try_next]. etransitivity; [|apply ok_try_next]. auto with relay tame.
Qed.
Lemma held_by_eq id w p : held_by w (session_of id p) = true -> pl_worker (se_place (session_of id p)) = Some w.
Proof. apply held_by_spec. Qed.
Lemma shrinks_held id w p : held_by w (session_of id p) = true -> shrinks p (give_back id w p).
Proof. intros Hh. apply shrinks_give_back. by apply held_by_eq. Qed.
Lemma ok_give_up id skipped w started tk p : ok p (compensate after id skipped w started tk p).2.
Proof using Hafter.
  unfold compensate. case_match eqn:Eh; [|apply ok_place_next]. apply shrinks_held in Eh.
  case_match; [by apply ok_shrinks|]. etransitivity; [by apply ok_shrinks|apply ok_place_next].
Qed.
Lemma ok_answered id skipped w started tk p : ok p (answered after id skipped w started tk p).2.
Proof using Hafter.
  unfold answered. case_match; [apply ok_place_next|]. case_match; [|apply ok_give_up].
  etransitivity; [|apply ok_place_next]. destruct (decide (_ = SAssigning)); [|reflexivity]. apply ok_shrinks, then_update; [auto with tame|].
  apply shrinks_transition. set_solver.
Qed.
End Placing.

Lemma shrinks_to_worker id w frame p : shrinks p (update id (fun _ => (to_worker_frame w frame (session_of id p)).2) p).
Proof. apply shrinks_set. apply tame_to_worker_frame. Qed.
Lemma shrinks_forward_pending id p : shrinks p (forward_pending id p).2.
Proof.
  assert (H0 : shrinks p (update id (on_drawing (set_pending None)) p)) by auto with relay tame.
  unfold forward_pending. cbn. case_match; [|done]. case_match; [|done]. cbn.
  etransitivity; [exact H0|]. apply (shrinks_to_worker id (worker_at n (update id (on_drawing (set_pending None)) p))).
Qed.
Lemma shrinks_announce id was_live p : shrinks p (announce_admission id was_live p).
Proof. unfold announce_admission. case_decide; auto with relay tame. Qed.
#[export] Hint Resolve shrinks_forward_pending shrinks_announce : relay.
Lemma shrinks_released closing id t p : shrinks p (let '(r, p) := release_begin closing id t p in (PRelease r, p)).2.
Proof. rewrite (surjective_pairing (release_begin closing id t p)). apply shrinks_release_begin. Qed.
#[export] Hint Resolve shrinks_released : relay.
Lemma ok_admit_after id was_live b tk p : ok p (admit_after id was_live b tk p).2.
Proof.
  apply ok_shrinks. unfold admit_after. destruct b; [|apply shrinks_requeue]. destruct (is_live id p); [|apply shrinks_released].
  rewrite (surjective_pairing (forward_pending _ _)).
  assert (Hf : shrinks p (forward_pending id (update id (on_place (set_queue None None)) p)).2).
  { etransitivity; [|auto with relay]. auto with relay tame. }
  cbn. case_match; [|done..]. etransitivity; [exact Hf|auto with relay].
Qed.
Lemma ok_reassign_after id b tk p : ok p (reassign_after id b tk p).2.
Proof.
  apply ok_shrinks. unfold reassign_after. destruct b.
  - case_match; cbn; auto with relay tame.
  - rewrite (surjective_pairing (requeue _ _ _)). pose proof (shrinks_requeue (tk_now tk) id p). case_match; [|done].
    rewrite (surjective_pairing (admit_queued _ _)). cbn. etransitivity; [done|auto with relay].
Qed.
Lemma ok_resume_after id b tk p : ok p (resume_after id b tk p).2.
Proof. apply ok_shrinks. unfold resume_after. destruct b; [case_match|]; [apply shrinks_forward_pending|apply shrinks_released|apply shrinks_requeue]. Qed.
Lemma ok_open_after id b tk p : ok p (open_after id b tk p).2.
Proof. apply ok_shrinks. unfold open_after. cbn. destruct b; auto with relay tame. Qed.
Lemma shrinks_reassign_begin id p : shrinks p (reassign_begin id p).2.
Proof.
  unfold reassign_begin. set (x := match state_of (session_of id p) with SLive => _ | _ => _ end).
  assert (Hx : shrinks p x.2 /\ pl_worker (se_place (session_of id x.2)) = pl_worker (se_place (session_of id p))).
  { unfold x. assert (Ht : forall id', pl_worker (se_place (session_of id' (transition id [SLive] SAssigning p).2)) = pl_worker (se_place (session_of id' p))).
    { intros id'. unfold transition. repeat case_decide; cbn; [done| |done].
      destruct (r_sessions p !! id) as [s|] eqn:Es; [|by rewrite session_of_update_none].
      destruct (decide (id' = id)) as [->|]; [by rewrite session_of_update|by rewrite session_of_update_ne]. }
    destruct (state_of (session_of id p)); cbn; try done. split; [|done]. apply shrinks_transition. set_solver. }
  destruct x as [going q]. destruct Hx as [Hq Hw]. cbn in *. case_match; [done|]. case_match eqn:Ew; [|done]. cbn.
  etransitivity; [exact Hq|]. etransitivity; [|auto with relay]. apply shrinks_give_back. congruence.
Qed.
Lemma shrinks_take_committed id stamp c p : shrinks p (take_committed id stamp c p).
Proof. unfold take_committed. repeat case_match; auto with relay tame. Qed.
#[export] Hint Resolve shrinks_reassign_begin shrinks_take_committed : relay.

(** ** The browser's side *)

Lemma shrinks_as_mirrored id generation a stamp params revision p : shrinks p (as_mirrored id generation a stamp params revision p).
Proof. unfold as_mirrored. case_match; auto with relay tame. Qed.
Lemma shrinks_step_writer id woken p : shrinks p (step_writer id woken p).2.
Proof.
  assert (Ht : tame (fun s => (next_out (if woken then clear_wake s else s)).2)).
  { destruct woken; [apply (tame_comp clear_wake (fun s => (next_out s).2))|]; auto with tame. }
  unfold step_writer. rewrite (surjective_pairing (next_out _)). apply shrinks_set, Ht.
Qed.
Lemma shrinks_keep_frame id f p : shrinks p (keep_frame id f p).
Proof. apply shrinks_update. auto with tame. Qed.
#[export] Hint Resolve shrinks_as_mirrored shrinks_step_writer shrinks_keep_frame : relay.
Lemma shrinks_accept_frame id t revision frame p : dr_revision (se_drawing (session_of id p)) <= revision ->
  shrinks p (accept_frame id t revision frame p).2.
Proof.
  intros Hr. unfold accept_frame. cbn. set (q := update id (on_drawing (accept_input t revision)) p).
  assert (Hq : shrinks p q).
  { apply shrinks_update_at. intros _. split; [|done]. split; cbn; auto; reflexivity. }
  assert (Hforward : forall w, shrinks p (update id (fun _ => (to_worker_frame (worker_at w (keep_frame id None q)) frame
                                  (session_of id (keep_frame id None q))).2) (keep_frame id None q))).
  { intros w. etransitivity; [exact Hq|]. etransitivity; [apply (shrinks_keep_frame id None)|apply shrinks_to_worker]. }
  assert (Hkeep : shrinks p (keep_frame id (Some frame) q)) by (etransitivity; [exact Hq|apply shrinks_keep_frame]).
  destruct (state_of (session_of id q)); try (destruct (pl_worker _) as [w|]; [apply (Hforward w)|exact Hq]); try exact Hkeep.
  rewrite (surjective_pairing (schedule_resume_idle _ _)). cbn. etransitivity; [exact Hkeep|].
  apply shrinks_transition. set_solver.
Qed.
Lemma shrinks_canvas_frame id data t p : shrinks p (canvas_frame id data t p).2.
Proof.
  unfold canvas_frame. case_match; [|done]. case_match; [done|]. case_match; [done|]. case_match; [cbn; auto with relay tame|].
  case_match.
  - case_match eqn:E; [done|]. apply Z.leb_gt in E. apply shrinks_accept_frame. lia.
  - case_match; [|apply shrinks_accept_frame; lia]. apply shrinks_update_at. intros _. split; [|done].
    split; cbn; auto; try reflexivity. lia.
Qed.
Lemma shrinks_update_params invalid_params id control t p : shrinks p (update_params invalid_params id control t p).2.
Proof.
  set (s := session_of id p).
  assert (Ht : shrinks p (update id (on_drawing (accept_input t (dr_revision (se_drawing s)))) p)).
  { apply shrinks_update_at. intros _. split; [|done]. split; cbn; auto; reflexivity. }
  assert (Hhold : forall f e, tame (fun s => post e (on_params f s))).
  { intros f e. apply (tame_comp (on_params f) (post e)); auto with tame. }
  unfold update_params. repeat case_match; cbn; auto with relay tame.
Qed.
#[export] Hint Resolve shrinks_canvas_frame shrinks_update_params : relay.

(** ** The worker's side *)

Lemma shrinks_mark_ready w id control known durable t p : shrinks p (mark_ready w id control known durable t p).
Proof.
  unfold mark_ready. case_match; [|done]. assert (Ht : shrinks p (transition id [SAssigning] SLive p).2).
  { apply shrinks_transition. set_solver. }
  rewrite (surjective_pairing (transition _ _ _ _)). case_match; auto with relay tame.
Qed.
Lemma shrinks_mark_refused w id control p : shrinks p (mark_refused w id control p).2.
Proof. unfold mark_refused. repeat case_match; cbn; auto with relay tame. Qed.
Lemma shrinks_settle_closed w id control p : shrinks p (settle_closed w id control p).2.
Proof. unfold settle_closed. repeat case_match; cbn; auto with relay. Qed.
Lemma shrinks_publish_update w id user generation a params revision p :
  shrinks p (publish_update w id user generation a params revision p).
Proof.
  unfold publish_update. case_match; [|done]. apply shrinks_update. apply (tame_comp (on_params _) (post _)); auto with tame.
Qed.
Lemma shrinks_relay_frame w data p p' : relay_frame w data p = Ok p' -> shrinks p p'.
Proof.
  unfold relay_frame. destruct (frame_session_id data) as [id|]; [|done]. cbn.
  repeat case_match; intros [= <-]; auto with relay tame.
Qed.
Lemma shrinks_drop_worker w p : shrinks p (drop_worker w p).
Proof. unfold drop_worker. case_match; auto with relay. Qed.
Lemma shrinks_won (f : string -> relay -> bool * relay) l x : (forall id q, shrinks q (f id q).2) ->
  shrinks x.2 (foldl (fun '(won, p) id => let '(moved, p) := f id p in (if moved then won ++ [id] else won, p)) x l).2.
Proof.
  intros Hf. apply (foldl_shrinks_snd (B := list string)). intros [won q] id. cbn. specialize (Hf id q). by destruct (f id q) as [[] ?].
Qed.
Lemma shrinks_lose_sessions w p : shrinks p (lose_sessions w p).2.
Proof.
  unfold lose_sessions. apply (foldl_shrinks_snd (B := list string) _ _ ([], p)). intros [won q] id. cbn.
  case_match; cbn; auto with relay tame. rewrite (surjective_pairing (schedule_reassign id q)). apply shrinks_schedule.
Qed.
#[export] Hint Resolve shrinks_mark_ready shrinks_mark_refused shrinks_settle_closed shrinks_publish_update shrinks_relay_frame
  shrinks_drop_worker shrinks_lose_sessions : relay.

Lemma on_objects_insert w o p : is_Some (r_objects p !! w) -> on_objects (alter (fun _ => o) w) p = on_objects <[w := o]> p.
Proof.
  intros Hs. unfold on_objects. f_equal. apply map_eq. intros w'. destruct (decide (w' = w)) as [->|].
  - rewrite lookup_alter_eq, lookup_insert_eq. by destruct Hs as [? ->].
  - by rewrite lookup_alter_ne, lookup_insert_ne.
Qed.
Lemma on_objects_none f w p : r_objects p !! w = None -> on_objects (alter f w) p = p.
Proof. intros Hn. unfold on_objects. rewrite alter_id' by done. by destruct p. Qed.
Lemma ok_recosted w o p : recosted (worker_at w p) o -> ok p (on_objects (alter (fun _ => o) w) p).
Proof.
  intros (Hu & Hsl & Hle & Hc) Hi. destruct (r_objects p !! w) as [o0|] eqn:Eo; [|by rewrite on_objects_none].
  rewrite on_objects_insert by done. rewrite (worker_at_some w o0 p Eo) in *. split; [|split].
  - apply inv_object; [done| | |].
    + rewrite Hu. by apply (iv_slots _ Hi).
    + intros Hn. rewrite Hu, Hsl. apply (iv_room _ Hi w); [done|]. pose proof (cl_p95 _ _ Hle) as Hp.
      rewrite Hn in Hp. by destruct (rw_p95 o0).
    + by apply Hc, (iv_costs _ Hi w).
  - by intros id s Hs; exists s.
  - intros w' o' Ho'. destruct (decide (w' = w)) as [->|Hne].
    + assert (o' = o0) as -> by congruence. exists o. split; [apply lookup_insert_eq|]. split; [done|]. intros Hsame. split; [|by right]. intros Hf.
      eapply (fits_less w p _ None); [by eapply worker_costs| |exact Hf|done|].
      * rewrite (worker_at_some w o0 p Eo). unfold worker_at. cbn. rewrite lookup_insert_eq. exact Hsame.
      * intros m. by rewrite app_nil_r.
    + exists o'. split; [cbn; by rewrite lookup_insert_ne|]. split; [done|]. intros _. split; [by apply fits_elsewhere|by right].
Qed.
Lemma alter_worker f w p : on_objects (alter f w) p = on_objects (alter (fun _ => f (worker_at w p)) w) p.
Proof.
  unfold on_objects. f_equal. apply map_eq. intros w'. destruct (decide (w' = w)) as [->|].
  - rewrite !lookup_alter_eq. unfold worker_at. by destruct (r_objects p !! w).
  - by rewrite !lookup_alter_ne.
Qed.
Lemma ok_heartbeat w control t p : ok p (heartbeat w control t p).2.
Proof.
  unfold heartbeat. assert (Hsaw : ok p (on_objects (alter (saw t) w) p)).
  { rewrite alter_worker. apply ok_recosted, recosted_saw. }
  destruct (parse_frame_p95 _) as [measured|] eqn:Em; [|exact Hsaw].
  set (q := on_objects (alter (saw t) w) p) in *. rewrite (surjective_pairing (raise_cost measured (worker_at w q))).
  assert (Hq : ok p (on_objects (alter (fun _ => (raise_cost measured (worker_at w q)).2) w) q)).
  { etransitivity; [exact Hsaw|]. apply ok_recosted, recosted_raise_cost. }
  case_match; [|exact Hq]. etransitivity; [exact Hq|]. apply ok_shrinks.
  apply (shrinks_won schedule_reassign _ ([], _)). apply shrinks_schedule.
Qed.
