(* ===== verification/RelayHandlers.v ===== *)
(** * Every task of the relay keeps the invariant

    A walk over each task: what it awaits leaves the process alone, and its
    segments are those of RelaySegments.v.  So the invariant holds in every
    reachable state, and sessions only move on. *)

From S2P Require Import Prelude PyFloat Hashes Json Protocol6 Uuid PyInt ODict Tasks JobTables Jobs Relay RelaySystem RelayFacts RelaySegments.
Open Scope Z_scope.

Section Handlers.
Variable invalid_params : string -> dict -> option string.

(** Charges play no part here. *)
Definition moves (_ : bool) : relay -> relay -> Prop := grows.
Definition nothing (_ : Empty_set) (_ : relay) : Prop := True.
Abbreviation fine := (good exec inv moves nothing).
Abbreviation runs := (every (returns exec inv) fine).

Lemma fine_ok b X (o : op X) : (forall p x p', exec b X o p x p' -> ok p p') -> fine b X o.
Proof. intros Ho p x p' Hi He. destruct (Ho p x p' He Hi). by split. Qed.
Lemma fine_now b X (f : tick -> relay -> X * relay) :
  (forall tk p, fresh_tick tk p -> ok p (f tk p).2) -> fine b X (Now f).
Proof.
  intros Hf. apply fine_ok. intros p x p' (tk & Hfr & Hx). change p' with (x, p').2. rewrite <- Hx. by apply Hf.
Qed.
Lemma fine_wait b X limited ready (f : bool -> tick -> relay -> X * relay) :
  (forall arrived tk p, fresh_tick tk p -> ok p (f arrived tk p).2) -> fine b X (Wait limited ready f).
Proof.
  intros Hf. apply fine_ok. intros p x p' (tk & arrived & Hfr & _ & Hx). change p' with (x, p').2. rewrite <- Hx. by apply Hf.
Qed.
Lemma fine_alone b X (o : op X) : (forall p x p', exec b X o p x p' -> p' = p) -> fine b X o.
Proof. intros Ho. apply fine_ok. intros p x p' ->%Ho. done. Qed.
Ltac alone := apply fine_alone; intros ? ? ?; exact id || exact (False_ind _).

Lemma runs_segment {X} b (f : tick -> relay -> X * relay) :
  (forall tk p, fresh_tick tk p -> ok p (f tk p).2) -> runs b (segment f).
Proof. intros Hf. apply every_call. by apply fine_now. Qed.
Lemma runs_shrinks {X} b (f : tick -> relay -> X * relay) : (forall tk p, shrinks p (f tk p).2) -> runs b (segment f).
Proof. intros Hf. apply runs_segment. intros tk p _. apply ok_shrinks, Hf. Qed.
Lemma runs_look {X} b (f : relay -> X) : runs b (look f).
Proof. apply every_call, fine_now. intros tk p _. reflexivity. Qed.
Lemma runs_change b (f : relay -> relay) : (forall p, ok p (f p)) -> runs b (change f).
Proof. intros Hf. apply every_call, fine_now. intros tk p _. apply Hf. Qed.
Lemma runs_stop {A} b : runs b (out_of_fuel : handler A).
Proof. split; [apply fine_ok; intros p x p' []|intros []]. Qed.
Lemma runs_call {X} b (o : op X) : fine b X o -> runs b (call o).
Proof. apply every_call. Qed.
Lemma runs_attempt {X} b (o : op (result exn X)) : fine b _ o -> runs b (attempt o).
Proof. apply every_attempt. Qed.
Lemma runs_spawn_all {A} b (f : A -> handler unit) l : (forall x, runs false (f x)) -> runs b (spawn_all f l).
Proof. intros Hf. induction l as [|x l IH]; [done|]. split; [apply every_forget, Hf|exact IH]. Qed.
Lemma runs_call_result {A} b (h : handler A) : runs b h -> runs b (call_result h).
Proof. intros Hh. apply every_sequel; [done|]. done. Qed.
Ltac relay_step := first
[ apply runs_look | apply runs_stop | apply runs_spawn_all; intros ? | apply runs_call_result
| apply runs_call; alone | apply runs_attempt; alone
| apply runs_shrinks; intros ? ?; solve [cbn; auto with relay tame]
| apply runs_change; intros ?; apply ok_shrinks; solve [cbn; auto with relay tame]
| assumption | alone | every_step ].
Ltac relay_walk := repeat relay_step.

Lemma runs_safe_send b w m : runs b (safe_send w m).
Proof. unfold safe_send. relay_walk. Qed.
Lemma runs_send_v6 b w kind fields context mirror : (forall p, ok p (mirror p)) ->
runs b (send_v6 w kind fields context mirror).
Proof. intros Hm. unfold send_v6. relay_walk; by apply runs_change. Qed.
Lemma runs_close_abandoned b id w g c : runs b (close_abandoned id w g c).
Proof. unfold close_abandoned. relay_walk; apply runs_safe_send. Qed.
Lemma runs_send_v6_close b id w g a u v6 terminal : runs b (send_v6_close id w g a u v6 terminal).
Proof. unfold send_v6_close. relay_walk; by apply runs_send_v6. Qed.
Lemma runs_end_and_fence b id g : runs b (end_and_fence id g).
Proof. unfold end_and_fence. relay_walk. Qed.
Lemma runs_close_deadline b id g w : runs b (close_deadline id g w).
Proof. unfold close_deadline. relay_walk; apply runs_end_and_fence. Qed.
Lemma runs_suppress b h : runs b h -> runs b (suppress_timeout h).
Proof. intros Hh. unfold suppress_timeout. relay_walk. Qed.
Lemma runs_release_rest (admission : string -> handler unit) b id r : (forall id, runs false (admission id)) ->
runs b (release_rest admission id r).
Proof.
intros Ha. assert (Hw : forall b, runs b (admit_waiting admission)) by (intros b'; unfold admit_waiting; relay_walk; apply Ha).
unfold release_rest. relay_walk; try apply Ha; try apply Hw; repeat (apply runs_suppress; relay_walk);
  auto using runs_safe_send, runs_send_v6_close, runs_end_and_fence, runs_close_deadline.
Qed.

(** ** Placing *)

Lemma runs_place_loop {X} (after : bool -> tick -> relay -> X * relay) b n id d :
(forall ok_ tk p, ok p (after ok_ tk p).2) -> runs b (place_loop after n id d).
Proof.
intros Ha. revert d. induction n as [|n IH]; intros d.
- destruct d; [done|apply runs_stop..].
- assert (Hnext : forall f : tick -> relay -> placing X * relay, (forall tk p, ok p (f tk p).2) ->
            runs b (segment f ≫= place_loop after n id)).
  { intros f Hf. apply every_bind; [by apply runs_segment|intros; apply IH]. }
  destruct d as [x|w o skipped|w sent c skipped]; [done| |].
  + cbn [place_loop]. apply every_bind.
    { apply runs_call_result. unfold open_on. relay_walk; by apply runs_send_v6. }
    intros [[]|e].
    * apply every_bind; [|intros; apply IH]. apply runs_call, fine_wait. intros [] tk p _; [by apply ok_answered|by apply ok_give_up].
    * apply Hnext. intros tk p. etransitivity; [|by apply ok_place_next]. case_match eqn:Eh; [|done].
      apply ok_shrinks. by apply shrinks_held.
    * case_match; [|done]. apply Hnext. intros tk p. by apply ok_give_up.
  + cbn [place_loop]. apply every_bind; [apply runs_close_abandoned|intros _]. apply Hnext. intros tk p. by apply ok_place_next.
Qed.
Lemma runs_try {X} (after : bool -> tick -> relay -> X * relay) b id skipped :
(forall ok_ tk p, ok p (after ok_ tk p).2) -> runs b (segment (try_next after id skipped)).
Proof. intros Ha. apply runs_segment. intros tk p _. by apply ok_try_next. Qed.
Lemma runs_admit b n id : runs b (admit_session n id).
Proof.
revert b id. induction n as [|n IH]; intros b id; [apply runs_stop|]. cbn [admit_session].
apply every_bind.
- apply runs_segment. intros tk p _. rewrite (surjective_pairing (try_next _ id [] tk p)). apply ok_try_next. apply ok_admit_after.
- intros [was_live d]. apply every_bind; [apply runs_place_loop, ok_admit_after|].
  intros x. relay_walk; by apply runs_release_rest.
Qed.
Lemma runs_release b n closing id : runs b (release (admit_session n) closing id).
Proof. unfold release. relay_walk; apply runs_release_rest. intros; apply runs_admit. Qed.
Lemma runs_reassign b n id : runs b (reassign n id).
Proof.
unfold reassign. apply every_bind; [relay_walk|]. intros [l|]; [|done]. apply every_bind; [relay_walk; apply runs_close_abandoned|intros _].
apply every_bind; [|].
- apply runs_shrinks. intros tk p. case_match; cbn; auto with relay tame.
- intros [user|]; [|done]. apply every_bind; [relay_walk|]. intros committed. apply every_bind.
  + apply runs_segment. intros tk p _. etransitivity; [|apply ok_try_next, ok_reassign_after].
    apply ok_shrinks. auto with relay tame.
  + intros d. apply every_bind; [apply runs_place_loop, ok_reassign_after|]. intros x. relay_walk;
    apply runs_release_rest. intros; apply runs_admit.
Qed.
Lemma runs_resume_idle b n id : runs b (resume_idle n id).
Proof.
unfold resume_idle. apply every_bind.
- apply runs_segment. intros tk p _. case_match; [|done]. rewrite (surjective_pairing (try_next _ _ _ _ _)).
  etransitivity; [|apply ok_try_next, ok_resume_after]. apply ok_shrinks. auto with relay tame.
- intros [d|]; [|done]. apply every_bind; [apply runs_place_loop, ok_resume_after|]. intros x. relay_walk;
  apply runs_release_rest. intros; apply runs_admit.
Qed.

(** ** Revocation and sweeps *)

Lemma runs_close_sessions b n doomed : runs b (close_sessions n doomed).
Proof.
unfold close_sessions. apply every_each. intros id. apply every_bind.
- apply runs_shrinks. intros tk p. etransitivity; [|apply shrinks_release_begin]. auto with relay tame.
- intros r. apply runs_release_rest. intros; apply runs_admit.
Qed.
Lemma runs_release_idle b n : runs b (release_idle_sessions n).
Proof.
unfold release_idle_sessions. apply every_bind; [by apply runs_shrinks|]. intros [cutoff ids]. apply every_each. intros id.
apply every_bind.
- apply runs_shrinks. intros tk p. case_match; [done|]. rewrite (surjective_pairing (release_begin _ _ _ _)).
  etransitivity; [|apply shrinks_release_begin]. apply shrinks_transition. set_solver.
- intros [r|]; [|done]. apply runs_release_rest. intros; apply runs_admit.
Qed.
Lemma runs_sweep_queue b n : runs b (sweep_queue n).
Proof.
unfold sweep_queue. apply every_bind; [|intros; apply runs_spawn_all; intros; apply runs_admit].
apply runs_shrinks. intros tk p. rewrite (surjective_pairing (admit_queued _ _)). cbn.
etransitivity; [apply shrinks_admit_queued|]. etransitivity; [apply shrinks_post_positions|apply shrinks_post_keepalives].
Qed.

(** ** The browser *)

Lemma runs_writer b n id : runs b (browser_writer n id).
Proof.
unfold browser_writer. generalize WIdle. induction n as [|n IH]; intros w; [apply runs_stop|]. cbn [writer_loop].
assert (Hwait : runs b (call (Wait false (fun p => mb_wake (se_mail (session_of id p))) (fun _ _ p => step_writer id true p))
                   ≫= writer_loop n id)).
{ apply every_bind; [|intros; apply IH]. apply runs_call, fine_wait. intros _ tk p _. auto with relay. }
destruct w as [o []|code message|]; [|..|exact Hwait].
- apply every_bind; [unfold send_out; relay_walk|intros _]. apply every_bind; [|intros; apply IH]. relay_walk.
- apply every_bind; [unfold send_out; relay_walk|intros _]. exact Hwait.
- unfold send_out. relay_walk.
Qed.
Lemma runs_apply_update b n id u : runs b (apply_update n id u).
Proof.
unfold apply_update. destruct u as [|w message|w fields context generation a stamp revision params|message]; [done| | |done].
- apply every_bind; [apply runs_safe_send|intros _]. relay_walk.
- apply every_bind.
  { apply runs_call_result. destruct a; [|done]. apply runs_send_v6. intros. apply ok_shrinks. auto with relay. }
  intros [[]|[]]; try done. apply every_bind.
  + apply runs_shrinks. intros _ p. etransitivity; [|apply shrinks_schedule]. auto with relay tame.
  + intros []; [|done]. apply every_spawn, every_forget, runs_reassign.
Qed.
Lemma runs_browser_message b n id m : runs b (browser_message invalid_params n id m).
Proof.
assert (Hv : forall message, runs b (violated id message)) by (intros message; unfold violated; relay_walk).
unfold browser_message. destruct m as [|data|[control|e]]; [done| | |].
- apply every_bind; [apply runs_shrinks; auto with relay|]. intros [| |w f|message|e]; [done| | |apply Hv|done].
  + apply every_bind; [|done]. apply every_spawn, every_forget, runs_resume_idle.
  + relay_walk.
- case_match; [relay_walk|]. case_match; [|done]. apply every_bind; [apply runs_shrinks; auto with relay|].
  intros u. destruct u; try (apply every_bind; [apply runs_apply_update|done]). apply Hv.
- destruct e; try done; apply Hv.
Qed.
Lemma runs_serve b n id : runs b (serve_browser invalid_params n id).
Proof.
unfold serve_browser. apply every_bind; [apply every_spawn, every_forget, runs_writer|intros _].
apply every_bind; [apply runs_try, ok_open_after|intros d]. apply every_bind; [apply runs_place_loop, ok_open_after|intros _].
generalize n at 2. intros fuel. induction fuel as [|fuel IH]; [apply runs_stop|]. cbn [browser_loop].
apply every_bind; [relay_walk|]. intros m. apply every_bind; [apply runs_browser_message|]. intros []; [exact IH|done].
Qed.
Lemma runs_realtime b n model user auth header params : runs b (realtime invalid_params n model user auth header params).
Proof.
unfold realtime. apply every_bind; [apply runs_segment; intros; by apply ok_open_session|].
intros [id|]; [|done]. apply every_bind; [relay_walk|]. intros live. case_match.
- apply every_bind; [|intros []; done]. apply runs_shrinks. intros _ p. case_match; [|done]. apply shrinks_open, sublist_filter.
- apply every_ending; [apply runs_serve|]. apply every_forget. apply every_bind; [|intros r; apply runs_release_rest; intros; apply runs_admit].
  apply runs_shrinks. intros tk p. etransitivity; [|apply shrinks_release_begin]. auto with relay.
Qed.

(** ** The workers *)

Lemma runs_session_ready b w control : runs b (session_ready w control).
Proof. unfold session_ready. relay_walk. Qed.
Lemma runs_session_refused b n w control : runs b (session_refused n w control).
Proof. unfold session_refused. relay_walk; apply runs_reassign. Qed.
Lemma runs_heartbeat b n w control : runs b (on_heartbeat n w control).
Proof.
unfold on_heartbeat. apply every_bind; [|intros; apply runs_spawn_all; intros; apply runs_reassign].
apply runs_segment. intros tk p _. apply ok_heartbeat.
Qed.
Lemma runs_joined b n o : new_worker o -> runs b (worker_joined n o).
Proof.
intros Ho. unfold worker_joined. apply every_bind; [apply runs_change; intros; by apply ok_register|intros _].
apply every_bind; [relay_walk|intros]. apply runs_spawn_all. intros; apply runs_admit.
Qed.
Lemma runs_finalize b n w : runs b (finalize_worker n w).
Proof.
unfold finalize_worker. apply every_bind; [relay_walk|intros _]. apply every_bind; [relay_walk|intros won].
apply every_bind; [apply runs_spawn_all; intros; apply runs_reassign|intros _]. relay_walk.
Qed.
Lemma starts_run b p t : starts invalid_params b p t -> runs b t.
Proof.
intros Hst. destruct Hst; apply every_forget.
- apply runs_realtime.
- apply runs_session_ready.
- apply runs_session_refused.
- relay_walk.
- relay_walk.
- apply runs_change. intros p'. apply ok_shrinks. case_match eqn:E; [|done]. eauto with relay.
- apply runs_heartbeat.
- by apply runs_joined.
- apply runs_finalize.
- unfold close_revoked. apply every_bind; [apply runs_look|intros; apply runs_close_sessions].
- unfold close_none_mode_sockets. apply every_bind; [apply runs_look|intros; apply runs_close_sessions].
- unfold close_dead_sessions. apply every_bind; [apply runs_look|]. intros held. destruct held as [|au held]; [done|].
  apply every_bind; [relay_walk|]. intros [live|e]; [|done]. apply every_each. intros [a u]. case_bool_decide; [done|].
  unfold close_revoked. apply every_bind; [apply runs_look|intros; apply runs_close_sessions].
- apply runs_release_idle.
- apply runs_sweep_queue.
Qed.

#[export] Instance relay_interference :
  Interference exec (starts invalid_params) outside inv moves moves nothing.
Proof.
split; try done.
- intros b. apply grows_po.
- intros b s s' Ho Hi. by destruct (ok_outside s s' Ho Hi).
- intros s s' Ho Hi. by destruct (ok_outside s s' Ho Hi).
- intros b s t Hst Hi.
  assert (Hu : upholds exec inv moves moves nothing b (fun _ => False) t (fun _ _ _ => False) (fun _ _ => True) s).
  { apply (every_upholds exec inv moves moves nothing b t (fun _ => True) (fun _ => False) s); try done.
    eapply every_impl; [|by eapply starts_run]. by intros b' X o Ho. }
  eapply upholds_safe. eapply upholds_impl; [..|exact Hu]; done.
Qed.

(** ** Every reachable state *)

Lemma inv_empty : inv empty_relay.
Proof.
split; cbn.
- by intros w o.
- by intros id w.
- by intros w o.
- by intros w o.
- constructor.
- by intros id ?%elem_of_nil.
- intros user. done.
- by intros id [? ?].
Qed.
Lemma pool_ok_empty : pool_ok exec inv moves moves nothing empty_relay [].
Proof. split; [apply inv_empty|done|cbn; lia]. Qed.
Theorem reached_ok p l : relay_run invalid_params (empty_relay, []) (p, l) ->
  pool_ok exec inv moves moves nothing p l.
Proof. intros Hrun. by destruct (pool_safe _ _ _ _ _ _ _ _ _ _ _ Hrun pool_ok_empty). Qed.
Theorem reached_inv p l : relay_run invalid_params (empty_relay, []) (p, l) -> inv p.
Proof. intros Hrun. by destruct (reached_ok _ _ Hrun). Qed.

Lemma seen_step_grows pl pl' :
  pool_step (seen_exec exec inv moves) (seen_starts (starts invalid_params) inv)
    (seen_outside outside inv moves) pl pl' -> grows pl.1 pl'.1.
Proof.
intros Hstep. destruct Hstep as [p p' l1 l2 b X o k x [_ (_ & _ & Hg)]| | | |p p' l [_ (_ & _ & Hg)]]; cbn; try done.
by apply (Hg true).
Qed.
Theorem run_grows p l p' l' : relay_run invalid_params (empty_relay, []) (p, l) ->
  relay_run invalid_params (p, l) (p', l') -> grows p p'.
Proof.
intros H0 Hrun. pose proof (pool_seen _ _ _ _ _ _ _ _ _ _ _ Hrun (reached_ok _ _ H0)) as Hseen.
assert (Hg : forall x y, rtc (pool_step (seen_exec exec inv moves) (seen_starts (starts invalid_params) inv)
    (seen_outside outside inv moves)) x y -> grows x.1 y.1).
{ induction 1 as [x|x y z Hs _ IH]; [done|]. etransitivity; [by apply seen_step_grows|exact IH]. }
exact (Hg _ _ Hseen).
Qed.
End Handlers.
