(* ===== verification/RelaySamples.v ===== *)
(** * A process with a worker and a browser

    Schedules on which the theorems about the relay are evaluated. *)

From S2P Require Import Prelude PyFloat Hashes Json Protocol6 Uuid ODict PyInt Tasks JobTables Jobs Relay RelaySystem.
Open Scope Z_scope.

(** ** Runs, executed

    [answer] gives an awaited operation an outcome, a wait only where what it
    waits for holds or it may time out, and a schedule of moves is
    played as a run of RelaySystem.v. *)

(** What a segment draws, whether a wait is over because what it waits for
    happened, and how an awaited call comes out. *)
Record choice := {
  ch_tick : tick; ch_arrived : bool; ch_fails : option exn; ch_flag : bool; ch_incoming : incoming;
  ch_desired : option (dict * Z)
}.
Definition outcome {A} (c : choice) (a : A) : result exn A := match ch_fails c with Some e => Err e | None => Ok a end.

Definition answer (c : choice) (X : Type) (o : op X) : relay -> option (X * relay) :=
  match o in op X return relay -> option (X * relay) with
  | Now f => fun p => if bool_decide (r_sessions p !! tk_id (ch_tick c) = None) then Some (f (ch_tick c) p) else None
  | Wait limited ready f => fun p =>
      if bool_decide (r_sessions p !! tk_id (ch_tick c) = None) && (if ch_arrived c then ready p else limited)
      then Some (f (ch_arrived c) (ch_tick c) p) else None
  | Send _ _ => fun p => Some (outcome c tt, p)
  | SendFrame _ _ => fun p => Some (tt, p)
  | Commit _ _ _ _ => fun p => Some (outcome c (ch_flag c), p)
  | Deliver _ => fun p => Some (tt, p)
  | Abandon _ _ _ => fun p => Some (outcome c tt, p)
  | EndSession _ _ => fun p => Some (outcome c tt, p)
  | ReadDesired _ _ _ => fun p => Some (outcome c (ch_desired c), p)
  | AcceptReady _ _ => fun p => Some (outcome c (ch_flag c), p)
  | StillLive _ => fun p => Some (ch_flag c, p)
  | LiveAmong auths => fun p => Some (outcome c (if ch_flag c then auths else []), p)
  | Receive _ => fun p => Some (ch_incoming c, p)
  | Tell _ _ => fun p => Some (tt, p)
  | Sleep => fun p => Some (tt, p)
  | Never => fun _ => None
  end.
Lemma relay_answer_execs c b X (o : op X) p x p' : answer c X o p = Some (x, p') -> exec b X o p x p'.
Proof.
  destruct o; cbn; intros H; try (by simplify_eq); [|].
  - case_bool_decide as Hf; [|done]. injection H as H. by exists (ch_tick c).
  - case_match eqn:E; [|done]. apply andb_true_iff in E as [Hf%bool_decide_eq_true_1 E]. injection H as H.
    exists (ch_tick c), (ch_arrived c). split; [done|]. split; [by intros Ha; rewrite Ha in E|done].
Qed.

(** Usable costs, decided. *)
Definition costs_ok (o : relay_worker) : bool :=
  bool_decide (map_Forall (fun (_ : string) v => 0 < v) (default ∅ (rw_p95 o)))
  && bool_decide (map_Forall (fun (_ : string) c => Forall (fun v => 0 < v) c /\ Sorted Z.le c) (default ∅ (rw_batch o))).
Definition joinable (o : relay_worker) : bool := (rw_in_use o =? 0) && costs_ok o.
Lemma joinable_new o : joinable o = true -> new_worker o.
Proof.
  unfold joinable, costs_ok. rewrite !andb_true_iff. intros (Hu%Z.eqb_eq & Hp%bool_decide_eq_true_1 & Hb%bool_decide_eq_true_1).
  split; [done|]. split.
  - intros p95 m v Ho Hm. rewrite Ho in Hp. by apply (Hp m).
  - intros batch m c Ho Hm. rewrite Ho in Hb. by apply (Hb m).
Qed.

Section Play.
Variable invalid_params : string -> dict -> option string.

Inductive move : Type :=
| Step (task : nat) (c : choice)
| Browser (n : nat) (model : string) (user auth : option string) (params : dict)
| Ready (w : nat) (control : dict)
| Refused (n : nat) (w : nat) (control : dict)
| Heartbeat (n : nat) (w : nat) (control : dict)
| Joined (n : nat) (o : relay_worker)
| Lost (n : nat) (w : nat)
| Revoked (n : nat) (user : string) (auth keep : option string)
| Idle (n : nat)
| Sweep (n : nat).

Definition make_move (m : move) (sl : relay * list (bool * prog op unit)) : option (relay * list (bool * prog op unit)) :=
  match m with
  | Step task c => advance answer task c sl
  | Browser n model user auth params => began false (forget (realtime invalid_params n model user auth 2 params)) sl
  | Ready w control => began false (forget (session_ready w control)) sl
  | Refused n w control => began false (forget (session_refused n w control)) sl
  | Heartbeat n w control => began false (forget (on_heartbeat n w control)) sl
  | Joined n o => if joinable o then began false (forget (worker_joined n o)) sl else None
  | Lost n w => began false (forget (finalize_worker n w)) sl
  | Revoked n user auth keep => began false (forget (close_revoked n user auth keep)) sl
  | Idle n => began false (forget (release_idle_sessions n)) sl
  | Sweep n => began false (forget (sweep_queue n)) sl
  end.
Fixpoint play (ms : list move) (sl : relay * list (bool * prog op unit)) : option (relay * list (bool * prog op unit)) :=
  match ms with [] => Some sl | m :: ms => make_move m sl ≫= play ms end.

Lemma relay_move_step m sl sl' : make_move m sl = Some sl' -> relay_step invalid_params sl sl'.
Proof.
  assert (Hb : forall p, starts invalid_params false sl.1 p -> began false p sl = Some sl' -> relay_step invalid_params sl sl')
    by (intros p; apply began_step).
  destruct m; unfold make_move; intros Hm; try (eapply Hb; [|exact Hm]; constructor; auto; fail).
  - eapply advance_step; [apply relay_answer_execs|exact Hm].
  - case_match eqn:E; [|done]. eapply Hb; [|exact Hm]. constructor. by apply joinable_new.
Qed.
Lemma relay_play_run ms sl sl' : play ms sl = Some sl' -> relay_run invalid_params sl sl'.
Proof.
  revert sl. induction ms as [|m ms IH]; intros sl; cbn; [by intros [= <-]; constructor|].
  destruct (make_move m sl) as [sl1|] eqn:E; [|done]. cbn. intros Hp. eapply rtc_l; [by eapply relay_move_step|by apply IH].
Qed.
End Play.

Definition SESSION : string := "11111111-1111-4111-8111-111111111111".
Definition OTHER : string := "99999999-1111-4111-8111-111111111111".
Definition any_params (model : string) (params : dict) : option string := None.
Definition tick_at (t : Z) (id : string) : tick := {| tk_now := t; tk_id := id; tk_range := "range"; tk_seed := 7 |}.
Definition plain (t : Z) (id : string) : choice :=
  {| ch_tick := tick_at t id; ch_arrived := true; ch_fails := None; ch_flag := true; ch_incoming := Disconnected;
     ch_desired := None |}.
Definition late (t : Z) : choice :=
  {| ch_tick := tick_at t OTHER; ch_arrived := false; ch_fails := None; ch_flag := true; ch_incoming := Disconnected;
     ch_desired := None |}.
Definition closed_socket (t : Z) : choice :=
  {| ch_tick := tick_at t OTHER; ch_arrived := true; ch_fails := Some WebSocketDisconnect; ch_flag := true;
     ch_incoming := Disconnected; ch_desired := None |}.
Definition steps (n task : nat) (t : Z) : list move := repeat (Step task (plain t OTHER)) n.
Definition worker5 (id : string) : worker :=
  {| w_id := id; w_incarnation := None; w_nonce := None; w_protocol := 5; w_transport := None; w_models := ["sdxl"];
     w_slots_in_use := 0; w_jobs := 0; w_ready := true; w_deadline := None |}.
(** One without measurements, and one that measured 200 ms a frame. *)
Definition unmeasured : relay_worker :=
  {| rw_base := worker5 "gpu-1"; rw_slots := 1; rw_p95 := None; rw_batch := None; rw_seen := 0 |}.
Definition measured : relay_worker :=
  {| rw_base := worker5 "gpu-2"; rw_slots := 1; rw_p95 := Some {["sdxl" := 200]}; rw_batch := Some ∅; rw_seen := 0 |}.

Abbreviation played ms pl := (play any_params ms pl).
Definition joined (o : relay_worker) : list move := Joined 5 o :: steps 3 0 1000.
Definition browser (id : string) (task : nat) : list move :=
  [Browser 9 "sdxl" (Some "user") (Some "auth") []; Step task (plain 2000 id)].
Definition report (kind id : string) : dict :=
  [("type", JStr kind); ("session_id", JStr id); ("control_generation", JInt 1)].
(** The browser's session waits for its worker to open it. *)
Definition opening_on (o : relay_worker) : list move := joined o ++ browser SESSION 0 ++ steps 4 0 2000.
Definition ready_on (o : relay_worker) : list move := opening_on o ++ Ready 0 (report "session_ready" SESSION) :: steps 3 2 3000.
(** It is live, and the browser was told. *)
Definition live_on (o : relay_worker) : list move := ready_on o ++ steps 1 0 3000.
(** The wait is over in the moment the worker answers. *)
Definition ready_too_late : list move := ready_on unmeasured ++ Step 0 (late 4000) :: steps 2 0 4000.
(** A session queues, a worker joins, and its socket fails as the session is
    opened on it; the worker leaves, and another joins. *)
Definition lost_while_admitted : list move :=
  browser SESSION 0 ++ steps 3 0 2000 ++ Joined 5 unmeasured :: steps 5 2 3000 ++ Step 2 (closed_socket 3000) :: steps 1 2 3000
  ++ Lost 9 0 :: steps 4 2 4000 ++ Joined 5 measured :: steps 3 2 5000 ++ Sweep 9 :: steps 2 2 6000.

(** The browser closes; the close is posted, and then the session ends. *)
Definition saying (t : Z) (m : incoming) : choice :=
  {| ch_tick := tick_at t OTHER; ch_arrived := true; ch_fails := None; ch_flag := true; ch_incoming := m; ch_desired := None |}.
Definition close_posted : list move :=
  live_on measured ++ Step 0 (saying 5000 (Control (Ok [("type", JStr "close")]))) :: steps 1 0 5000.
Definition session_ends : list move := Step 1 (plain 5000 OTHER) :: steps 4 0 6000.
(** A session opens on the worker, which then reports its frames to take what
    they took when it joined. *)
Definition beat (ms : Z) : dict := [("type", JStr "heartbeat"); ("frame_p95_ms", JDict [("sdxl", JInt ms)])].
Definition opened_and_measured : list move :=
  browser SESSION 0 ++ steps 4 0 2000 ++ Ready 0 (report "session_ready" SESSION) :: steps 3 2 3000 ++ steps 1 0 3000
  ++ Heartbeat 9 0 (beat 200) :: steps 2 2 3500.
(** No worker serves it. *)
Definition queued_up : list move := browser SESSION 0 ++ steps 3 0 2000.

Definition state_after (ms : list move) : relay := default empty_relay (fst <$> played ms (empty_relay, [])).
Definition tasks_after (ms : list move) : list (bool * prog op unit) :=
  default [] (snd <$> played ms (empty_relay, [])).
Definition playable (ms : list move) : bool := bool_decide (is_Some (played ms (empty_relay, []))).
Lemma played_run ms : playable ms = true ->
  relay_run any_params (empty_relay, []) (state_after ms, tasks_after ms).
Proof.
  unfold playable, state_after, tasks_after. intros H%bool_decide_eq_true_1. destruct H as [[p l] E]. rewrite E. cbn.
  by eapply relay_play_run.
Qed.
Lemma play_app ms ms' pl : played (ms ++ ms') pl = played ms pl ≫= play any_params ms'.
Proof.
  revert pl. induction ms as [|m ms IH]; intros pl; cbn; [done|]. destruct (make_move _ m pl); cbn; [apply IH|done].
Qed.
(** Two schedules, one after the other. *)
Lemma played_on ms ms' : playable (ms ++ ms') = true ->
  relay_run any_params (empty_relay, []) (state_after ms, tasks_after ms)
  /\ relay_run any_params (state_after ms, tasks_after ms)
       (state_after (ms ++ ms'), tasks_after (ms ++ ms')).
Proof.
  unfold playable, state_after, tasks_after. rewrite play_app. intros H%bool_decide_eq_true_1.
  destruct (played ms (empty_relay, [])) as [[p l]|] eqn:E; [|by destruct H]. cbn in *.
  destruct (played ms' (p, l)) as [[p' l']|] eqn:E'; [|by destruct H]. cbn. split; by eapply relay_play_run.
Qed.
