(* ===== verification/RelaySpec.v ===== *)
(** * What the relay promises

    Slots and costs, the cap of an account, how a session and its mailbox
    move, what is shed, who is picked and what the queue is told; and two runs
    in which a session is left behind. *)

From S2P Require Import Prelude PyFloat Hashes Json Protocol6 Uuid ODict PyInt Tasks JobTables Jobs Relay RelaySystem RelayFacts RelaySegments RelayHandlers RelaySamples.
Open Scope Z_scope.

(** ** Sorting *)

Section Sorting.
Context {A : Type} (key : A -> Z).
Lemma insert_by_perm x l : insert_by key x l ≡ₚ x :: l.
Proof. induction l as [|y l IH]; cbn; [done|]. case_match; [done|]. rewrite IH. by apply Permutation_swap. Qed.
Definition sorted_by : list A -> Prop := StronglySorted (fun x y => key x <= key y).
Lemma insert_by_sorted x l : sorted_by l -> sorted_by (insert_by key x l).
Proof.
induction 1 as [|y l Hl IH Hy]; cbn; [by repeat constructor|]. case_match eqn:E.
- apply Z.leb_le in E. constructor; [by constructor|]. constructor; [done|]. eapply Forall_impl; [exact Hy|]. cbn. lia.
- apply Z.leb_gt in E. constructor; [exact IH|]. rewrite insert_by_perm. constructor; [lia|exact Hy].
Qed.
Lemma sort_perm l : foldr (insert_by key) [] l ≡ₚ l.
Proof. induction l as [|x l IH]; cbn; [done|]. by rewrite insert_by_perm, IH. Qed.
Lemma sort_sorted l : sorted_by (foldr (insert_by key) [] l).
Proof. induction l as [|x l IH]; cbn; [constructor|]. by apply insert_by_sorted. Qed.
End Sorting.

(** ** Slots, costs and the cap *)

Section Runs.
Variable invalid_params : string -> dict -> option string.

(** C7. Whatever the tasks, the workers and the browsers do, a worker has at
    least as many slots in use as there are sessions on it, so giving slots
    back never brings the count below nothing. *)
Theorem slots_cover_sessions p l w o :
  relay_run invalid_params (empty_relay, []) (p, l) -> r_objects p !! w = Some o ->
  0 <= Z.of_nat (size (on_worker w p)) <= rw_in_use o.
Proof. intros Hrun Ho. pose proof (iv_slots _ (reached_inv _ _ _ Hrun) w o Ho) as H. unfold held in H. lia. Qed.

(** C8. Workers are not overbooked, whatever heartbeats arrive: one that does
    not measure never has more sessions than slots.  The costs of one that does
    only rise, and over any stretch of a run in which none of them rose: where
    its sessions fitted into the bar of 500 ms a frame, or there were none, they
    fit afterwards, with the same curves; and a worker that a raise had put over
    the bar gets no session it did not have until they fit again. *)
Theorem no_worker_overbooked p l p' l' w o o' :
  relay_run invalid_params (empty_relay, []) (p, l) -> relay_run invalid_params (p, l) (p', l') ->
  r_objects p !! w = Some o -> r_objects p' !! w = Some o' ->
  (rw_p95 o' = None -> rw_in_use o' <= Z.max 0 (rw_slots o'))
  /\ (forall model v, default ∅ (rw_p95 o) !! model = Some v -> exists v', default ∅ (rw_p95 o') !! model = Some v' /\ v <= v')
  /\ (rw_p95 o' = rw_p95 o ->
        rw_batch o' = rw_batch o
        /\ (live_admission_cost w None [] p <= REALTIME_BAR_MS \/ on_worker w p = ∅ ->
            live_admission_cost w None [] p' <= REALTIME_BAR_MS)
        /\ (REALTIME_BAR_MS < live_admission_cost w None [] p' -> on_worker w p' ⊆ on_worker w p)).
Proof.
intros H0 Hrun Ho Ho'. destruct (gr_fits _ _ (run_grows _ _ _ _ _ H0 Hrun) w o Ho) as (o1 & Ho1 & [Hle Hb] & Hk).
assert (o1 = o') as -> by congruence. assert (Hrun' : relay_run invalid_params (empty_relay, []) (p', l')) by by etransitivity.
split; [by apply (iv_room _ (reached_inv _ _ _ Hrun') w)|]. split.
- intros model v. unfold cost_map_le in Hle. destruct (rw_p95 o) as [c|], (rw_p95 o') as [c'|]; cbn in *; try done.
  intros Hv. specialize (Hle model). rewrite Hv in Hle. destruct (c' !! model) as [v'|]; [|done]. by exists v'.
- intros Hp. destruct (Hk (conj Hp (Hb Hp))) as [Hfits Hnew]. split; [by apply Hb|]. split.
  + intros [Hf|He]; apply Hfits; [exact Hf|]. by apply fits_empty.
  + intros Hover. destruct Hnew as [Hf|Hsub]; [|done]. unfold fits in Hf. lia.
Qed.

(** An account never has more than two sessions that are not ending. *)
Theorem account_session_cap p l user :
  relay_run invalid_params (empty_relay, []) (p, l) -> Z.of_nat (length (sessions_of user p)) <= 2.
Proof. intros Hrun. exact (iv_cap _ (reached_inv _ _ _ Hrun) user). Qed.

(** ** How sessions move *)

(** C9. In a run a session stays the model's and the account's it was opened
    for, its attempts and the revisions of its drawing only grow, and once it
    has ended it never leaves that state. *)
Theorem sessions_move_on p l p' l' id s :
  relay_run invalid_params (empty_relay, []) (p, l) -> relay_run invalid_params (p, l) (p', l') ->
  r_sessions p !! id = Some s ->
  exists s', r_sessions p' !! id = Some s' /\ se_model s' = se_model s /\ se_user s' = se_user s /\ se_auth s' = se_auth s
    /\ pl_generation (se_place s) <= pl_generation (se_place s') /\ dr_revision (se_drawing s) <= dr_revision (se_drawing s')
    /\ (state_of s = SEnded -> state_of s' = SEnded).
Proof.
intros H0 Hrun Hs. destruct (gr_sessions _ _ (run_grows _ _ _ _ _ H0 Hrun) id s Hs) as (s' & Hs' & [? ? ? ? ? ? ? _ _]).
exists s'. by split_and!.
Qed.

(** C10. The first close posted to a browser is the one it gets: nothing is
    posted behind it, the controls before it only drain, and no frame is left
    to overtake it. *)
Theorem close_is_final p l p' l' id s c :
  relay_run invalid_params (empty_relay, []) (p, l) -> relay_run invalid_params (p, l) (p', l') ->
  r_sessions p !! id = Some s -> mb_close (se_mail s) = Some c ->
  exists s', r_sessions p' !! id = Some s' /\ mb_close (se_mail s') = Some c /\ mb_frame (se_mail s') = None
    /\ mb_controls (se_mail s') `suffix_of` mb_controls (se_mail s).
Proof.
intros H0 Hrun Hs Hc. destruct (gr_sessions _ _ (run_grows _ _ _ _ _ H0 Hrun) id s Hs) as (s' & Hs' & Hle).
destruct (ml_close _ _ (sl_mail _ _ Hle) c Hc) as [Hc' Hsuf]. exists s'. split_and!; try done.
assert (Hrun' : relay_run invalid_params (empty_relay, []) (p', l')) by by etransitivity.
pose proof (iv_mail _ (reached_inv _ _ _ Hrun') id) as Hm. unfold session_of in Hm. rewrite Hs' in Hm.
apply Hm. by exists c.
Qed.

(** ** The queue *)

Lemma queued_nodup p l : relay_run invalid_params (empty_relay, []) (p, l) -> NoDup (queued_sessions p).
Proof.
intros Hrun. unfold queued_sessions. rewrite sort_perm. apply NoDup_filter. exact (iv_nodup _ (reached_inv _ _ _ Hrun)).
Qed.
End Runs.

Definition told (position : Z) (s s' : session) : Prop :=
  pl_position (se_place s') = Some position
  /\ (mb_close (se_mail s) = None -> mb_controls (se_mail s') = mb_controls (se_mail s) ++ [queued_event position]).
Lemma tell_position_told position s : told position s (tell_position true position s).
Proof. split; [done|]. cbn. intros Hc. by rewrite Hc. Qed.
(** One update per place of a list without repetitions. *)
Lemma post_positions_at (l : list string) k p id : NoDup l ->
  session_of id (foldl (fun p ni => update ni.2 (tell_position true (Z.of_nat (S ni.1))) p) p (imap (fun i => pair (k + i)%nat) l))
  = match list_find (fun x => x = id) l with
    | Some (i, _) => if decide (is_Some (r_sessions p !! id)) then tell_position true (Z.of_nat (S (k + i))) (session_of id p) else session_of id p
    | None => session_of id p
    end.
Proof.
  revert k p. induction l as [|x l IH]; intros k p Hl; [done|]. apply NoDup_cons in Hl as [Hx Hl]. cbn [imap foldl].
  rewrite (imap_ext _ (fun i => pair (S k + i)%nat)) by (intros; cbn; f_equal; lia).
  rewrite IH by done. cbn [list_find]. rewrite Nat.add_0_r. destruct (decide (x = id)) as [->|Hne].
  - rewrite (proj2 (list_find_None _ _)) by (apply Forall_forall; by intros y Hy ->).
    rewrite Nat.add_0_r. case_decide as Hs; [by apply session_of_update|]. f_equal. rewrite session_of_update_none; [done|].
    by apply eq_None_not_Some.
  - destruct (list_find (fun x => x = id) l) as [[i y]|]; cbn; [|by apply session_of_update_ne].
    rewrite session_of_update_ne by done. replace (k + S i)%nat with (S k + i)%nat by lia.
    cbn [update on_sessions r_sessions]. by rewrite lookup_alter_ne.
Qed.

(** The queue is the waiting sessions of the dictionary in the order in
    which they began to wait, and when the sweep posts their places, the
    session at each place is told that place. *)
Theorem queue_is_told invalid_params p l :
  relay_run invalid_params (empty_relay, []) (p, l) ->
  queued_sessions p ≡ₚ filter (fun id => state_of (session_of id p) = SQueued) (r_open p)
  /\ sorted_by (fun id => queue_key (session_of id p)) (queued_sessions p)
  /\ forall i id, queued_sessions p !! i = Some id ->
       told (Z.of_nat i + 1) (session_of id p) (session_of id (post_positions true p)).
Proof.
  intros Hrun. split; [apply sort_perm|]. split; [apply sort_sorted|]. intros i id Hi.
  pose proof (queued_nodup _ _ _ Hrun) as Hnd. unfold post_positions. rewrite (post_positions_at (queued_sessions p) 0) by done.
  assert (Hin : id ∈ queued_sessions p) by by eapply list_elem_of_lookup_2.
  assert (Hs : is_Some (r_sessions p !! id)).
  { apply (iv_open _ (reached_inv _ _ _ Hrun)). unfold queued_sessions in Hin. rewrite sort_perm in Hin.
    by apply list_elem_of_filter in Hin as [_ ?]. }
  destruct (list_find (fun x => x = id) (queued_sessions p)) as [[j x]|] eqn:Ef.
  - apply list_find_Some in Ef as (Hj & -> & _). rewrite decide_True by done.
    replace (Z.of_nat (S (0 + j))) with (Z.of_nat i + 1); [apply tell_position_told|].
    rewrite (NoDup_lookup _ _ _ _ Hnd Hj Hi). lia.
  - apply list_find_None in Ef. rewrite Forall_forall in Ef. by specialize (Ef id Hin).
Qed.

(** ** Picking and shedding *)

(** What a worker offers a model: its free slots, or what is left of the bar
    with one more of the model's sessions. *)
Inductive offers (t : Z) (model : string) (p : relay) (w : nat) : Z -> Prop :=
| offers_slots : rw_p95 (worker_at w p) = None -> 0 < free_slots (worker_at w p) ->
    offers t model p w (free_slots (worker_at w p))
| offers_time p95 v : rw_p95 (worker_at w p) = Some p95 -> p95 !! model = Some v ->
    live_admission_cost w (Some model) [] p <= REALTIME_BAR_MS ->
    offers t model p w (REALTIME_BAR_MS - live_admission_cost w (Some model) [] p).
Definition eligible (t : Z) (model : string) (excluded : list string) (p : relay) (w : nat) (room : Z) : Prop :=
  (w ∈ (r_workers p).*2) /\ (w_id (rw_base (worker_at w p)) ∉ excluded)
  /\ takes_sessions t (worker_at w p) = true /\ serves model (worker_at w p) = true
  /\ has_current_work_grant t (rw_base (worker_at w p)) = true /\ offers t model p w room.
Lemma eligible_ranked t model excluded p w room :
  eligible t model excluded p w room <-> (room, w) ∈ ranked t model excluded p.
Proof.
  rewrite elem_ranked. unfold eligible, leftover. split.
  - intros (Hw & Hex & -> & -> & -> & Ho). split_and!; [done..|]. cbn. destruct Ho as [Hp Hf|p95 v Hp Hv Hc]; rewrite Hp.
    + by rewrite (proj2 (Z.ltb_lt _ _) Hf).
    + rewrite Hv. rewrite (proj2 (Z.leb_le 0 _)) by lia. done.
  - intros (Hw & Hex & Hl). case_match eqn:E; [|done]. rewrite !andb_true_iff in E. destruct E as [[? ?] ?].
    split_and!; try done. destruct (rw_p95 (worker_at w p)) as [p95|] eqn:Ep.
    + destruct (p95 !! model) as [v|] eqn:Ev; [|done]. case_match eqn:Ec; [|done]. injection Hl as <-.
      apply Z.leb_le in Ec. eapply offers_time; [exact Ep|exact Ev|lia].
    + case_match eqn:Ec; [|done]. injection Hl as <-. apply Z.ltb_lt in Ec. by apply offers_slots.
Qed.
(** C39. The worker picked for a model is one of those that are connected, not
    excluded, ready to take sessions, serve the model and have room, and none
    of them has more room; where none is picked there is none. *)
Theorem picked_has_most_room t model excluded p :
  match pick_worker t model excluded p with
  | Some w => exists room, eligible t model excluded p w room
                           /\ forall w' room', eligible t model excluded p w' room' -> room' <= room
  | None => forall w room, ~ eligible t model excluded p w room
  end.
Proof.
  pose proof (pick_worker_spec t model excluded p) as H. destruct (pick_worker t model excluded p) as [w|].
  - destruct H as (room & Hin & Hmax). exists room. split; [by apply eligible_ranked|].
    intros w' room' He%eligible_ranked. exact (Hmax _ He).
  - intros w room He%eligible_ranked. rewrite H in He. by apply elem_of_nil in He.
Qed.

Definition live_on_worker (w : nat) (p : relay) : list string :=
  filter (fun id => held_by w (session_of id p) = true /\ state_of (session_of id p) = SLive) (r_open p).
Lemma shed_until_spec w l victims p :
  (forall v, v `prefix_of` victims -> REALTIME_BAR_MS < live_admission_cost w None v p) ->
  let shed := shed_until w l victims p in
  shed `prefix_of` victims ++ l
  /\ (forall v, v `prefix_of` shed -> v ≠ shed -> REALTIME_BAR_MS < live_admission_cost w None v p)
  /\ (live_admission_cost w None shed p <= REALTIME_BAR_MS \/ shed = victims ++ l).
Proof.
  revert victims. induction l as [|id l IH]; intros victims Hv; cbn -[live_admission_cost].
  - rewrite app_nil_r. split_and!; [done|by intros v Hp _; apply Hv|by right].
  - assert (Hsnoc : forall v, v `prefix_of` victims ++ [id] -> v ≠ victims ++ [id] -> v `prefix_of` victims).
    { intros v [k Hk] Hne. destruct k as [|x k] using rev_ind; [by rewrite app_nil_r in Hk; congruence|].
      rewrite app_assoc in Hk. apply app_inj_tail in Hk as [-> _]. by apply prefix_app_r. }
    case_match eqn:E.
    + apply Z.leb_le in E. split_and!; [|intros v Hp Hne; apply Hv; by apply Hsnoc|by left].
      exists l. by rewrite <- app_assoc.
    + apply Z.leb_gt in E. destruct (IH (victims ++ [id])) as (Hpre & Hall & Hend).
      { intros v Hp. destruct (decide (v = victims ++ [id])) as [->|Hne]; [done|]. by apply Hv, Hsnoc. }
      rewrite <- app_assoc in Hpre, Hend. by split_and!.
Qed.
(** C11. The sessions shed from a worker whose frames cost too much are its
    newest live ones: no more than it takes, and enough for what stays to fit,
    or all of them. *)
Theorem shedding_suffices w p : is_Some (rw_p95 (worker_at w p)) ->
  exists newest, newest ≡ₚ live_on_worker w p
    /\ sorted_by (fun id => - pl_assigned (se_place (session_of id p))) newest
    /\ over_capacity_sessions w p `prefix_of` newest
    /\ (forall v, v `prefix_of` over_capacity_sessions w p -> v ≠ over_capacity_sessions w p ->
          REALTIME_BAR_MS < live_admission_cost w None v p)
    /\ (live_admission_cost w None (over_capacity_sessions w p) p <= REALTIME_BAR_MS
        \/ over_capacity_sessions w p = newest).
Proof.
  intros [p95 Hp]. exists (foldr (insert_by (fun id => - pl_assigned (se_place (session_of id p)))) [] (live_on_worker w p)).
  split; [apply sort_perm|]. split; [apply sort_sorted|].
  unfold over_capacity_sessions. rewrite Hp. fold (live_on_worker w p). case_match eqn:E.
  - apply Z.leb_le in E. split_and!; [apply prefix_nil| |by left].
    intros v Hv Hne. by apply prefix_nil_inv in Hv.
  - apply Z.leb_gt in E. apply (shed_until_spec w _ [] p). intros v Hv. apply prefix_nil_inv in Hv as ->. exact E.
Qed.

(** ** Two sessions left behind *)

Lemma live_alone_forwards id p : state_of (session_of id p) = SLive -> pl_worker (se_place (session_of id p)) = None ->
  forall data t w f, (canvas_frame id data t p).1 ≠ DForward w f /\ (canvas_frame id data t p).1 ≠ DResume.
Proof.
  intros Hs Hw data t w f. assert (Ha : forall revision frame, (accept_frame id t revision frame p).1 = DNothing).
  { intros revision frame. unfold accept_frame. cbn. destruct (r_sessions p !! id) as [s|] eqn:E.
    - rewrite session_of_update by done. unfold state_of in *. cbn. by rewrite Hs, Hw.
    - rewrite session_of_update_none by done. by rewrite Hs, Hw. }
  unfold canvas_frame. repeat case_match; cbn; rewrite ?Ha; done.
Qed.
(** The wait of [assign] may time out in the moment the worker answers:
    the session is live and the browser is told that it is ready, but it has
    no worker and its slot was given back, and no frame it draws goes anywhere. *)
Theorem live_without_worker : exists p l,
  relay_run any_params (empty_relay, []) (p, l)
  /\ state_of (session_of SESSION p) = SLive /\ pl_worker (se_place (session_of SESSION p)) = None
  /\ mb_controls (se_mail (session_of SESSION p)) = [ready_event SESSION]
  /\ connected 0 p = true /\ free_slots (worker_at 0 p) = 1
  /\ forall data t w f, (canvas_frame SESSION data t p).1 ≠ DForward w f /\ (canvas_frame SESSION data t p).1 ≠ DResume.
Proof.
  exists (state_after ready_too_late), (tasks_after ready_too_late).
  split; [apply played_run; by vm_compute|].
  assert (Hs : state_of (session_of SESSION (state_after ready_too_late)) = SLive) by by vm_compute.
  assert (Hw : pl_worker (se_place (session_of SESSION (state_after ready_too_late))) = None) by by vm_compute.
  split_and!; [exact Hs|exact Hw|by vm_compute..|by apply live_alone_forwards].
Qed.

(** What a task of the browser waits for. *)
Definition waits_for_browser (t : prog op unit) : bool :=
  match t with Do (Receive _) _ => true | Do (Wait false _ _) _ => true | _ => false end.
(** [assign] does not count a socket that fails as the failure of its
    worker, so the task that admits a queued session dies: the session stays
    assigning on a worker that is gone, in no queue, with no task that places
    it, while another worker has room. *)
Theorem admitted_session_stranded : exists p l,
  relay_run any_params (empty_relay, []) (p, l)
  /\ state_of (session_of SESSION p) = SAssigning /\ pl_worker (se_place (session_of SESSION p)) = Some 0%nat
  /\ connected 0 p = false /\ queued_sessions p = [] /\ forallb (fun bp => waits_for_browser bp.2) l = true
  /\ pick_worker 7000 "sdxl" [] p = Some 1%nat.
Proof.
  exists (state_after lost_while_admitted), (tasks_after lost_while_admitted).
  split; [apply played_run; by vm_compute|]. split_and!; by vm_compute.
Qed.

(** ** Witnesses *)

Lemma ready_run : relay_run any_params (empty_relay, []) (state_after (live_on measured), tasks_after (live_on measured)).
Proof. apply played_run. by vm_compute. Qed.

Lemma slots_cover_sessions_witness :
  exists o, r_objects (state_after (live_on measured)) !! 0%nat = Some o
            /\ 0 <= Z.of_nat (size (on_worker 0 (state_after (live_on measured)))) <= rw_in_use o.
Proof.
  destruct (r_objects (state_after (live_on measured)) !! 0%nat) as [o|] eqn:Eo.
  - exists o. split; [done|]. exact (slots_cover_sessions any_params _ _ 0 o ready_run Eo).
  - exfalso. vm_compute in Eo. discriminate.
Defined.
Lemma measured_runs :
  relay_run any_params (empty_relay, []) (state_after (joined measured), tasks_after (joined measured))
  /\ relay_run any_params (state_after (joined measured), tasks_after (joined measured))
       (state_after (joined measured ++ opened_and_measured), tasks_after (joined measured ++ opened_and_measured)).
Proof. apply played_on. by vm_compute. Qed.
Lemma no_worker_overbooked_witness :
  exists o o', r_objects (state_after (joined measured)) !! 0%nat = Some o
    /\ r_objects (state_after (joined measured ++ opened_and_measured)) !! 0%nat = Some o'
    /\ rw_p95 o' = Some {["sdxl" := 200]} /\ models_on 0 [] (state_after (joined measured ++ opened_and_measured)) = ["sdxl"]
    /\ live_admission_cost 0 None [] (state_after (joined measured ++ opened_and_measured)) <= REALTIME_BAR_MS.
Proof.
  destruct (r_objects (state_after (joined measured)) !! 0%nat) as [o|] eqn:Eo; [|exfalso; vm_compute in Eo; discriminate].
  destruct (r_objects (state_after (joined measured ++ opened_and_measured)) !! 0%nat) as [o'|] eqn:Eo';
    [|exfalso; vm_compute in Eo'; discriminate].
  destruct measured_runs as [H0 H1]. exists o, o'. split; [done|]. split; [done|].
  destruct (no_worker_overbooked any_params _ _ _ _ 0 o o' H0 H1 Eo Eo') as (_ & _ & Hk).
  assert (Hp : rw_p95 o = Some {["sdxl" := 200]}) by (vm_compute in Eo; injection Eo as <-; vm_compute; reflexivity).
  assert (Hp' : rw_p95 o' = Some {["sdxl" := 200]}) by (vm_compute in Eo'; injection Eo' as <-; vm_compute; reflexivity).
  split; [exact Hp'|]. split; [vm_compute; reflexivity|].
  apply Hk; [congruence|]. left. vm_compute. discriminate.
Defined.
Lemma account_session_cap_witness :
  length (sessions_of (Some "user") (state_after (live_on measured))) = 1%nat
  /\ Z.of_nat (length (sessions_of (Some "user") (state_after (live_on measured)))) <= 2.
Proof. split; [by vm_compute|]. exact (account_session_cap any_params _ _ (Some "user") ready_run). Defined.
Lemma closing_runs :
  relay_run any_params (empty_relay, []) (state_after close_posted, tasks_after close_posted)
  /\ relay_run any_params (state_after close_posted, tasks_after close_posted)
       (state_after (close_posted ++ session_ends), tasks_after (close_posted ++ session_ends)).
Proof. apply played_on. by vm_compute. Qed.
Lemma posted_session : (fun s => (state_of s, mb_close (se_mail s))) <$> r_sessions (state_after close_posted) !! SESSION
  = Some (SLive, Some (1000, None)).
Proof. by vm_compute. Qed.
Lemma sessions_move_on_witness : exists s s',
  r_sessions (state_after close_posted) !! SESSION = Some s /\ state_of s = SLive
  /\ r_sessions (state_after (close_posted ++ session_ends)) !! SESSION = Some s' /\ se_model s' = se_model s
  /\ pl_generation (se_place s) <= pl_generation (se_place s').
Proof.
  pose proof posted_session as Hp. destruct (r_sessions (state_after close_posted) !! SESSION) as [s|] eqn:Es.
  - injection Hp as Hl _. destruct closing_runs as [H0 H1].
    destruct (sessions_move_on any_params _ _ _ _ SESSION s H0 H1 Es) as (s' & Hs' & Hm & _ & _ & Hg & _).
    exists s, s'. by split_and!.
  - discriminate Hp.
Defined.
Lemma close_is_final_witness : exists s s',
  r_sessions (state_after close_posted) !! SESSION = Some s /\ mb_close (se_mail s) = Some (1000, None)
  /\ r_sessions (state_after (close_posted ++ session_ends)) !! SESSION = Some s'
  /\ mb_close (se_mail s') = Some (1000, None) /\ mb_frame (se_mail s') = None.
Proof.
  pose proof posted_session as Hp. destruct (r_sessions (state_after close_posted) !! SESSION) as [s|] eqn:Es.
  - injection Hp as _ Hc. destruct closing_runs as [H0 H1].
    destruct (close_is_final any_params _ _ _ _ SESSION s _ H0 H1 Es Hc) as (s' & Hs' & Hc' & Hf & _).
    exists s, s'. by split_and!.
  - discriminate Hp.
Defined.
Lemma queue_is_told_witness :
  queued_sessions (state_after queued_up) = [SESSION]
  /\ told 1 (session_of SESSION (state_after queued_up)) (session_of SESSION (post_positions true (state_after queued_up))).
Proof.
  split; [by vm_compute|].
  destruct (queue_is_told any_params (state_after queued_up) (tasks_after queued_up)) as (_ & _ & Ht).
  - apply played_run. by vm_compute.
  - apply (Ht 0%nat). by vm_compute.
Defined.
(** The worker's frames take longer than the bar. *)
Definition overloaded : relay :=
  on_objects <[0%nat := {| rw_base := worker5 "gpu-2"; rw_slots := 1; rw_p95 := Some {["sdxl" := 600]}; rw_batch := Some ∅; rw_seen := 0 |}]>
    (state_after (live_on measured)).
Lemma shedding_suffices_witness :
  over_capacity_sessions 0 overloaded = [SESSION]
  /\ exists newest, newest ≡ₚ live_on_worker 0 overloaded /\ over_capacity_sessions 0 overloaded `prefix_of` newest.
Proof.
  split; [by vm_compute|].
  destruct (shedding_suffices 0 overloaded) as (newest & Hp & _ & Hpre & _).
  - by eexists.
  - by exists newest.
Defined.
