(* ===== verification/SignInTables.v ===== *)
(** * The tables of the ways into an account

    The rows of src/backend/app/tables.py that signing in, second factors,
    recovery and invitations read and write, next to those of AccountStore.v:
    the address of a user, the identities, the rest of a one-use link, the
    second factors and their recovery codes, the invitations, the redirects to
    a provider, the mail waiting to be sent.  Every insert checks the
    constraints of its table.  Also the password policy of passwords.py and the
    check of an address of enable.py.

    An awaited operation of a handler is an [op]; a handler is a program over
    them, as in Tasks.v, so that requests interleave at every await. *)

From S2P Require Import Prelude Hashes Json Encodings RateLimit Uuid Transactions AccountStore AuthSessions Accounts AccountsFacts Tasks.
Open Scope Z_scope.

(** ** Text *)

(** [str.lower] of a text with characters outside ASCII, and PostgreSQL's
    [lower(btrim(...))], which depends on the locale of the database. *)
Class Texts := { lower_unicode : string -> string; lower_btrim : string -> string }.

Definition lower_char (c : ascii) : ascii :=
  if (65 <=? byte_val c) && (byte_val c <=? 90) then val_byte (byte_val c + 32) else c.
Definition lower_text `{Texts} (s : string) : string :=
  if is_ascii s then string_of_chars (map lower_char (chars_of_string s)) else lower_unicode s.
(** [email.strip().lower()] *)
Definition normalized `{Texts} (email : string) : string := lower_text (strip_text email).

(** ** Passwords *)

(** argon2: a hash of a salt and a password, and whether a stored hash is one
    of a password; an exception of [verify] counts as a refusal. *)
Class Argon2 := { argon2_hash : string -> string -> string; argon2_verify : string -> string -> bool }.

Definition MIN_LENGTH : Z := 10.
Definition MAX_LENGTH : Z := 128.
Definition ABSENT_ACCOUNT_HASH : string :=
  "$argon2id$v=19$m=19456,t=2,p=1$5FGPgcOuWsn+UfdGOcCR4w$6e2EuqoQru8Lt94M3CDXgJ+41TbosnBsRzpe3yboRZU".

(** The lines of password_blocklist.txt. *)
Definition blocklist : list string :=
  [
    "000000000000000"; "0000000000000000"; "0123456789012345"; "0987654321qwerty"; "1029384756102938";
    "111111111111111"; "11111111111111111"; "1122334455667788"; "11223344556677889"; "121212121212121";
    "123123123123123"; "1234567890"; "123456789012345"; "1234567890123456"; "12345678901234567890";
    "1234qwerasdfzxcv"; "147258369147258"; "1478523691478523"; "1q2w3e4r5t"; "1q2w3e4r5t6y7u8i";
    "1qaz2wsx3edc4rfv"; "1qaz2wsx3edc4rfv5tgb"; "5555555555555555"; "7777777777777777"; "987654321987654";
    "9999999999999999"; "absolutely"; "adminadminadmin1"; "administrator123"; "administrator1234";
    "administratoradmin"; "administratorpassword"; "allworkandnoplay"; "allworkandnoplaymakesjack";
    "areallystrongpassword"; "asdfghjkl1234567"; "asdfghjklzxcvbnm"; "azertyuiopqsdfgh"; "barcelonabarcelona";
    "baseballbaseball"; "basketball"; "batmanbatman1234"; "businessbabe"; "california"; "changeme12345678";
    "charlie123"; "cheerleaers"; "christopher"; "cocksucker"; "contortionist"; "correcthorsebatterystaple";
    "correcthorsebatterystaple1"; "deepthroat"; "defaultpassword1"; "dockerdocker1234"; "dragonball";
    "dragondragon1234"; "ejaculation"; "enterprise"; "experience"; "experienced"; "films+pic+galeries";
    "footballfootball"; "forgotmypassword"; "frodobaggins1234"; "fuck_inside"; "fuckinside";
    "gandalfthegrey123"; "gangbanged"; "godisgood1234567"; "goodluckguessing"; "guestguestguest1";
    "hakunamatata1234"; "harleydavidson12"; "hastalavistababy"; "hellohellohello1"; "highlander";
    "hodorhodorhodor1"; "housewifes"; "idontknowmypassword"; "ilovemydog123456"; "ilovemyfamily123";
    "iloveyou12345678"; "iloveyouforever"; "iloveyouforever1"; "iloveyousomuch12"; "insertions"; "interacial";
    "intercourse"; "jenkinsjenkins12"; "jesuslovesme1234"; "justletmeinplease"; "klaatubaradanikto";
    "knickerless"; "kubernetes123456"; "letitgoletitgo12"; "letmeinalready123"; "letmeinletmein12";
    "letmeinplease123"; "lifeisgood123456"; "livelongandprosper"; "liverpoolliverpool"; "lockerroom";
    "loremipsumdolorsit"; "loremipsumdolorsitamet"; "manchester"; "manchesterunited"; "masterbaiting";
    "masterbate"; "masterbating"; "masterofpuppets1"; "masturbation"; "maytheforcebewithyou";
    "mnbvcxzlkjhgfdsa"; "monkeymonkeymonkey"; "motherfucker"; "mustangmustang12"; "mynameisinigomontoya";
    "mypasswordis1234"; "mysecretpassword"; "mysqlmysql123456"; "newpassword12345"; "nobodyknowsthis1";
    "opensesame123456"; "openthepodbaydoors"; "operator12345678"; "oraclepassword12"; "p@ssw0rdp@ssw0rd";
    "password12345678"; "password123456789"; "password1234567890"; "passwordpassword"; "passwordpassword1";
    "passwordpassword123"; "penetrating"; "penetration"; "peternorth"; "playstation"; "poiuytrewqlkjhgf";
    "pornographic"; "postgrespostgres"; "postov1000"; "primetime21"; "princessprincess"; "qazwsxedcrfvtgby";
    "quant4307s"; "qwerasdfzxcv1234"; "qwerty1234567890"; "qwertyuiop"; "qwertyuiop123456";
    "qwertyuiopasdfgh"; "qwertyuiopasdfghjkl"; "qwertyuiopqwertyuiop"; "qwertzuiopasdfgh"; "rootpassword1234";
    "rootrootrootroot"; "scandinavian"; "serviceaccount12"; "shadowshadowshadow"; "sunshinesunshine";
    "supercalifragilisticexpialidocious"; "supermansuperman"; "supersecretpassword"; "superuser1234567";
    "sysadmin12345678"; "techniques"; "temporarypassword"; "thequickbrownfox"; "thequickbrownfoxjumps";
    "thequickbrownfoxjumpsoverthelazydog"; "thereisnospoon12"; "thisisaverysecurepassword";
    "thisismypassword"; "thisisnotapassword"; "tobeornottobe123"; "tobeornottobethatisthequestion";
    "transexual"; "trustno1trustno1"; "trustnoonebutme1"; "unbelievable"; "uncencored"; "undertaker";
    "university"; "washington"; "webmaster1234567"; "welcome123456789"; "welcometothejungle";
    "welcomewelcome12"; "whatismypassword"; "winteriscoming12"; "youshallnotpass1"; "youshallnotpass123";
    "zaq12wsxcde34rfv"; "zxcvbnmasdfghjkl"
  ].

(** [None]: [PasswordRejected]. *)
Definition hash_password `{Texts} `{Argon2} (salt password : string) : option string :=
  let candidate := strip_text password in
  if (MAX_LENGTH <? text_length password)
     || negb ((MIN_LENGTH <=? text_length candidate) && (text_length candidate <=? MAX_LENGTH)) then None
  else if bool_decide (lower_text candidate ∈ blocklist) then None
  else Some (argon2_hash salt password).

Definition verify_password `{Argon2} (stored password : string) : bool := argon2_verify stored password.

(** ** Addresses *)

Definition MAX_EMAIL_LENGTH : Z := 320.
Definition NOT_IN_AN_ADDRESS : list Z := [44; 59; 60; 62; 34; 92; 32; 9; 13; 10].
Definition INVALID_EMAIL : exn := HTTPException 400 "invalid email address".

(** [text.partition("@")]; the second part is empty without an ["@"]. *)
Fixpoint partition_at (cs : list ascii) : list ascii * list ascii :=
  match cs with
  | [] => ([], [])
  | c :: cs => if byte_val c =? 64 then ([], cs) else let (l, d) := partition_at cs in (c :: l, d)
  end.

(** [_checked_email] *)
Definition checked_email (email : string) : result exn string :=
  let address := strip_text email in
  let cs := chars_of_string address in
  let (local, domain) := partition_at cs in
  if negb (Nat.eqb (length (filter (fun c => byte_val c = 64) cs)) 1)
     || bool_decide (local = []) || bool_decide (domain = [])
     || (MAX_EMAIL_LENGTH <? text_length address)
     || existsb (fun c => bool_decide (byte_val c ∈ NOT_IN_AN_ADDRESS)) cs
  then Err INVALID_EMAIL else Ok address.

(** ** Rows *)

Inductive provider : Type := password | google | github.
Global Instance provider_eq_dec : EqDecision provider.
Proof. solve_decision. Defined.
Definition provider_text (p : provider) : string :=
  match p with password => "password" | google => "google" | github => "github" end.

Record identity := { ai_user : Z; ai_provider : provider; ai_subject : string; ai_hash : option string }.
(** The columns of [auth_tokens] that [capability] leaves out. *)
Record link := { k_hash : string; k_attempts : Z; k_expires : Z }.
Record invitation := {
  in_email : string; in_role : role; in_by : option Z; in_user : option Z; in_hash : string;
  in_expires : Z; in_accepted : option Z; in_revoked : option Z; in_created : Z
}.
Record factor := {
  f_user : Z; f_secret : list Z; f_version : Z; f_last : option Z; f_tries : Z; f_confirmed : option Z
}.
Record recovery_code := { cd_user : Z; cd_hash : string; cd_consumed : option Z }.
Record oauth_flow := {
  fl_hash : string; fl_provider : provider; fl_verifier : string; fl_nonce : string; fl_link : option Z;
  fl_expires : Z; fl_consumed : option Z
}.
Record mail := { ml_to : string; ml_template : string; ml_link : string }.
Record audit_row := {
  au_action : string; au_actor : option Z; au_target : option Z; au_objects : list string; au_high : bool
}.
Inductive auth_mode : Type := unclaimed | none | accounts.
Global Instance auth_mode_eq_dec : EqDecision auth_mode.
Proof. solve_decision. Defined.

(** [drawn] and [hashes] are no state of the code: the identifiers drawn so far
    and the hashes of the tokens, which never repeat. *)
Record ways := {
  base : system;
  emails : gmap Z string;
  identities : gmap Z identity;
  links : gmap Z link;
  factors : gmap Z factor;
  codes : gmap Z recovery_code;
  invitations : gmap Z invitation;
  flows : gmap Z oauth_flow;
  outbox : list mail;
  suppressed : gset string;
  tries : attempt_table;
  decided : option auth_mode;
  audits : list audit_row;
  drawn : gset Z;
  hashes : gset string
}.

Definition people (s : ways) : gmap Z user := users (state (base s)).
Definition tokens (s : ways) : gmap Z capability := capabilities (state (base s)).
Definition live_rows (s : ways) : gmap Z session_row := sessions (state (base s)).

Definition with_base (b : system) (s : ways) : ways :=
  {| base := b; emails := emails s; identities := identities s; links := links s; factors := factors s;
     codes := codes s; invitations := invitations s; flows := flows s; outbox := outbox s;
     suppressed := suppressed s; tries := tries s; decided := decided s; audits := audits s;
     drawn := drawn s; hashes := hashes s |}.
Definition on_emails (f : gmap Z string -> gmap Z string) (s : ways) : ways :=
  {| base := base s; emails := f (emails s); identities := identities s; links := links s;
     factors := factors s; codes := codes s; invitations := invitations s; flows := flows s;
     outbox := outbox s; suppressed := suppressed s; tries := tries s; decided := decided s;
     audits := audits s; drawn := drawn s; hashes := hashes s |}.
Definition on_identities (f : gmap Z identity -> gmap Z identity) (s : ways) : ways :=
  {| base := base s; emails := emails s; identities := f (identities s); links := links s;
     factors := factors s; codes := codes s; invitations := invitations s; flows := flows s;
     outbox := outbox s; suppressed := suppressed s; tries := tries s; decided := decided s;
     audits := audits s; drawn := drawn s; hashes := hashes s |}.
Definition on_links (f : gmap Z link -> gmap Z link) (s : ways) : ways :=
  {| base := base s; emails := emails s; identities := identities s; links := f (links s);
     factors := factors s; codes := codes s; invitations := invitations s; flows := flows s;
     outbox := outbox s; suppressed := suppressed s; tries := tries s; decided := decided s;
     audits := audits s; drawn := drawn s; hashes := hashes s |}.
Definition on_factors (f : gmap Z factor -> gmap Z factor) (s : ways) : ways :=
  {| base := base s; emails := emails s; identities := identities s; links := links s;
     factors := f (factors s); codes := codes s; invitations := invitations s; flows := flows s;
     outbox := outbox s; suppressed := suppressed s; tries := tries s; decided := decided s;
     audits := audits s; drawn := drawn s; hashes := hashes s |}.
Definition on_codes (f : gmap Z recovery_code -> gmap Z recovery_code) (s : ways) : ways :=
  {| base := base s; emails := emails s; identities := identities s; links := links s;
     factors := factors s; codes := f (codes s); invitations := invitations s; flows := flows s;
     outbox := outbox s; suppressed := suppressed s; tries := tries s; decided := decided s;
     audits := audits s; drawn := drawn s; hashes := hashes s |}.
Definition on_invitations (f : gmap Z invitation -> gmap Z invitation) (s : ways) : ways :=
  {| base := base s; emails := emails s; identities := identities s; links := links s;
     factors := factors s; codes := codes s; invitations := f (invitations s); flows := flows s;
     outbox := outbox s; suppressed := suppressed s; tries := tries s; decided := decided s;
     audits := audits s; drawn := drawn s; hashes := hashes s |}.
Definition on_flows (f : gmap Z oauth_flow -> gmap Z oauth_flow) (s : ways) : ways :=
  {| base := base s; emails := emails s; identities := identities s; links := links s;
     factors := factors s; codes := codes s; invitations := invitations s; flows := f (flows s);
     outbox := outbox s; suppressed := suppressed s; tries := tries s; decided := decided s;
     audits := audits s; drawn := drawn s; hashes := hashes s |}.
Definition post (l : mail) (s : ways) : ways :=
  {| base := base s; emails := emails s; identities := identities s; links := links s;
     factors := factors s; codes := codes s; invitations := invitations s; flows := flows s;
     outbox := outbox s ++ [l]; suppressed := suppressed s; tries := tries s; decided := decided s;
     audits := audits s; drawn := drawn s; hashes := hashes s |}.
Definition with_tries (rows : attempt_table) (s : ways) : ways :=
  {| base := base s; emails := emails s; identities := identities s; links := links s;
     factors := factors s; codes := codes s; invitations := invitations s; flows := flows s;
     outbox := outbox s; suppressed := suppressed s; tries := rows; decided := decided s;
     audits := audits s; drawn := drawn s; hashes := hashes s |}.
Definition decide_on (m : auth_mode) (s : ways) : ways :=
  {| base := base s; emails := emails s; identities := identities s; links := links s;
     factors := factors s; codes := codes s; invitations := invitations s; flows := flows s;
     outbox := outbox s; suppressed := suppressed s; tries := tries s; decided := Some m;
     audits := audits s; drawn := drawn s; hashes := hashes s |}.
Definition record_audit (a : audit_row) (s : ways) : ways :=
  {| base := base s; emails := emails s; identities := identities s; links := links s;
     factors := factors s; codes := codes s; invitations := invitations s; flows := flows s;
     outbox := outbox s; suppressed := suppressed s; tries := tries s; decided := decided s;
     audits := audits s ++ [a]; drawn := drawn s; hashes := hashes s |}.
Definition remember (ids : gset Z) (hs : gset string) (s : ways) : ways :=
  {| base := base s; emails := emails s; identities := identities s; links := links s;
     factors := factors s; codes := codes s; invitations := invitations s; flows := flows s;
     outbox := outbox s; suppressed := suppressed s; tries := tries s; decided := decided s;
     audits := audits s; drawn := ids ∪ drawn s; hashes := hs ∪ hashes s |}.

(** ** Statements *)

(** A statement on the tables of AccountStore.v. *)
Definition in_base {A} (t : txn world A) : txn ways A := fun s =>
  match t (state (base s)) with
  | Ok (a, w) => Ok (a, with_base {| state := w; claimed := claimed (base s) |} s)
  | Err e => Err e
  end.
(** A constraint the database refuses a statement for. *)
Definition refuse (violated : ways -> bool) (constraint : string) : txn ways unit := fun s =>
  if violated s then Err (IntegrityError constraint) else Ok (tt, s).

Definition some_row {A} (p : A -> Prop) `{forall x, Decision (p x)} (rows : gmap Z A) : bool :=
  bool_decide (map_Exists (fun _ r => p r) rows).
(** [SELECT ... WHERE ...] with [.first()] *)
Definition find_row {A} (p : Z -> A -> bool) (rows : gmap Z A) : option (Z * A) :=
  snd <$> list_find (fun kv : Z * A => p kv.1 kv.2) (map_to_list rows).
Definition held {A} (id : Z) (rows : gmap Z A) : bool := bool_decide (is_Some (rows !! id)).

Section Statements.
Context `{Texts}.

Definition insert_user (id : Z) (email : string) (u : user) : txn ways unit :=
_ ← refuse (fun s => held id (people s)) "users_pkey";
_ ← refuse (fun s => some_row (fun e => e = email) (emails s)) "users_email_key";
_ ← refuse (fun s => some_row (fun e => lower_btrim e = lower_btrim email) (emails s)) "users_email_normalized";
_ ← write (on_emails (insert id email));
in_base (write (on_users (insert id u))).

(** [UPDATE users SET email = ... WHERE id = ...] *)
Definition set_email (id : Z) (email : string) : txn ways unit :=
_ ← refuse (fun s => some_row (fun e => e = email) (delete id (emails s))) "users_email_key";
_ ← refuse (fun s => some_row (fun e => lower_btrim e = lower_btrim email) (delete id (emails s)))
      "users_email_normalized";
write (on_emails (alter (fun _ => email) id)).

Definition insert_identity (id : Z) (r : identity) : txn ways unit :=
_ ← refuse (fun s => held id (identities s)) "auth_identities_pkey";
_ ← refuse (fun s => negb (held (ai_user r) (people s))) "auth_identities_user_id_fkey";
_ ← refuse (fun _ => negb (Bool.eqb (bool_decide (ai_provider r = password)) (bool_decide (is_Some (ai_hash r)))))
      "auth_identities_password_hash";
_ ← refuse (fun s => some_row (fun q => ai_provider q = ai_provider r /\ ai_subject q = ai_subject r) (identities s))
      "auth_identities_provider_subject";
_ ← refuse (fun s => bool_decide (ai_provider r = password)
                     && some_row (fun q => ai_provider q = password /\ ai_user q = ai_user r) (identities s))
      "auth_identities_one_password";
_ ← refuse (fun s => bool_decide (ai_provider r = password)
                     && some_row (fun q => ai_provider q = password
                                           /\ lower_btrim (ai_subject q) = lower_btrim (ai_subject r)) (identities s))
      "auth_identities_password_subject";
write (on_identities (insert id r)).

(** The password identity of an account gets another subject. *)
Definition set_subject (user_id : Z) (subject : string) : txn ways unit :=
let mine q := ai_provider q = password /\ ai_user q = user_id in
_ ← refuse (fun s => some_row mine (identities s)
                     && some_row (fun q => ai_provider q = password /\ ai_user q <> user_id /\ ai_subject q = subject)
                          (identities s))
      "auth_identities_provider_subject";
_ ← refuse (fun s => some_row mine (identities s)
                     && some_row (fun q => ai_provider q = password /\ ai_user q <> user_id
                                           /\ lower_btrim (ai_subject q) = lower_btrim subject) (identities s))
      "auth_identities_password_subject";
write (on_identities (fmap (fun q =>
  if bool_decide (ai_provider q = password /\ ai_user q = user_id)
  then {| ai_user := ai_user q; ai_provider := ai_provider q; ai_subject := subject; ai_hash := ai_hash q |} else q))).

(** [session.add(AuthToken(...))] *)
Definition insert_link (id : Z) (c : capability) (k : link) : txn ways unit :=
_ ← refuse (fun s => held id (tokens s)) "auth_tokens_pkey";
_ ← refuse (fun s => match c_user c with Some u => negb (held u (people s)) | None => false end)
      "auth_tokens_user_id_fkey";
_ ← refuse (fun s => some_row (fun q => k_hash q = k_hash k) (links s)) "auth_tokens_token_hash_key";
_ ← write (on_links (insert id k));
in_base (write (on_capabilities (insert id c))).

Definition insert_invitation (id : Z) (r : invitation) : txn ways unit :=
_ ← refuse (fun s => held id (invitations s)) "invitations_pkey";
_ ← refuse (fun s => match in_by r with Some u => negb (held u (people s)) | None => false end)
      "invitations_invited_by_fkey";
_ ← refuse (fun s => some_row (fun q => in_hash q = in_hash r) (invitations s)) "invitations_token_hash_key";
_ ← refuse (fun s => some_row (fun q => in_accepted q = None /\ in_revoked q = None
                                        /\ lower_btrim (in_email q) = lower_btrim (in_email r)) (invitations s))
      "invitations_one_open";
write (on_invitations (insert id r)).

Definition insert_factor (id : Z) (r : factor) : txn ways unit :=
_ ← refuse (fun s => held id (factors s)) "auth_factors_pkey";
_ ← refuse (fun s => negb (held (f_user r) (people s))) "auth_factors_user_id_fkey";
_ ← refuse (fun s => some_row (fun q => f_user q = f_user r) (factors s)) "auth_factors_one_per_kind";
write (on_factors (insert id r)).

Definition insert_code (id : Z) (r : recovery_code) : txn ways unit :=
_ ← refuse (fun s => held id (codes s)) "recovery_codes_pkey";
_ ← refuse (fun s => negb (held (cd_user r) (people s))) "recovery_codes_user_id_fkey";
_ ← refuse (fun s => some_row (fun q => cd_user q = cd_user r /\ cd_hash q = cd_hash r) (codes s))
      "recovery_codes_unique";
write (on_codes (insert id r)).

Definition insert_flow (id : Z) (r : oauth_flow) : txn ways unit :=
_ ← refuse (fun s => held id (flows s)) "oauth_flows_pkey";
_ ← refuse (fun s => some_row (fun q => fl_hash q = fl_hash r) (flows s)) "oauth_flows_state_hash_key";
write (on_flows (insert id r)).

End Statements.

(** ** Links *)

(** [WHERE token_hash = ... AND purpose IN (...) AND consumed_at IS NULL AND
    expires_at > now()] *)
Definition open_link (hash : string) (purposes : list purpose) (now : Z) (s : ways) (id : Z) (k : link) : bool :=
  match tokens s !! id with
  | Some c => bool_decide (k_hash k = hash) && bool_decide (c_purpose c ∈ purposes)
              && bool_decide (c_consumed c = None) && (now <? k_expires k)
  | None => false
  end.
Definition find_link (hash : string) (purposes : list purpose) (now : Z) (s : ways) : option (Z * option Z) :=
  match find_row (open_link hash purposes now s) (links s) with
  | Some (id, _) => (fun c => (id, c_user c)) <$> tokens s !! id
  | None => None
  end.
Definition consume_link (now id : Z) : world -> world := on_capabilities (alter (set_consumed now) id).
(** [UPDATE ... SET consumed_at = now() ... RETURNING user_id] *)
Definition spend_link (hash : string) (purposes : list purpose) (now : Z) : txn ways (option (Z * option Z)) :=
  found ← read (find_link hash purposes now);
  match found with
  | Some (id, user_id) => _ ← in_base (write (consume_link now id)); mret (Some (id, user_id))
  | None => mret None
  end.

(** ** Drawn values and handlers *)

(** What a transaction may draw: identifiers, random texts, a salt and a nonce,
    and the cookie of a session. *)
Record draws := {
  dr_user : Z; dr_row : Z; dr_rows : list Z; dr_token : string; dr_verifier : string; dr_mark : string; dr_salt : string;
  dr_nonce : list Z; dr_session : draw
}.
Definition drawn_ids (d : draws) : list Z := dr_user d :: dr_row d :: d_id (dr_session d) :: dr_rows d.

(** An awaited operation: a transaction, whether there is a database, the
    clock, the charge of a sign-in attempt, a message to another part, a row
    for the audit, and the exchange of a code with a provider, which fails with
    [None] when the provider's answer was not acceptable. *)
Record provider_identity := { pi_subject : string; pi_email : string }.
Inductive op : Type -> Type :=
| Txn {A} (t : moment -> draws -> txn ways A) : op (result exn A)
| Factory : op bool
| Clock : op Z
| Charge (f : clock -> option attempt_table -> result exn Z * option attempt_table) : op (result exn Z)
| Tell (c : AccountStore.call) : op unit
| Audit (a : audit_row) : op unit
| Exchange (p : provider) (code verifier nonce : string) : op (result exn (option provider_identity)).

Definition query {A} (t : moment -> draws -> txn ways A) : handler op A := attempt (Txn t).
Definition tell (c : AccountStore.call) : handler op unit := call (Tell c).
Definition audit (action : string) (actor target : option Z) (objects : list string) (high : bool) : handler op unit :=
  call (Audit {| au_action := action; au_actor := actor; au_target := target; au_objects := objects; au_high := high |}).
(** [if db.session_factory is None: raise ...] *)
Definition need_database (e : exn) : handler op unit :=
  b ← call Factory; if (b : bool) then mret tt else throw e.

(** [LookupError], by one of its two kinds. *)
Definition LookupError (msg : string) : exn := KeyError msg.

(** sessions.py, as the handlers call it. *)
Definition NO_DATABASE : exn := RuntimeError "database unavailable".
Definition mint_session (user_id : Z) (u : user) (remember_me : bool) : handler op issued :=
  _ ← need_database NO_DATABASE;
  query (fun m d => in_base (mint_in m (dr_session d) user_id u remember_me false)).
Definition resolve_session (token : string) : handler op (option resolved) :=
  _ ← need_database NO_DATABASE;
  query (fun m _ => in_base (resolve_in (m_now m) token)).
Definition end_session (session_id : Z) : handler op unit :=
  _ ← need_database NO_DATABASE;
  owner ← query (fun m _ => in_base (revoke_in m session_id));
  match owner with
  | Some owner => tell (close_sockets owner (Some session_id) None)
  | None => mret tt
  end.
(** [_presented_session] *)
Definition presented_session (cookie : option string) : handler op (option resolved) :=
  match cookie with
  | Some token => if bool_decide (token = "") then mret None else resolve_session token
  | None => mret None
  end.
Definition close_others (p : resolved) : handler op unit :=
  tell (close_sockets (r_user_id p) None (Some (r_id p))).

(** ** The principal of a request (auth.py) *)

Definition CANNOT_SIGN_IN : list account_state := [disabled; deletion_pending; purging].
Definition cannot_sign_in (u : user) : bool := bool_decide (u_state u ∈ CANNOT_SIGN_IN).
Definition UNAUTHENTICATED : exn := HTTPException 401 "authentication required".
Definition STALE : exn := HTTPException 403 "recent authentication required".
Definition SUSPENDED : exn := HTTPException 403 "account suspended".

(** [current_principal], given the token presented and whether the checks of
    the request's origin and CSRF header passed. *)
Definition current_principal (token : option string) (checked : result exn unit) : handler op resolved :=
  _ ← need_database (HTTPException 503 "account dependencies unavailable");
  match token with
  | None => throw UNAUTHENTICATED
  | Some token =>
      found ← resolve_session token;
      match found with
      | None => throw UNAUTHENTICATED
      | Some p =>
          match checked with
          | Err e => throw e
          | Ok _ => if cannot_sign_in (r_user p) then throw UNAUTHENTICATED else mret p
          end
      end
  end.
(** [if not sessions.is_recent(principal.session): raise ...], and the refusal
    of an account that is not active. *)
Definition need_recent (p : resolved) : handler op unit :=
  now ← call Clock; if is_recent now (r_session p) then mret tt else throw STALE.
Definition need_active (p : resolved) : handler op unit :=
  if bool_decide (u_state (r_user p) = active) then mret tt else throw SUSPENDED.
(** credentials.py: [recent_principal] *)
Definition recent_principal (token : option string) (checked : result exn unit) : handler op resolved :=
  p ← current_principal token checked;
  _ ← need_recent p;
  _ ← need_active p;
  mret p.

(** [require_role("admin")] on a route that changes something; [action] is the
    route's name in the audit. *)
Definition administrator (action : string) (token : option string) (checked : result exn unit) : handler op resolved :=
  p ← current_principal token checked;
  if bool_decide (u_state (r_user p) = suspended) then throw SUSPENDED
  else if bool_decide (u_role (r_user p) = admin) then
    _ ← audit action (Some (r_user_id p)) None [] false; mret p
  else
    _ ← audit action (Some (r_user_id p)) None [] true; throw (HTTPException 403 "insufficient role").

(** ** Mail *)

(** [url.rstrip("/")] *)
Definition rstrip_slash (s : string) : string :=
  reverse_string (strip_left (fun c => byte_val c =? 47) (reverse_string s "")) "".
Definition page_link (public_url page token : string) : string :=
  rstrip_slash public_url +:+ "/" +:+ page +:+ "#" +:+ token.

(** mail.py: [queue]; [sends] is whether a mail backend is configured. *)
Definition queue_mail `{Texts} (sends : bool) (to template link : string) : txn ways bool :=
  if negb sends then mret false
  else
    s ← read (fun s => bool_decide (normalized to ∈ suppressed s));
    if (s : bool) then mret false
    else _ ← write (post {| ml_to := to; ml_template := template; ml_link := link |}); mret true.
