(* ===== verification/Factors.v ===== *)
(** * The second factor

    Models src/backend/app/factors.py: the gate a sign-in passes through, the
    challenge it may be answered with, what a presented code proves and what
    spending the proof costs, and enrolling, replacing and removing a factor.
    A sealed enrolment is its bytes; the base64 text around them and the
    provisioning URI are left out. *)

From S2P Require Import Prelude PyFloat Hashes Json Protocol6 Uuid PyInt Encodings Totp KeyRing RateLimit Transactions AccountStore AuthSessions Accounts AccountsFacts Tasks SignInTables.
Open Scope Z_scope.

Definition TOTP_PURPOSE : string := "totp-factors".
Definition ENROLMENT_PURPOSE : string := "totp-enrolment".
Definition ONE_FACTOR_PER_ACCOUNT : string := "auth_factors_one_per_kind".
Definition ENROLMENT_TTL : Z := 30 * minute.
Definition CHALLENGE_TTL : Z := 10 * minute.
Definition MAX_ATTEMPTS : Z := 10.
Definition REFUSED : exn := HTTPException 403 "that code is not valid".
Definition BUSY_SIGN_IN : exn := HTTPException 503 "too many sign-ins at once".

(** [enrolled_factor]: the factor row of the account, if a code confirmed it. *)
Definition enrolled_factor (user_id : Z) (s : ways) : option (Z * factor) :=
  find_row (fun _ f => (f_user f =? user_id) && bool_decide (is_Some (f_confirmed f))) (factors s).

Definition hold_for_sign_in (m : moment) (user_id : Z) : txn ways unit :=
  if m_gate m (budget_lock user_id) then mret tt else raise BUSY_SIGN_IN.

(** The transaction of [mint_behind_the_gate]: the session, and only while the
    account's factor is the expected one. *)
Definition gate_in (user_id : Z) (u : user) (remember_me : bool) (expected : option Z) (m : moment) (d : draws)
  : txn ways (option issued) :=
  _ ← hold_for_sign_in m user_id;
  current ← read (enrolled_factor user_id);
  if decide (fst <$> current = expected)
  then i ← in_base (mint_in m (dr_session d) user_id u remember_me true); mret (Some i)
  else mret None.
Definition mint_behind_the_gate (user_id : Z) (u : user) (remember_me : bool) (expected : option Z)
  : handler op (option issued) :=
  _ ← need_database DATABASE_UNAVAILABLE; query (gate_in user_id u remember_me expected).

(** ** Challenges *)

Definition is_challenge (user_id now : Z) (s : ways) (id : Z) (k : link) : bool :=
  match tokens s !! id with
  | Some c => bool_decide (c_user c = Some user_id) && bool_decide (c_purpose c = challenge)
              && bool_decide (c_consumed c = None) && (now <? k_expires k)
  | None => false
  end.
(** The outstanding challenges of an account, and the attempts on them. *)
Definition outstanding (user_id now : Z) (s : ways) : gmap Z link :=
  filter (fun kv : Z * link => is_challenge user_id now s kv.1 kv.2 = true) (links s).
Definition carried (user_id now : Z) (s : ways) : Z :=
  map_fold (fun _ k n => k_attempts k + n) 0 (outstanding user_id now s).
Definition consume_links (ids : gset Z) (now : Z) : world -> world :=
  on_capabilities (map_imap (fun id c => Some (if decide (id ∈ ids) then set_consumed now c else c))).

(** The transaction of [begin_challenge]: one challenge replaces the others and
    carries their attempts on. *)
Definition begin_in (user_id : Z) (m : moment) (d : draws) : txn ways string :=
  _ ← hold_for_sign_in m user_id;
  spent ← read (outstanding user_id (m_now m));
  attempts ← read (carried user_id (m_now m));
  _ ← in_base (write (consume_links (dom spent) (m_now m)));
  _ ← insert_link (dr_row d) {| c_user := Some user_id; c_purpose := challenge; c_consumed := None |}
        {| k_hash := token_hash (dr_token d); k_attempts := attempts; k_expires := m_now m + CHALLENGE_TTL |};
  mret (dr_token d).
(** What a sign-in is answered with: a session, or the token of a challenge and
    whether the remember cookie is set. *)
Inductive signed : Type := Session (i : issued) | Challenge (token : string) (remember : bool).
Definition begin_challenge (user_id : Z) (remember_me : bool) : handler op signed :=
  _ ← need_database DATABASE_UNAVAILABLE;
  token ← query (begin_in user_id);
  mret (Challenge token remember_me).

(** The count that comes before the code is looked at. *)
Definition count_attempt (id : Z) : ways -> ways :=
  on_links (alter (fun k => {| k_hash := k_hash k; k_attempts := k_attempts k + 1; k_expires := k_expires k |}) id).
Definition answerable (hash : string) (now : Z) (s : ways) (id : Z) (k : link) : bool :=
  open_link hash [challenge] now s id k && (k_attempts k <? MAX_ATTEMPTS).
Definition claim_attempt (cookie : string) (m : moment) (d : draws) : txn ways (option (Z * option Z)) :=
  found ← read (fun s => match find_row (answerable (token_hash cookie) (m_now m) s) (links s) with
                         | Some (id, _) => (fun c => (id, c_user c)) <$> tokens s !! id
                         | None => None
                         end);
  match found with
  | Some (id, owner) => _ ← write (count_attempt id); mret (Some (id, owner))
  | None => mret None
  end.

(** ** Proofs *)

Inductive proof : Type := ByCode (id : Z) | ByStep (step : Z).

Section Factors.
Context `{Texts} `{CryptoOps}.
(** [keyring.get_key_ring()] *)
Variable ring : result exn key_ring.

Definition code_hash (code : string) : string := sha256 (lower_text (strip_text code)).
Definition find_code (user_id : Z) (code : string) (s : ways) : option Z :=
fst <$> find_row (fun _ c => (cd_user c =? user_id) && bool_decide (cd_hash c = code_hash code)
                            && bool_decide (cd_consumed c = None)) (codes s).
(** [_recovery_proof] *)
Definition recovery_proof (user_id : Z) (code : string) : handler op (option proof) :=
b ← call Factory;
if (b : bool) then
  found ← query (fun _ _ => read (find_code user_id code));
  mret (ByCode <$> found)
else mret None.

(** The secret of a factor, or nothing when it cannot be read. *)
Definition secret_of (user_id : Z) (f : factor) : option string :=
match (r ← ring; decrypt r TOTP_PURPOSE (f_secret f) (be_bytes 16 user_id)) with
| Ok bytes => let text := string_of_bytes bytes in if utf8_valid text then Some text else None
| Err _ => None
end.
(** [_totp_proof] *)
Definition totp_proof (code : string) (user_id : Z) (f : factor) (now : Z) : result exn (option proof) :=
match secret_of user_id f with
| None => Ok None
| Some secret =>
    match matched_step secret code (now / 1000000) with
    | Ok step => Ok (ByStep <$> step)
    | Err e => Err e
    end
end.
Definition prove_step (code : string) (user_id : Z) (f : factor) : handler op (option proof) :=
now ← call Clock;
match totp_proof code user_id f now with Ok p => mret p | Err e => throw e end.
(** [_verify] *)
Definition verify_code (code : string) (user_id : Z) (f : factor) : handler op (option proof) :=
recovered ← recovery_proof user_id code;
match recovered with Some p => mret (Some p) | None => prove_step code user_id f end.

Definition use_code (now id : Z) : ways -> ways :=
on_codes (alter (fun c => {| cd_user := cd_user c; cd_hash := cd_hash c; cd_consumed := Some now |}) id).
Definition use_step (step id : Z) : ways -> ways :=
on_factors (alter (fun f => {| f_user := f_user f; f_secret := f_secret f; f_version := f_version f;
                               f_last := Some step; f_tries := f_tries f; f_confirmed := f_confirmed f |}) id).
Definition code_unspent (id : Z) (s : ways) : bool :=
match codes s !! id with Some c => bool_decide (cd_consumed c = None) | None => false end.
Definition step_unspent (id step : Z) (s : ways) : bool :=
match factors s !! id with
| Some f => match f_last f with None => true | Some last => last <? step end
| None => false
end.
(** [_spend], in the caller's transaction. *)
Definition spend (m : moment) (factor_id : Z) (p : proof) : txn ways bool :=
match p with
| ByCode id =>
    unspent ← read (code_unspent id);
    if (unspent : bool) then _ ← write (use_code (m_now m) id); mret true else mret false
| ByStep step =>
    unspent ← read (step_unspent factor_id step);
    if (unspent : bool) then _ ← write (use_step step factor_id); mret true else mret false
end.

Definition set_tries (f : Z -> Z) (id : Z) : ways -> ways :=
on_factors (alter (fun r => {| f_user := f_user r; f_secret := f_secret r; f_version := f_version r;
                               f_last := f_last r; f_tries := f (f_tries r); f_confirmed := f_confirmed r |}) id).

(** ** Answering a challenge *)

(** The transaction that wins the challenge and spends the proof. *)
Definition win_in (link_id factor_id : Z) (p : proof) (m : moment) (d : draws) : txn ways unit :=
won ← read (fun s => match tokens s !! link_id with Some c => bool_decide (c_consumed c = None) | None => false end);
if negb (won : bool) then raise REFUSED
else
  _ ← in_base (write (consume_link (m_now m) link_id));
  spent ← spend m factor_id p;
  if negb (spent : bool) then raise REFUSED
  else write (set_tries (fun _ => 0) factor_id).

Definition read_account (user_id : Z) : txn ways (option user * option (Z * factor)) :=
read (fun s => (people s !! user_id, enrolled_factor user_id s)).

(** POST /api/v1/auth/totp, with the challenge cookie and the remember cookie. *)
Definition answer_challenge (cookie : option string) (remembered : bool) (code : string) : handler op issued :=
_ ← need_database DATABASE_UNAVAILABLE;
match cookie with
| None => throw REFUSED
| Some cookie =>
    if bool_decide (cookie = "") then throw REFUSED else
    claimed ← query (claim_attempt cookie);
    match claimed with
    | Some (link_id, Some user_id) =>
        found ← query (fun _ _ => read_account user_id);
        match found with
        | (Some u, Some (factor_id, f)) =>
            if cannot_sign_in u then throw REFUSED
            else
              p ← verify_code code user_id f;
              match p with
              | None => throw REFUSED
              | Some p =>
                  _ ← query (win_in link_id factor_id p);
                  i ← mint_behind_the_gate user_id u remembered (Some factor_id);
                  match i with Some i => mret i | None => throw REFUSED end
              end
        | _ => throw REFUSED
        end
    | _ => throw REFUSED
    end
end.

(** ** Enrolling *)

(** [json.dumps({"secret": ..., "codes": ..., "expires": ...})] *)
Definition enrolment_text (secret : string) (cs : list string) (expires : Z) : result exn string :=
e ← dump_int expires;
Ok ("{" +:+ dump_string "secret" +:+ ": " +:+ dump_string secret +:+ ", " +:+ dump_string "codes" +:+ ": ["
    +:+ join ", " (map dump_string cs) +:+ "], " +:+ dump_string "expires" +:+ ": " +:+ e +:+ "}").
(** [_sealed_enrolment]; the clock is in microseconds. *)
Definition sealed_enrolment (nonce : list Z) (user_id : Z) (secret : string) (cs : list string) (now : Z)
  : result exn (list Z) :=
r ← ring;
text ← enrolment_text secret cs ((now + ENROLMENT_TTL) / 1000000);
encrypt r nonce ENROLMENT_PURPOSE (bytes_of_string text) (be_bytes 16 user_id).

(** [json.loads]: of two equal keys the last counts.  What was sealed holds no
    [NaN] or [Infinity]. *)
Definition plain_loads (text : string) : result exn json := loads (fun ps => Ok (update_with ps [])) (Ok JNull) text.
Definition as_texts (v : json) : result exn (list string) :=
match v with
| JList l => traverse (fun x => match x with JStr t => Ok t | _ => Err (TypeError "not a text") end) l
| _ => Err (TypeError "not a list")
end.
(** [_opened_enrolment]: whatever cannot be read is refused; what reads is
    what this server sealed, three fields of their types. *)
Definition opened_enrolment (user_id : Z) (sealed : list Z) (now : Z) : result exn (string * list string) :=
match (r ← ring;
       bytes ← decrypt r ENROLMENT_PURPOSE sealed (be_bytes 16 user_id);
       opened ← plain_loads (string_of_bytes bytes);
       match opened with
       | JDict d =>
           secret ← item d "secret"; cs ← item d "codes"; expires ← item d "expires";
           cs ← as_texts cs;
           match secret, expires with
           | JStr secret, JInt expires => Ok (secret, cs, expires)
           | _, _ => Err (TypeError "not an enrolment")
           end
       | _ => Err (TypeError "not an enrolment")
       end) with
| Err _ => Err REFUSED
| Ok (secret, cs, expires) => if expires * 1000000 <=? now then Err REFUSED else Ok (secret, cs)
end.

(** POST /api/v1/account/totp: nothing is written. *)
Definition start_enrolment (token : option string) (checked : result exn unit) (secret_bytes nonce : list Z)
    (code_draws : list string) : handler op (string * list string * list Z) :=
p ← current_principal token checked;
_ ← need_recent p;
_ ← need_active p;
now ← call Clock;
let secret := new_secret secret_bytes in
match new_recovery_codes code_draws with
| None => throw (RuntimeError "not enough randomness")
| Some cs =>
    match sealed_enrolment nonce (r_user_id p) secret cs now with
    | Ok sealed => mret (secret, cs, sealed)
    | Err e => throw e
    end
end.

(** [_spend_replacement_attempt] *)
Definition spend_replacement_attempt (factor_id : Z) (m : moment) (d : draws) : txn ways bool :=
left ← read (fun s => match factors s !! factor_id with Some f => f_tries f <? MAX_ATTEMPTS | None => false end);
if (left : bool) then _ ← write (set_tries (fun n => n + 1) factor_id); mret true else mret false.

(** The proof of the factor to replace or remove: a recovery code is looked for
    before a try is charged. *)
Definition prove_held (user_id : Z) (code : string) (factor_id : Z) (f : factor) : handler op proof :=
recovered ← recovery_proof user_id code;
match recovered with
| Some p => mret p
| None =>
    spent ← query (spend_replacement_attempt factor_id);
    if negb (spent : bool) then throw REFUSED
    else
      p ← prove_step code user_id f;
      match p with Some p => mret p | None => throw REFUSED end
end.

Definition drop_codes (user_id : Z) : ways -> ways :=
on_codes (filter (fun kc : Z * recovery_code => cd_user kc.2 <> user_id)).
(** Spend the proof and delete the factor it proved. *)
Definition take_off (m : moment) (user_id factor_id : Z) (p : proof) : txn ways unit :=
spent ← spend m factor_id p;
if negb (spent : bool) then raise REFUSED
else
  gone ← read (fun s => match factors s !! factor_id with Some f => f_user f =? user_id | None => false end);
  if negb (gone : bool) then raise REFUSED else write (on_factors (delete factor_id)).

Definition remove_factor_in (pr : resolved) (factor_id : Z) (p : proof) (m : moment) (d : draws) : txn ways issued :=
let user_id := r_user_id pr in
_ ← in_base (hold_the_account m user_id false);
_ ← take_off m user_id factor_id p;
_ ← write (drop_codes user_id);
in_base (rotate_and_revoke_others m (dr_session d) pr false).

(** DELETE /api/v1/account/totp *)
Definition remove_factor (token : option string) (checked : result exn unit) (code : string) : handler op issued :=
pr ← current_principal token checked;
_ ← need_database DATABASE_UNAVAILABLE;
_ ← need_active pr;
_ ← need_recent pr;
found ← query (fun _ _ => read (enrolled_factor (r_user_id pr)));
match found with
| None => throw REFUSED
| Some (factor_id, f) =>
    p ← prove_held (r_user_id pr) code factor_id f;
    i ← query (remove_factor_in pr factor_id p);
    _ ← close_others pr;
    mret i
end.

(** [for code in codes: session.add(RecoveryCode(...))] *)
Fixpoint add_codes (user_id : Z) (ids : list Z) (cs : list string) : txn ways unit :=
match cs, ids with
| [], _ => mret tt
| code :: cs, id :: ids =>
    _ ← insert_code id {| cd_user := user_id; cd_hash := sha256 code; cd_consumed := None |};
    add_codes user_id ids cs
| _ :: _, [] => raise (IntegrityError "recovery_codes_pkey")
end.

(** A second factor of the account is a conflict; any other violation is
    itself. *)
Definition add_factor (id : Z) (f : factor) : txn ways unit := fun s =>
match insert_factor id f s with
| Err e => if decide (e = IntegrityError ONE_FACTOR_PER_ACCOUNT)
           then Err (HTTPException 409 "a second factor was enrolled already") else Err e
| r => r
end.

Definition confirm_in (pr : resolved) (replacing : option (Z * proof)) (r : key_ring) (secret : string)
    (cs : list string) (step : Z) (m : moment) (d : draws) : txn ways issued :=
let user_id := r_user_id pr in
_ ← in_base (hold_the_account m user_id false);
_ ← match replacing with Some (factor_id, p) => take_off m user_id factor_id p | None => mret tt end;
sealed ← lift (encrypt r (dr_nonce d) TOTP_PURPOSE (bytes_of_string secret) (be_bytes 16 user_id));
_ ← add_factor (dr_row d)
      {| f_user := user_id; f_secret := sealed; f_version := active_version r; f_last := Some step;
         f_tries := 0; f_confirmed := Some (m_now m) |};
_ ← write (drop_codes user_id);
_ ← add_codes user_id (dr_rows d) cs;
in_base (rotate_and_revoke_others m (dr_session d) pr false).

(** POST /api/v1/account/totp/confirm *)
Definition confirm_enrolment (token : option string) (checked : result exn unit) (enrolment : list Z)
    (code : string) (current_code : option string) : handler op issued :=
pr ← current_principal token checked;
_ ← need_database DATABASE_UNAVAILABLE;
_ ← need_active pr;
let user_id := r_user_id pr in
now ← call Clock;
match (opened ← opened_enrolment user_id enrolment now;
       step ← matched_step opened.1 code (now / 1000000); Ok (opened, step)) with
| Err e => throw e
| Ok (_, None) => throw REFUSED
| Ok ((secret, cs), Some step) =>
    replacing ← query (fun _ _ => read (enrolled_factor user_id));
    proved ← match replacing with
             | None => mret None
             | Some (factor_id, f) =>
                 match current_code with
                 | None => throw REFUSED
                 | Some current => p ← prove_held user_id current factor_id f; mret (Some (factor_id, p))
                 end
             end;
    _ ← need_database NO_DATABASE;
    live ← query (fun m _ => read (fun s => is_live (m_now m) (r_id pr) (state (base s))));
    if negb (live : bool) then throw REFUSED
    else
      match ring with
      | Err e => throw e
      | Ok r =>
          i ← query (confirm_in pr proved r secret cs step);
          _ ← close_others pr;
          mret i
      end
end.

(** operator.py: [clear_factor], from the machine; whether a factor was taken
    off. *)
Definition holder_of (email : string) (s : ways) : option Z :=
fst <$> find_row (fun _ e => bool_decide (lower_btrim e = normalized email)) (emails s).
Definition clear_factor_in (user_id : Z) (m : moment) (d : draws) : txn ways bool :=
_ ← in_base (hold_the_account m user_id true);
held ← read (fun s => some_row (fun f => f_user f = user_id) (factors s));
if negb (held : bool) then mret false
else
  _ ← write (on_factors (filter (fun kf : Z * factor => f_user kf.2 <> user_id)));
  _ ← in_base (write (emit (erase_realtime_commands user_id None None)));
  _ ← write (drop_codes user_id);
  _ ← in_base (write (revoke_account user_id (m_now m)));
  mret true.
Definition clear_factor (email : string) : handler op bool :=
target ← query (fun _ _ => read (holder_of email));
match target with
| None => throw (LookupError ("no account holds " +:+ email))
| Some user_id =>
    cleared ← query (clear_factor_in user_id);
    if (cleared : bool) then
      _ ← tell (close_sockets user_id None None);
      _ ← audit "factor.cleared" None (Some user_id) [] true;
      mret true
    else mret false
end.
End Factors.
