(* ===== verification/SignIn.v ===== *)
(** * Signing in, credentials, recovery, invitations and providers

    Models the routes of src/backend/app/accounts.py (login), credentials.py,
    recovery.py, invitations.py and oauth.py.  The exchange with a provider is
    an operation whose answer is the provider's; the URL a browser is sent to,
    the cookies and the page it returns to are left out. *)

From S2P Require Import Prelude Hashes Json Encodings RateLimit Uuid KeyRing Transactions AccountStore AuthSessions Accounts AccountsFacts Tasks SignInTables Factors.
Open Scope Z_scope.

Section Routes.
Context `{Texts} `{Argon2}.
(** Whether a mail backend is configured, and the address of the install. *)
Variable sends : bool.
Variable public_url : string.
(** The providers offered. *)
Variable offered : list provider.

(** ** Signing in with a password (accounts.py) *)

Definition SIGN_IN_REFUSED : exn := HTTPException 401 "invalid email or password".

Definition password_of (subject : string) (s : ways) : option (identity * user) :=
match find_row (fun _ r => bool_decide (ai_provider r = password) && bool_decide (ai_subject r = subject)) (identities s) with
| Some (_, r) => u ← people s !! ai_user r; Some (r, u)
| None => None
end.

(** The session a browser presented is ended before another is made. *)
Definition retire (presented : option resolved) : handler op unit :=
match presented with Some p => end_session (r_id p) | None => mret tt end.
(** Through the gate, or on to a challenge. *)
Definition enter (user_id : Z) (u : user) (remember_me : bool) : handler op signed :=
i ← mint_behind_the_gate user_id u remember_me None;
match i with
| Some i => mret (Session i)
| None => begin_challenge user_id remember_me
end.

(** POST /api/v1/auth/login, from a peer, with the session cookie presented. *)
Definition login (email pw : string) (remember_me : bool) (peer cookie : option string) : handler op signed :=
_ ← need_database DATABASE_UNAVAILABLE;
let subject := normalized email in
_ ← attempt (Charge (charge_login subject peer));
presented ← presented_session cookie;
found ← query (fun _ _ => read (password_of subject));
match found with
| None => throw SIGN_IN_REFUSED
| Some (r, u) =>
    if negb (verify_password (default "" (ai_hash r)) pw) then throw SIGN_IN_REFUSED
    else if cannot_sign_in u then throw SIGN_IN_REFUSED
    else
      _ ← retire presented;
      enter (ai_user r) u remember_me
end.

(** ** Changing a credential (credentials.py) *)

Definition POLICY : exn := HTTPException 400 "password does not meet the policy".
Definition ADDRESS_TAKEN : exn := HTTPException 409 "that address is already in use".
(** [except IntegrityError as taken: raise HTTPException(409, ...)] *)
Definition conflict (e : exn) {A} (t : txn ways A) : txn ways A := fun s =>
match t s with Err (IntegrityError _) => Err e | r => r end.

Definition password_identity (user_id : Z) (s : ways) : option (Z * identity) :=
find_row (fun _ r => (ai_user r =? user_id) && bool_decide (ai_provider r = password)) (identities s).
Definition with_hash (h : string) (r : identity) : identity :=
{| ai_user := ai_user r; ai_provider := ai_provider r; ai_subject := ai_subject r; ai_hash := Some h |}.
(** An account's first password, under the address it has now. *)
Definition add_password (id user_id : Z) (h : string) : txn ways unit :=
address ← read (fun s => emails s !! user_id);
match address with
| None => raise (RuntimeError "no row was found when one was required")
| Some address =>
    insert_identity id {| ai_user := user_id; ai_provider := password; ai_subject := normalized address;
                          ai_hash := Some h |}
end.

Definition change_password_in (p : resolved) (pw : string) (current : option string) (m : moment) (d : draws)
  : txn ways issued :=
let user_id := r_user_id p in
_ ← in_base (hold_the_account m user_id false);
existing ← read (password_identity user_id);
if match existing, current with
   | Some _, None => true
   | Some (_, r), Some current => negb (verify_password (default "" (ai_hash r)) current)
   | None, _ => false
   end
then raise (HTTPException 403 "the current password is required")
else
  match hash_password (dr_salt d) pw with
  | None => raise POLICY
  | Some h =>
      _ ← match existing with
          | Some (id, _) => write (on_identities (alter (with_hash h) id))
          | None => conflict (HTTPException 409 "this account already has a password")
                      (add_password (dr_row d) user_id h)
          end;
      in_base (rotate_and_revoke_others m (dr_session d) p true)
  end.
(** POST /api/v1/account/password *)
Definition change_password (token : option string) (checked : result exn unit) (pw : string) (current : option string)
  : handler op issued :=
p ← recent_principal token checked;
_ ← need_database DATABASE_UNAVAILABLE;
i ← query (change_password_in p pw current);
_ ← close_others p;
mret i.

Definition set_verified (b : bool) (u : user) : user :=
{| u_role := u_role u; u_state := u_state u; u_verified := b; u_prior := u_prior u; u_requested := u_requested u |}.

(** [None]: the address is the one the account holds. *)
Definition change_email_in (p : resolved) (address : string) (m : moment) (d : draws) : txn ways (option issued) :=
let user_id := r_user_id p in
let lowered := lower_text address in
_ ← in_base (hold_the_account m user_id false);
current ← read (fun s => emails s !! user_id);
match current with
| None => raise (RuntimeError "no row was found when one was required")
| Some current =>
    if decide (normalized address = normalized current) then mret None
    else
      held ← read (fun s => some_row (fun e => lower_btrim e = lowered) (delete user_id (emails s)));
      if (held : bool) then raise ADDRESS_TAKEN
      else
        _ ← set_email user_id address;
        _ ← in_base (write (on_users (alter (set_verified false) user_id)));
        _ ← set_subject user_id lowered;
        i ← in_base (rotate_and_revoke_others m (dr_session d) p true);
        mret (Some i)
end.
(** POST /api/v1/account/email *)
Definition change_email (token : option string) (checked : result exn unit) (email : string) : handler op (option issued) :=
p ← recent_principal token checked;
match checked_email email with
| Err e => throw e
| Ok address =>
    _ ← need_database DATABASE_UNAVAILABLE;
    i ← query (fun m d => conflict ADDRESS_TAKEN (change_email_in p address m d));
    match i with
    | None => mret None
    | Some i => _ ← close_others p; mret (Some i)
    end
end.

Definition UNLINKABLE : list provider := [google; github].
Definition identities_of (user_id : Z) (s : ways) : gmap Z identity :=
filter (fun kr : Z * identity => ai_user kr.2 = user_id) (identities s).
Definition unlink_in (p : resolved) (pr : provider) (m : moment) (d : draws) : txn ways issued :=
let user_id := r_user_id p in
_ ← in_base (hold_the_account m user_id false);
held ← read (identities_of user_id);
match find_row (fun _ r => bool_decide (ai_provider r = pr)) held with
| None => raise not_found
| Some (id, _) =>
    if Nat.eqb (size held) 1 then raise (HTTPException 409 "that is the only way in")
    else
      _ ← write (on_identities (delete id));
      in_base (rotate_and_revoke_others m (dr_session d) p true)
end.
(** DELETE /api/v1/account/identities/{provider} *)
Definition unlink_identity (token : option string) (checked : result exn unit) (pr : option provider)
  : handler op issued :=
p ← recent_principal token checked;
match pr with
| Some pr =>
    if bool_decide (pr ∈ UNLINKABLE) then
      _ ← need_database DATABASE_UNAVAILABLE;
      i ← query (unlink_in p pr);
      _ ← close_others p;
      mret i
    else throw not_found
| None => throw not_found
end.

(** ** Recovery (recovery.py) *)

Definition RESET_TTL : Z := 30 * minute.
Definition ADMIN_RECOVERY_TTL : Z := 10 * minute.
Definition RESET_PURPOSES : list purpose := [reset; recovery].
Definition INVALID_LINK : exn := HTTPException 403 "invalid or expired reset link".

(** [_mint] *)
Definition mint_link (user_id : Z) (p : purpose) (ttl : Z) (m : moment) (d : draws) : txn ways string :=
_ ← insert_link (dr_row d) {| c_user := Some user_id; c_purpose := p; c_consumed := None |}
      {| k_hash := token_hash (dr_token d); k_attempts := 0; k_expires := m_now m + ttl |};
mret (dr_token d).
(** [_active_account]: the account, its address and its row. *)
Definition active_account (email : string) (s : ways) : option (Z * string * user) :=
match find_row (fun _ e => bool_decide (lower_btrim e = normalized email)) (emails s) with
| Some (id, e) =>
    u ← people s !! id;
    if decide (u_state u = active) then Some (id, e, u) else None
| None => None
end.

Definition mint_reset_in (email : string) (m : moment) (d : draws) : txn ways string :=
found ← read (active_account email);
match found with
| None => raise (LookupError ("no active account holds " +:+ email))
| Some (user_id, _, _) =>
    _ ← in_base (hold_the_account m user_id false);
    mint_link user_id reset RESET_TTL m d
end.
Definition mint_reset (email : string) : handler op string :=
_ ← need_database NO_DATABASE; query (mint_reset_in email).

(** [NoSuchAdministrator] is a [LookupError] here. *)
Definition mint_admin_recovery_in (email : string) (m : moment) (d : draws) : txn ways string :=
found ← read (active_account email);
match found with
| Some (user_id, _, u) =>
    if decide (u_role u = admin) then
      _ ← in_base (hold_the_account m user_id false);
      mint_link user_id recovery ADMIN_RECOVERY_TTL m d
    else raise (LookupError email)
| None => raise (LookupError email)
end.
Definition mint_admin_recovery (email : string) : handler op string :=
_ ← need_database NO_DATABASE;
token ← query (mint_admin_recovery_in email);
mret (page_link public_url "recover" token).

(** What [_deliver_reset] writes for the account it found. *)
Definition deliver_mail_in (user_id : Z) (address : string) (m : moment) (d : draws) : txn ways unit :=
token ← mint_link user_id reset RESET_TTL m d;
_ ← queue_mail sends address "reset" (page_link public_url "reset" token);
mret tt.
(** [_deliver_reset]: it holds no lock between the statement that reads the
    account and those that write, so other transactions may commit between. *)
Definition deliver_reset (email : string) : prog op unit :=
Do Factory (fun b =>
  if (b : bool) then
    forget (
      found ← query (fun _ _ => read (active_account email));
      match found with
      | Some (user_id, address, u) =>
          if decide (u_role u = admin) then mret tt else query (deliver_mail_in user_id address)
      | None => mret tt
      end)
  else Ret tt).
(** POST /api/v1/auth/reset: the answer is the same for every address. *)
Definition ask (email : string) (peer : option string) : handler op unit :=
_ ← need_database DATABASE_UNAVAILABLE;
_ ← attempt (Charge (charge_address peer));
spawn (deliver_reset email).

(** What follows once the link is spent: the commands of the account are
    erased, the password replaced, every session revoked. *)
Definition take_back (user_id : Z) (pw : string) (m : moment) (d : draws) : txn ways Z :=
_ ← in_base (write (emit (erase_account_commands user_id)));
match hash_password (dr_salt d) pw with
| None => raise POLICY
| Some h =>
    existing ← read (password_identity user_id);
    _ ← match existing with
        | Some (id, _) => write (on_identities (alter (with_hash h) id))
        | None => add_password (dr_row d) user_id h
        end;
    _ ← in_base (write (revoke_account user_id (m_now m)));
    mret user_id
end.
Definition complete_in (token pw : string) (m : moment) (d : draws) : txn ways Z :=
let hash := token_hash token in
found ← read (find_link hash RESET_PURPOSES (m_now m));
match found with
| Some (_, Some holder) =>
    _ ← in_base (hold_the_account m holder false);
    spent ← spend_link hash RESET_PURPOSES (m_now m);
    match spent with
    | Some (_, Some user_id) => take_back user_id pw m d
    | _ => raise INVALID_LINK
    end
| _ => raise INVALID_LINK
end.
(** POST /api/v1/auth/reset/complete *)
Definition complete (token pw : string) : handler op unit :=
_ ← need_database DATABASE_UNAVAILABLE;
user_id ← query (complete_in token pw);
tell (close_sockets user_id None None).

(** ** Invitations (invitations.py) *)

Definition INVITATION_TTL : Z := 72 * hour.
Definition INVALID_INVITATION : exn := HTTPException 403 "invalid or expired invitation".

(** [_minted] *)
Record minted := { mi_id : Z; mi_email : string; mi_role : role; mi_token : string; mi_link : string; mi_expires : Z }.
Definition new_minted (id : Z) (email : string) (r : role) (token : string) (expires : Z) : minted :=
{| mi_id := id; mi_email := email; mi_role := r; mi_token := token;
   mi_link := page_link public_url "join" token; mi_expires := expires |}.

Definition invite_in (address : string) (r : role) (by_ : Z) (m : moment) (d : draws) : txn ways minted :=
let lowered := lower_text address in
let expires := m_now m + INVITATION_TTL in
held ← read (fun s => some_row (fun e => lower_btrim e = lowered) (emails s));
if (held : bool) then raise (HTTPException 409 "that address already has an account")
else
  open_already ← read (fun s => some_row (fun q => lower_btrim (in_email q) = lowered /\ in_accepted q = None
                                                   /\ in_revoked q = None) (invitations s));
  if (open_already : bool) then raise (HTTPException 409 "that address already has an open invitation")
  else
    _ ← insert_invitation (dr_row d)
          {| in_email := address; in_role := r; in_by := Some by_; in_user := None;
             in_hash := token_hash (dr_token d); in_expires := expires; in_accepted := None; in_revoked := None;
             in_created := m_now m |};
    _ ← queue_mail sends address "invitation" (page_link public_url "join" (dr_token d));
    mret (new_minted (dr_row d) address r (dr_token d) expires).
(** POST /api/v1/invitations *)
Definition invite (token : option string) (checked : result exn unit) (email : string) (r : role) : handler op minted :=
p ← administrator "POST /api/v1/invitations" token checked;
_ ← (if decide (r = admin) then need_recent p else mret tt);
_ ← need_database DATABASE_UNAVAILABLE;
match checked_email email with
| Err e => throw e
| Ok address =>
    i ← query (invite_in address r (r_user_id p));
    _ ← audit "invitation.created" (Some (r_user_id p)) None [address; role_text r] (bool_decide (r = admin));
    mret i
end.

Definition is_open (r : invitation) : bool := bool_decide (in_accepted r = None) && bool_decide (in_revoked r = None).
(** GET /api/v1/invitations, the oldest first. *)
Definition created_before (a b : Z * invitation) : Prop := in_created a.2 <= in_created b.2.
#[local] Instance created_before_dec : RelDecision created_before.
Proof using Type. intros a b. unfold created_before. apply _. Defined.
Definition open_rows (s : ways) : list (Z * invitation) :=
merge_sort created_before (map_to_list (filter (fun kr : Z * invitation => is_open kr.2 = true) (invitations s))).
Definition open_invitations (token : option string) (checked : result exn unit) : handler op (list (Z * invitation)) :=
p ← current_principal token checked;
if bool_decide (u_role (r_user p) = admin) then
  _ ← need_database DATABASE_UNAVAILABLE; query (fun _ _ => read open_rows)
else throw (HTTPException 403 "insufficient role").

Definition set_revoked_at (now : Z) (r : invitation) : invitation :=
{| in_email := in_email r; in_role := in_role r; in_by := in_by r; in_user := in_user r; in_hash := in_hash r;
   in_expires := in_expires r; in_accepted := in_accepted r; in_revoked := Some now; in_created := in_created r |}.
Definition set_hash (hash : string) (r : invitation) : invitation :=
{| in_email := in_email r; in_role := in_role r; in_by := in_by r; in_user := in_user r; in_hash := hash;
   in_expires := in_expires r; in_accepted := in_accepted r; in_revoked := in_revoked r; in_created := in_created r |}.
Definition set_accepted (now : Z) (by_ : option Z) (r : invitation) : invitation :=
{| in_email := in_email r; in_role := in_role r; in_by := in_by r; in_user := by_; in_hash := in_hash r;
   in_expires := in_expires r; in_accepted := Some now; in_revoked := in_revoked r; in_created := in_created r |}.

(** [UPDATE invitations SET ... WHERE id = ... AND accepted_at IS NULL AND
    revoked_at IS NULL RETURNING ...] *)
Definition update_open (id : Z) (f : invitation -> invitation) : txn ways (option invitation) :=
row ← read (fun s => invitations s !! id);
match row with
| Some r => if is_open r then _ ← write (on_invitations (insert id (f r))); mret (Some r) else mret None
| None => mret None
end.
(** DELETE /api/v1/invitations/{invitation_id} *)
Definition revoke_invitation (token : option string) (checked : result exn unit) (id : Z) : handler op unit :=
p ← administrator "DELETE /api/v1/invitations/{invitation_id}" token checked;
_ ← need_database DATABASE_UNAVAILABLE;
row ← query (fun m _ => update_open id (set_revoked_at (m_now m)));
match row with
| None => throw not_found
| Some r => audit "invitation.revoked" (Some (r_user_id p)) None [uuid_string id; in_email r; role_text (in_role r)] false
end.
(** The new token takes the place of the old one. *)
Definition reveal_in (id : Z) (m : moment) (d : draws) : txn ways (option (invitation * string)) :=
let hash := token_hash (dr_token d) in
_ ← refuse (fun s => some_row (fun q => in_hash q = hash) (delete id (invitations s))) "invitations_token_hash_key";
row ← update_open id (set_hash hash);
mret ((fun r => (r, dr_token d)) <$> row).
(** POST /api/v1/invitations/{invitation_id}/reveal *)
Definition reveal (token : option string) (checked : result exn unit) (id : Z) : handler op minted :=
p ← administrator "POST /api/v1/invitations/{invitation_id}/reveal" token checked;
_ ← need_database DATABASE_UNAVAILABLE;
row ← query (reveal_in id);
match row with
| None => throw not_found
| Some (r, fresh) =>
    _ ← audit "invitation.revealed" (Some (r_user_id p)) None [uuid_string id; in_email r; role_text (in_role r)]
          (bool_decide (in_role r = admin));
    mret (new_minted id (in_email r) (in_role r) fresh (in_expires r))
end.

Definition new_user (r : role) : user :=
{| u_role := r; u_state := active; u_verified := false; u_prior := None; u_requested := None |}.
Definition find_invitation (hash : string) (now : Z) (s : ways) : option (Z * invitation) :=
find_row (fun _ r => bool_decide (in_hash r = hash) && is_open r && (now <? in_expires r)) (invitations s).
Definition register_in (token pw : string) (m : moment) (d : draws) : txn ways Z :=
claimed ← read (find_invitation (token_hash token) (m_now m));
match claimed with
| None => raise INVALID_INVITATION
| Some (id, r) =>
    _ ← write (on_invitations (insert id (set_accepted (m_now m) (in_user r) r)));
    match hash_password (dr_salt d) pw with
    | None => raise POLICY
    | Some h =>
        _ ← insert_user (dr_user d) (in_email r) (new_user (in_role r));
        _ ← insert_identity (dr_row d)
              {| ai_user := dr_user d; ai_provider := password; ai_subject := lower_text (in_email r);
                 ai_hash := Some h |};
        _ ← write (on_invitations (insert id (set_accepted (m_now m) (Some (dr_user d)) r)));
        mret (dr_user d)
    end
end.
(** POST /api/v1/auth/register *)
Definition register (token pw : string) : handler op issued :=
_ ← need_database DATABASE_UNAVAILABLE;
user_id ← query (register_in token pw);
owner ← query (fun _ _ => read (fun s => people s !! user_id));
match owner with
| None => throw DATABASE_UNAVAILABLE
| Some u => mint_session user_id u false
end.

(** ** Signing in with a provider (oauth.py) *)

Definition FLOW_TTL : Z := 10 * minute.
Definition FLOW_REFUSED : exn := HTTPException 403 "invalid or expired sign-in attempt".

Definition start_in (pr : provider) (linker : option Z) (m : moment) (d : draws) : txn ways string :=
_ ← insert_flow (dr_row d)
      {| fl_hash := token_hash (dr_token d); fl_provider := pr; fl_verifier := dr_verifier d; fl_nonce := dr_mark d;
         fl_link := linker; fl_expires := m_now m + FLOW_TTL; fl_consumed := None |};
mret (dr_token d).
(** [_start]: the state the browser is bound to. *)
Definition start_flow (pr : option provider) (linker : option Z) : handler op string :=
match pr with
| Some pr =>
    if bool_decide (pr ∈ UNLINKABLE) && bool_decide (pr ∈ offered) then
      _ ← need_database DATABASE_UNAVAILABLE; query (start_in pr linker)
    else throw not_found
| None => throw not_found
end.
(** GET /api/v1/auth/redirect/{provider} *)
Definition redirect (pr : option provider) : handler op string := start_flow pr None.
(** POST /api/v1/account/identities/{provider} *)
Definition start_link (token : option string) (checked : result exn unit) (pr : option provider) : handler op string :=
p ← current_principal token checked;
_ ← need_recent p;
_ ← need_active p;
start_flow pr (Some (r_user_id p)).

(** [_started_here], of the cookie and the state of the callback. *)
Definition started_here (cookie : option string) (state : string) : bool :=
match cookie with
| Some presented => negb (bool_decide (presented = "")) && is_ascii presented && is_ascii state
                    && bool_decide (presented = state)
| None => false
end.

Definition open_flow (hash : string) (pr : provider) (now : Z) (f : oauth_flow) : bool :=
bool_decide (fl_hash f = hash) && bool_decide (fl_provider f = pr) && bool_decide (fl_consumed f = None)
&& (now <? fl_expires f).
Definition consume_flow (now : Z) (f : oauth_flow) : oauth_flow :=
{| fl_hash := fl_hash f; fl_provider := fl_provider f; fl_verifier := fl_verifier f; fl_nonce := fl_nonce f;
   fl_link := fl_link f; fl_expires := fl_expires f; fl_consumed := Some now |}.
Definition take_flow (state : string) (pr : provider) (m : moment) (d : draws) : txn ways (option oauth_flow) :=
found ← read (fun s => find_row (fun _ => open_flow (token_hash state) pr (m_now m)) (flows s));
match found with
| Some (id, f) => _ ← write (on_flows (insert id (consume_flow (m_now m) f))); mret (Some f)
| None => mret None
end.

Definition linked_account (pr : provider) (subject : string) (s : ways) : option (Z * user) :=
match find_row (fun _ r => bool_decide (ai_provider r = pr) && bool_decide (ai_subject r = subject)) (identities s) with
| Some (_, r) => u ← people s !! ai_user r; Some (ai_user r, u)
| None => None
end.
(** [_sign_in] *)
Definition provider_sign_in (pr : provider) (who : provider_identity) (cookie : option string) : handler op signed :=
_ ← need_database DATABASE_UNAVAILABLE;
found ← query (fun _ _ => read (linked_account pr (pi_subject who)));
match found with
| None => throw FLOW_REFUSED
| Some (user_id, u) =>
    if cannot_sign_in u then throw FLOW_REFUSED
    else
      presented ← presented_session cookie;
      _ ← retire presented;
      enter user_id u false
end.

Definition link_in (pr : provider) (who : provider_identity) (p : resolved) (m : moment) (d : draws) : txn ways issued :=
let user_id := r_user_id p in
_ ← in_base (hold_the_account m user_id false);
u ← read (fun s => people s !! user_id);
match u with
| None => raise FLOW_REFUSED
| Some _ =>
    _ ← conflict (HTTPException 409 "that provider account is already linked to an account")
          (insert_identity (dr_row d)
             {| ai_user := user_id; ai_provider := pr; ai_subject := pi_subject who; ai_hash := None |});
    proved ← read (fun s => match emails s !! user_id with
                            | Some e => bool_decide (lower_btrim e = normalized (pi_email who))
                            | None => false
                            end);
    _ ← (if (proved : bool) then in_base (write (on_users (alter (set_verified true) user_id))) else mret tt);
    in_base (rotate_and_revoke_others m (dr_session d) p true)
end.
(** [_link] *)
Definition link_identity (pr : provider) (who : provider_identity) (user_id : Z) (cookie : option string)
  : handler op signed :=
_ ← need_database DATABASE_UNAVAILABLE;
linker ← presented_session cookie;
match linker with
| Some p =>
    if (r_user_id p =? user_id) && bool_decide (u_state (r_user p) = active) then
      i ← query (link_in pr who p);
      _ ← close_others p;
      mret (Session i)
    else throw FLOW_REFUSED
| None => throw FLOW_REFUSED
end.

(** GET /api/v1/auth/callback/{provider}, with the flow cookie and the session
    cookie presented. *)
Definition callback (pr : option provider) (state code : string) (flow_cookie cookie : option string)
  : handler op signed :=
if negb (started_here flow_cookie state) then throw FLOW_REFUSED
else
  _ ← need_database DATABASE_UNAVAILABLE;
  match pr with
  | None => throw FLOW_REFUSED
  | Some pr =>
      flow ← query (take_flow state pr);
      match flow with
      | None => throw FLOW_REFUSED
      | Some f =>
          who ← attempt (Exchange pr code (fl_verifier f) (fl_nonce f));
          match who with
          | None => throw FLOW_REFUSED
          | Some who =>
              match fl_link f with
              | None => provider_sign_in pr who cookie
              | Some user_id => link_identity pr who user_id cookie
              end
          end
      end
  end.

(** [prune] *)
Definition prune_flows : handler op unit :=
b ← call Factory;
if (b : bool) then
  query (fun m _ => write (on_flows (filter (fun kf : Z * oauth_flow => ~ fl_expires kf.2 < m_now m))))
else mret tt.

End Routes.
