(* ===== verification/Setup.v ===== *)
(** * Claiming the installation

    Models src/backend/app/enable.py: the one-use setup link, the claim that
    makes the implicit local user an administrator with a password, and the
    choice to run without accounts.  Every transaction here holds one advisory
    lock, so they follow one another. *)

From S2P Require Import Prelude Hashes Json Encodings Uuid KeyRing Transactions AccountStore AuthSessions Accounts AccountsFacts Tasks SignInTables SignIn.
Open Scope Z_scope.

Definition SETUP_TTL : Z := hour.
Definition INVALID_SETUP : exn := HTTPException 403 "invalid or expired setup link".
Definition ALREADY_DECIDED : exn := HTTPException 409 "installation already decided".
Definition LOCAL_USER_EMAIL : string := "local@localhost".

Definition claimed_already (s : ways) : bool := negb (bool_decide (identities s = ∅)).

Section Setup.
Context `{Texts} `{Argon2}.
Variable ring : result exn key_ring.

(** The unspent setup links are deleted. *)
Definition is_setup (c : capability) : bool := bool_decide (c_purpose c = setup) && bool_decide (c_consumed c = None).
Definition drop_setup_links : txn ways unit :=
gone ← read (fun s => dom (filter (fun kc : Z * capability => is_setup kc.2 = true) (tokens s)));
_ ← write (on_links (filter (fun kl : Z * link => kl.1 ∉ (gone : gset Z))));
in_base (write (on_capabilities (filter (fun kc : Z * capability => kc.1 ∉ (gone : gset Z))))).
(** [_mint_locked]; [AlreadyClaimed] is a [RuntimeError] here. *)
Definition mint_locked (m : moment) (d : draws) : txn ways string :=
held ← read claimed_already;
mode ← read decided;
if (held : bool) then raise (RuntimeError "this installation has already been claimed")
else if decide (mode = Some none) then raise (RuntimeError "this installation runs without accounts")
else
  _ ← drop_setup_links;
  _ ← insert_link (dr_row d) {| c_user := None; c_purpose := setup; c_consumed := None |}
        {| k_hash := token_hash (dr_token d); k_attempts := 0; k_expires := m_now m + SETUP_TTL |};
  mret (dr_token d).
(** [mint_setup_token] *)
Definition mint_setup_token : handler op string := _ ← need_database NO_DATABASE; query mint_locked.

(** [_spend] *)
Definition spend_setup (token : string) (m : moment) : txn ways unit :=
spent ← spend_link (token_hash token) [setup] (m_now m);
match spent with Some _ => mret tt | None => raise INVALID_SETUP end.

Definition adopt_user (u : user) : user :=
{| u_role := admin; u_state := active; u_verified := false; u_prior := u_prior u; u_requested := u_requested u |}.
Definition local_user (s : ways) : option Z :=
fst <$> find_row (fun _ e => bool_decide (e = LOCAL_USER_EMAIL)) (emails s).
(** [_adopt] *)
Definition adopt (address pw : string) (d : draws) : txn ways Z :=
held ← read claimed_already;
if (held : bool) then raise (HTTPException 409 "installation already claimed")
else
  match hash_password (dr_salt d) pw with
  | None => raise POLICY
  | Some h =>
      local ← read local_user;
      match local with
      | None => raise DATABASE_UNAVAILABLE
      | Some user_id =>
          _ ← set_email user_id address;
          _ ← in_base (write (on_users (alter adopt_user user_id)));
          _ ← insert_identity (dr_row d)
                {| ai_user := user_id; ai_provider := password; ai_subject := lower_text address; ai_hash := Some h |};
          mret user_id
      end
  end.
(** db.py: [record_mode]; recording accounts takes a key ring. *)
Definition record_mode (mode : auth_mode) : txn ways unit :=
_ ← (if decide (mode = accounts) then _ ← lift ring; mret tt else mret tt);
write (decide_on mode).

Definition claim_installation (token address pw : string) (m : moment) (d : draws) : txn ways Z :=
_ ← spend_setup token m;
mode ← read decided;
if decide (mode = Some none) then raise ALREADY_DECIDED
else adopted ← adopt address pw d; _ ← record_mode accounts; mret adopted.
(** [claim] *)
Definition claim (token email pw : string) : handler op Z :=
match checked_email email with
| Err e => throw e
| Ok address => _ ← need_database DATABASE_UNAVAILABLE; query (claim_installation token address pw)
end.

Definition decline_in (token : string) (m : moment) (d : draws) : txn ways unit :=
_ ← spend_setup token m;
mode ← read decided;
held ← read claimed_already;
if held || negb (bool_decide (mode ∈ [None; Some unclaimed; Some none])) then raise ALREADY_DECIDED
else record_mode none.
(** [decline_accounts] *)
Definition decline_accounts (token : string) : handler op unit :=
_ ← need_database DATABASE_UNAVAILABLE; query (decline_in token).

Definition turn_on_in (address pw : string) (m : moment) (d : draws) : txn ways Z :=
mode ← read decided;
if decide (mode = Some none) then adopted ← adopt address pw d; _ ← record_mode accounts; mret adopted
else raise ALREADY_DECIDED.
(** [turn_accounts_on] *)
Definition turn_accounts_on (email pw : string) : handler op Z :=
match checked_email email with
| Err e => throw e
| Ok address => _ ← need_database DATABASE_UNAVAILABLE; query (turn_on_in address pw)
end.

(** POST /api/v1/auth/setup/status: whether the installation is claimed. *)
Definition status_in (token : string) (m : moment) (d : draws) : txn ways bool :=
valid ← read (find_link (token_hash token) [setup] (m_now m));
match valid with
| None => raise INVALID_SETUP
| Some _ => read claimed_already
end.
Definition setup_status (token : string) : handler op bool :=
_ ← need_database DATABASE_UNAVAILABLE; query (status_in token).

(** The session of the account that was adopted. *)
Definition sign_in_owner (adopted : Z) : handler op issued :=
_ ← need_database DATABASE_UNAVAILABLE;
owner ← query (fun _ _ => read (fun s => people s !! adopted));
match owner with
| None => throw DATABASE_UNAVAILABLE
| Some u => mint_session adopted u false
end.
(** POST /api/v1/auth/setup: [None] is the choice to run without accounts. *)
Definition setup_route (token : string) (account : option (string * string)) : handler op (option issued) :=
match account with
| None =>
    _ ← decline_accounts token;
    _ ← audit "POST /api/v1/auth/setup" None None [] false;
    mret None
| Some (email, pw) =>
    adopted ← claim token email pw;
    _ ← audit "POST /api/v1/auth/setup" None (Some adopted) [] false;
    i ← sign_in_owner adopted;
    mret (Some i)
end.
(** POST /api/v1/auth/enable, once the origin and the override were checked. *)
Definition enable_accounts (email pw : string) : handler op issued :=
adopted ← turn_accounts_on email pw;
_ ← audit "POST /api/v1/auth/enable" None (Some adopted) [] false;
sign_in_owner adopted.

(** [_ensure_claimable], with the identifier drawn for the implicit user. *)
Definition ensure_claimable_in (m : moment) (d : draws) : txn ways unit :=
held ← read claimed_already;
local ← read local_user;
if held || bool_decide (is_Some local) then mret tt
else insert_user (dr_user d) LOCAL_USER_EMAIL (new_user admin).
(** [_enable], the command that prints a setup link. *)
Definition enable_command : handler op string :=
_ ← query ensure_claimable_in;
_ ← query (fun _ _ => record_mode accounts);
mint_setup_token.

End Setup.
