(* ===== verification/SignInSystem.v ===== *)
(** * The ways into an account as they run

    The handlers of SignIn.v, Factors.v and Setup.v as tasks over the tables,
    interleaved at every await.  [exec] gives an awaited operation its outcomes:
    a transaction whose connection is lost may have taken effect.  [outside] is
    the rest of the API, the transactions of Accounts.v other than minting a
    session, and the rows the schema removes with a user; and the mail sweep. *)

From S2P Require Import Prelude Hashes Json Uuid Encodings RateLimit KeyRing Transactions AccountStore AuthSessions Accounts AccountsFacts Tasks SignInTables Factors SignIn Setup.
Open Scope Z_scope.

(** ** Outcomes *)

Definition token_hashes (d : draws) : gset string := {[token_hash (dr_token d)]}.
Definition fresh_draws (d : draws) (s : ways) : Prop :=
  NoDup (drawn_ids d) /\ (forall id, id ∈ drawn_ids d -> ~ id ∈ drawn s) /\ ~ token_hash (dr_token d) ∈ hashes s.
Definition draw_from (d : draws) (s : ways) : ways := remember (list_to_set (drawn_ids d)) (token_hashes d) s.
Definition connection_lost {A} (r : result exn A) : Prop := exists msg, r = Err (RuntimeError msg).

Definition runs {A} (t : moment -> draws -> txn ways A) (s : ways) (r : result exn A) (s' : ways) : Prop :=
  exists m d, fresh_draws d s
  /\ match t m d (draw_from d s) with
     | Ok (a, s1) => (r = Ok a /\ s' = s1) \/ (connection_lost r /\ (s' = draw_from d s \/ s' = s1))
     | Err e => (r = Err e \/ connection_lost r) /\ s' = draw_from d s
     end.

Definition charges (f : clock -> option attempt_table -> result exn Z * option attempt_table) (s : ways)
    (r : result exn Z) (s' : ways) : Prop :=
  exists c rows, (f c (Some (tries s))).2 = rows
  /\ ((r = (f c (Some (tries s))).1 /\ s' = with_tries (default (tries s) rows) s)
      \/ (connection_lost r /\ (s' = s \/ s' = with_tries (default (tries s) rows) s))).

Definition exec (b : bool) (X : Type) (o : op X) : ways -> X -> ways -> Prop :=
  match o in op X return ways -> X -> ways -> Prop with
  | Txn t => runs t
  | Factory => fun s _ s' => s' = s
  | Clock => fun s _ s' => s' = s
  | Charge f => charges f
  | Tell c => fun s _ s' =>
      s' = with_base {| state := emit c (state (base s)); claimed := claimed (base s) |} s
  | Audit a => fun s _ s' => s' = record_audit a s
  | Exchange _ _ _ _ => fun s _ s' => s' = s
  end.

(** ** The rest of the API *)

Definition forget_user (here : gset Z) (u : option Z) : option Z :=
  match u with Some i => if decide (i ∈ here) then Some i else None | None => None end.
(** What the foreign keys do when users are gone. *)
Definition cascade (s : ways) : ways :=
  let here := dom (people s) in
  on_emails (filter (fun ke : Z * string => ke.1 ∈ here))
  (on_identities (filter (fun kr : Z * identity => ai_user kr.2 ∈ here))
  (on_links (filter (fun kl : Z * link => kl.1 ∈ dom (tokens s)))
  (on_factors (filter (fun kf : Z * factor => f_user kf.2 ∈ here))
  (on_codes (filter (fun kc : Z * recovery_code => cd_user kc.2 ∈ here))
  (on_invitations (fmap (fun r =>
     {| in_email := in_email r; in_role := in_role r; in_by := forget_user here (in_by r);
        in_user := forget_user here (in_user r); in_hash := in_hash r; in_expires := in_expires r;
        in_accepted := in_accepted r; in_revoked := in_revoked r; in_created := in_created r |})) s))))).

Definition is_mint (o : account_step) : bool := match o with Mint _ _ _ _ _ _ => true | _ => false end.
Definition account_step_on (o : account_step) (s : ways) : ways := cascade (with_base (account_run (base s) o) s).

Inductive outside : ways -> ways -> Prop :=
| out_account o s : is_mint o = false -> outside s (account_step_on o s)
| out_mail l (sup : gset string) s s' :
    emails s' = emails s -> identities s' = identities s -> links s' = links s -> factors s' = factors s ->
    codes s' = codes s -> invitations s' = invitations s -> flows s' = flows s -> base s' = base s ->
    decided s' = decided s -> audits s' = audits s -> drawn s' = drawn s -> hashes s' = hashes s ->
    outbox s' = l -> suppressed s' = sup -> outside s s'.

Section System.
Context `{Texts} `{Argon2} `{CryptoOps}.
Variable ring : result exn key_ring.
Variable sends : bool.
Variable public_url : string.
Variable offered : list provider.

Inductive starts (b : bool) (s : ways) : prog op unit -> Prop :=
| go_login email pw remember peer cookie : starts b s (forget (login email pw remember peer cookie))
| go_password token checked pw current : starts b s (forget (change_password token checked pw current))
| go_email token checked email : starts b s (forget (change_email token checked email))
| go_unlink token checked pr : starts b s (forget (unlink_identity token checked pr))
| go_ask email peer : starts b s (forget (ask sends public_url email peer))
| go_mint_reset email : starts b s (forget (mint_reset email))
| go_admin_recovery email : starts b s (forget (mint_admin_recovery public_url email))
| go_complete token pw : starts b s (forget (complete token pw))
| go_invite token checked email r : starts b s (forget (invite sends public_url token checked email r))
| go_invitations token checked : starts b s (forget (open_invitations token checked))
| go_revoke token checked id : starts b s (forget (revoke_invitation token checked id))
| go_reveal token checked id : starts b s (forget (reveal public_url token checked id))
| go_register token pw : starts b s (forget (register token pw))
| go_redirect pr : starts b s (forget (redirect offered pr))
| go_start_link token checked pr : starts b s (forget (start_link offered token checked pr))
| go_callback pr state code flow cookie : starts b s (forget (callback pr state code flow cookie))
| go_prune : starts b s (forget prune_flows)
| go_answer cookie remembered code : starts b s (forget (answer_challenge ring cookie remembered code))
| go_enrol token checked bytes nonce drawn :
    starts b s (forget (start_enrolment ring token checked bytes nonce drawn))
| go_confirm token checked enrolment code current :
    starts b s (forget (confirm_enrolment ring token checked enrolment code current))
| go_remove token checked code : starts b s (forget (remove_factor ring token checked code))
| go_clear email : starts b s (forget (clear_factor email))
| go_setup token account : starts b s (forget (setup_route ring token account))
| go_enable email pw : starts b s (forget (enable_accounts ring email pw))
| go_status token : starts b s (forget (setup_status token))
| go_enable_command : starts b s (forget (enable_command ring)).

Definition ways_step : ways * list (bool * prog op unit) -> ways * list (bool * prog op unit) -> Prop :=
pool_step exec starts outside.
Definition ways_run : ways * list (bool * prog op unit) -> ways * list (bool * prog op unit) -> Prop := rtc ways_step.
End System.
