(* ===== verification/SignInFacts.v ===== *)
(** * What every transaction of the ways in keeps

    [sound] is the invariant of the tables, [fact] what no later step undoes:
    a link, an invitation, a redirect, a code or a time step that was used is
    never good again, and an account that has a way in keeps one.  [advances]
    relates the state a transaction starts from to the one it leaves, given what
    it draws; each statement advances, and so does what is made of them. *)

From S2P Require Import Prelude PyFloat Hashes Json Uuid Encodings RateLimit KeyRing Transactions AccountStore AuthSessions Accounts AccountsFacts AuthSessionsSpec Tasks SignInTables Factors SignIn Setup SignInSystem.
Open Scope Z_scope.

(** ** Trimming a text twice

    [str.strip] leaves a text with no white space at either end, so stripping
    again changes nothing. *)

(** ** Appending and reversing *)

Lemma string_cons_app c s t : String.String c s +:+ t = String.String c (s +:+ t).
Proof. done. Qed.
Lemma string_app_nil s : s +:+ "" = s.
Proof. induction s as [|c s IH]; [done|]. by rewrite string_cons_app, IH. Qed.
Lemma string_app_assoc a b c : (a +:+ b) +:+ c = a +:+ (b +:+ c).
Proof. induction a as [|x a IH]; [done|]. by rewrite !string_cons_app, IH. Qed.
Lemma reverse_string_app a b acc : reverse_string (a +:+ b) acc = reverse_string b (reverse_string a acc).
Proof. revert acc. induction a as [|c a IH]; intros acc; [done|]. apply IH. Qed.
Lemma reverse_string_acc s acc : reverse_string s acc = reverse_string s "" +:+ acc.
Proof.
  revert acc. induction s as [|c s IH]; intros acc; [done|]. cbn [reverse_string].
  by rewrite (IH (String.String c acc)), (IH (String.String c "")), string_app_assoc.
Qed.
Lemma reverse_string_involutive s : reverse_string (reverse_string s "") "" = s.
Proof.
  induction s as [|c s IH]; [done|]. cbn [reverse_string].
  by rewrite (reverse_string_acc s), reverse_string_app, IH.
Qed.

(** ** What starts with no space *)

Definition bare (spaces : list string) (s : string) : Prop := after_space spaces s = None.
Definition no_empty (spaces : list string) : Prop := Forall (fun p => p <> "") spaces.

Lemma strip_prefix_append p a b r : strip_prefix p a = Some r -> strip_prefix p (a +:+ b) = Some (r +:+ b).
Proof.
  revert a. induction p as [|c p IH]; intros a; cbn [strip_prefix]; [by intros [= ->]|].
  destruct a as [|x a]; [done|]. rewrite string_cons_app. case_match; [apply IH|done].
Qed.
Lemma strip_prefix_shorter p s r : strip_prefix p s = Some r -> s = p +:+ r.
Proof.
  revert s. induction p as [|c p IH]; intros s; cbn [strip_prefix]; [by intros [= ->]|].
  destruct s as [|x s]; [done|]. case_match eqn:E; [|done]. intros H%IH. rewrite string_cons_app, <- H.
  f_equal. first [by apply bool_decide_eq_true_1 in E|by apply Ascii.eqb_eq in E|congruence].
Qed.

Lemma after_space_cases spaces s r :
  after_space spaces s = Some r ->
  exists p, s = p +:+ r /\ (p ∈ spaces \/ exists c, p = String.String c "" /\ is_space c = true).
Proof.
  destruct s as [|c s]; [done|]. cbn [after_space]. destruct (is_space c) eqn:Ec.
  - intros [= ->]. exists (String.String c ""). split; [done|]. right. by exists c.
  - generalize (String.String c s) as t. intros t. induction spaces as [|p spaces IH]; [done|]. cbn [foldr].
    destruct (strip_prefix p t) as [q|] eqn:Ep.
    + intros [= ->]. exists p. split; [by apply strip_prefix_shorter|]. left. constructor.
    + intros H. destruct (IH H) as (q & -> & [Hq|Hq]); exists q; (split; [done|]); [left; by constructor|by right].
Qed.
Lemma after_space_app spaces a b : bare spaces (a +:+ b) -> bare spaces a.
Proof.
  unfold bare. destruct a as [|c a]; [done|]. rewrite string_cons_app. cbn [after_space].
  destruct (is_space c); [done|]. rewrite <- string_cons_app. generalize (String.String c a) as t. intros t.
  induction spaces as [|p spaces IH]; [done|]. cbn [foldr]. destruct (strip_prefix p t) as [q|] eqn:Ep.
  - by rewrite (strip_prefix_append _ _ b _ Ep).
  - destruct (strip_prefix p (t +:+ b)); [done|exact IH].
Qed.

Lemma lstrip_suffix n spaces s : exists p, s = p +:+ lstrip_with n spaces s.
Proof.
  revert s. induction n as [|n IH]; intros s; [by exists ""|]. cbn [lstrip_with].
  destruct (after_space spaces s) as [r|] eqn:E; [|by exists ""].
  apply after_space_cases in E as (p & -> & _). destruct (IH r) as [q Hq]. exists (p +:+ q).
  by rewrite string_app_assoc, <- Hq.
Qed.
Lemma lstrip_bare n spaces s : no_empty spaces -> (String.length s <= n)%nat -> bare spaces (lstrip_with n spaces s).
Proof.
  intros Hs. revert s. induction n as [|n IH]; intros s Hn.
  - destruct s; [done|cbn in Hn; lia].
  - cbn [lstrip_with]. destruct (after_space spaces s) as [r|] eqn:E; [|exact E]. apply IH.
    apply after_space_cases in E as (p & -> & Hp). rewrite length_string_app in Hn.
    assert (0 < String.length p)%nat; [|lia]. destruct Hp as [Hp|(c & -> & _)]; [|cbn; lia].
    unfold no_empty in Hs. rewrite Forall_forall in Hs. specialize (Hs p Hp). destruct p; [done|cbn; lia].
Qed.
Lemma lstrip_of_bare n spaces s : bare spaces s -> lstrip_with n spaces s = s.
Proof. intros H. destruct n; [done|]. cbn [lstrip_with]. by rewrite H. Qed.

Lemma spaces_not_empty :
  no_empty UNICODE_SPACES /\ no_empty (map (fun p => reverse_string p "") UNICODE_SPACES).
Proof. split; apply Forall_forall; intros p Hp ->; revert Hp; vm_compute; intros Hp; set_solver. Qed.

Theorem strip_text_idempotent s : strip_text (strip_text s) = strip_text s.
Proof.
  destruct spaces_not_empty as [H1 H2]. unfold strip_text at 2 3.
  set (t := lstrip_with (String.length s) UNICODE_SPACES s).
  set (back := map (fun p => reverse_string p "") UNICODE_SPACES) in *.
  set (u := lstrip_with (String.length (reverse_string t "")) back (reverse_string t "")).
  assert (Hu : bare back u) by (by apply lstrip_bare).
  assert (Ht : bare UNICODE_SPACES (reverse_string u "")).
  { destruct (lstrip_suffix (String.length (reverse_string t "")) back (reverse_string t "")) as [p Hp].
    fold u in Hp. apply (after_space_app _ _ (reverse_string p "")).
    assert (Ht : t = reverse_string u "" +:+ reverse_string p "").
    { rewrite <- (reverse_string_involutive t), Hp, reverse_string_app. apply reverse_string_acc. }
    rewrite <- Ht. by apply lstrip_bare. }
  unfold strip_text. rewrite (lstrip_of_bare _ _ _ Ht), reverse_string_involutive. fold back.
  by rewrite (lstrip_of_bare _ _ _ Hu).
Qed.

(** ** The tables of AccountStore.v

    A link that was used stays used, whatever the other modules do. *)

Definition caps_kept (w w' : world) : Prop :=
  forall id c', capabilities w' !! id = Some c' ->
    exists c, capabilities w !! id = Some c /\ (c_consumed c <> None -> c_consumed c' <> None).
#[export] Instance caps_kept_preorder : PreOrder caps_kept.
Proof.
  split; [intros w id c Hc; by exists c|]. intros a b c H1 H2 id x Hx.
  destruct (H2 id x Hx) as (y & Hy & Hxy). destruct (H1 id y Hy) as (z & Hz & Hyz). exists z. auto.
Qed.
Lemma caps_same w w' : capabilities w' = capabilities w -> caps_kept w w'.
Proof. intros E id c. rewrite E. intros Hc. by exists c. Qed.
Lemma set_consumed_some now c : c_consumed c <> None -> c_consumed (set_consumed now c) <> None.
Proof. unfold set_consumed. by destruct (c_consumed c). Qed.
Lemma caps_spend p now w : caps_kept w (on_capabilities (spend_where p now) w).
Proof.
  intros id c'. cbn. unfold spend_where. rewrite lookup_fmap. destruct (capabilities w !! id) as [c|]; [|done].
  intros [= <-]. exists c. split; [done|]. destruct (p c); [apply set_consumed_some|done].
Qed.
Lemma caps_filter (P : Z * capability -> Prop) `{forall x, Decision (P x)} w : caps_kept w (on_capabilities (filter P) w).
Proof. intros id c' [Hc _]%map_lookup_filter_Some. by exists c'. Qed.
Lemma caps_imap now ids w : caps_kept w (consume_links ids now w).
Proof.
  intros id c'. cbn. rewrite map_lookup_imap. destruct (capabilities w !! id) as [c|]; [|done].
  intros [= <-]. exists c. split; [done|]. case_decide; [apply set_consumed_some|done].
Qed.
Lemma caps_alter now i w : caps_kept w (consume_link now i w).
Proof.
  intros id c'. cbn. destruct (decide (i = id)) as [->|Hne].
  - rewrite lookup_alter_eq. destruct (capabilities w !! id) as [c|]; [|done]. intros [= <-]. exists c.
    split; [done|apply set_consumed_some].
  - rewrite lookup_alter_ne by done. intros Hc. by exists c'.
Qed.
Lemma hold_caps m user_id wait : keeps caps_kept (hold_the_account m user_id wait).
Proof. apply hold_keeps, _. Qed.
Lemma insert_session_caps id r : keeps caps_kept (insert_session id r).
Proof. intros w a w' E. unfold insert_session in E. repeat case_match; try done. injection E as _ <-. by apply caps_same. Qed.
Lemma swap_token_caps p hash : keeps caps_kept (swap_token p hash).
Proof. intros w a w' E. unfold swap_token in E. repeat case_match; try done. injection E as _ <-. by apply caps_same. Qed.
Create HintDb caps.
#[export] Hint Resolve caps_kept_preorder hold_caps insert_session_caps swap_token_caps caps_spend caps_filter : caps.
#[export] Hint Extern 1 (caps_kept _ _) => (by apply caps_same) : caps.

Ltac caps :=
  keep; intros; auto with caps keeps typeclass_instances; repeat case_match; intros; auto with caps;
  unfold spend_mailed; auto with caps.

Lemma mint_in_caps m d user_id u remember authenticated : keeps caps_kept (mint_in m d user_id u remember authenticated).
Proof. unfold mint_in. caps. Qed.
Lemma resolve_in_caps now token : keeps caps_kept (resolve_in now token).
Proof. unfold resolve_in. caps. Qed.
Lemma rotate_others_caps m d p spend : keeps caps_kept (rotate_and_revoke_others m d p spend).
Proof. unfold rotate_and_revoke_others. caps. Qed.
Lemma revoke_in_caps m id : keeps caps_kept (revoke_in m id).
Proof. unfold revoke_in. caps. Qed.
Lemma commit_caps {A} (t : txn world A) b : keeps caps_kept t -> caps_kept (state b) (state (commit t b)).
Proof.
  intros Ht. destruct (commit_cases t b) as [->|(a & w & E & ->)]; [reflexivity|]. cbn. by eapply Ht.
Qed.
Lemma account_run_caps o b : caps_kept (state b) (state (account_run b o)).
Proof.
  destruct o; cbn [account_run]; try apply commit_caps.
  - unfold change_role_in. caps.
  - unfold change_state_in. caps.
  - unfold request. caps.
  - unfold restore_in. caps.
  - destruct (claim_in m cutoff user_id (state b)) as [[[] w]|] eqn:E; [|reflexivity..]. cbn.
    assert (Ht : keeps caps_kept (claim_in m cutoff user_id)) by (unfold claim_in; caps). by eapply Ht.
  - case_decide; [|reflexivity]. apply commit_caps. unfold remove_in. caps.
  - unfold cancel_in. caps.
  - apply mint_in_caps.
  - apply resolve_in_caps.
  - apply rotate_others_caps.
  - apply revoke_in_caps.
  - unfold revoke_all_in. caps.
  - unfold rotate_in. caps.
Qed.

Definition gentle (w w' : world) : Prop := dom (users w') = dom (users w) /\ caps_kept w w'.
#[export] Instance gentle_preorder : PreOrder gentle.
Proof.
  split; [by intros w|]. intros a b c [H1 H2] [H3 H4]. split; [congruence|by etransitivity].
Qed.
Lemma gentle_both {A} (t : txn world A) : keeps same_users t -> keeps caps_kept t -> keeps gentle t.
Proof. intros H1 H2 w a w' E. split; [by rewrite (H1 _ _ _ E)|by eapply H2]. Qed.
Lemma gentle_users f w : (forall us, dom (f us) = dom us) -> gentle w (on_users f w).
Proof. intros Hf. split; [apply Hf|by apply caps_same]. Qed.
Lemma gentle_caps w w' : users w' = users w -> caps_kept w w' -> gentle w w'.
Proof. intros E Hc. split; [by rewrite E|done]. Qed.
Lemma gentle_hold m user_id wait : keeps gentle (hold_the_account m user_id wait).
Proof. apply hold_keeps, _. Qed.
Lemma gentle_mint m d user_id u remember authenticated : keeps gentle (mint_in m d user_id u remember authenticated).
Proof. apply gentle_both; [apply mint_in_same_users|apply mint_in_caps]. Qed.
Lemma gentle_resolve now token : keeps gentle (resolve_in now token).
Proof. apply gentle_both; [apply resolve_in_same_users|apply resolve_in_caps]. Qed.
Lemma gentle_rotate m d p spend : keeps gentle (rotate_and_revoke_others m d p spend).
Proof. apply gentle_both; [apply rotate_others_same_users|apply rotate_others_caps]. Qed.
Lemma gentle_revoke m id : keeps gentle (revoke_in m id).
Proof. apply gentle_both; [apply revoke_in_same_users|apply revoke_in_caps]. Qed.
Lemma gentle_write f : (forall w, gentle w (f w)) -> keeps gentle (write f).
Proof. apply keeps_write. Qed.
Lemma gentle_alter f id w : gentle w (on_users (alter f id) w).
Proof. apply gentle_users. intros us. apply dom_alter_L. Qed.
Lemma gentle_consume now id w : gentle w (consume_link now id w).
Proof. apply gentle_caps; [done|apply caps_alter]. Qed.
Lemma gentle_consume_all ids now w : gentle w (consume_links ids now w).
Proof. apply gentle_caps; [done|apply caps_imap]. Qed.
Lemma gentle_drop (P : Z * capability -> Prop) `{forall x, Decision (P x)} w : gentle w (on_capabilities (filter P) w).
Proof. apply gentle_caps; [done|by apply caps_filter]. Qed.
Create HintDb ways.
#[export] Hint Resolve gentle_hold gentle_mint gentle_resolve gentle_rotate gentle_revoke gentle_write gentle_alter
  gentle_consume gentle_consume_all gentle_drop : ways.
#[export] Hint Extern 2 (gentle _ _) => (by apply gentle_caps; [|apply caps_same]) : ways.

(** ** Rows *)

Lemma find_row_some {A} (p : Z -> A -> bool) rows id r : find_row p rows = Some (id, r) -> rows !! id = Some r /\ p id r = true.
Proof.
  unfold find_row. intros Hf. destruct (list_find _ _) as [[n [i q]]|] eqn:E; [|done]. injection Hf as -> ->.
  apply list_find_Some in E as (Hl & Hp & _). apply list_elem_of_lookup_2, elem_of_map_to_list in Hl.
  split; [done|]. by apply Is_true_true.
Qed.
Lemma find_row_none {A} (p : Z -> A -> bool) rows id r : find_row p rows = None -> rows !! id = Some r -> p id r = false.
Proof.
  unfold find_row. intros Hf Hr. destruct (list_find _ _) as [[n kv]|] eqn:E; [done|].
  apply list_find_None in E. rewrite Forall_forall in E. apply not_true_is_false. intros Hp.
  apply (E (id, r)); [by apply elem_of_map_to_list|]. cbn. by rewrite Hp.
Qed.
Lemma some_row_false {A} (P : A -> Prop) `{forall x, Decision (P x)} rows id r :
  some_row P rows = false -> rows !! id = Some r -> ~ P r.
Proof. unfold some_row. intros E%bool_decide_eq_false Hr HP. apply E. by exists id, r. Qed.
Lemma not_refused b c s a s' : refuse b c s = Ok (a, s') -> b s = false /\ s' = s.
Proof. unfold refuse. destruct (b s); [done|]. by intros [= _ <-]. Qed.
Lemma in_base_ok {A} (t : txn world A) s a s' :
  in_base t s = Ok (a, s') ->
  exists w, t (state (base s)) = Ok (a, w) /\ s' = with_base {| state := w; claimed := claimed (base s) |} s.
Proof. unfold in_base. destruct (t _) as [[x w]|]; [|done]. intros [= <- <-]. by exists w. Qed.

Definition injective_on {A B} (key : A -> option B) (rows : gmap Z A) : Prop :=
  forall i j a b k, rows !! i = Some a -> rows !! j = Some b -> key a = Some k -> key b = Some k -> i = j.
Lemma injective_sub {A B} (key : A -> option B) (rows rows' : gmap Z A) :
  (forall i r', rows' !! i = Some r' -> exists r, rows !! i = Some r /\ key r = key r') ->
  injective_on key rows -> injective_on key rows'.
Proof.
  intros Hsub Hi i j a b k Ha Hb Ka Kb. destruct (Hsub i a Ha) as (a0 & Ha0 & Ea), (Hsub j b Hb) as (b0 & Hb0 & Eb).
  apply (Hi i j a0 b0 k Ha0 Hb0); congruence.
Qed.
Lemma injective_insert {A B} (key : A -> option B) (rows : gmap Z A) id r :
  injective_on key rows -> (forall i q k, i <> id -> rows !! i = Some q -> key q = Some k -> key r <> Some k) ->
  injective_on key (<[id := r]> rows).
Proof.
  intros Hi Hr i j a b k Ha Hb Ka Kb. rewrite lookup_insert_Some in Ha, Hb.
  destruct Ha as [[<- <-]|[Hni Ha]], Hb as [[<- <-]|[Hnj Hb]].
  - done.
  - exfalso. eapply (Hr j b k); auto.
  - exfalso. eapply (Hr i a k); auto.
  - by eapply Hi.
Qed.

Lemma injective_checked {A B} (h : A -> B) `{!EqDecision B} (rows : gmap Z A) id r :
  some_row (fun q => h q = h r) rows = false -> injective_on (fun q => Some (h q)) rows ->
  injective_on (fun q => Some (h q)) (<[id := r]> rows).
Proof.
  intros Hr Hi. apply injective_insert; [done|]. intros i q k _ Hq [= <-] [= Heq].
  by eapply (some_row_false _ _ i q Hr).
Qed.
(** Writing over a row that has the same key. *)
Lemma injective_same {A B} (h : A -> B) (rows : gmap Z A) id r r' :
  rows !! id = Some r -> h r' = h r -> injective_on (fun q => Some (h q)) rows ->
  injective_on (fun q => Some (h q)) (<[id := r']> rows).
Proof.
  intros Hr Hh Hi. eapply injective_sub; [|exact Hi]. intros i q. rewrite lookup_insert_Some.
  intros [[<- <-]|[_ Hq]]; [exists r; by rewrite Hh|by exists q].
Qed.

(** Invert the statements of a transaction that returned. *)
Ltac refusals :=
  repeat match goal with
  | E : refuse _ _ _ = Ok (_, ?w) |- _ => let Hr := fresh "Hr" in apply not_refused in E as [Hr E]; subst w
  | E : write _ _ = Ok (_, ?w) |- _ => apply write_ok in E; subst w
  | E : (_ ≫= _) _ = Ok _ |- _ =>
      let a := fresh in let w := fresh in let Ha := fresh in apply txn_bind_ok in E as (a & w & Ha & E)
  end.

Section Facts.
Context `{Texts}.

(** ** Soundness *)

Definition password_user (r : identity) : option Z :=
if decide (ai_provider r = password) then Some (ai_user r) else None.
Definition subject_key_of (r : identity) : option (provider * string) := Some (ai_provider r, ai_subject r).
Definition identity_fits (es : gmap Z string) (r : identity) : Prop :=
exists e, es !! ai_user r = Some e
/\ (ai_provider r = password -> is_Some (ai_hash r) /\ ai_subject r = normalized e).

Record sound (s : ways) : Prop := {
so_emails : dom (emails s) = dom (people s);
so_people : dom (people s) ⊆ drawn s;
so_codes : dom (codes s) ⊆ drawn s;
so_factors : dom (factors s) ⊆ drawn s;
so_links : forall id k, links s !! id = Some k -> k_hash k ∈ hashes s;
so_invitations : forall id r, invitations s !! id = Some r -> in_hash r ∈ hashes s /\ strip_text (in_email r) = in_email r;
so_flows : forall id f, flows s !! id = Some f -> fl_hash f ∈ hashes s /\ fl_provider f <> password;
so_identities : forall id r, identities s !! id = Some r -> identity_fits (emails s) r;
so_one_password : injective_on password_user (identities s);
so_subjects : injective_on subject_key_of (identities s);
so_one_factor : injective_on (fun f => Some (f_user f)) (factors s);
so_one_link : injective_on (fun k => Some (k_hash k)) (links s);
so_one_invitation : injective_on (fun r => Some (in_hash r)) (invitations s);
so_one_flow : injective_on (fun f => Some (fl_hash f)) (flows s)
}.

(** ** Facts *)

Inductive fact : Type :=
| LinkSpent (hash : string) | InvitationClosed (hash : string) | FlowSpent (hash : string)
| CodeSpent (id : Z) | StepSpent (factor_id step : Z) | WayIn (user_id : Z).

Definition has_way (user_id : Z) (s : ways) : Prop :=
exists id r, identities s !! id = Some r /\ ai_user r = user_id.
Definition at_least (n : Z) (last : option Z) : Prop := exists l, last = Some l /\ n <= l.

Definition holds (f : fact) (s : ways) : Prop :=
match f with
| LinkSpent h => h ∈ hashes s /\ forall id k c, links s !! id = Some k -> k_hash k = h ->
    tokens s !! id = Some c -> c_consumed c <> None
| InvitationClosed h => h ∈ hashes s /\ forall id r, invitations s !! id = Some r -> in_hash r = h -> is_open r = false
| FlowSpent h => h ∈ hashes s /\ forall id f, flows s !! id = Some f -> fl_hash f = h -> fl_consumed f <> None
| CodeSpent id => id ∈ drawn s /\ forall c, codes s !! id = Some c -> cd_consumed c <> None
| StepSpent id n => id ∈ drawn s /\ forall f, factors s !! id = Some f -> at_least n (f_last f)
| WayIn u => u ∈ drawn s /\ (is_Some (people s !! u) -> has_way u s)
end.

(** What a transaction has drawn for itself. *)
Definition about (d : draws) (f : fact) : Prop :=
match f with
| LinkSpent h | InvitationClosed h | FlowSpent h => h = token_hash (dr_token d)
| CodeSpent id | StepSpent id _ | WayIn id => id ∈ drawn_ids d
end.

Record sound_with (d : draws) (s : ways) : Prop := {
sw_sound : sound s;
sw_ids : forall id, id ∈ drawn_ids d -> id ∈ drawn s;
sw_hash : token_hash (dr_token d) ∈ hashes s
}.
Definition advances (d : draws) (s s' : ways) : Prop :=
sound_with d s -> sound_with d s' /\ forall f, ~ about d f -> holds f s -> holds f s'.
#[export] Instance advances_preorder d : PreOrder (advances d).
Proof using Type.
split; [by intros s Hs|]. intros s1 s2 s3 H1 H2 Hs. destruct (H1 Hs) as [Hs2 Hf1]. destruct (H2 Hs2) as [Hs3 Hf2].
split; [done|]. intros f Ha Hf. by apply Hf2, Hf1.
Qed.

Lemma assuming_sound d s s' : (sound_with d s -> advances d s s') -> advances d s s'.
Proof. intros Hx Hs. exact (Hx Hs Hs). Qed.

(** ** One table at a time *)

Ltac one_table :=
  intros [Hs Hids Hh]; split;
  [constructor; [destruct Hs; constructor; cbn; eauto|cbn; auto|cbn; auto]|intros f Ha Hf; destruct f; cbn in *; eauto].

Lemma advances_base d s w :
dom (users w) = dom (people s) ->
(forall id c', capabilities w !! id = Some c' ->
   exists c, tokens s !! id = Some c /\ (c_consumed c <> None -> c_consumed c' <> None)) ->
advances d s (with_base {| state := w; claimed := claimed (base s) |} s).
Proof.
intros Hu Hc. one_table.
- unfold people in *. cbn. congruence.
- unfold people in *. cbn. by rewrite Hu.
- destruct Hf as [Hin Hl]. split; [done|]. intros id k c' Hk Hh' Hc'. destruct (Hc id c' Hc') as (c & Ht & Hcc).
  by eapply Hcc, Hl.
- destruct Hf as [Hin Hw]. split; [done|]. intros Hu'. apply Hw. unfold people in *. cbn in Hu'.
  rewrite <- elem_of_dom in *. by rewrite <- Hu.
Qed.

Lemma advances_links d s g :
(forall id k', g (links s) !! id = Some k' -> exists k, links s !! id = Some k /\ k_hash k' = k_hash k) ->
advances d s (on_links g s).
Proof.
intros Hg. one_table; [|eapply injective_sub; [|exact so_one_link0]; intros id k' Hk';
  destruct (Hg id k' Hk') as (k & Hk & ->); by exists k|].
- intros id k' Hk'. destruct (Hg id k' Hk') as (k & Hk & ->). eauto.
- destruct Hf as [Hin Hl]. split; [done|]. intros id k' c Hk' Hh' Hc.
  destruct (Hg id k' Hk') as (k & Hk & Heq). eapply Hl; [exact Hk|congruence|exact Hc].
Qed.

Lemma advances_identities d s g :
(forall id r, g (identities s) !! id = Some r -> identity_fits (emails s) r) ->
injective_on password_user (g (identities s)) -> injective_on subject_key_of (g (identities s)) ->
(forall u, has_way u s -> has_way u (on_identities g s)) ->
advances d s (on_identities g s).
Proof.
intros H1 H2 H3 H4. one_table. destruct Hf as [Hin Hw]. split; [done|]. intros Hu. by apply H4, Hw.
Qed.

Lemma advances_factors d s g :
(forall id r', g (factors s) !! id = Some r' -> id ∈ drawn_ids d \/
   exists r, factors s !! id = Some r /\ forall n, at_least n (f_last r) -> at_least n (f_last r')) ->
injective_on (fun f => Some (f_user f)) (g (factors s)) ->
advances d s (on_factors g s).
Proof.
intros Hg Hi. one_table.
- intros id Hd. apply elem_of_dom in Hd as [r' Hr']. destruct (Hg id r' Hr') as [Hin|(r & Hr & _)]; [auto|].
  apply so_factors0, elem_of_dom. by eexists.
- destruct Hf as [Hin Hl]. split; [done|]. intros r' Hr'.
  destruct (Hg _ _ Hr') as [Hd|(r & Hr & Hn)]; [done|]. apply Hn. by eapply Hl.
Qed.

Lemma advances_codes d s g :
(forall id c', g (codes s) !! id = Some c' -> id ∈ drawn_ids d \/
   exists c, codes s !! id = Some c /\ (cd_consumed c <> None -> cd_consumed c' <> None)) ->
advances d s (on_codes g s).
Proof.
intros Hg. one_table.
- intros id Hd. apply elem_of_dom in Hd as [r' Hr']. destruct (Hg id r' Hr') as [Hin|(r & Hr & _)]; [auto|].
  apply so_codes0, elem_of_dom. by eexists.
- destruct Hf as [Hin Hl]. split; [done|]. intros r' Hr'.
  destruct (Hg _ _ Hr') as [Hd|(r & Hr & Hn)]; [done|]. apply Hn. by eapply Hl.
Qed.

Lemma advances_invitations d s g :
(forall id r', g (invitations s) !! id = Some r' ->
   (strip_text (in_email r') = in_email r' /\ in_hash r' = token_hash (dr_token d)) \/
   exists r, invitations s !! id = Some r /\ in_email r' = in_email r
   /\ (in_hash r' = token_hash (dr_token d) \/ in_hash r' = in_hash r /\ (is_open r = false -> is_open r' = false))) ->
(injective_on (fun r => Some (in_hash r)) (invitations s) -> injective_on (fun r => Some (in_hash r)) (g (invitations s))) ->
advances d s (on_invitations g s).
Proof.
intros Hg Hi. one_table.
- intros id r' Hr'. destruct (Hg id r' Hr') as [[He ->]|(r & Hr & -> & Hcase)]; [auto|].
  destruct (so_invitations0 id r Hr) as [Hin He]. split; [|done]. by destruct Hcase as [->|[-> _]].
- destruct Hf as [Hin Hl]. split; [done|]. intros id r' Hr' Hh'.
  destruct (Hg id r' Hr') as [[He Hd]|(r & Hr & _ & [Hd|[Heq Ho]])]; [congruence..|].
  eapply Ho, Hl; [exact Hr|congruence].
Qed.

Lemma advances_flows d s g :
(forall id f', g (flows s) !! id = Some f' ->
   (fl_hash f' = token_hash (dr_token d) /\ fl_provider f' <> password) \/
   exists f, flows s !! id = Some f /\ fl_hash f' = fl_hash f /\ fl_provider f' = fl_provider f
             /\ (fl_consumed f <> None -> fl_consumed f' <> None)) ->
(injective_on (fun f => Some (fl_hash f)) (flows s) -> injective_on (fun f => Some (fl_hash f)) (g (flows s))) ->
advances d s (on_flows g s).
Proof.
intros Hg Hi. one_table.
- intros id f' Hf'. destruct (Hg id f' Hf') as [[-> Hp]|(r & Hr & -> & -> & _)]; [auto|]. by eapply so_flows0.
- destruct Hf as [Hin Hl]. split; [done|]. intros id f' Hf' Hh'.
  destruct (Hg id f' Hf') as [[Hd _]|(r & Hr & Heq & _ & Ho)]; [congruence|]. eapply Ho, Hl; [exact Hr|congruence].
Qed.

(** What none of the invariants reads. *)
Definition silent (s s' : ways) : Prop :=
people s' = people s /\ tokens s' = tokens s /\ emails s' = emails s /\ identities s' = identities s /\ links s' = links s
/\ factors s' = factors s /\ codes s' = codes s /\ invitations s' = invitations s /\ flows s' = flows s
/\ drawn s' = drawn s /\ hashes s' = hashes s.
Lemma silent_sound s s' : silent s s' -> sound s -> sound s'.
Proof.
intros (E1 & E2 & E3 & E4 & E5 & E6 & E7 & E8 & E9 & E10 & E11) Hs. destruct Hs.
constructor; rewrite ?E1, ?E2, ?E3, ?E4, ?E5, ?E6, ?E7, ?E8, ?E9, ?E10, ?E11; auto.
Qed.
Lemma silent_holds s s' f : silent s s' -> holds f s -> holds f s'.
Proof.
intros (E1 & E2 & E3 & E4 & E5 & E6 & E7 & E8 & E9 & E10 & E11). unfold holds, has_way.
by rewrite ?E1, ?E2, ?E3, ?E4, ?E5, ?E6, ?E7, ?E8, ?E9, ?E10, ?E11.
Qed.
Lemma advances_silent d s s' : silent s s' -> advances d s s'.
Proof.
intros Hq [Hs Hids Hh]. split; [|intros f _; by apply silent_holds].
pose proof Hq as (_ & _ & _ & _ & _ & _ & _ & _ & _ & E9 & E10).
constructor; [by eapply silent_sound|by rewrite E9|by rewrite E10].
Qed.

Lemma advances_emails d s g :
dom (g (emails s)) = dom (emails s) ->
(forall id r, identities s !! id = Some r -> identity_fits (g (emails s)) r) ->
advances d s (on_emails g s).
Proof. intros Hd Hi. one_table. cbn in *. by rewrite Hd. Qed.

(** ** Statements *)

#[local] Hint Resolve advances_preorder : ways keeps typeclass_instances.

Lemma in_base_advances d {A} (t : txn world A) : keeps gentle t -> keeps (advances d) (in_base t).
Proof.
intros Ht s a s' E. apply in_base_ok in E as (w & E & ->). destruct (Ht _ _ _ E) as [Hu Hc]. by apply advances_base.
Qed.
Lemma refuse_advances d b c : keeps (advances d) (refuse b c).
Proof. intros s a s' E. apply not_refused in E as [_ ->]. reflexivity. Qed.
Lemma post_advances d l s : advances d s (post l s).
Proof. apply advances_silent. by repeat split. Qed.
Lemma decide_advances d mode s : advances d s (decide_on mode s).
Proof. apply advances_silent. by repeat split. Qed.
Lemma hold_for_sign_in_advances d m user_id : keeps (advances d) (hold_for_sign_in m user_id).
Proof. intros s a s' E. unfold hold_for_sign_in in E. case_match; [|done]. injection E as _ <-. reflexivity. Qed.
Lemma count_advances d id s : advances d s (count_attempt id s).
Proof.
apply advances_links. intros i k'. rewrite lookup_alter_Some. intros [(-> & k & Hk & ->)|[_ Hk]]; [|by exists k']. by exists k.
Qed.
Lemma spend_link_advances d hash ps now : keeps (advances d) (spend_link hash ps now).
Proof. unfold spend_link. keep. apply in_base_advances, gentle_write. auto with ways. Qed.
Lemma queue_mail_advances d sends to template link : keeps (advances d) (queue_mail sends to template link).
Proof. unfold queue_mail. keep. intros s. apply post_advances. Qed.

Lemma held_false {A} id (rows : gmap Z A) : held id rows = false -> rows !! id = None.
Proof. unfold held. intros E%bool_decide_eq_false. by apply eq_None_not_Some. Qed.
Lemma held_true {A} id (rows : gmap Z A) : negb (held id rows) = false -> is_Some (rows !! id).
Proof. intros E%negb_false_iff%bool_decide_eq_true. done. Qed.

Lemma insert_user_advances d id e u : id ∈ drawn_ids d -> keeps (advances d) (insert_user id e u).
Proof.
intros Hd s a s' E. unfold insert_user in E. refusals. apply in_base_ok in E as (w & E & ->). apply write_ok in E. subst w.
apply held_false in Hr. intros [Hs Hids Hh]. split.
- constructor; [|cbn; auto..]. destruct Hs. constructor; unfold people in *; cbn in *; auto.
  + by rewrite !dom_insert_L, so_emails0.
  + rewrite dom_insert. set_solver.
  + intros i r Hi. destruct (so_identities0 i r Hi) as (x & Hx & Hp). exists x. split; [|done].
    rewrite lookup_insert_ne; [done|]. intros Heq.
    apply not_elem_of_dom in Hr. apply Hr. rewrite <- so_emails0, Heq. apply elem_of_dom. by eexists.
- intros f Ha Hf. destruct f; cbn in *; auto. destruct Hf as [Hin Hw]. split; [done|]. intros Hu. apply Hw.
  unfold people in *. cbn in Hu. rewrite lookup_insert_ne in Hu; [done|]. by intros ->.
Qed.

Lemma insert_identity_advances d id r s a s' :
insert_identity id r s = Ok (a, s') ->
(exists e, emails s !! ai_user r = Some e /\ (ai_provider r = password -> ai_subject r = normalized e)) ->
advances d s s'.
Proof.
intros E (e & He & Hsub). unfold insert_identity in E. refusals. apply held_false in Hr.
assert (Hfit : identity_fits (emails s) r).
{ exists e. split; [done|]. intros Hp. split; [|by apply Hsub].
  apply negb_false_iff, eqb_prop in Hr1. rewrite (bool_decide_true _ Hp) in Hr1. symmetry in Hr1.
  by apply bool_decide_eq_true_1 in Hr1. }
intros Hw. pose proof Hw as [[] _ _]. apply (advances_identities d s (insert id r)); [..|exact Hw].
- intros i q. rewrite lookup_insert_Some. intros [[<- <-]|[_ Hq]]; [done|]. by eapply so_identities0.
- apply injective_insert; [done|]. intros i q k _ Hq Kq. unfold password_user in *.
  destruct (decide (ai_provider q = password)) as [Hp|]; [|done]. injection Kq as <-.
  destruct (decide (ai_provider r = password)) as [Hp'|]; [|done]. intros [= Hu].
  rewrite (bool_decide_true _ Hp') in Hr3. by eapply (some_row_false _ _ i q Hr3).
- apply injective_insert; [done|]. intros i q k _ Hq Kq Kr. unfold subject_key_of in *. simplify_eq.
  by eapply (some_row_false _ _ i q Hr2).
- intros u (i & q & Hq & Hu). exists i, q. split; [|done]. cbn. rewrite lookup_insert_ne; [done|]. intros <-. congruence.
Qed.

Lemma with_hash_advances d h id s : advances d s (on_identities (alter (with_hash h) id) s).
Proof.
intros Hw. pose proof Hw as [[] _ _]. revert Hw.
assert (Hrow : forall i r', alter (with_hash h) id (identities s) !! i = Some r' ->
          exists r, identities s !! i = Some r /\ (r' = r \/ r' = with_hash h r)).
{ intros i r'. rewrite lookup_alter_Some. intros [(-> & r & Hr & ->)|[_ Hr]]; eauto. }
apply advances_identities.
- intros i r' Hr'. destruct (Hrow i r' Hr') as (r & Hr & [->| ->]); [by eapply so_identities0|].
  destruct (so_identities0 i r Hr) as (e & He & Hp). exists e. split; [done|]. intros Hpw.
  split; [by exists h|]. exact (proj2 (Hp Hpw)).
- eapply injective_sub; [|exact so_one_password0]. intros i r' Hr'.
  destruct (Hrow i r' Hr') as (r & Hr & [->| ->]); by exists r.
- eapply injective_sub; [|exact so_subjects0]. intros i r' Hr'.
  destruct (Hrow i r' Hr') as (r & Hr & [->| ->]); by exists r.
- intros u (i & r & Hr & Hu). destruct (decide (i = id)) as [->|Hne].
  + exists id, (with_hash h r). cbn. by rewrite lookup_alter_eq, Hr.
  + exists i, r. cbn. by rewrite lookup_alter_ne.
Qed.

Lemma insert_link_advances d id c k :
k_hash k = token_hash (dr_token d) -> c_consumed c = None -> keeps (advances d) (insert_link id c k).
Proof.
intros Hk Hc s a s' E. unfold insert_link in E. refusals. apply in_base_ok in E as (w & E & ->). apply write_ok in E. subst w.
apply held_false in Hr. intros [Hs Hids Hh]. split.
- constructor; [|cbn; auto..]. destruct Hs. constructor; unfold people in *; cbn in *; auto.
  + intros i q. rewrite lookup_insert_Some. intros [[<- <-]|[_ Hq]]; [by rewrite Hk|eauto].
  + by eapply injective_checked.
- intros f Ha Hf. destruct f; cbn in *; auto. destruct Hf as [Hin Hl]. split; [done|].
  intros i q c' Hq Hqh Hc'. unfold tokens in *. cbn in *. rewrite lookup_insert_Some in Hq; rewrite lookup_insert_Some in Hc'.
  destruct Hq as [[<- <-]|[Hne Hq]]; [congruence|]. destruct Hc' as [[<- _]|[_ Hc']]; [done|eauto].
Qed.

Lemma insert_invitation_advances d id r :
in_hash r = token_hash (dr_token d) -> strip_text (in_email r) = in_email r -> keeps (advances d) (insert_invitation id r).
Proof.
intros Hh He s a s' E. unfold insert_invitation in E. refusals. apply advances_invitations; [|by eapply injective_checked].
intros i q. rewrite lookup_insert_Some. intros [[<- <-]|[_ Hq]]; [by left|right]. exists q. auto.
Qed.
(** An invitation is written over. *)
Lemma insert_row_advances d id r r' s :
invitations s !! id = Some r -> in_email r' = in_email r -> in_hash r' = in_hash r ->
(is_open r = false -> is_open r' = false) ->
advances d s (on_invitations (insert id r') s).
Proof.
intros Hr He Hh Ho. apply advances_invitations; [|by apply (injective_same in_hash _ _ r)]. intros i q.
rewrite lookup_insert_Some. intros [[<- <-]|[_ Hq]]; right; [exists r; auto|]. exists q. auto.
Qed.

Lemma insert_factor_advances d id f : id ∈ drawn_ids d -> keeps (advances d) (insert_factor id f).
Proof.
intros Hd s a s' E. unfold insert_factor in E. refusals. intros Hw. pose proof Hw as [[] _ _]. revert Hw.
apply advances_factors.
- intros i q. rewrite lookup_insert_Some. intros [[<- <-]|[_ Hq]]; [by left|right]. by exists q.
- apply injective_insert; [done|]. intros i q k _ Hq [= <-] [= Hu]. by eapply (some_row_false _ _ i q Hr1).
Qed.
Lemma alter_factor_advances d id f s :
(forall r n, factors s !! id = Some r -> at_least n (f_last r) -> at_least n (f_last (f r))) -> (forall r, f_user (f r) = f_user r) ->
advances d s (on_factors (alter f id) s).
Proof.
intros Hn Hu Hw. pose proof Hw as [[] _ _]. revert Hw.
assert (Hrow : forall i r', alter f id (factors s) !! i = Some r' ->
          exists r, factors s !! i = Some r /\ (r' = r \/ r' = f r /\ i = id)).
{ intros i r'. rewrite lookup_alter_Some. intros [(-> & r & Hr & ->)|[_ Hr]]; eauto. }
apply advances_factors.
- intros i r' Hr'. right. destruct (Hrow i r' Hr') as (r & Hr & [->|[-> ->]]); exists r; auto.
- eapply injective_sub; [|exact so_one_factor0]. intros i r' Hr'.
  destruct (Hrow i r' Hr') as (r & Hr & [->|[-> _]]); exists r; rewrite ?Hu; auto.
Qed.
Lemma set_tries_advances d f id s : advances d s (set_tries f id s).
Proof. by apply alter_factor_advances. Qed.
Lemma sub_factors_advances d g s :
(forall i r, g (factors s) !! i = Some r -> factors s !! i = Some r) -> advances d s (on_factors g s).
Proof.
intros Hg Hw. pose proof Hw as [[] _ _]. revert Hw. apply advances_factors.
- intros i r Hr. right. exists r. auto.
- eapply injective_sub; [|exact so_one_factor0]. intros i r Hr. exists r. auto.
Qed.
Lemma delete_factor_advances d id s : advances d s (on_factors (delete id) s).
Proof. apply sub_factors_advances. intros i r Hr. by apply lookup_delete_Some in Hr as [_ ?]. Qed.
Lemma filter_factors_advances d (P : Z * factor -> Prop) `{forall x, Decision (P x)} s :
advances d s (on_factors (filter P) s).
Proof. apply sub_factors_advances. intros i r Hr. by apply map_lookup_filter_Some in Hr as [? _]. Qed.

Lemma insert_code_advances d id c : id ∈ drawn_ids d -> keeps (advances d) (insert_code id c).
Proof.
intros Hd s a s' E. unfold insert_code in E. refusals. apply advances_codes.
intros i q. rewrite lookup_insert_Some. intros [[<- <-]|[_ Hq]]; [by left|right]. by exists q.
Qed.
Lemma use_code_advances d now id s : advances d s (use_code now id s).
Proof.
apply advances_codes. intros i q. rewrite lookup_alter_Some. intros [(-> & c & Hc & ->)|[_ Hc]]; right; [by exists c|by exists q].
Qed.
Lemma drop_codes_advances d user_id s : advances d s (drop_codes user_id s).
Proof. apply advances_codes. intros i q Hq. apply map_lookup_filter_Some in Hq as [Hq _]. right. by exists q. Qed.

Lemma insert_flow_advances d id f :
fl_hash f = token_hash (dr_token d) -> fl_provider f <> password -> keeps (advances d) (insert_flow id f).
Proof.
intros Hh Hp s a s' E. unfold insert_flow in E. refusals. apply advances_flows; [|by eapply injective_checked].
intros i q. rewrite lookup_insert_Some. intros [[<- <-]|[_ Hq]]; [by left|right]. by exists q.
Qed.

(** ** Transactions *)

#[local] Hint Resolve in_base_advances refuse_advances post_advances decide_advances hold_for_sign_in_advances count_advances
spend_link_advances queue_mail_advances with_hash_advances set_tries_advances delete_factor_advances
filter_factors_advances use_code_advances drop_codes_advances insert_link_advances : ways.
Ltac advance := keep; intros; auto with ways.

Lemma spend_advances d m factor_id p : keeps (advances d) (spend m factor_id p).
Proof.
destruct p as [id|step]; cbn [spend]; [advance|]. intros s a s' E. txn_inv. destruct (step_unspent factor_id step s) eqn:Eu; [|by txn_inv].
txn_inv. apply alter_factor_advances; [|done]. intros r n Hr (l & Hl & Hn). unfold step_unspent in Eu. rewrite Hr, Hl in Eu.
exists step. split; [done|]. apply Z.ltb_lt in Eu. lia.
Qed.
#[local] Hint Resolve spend_advances : ways.

Lemma gate_advances user_id u remember expected m d : keeps (advances d) (gate_in user_id u remember expected m d).
Proof. unfold gate_in. advance. Qed.
Lemma begin_advances user_id m d : keeps (advances d) (begin_in user_id m d).
Proof. unfold begin_in. advance. Qed.
Lemma claim_attempt_advances cookie m d : keeps (advances d) (claim_attempt cookie m d).
Proof. unfold claim_attempt. advance. Qed.
Lemma win_advances link_id factor_id p m d : keeps (advances d) (win_in link_id factor_id p m d).
Proof. unfold win_in. advance. Qed.
Lemma replacement_advances factor_id m d : keeps (advances d) (spend_replacement_attempt factor_id m d).
Proof. unfold spend_replacement_attempt. advance. Qed.
Lemma take_off_advances d m user_id factor_id p : keeps (advances d) (take_off m user_id factor_id p).
Proof. unfold take_off. advance. Qed.
#[local] Hint Resolve take_off_advances : ways.
Lemma remove_advances pr factor_id p m d : keeps (advances d) (remove_factor_in pr factor_id p m d).
Proof. unfold remove_factor_in. advance. Qed.
Lemma add_codes_advances user_id d ids cs :
(forall id, id ∈ ids -> id ∈ drawn_ids d) -> keeps (advances d) (add_codes user_id ids cs).
Proof.
revert ids. induction cs as [|c cs IH]; intros [|id ids] Hids; cbn [add_codes]; [advance..|]. keep.
- apply insert_code_advances, Hids. constructor.
- apply IH. intros i Hi. apply Hids. by constructor.
Qed.
Lemma add_factor_advances d id f : id ∈ drawn_ids d -> keeps (advances d) (add_factor id f).
Proof.
intros Hd s a s' E. unfold add_factor in E. destruct (insert_factor id f s) as [[x w]|e] eqn:Ei; [|by case_decide].
injection E as <- <-. by eapply insert_factor_advances.
Qed.
Lemma confirm_advances `{CryptoOps} pr replacing r secret cs step m d :
keeps (advances d) (confirm_in pr replacing r secret cs step m d).
Proof.
assert (Hrow : dr_row d ∈ drawn_ids d) by (unfold drawn_ids; set_solver).
assert (Hrows : forall id, id ∈ dr_rows d -> id ∈ drawn_ids d) by (unfold drawn_ids; set_solver).
unfold confirm_in. advance. - by apply add_factor_advances. - by apply add_codes_advances.
Qed.
Lemma clear_factor_advances user_id m d : keeps (advances d) (clear_factor_in user_id m d).
Proof. unfold clear_factor_in. advance. Qed.

Lemma deliver_advances sends public_url user_id address m d :
keeps (advances d) (deliver_mail_in sends public_url user_id address m d).
Proof. unfold deliver_mail_in, mint_link. advance. Qed.
Lemma mint_reset_advances email m d : keeps (advances d) (mint_reset_in email m d).
Proof. unfold mint_reset_in, mint_link. advance. Qed.
Lemma mint_admin_recovery_advances email m d : keeps (advances d) (mint_admin_recovery_in email m d).
Proof. unfold mint_admin_recovery_in, mint_link. advance. Qed.

Lemma invite_advances sends public_url address r by_ m d :
strip_text address = address -> keeps (advances d) (invite_in sends public_url address r by_ m d).
Proof. intros Ha. unfold invite_in. advance. by apply insert_invitation_advances. Qed.
Lemma revoke_invitation_advances d id now : keeps (advances d) (update_open id (set_revoked_at now)).
Proof.
intros s a s' E. unfold update_open in E. txn_inv. destruct (invitations s !! id) as [r|] eqn:Er; [|by txn_inv].
destruct (is_open r); txn_inv; [|reflexivity]. eapply insert_row_advances; [exact Er|done..|].
intros _. unfold is_open. cbn. by rewrite andb_false_r.
Qed.
(** The new token is not the token of another invitation. *)
Lemma reveal_advances id m d : keeps (advances d) (reveal_in id m d).
Proof.
intros s a s' E. unfold reveal_in in E. apply txn_bind_ok in E as ([] & w & Er & E). apply not_refused in Er as [Hr ->].
apply txn_bind_ok in E as (row & w & Eu & E). apply mret_ok in E as [_ <-]. unfold update_open in Eu. txn_inv.
destruct (invitations s !! id) as [r|] eqn:Er; [|by txn_inv]. destruct (is_open r) eqn:Eo; txn_inv; [|reflexivity].
apply advances_invitations.
- intros i q. rewrite lookup_insert_Some. intros [[<- <-]|[_ Hq]]; right; [exists r; auto|]. exists q. auto.
- intros Hi. apply injective_insert; [done|]. intros i q k Hne Hq [= <-] [= Heq].
  eapply (some_row_false _ _ i q Hr); [by rewrite lookup_delete_ne by done|done].
Qed.

Lemma start_advances pr linker m d : pr <> password -> keeps (advances d) (start_in pr linker m d).
Proof. intros Hp. unfold start_in. advance. by apply insert_flow_advances. Qed.
Lemma take_flow_advances state pr m d : keeps (advances d) (take_flow state pr m d).
Proof.
intros s a s' E. unfold take_flow in E. txn_inv. destruct (find_row _ _) as [[id f]|] eqn:Ef; [|by txn_inv]. txn_inv.
apply find_row_some in Ef as [Hf _]. apply advances_flows; [|by apply (injective_same fl_hash _ _ f)]. intros i q.
rewrite lookup_insert_Some. intros [[<- <-]|[_ Hq]]; right; [by exists f|by exists q].
Qed.
Lemma prune_flows_advances (P : Z * oauth_flow -> Prop) `{forall x, Decision (P x)} d s : advances d s (on_flows (filter P) s).
Proof.
apply advances_flows.
- intros i q Hq. apply map_lookup_filter_Some in Hq as [Hq _]. right. by exists q.
- intros Hi. eapply injective_sub; [|exact Hi]. intros i q Hq. apply map_lookup_filter_Some in Hq as [Hq _]. by exists q.
Qed.

Section Credentials.
Context `{Argon2}.

Lemma conflict_advances d e {A} (t : txn ways A) : keeps (advances d) t -> keeps (advances d) (conflict e t).
Proof.
intros Ht s a s' E. unfold conflict in E. destruct (t s) as [[x w]|[]] eqn:Et; try done. injection E as <- <-. by eapply Ht.
Qed.
Lemma add_password_advances d id user_id h : keeps (advances d) (add_password id user_id h).
Proof.
intros s a s' E. unfold add_password in E. txn_inv. destruct (emails s !! user_id) as [e|] eqn:Ee; [|done].
eapply insert_identity_advances; [exact E|]. by exists e.
Qed.
#[local] Hint Resolve conflict_advances add_password_advances : ways.
Lemma change_password_advances p pw current m d : keeps (advances d) (change_password_in p pw current m d).
Proof. unfold change_password_in. advance. Qed.
Lemma take_back_advances user_id pw m d : keeps (advances d) (take_back user_id pw m d).
Proof. unfold take_back. advance. Qed.
#[local] Hint Resolve take_back_advances : ways.
Lemma complete_advances token pw m d : keeps (advances d) (complete_in token pw m d).
Proof. unfold complete_in. advance. Qed.

Lemma link_advances pr who p m d : pr <> password -> keeps (advances d) (link_in pr who p m d).
Proof.
intros Hp. unfold link_in. keep; auto with ways.
apply conflict_advances. intros t x t' E Hw.
assert (Hu : is_Some (people t !! r_user_id p)).
{ unfold insert_identity in E. refusals. by apply held_true in Hr0. }
eapply insert_identity_advances; [exact E| |exact Hw]. destruct Hw as [[] _ _].
apply elem_of_dom in Hu. rewrite <- so_emails0 in Hu. apply elem_of_dom in Hu as [e He]. by exists e.
Qed.

(** Deleting one of several identities leaves a way in. *)
Lemma another_way user_id id r s :
identities s !! id = Some r -> ai_user r = user_id -> size (identities_of user_id s) <> 1%nat ->
exists j q, j <> id /\ identities s !! j = Some q /\ ai_user q = user_id.
Proof.
intros Hr Hu Hsize. assert (Hin : identities_of user_id s !! id = Some r) by (by apply map_lookup_filter_Some).
destruct (decide (delete id (identities_of user_id s) = ∅)) as [He|Hne].
- exfalso. apply Hsize. apply (f_equal size) in He. rewrite map_size_empty in He.
  assert (Hs : size (identities_of user_id s) <> 0%nat).
  { intros Hz%map_size_empty_inv. by rewrite Hz in Hin. }
  rewrite map_size_delete_Some in He by (by eexists). lia.
- apply map_choose in Hne as (j & q & Hq). apply lookup_delete_Some in Hq as [Hj Hq].
  apply map_lookup_filter_Some in Hq as [Hq Hqu]. exists j, q. auto.
Qed.
Lemma unlink_advances p pr m d : keeps (advances d) (unlink_in p pr m d).
Proof.
intros s a s' E. unfold unlink_in in E. apply txn_bind_ok in E as ([] & w & Eh & E).
assert (Hw : w = s).
{ apply in_base_ok in Eh as (w0 & Eh & ->). apply hold_ok in Eh as ->. by destruct s as [[]]. }
subst w. clear Eh. txn_inv. destruct (find_row _ _) as [[id r]|] eqn:Ef; [|done].
apply find_row_some in Ef as [Hr _]. apply map_lookup_filter_Some in Hr as [Hr Hu].
destruct (Nat.eqb _ 1) eqn:En; [done|]. apply Nat.eqb_neq in En. txn_inv.
destruct (another_way _ id r s Hr Hu En) as (j & q & Hj & Hq & Hqu).
etransitivity; [|eapply in_base_advances; [|exact E]; auto with ways].
intros Hs. pose proof Hs as [[] _ _]. revert Hs. apply advances_identities.
- intros i x Hx. apply lookup_delete_Some in Hx as [_ Hx]. by eapply so_identities0.
- eapply injective_sub; [|exact so_one_password0]. intros i x Hx. apply lookup_delete_Some in Hx as [_ Hx]. by exists x.
- eapply injective_sub; [|exact so_subjects0]. intros i x Hx. apply lookup_delete_Some in Hx as [_ Hx]. by exists x.
- intros u (i & x & Hx & Hxu). destruct (decide (i = id)) as [->|Hne].
  + assert (x = r) as -> by congruence. exists j, q. cbn. rewrite lookup_delete_ne by done. split; [done|]. cbn in Hu. congruence.
  + exists i, x. cbn. by rewrite lookup_delete_ne by done.
Qed.

Lemma register_advances token pw m d : keeps (advances d) (register_in token pw m d).
Proof.
intros s a s' E. unfold register_in in E. apply txn_bind_ok in E as (f & w & Ef & E). apply read_ok in Ef as [-> ->].
destruct (find_invitation _ _ s) as [[id r]|] eqn:Ef; [|done]. apply find_row_some in Ef as [Hr Ho].
apply txn_bind_ok in E as ([] & w & Ew & E). apply write_ok in Ew. subst w. destruct (hash_password _ _) as [h|]; [|done].
apply txn_bind_ok in E as ([] & s2 & Eu & E). apply txn_bind_ok in E as ([] & s3 & Ei & E). txn_inv.
assert (Hd : forall id, id = dr_user d \/ id = dr_row d -> id ∈ drawn_ids d) by (unfold drawn_ids; set_solver).
apply assuming_sound. intros [[] _ _].
assert (Hacc : forall by_ u', invitations u' !! id = Some r \/ invitations u' !! id = Some (set_accepted (m_now m) (in_user r) r) ->
          advances d u' (on_invitations (insert id (set_accepted (m_now m) by_ r)) u')).
{ intros by_ u' [Hu|Hu]; by eapply insert_row_advances; [exact Hu|..]. }
etransitivity; [apply Hacc; by left|]. etransitivity; [eapply insert_user_advances; [|exact Eu]; auto|].
pose proof Eu as Eu'. unfold insert_user in Eu'. refusals. apply in_base_ok in Eu' as (w & Eb & ->).
etransitivity; [eapply insert_identity_advances; [exact Ei|]|].
- exists (in_email r). cbn. split; [by rewrite lookup_insert_eq|]. intros _. unfold normalized.
  by rewrite (proj2 (so_invitations0 id r Hr)).
- unfold insert_identity in Ei. refusals. apply Hacc. right. cbn. by rewrite lookup_insert_eq.
Qed.

(** An account's address changes, and the subject of its password with it. *)
Definition readdress (user_id : Z) (address : string) (q : identity) : identity :=
if bool_decide (ai_provider q = password /\ ai_user q = user_id)
then {| ai_user := ai_user q; ai_provider := ai_provider q; ai_subject := lower_text address; ai_hash := ai_hash q |} else q.
Lemma readdress_user user_id address q : ai_user (readdress user_id address q) = ai_user q
/\ ai_provider (readdress user_id address q) = ai_provider q /\ ai_hash (readdress user_id address q) = ai_hash q.
Proof. unfold readdress. by case_bool_decide. Qed.
Lemma lookup_readdress user_id address (rows : gmap Z identity) i q :
(readdress user_id address <$> rows) !! i = Some q -> exists q0, rows !! i = Some q0 /\ q = readdress user_id address q0.
Proof. rewrite lookup_fmap. destruct (rows !! i) as [q0|]; [|done]. intros [= <-]. by exists q0. Qed.

Lemma readdress_subjects user_id address rows :
let mine q := ai_provider q = password /\ ai_user q = user_id in
injective_on password_user rows -> injective_on subject_key_of rows ->
some_row mine rows
&& some_row (fun q => ai_provider q = password /\ ai_user q <> user_id /\ ai_subject q = lower_text address) rows = false ->
injective_on subject_key_of (readdress user_id address <$> rows).
Proof.
intros mine Hone Hsub Hr i j q1 q2 k Ha Hb Ka Kb.
apply lookup_readdress in Ha as (a0 & Ha & ->), Hb as (b0 & Hb & ->).
assert (Hclash : forall i0 j0 x y, rows !! i0 = Some x -> rows !! j0 = Some y -> mine x -> ~ mine y ->
          ai_provider y = password -> ai_subject y <> lower_text address).
{ intros i0 j0 x y Hx Hy Hm Hn Hp Hs. apply andb_false_iff in Hr as [Hr|Hr].
  - by eapply some_row_false in Hr.
  - eapply (some_row_false _ _ j0 y Hr); [exact Hy|]. split; [done|]. split; [|done]. intros Hu. by apply Hn. }
unfold subject_key_of in Ka, Kb. destruct (readdress_user user_id address a0) as (_ & Pa & _).
destruct (readdress_user user_id address b0) as (_ & Pb & _). rewrite Pa in Ka. rewrite Pb in Kb.
unfold readdress in Ka, Kb. destruct (decide (mine a0)) as [Ma|Ma], (decide (mine b0)) as [Mb|Mb];
  rewrite ?(bool_decide_true _ Ma), ?(bool_decide_false _ Ma) in Ka;
  rewrite ?(bool_decide_true _ Mb), ?(bool_decide_false _ Mb) in Kb; cbn in Ka, Kb.
- apply (Hone i j a0 b0 user_id Ha Hb); unfold password_user; rewrite decide_True by apply Ma || apply Mb;
    f_equal; apply Ma || apply Mb.
- exfalso. destruct (Hclash i j a0 b0 Ha Hb Ma Mb); [destruct Ma; congruence|congruence].
- exfalso. destruct (Hclash j i b0 a0 Hb Ha Mb Ma); [destruct Mb; congruence|congruence].
- by apply (Hsub i j a0 b0 k).
Qed.

Lemma readdress_advances d user_id address g s :
strip_text address = address -> is_Some (emails s !! user_id) -> (forall us, dom (g us) = dom us) ->
some_row (fun q => ai_provider q = password /\ ai_user q = user_id) (identities s)
&& some_row (fun q => ai_provider q = password /\ ai_user q <> user_id /\ ai_subject q = lower_text address) (identities s)
   = false ->
advances d s (on_identities (fmap (readdress user_id address))
  (with_base {| state := on_users g (state (base s)); claimed := claimed (base s) |}
     (on_emails (alter (fun _ => address) user_id) s))).
Proof.
intros Hstrip Hthere Hg Hr. one_table; unfold people in *; cbn in *.
- by rewrite dom_alter_L, Hg.
- by rewrite Hg.
- intros i q Hq. apply lookup_readdress in Hq as (q0 & Hq & ->). destruct (so_identities0 i q0 Hq) as (e & He & Hp).
  destruct (readdress_user user_id address q0) as (Eu & Ep & Eh). unfold identity_fits. rewrite Eu, Ep, Eh.
  destruct (decide (ai_user q0 = user_id)) as [<-|Hne].
  + exists address. rewrite lookup_alter_eq, He. split; [done|]. intros Hpw. split; [by apply Hp|].
    unfold readdress. rewrite bool_decide_true by done. cbn. unfold normalized. by rewrite Hstrip.
  + exists e. rewrite lookup_alter_ne by done. split; [done|]. intros Hpw. unfold readdress.
    rewrite bool_decide_false by naive_solver. by apply Hp.
- eapply injective_sub; [|exact so_one_password0]. intros i q Hq. apply lookup_readdress in Hq as (q0 & Hq & ->).
  exists q0. split; [done|]. unfold password_user. by destruct (readdress_user user_id address q0) as (-> & -> & _).
- by apply readdress_subjects.
- destruct Hf as [Hin Hw]. split; [done|]. intros Hu. assert (Hu0 : is_Some (users (state (base s)) !! user_id0)).
  { apply elem_of_dom. rewrite <- Hg. by apply elem_of_dom. }
  destruct (Hw Hu0) as (i & q & Hq & Hqu). exists i, (readdress user_id address q). cbn. rewrite lookup_fmap, Hq.
  split; [done|]. by rewrite (proj1 (readdress_user _ _ _)).
Qed.

Lemma change_email_advances p address m d : strip_text address = address -> keeps (advances d) (change_email_in p address m d).
Proof.
intros Hstrip s a s' E. unfold change_email_in in E. apply txn_bind_ok in E as ([] & w & Eh & E).
transitivity w; [eapply in_base_advances; [|exact Eh]; auto with ways|]. clear Eh s. apply txn_bind_ok in E as (cur & w1 & Ec & E).
apply read_ok in Ec as [-> ->]. destruct (emails w !! r_user_id p) as [e|] eqn:Ee; [|done].
case_decide; [by txn_inv|]. apply txn_bind_ok in E as (hd & w1 & Ec & E). apply read_ok in Ec as [-> ->].
case_match; [done|]. apply txn_bind_ok in E as ([] & w1 & E1 & E). apply txn_bind_ok in E as ([] & w2 & E2 & E).
apply txn_bind_ok in E as ([] & w3 & E3 & E). apply txn_bind_ok in E as (i & w4 & E4 & E). txn_inv.
etransitivity; [|eapply in_base_advances; [|exact E4]; auto with ways].
apply in_base_ok in E2 as (b & Eb & ->). apply write_ok in Eb. subst b.
unfold set_email in E1. refusals. unfold set_subject in E3. refusals.
apply (readdress_advances d (r_user_id p) address (alter (set_verified false) (r_user_id p)) w);
  [done|by eexists|intros us; apply dom_alter_L|exact Hr1].
Qed.

(** ** Setting up *)

Section SetupFacts.
Variable ring : result exn key_ring.

Lemma drop_setup_advances d : keeps (advances d) drop_setup_links.
Proof.
unfold drop_setup_links. advance. apply advances_links. intros i k Hk. apply map_lookup_filter_Some in Hk as [Hk _].
by exists k.
Qed.
#[local] Hint Resolve drop_setup_advances : ways.
Lemma mint_locked_advances m d : keeps (advances d) (mint_locked m d).
Proof. unfold mint_locked. advance. Qed.
Lemma spend_setup_advances d token m : keeps (advances d) (spend_setup token m).
Proof. unfold spend_setup. advance. Qed.
Lemma record_mode_advances d mode : keeps (advances d) (record_mode ring mode).
Proof. unfold record_mode. advance. Qed.

Lemma adopt_advances address pw d : strip_text address = address -> keeps (advances d) (adopt address pw d).
Proof.
intros Hstrip s a s' E. unfold adopt in E. apply txn_bind_ok in E as (hd & w1 & Ec & E). apply read_ok in Ec as [-> ->].
destruct (claimed_already s) eqn:Ecl; [done|]. destruct (hash_password _ _) as [h|]; [|done].
apply txn_bind_ok in E as (lc & w1 & Ec & E). apply read_ok in Ec as [-> ->].
destruct (local_user s) as [user_id|] eqn:El; [|done].
apply txn_bind_ok in E as ([] & w1 & E1 & E). apply txn_bind_ok in E as ([] & w2 & E2 & E).
apply txn_bind_ok in E as ([] & w3 & E3 & E). txn_inv. apply negb_false_iff, bool_decide_eq_true in Ecl.
unfold set_email in E1. refusals. unfold local_user in El. destruct (find_row _ _) as [[i e]|] eqn:Ef; [|done].
injection El as ->. apply find_row_some in Ef as [He _].
etransitivity; [|eapply insert_identity_advances; [exact E3|]].
- etransitivity; [|eapply in_base_advances; [|exact E2]; auto with ways]. apply advances_emails; [apply dom_alter_L|].
  intros j r. by rewrite Ecl, lookup_empty.
- apply in_base_ok in E2 as (b & _ & ->). exists address. cbn. rewrite lookup_alter_eq, He. split; [done|]. intros _.
  unfold normalized. by rewrite Hstrip.
Qed.
#[local] Hint Resolve mint_locked_advances spend_setup_advances record_mode_advances adopt_advances : ways.
Lemma claim_advances token address pw m d :
strip_text address = address -> keeps (advances d) (claim_installation ring token address pw m d).
Proof. intros Ha. unfold claim_installation. advance. Qed.
Lemma decline_advances token m d : keeps (advances d) (decline_in ring token m d).
Proof. unfold decline_in. advance. Qed.
Lemma turn_on_advances address pw m d : strip_text address = address -> keeps (advances d) (turn_on_in ring address pw m d).
Proof. intros Ha. unfold turn_on_in. advance. Qed.
Lemma status_advances token m d : keeps (advances d) (status_in token m d).
Proof. unfold status_in. advance. Qed.
Lemma ensure_claimable_advances m d : keeps (advances d) (ensure_claimable_in m d).
Proof. unfold ensure_claimable_in. keep. apply insert_user_advances. constructor. Qed.
End SetupFacts.

End Credentials.

End Facts.
