(* ===== verification/SignInReach.v ===== *)
(** * What every run of the ways in keeps

    Every awaited operation of every handler keeps [sound] and every [fact], and
    so does the rest of the API; [run_lasts] is what follows for runs. *)

From S2P Require Import Prelude PyFloat Hashes Json Uuid Encodings RateLimit KeyRing Transactions AccountStore AuthSessions Accounts AccountsFacts AuthSessionsSpec Tasks SignInTables Factors SignIn Setup SignInSystem SignInFacts.
Open Scope Z_scope.

Section Reach.
Context `{Texts} `{Argon2} `{CryptoOps}.

Definition lasting (s s' : ways) : Prop := sound s -> sound s' /\ forall f, holds f s -> holds f s'.
#[export] Instance lasting_preorder : PreOrder lasting.
Proof using Type.
split; [by intros s Hs|]. intros s1 s2 s3 H1' H2' Hs. destruct (H1' Hs) as [Hs2 Hf1]. destruct (H2' Hs2) as [Hs3 Hf2].
split; [done|]. intros f Hf. by apply Hf2, Hf1.
Qed.

Lemma silent_lasting s s' : silent s s' -> lasting s s'.
Proof. intros Hq Hs. split; [by eapply silent_sound|]. intros f. by apply silent_holds. Qed.

(** ** Awaited operations *)

Lemma draw_lasts d s :
fresh_draws d s -> sound s -> sound_with d (draw_from d s) /\ forall f, holds f s -> holds f (draw_from d s) /\ ~ about d f.
Proof.
intros (_ & Hids & Hh) Hs. split.
- constructor.
  + destruct Hs. constructor; unfold people in *; cbn in *; try done.
    * by etransitivity; [exact so_people|apply union_subseteq_r].
    * by etransitivity; [exact so_codes|apply union_subseteq_r].
    * by etransitivity; [exact so_factors|apply union_subseteq_r].
    * intros id k Hk. apply elem_of_union_r. by eapply so_links.
    * intros id r Hr. destruct (so_invitations id r Hr). split; [by apply elem_of_union_r|done].
    * intros id f Hf. destruct (so_flows id f Hf). split; [by apply elem_of_union_r|done].
  + intros id Hid. apply elem_of_union_l. by apply elem_of_list_to_set.
  + apply elem_of_union_l. unfold token_hashes. by apply elem_of_singleton.
- intros f Hf. split.
  + destruct f; cbn in *; (split; [|apply Hf]); apply elem_of_union_r, Hf.
  + destruct f; cbn in *; destruct Hf as [Hf _]; [intros ->; by apply Hh..| | |]; intros Hd; by eapply Hids.
Qed.

Lemma runs_lasting {A} (t : moment -> draws -> txn ways A) s r s' :
(forall m d, keeps (advances d) (t m d)) -> runs t s r s' -> lasting s s'.
Proof.
intros Ht (m & d & Hfresh & Hout) Hs. destruct (draw_lasts d s Hfresh Hs) as [Hsw Hf].
assert (Hdraw : sound (draw_from d s) /\ forall f, holds f s -> holds f (draw_from d s)).
{ split; [apply Hsw|]. intros f Hh. by apply Hf. }
destruct (t m d (draw_from d s)) as [[a s1]|e] eqn:E; [|by destruct Hout as [_ ->]].
assert (Hnew : sound s1 /\ forall f, holds f s -> holds f s1).
{ destruct (Ht m d _ _ _ E Hsw) as [[Hs1 _ _] Hf1]. split; [done|]. intros f Hh. destruct (Hf f Hh). by apply Hf1. }
by destruct Hout as [[_ ->]|[_ [-> | ->]]].
Qed.

Lemma runs_ok {A} (t : moment -> draws -> txn ways A) s a s' :
runs t s (Ok a) s' -> exists m d, fresh_draws d s /\ t m d (draw_from d s) = Ok (a, s').
Proof using Type.
intros (m & d & Hfresh & Hout). exists m, d. split; [done|].
destruct (t m d (draw_from d s)) as [[x s1]|e]; [|destruct Hout as [[Hr|[msg Hr]] _]; discriminate Hr].
destruct Hout as [[Hr ->]|[[msg Hr] _]]; [by injection Hr as <-|discriminate Hr].
Qed.

Definition op_lasts (b : bool) (X : Type) (o : op X) : Prop := forall s x s', exec b X o s x s' -> lasting s s'.
Lemma txn_lasts b {A} (t : moment -> draws -> txn ways A) :
(forall m d, keeps (advances d) (t m d)) -> op_lasts b _ (Txn t).
Proof. intros Ht s x s' He. by eapply runs_lasting. Qed.
Lemma read_lasts b {A} (f : moment -> draws -> ways -> A) : op_lasts b _ (Txn (fun m d => read (f m d))).
Proof. apply txn_lasts. intros m d. apply keeps_read, _. Qed.
Lemma factory_lasts b : op_lasts b _ Factory.
Proof. intros s x s' ->. reflexivity. Qed.
Lemma clock_lasts b : op_lasts b _ Clock.
Proof. intros s x s' ->. reflexivity. Qed.
Lemma charge_lasts b f : op_lasts b _ (Charge f).
Proof.
intros s x s' (c & rows & _ & [[_ ->]|[_ [-> | ->]]]); [|reflexivity|]; apply silent_lasting; by repeat split.
Qed.
Lemma tell_lasts b c : op_lasts b _ (Tell c).
Proof. intros s x s' ->. apply silent_lasting. by repeat split. Qed.
Lemma audit_lasts b a : op_lasts b _ (Audit a).
Proof. intros s x s' ->. apply silent_lasting. by repeat split. Qed.
Lemma exchange_lasts b p code verifier nonce : op_lasts b _ (Exchange p code verifier nonce).
Proof. intros s x s' ->. reflexivity. Qed.

(** ** The rest of the API *)

Lemma account_run_shrinks o b : dom (users (state (account_run b o))) ⊆ dom (users (state b)).
Proof using Type.
destruct (account_run_users o b) as [|id t r _ Ht|id t r _ Ht|id t m _ Ht|id t _ Ht|id t c m _ Ht|id _];
  try done; rewrite ?dom_insert, ?dom_delete; try set_solver;
  apply elem_of_dom_2 in Ht; set_solver.
Qed.

Lemma account_step_lasts o s : lasting s (account_step_on o s).
Proof.
pose proof (account_run_shrinks o (base s)) as Hu. pose proof (account_run_caps o (base s)) as Hc.
unfold account_step_on. set (b := account_run (base s) o) in *. intros Hs. destruct Hs. split.
- constructor; unfold people, tokens in *; cbn.
  + apply set_eq. intros i. rewrite !elem_of_dom. split.
    * intros [e [_ Hi]%map_lookup_filter_Some]. by apply elem_of_dom.
    * intros Hi. assert (Hin : i ∈ dom (emails s)) by (rewrite so_emails; by apply Hu, elem_of_dom).
      apply elem_of_dom in Hin as [e He]. exists e. apply map_lookup_filter_Some. split; [done|]. by apply elem_of_dom.
  + etransitivity; [exact Hu|done].
  + etransitivity; [apply dom_filter_subseteq|done].
  + etransitivity; [apply dom_filter_subseteq|done].
  + intros id k [Hk _]%map_lookup_filter_Some. by eapply so_links.
  + intros id r'. rewrite lookup_fmap. destruct (invitations s !! id) as [r|] eqn:Er; [|done]. intros [= <-]. cbn.
    by eapply so_invitations.
  + intros id f. apply so_flows.
  + intros id r [Hr Hin]%map_lookup_filter_Some. destruct (so_identities id r Hr) as (e & He & Hp).
    exists e. split; [|done]. cbn in Hin. by apply map_lookup_filter_Some.
  + eapply injective_sub; [|exact so_one_password]. intros i r [Hr _]%map_lookup_filter_Some. by exists r.
  + eapply injective_sub; [|exact so_subjects]. intros i r [Hr _]%map_lookup_filter_Some. by exists r.
  + eapply injective_sub; [|exact so_one_factor]. intros i r [Hr _]%map_lookup_filter_Some. by exists r.
  + eapply injective_sub; [|exact so_one_link]. intros i r [Hr _]%map_lookup_filter_Some. by exists r.
  + eapply injective_sub; [|exact so_one_invitation]. intros i r'. rewrite lookup_fmap.
    destruct (invitations s !! i) as [r|]; [|done]. intros [= <-]. by exists r.
  + exact so_one_flow.
- intros f Hf. destruct f; unfold holds, people, tokens in *; cbn in *; destruct Hf as [Hin Hf]; (split; [done|]).
  + intros id k c' [Hk _]%map_lookup_filter_Some Hh Hc'. destruct (Hc id c' Hc') as (c & Hcs & Hkeep).
    apply Hkeep. by eapply Hf.
  + intros id r'. rewrite lookup_fmap. destruct (invitations s !! id) as [r|] eqn:Er; [|done]. intros [= <-]. cbn.
    by apply (Hf id r).
  + exact Hf.
  + intros c [Hcd _]%map_lookup_filter_Some. by apply Hf.
  + intros g [Hg _]%map_lookup_filter_Some. by apply Hf.
  + intros Hp. destruct Hf as (i & r & Hr & Hru); [by apply elem_of_dom, Hu, elem_of_dom|].
    exists i, r. split; [|done]. cbn. apply map_lookup_filter_Some. split; [done|]. cbn. rewrite Hru. by apply elem_of_dom.
Qed.

Lemma outside_lasts s s' : outside s s' -> lasting s s'.
Proof.
intros [o t _|l sup t t' E1 E2 E3 E4 E5 E6 E7 E8 _ _ E9 E10 _ _]; [apply account_step_lasts|].
apply silent_lasting. unfold silent, people, tokens. rewrite E8. auto 20.
Qed.

(** ** Handlers *)

Definition returned (X : Type) (o : op X) (x : X) : Prop := exists b s s', sound s /\ exec b X o s x s'.
Abbreviation lasts := (every returned op_lasts).

Lemma checked_email_stripped email address : checked_email email = Ok address -> strip_text address = address.
Proof using Type.
unfold checked_email. destruct (partition_at _) as [l d]. case_match; [done|]. intros [= <-]. apply strip_text_idempotent.
Qed.

Create HintDb lasts.
#[local] Hint Resolve in_base_advances gentle_mint gentle_resolve gentle_revoke gate_advances begin_advances
claim_attempt_advances win_advances replacement_advances remove_advances confirm_advances clear_factor_advances
deliver_advances mint_reset_advances mint_admin_recovery_advances invite_advances revoke_invitation_advances
reveal_advances start_advances take_flow_advances change_password_advances complete_advances
unlink_advances register_advances mint_locked_advances record_mode_advances claim_advances decline_advances
turn_on_advances status_advances ensure_claimable_advances conflict_advances change_email_advances checked_email_stripped
keeps_read keeps_write advances_preorder prune_flows_advances : lasts.
Create HintDb handlers.
#[local] Hint Unfold need_database query tell audit mint_session resolve_session end_session presented_session close_others
need_recent need_active current_principal recent_principal administrator mint_behind_the_gate begin_challenge recovery_proof
prove_step verify_code prove_held retire enter : handlers.
Ltac lasts_leaf :=
  first [apply factory_lasts|apply clock_lasts|apply charge_lasts|apply tell_lasts|apply audit_lasts|apply exchange_lasts
        |apply txn_lasts; intros ? ?; solve [eauto 4 with lasts|apply keeps_read, _]].
Ltac lasts_walk :=
  repeat (progress autounfold with handlers); repeat (cbv zeta; every_step); try lasts_leaf.

Lemma resolve_lasts b token : lasts b (resolve_session token).
Proof. lasts_walk. Qed.
Lemma end_session_lasts b id : lasts b (end_session id).
Proof. lasts_walk. Qed.
Lemma principal_lasts b token checked : lasts b (current_principal token checked).
Proof. lasts_walk. Qed.


Section Handlers.
Variable ring : result exn key_ring.
Variable sends : bool.
Variable public_url : string.
Variable offered : list provider.

Lemma login_lasts b email pw remember peer cookie : lasts b (login email pw remember peer cookie).
Proof. unfold login. lasts_walk. Qed.
Lemma answer_lasts b cookie remembered code : lasts b (answer_challenge ring cookie remembered code).
Proof. unfold answer_challenge. lasts_walk. Qed.
Lemma confirm_lasts b token checked enrolment code current :
lasts b (confirm_enrolment ring token checked enrolment code current).
Proof. unfold confirm_enrolment. lasts_walk. Qed.
Lemma remove_lasts b token checked code : lasts b (remove_factor ring token checked code).
Proof. unfold remove_factor. lasts_walk. Qed.
Lemma enrol_lasts b token checked bytes nonce cs : lasts b (start_enrolment ring token checked bytes nonce cs).
Proof. unfold start_enrolment. lasts_walk. Qed.
Lemma clear_lasts b email : lasts b (clear_factor email).
Proof. unfold clear_factor. lasts_walk. Qed.
Lemma password_lasts b token checked pw current : lasts b (change_password token checked pw current).
Proof. unfold change_password. lasts_walk. Qed.
Lemma email_lasts b token checked email : lasts b (change_email token checked email).
Proof. unfold change_email. lasts_walk. Qed.
Lemma unlink_lasts b token checked pr : lasts b (unlink_identity token checked pr).
Proof. unfold unlink_identity. lasts_walk. Qed.
Lemma ask_lasts b email peer : lasts b (ask sends public_url email peer).
Proof. unfold ask, deliver_reset. lasts_walk. split; [lasts_leaf|]. intros []; [|done]. intros _. lasts_walk. Qed.
Lemma mint_reset_lasts b email : lasts b (mint_reset email).
Proof. unfold mint_reset. lasts_walk. Qed.
Lemma admin_recovery_lasts b email : lasts b (mint_admin_recovery public_url email).
Proof. unfold mint_admin_recovery. lasts_walk. Qed.
Lemma complete_lasts b token pw : lasts b (complete token pw).
Proof. unfold complete. lasts_walk. Qed.
Lemma invite_lasts b token checked email r : lasts b (invite sends public_url token checked email r).
Proof. unfold invite. lasts_walk. Qed.
Lemma invitations_lasts b token checked : lasts b (open_invitations token checked).
Proof. unfold open_invitations. lasts_walk. Qed.
Lemma revoke_lasts b token checked id : lasts b (revoke_invitation token checked id).
Proof. unfold revoke_invitation. lasts_walk. Qed.
Lemma reveal_lasts b token checked id : lasts b (reveal public_url token checked id).
Proof. unfold reveal. lasts_walk. Qed.
Lemma register_lasts b token pw : lasts b (register token pw).
Proof. unfold register. lasts_walk. Qed.
Lemma start_flow_lasts b pr linker : lasts b (start_flow offered pr linker).
Proof.
unfold start_flow. lasts_walk. apply txn_lasts. intros m d. apply start_advances. intros ->.
match goal with E : _ && _ = true |- _ => apply andb_true_iff in E as [E _]; by apply bool_decide_eq_true_1 in E; set_solver end.
Qed.
Lemma start_link_lasts b token checked pr : lasts b (start_link offered token checked pr).
Proof. unfold start_link. lasts_walk. apply start_flow_lasts. Qed.
Lemma prune_lasts b : lasts b prune_flows.
Proof. unfold prune_flows. lasts_walk. Qed.
Lemma setup_lasts b token account : lasts b (setup_route ring token account).
Proof. unfold setup_route, claim, decline_accounts, sign_in_owner. lasts_walk. Qed.
Lemma enable_lasts b email pw : lasts b (enable_accounts ring email pw).
Proof. unfold enable_accounts, turn_accounts_on, sign_in_owner. lasts_walk. Qed.
Lemma status_lasts b token : lasts b (setup_status token).
Proof. unfold setup_status. lasts_walk. Qed.
Lemma enable_command_lasts b : lasts b (enable_command ring).
Proof. unfold enable_command, mint_setup_token. lasts_walk. Qed.
Lemma flow_provider state pr f : returned _ (Txn (take_flow state pr)) (Ok (Some f)) -> pr <> password.
Proof using Type.
intros (b & s & s' & Hs & Hr). apply runs_ok in Hr as (m & d & _ & E). unfold take_flow in E. txn_inv.
destruct (find_row _ _) as [[id g]|] eqn:Ef; [|by txn_inv]. apply find_row_some in Ef as [Hg Ho].
destruct (so_flows _ Hs id g Hg) as [_ Hp]. unfold open_flow in Ho.
rewrite !andb_true_iff, !bool_decide_eq_true in Ho. destruct Ho as [[[_ <-] _] _]. done.
Qed.
Lemma callback_lasts b pr state code flow cookie : lasts b (callback pr state code flow cookie).
Proof.
unfold callback, provider_sign_in, link_identity. lasts_walk. apply txn_lasts. intros m d. apply link_advances.
simplify_eq. by eapply flow_provider.
Qed.

(** ** Runs *)

Lemma starts_last b s p : starts ring sends public_url offered b s p -> lasts b p.
Proof.
intros []; apply every_forget; auto using login_lasts, answer_lasts, confirm_lasts, remove_lasts, enrol_lasts, clear_lasts,
  password_lasts, email_lasts, unlink_lasts, ask_lasts, mint_reset_lasts, admin_recovery_lasts, complete_lasts, invite_lasts,
  invitations_lasts, revoke_lasts, reveal_lasts, register_lasts, start_flow_lasts, start_link_lasts, prune_lasts,
  setup_lasts, enable_lasts, status_lasts, enable_command_lasts, callback_lasts.
apply start_flow_lasts.
Qed.

Definition tame (l : list (bool * prog op unit)) : Prop := Forall (fun bp : bool * prog op unit => lasts bp.1 bp.2) l.

Lemma step_lasts s l s' l' :
ways_step ring sends public_url offered (s, l) (s', l') -> sound s -> tame l -> lasting s s' /\ tame l'.
Proof.
intros Hstep Hs Hl. remember (s, l) as sl eqn:E1. remember (s', l') as sl' eqn:E2.
destruct Hstep as [t t' l1 l2 b X o k x He|t l1 l2 b f k|t l1 l2 b u|t l0 b p Hst Hb|t t' l0 Ho];
  injection E1 as <- <-; injection E2 as <- <-; unfold tame in *.
- apply Forall_app in Hl as [Hl1 [[Ho Hk] Hl2]%Forall_cons]. split; [by eapply Ho|].
  apply Forall_app. split; [done|]. constructor; [|done]. apply Hk. by exists b, t, t'.
- split; [reflexivity|]. apply Forall_app in Hl as [Hl1 [[Hf Hk] Hl2]%Forall_cons].
  apply Forall_app. split; [done|]. constructor; [done|]. apply Forall_app. split; [done|]. by constructor.
- split; [reflexivity|]. apply Forall_app in Hl as [Hl1 [_ Hl2]%Forall_cons]. by apply Forall_app.
- split; [reflexivity|]. apply Forall_app. split; [done|]. constructor; [|done]. by eapply starts_last.
- split; [by apply outside_lasts|done].
Qed.

(** Whatever requests run and however they interleave. *)
Theorem run_lasts s l s' l' :
ways_run ring sends public_url offered (s, l) (s', l') -> sound s -> tame l ->
(sound s' /\ tame l') /\ forall f, holds f s -> holds f s'.
Proof.
intros Hrun. remember (s, l) as sl eqn:E1. remember (s', l') as sl' eqn:E2. revert s l E1.
induction Hrun as [sl|sl [s1 l1] sl'' Hstep _ IH]; intros s l -> Hs Hl.
- by injection E2 as -> ->.
- destruct (step_lasts _ _ _ _ Hstep Hs Hl) as [Hlast Hl1]. destruct (Hlast Hs) as [Hs1 Hf1].
  destruct (IH E2 s1 l1 eq_refl Hs1 Hl1) as [Hok Hf2]. split; [done|]. intros f Hf. by apply Hf2, Hf1.
Qed.
(** What a transaction keeps of what it has made a fact. *)
Lemma rest_keeps d f (s0 w w' : ways) :
sound_with d s0 -> advances d s0 w -> advances d w w' -> ~ about d f -> holds f w -> holds f w'.
Proof using Type. intros Hs0 Hw0 Hw1 Ha Hf. destruct (Hw0 Hs0) as [Hw _]. destruct (Hw1 Hw) as [_ Hk]. by apply Hk. Qed.
Lemma hash_not_drawn d s h : fresh_draws d s -> h ∈ hashes s -> h <> token_hash (dr_token d).
Proof using Type. intros (_ & _ & Hn) Hin ->. by apply Hn. Qed.

(** What a transaction that ran has made a fact is one in every later state. *)
Lemma later_holds {A} (t : moment -> draws -> txn ways A) s r s1 l s2 l2 f :
sound s -> tame l -> ways_run ring sends public_url offered (s1, l) (s2, l2) -> runs t s r s1 ->
(forall m d, keeps (advances d) (t m d)) -> holds f s1 -> holds f s2.
Proof.
intros Hs Hl Hrun Hr Ht Hf. destruct (runs_lasting t s r s1 Ht Hr Hs) as [Hs1 _].
destruct (run_lasts _ _ _ _ Hrun Hs1 Hl) as [_ Hk]. by apply Hk.
Qed.
End Handlers.

End Reach.
