(* ===== verification/SignInSamples.v ===== *)
(** * An installation with two accounts, and requests on it

    An administrator, and a member with a password and a linked provider, on
    which the witnesses of the theorems about signing in evaluate. *)

From S2P Require Import Prelude Hashes Json Uuid Encodings RateLimit KeyRing KeyRingSpec Transactions AccountStore AuthSessions Accounts AccountsFacts Tasks SignInTables Factors SignIn Setup SignInSystem SignInFacts SignInReach.
Open Scope Z_scope.

(** ** Runs, executed

    [answer] gives an awaited operation one of the outcomes [exec] allows it,
    [play] a whole schedule of requests and steps; what they compute is a run of
    the system. *)

(** How an operation comes out: the moment and the draws of a transaction, the
    readings of the clocks, whether there is a database, the provider's word. *)
Record choice := {
  ch_moment : moment; ch_draws : draws; ch_clock : clock; ch_now : Z; ch_there : bool; ch_who : option provider_identity
}.

Global Instance fresh_draws_dec d s : Decision (fresh_draws d s).
Proof.
  unfold fresh_draws. apply and_dec; [apply _|]. apply and_dec; [|apply _].
  destruct (decide (Forall (fun id => ~ id ∈ drawn s) (drawn_ids d))) as [Hall|Hn];
    [left|right]; rewrite Forall_forall in *; auto.
Defined.

Definition answer_txn {A} (c : choice) (t : moment -> draws -> txn ways A) (s : ways) : option (result exn A * ways) :=
  if decide (fresh_draws (ch_draws c) s) then
    Some match t (ch_moment c) (ch_draws c) (draw_from (ch_draws c) s) with
         | Ok (a, s1) => (Ok a, s1)
         | Err e => (Err e, draw_from (ch_draws c) s)
         end
  else None.
Definition answer (c : choice) (X : Type) (o : op X) : ways -> option (X * ways) :=
  match o in op X return ways -> option (X * ways) with
  | Txn t => answer_txn c t
  | Factory => fun s => Some (ch_there c, s)
  | Clock => fun s => Some (ch_now c, s)
  | Charge f => fun s =>
      let '(r, rows) := f (ch_clock c) (Some (tries s)) in Some (r, with_tries (default (tries s) rows) s)
  | Tell x => fun s => Some (tt, with_base {| state := emit x (state (base s)); claimed := claimed (base s) |} s)
  | Audit a => fun s => Some (tt, record_audit a s)
  | Exchange _ _ _ _ => fun s => Some (Ok (ch_who c), s)
  end.

Lemma answer_txn_runs {A} c (t : moment -> draws -> txn ways A) s r s' :
  answer_txn c t s = Some (r, s') -> runs t s r s'.
Proof.
  unfold answer_txn. case_decide as Hf; [|done]. intros E. exists (ch_moment c), (ch_draws c). split; [done|].
  destruct (t _ _ _) as [[a s1]|e]; injection E as <- <-; by left || (split; [by left|done]).
Qed.
Lemma way_answer_execs c b X (o : op X) s x s' : answer c X o s = Some (x, s') -> exec b X o s x s'.
Proof.
  destruct o; cbn; intros E; try by injection E as <- <-.
  - by eapply answer_txn_runs.
  - unfold charges. exists (ch_clock c). destruct (f _ _) as [r rows]. injection E as <- <-. exists rows. split; [done|]. by left.
Qed.

(** The state a transaction leaves, when it commits. *)
Definition committed {A} (c : choice) (t : moment -> draws -> txn ways A) (s : ways) : ways :=
  match answer_txn c t s with Some (_, s') => s' | None => s end.
Definition answered {A} (c : choice) (t : moment -> draws -> txn ways A) (s : ways) : option (result exn A) :=
  fst <$> answer_txn c t s.
Lemma committed_runs {A} c (t : moment -> draws -> txn ways A) s r : answered c t s = Some r -> runs t s r (committed c t s).
Proof.
  intros Ha. apply (answer_txn_runs c). unfold answered, committed in *. destruct (answer_txn c t s) as [[q s']|]; [|done].
  by injection Ha as ->.
Qed.
Lemma committed_draws {A} c (t : moment -> draws -> txn ways A) s a :
  answered c t s = Some (Ok a) -> t (ch_moment c) (ch_draws c) (draw_from (ch_draws c) s) = Ok (a, committed c t s).
Proof.
  unfold answered, committed, answer_txn. destruct (decide (fresh_draws _ _)); [|done].
  destruct (t _ _ _) as [[x s']|e]; [|done]. by intros [= ->].
Qed.

Section Play.
Context `{Texts} `{Argon2} `{CryptoOps}.
Variable ring : result exn key_ring.
Variable sends : bool.
Variable public_url : string.
Variable offered : list provider.

Inductive move : Type :=
| Step (task : nat) (c : choice)
| Login (email pw : string) (remember_me : bool)
| Answer (cookie code : string)
| Ask (email : string)
| Complete (token pw : string)
| Register (token pw : string)
| Unlink (token : string) (pr : provider)
| Rest (o : account_step).

Definition make_move (m : move) (sl : ways * list (bool * prog op unit)) : option (ways * list (bool * prog op unit)) :=
match m with
| Step task c => advance answer task c sl
| Login email pw remember_me => began false (forget (login email pw remember_me None None)) sl
| Answer cookie code => began false (forget (answer_challenge ring (Some cookie) false code)) sl
| Ask email => began false (forget (ask sends public_url email None)) sl
| Complete token pw => began false (forget (complete token pw)) sl
| Register token pw => began false (forget (register token pw)) sl
| Unlink token pr => began false (forget (unlink_identity (Some token) (Ok tt) (Some pr))) sl
| Rest o => if is_mint o then None else Some (account_step_on o sl.1, sl.2)
end.
Fixpoint play (ms : list move) (sl : ways * list (bool * prog op unit)) : option (ways * list (bool * prog op unit)) :=
match ms with [] => Some sl | m :: ms => make_move m sl ≫= play ms end.

Lemma way_move_step m sl sl' : make_move m sl = Some sl' -> ways_step ring sends public_url offered sl sl'.
Proof.
intros Hm.
assert (Hb : forall p, starts ring sends public_url offered false sl.1 p -> began false p sl = Some sl' ->
          ways_step ring sends public_url offered sl sl') by (intros p; apply began_step).
destruct m as [task c| | | | | | |o]; unfold make_move in Hm; try (eapply Hb; [|exact Hm]; constructor).
- eapply advance_step; [apply way_answer_execs|exact Hm].
- destruct (is_mint o) eqn:Eo; [done|]. injection Hm as <-. destruct sl as [s l]. by apply pool_outside, out_account.
Qed.
Lemma way_play_run ms sl sl' : play ms sl = Some sl' -> ways_run ring sends public_url offered sl sl'.
Proof.
revert sl. induction ms as [|m ms IH]; intros sl; cbn; [by intros [= <-]; constructor|].
destruct (make_move m sl) as [sl1|] eqn:E; [|done]. cbn. intros Hp. eapply rtc_l; [by eapply way_move_step|by apply IH].
Qed.
Definition played_to (ms : list move) (s : ways) : ways := from_option fst s (play ms (s, [])).
Definition left_over (ms : list move) (s : ways) : list (bool * prog op unit) := from_option snd [] (play ms (s, [])).
Definition plays (ms : list move) (s : ways) : bool := match play ms (s, []) with Some _ => true | None => false end.
Lemma way_played_run ms s :
plays ms s = true -> ways_run ring sends public_url offered (s, []) (played_to ms s, left_over ms s).
Proof.
unfold plays, played_to, left_over. destruct (play ms (s, [])) as [[s' l']|] eqn:Hp; [|done]. intros _. by apply (way_play_run ms).
Qed.
End Play.

Definition ascii_lower (s : string) : string := string_of_chars (map lower_char (chars_of_string s)).
#[export] Instance plain_texts : Texts := {| lower_unicode := fun s => s; lower_btrim := fun s => ascii_lower (strip_text s) |}.
#[export] Instance plain_argon2 : Argon2 :=
  {| argon2_hash := fun salt pw => "argon2:" +:+ pw; argon2_verify := fun h pw => bool_decide (h = "argon2:" +:+ pw) |}.
#[export] Existing Instance KeyRingSpec.toy_ops.

Definition SAMPLE_RING : result exn key_ring := Ok {| KeyRing.roots := {[1 := replicate 32 7]}; KeyRing.active := 1 |}.
Definition SITE : string := "https://studio.example/".
Definition MIA : string := "mia@example.org".
Definition OLD_PASSWORD : string := "the first phrase".
Definition NEW_PASSWORD : string := "quite another one".

(** Mia is account 3, signed in; the reset link mailed to her is 51. *)
Definition RESET_TOKEN : string := "reset-token".
Definition member_world : world :=
  {| users := {[1 := account_of admin; 2 := account_of admin; 3 := account_of member]};
     sessions := {[11 := signed_in 1 "root" false; 33 := signed_in 3 "me" true]};
     capabilities := {[51 := {| c_user := Some 3; c_purpose := reset; c_consumed := None |}]};
     jobs := ∅; assets := ∅; inflight := ∅; calls := [] |}.
Definition JOIN_TOKEN : string := "join-token".
Definition sample_ways : ways :=
  {| base := {| state := member_world; claimed := ∅ |};
     emails := {[1 := "root@example.org"; 2 := "ops@example.org"; 3 := MIA]};
     identities := {[71 := {| ai_user := 1; ai_provider := password; ai_subject := "root@example.org"; ai_hash := Some "argon2:rootroot" |};
                     73 := {| ai_user := 3; ai_provider := password; ai_subject := MIA;
                              ai_hash := Some ("argon2:" +:+ OLD_PASSWORD) |};
                     74 := {| ai_user := 3; ai_provider := google; ai_subject := "g-3"; ai_hash := None |}]};
     links := {[51 := {| k_hash := token_hash RESET_TOKEN; k_attempts := 0; k_expires := 30 * minute |}]};
     factors := ∅; codes := ∅;
     invitations := {[61 := {| in_email := "Ned@example.org"; in_role := viewer; in_by := Some 1; in_user := None;
                               in_hash := token_hash JOIN_TOKEN; in_expires := 72 * hour; in_accepted := None;
                               in_revoked := None; in_created := 0 |}]};
     flows := ∅; outbox := []; suppressed := ∅; tries := ∅; decided := Some accounts; audits := [];
     drawn := list_to_set (seqZ 0 100); hashes := {[token_hash RESET_TOKEN; token_hash JOIN_TOKEN]} |}.

(** The [n]th transaction of a run, at a time; numbers and texts of its own. *)
Definition digit (n : Z) : string := String.String (val_byte (48 + n mod 10)) "".
Definition draws_of (n : Z) : draws :=
  {| dr_user := 1000 * n; dr_row := 1000 * n + 1; dr_rows := [1000 * n + 3; 1000 * n + 4]; dr_token := "token" +:+ digit n;
     dr_verifier := "v"; dr_mark := "m"; dr_salt := "salt"; dr_nonce := replicate 12 0;
     dr_session := {| d_id := 1000 * n + 2; d_token := "cookie" +:+ digit n; d_csrf := "csrf" |} |}.
Definition at_instant (t : Z) : moment := {| m_connected := true; m_now := t; m_gate := fun _ => true |}.
Definition nth_at (n t : Z) : choice :=
  {| ch_moment := at_instant t; ch_draws := draws_of n; ch_clock := {| t_charge := t; t_address := t; t_reserve := t |};
     ch_now := t; ch_there := true; ch_who := None |}.
Abbreviation played ms s := (play SAMPLE_RING true SITE ms (s, [])).

(** A sign-in with the old password has matched it and not yet made its
    session; a reset runs from end to end; then the sign-in goes on. *)
Definition across_a_reset : list move :=
  [Login MIA OLD_PASSWORD false; Step 0 (nth_at 1 10); Step 0 (nth_at 1 10); Step 0 (nth_at 1 10);
   Complete RESET_TOKEN NEW_PASSWORD; Step 1 (nth_at 2 20); Step 1 (nth_at 2 20); Step 1 (nth_at 3 21); Step 1 (nth_at 3 22);
   Step 0 (nth_at 4 30); Step 0 (nth_at 4 30); Step 0 (nth_at 4 30)].
(** A reset asked for by a member who is promoted while it is on its way. *)
Definition promote_mia : account_step :=
  ChangeRole (at_instant 15) 3 {| rc_role := admin; rc_attested := false |} (signed_in 1 "root" false).
Definition across_a_promotion : list move :=
  [Ask MIA; Step 0 (nth_at 1 10); Step 0 (nth_at 1 10); Step 0 (nth_at 1 10); Step 0 (nth_at 1 10);
   Step 0 (nth_at 1 11); Step 0 (nth_at 1 11); Rest promote_mia; Step 0 (nth_at 2 20)].

(** ** The sample is sound *)

Definition injective_check {A B} `{EqDecision B} (key : A -> option B) (rows : gmap Z A) : bool :=
  let l := map_to_list rows in
  forallb (fun a => forallb (fun b => bool_decide (key a.2 = None) || negb (bool_decide (key a.2 = key b.2)) || (a.1 =? b.1)) l) l.
Lemma injective_checks {A B} `{EqDecision B} (key : A -> option B) rows : injective_check key rows = true -> injective_on key rows.
Proof.
  unfold injective_check. rewrite forallb_forall. intros Hc i j a b k Ha Hb Ka Kb.
  specialize (Hc (i, a)). rewrite forallb_forall in Hc. apply elem_of_map_to_list, list_elem_of_In in Ha, Hb.
  specialize (Hc Ha (j, b) Hb). cbn in Hc. rewrite Ka, Kb in Hc. rewrite bool_decide_false, (bool_decide_true (Some k = Some k)) in Hc by done.
  by apply Z.eqb_eq in Hc.
Qed.
Definition row_check {A} (p : Z -> A -> bool) (rows : gmap Z A) : bool := forallb (fun kv : Z * A => p kv.1 kv.2) (map_to_list rows).
Lemma row_checks {A} (p : Z -> A -> bool) rows : row_check p rows = true -> forall id r, rows !! id = Some r -> p id r = true.
Proof.
  unfold row_check. rewrite forallb_forall. intros Hc id r Hr. apply elem_of_map_to_list, list_elem_of_In in Hr. by apply (Hc (id, r)).
Qed.

Definition fits_check (es : gmap Z string) (r : identity) : bool :=
  match es !! ai_user r with
  | Some e => if decide (ai_provider r = password) then bool_decide (is_Some (ai_hash r)) && bool_decide (ai_subject r = normalized e) else true
  | None => false
  end.
Definition sound_check (s : ways) : bool :=
  bool_decide (dom (emails s) = dom (people s)) && bool_decide (dom (people s) ⊆ drawn s)
  && bool_decide (dom (codes s) ⊆ drawn s) && bool_decide (dom (factors s) ⊆ drawn s)
  && row_check (fun _ k => bool_decide (k_hash k ∈ hashes s)) (links s)
  && row_check (fun _ r => bool_decide (in_hash r ∈ hashes s) && bool_decide (strip_text (in_email r) = in_email r)) (invitations s)
  && row_check (fun _ f => bool_decide (fl_hash f ∈ hashes s) && bool_decide (fl_provider f <> password)) (flows s)
  && row_check (fun _ r => fits_check (emails s) r) (identities s)
  && injective_check password_user (identities s) && injective_check subject_key_of (identities s)
  && injective_check (fun f => Some (f_user f)) (factors s) && injective_check (fun k => Some (k_hash k)) (links s)
  && injective_check (fun r => Some (in_hash r)) (invitations s) && injective_check (fun f => Some (fl_hash f)) (flows s).
Lemma sound_checks s : sound_check s = true -> sound s.
Proof.
  unfold sound_check. rewrite !andb_true_iff, !bool_decide_eq_true.
  intros [[[[[[[[[[[[[He Hp] Hc] Hf] Hl] Hi] Hfl] Hid] H1] H2] H3] H4] H5] H6].
  constructor; try done; try (by apply injective_checks).
  - intros id k Hk. by apply (row_checks _ _ Hl id), bool_decide_eq_true in Hk.
  - intros id r Hr. apply (row_checks _ _ Hi id) in Hr. by rewrite andb_true_iff, !bool_decide_eq_true in Hr.
  - intros id r Hr. apply (row_checks _ _ Hfl id) in Hr. by rewrite andb_true_iff, !bool_decide_eq_true in Hr.
  - intros id r Hr. apply (row_checks _ _ Hid id) in Hr. unfold fits_check in Hr. destruct (emails s !! ai_user r) as [e|] eqn:Ee; [|done].
    exists e. split; [done|]. intros Hpw. rewrite decide_True, andb_true_iff, !bool_decide_eq_true in Hr by done. done.
Qed.
Lemma sample_sound : sound sample_ways.
Proof. apply sound_checks. vm_compute. reflexivity. Qed.

(** The provider of Mia's account is unlinked from the browser she is signed in
    with; the second request finds only the password left. *)
Definition unlinking : list move :=
  Unlink "me" google :: map (fun n => Step 0 (nth_at n 10)) [1; 1; 1; 1; 1; 2; 3; 3].
Abbreviation sample_end ms := (played_to SAMPLE_RING true SITE ms sample_ways).
Abbreviation sample_rest ms := (left_over SAMPLE_RING true SITE ms sample_ways).
(** The reset link is used, at a time. *)
Definition reset_at (n t : Z) : ways := committed (nth_at n t) (complete_in RESET_TOKEN NEW_PASSWORD) sample_ways.
(** What a sign-in with Mia's address finds afterwards. *)
Definition MIA_AFTER : identity :=
  {| ai_user := 3; ai_provider := password; ai_subject := MIA; ai_hash := Some ("argon2:" +:+ NEW_PASSWORD) |}.
