(* ===== verification/SignInSpec.v ===== *)
(** * What signing in promises

    In any interleaving of requests: a password names the account that holds
    the address, a link, an invitation, a redirect and a code work once, an
    account that has a way in keeps one, a reset ends what the account held, a
    session is opened for what was proved, and a second factor is guessed at a
    bounded number of times. *)

From S2P Require Import Prelude PyFloat Hashes Json Uuid Encodings RateLimit KeyRing Transactions AccountStore AuthSessions Accounts AccountsFacts AuthSessionsSpec Tasks SignInTables Factors SignIn Setup SignInSystem SignInFacts SignInReach SignInSamples.
Open Scope Z_scope.

Section Promises.
Context `{Texts} `{Argon2} `{CryptoOps}.
Variable ring : result exn key_ring.
Variable sends : bool.
Variable public_url : string.
Variable offered : list provider.
Abbreviation run := (ways_run ring sends public_url offered).

(** ** Passwords and addresses *)

Lemma password_of_some subject s r u :
password_of subject s = Some (r, u) ->
(exists id, identities s !! id = Some r) /\ ai_provider r = password /\ ai_subject r = subject /\ people s !! ai_user r = Some u.
Proof using Type.
unfold password_of. destruct (find_row _ _) as [[id q]|] eqn:Ef; [|done]. apply find_row_some in Ef as [Hq Hp].
apply andb_true_iff in Hp as [Hp%bool_decide_eq_true Hs%bool_decide_eq_true].
destruct (people s !! ai_user q) as [v|] eqn:Eu; [|done]. intros [= <- <-]. split; [by exists id|done].
Qed.

(** C14 A password names its account: in every reachable state the identity a
    sign-in with an address finds belongs to the account whose address that is,
    up to case and padding; it carries a password; and neither the address nor
    the account has another one. *)
Theorem password_names_its_account s l s' l' email r u :
sound s -> tame l -> run (s, l) (s', l') -> password_of (normalized email) s' = Some (r, u) ->
(exists address, emails s' !! ai_user r = Some address /\ normalized address = normalized email)
/\ is_Some (ai_hash r)
/\ (forall id q, identities s' !! id = Some q -> ai_provider q = password ->
      ai_subject q = normalized email \/ ai_user q = ai_user r -> q = r).
Proof using Type.
intros Hs Hl Hrun Hfound. destruct (run_lasts _ _ _ _ _ _ _ _ Hrun Hs Hl) as [[Hs' _] _].
apply password_of_some in Hfound as ([id Hid] & Hp & Hsub & _).
destruct (so_identities _ Hs' id r Hid) as (e & He & Hpw). destruct (Hpw Hp) as [Hh Hsub'].
split; [exists e; split; [done|congruence]|]. split; [done|]. intros j q Hq Hqp [Hqs|Hqu].
- assert (j = id) as ->; [|congruence]. apply (so_subjects _ Hs' j id q r (password, normalized email)); [done..| |].
  + unfold subject_key_of. congruence.
  + unfold subject_key_of. congruence.
- assert (j = id) as ->; [|congruence]. apply (so_one_password _ Hs' j id q r (ai_user r)); [done..| |];
    unfold password_user; rewrite decide_True by done; congruence.
Qed.

(** ** Ways in *)

(** C15 An account keeps a way in: whatever is unlinked, changed, reset or linked,
    by whatever requests and in whatever order, an account that has an identity
    has one for as long as the account is there. *)
Theorem way_in_kept s l s' l' user_id :
sound s -> tame l -> run (s, l) (s', l') -> is_Some (people s !! user_id) -> has_way user_id s ->
is_Some (people s' !! user_id) -> has_way user_id s'.
Proof using Type.
intros Hs Hl Hrun Hu Hw Hu'. destruct (run_lasts _ _ _ _ _ _ _ _ Hrun Hs Hl) as [_ Hf].
assert (Hfact : holds (WayIn user_id) s) by (split; [by apply (so_people _ Hs), elem_of_dom|done]).
by apply (Hf _ Hfact).
Qed.

(** ** Capabilities *)

Lemma open_link_some h ps now s id k :
open_link h ps now s id k = true -> exists c, tokens s !! id = Some c /\ k_hash k = h /\ c_consumed c = None.
Proof using Type.
unfold open_link. destruct (tokens s !! id) as [c|]; [|done]. rewrite !andb_true_iff, !bool_decide_eq_true.
intros [[[Hk _] Hc] _]. by exists c.
Qed.
Lemma find_link_some h ps now s id owner :
find_link h ps now s = Some (id, owner) ->
exists k c, links s !! id = Some k /\ k_hash k = h /\ tokens s !! id = Some c /\ c_user c = owner.
Proof using Type.
unfold find_link. destruct (find_row _ _) as [[i k]|] eqn:Ef; [|done]. apply find_row_some in Ef as [Hk Ho].
apply open_link_some in Ho as (c & Hc & Hh & _). rewrite Hc. intros [= <- <-]. by exists k, c.
Qed.
Lemma spent_not_found h ps now s : holds (LinkSpent h) s -> find_link h ps now s = None.
Proof using Type.
intros [_ Hs]. unfold find_link. destruct (find_row _ _) as [[id k]|] eqn:Ef; [|done]. apply find_row_some in Ef as [Hk Ho].
apply open_link_some in Ho as (c & Hc & Hh & Hn). by destruct (Hs id k c Hk Hh Hc).
Qed.
Lemma spend_link_spends h ps now s x s' : sound s -> spend_link h ps now s = Ok (Some x, s') -> holds (LinkSpent h) s'.
Proof using Type.
intros Hs E. unfold spend_link in E. apply txn_bind_ok in E as (f & w & Er & E). apply read_ok in Er as [-> ->].
destruct (find_link h ps now s) as [[id owner]|] eqn:Ef; [|by txn_inv]. apply txn_bind_ok in E as ([] & w & Ew & E). txn_inv.
apply in_base_ok in Ew as (w0 & Ew & ->). apply write_ok in Ew. subst w0.
apply find_link_some in Ef as (k & c & Hk & Hh & Hc & _). split; [rewrite <- Hh; by apply (so_links _ Hs id)|].
intros i q c' Hq Hqh Hc'. cbn in Hq. assert (i = id) as ->.
{ eapply (so_one_link _ Hs); [exact Hq|exact Hk|reflexivity|]. by rewrite Hh, Hqh. }
unfold tokens in *. cbn in Hc'. rewrite lookup_alter_eq, Hc in Hc'. injection Hc' as <-.
unfold set_consumed. by destruct (c_consumed c).
Qed.

Lemma complete_spends token pw s u s1 :
sound s -> runs (complete_in token pw) s (Ok u) s1 -> holds (LinkSpent (token_hash token)) s1.
Proof using Type.
intros Hs Hr. apply runs_ok in Hr as (m & d & Hfresh & E). destruct (draw_lasts d s Hfresh Hs) as [Hsw _].
set (s0 := draw_from d s) in *. unfold complete_in in E.
apply txn_bind_ok in E as (f & w & Er & E). apply read_ok in Er as [-> ->].
destruct (find_link _ _ _ s0) as [[id [holder|]]|] eqn:Ef; [|done..].
assert (Hin : token_hash token ∈ hashes s).
{ apply find_link_some in Ef as (k & c & Hk & <- & _). by apply (so_links _ Hs id). }
apply txn_bind_ok in E as ([] & w & Eh & E). assert (Hh : advances d s0 w).
{ eapply in_base_advances; [|exact Eh]. auto with ways. }
apply txn_bind_ok in E as (spent & w1 & Es & E). destruct spent as [[i [user_id|]]|]; [|done..].
assert (Hw : holds (LinkSpent (token_hash token)) w1) by (eapply spend_link_spends; [apply (Hh Hsw)|exact Es]).
eapply (rest_keeps d _ s0 w1); [done| | | |done].
- etransitivity; [exact Hh|]. by eapply spend_link_advances.
- by eapply take_back_advances.
- cbn. by eapply hash_not_drawn.
Qed.

Lemma find_invitation_some h now s id r :
find_invitation h now s = Some (id, r) -> invitations s !! id = Some r /\ in_hash r = h /\ is_open r = true.
Proof using Type.
intros Hf. apply find_row_some in Hf as [Hr Ho]. rewrite !andb_true_iff, bool_decide_eq_true in Ho. tauto.
Qed.
Lemma closed_not_found h now s : holds (InvitationClosed h) s -> find_invitation h now s = None.
Proof using Type.
intros [_ Hc]. destruct (find_invitation h now s) as [[id r]|] eqn:Ef; [|done].
apply find_invitation_some in Ef as (Hr & Hh & Ho). by rewrite (Hc id r Hr Hh) in Ho.
Qed.
(** The one invitation with a hash is closed, or has another hash. *)
Lemma invitation_closes id r r' s0 s1 :
sound s0 -> invitations s0 !! id = Some r -> invitations s1 = <[id := r']> (invitations s0) -> hashes s0 ⊆ hashes s1 ->
in_hash r' <> in_hash r \/ is_open r' = false -> holds (InvitationClosed (in_hash r)) s1.
Proof using Type.
intros Hs Hr Hi Hsub Hcase. split; [by apply Hsub, (so_invitations _ Hs id)|]. intros j q. rewrite Hi, lookup_insert_Some.
intros [[<- <-]|[Hne Hq]] Hh; [by destruct Hcase|]. exfalso. apply Hne.
by apply (so_one_invitation _ Hs id j r q (in_hash r)); [..|rewrite Hh].
Qed.

Lemma register_closes token pw s u s1 :
sound s -> runs (register_in token pw) s (Ok u) s1 -> holds (InvitationClosed (token_hash token)) s1.
Proof using Type.
intros Hs Hr. apply runs_ok in Hr as (m & d & Hfresh & E). destruct (draw_lasts d s Hfresh Hs) as [[Hs0 _ _] _].
set (s0 := draw_from d s) in *. unfold register_in in E.
apply txn_bind_ok in E as (f & w & Er & E). apply read_ok in Er as [-> ->].
destruct (find_invitation _ _ s0) as [[id r]|] eqn:Ef; [|done]. apply find_invitation_some in Ef as (Hr & <- & Ho).
apply txn_bind_ok in E as ([] & w & Ew & E). apply write_ok in Ew. subst w. destruct (hash_password _ _) as [h|]; [|done].
apply txn_bind_ok in E as ([] & s2 & Eu & E). apply txn_bind_ok in E as ([] & s3 & Ei & E). txn_inv.
unfold insert_user in Eu. refusals. apply in_base_ok in Eu as (w & _ & ->). unfold insert_identity in Ei. refusals.
eapply (invitation_closes id r (set_accepted (m_now m) (Some (dr_user d)) r) s0); [done|done|cbn|done|by right].
by rewrite insert_insert_eq.
Qed.
Lemma reveal_closes id s r fresh s1 :
sound s -> runs (reveal_in id) s (Ok (Some (r, fresh))) s1 -> holds (InvitationClosed (in_hash r)) s1.
Proof using Type.
intros Hs Hr. apply runs_ok in Hr as (m & d & Hfresh & E). destruct (draw_lasts d s Hfresh Hs) as [[Hs0 _ _] _].
set (s0 := draw_from d s) in *. unfold reveal_in in E. apply txn_bind_ok in E as ([] & w & Er & E).
apply not_refused in Er as [_ ->]. apply txn_bind_ok in E as (row & w & Eu & E). apply mret_ok in E as [Er <-].
unfold update_open in Eu. apply txn_bind_ok in Eu as (x & w & Ex & Eu). apply read_ok in Ex as [-> ->].
destruct (invitations s0 !! id) as [q|] eqn:Eq; [|txn_inv; done]. destruct (is_open q) eqn:Eo; txn_inv; [|done].
injection Er as <- Ed. eapply (invitation_closes id r _ s0); [done|done|done|done|left]. cbn. apply not_eq_sym.
eapply hash_not_drawn; [exact Hfresh|]. by apply (so_invitations _ Hs id).
Qed.
Lemma flow_taken state pr s f s1 :
sound s -> runs (take_flow state pr) s (Ok (Some f)) s1 -> holds (FlowSpent (token_hash state)) s1.
Proof using Type.
intros Hs Hr. apply runs_ok in Hr as (m & d & Hfresh & E). destruct (draw_lasts d s Hfresh Hs) as [[Hs0 _ _] _].
set (s0 := draw_from d s) in *. unfold take_flow in E. apply txn_bind_ok in E as (x & w & Er & E). apply read_ok in Er as [-> ->].
destruct (find_row _ _) as [[id g]|] eqn:Ef; [|txn_inv; done]. apply find_row_some in Ef as [Hg Ho]. txn_inv.
unfold open_flow in Ho. rewrite !andb_true_iff, !bool_decide_eq_true in Ho. destruct Ho as [[[Hh _] _] _].
split; [rewrite <- Hh; by apply (so_flows _ Hs0 id)|]. intros j q. cbn. rewrite lookup_insert_Some.
intros [[<- <-]|[Hne Hq]] Hqh; [done|]. exfalso. apply Hne. by apply (so_one_flow _ Hs0 id j g q (token_hash state)); [..|by rewrite Hh|by rewrite Hqh].
Qed.
Lemma taken_not_found state pr s m d : holds (FlowSpent (token_hash state)) s -> take_flow state pr m d s = Ok (None, s).
Proof using Type.
intros [_ Hc]. unfold take_flow. txn_run. destruct (find_row _ _) as [[id g]|] eqn:Ef; [|done].
apply find_row_some in Ef as [Hg Ho]. unfold open_flow in Ho. rewrite !andb_true_iff, !bool_decide_eq_true in Ho.
destruct Ho as [[[Hh _] Hn] _]. by destruct (Hc id g Hg Hh).
Qed.

(** C13 What is handed out works once: once a reset link has reset a password, an
    invitation has made an account or was given a new link, a redirect to a
    provider has come back, the same token is refused in every later state,
    whatever else happens, for every password and at every time. *)
Theorem capabilities_work_once token s s1 l s2 l2 :
sound s -> tame l -> run (s1, l) (s2, l2) ->
(forall pw u, runs (complete_in token pw) s (Ok u) s1 ->
   forall pw' m d, complete_in token pw' m d s2 = Err INVALID_LINK)
/\ (forall pw u, runs (register_in token pw) s (Ok u) s1 ->
   forall pw' m d, register_in token pw' m d s2 = Err INVALID_INVITATION)
/\ (forall id r fresh, runs (reveal_in id) s (Ok (Some (r, fresh))) s1 -> in_hash r = token_hash token ->
   forall pw' m d, register_in token pw' m d s2 = Err INVALID_INVITATION)
/\ (forall pr f, runs (take_flow token pr) s (Ok (Some f)) s1 ->
   forall pr' m d, take_flow token pr' m d s2 = Ok (None, s2)).
Proof using Type.
intros Hs Hl Hrun.
split_and!.
- intros pw u Hr pw' m d. unfold complete_in. txn_run.
  rewrite spent_not_found; [done|]. eapply later_holds; [exact Hs|exact Hl|exact Hrun|exact Hr|apply complete_advances|by eapply complete_spends].
- intros pw u Hr pw' m d. unfold register_in. txn_run.
  rewrite closed_not_found; [done|]. eapply later_holds; [exact Hs|exact Hl|exact Hrun|exact Hr|apply register_advances|by eapply register_closes].
- intros id r fresh Hr Hh pw' m d. unfold register_in. txn_run. rewrite closed_not_found; [done|].
  rewrite <- Hh. eapply later_holds; [exact Hs|exact Hl|exact Hrun|exact Hr|apply reveal_advances|by eapply reveal_closes].
- intros pr f Hr pr' m d. apply taken_not_found.
  eapply later_holds; [exact Hs|exact Hl|exact Hrun|exact Hr|apply take_flow_advances|by eapply flow_taken].
Qed.

(** ** Recovery *)

Lemma held_base m user_id wait s w : in_base (hold_the_account m user_id wait) s = Ok (tt, w) -> w = s.
Proof using Type. intros E. apply in_base_ok in E as (w0 & E & ->). apply hold_ok in E as ->. by destruct s as [[]]. Qed.
Lemma password_of_unique s id r u address :
sound s -> identities s !! id = Some r -> ai_provider r = password -> people s !! ai_user r = Some u ->
emails s !! ai_user r = Some address -> password_of (normalized address) s = Some (r, u).
Proof using Type.
intros Hs Hr Hp Hu He. destruct (so_identities _ Hs id r Hr) as (e & He' & Hpw). destruct (Hpw Hp) as [_ Hsub].
assert (e = address) as -> by congruence. unfold password_of. destruct (find_row _ _) as [[j q]|] eqn:Ef.
- apply find_row_some in Ef as [Hq Ho]. rewrite andb_true_iff, !bool_decide_eq_true in Ho. destruct Ho as [Hqp Hqs].
  assert (j = id) as -> by (by apply (so_subjects _ Hs j id q r (password, normalized address)); [..|unfold subject_key_of; congruence|
    unfold subject_key_of; congruence]).
  assert (q = r) as -> by congruence. cbn. by rewrite Hu.
- pose proof (find_row_none _ _ id r Ef Hr) as Hno. cbn in Hno. by rewrite (bool_decide_true _ Hp), (bool_decide_true _ Hsub) in Hno.
Qed.

(** What a reset leaves, of the account and of the others. *)
Record taken_back (user_id : Z) (h : string) (s s' : ways) : Prop := {
tb_people : people s' = people s;
tb_emails : emails s' = emails s;
tb_ended : all_ended user_id (state (base s'));
tb_identity : exists id r, identities s' !! id = Some r /\ ai_user r = user_id /\ ai_provider r = password
                          /\ ai_hash r = Some h;
tb_others : forall id r, ai_user r <> user_id -> identities s' !! id = Some r <-> identities s !! id = Some r;
tb_sessions : forall id r, s_user r <> user_id -> live_rows s' !! id = Some r <-> live_rows s !! id = Some r
}.

Lemma replace_password id user_id (d : draws) h s u s' :
match password_identity user_id s with
| Some (id, _) => write (on_identities (alter (with_hash h) id))
| None => add_password id user_id h
end s = Ok (u, s') ->
base s' = base s /\ emails s' = emails s
/\ (exists id r, identities s' !! id = Some r /\ ai_user r = user_id /\ ai_provider r = password /\ ai_hash r = Some h)
/\ forall id r, ai_user r <> user_id -> identities s' !! id = Some r <-> identities s !! id = Some r.
Proof using Type.
destruct (password_identity user_id s) as [[j q]|] eqn:Ep; intros E.
- apply find_row_some in Ep as [Hq Ho]. rewrite andb_true_iff, Z.eqb_eq, bool_decide_eq_true in Ho. destruct Ho as [Hu Hp].
  apply write_ok in E. subst s'. cbn. split; [done|]. split; [done|]. split.
  + exists j, (with_hash h q). by rewrite lookup_alter_eq, Hq.
  + intros i r Hr. destruct (decide (i = j)) as [->|Hne]; [|by rewrite lookup_alter_ne].
    rewrite lookup_alter_eq, Hq. cbn. split; intros [= <-]; done.
- unfold add_password in E. apply txn_bind_ok in E as (x & w & Er & E). apply read_ok in Er as [-> ->].
  destruct (emails s !! user_id) as [e|] eqn:Ee; [|done]. unfold insert_identity in E. refusals. apply held_false in Hr. cbn.
  split; [done|]. split; [done|]. split; [eexists id, _; by rewrite lookup_insert_eq|].
  intros i r Hne. destruct (decide (i = id)) as [->|Hi]; [|by rewrite lookup_insert_ne].
  rewrite lookup_insert_eq, Hr. split; [|done]. by intros [= <-].
Qed.

Lemma take_back_ok user_id pw m d s u s' :
take_back user_id pw m d s = Ok (u, s') -> u = user_id /\ exists h, hash_password (dr_salt d) pw = Some h /\ taken_back user_id h s s'.
Proof using Type.
intros E. unfold take_back in E. apply txn_bind_ok in E as ([] & w & Ee & E).
apply in_base_ok in Ee as (b & Ee & ->). apply write_ok in Ee. subst b. destruct (hash_password _ _) as [h|]; [|done].
apply txn_bind_ok in E as (ex & w & Er & E). apply read_ok in Er as [-> ->]. apply txn_bind_ok in E as ([] & w & Ep & E).
apply (replace_password _ _ d) in Ep as (Hb & Hem & Hid & Hothers). apply txn_bind_ok in E as ([] & w1 & Ew & E).
apply mret_ok in E as [-> <-]. apply in_base_ok in Ew as (b & Ew & ->). apply write_ok in Ew. subst b.
split; [done|]. exists h. split; [done|].
assert (Hrow : forall id r', live_rows (with_base {| state := revoke_account user_id (m_now m) (state (base w)); claimed := claimed (base w) |} w) !! id = Some r' <->
  exists r, live_rows s !! id = Some r /\ r' = (if s_user r =? user_id then set_revoked (m_now m) r else r)).
{ intros id r'. unfold live_rows. cbn. rewrite lookup_revoke_where, Hb. cbn. destruct (sessions _ !! id) as [r|]; cbn.
  - split; [intros [= <-]; by exists r|]. by intros (x & [= <-] & ->).
  - split; [done|]. by intros (x & ? & _). }
constructor; unfold people in *; cbn; try done.
- by rewrite Hb.
- intros id r' Hr' Hu. apply Hrow in Hr' as (r & Hr & ->). destruct (s_user r =? user_id) eqn:Er; [apply set_revoked_some|].
  by rewrite Hu, Z.eqb_refl in Er.
- intros id r' Hne. split.
  + intros (r & Hr & ->)%Hrow. destruct (s_user r =? user_id) eqn:Er; [|done]. by apply Z.eqb_eq in Er.
  + intros Hr. apply Hrow. exists r'. split; [done|]. by rewrite (proj2 (Z.eqb_neq _ _) Hne).
Qed.

(** C16 A reset takes the account back: when a link has set a password, it was an
    unused reset or recovery link of that account; every session of the account
    is ended; whoever gives the account's address is compared against the new
    password and nothing else; and no other account's password, provider or
    session is touched. *)
Theorem reset_takes_the_account_back token pw s user_id s1 :
sound s -> runs (complete_in token pw) s (Ok user_id) s1 ->
(exists id k c, links s !! id = Some k /\ k_hash k = token_hash token /\ tokens s !! id = Some c
   /\ c_user c = Some user_id /\ c_purpose c ∈ RESET_PURPOSES /\ c_consumed c = None)
/\ exists salt h, hash_password salt pw = Some h /\ taken_back user_id h s s1
   /\ exists address r u, emails s !! user_id = Some address /\ people s !! user_id = Some u
      /\ password_of (normalized address) s1 = Some (r, u) /\ ai_user r = user_id /\ ai_hash r = Some h.
Proof.
intros Hs Hr. destruct (runs_lasting _ _ _ _ (complete_advances token pw) Hr Hs) as [Hs1 _].
apply runs_ok in Hr as (m & d & Hfresh & E). unfold complete_in in E.
apply txn_bind_ok in E as (f & w & Er & E). apply read_ok in Er as [-> ->].
destruct (find_link _ _ _ _) as [[id [holder|]]|] eqn:Ef; [|done..]. apply txn_bind_ok in E as ([] & w & Eh & E).
apply held_base in Eh as ->. apply txn_bind_ok in E as (spent & w & Es & E). unfold spend_link in Es.
apply txn_bind_ok in Es as (x & w1 & Ex & Es). apply read_ok in Ex as [-> ->]. rewrite Ef in Es.
apply txn_bind_ok in Es as ([] & w1 & Ew & Es). apply mret_ok in Es as [-> ->]. apply in_base_ok in Ew as (b & Ew & ->).
apply write_ok in Ew. subst b. apply take_back_ok in E as [-> (h & Hh & Htb)].
assert (Htb' : taken_back holder h s s1) by (destruct Htb; by constructor).
split; [|exists (dr_salt d), h; split; [done|]; split; [done|]].
- unfold find_link in Ef. destruct (find_row _ _) as [[i k]|] eqn:Ek; [|done]. apply find_row_some in Ek as [Hk Ho].
  unfold open_link in Ho. destruct (tokens (draw_from d s) !! i) as [c|] eqn:Ec; [|done]. injection Ef as -> Hc.
  rewrite !andb_true_iff, !bool_decide_eq_true in Ho. destruct Ho as [[[Hkh Hp] Hn] _]. by exists id, k, c.
- destruct (tb_identity _ _ _ _ Htb') as (i & r & Hi & Hu & Hp & Hhash). destruct (so_identities _ Hs1 i r Hi) as (e & He & _).
  assert (Hpeople : is_Some (people s1 !! holder)).
  { rewrite Hu in He. apply elem_of_dom. rewrite <- (so_emails _ Hs1). by apply elem_of_dom. }
  destruct Hpeople as [u Hpu]. exists e, r, u. rewrite Hu in He.
  rewrite <- (tb_people _ _ _ _ Htb'), <- (tb_emails _ _ _ _ Htb'). split_and!; try done.
  apply (password_of_unique s1 i); by rewrite ?Hu.
Qed.

End Promises.

(** ** Witnesses *)

Lemma password_names_its_account_witness :
  password_of (normalized MIA) (sample_end across_a_reset) = Some (MIA_AFTER, account_of member)
  /\ exists address, emails (sample_end across_a_reset) !! ai_user MIA_AFTER = Some address /\ normalized address = normalized MIA.
Proof.
  assert (Hfound : password_of (normalized MIA) (sample_end across_a_reset) = Some (MIA_AFTER, account_of member))
    by (vm_compute; reflexivity).
  assert (Hplayed : plays SAMPLE_RING true SITE across_a_reset sample_ways = true) by (vm_compute; reflexivity).
  split; [exact Hfound|].
  exact (proj1 (password_names_its_account SAMPLE_RING true SITE [] sample_ways [] (sample_end across_a_reset)
    (sample_rest across_a_reset) MIA MIA_AFTER (account_of member) sample_sound (List.Forall_nil _)
    (way_played_run SAMPLE_RING true SITE [] across_a_reset sample_ways Hplayed) Hfound)).
Defined.

Lemma way_in_kept_witness : has_way 3 (sample_end unlinking) /\ size (identities_of 3 (sample_end unlinking)) = 1%nat.
Proof.
  split; [|vm_compute; reflexivity].
  apply (way_in_kept SAMPLE_RING true SITE [] sample_ways [] (sample_end unlinking) (sample_rest unlinking) 3).
  - apply sample_sound.
  - by constructor.
  - apply way_played_run. vm_compute. reflexivity.
  - by eexists.
  - eexists 74, _. split; [vm_compute; reflexivity|reflexivity].
  - vm_compute. by eexists.
Defined.

Lemma capabilities_work_once_witness :
  runs (complete_in RESET_TOKEN NEW_PASSWORD) sample_ways (Ok 3) (reset_at 1 20)
  /\ forall pw m d, complete_in RESET_TOKEN pw m d (reset_at 1 20) = Err INVALID_LINK.
Proof.
  assert (Hr : runs (complete_in RESET_TOKEN NEW_PASSWORD) sample_ways (Ok 3) (reset_at 1 20)).
  { apply committed_runs. vm_compute. reflexivity. }
  split; [exact Hr|].
  destruct (capabilities_work_once SAMPLE_RING true SITE [] RESET_TOKEN sample_ways (reset_at 1 20) [] (reset_at 1 20) [])
    as [Hx _]; [apply sample_sound|by constructor|constructor|]. exact (Hx NEW_PASSWORD 3 Hr).
Defined.

Lemma reset_takes_the_account_back_witness :
  exists salt h, hash_password salt NEW_PASSWORD = Some h /\ taken_back 3 h sample_ways (reset_at 1 20).
Proof.
  assert (Hr : runs (complete_in RESET_TOKEN NEW_PASSWORD) sample_ways (Ok 3) (reset_at 1 20)).
  { apply committed_runs. vm_compute. reflexivity. }
  destruct (reset_takes_the_account_back RESET_TOKEN NEW_PASSWORD sample_ways 3 (reset_at 1 20) sample_sound Hr)
    as [_ (salt & h & Hh & Htb & _)]. exists salt, h. split; [exact Hh|exact Htb].
Defined.

(** ** What resets do not end *)

(** A sign-in outlives the reset that should have ended it.  Mia's reset runs
    from end to end between the moment a sign-in with her old password has
    matched it and the moment that sign-in makes its session: the old password
    is gone and refused, and the session it opened is live ten minutes later. *)
Theorem sign_in_outlives_reset :
  exists s l, ways_run SAMPLE_RING true SITE [] (sample_ways, []) (s, l)
  /\ (exists r u, password_of (normalized MIA) s = Some (r, u) /\ verify_password (default "" (ai_hash r)) NEW_PASSWORD = true
      /\ verify_password (default "" (ai_hash r)) OLD_PASSWORD = false)
  /\ exists id row, live_rows s !! id = Some row /\ s_user row = 3 /\ s_created row = 30
     /\ is_live (10 * minute) id (state (base s)) = true.
Proof.
  exists (sample_end across_a_reset), (sample_rest across_a_reset). split; [apply way_played_run; vm_compute; reflexivity|]. split.
  - eexists _, _. split_and!; vm_compute; reflexivity.
  - eexists 4002, _. split_and!; vm_compute; reflexivity.
Qed.

(** An administrator is mailed a reset link.  Mia is made an administrator
    while the reset she was asked for is on its way: the link is mailed to her
    after the promotion, and whoever holds it takes the administrator's account. *)
Theorem administrator_mailed_reset :
  exists s l u token, ways_run SAMPLE_RING true SITE [] (sample_ways, []) (s, l)
  /\ people s !! 3 = Some u /\ u_role u = admin
  /\ {| ml_to := MIA; ml_template := "reset"; ml_link := page_link SITE "reset" token |} ∈ outbox s
  /\ runs (complete_in token NEW_PASSWORD) s (Ok 3) (committed (nth_at 9 20) (complete_in token NEW_PASSWORD) s).
Proof.
  eexists (sample_end across_a_promotion), (sample_rest across_a_promotion), _, "token2".
  split; [apply way_played_run; vm_compute; reflexivity|].
  split; [vm_compute; reflexivity|]. split; [reflexivity|]. split; [vm_compute; by left|].
  apply committed_runs. vm_compute. reflexivity.
Qed.
