(* ===== verification/EntrySpec.v ===== *)
(** * No session without a proof

    [proved] says, for each request, what it has done and been answered by the
    time it opens a session for an account; no other request opens one. *)

From S2P Require Import Prelude PyFloat Hashes Json Uuid Encodings Totp RateLimit KeyRing Transactions AccountStore AuthSessions Accounts AccountsFacts AuthSessionsSpec Tasks SignInTables Factors SignIn Setup SignInSystem SignInFacts SignInReach SignInSamples.
Open Scope Z_scope.

(** ** A request on its way

    A task as it walks through its operations, whatever runs in between, and
    what it has done by then; [proved] is what must have happened before a
    request opens a session for an account. *)

(** ** A task on its way *)

(** An operation a task awaited, the states before and after, and its answer. *)
Record event := Event { ev_before : ways; ev_type : Type; ev_op : op ev_type; ev_answer : ev_type; ev_after : ways }.

(** From the program [p] a task has come to [q]; the states between its
    operations are anybody's. *)
Inductive walks (b : bool) {A : Type} : prog op A -> list event -> prog op A -> Prop :=
| walks_here p : walks b p [] p
| walks_on {X} (o : op X) k s x s' h q :
    exec b X o s x s' -> walks b (k x) h q -> walks b (Do o k) (Event s X o x s' :: h) q
| walks_fork t k h q : walks b k h q -> walks b (Fork t k) h q.

Definition did (b : bool) (h : list event) (X : Type) (o : op X) (x : X) : Prop :=
  exists s s', Event s X o x s' ∈ h /\ exec b X o s x s'.

Lemma walks_every (R : forall X, op X -> X -> Prop) P b {A} (p q : prog op A) h :
  walks b p h q -> (forall X o x, did b h X o x -> R X o x) -> every R P b p -> every R P b q.
Proof.
  intros Hw. induction Hw as [p|X o k s x s' h q He Hw IH|t k h q Hw IH]; intros HR Hp; [done|..].
  - apply IH.
    + intros Y o' y (t & t' & Hin & He'). apply HR. exists t, t'. split; [by right|done].
    + apply Hp, HR. exists s, s'. split; [by left|done].
  - apply IH; [done|apply Hp].
Qed.

Lemma every_assoc {A B C : Type} (R : forall X, op X -> X -> Prop) P b (h : handler op A) (f : A -> handler op B)
    (g : B -> handler op C) :
  every R P b (h ≫= fun a => f a ≫= g) -> every R P b ((h ≫= f) ≫= g).
Proof.
  unfold mbind, handler_bind. revert b.
  assert (Hgen : forall (p : prog op (result exn A)) b,
    every R P b (sequel p (fun r => match r with
       Ok a => sequel (f a) (fun r => match r with Ok a => g a | Err e => Ret (Err e) end) | Err e => Ret (Err e) end)) ->
    every R P b (sequel (sequel p (fun r => match r with Ok a => f a | Err e => Ret (Err e) end))
       (fun r => match r with Ok a => g a | Err e => Ret (Err e) end))); [|intros b; apply Hgen].
  fix IH 1. intros p b. destruct p as [[a|e]|X o k|t k]; cbn; [done..| |].
  - intros [Ho Hk]. split; [done|]. intros x Hx. apply IH. by apply Hk.
  - intros [Ht Hk]. split; [done|]. by apply IH.
Qed.

(** ** Statements that open no session *)

Definition same_owners (w w' : world) : Prop :=
  forall id r', sessions w' !! id = Some r' -> exists r, sessions w !! id = Some r /\ s_user r = s_user r'.
#[export] Instance same_owners_preorder : PreOrder same_owners.
Proof.
  split; [intros w id r Hr; by exists r|]. intros a b c H1 H2 id x Hx.
  destruct (H2 id x Hx) as (y & Hy & Exy). destruct (H1 id y Hy) as (z & Hz & Eyz). exists z. split; [done|congruence].
Qed.
Lemma owners_same w w' : sessions w' = sessions w -> same_owners w w'.
Proof. intros E id r. rewrite E. intros Hr. by exists r. Qed.
Lemma owners_revoke p now w : same_owners w (on_sessions (revoke_where p now) w).
Proof.
  intros id r'. cbn. rewrite lookup_revoke_where. destruct (sessions w !! id) as [r|]; [|done].
  intros [= <-]. exists r. split; [done|]. by destruct (p id r).
Qed.
Lemma owners_revoke_account user_id now w : same_owners w (revoke_account user_id now w).
Proof. apply owners_revoke. Qed.
Lemma owners_write f : (forall w, same_owners w (f w)) -> keeps same_owners (write f).
Proof. apply keeps_write. Qed.
Lemma owners_hold m user_id wait : keeps same_owners (hold_the_account m user_id wait).
Proof. apply hold_keeps, _. Qed.
Lemma owners_swap p hash : keeps same_owners (swap_token p hash).
Proof.
  intros w a w' E. unfold swap_token in E. destruct (sessions w !! r_id p) as [r|] eqn:Er; [|done]. repeat case_match; try done.
  injection E as _ <-. intros id q. cbn. rewrite lookup_insert_Some. intros [[<- <-]|[_ Hq]]; [by exists r|by exists q].
Qed.
Create HintDb owners.
#[export] Hint Resolve same_owners_preorder owners_revoke owners_revoke_account owners_write owners_hold owners_swap : owners.
#[export] Hint Extern 2 (same_owners _ _) => (by apply owners_same) : owners.
Ltac owners := keep; intros; auto with owners keeps typeclass_instances; repeat case_match; intros; auto with owners.

Lemma rotate_owners m d p spend : keeps same_owners (rotate_and_revoke_others m d p spend).
Proof. unfold rotate_and_revoke_others. owners. Qed.
Lemma revoke_owners m id : keeps same_owners (revoke_in m id).
Proof. unfold revoke_in. owners. Qed.
Lemma resolve_owners now token : keeps same_owners (resolve_in now token).
Proof.
  intros w a w' E. unfold resolve_in in E. txn_inv. destruct (find_token token w) as [[[id r] u]|] eqn:Ef; [|by txn_inv].
  destruct (expired now r); [by txn_inv|]. destruct (due_for_touch now r); txn_inv; [|reflexivity].
  unfold find_token in Ef. destruct (list_find _ _) as [[n [i q]]|] eqn:El; [|done].
  apply list_find_Some in El as (Hn & _ & _). apply list_elem_of_lookup_2, elem_of_map_to_list in Hn. cbn in Ef.
  destruct (users w !! s_user q) as [v|] eqn:Ev; [|discriminate Ef]. injection Ef as -> -> _. intros j x. cbn. rewrite lookup_insert_Some.
  intros [[<- <-]|[_ Hx]]; [by exists r|by exists x].
Qed.

Definition opens_none (s s' : ways) : Prop := same_owners (state (base s)) (state (base s')).
#[export] Instance opens_none_preorder : PreOrder opens_none.
Proof. split; [intros s; by unfold opens_none|]. intros a b c H1 H2. unfold opens_none. by etransitivity. Qed.
Lemma opens_same s s' : sessions (state (base s')) = sessions (state (base s)) -> opens_none s s'.
Proof. apply owners_same. Qed.
Lemma opens_in_base {A} (t : txn world A) : keeps same_owners t -> keeps opens_none (in_base t).
Proof. intros Ht s a s' E. apply in_base_ok in E as (w & E & ->). by apply (Ht _ _ _ E). Qed.
Lemma opens_refuse v c : keeps opens_none (refuse v c).
Proof. intros s a s' E. apply not_refused in E as [_ ->]. reflexivity. Qed.
Lemma opens_conflict e {A} (t : txn ways A) : keeps opens_none t -> keeps opens_none (conflict e t).
Proof.
  intros Ht s a s' E. unfold conflict in E. destruct (t s) as [[x w]|[]] eqn:Et; try done. injection E as <- <-. by eapply Ht.
Qed.
Lemma opens_hold m user_id : keeps opens_none (hold_for_sign_in m user_id).
Proof. intros s a s' E. unfold hold_for_sign_in in E. case_match; [|done]. injection E as _ <-. reflexivity. Qed.
#[export] Hint Resolve opens_none_preorder opens_in_base opens_refuse opens_conflict opens_hold rotate_owners revoke_owners
  resolve_owners : owners.
#[export] Hint Extern 2 (opens_none _ _) => (by apply opens_same) : owners.
Create HintDb entry.
#[export] Hint Unfold change_password_in change_email_in unlink_in link_in mint_link mint_reset_in mint_admin_recovery_in deliver_mail_in
  complete_in take_back invite_in update_open reveal_in register_in start_in take_flow gate_in begin_in claim_attempt
  win_in spend spend_replacement_attempt take_off remove_factor_in confirm_in clear_factor_in mint_locked
  drop_setup_links spend_setup adopt record_mode claim_installation decline_in turn_on_in status_in ensure_claimable_in
  queue_mail spend_link read_account insert_user set_email set_subject insert_link insert_invitation
  insert_factor insert_code insert_flow : entry.

Section Quiet.
Context `{Texts} `{Argon2} `{CryptoOps}.
Ltac quiet := repeat (progress autounfold with entry); owners.
Lemma opens_add_codes user_id ids cs : keeps opens_none (add_codes user_id ids cs).
Proof using Type.
revert ids. induction cs as [|c cs IH]; intros [|id ids]; cbn [add_codes]; quiet.
Qed.
Lemma opens_add_factor id f : keeps opens_none (add_factor id f).
Proof using Type.
intros s a s' E. unfold add_factor in E. destruct (insert_factor id f s) as [[x w]|e] eqn:Ei; [|by case_decide].
injection E as <- <-. unfold insert_factor in Ei. refusals. by apply opens_same.
Qed.
Lemma opens_insert_identity id r : keeps opens_none (insert_identity id r).
Proof using Type. unfold insert_identity. quiet. Qed.
#[local] Hint Resolve opens_insert_identity : owners.
Lemma opens_add_password id user_id h : keeps opens_none (add_password id user_id h).
Proof using Type. unfold add_password. quiet. Qed.
#[local] Hint Resolve opens_add_codes opens_add_factor opens_add_password : owners.
Lemma opens_change_email p address m d : keeps opens_none (change_email_in p address m d).
Proof using Type. quiet. Qed.
Lemma opens_password p pw cur m d : keeps opens_none (change_password_in p pw cur m d).
Proof using Type. quiet. Qed.
Lemma opens_complete token pw m d : keeps opens_none (complete_in token pw m d).
Proof using Type. quiet. Qed.
Lemma opens_register token pw m d : keeps opens_none (register_in token pw m d).
Proof using Type. quiet. Qed.
Lemma opens_confirm pr replacing r secret cs step m d : keeps opens_none (confirm_in pr replacing r secret cs step m d).
Proof using Type. quiet. Qed.
Lemma opens_link pr who p m d : keeps opens_none (link_in pr who p m d).
Proof using Type. quiet. Qed.
Lemma opens_claim ring token address pw m d : keeps opens_none (claim_installation ring token address pw m d).
Proof using Type. quiet. Qed.
End Quiet.

(** ** Operations *)

Section Operations.
Context `{Texts} `{Argon2} `{CryptoOps}.

(** In the state [s] the operation opens a session for the account. *)
Definition opens {X : Type} (b : bool) (o : op X) (s : ways) (user_id : Z) : Prop :=
exists x s' id row, exec b X o s x s' /\ live_rows s' !! id = Some row /\ live_rows s !! id = None /\ s_user row = user_id.

Lemma quiet_opens {X : Type} b (o : op X) s user_id :
(forall x s', exec b X o s x s' -> opens_none s s') -> ~ opens b o s user_id.
Proof using Type.
intros Hq (x & s' & id & row & He & Hrow & Hno & _). destruct (Hq x s' He id row Hrow) as (r & Hr & _).
change (live_rows s !! id = Some r) in Hr. congruence.
Qed.
Lemma runs_opens_none {A} (t : moment -> draws -> txn ways A) s r s' :
(forall m d, keeps opens_none (t m d)) -> runs t s r s' -> opens_none s s'.
Proof using Type.
intros Ht (m & d & _ & Hout). assert (Hd : opens_none s (draw_from d s)) by (by apply opens_same).
destruct (t m d (draw_from d s)) as [[a s1]|e] eqn:E.
- assert (H1' : opens_none s s1) by (etransitivity; [exact Hd|by eapply Ht]). by destruct Hout as [[_ ->]|[_ [-> | ->]]].
- by destruct Hout as [_ ->].
Qed.
Lemma txn_quiet b {A} (t : moment -> draws -> txn ways A) s user_id :
(forall m d, keeps opens_none (t m d)) -> ~ opens b (Txn t) s user_id.
Proof using Type. intros Ht. apply quiet_opens. intros x s' He. by eapply runs_opens_none. Qed.
Definition is_txn {X : Type} (o : op X) : bool := match o with Txn _ => true | _ => false end.
Lemma other_quiet {X : Type} b (o : op X) s user_id : is_txn o = false -> ~ opens b o s user_id.
Proof using Type.
intros Ho. apply quiet_opens. intros x s'. destruct o; cbn in *; intros He; try done; try (by rewrite He; apply opens_same).
destruct He as (c & rows & _ & [[_ ->]|[_ [-> | ->]]]); by apply opens_same.
Qed.

Lemma mint_in_rows m d user_id u remember authenticated w i w' :
mint_in m d user_id u remember authenticated w = Ok (i, w') ->
forall id row, sessions w' !! id = Some row -> s_user row = user_id \/ sessions w !! id = Some row.
Proof using Type.
intros E id row Hrow. unfold mint_in in E. destruct (if decide _ then _ else _) as [remembered idle].
apply txn_bind_ok in E as ([] & w1 & Ei & E). apply mret_ok in E as [_ <-]. unfold insert_session in Ei.
destruct (bool_decide _); [done|]. destruct (bool_decide _); [done|]. destruct (token_taken _ _); [done|]. injection Ei as <-. cbn in Hrow. apply lookup_insert_Some in Hrow as [[<- <-]|[_ Hrow]]; [by left|by right].
Qed.
(** What a transaction that makes rows for one account only opens. *)
Lemma txn_opens_for b {A} (t : moment -> draws -> txn ways A) s user_id (Q : Z -> Prop) :
(forall m d a s1, t m d (draw_from d s) = Ok (a, s1) ->
   forall id row, live_rows s1 !! id = Some row -> Q (s_user row) \/ live_rows s !! id = Some row) ->
opens b (Txn t) s user_id -> Q user_id.
Proof using Type.
intros Ht (x & s' & id & row & (m & d & _ & Hout) & Hrow & Hno & <-).
destruct (t m d (draw_from d s)) as [[a s1]|e] eqn:E.
- assert (Hs1 : live_rows s1 !! id = Some row).
  { destruct Hout as [[_ ->]|[_ [-> | ->]]]; [done| |done]. change (live_rows s !! id = Some row) in Hrow; congruence. }
  destruct (Ht m d a s1 E id row Hs1); [done|congruence].
- destruct Hout as [_ ->]. change (live_rows s !! id = Some row) in Hrow. congruence.
Qed.
Lemma gate_opens b user_id u remember expected s user :
opens b (Txn (gate_in user_id u remember expected)) s user ->
user = user_id /\ fst <$> enrolled_factor user_id s = expected.
Proof using Type.
apply (txn_opens_for _ _ _ _ (fun user => user = user_id /\ fst <$> enrolled_factor user_id s = expected)).
intros m d a s1 E id row Hrow. unfold gate_in in E. apply txn_bind_ok in E as ([] & w & Eh & E).
assert (w = draw_from d s) as ->. { unfold hold_for_sign_in in Eh. case_match; [|done]. by injection Eh. }
apply txn_bind_ok in E as (cur & w & Er & E). apply read_ok in Er as [-> ->]. case_decide as Hg.
- apply txn_bind_ok in E as (i & w & Em & E). apply mret_ok in E as [_ ->]. apply in_base_ok in Em as (w0 & Em & ->).
  destruct (mint_in_rows _ _ _ _ _ _ _ _ _ Em id row Hrow) as [Hu|Hold]; [left|by right]. split; [done|exact Hg].
- apply mret_ok in E as [_ ->]. by right.
Qed.
Lemma mint_opens b user_id u remember authenticated s user :
opens b (Txn (fun m d => in_base (mint_in m (dr_session d) user_id u remember authenticated))) s user -> user = user_id.
Proof using Type.
apply (txn_opens_for _ _ _ _ (fun user => user = user_id)). intros m d a s1 E id row Hrow.
apply in_base_ok in E as (w & Em & ->). destruct (mint_in_rows _ _ _ _ _ _ _ _ _ Em id row Hrow); auto.
Qed.
End Operations.

Lemma every_mret_bind {A B : Type} (R : forall X, op X -> X -> Prop) P b (a : A) (f : A -> handler op B) :
  every R P b (f a) -> every R P b (mret a ≫= f).
Proof. done. Qed.
Lemma every_throw_bind {A B : Type} (R : forall X, op X -> X -> Prop) P b e (f : A -> handler op B) :
  every R P b (throw (A := A) e ≫= f).
Proof. done. Qed.
(** Walk through a handler, and through the handlers it calls. *)
Ltac entry_step :=
  match goal with
  | |- every _ _ _ ((_ ≫= _) ≫= _) => apply every_assoc
  | |- every _ _ _ (mret _ ≫= _) => apply every_mret_bind
  | |- every _ _ _ (throw _ ≫= _) => apply every_throw_bind
  | |- every _ _ _ ((match ?x with _ => _ end) ≫= _) => destruct x eqn:?
  | _ => every_step
  end.

Section Proofs.
Context `{Texts} `{Argon2} `{CryptoOps}.
Variable ring : result exn key_ring.
Variable sends : bool.
Variable public_url : string.
Variable offered : list provider.

(** [R] is what the request has done: an operation and what it was answered. *)
Section Proved.
Variable R : forall X, op X -> X -> Prop.
Definition ran {A} (t : moment -> draws -> txn ways A) (a : A) : Prop := R _ (Txn t) (Ok a).
Definition saw {A} (f : ways -> A) (a : A) : Prop := ran (fun _ _ => read f) a.

(** What a code was found to be. *)
Inductive found_proof (code : string) (user_id : Z) (f : factor) : proof -> Prop :=
| found_code id : saw (find_code user_id code) (Some id) -> found_proof code user_id f (ByCode id)
| found_step now n : R _ Clock now -> totp_proof ring code user_id f now = Ok (Some (ByStep n)) ->
    found_proof code user_id f (ByStep n).

Inductive proved (s : ways) : prog op unit -> Z -> Prop :=
| by_password email pw remember_me peer cookie r u :
    saw (password_of (normalized email)) (Some (r, u)) -> verify_password (default "" (ai_hash r)) pw = true ->
    cannot_sign_in u = false -> enrolled_factor (ai_user r) s = None ->
    proved s (forget (login email pw remember_me peer cookie)) (ai_user r)
| by_provider pr state code flow cookie f who user_id u :
    ran (take_flow state pr) (Some f) -> fl_link f = None ->
    R _ (Exchange pr code (fl_verifier f) (fl_nonce f)) (Ok (Some who)) ->
    saw (linked_account pr (pi_subject who)) (Some (user_id, u)) -> cannot_sign_in u = false ->
    enrolled_factor user_id s = None ->
    proved s (forget (callback (Some pr) state code flow cookie)) user_id
| by_factor cookie remembered code link_id user_id u factor_id f p :
    ran (claim_attempt cookie) (Some (link_id, Some user_id)) ->
    ran (fun _ _ => read_account user_id) (Some u, Some (factor_id, f)) -> cannot_sign_in u = false ->
    found_proof code user_id f p -> ran (win_in link_id factor_id p) tt ->
    fst <$> enrolled_factor user_id s = Some factor_id ->
    proved s (forget (answer_challenge ring (Some cookie) remembered code)) user_id
| by_invitation token pw user_id :
    ran (register_in token pw) user_id -> proved s (forget (register token pw)) user_id
| by_claim token email address pw user_id :
    checked_email email = Ok address -> ran (claim_installation ring token address pw) user_id ->
    proved s (forget (setup_route ring token (Some (email, pw)))) user_id
| by_switch email address pw user_id :
    checked_email email = Ok address -> ran (turn_on_in ring address pw) user_id ->
    proved s (forget (enable_accounts ring email pw)) user_id.
End Proved.

(** ** Walking through the requests *)

Section Walks.
Variable R : forall X, op X -> X -> Prop.
Definition allowed (request : prog op unit) (b : bool) (X : Type) (o : op X) : Prop :=
forall s user_id, opens b o s user_id -> proved R s request user_id.

Lemma quiet_allowed request b X (o : op X) : (forall s user_id, ~ opens b o s user_id) -> allowed request b X o.
Proof using Type. intros Hq s user_id Ho. by destruct (Hq s user_id). Qed.

#[local] Hint Resolve opens_insert_identity opens_change_email opens_password opens_complete opens_register opens_confirm opens_link
opens_claim keeps_read : owners.
Create HintDb calls.
#[local] Hint Unfold need_database query tell audit mint_session resolve_session end_session presented_session close_others
need_recent need_active current_principal recent_principal administrator mint_behind_the_gate begin_challenge recovery_proof
prove_step verify_code prove_held retire enter start_flow provider_sign_in link_identity claim decline_accounts
turn_accounts_on sign_in_owner mint_setup_token deliver_reset : calls.
Ltac quiet_leaf :=
  solve [ apply quiet_allowed; intros ? ?; apply other_quiet; reflexivity
        | apply quiet_allowed; intros ? ?; apply txn_quiet; intros ? ?;
          solve [eauto 3 with owners | repeat (progress autounfold with entry); owners] ].
Ltac entry_walk := repeat (progress autounfold with calls); repeat (cbv zeta; entry_step); try quiet_leaf.

#[local] Hint Unfold change_password change_email unlink_identity ask mint_reset mint_admin_recovery complete invite
open_invitations revoke_invitation reveal redirect start_link prune_flows start_enrolment confirm_enrolment remove_factor
clear_factor setup_status enable_command login callback answer_challenge register setup_route enable_accounts : calls.

(** What is left is where the session is made. *)
Ltac at_gate :=
  let Ho := fresh "Ho" in intros ? ? Ho; apply gate_opens in Ho as [-> ?];
  repeat match goal with Hb : negb _ = false |- _ => apply negb_false_iff in Hb | Hn : _ <$> _ = None |- _ => apply fmap_None in Hn end;
  simplify_eq.
Ltac at_mint := let Ho := fresh "Ho" in intros ? ? Ho; apply mint_opens in Ho as ->; simplify_eq.

Lemma login_allowed b email pw remember_me peer cookie :
let p := forget (login email pw remember_me peer cookie) in every R (allowed p) b p.
Proof using Type. intros p. apply every_forget. entry_walk; at_gate; by eapply by_password. Qed.
Lemma callback_allowed b pr state code flow cookie :
let p := forget (callback pr state code flow cookie) in every R (allowed p) b p.
Proof using Type. intros p. apply every_forget. entry_walk; at_gate; by eapply by_provider. Qed.
Lemma code_found user_id code f id p :
saw R (find_code user_id code) id -> ByCode <$> id = Some p -> found_proof R code user_id f p.
Proof using Type. destruct id as [i|]; [|done]. intros Hs [= <-]. by constructor. Qed.
Lemma step_found code user_id f now p :
R _ Clock now -> totp_proof ring code user_id f now = Ok (Some p) -> found_proof R code user_id f p.
Proof using Type.
intros Hn Ht. pose proof Ht as Hp. unfold totp_proof in Hp. destruct (secret_of _ _ _) as [secret|]; [|done].
destruct (matched_step _ _ _) as [[n|]|]; [|done..]. injection Hp as <-. by econstructor.
Qed.
Lemma answer_allowed b cookie remembered code :
let p := forget (answer_challenge ring cookie remembered code) in every R (allowed p) b p.
Proof using Type.
intros p. apply every_forget. entry_walk; at_gate; repeat match goal with x : unit |- _ => destruct x end;
  (eapply by_factor; [eassumption|eassumption|done| |eassumption|done]); first [by eapply code_found|by eapply step_found].
Qed.
Lemma register_allowed b token pw : let p := forget (register token pw) in every R (allowed p) b p.
Proof using Type. intros p. apply every_forget. entry_walk; at_mint; by eapply by_invitation. Qed.
Lemma setup_allowed b token account : let p := forget (setup_route ring token account) in every R (allowed p) b p.
Proof using Type. intros p. apply every_forget. entry_walk; at_mint; by eapply by_claim. Qed.
Lemma enable_allowed b email pw : let p := forget (enable_accounts ring email pw) in every R (allowed p) b p.
Proof using Type. intros p. apply every_forget. entry_walk; at_mint; by eapply by_switch. Qed.

Lemma starts_allowed b s p : starts ring sends public_url offered b s p -> every R (allowed p) b p.
Proof using Type.
intros []; lazymatch goal with
  | |- context [login] => apply login_allowed
  | |- context [callback] => apply callback_allowed
  | |- context [answer_challenge] => apply answer_allowed
  | |- context [register] => apply register_allowed
  | |- context [setup_route] => apply setup_allowed
  | |- context [enable_accounts] => apply enable_allowed
  | |- _ => apply every_forget; entry_walk
  end.
split; [quiet_leaf|]. intros []; [|done]. intros _. entry_walk.
Qed.
End Walks.

(** C12 No session without a proof: whatever else runs between its operations, a
    request opens a session only for an account it has proved by then: the
    account whose stored password it presented the text of, the account linked
    to what the provider answered for the redirect it took back, the account of
    the challenge whose code it spent, the account its invitation made, or the
    account that claimed the installation.  A password or a provider is enough
    only while the account has no second factor when the session is made, and a
    challenge only while the account still has the factor that was answered for;
    and the account could sign in when it was read. *)
Theorem sessions_are_proved b s0 p h X (o : op X) k s user_id :
starts ring sends public_url offered b s0 p -> walks b p h (Do o k) -> opens b o s user_id ->
proved (did b h) s p user_id.
Proof using Type.
intros Hst Hw Ho. pose proof (walks_every (did b h) _ b _ _ h Hw (fun X o x Hx => Hx) (starts_allowed _ b s0 p Hst)) as [Hop _].
by apply Hop.
Qed.
End Proofs.

(** ** A walk, executed *)

Section Executed.
Context `{Texts} `{Argon2} `{CryptoOps}.
(** A task walks through operations that come out as chosen, and the next one
    makes the row of a session for the account. *)
Fixpoint opening (cs : list choice) (c : choice) (p : prog op unit) (s : ways) (id user_id : Z) : bool :=
match cs, p with
| [], Do o k =>
    match answer c _ o s with
    | Some (_, s') => bool_decide (live_rows s !! id = None)
                      && match live_rows s' !! id with Some row => s_user row =? user_id | None => false end
    | None => false
    end
| c1 :: cs, Do o k => match answer c1 _ o s with Some (x, s') => opening cs c (k x) s' id user_id | None => false end
| _, _ => false
end.
Lemma opening_opens b cs c p s id user_id :
opening cs c p s id user_id = true ->
exists h X (o : op X) k s', walks b p h (Do o k) /\ opens b o s' user_id.
Proof using Type.
revert p s. induction cs as [|c1 cs IH]; intros p s; destruct p as [u|X o k|t k]; cbn; try done.
- destruct (answer c X o s) as [[x s']|] eqn:Ea; [|done]. rewrite andb_true_iff, bool_decide_eq_true. intros [Hno Hrow].
  destruct (live_rows s' !! id) as [row|] eqn:Er; [|done]. apply Z.eqb_eq in Hrow.
  exists [], X, o, k, s. split; [constructor|]. exists x, s', id, row. by split; [eapply way_answer_execs|].
- destruct (answer c1 X o s) as [[x s']|] eqn:Ea; [|done]. intros Ho.
  destruct (IH _ _ Ho) as (h & Y & o' & k' & t & Hw & Hop). exists (Event s X o x s' :: h), Y, o', k', t.
  split; [|done]. by eapply walks_on; [eapply way_answer_execs|].
Qed.
End Executed.

Lemma sessions_are_proved_witness :
  exists h s, proved SAMPLE_RING (did false h) s (forget (login MIA OLD_PASSWORD false None None)) 3.
Proof.
  assert (Ho : opening (replicate 4 (nth_at 1 10)) (nth_at 2 10) (forget (login MIA OLD_PASSWORD false None None))
                 sample_ways 2002 3 = true) by (vm_compute; reflexivity).
  destruct (opening_opens false _ _ _ _ _ _ Ho) as (h & X & o & k & s & Hw & Hop). exists h, s.
  apply (sessions_are_proved SAMPLE_RING true SITE [] false sample_ways _ h X o k s 3); [constructor|exact Hw|exact Hop].
Defined.
