(* ===== verification/FactorsSpec.v ===== *)
(** * What the second factor promises

    What proved a factor once proves it no more, whatever runs in between; and
    between two challenges and their answers the guesses are bounded. *)

From S2P Require Import Prelude PyFloat Hashes Json Uuid Encodings RateLimit KeyRing Transactions AccountStore AuthSessions Accounts AccountsFacts AuthSessionsSpec Tasks SignInTables Factors SignIn Setup SignInSystem SignInFacts SignInReach SignInSamples.
Open Scope Z_scope.

Section Promises.
Context `{Texts} `{Argon2} `{CryptoOps}.
Variable ring : result exn key_ring.
Variable sends : bool.
Variable public_url : string.
Variable offered : list provider.
Abbreviation run := (ways_run ring sends public_url offered).

(** ** Proofs *)

Definition spent_fact (factor_id : Z) (p : proof) : fact :=
match p with ByCode id => CodeSpent id | ByStep n => StepSpent factor_id n end.
(** What a proof that was spent rules out: the code itself, and every time step
    up to its own. *)
Definition covers (p p' : proof) : Prop :=
match p, p' with ByCode i, ByCode j => i = j | ByStep n, ByStep k => k <= n | _, _ => False end.

Lemma spend_true m factor_id p s s' : spend m factor_id p s = Ok (true, s') ->
match p with ByCode id => id ∈ dom (codes s) | ByStep _ => factor_id ∈ dom (factors s) end
/\ (sound s -> holds (spent_fact factor_id p) s').
Proof using Type.
intros E. destruct p as [id|n]; cbn [spend spent_fact] in *; apply txn_bind_ok in E as (u & w & Er & E);
  apply read_ok in Er as [-> ->].
- unfold code_unspent in E. destruct (codes s !! id) as [c|] eqn:Ec; [|by txn_inv]. case_bool_decide; [|by txn_inv]. txn_inv.
  assert (Hin : id ∈ dom (codes s)) by (by apply elem_of_dom). split; [done|]. intros Hs.
  split; [by apply (so_codes _ Hs)|]. intros c'. cbn. rewrite lookup_alter_eq, Ec. by intros [= <-].
- unfold step_unspent in E. destruct (factors s !! factor_id) as [f|] eqn:Ef; [|by txn_inv].
  assert (Hin : factor_id ∈ dom (factors s)) by (by apply elem_of_dom). case_match; [|by txn_inv]. txn_inv.
  split; [done|]. intros Hs. split; [by apply (so_factors _ Hs)|]. intros f'. cbn. rewrite lookup_alter_eq, Ef.
  intros [= <-]. by exists n.
Qed.
Lemma covered_refused factor_id p p' m s :
covers p p' -> holds (spent_fact factor_id p) s -> spend m factor_id p' s = Ok (false, s).
Proof using Type.
intros Hc Hf. destruct p as [i|n], p' as [j|k]; try done; cbn [covers spent_fact spend] in *; txn_run.
- subst j. destruct Hf as [_ Hf]. unfold code_unspent. destruct (codes s !! i) as [c|]; [|done].
  rewrite bool_decide_false; [done|by apply Hf].
- destruct Hf as [_ Hf]. unfold step_unspent. destruct (factors s !! factor_id) as [f|]; [|done].
  destruct (Hf f eq_refl) as (l & -> & Hl). rewrite (proj2 (Z.ltb_ge l k)) by lia. done.
Qed.

(** A proof spent within a transaction that started from [s] and drew [d]. *)
Lemma spent_within m d factor_id p s w w1 w' :
sound s -> fresh_draws d s -> advances d (draw_from d s) w -> codes w = codes s -> factors w = factors s ->
spend m factor_id p w = Ok (true, w1) -> advances d w1 w' -> holds (spent_fact factor_id p) w'.
Proof.
intros Hs Hfresh Hw Hcodes Hfactors E Hrest. destruct (draw_lasts d s Hfresh Hs) as [Hsw _].
destruct (Hw Hsw) as [Hsw1 _]. pose proof (spend_advances d m factor_id p _ _ _ E) as Hsp.
destruct (spend_true _ _ _ _ _ E) as [Hin Hf]. eapply (rest_keeps d _ (draw_from d s) w1); [done| |done| |apply Hf, Hsw1].
- by etransitivity.
- destruct Hfresh as (_ & Hids & _). destruct p as [id|n]; cbn; intros Hd; apply (Hids _ Hd).
  + apply (so_codes _ Hs). by rewrite <- Hcodes.
  + apply (so_factors _ Hs). by rewrite <- Hfactors.
Qed.
Lemma in_base_rows {A} (t : txn world A) s a s' :
in_base t s = Ok (a, s') -> codes s' = codes s /\ factors s' = factors s.
Proof using Type. intros E. by apply in_base_ok in E as (w & _ & ->). Qed.

Lemma win_spends link_id factor_id p s u s1 :
sound s -> runs (win_in link_id factor_id p) s (Ok u) s1 -> holds (spent_fact factor_id p) s1.
Proof.
intros Hs Hr. apply runs_ok in Hr as (m & d & Hfresh & E). unfold win_in in E.
apply txn_bind_ok in E as (won & w & Er & E). apply read_ok in Er as [-> ->]. case_match; [done|].
apply txn_bind_ok in E as ([] & w & Ew & E). apply txn_bind_ok in E as ([] & w1 & Es & E); [|done].
cbn [negb] in E. apply write_ok in E. subst s1. destruct (in_base_rows _ _ _ _ Ew) as [Hc Hf].
eapply (spent_within m d _ _ s w w1); [done..| |exact Hc|exact Hf|exact Es|apply set_tries_advances].
eapply in_base_advances; [|exact Ew]. auto with ways.
Qed.
Lemma take_off_ok m user_id factor_id p s s' :
take_off m user_id factor_id p s = Ok (tt, s') -> exists s1, spend m factor_id p s = Ok (true, s1) /\ s' = on_factors (delete factor_id) s1.
Proof using Type.
intros E. unfold take_off in E. apply txn_bind_ok in E as ([] & w1 & Es & E); [|done]. exists w1. split; [done|].
cbn [negb] in E. apply txn_bind_ok in E as (gone & w & Er & E). apply read_ok in Er as [-> ->]. case_match; [done|].
by apply write_ok in E.
Qed.
Lemma hold_then m d s user_id wait w :
in_base (hold_the_account m user_id wait) (draw_from d s) = Ok (tt, w) ->
advances d (draw_from d s) w /\ codes w = codes s /\ factors w = factors s.
Proof.
intros E. destruct (in_base_rows _ _ _ _ E) as [Hc Hf]. split; [|done]. eapply in_base_advances; [|exact E]. auto with ways.
Qed.
Lemma remove_spends pr factor_id p s i s1 :
sound s -> runs (remove_factor_in pr factor_id p) s (Ok i) s1 -> holds (spent_fact factor_id p) s1.
Proof.
intros Hs Hr. apply runs_ok in Hr as (m & d & Hfresh & E). unfold remove_factor_in in E.
apply txn_bind_ok in E as ([] & w & Eh & E). destruct (hold_then _ _ _ _ _ _ Eh) as (Hw & Hc & Hf).
apply txn_bind_ok in E as ([] & w2 & Et & E). apply take_off_ok in Et as (w1 & Es & ->).
apply txn_bind_ok in E as ([] & w3 & Ed & E). apply write_ok in Ed. subst w3.
eapply (spent_within m d _ _ s w w1); [done..|exact Es|]. etransitivity; [apply delete_factor_advances|].
etransitivity; [apply drop_codes_advances|]. eapply in_base_advances; [|exact E]. auto with ways.
Qed.

Definition same_factors (s s' : ways) : Prop := factors s' = factors s.
#[local] Instance same_factors_preorder : PreOrder same_factors.
Proof using Type. split; [done|]. unfold same_factors. intros a b c Hab Hbc. congruence. Qed.
Lemma add_codes_factors user_id ids cs : keeps same_factors (add_codes user_id ids cs).
Proof using Type.
revert ids. induction cs as [|c cs IH]; intros [|id ids]; cbn [add_codes]; keep; [|apply IH].
intros a x b Hi. unfold insert_code in Hi. by refusals.
Qed.

(** The rest of a confirmation, once the factor to replace is off. *)
Lemma confirm_in_ok pr replacing r secret cs step m d s i s' :
confirm_in pr replacing r secret cs step m d s = Ok (i, s') ->
exists w w1, in_base (hold_the_account m (r_user_id pr) false) s = Ok (tt, w)
/\ match replacing with
   | Some (factor_id, p) => take_off m (r_user_id pr) factor_id p w = Ok (tt, w1)
   | None => w1 = w
   end
/\ advances d w1 s'
/\ exists f, factors s' !! dr_row d = Some f /\ f_user f = r_user_id pr /\ f_last f = Some step.
Proof.
intros E. unfold confirm_in in E. apply txn_bind_ok in E as ([] & w & Eh & E). exists w.
apply txn_bind_ok in E as ([] & w1 & Et & E). exists w1. split; [done|].
split; [destruct replacing as [[fid p]|]; [done|by apply mret_ok in Et as [_ <-]]|].
apply txn_bind_ok in E as (sealed & w2 & El & E). apply lift_ok in El as [_ ->].
apply txn_bind_ok in E as ([] & w2 & Ea & E). apply txn_bind_ok in E as ([] & w3 & Ed & E). apply write_ok in Ed. subst w3.
apply txn_bind_ok in E as ([] & w3 & Ec & E).
assert (Hrow : dr_row d ∈ drawn_ids d) by (unfold drawn_ids; set_solver).
split.
- etransitivity; [by eapply add_factor_advances|]. etransitivity; [apply drop_codes_advances|].
  etransitivity; [eapply add_codes_advances; [|exact Ec]; unfold drawn_ids; set_solver|].
  eapply in_base_advances; [|exact E]. auto with ways.
- destruct (in_base_rows _ _ _ _ E) as [_ ->].
  rewrite (add_codes_factors _ _ _ _ _ _ Ec). cbn. unfold add_factor in Ea. destruct (insert_factor _ _ _) as [[x y]|] eqn:Ei; [|by case_decide].
  injection Ea as -> ->. unfold insert_factor in Ei. refusals. cbn. rewrite lookup_insert_eq. by eexists.
Qed.
Lemma confirm_spends pr factor_id p r secret cs step s i s1 :
sound s -> runs (confirm_in pr (Some (factor_id, p)) r secret cs step) s (Ok i) s1 -> holds (spent_fact factor_id p) s1.
Proof.
intros Hs Hr. apply runs_ok in Hr as (m & d & Hfresh & E). apply confirm_in_ok in E as (w & w2 & Eh & Et & Hadv & _).
destruct (hold_then _ _ _ _ _ _ Eh) as (Hw & Hc & Hf). apply take_off_ok in Et as (w1 & Es & ->).
eapply (spent_within m d _ _ s w w1); [done..|exact Es|]. by etransitivity; [apply delete_factor_advances|].
Qed.
Lemma confirm_counts pr replacing r secret cs step s i s1 :
sound s -> runs (confirm_in pr replacing r secret cs step) s (Ok i) s1 ->
exists factor_id f, factors s1 !! factor_id = Some f /\ f_user f = r_user_id pr /\ holds (StepSpent factor_id step) s1.
Proof.
intros Hs Hr. apply runs_ok in Hr as (m & d & Hfresh & E). pose proof (confirm_advances _ _ _ _ _ _ _ _ _ _ _ E) as Hadv.
apply confirm_in_ok in E as (w & w1 & _ & _ & _ & f & Hf & Hu & Hlast). destruct (draw_lasts d s Hfresh Hs) as [Hsw _].
destruct (Hadv Hsw) as [[_ Hids _] _]. exists (dr_row d), f. split; [done|]. split; [done|]. split.
- apply Hids. unfold drawn_ids. set_solver.
- intros g. rewrite Hf. intros [= <-]. by exists step.
Qed.
Lemma covered_loses link_id factor_id p p' m d s :
covers p p' -> holds (spent_fact factor_id p) s -> win_in link_id factor_id p' m d s = Err REFUSED.
Proof using Type.
intros Hc Hf. unfold win_in. txn_run. destruct (tokens s !! link_id) as [c|]; [|done]. case_bool_decide; [|done]. cbn [negb].
unfold in_base. txn_run. by erewrite covered_refused; [|exact Hc|by destruct p].
Qed.

(** C17 A proof works once: a recovery code or a time step that won a challenge,
    or paid for removing or replacing a factor, is refused in every later state,
    whatever runs in between; so is every earlier time step of that factor, and
    the step that enrolled a factor is refused for that factor from then on. *)
Theorem proofs_work_once s s1 l s2 l2 :
sound s -> tame l -> run (s1, l) (s2, l2) ->
(forall factor_id p p', covers p p' ->
   (exists link_id u, runs (win_in link_id factor_id p) s (Ok u) s1)
   \/ (exists pr i, runs (remove_factor_in pr factor_id p) s (Ok i) s1)
   \/ (exists pr r secret cs step i, runs (confirm_in pr (Some (factor_id, p)) r secret cs step) s (Ok i) s1) ->
   forall m, spend m factor_id p' s2 = Ok (false, s2)
             /\ forall link_id d, win_in link_id factor_id p' m d s2 = Err REFUSED)
/\ (forall pr replacing r secret cs step i, runs (confirm_in pr replacing r secret cs step) s (Ok i) s1 ->
   exists factor_id f, factors s1 !! factor_id = Some f /\ f_user f = r_user_id pr
   /\ forall m n, n <= step -> spend m factor_id (ByStep n) s2 = Ok (false, s2)).
Proof.
intros Hs Hl Hrun. split.
- intros factor_id p p' Hc Hspent.
  assert (Hf : holds (spent_fact factor_id p) s2).
  { destruct Hspent as [(k & u & Hr)|[(pr & i & Hr)|(pr & r & secret & cs & step & i & Hr)]];
      (eapply later_holds; [exact Hs|exact Hl|exact Hrun|exact Hr|..]).
    - apply win_advances.
    - by eapply win_spends.
    - apply remove_advances.
    - by eapply remove_spends.
    - apply confirm_advances.
    - by eapply confirm_spends. }
  intros m. split; [by eapply covered_refused|]. intros k d. by eapply covered_loses.
- intros pr replacing r secret cs step i Hr. destruct (confirm_counts _ _ _ _ _ _ _ _ _ Hs Hr) as (factor_id & f & Hf & Hu & Hh).
  exists factor_id, f. split; [done|]. split; [done|]. intros m n Hn. apply (covered_refused _ (ByStep step)); [done|].
  eapply later_holds; [exact Hs|exact Hl|exact Hrun|exact Hr|apply confirm_advances|exact Hh].
Qed.
End Promises.

(** ** Guesses *)

Section Guesses.
Context `{Texts}.
Variable user_id : Z.
Abbreviation challenges := (outstanding user_id).

(** What happens to the challenges of an account at a time, and how many guesses
    it counts; [elsewhere] is whatever leaves them as they are. *)
Inductive guess_step (now : Z) : ways -> Z -> ways -> Prop :=
| begins m d s token s' : m_now m = now -> begin_in user_id m d s = Ok (token, s') -> guess_step now s 0 s'
| guesses cookie m d s id s' :
  m_now m = now -> claim_attempt cookie m d s = Ok (Some (id, Some user_id), s') -> guess_step now s 1 s'
| elsewhere s s' : (forall t, challenges t s' = challenges t s) -> guess_step now s 0 s'.
Inductive campaign (t0 : Z) (s0 : ways) : Z -> Z -> ways -> Prop :=
| campaign_starts : campaign t0 s0 0 t0 s0
| campaign_goes g t s n t' s' :
  campaign t0 s0 g t s -> t <= t' -> guess_step t' s n s' -> campaign t0 s0 (g + n) t' s'.

Lemma challenges_some t s id k :
challenges t s !! id = Some k <->
links s !! id = Some k /\ exists c, tokens s !! id = Some c /\ c_user c = Some user_id /\ c_purpose c = challenge
                          /\ c_consumed c = None /\ t < k_expires k.
Proof using Type.
unfold outstanding. rewrite map_lookup_filter_Some. cbn. unfold is_challenge. split; intros [Hk Hc]; (split; [done|]).
- destruct (tokens s !! id) as [c|]; [|done]. rewrite !andb_true_iff, !bool_decide_eq_true, Z.ltb_lt in Hc. exists c. tauto.
- destruct Hc as (c & -> & Hu & Hp & Hn & Ht). rewrite !andb_true_iff, !bool_decide_eq_true, Z.ltb_lt. tauto.
Qed.
(** Time only takes challenges away. *)
Lemma challenges_later t t' s id k :
t <= t' -> challenges t' s !! id = Some k <-> challenges t s !! id = Some k /\ t' < k_expires k.
Proof using Type.
intros Ht. rewrite !challenges_some. split; [intros (Hk & c & ? & ? & ? & ? & ?)|intros ((Hk & c & ? & ? & ? & ? & ?) & ?)].
- split; [|done]. split; [done|]. exists c. split_and!; (done || lia).
- split; [done|]. by exists c.
Qed.
Lemma one_later t t' s id k :
t <= t' -> challenges t s = {[id := k]} -> challenges t' s = if decide (t' < k_expires k) then {[id := k]} else ∅.
Proof using Type.
intros Ht Hone. apply map_eq. intros i. apply option_eq. intros q. rewrite challenges_later, Hone by done.
case_decide as He; rewrite ?lookup_empty, !lookup_singleton_Some; naive_solver.
Qed.
Lemma none_later t t' s : t <= t' -> challenges t s = ∅ -> challenges t' s = ∅.
Proof using Type.
intros Ht Hn. apply map_eq. intros i. apply option_eq. intros q. rewrite challenges_later, Hn, lookup_empty by done. naive_solver.
Qed.

Lemma begin_leaves m d s token s' :
begin_in user_id m d s = Ok (token, s') ->
challenges (m_now m) s' = {[dr_row d := {| k_hash := token_hash (dr_token d); k_attempts := carried user_id (m_now m) s;
                                            k_expires := m_now m + CHALLENGE_TTL |}]}.
Proof using Type.
intros E. unfold begin_in in E. apply txn_bind_ok in E as ([] & w & Eh & E).
assert (w = s) as ->. { unfold hold_for_sign_in in Eh. case_match; [|done]. by injection Eh. }
apply txn_bind_ok in E as (spent & w & Er & E). apply read_ok in Er as [-> ->].
apply txn_bind_ok in E as (n & w & Er & E). apply read_ok in Er as [-> ->].
apply txn_bind_ok in E as ([] & w & Ew & E). apply in_base_ok in Ew as (b & Ew & ->). apply write_ok in Ew. subst b.
apply txn_bind_ok in E as ([] & w & Ei & E). apply mret_ok in E as [_ ->]. unfold insert_link in Ei. refusals.
apply in_base_ok in Ei as (b & Ei & ->). apply write_ok in Ei. subst b. apply held_false in Hr.
apply map_eq. intros i. apply option_eq. intros q. rewrite challenges_some, lookup_singleton_Some. unfold tokens. cbn.
rewrite lookup_insert_Some. split.
- intros ([[<- <-]|[Hne Hq]] & c & Hc & Hu & Hp & Hn & Ht); [done|]. exfalso.
  rewrite lookup_insert_ne, map_lookup_imap in Hc by done. destruct (capabilities _ !! i) as [c0|] eqn:Ec; [|done].
  injection Hc as <-. case_decide as Hd; [by unfold set_consumed in Hn; cbn in Hn; destruct (c_consumed c0)|].
  apply Hd, elem_of_dom. exists q. apply challenges_some. split; [done|]. by exists c0.
- intros [<- <-]. split; [by left|]. eexists. rewrite lookup_insert_eq. split; [done|]. cbn. unfold CHALLENGE_TTL, minute. split_and!; (done || lia).
Qed.

Lemma claim_leaves cookie m d s id s' :
claim_attempt cookie m d s = Ok (Some (id, Some user_id), s') ->
exists k, challenges (m_now m) s !! id = Some k /\ k_attempts k < MAX_ATTEMPTS
/\ challenges (m_now m) s' = <[id := {| k_hash := k_hash k; k_attempts := k_attempts k + 1; k_expires := k_expires k |}]> (challenges (m_now m) s).
Proof using Type.
intros E. unfold claim_attempt in E. apply txn_bind_ok in E as (f & w & Er & E). apply read_ok in Er as [-> ->].
destruct (find_row _ _) as [[i k]|] eqn:Ef; [|by apply mret_ok in E as [? _]]. apply find_row_some in Ef as [Hk Ho].
destruct (tokens s !! i) as [c|] eqn:Ec; [|by apply mret_ok in E as [? _]]. cbn in E.
apply txn_bind_ok in E as ([] & w & Ew & E). apply write_ok in Ew. subst w. apply mret_ok in E as [Er ->].
injection Er as <- Hu. unfold answerable, open_link in Ho. rewrite Ec, !andb_true_iff, !bool_decide_eq_true, !Z.ltb_lt in Ho.
destruct Ho as [[[[_ Hp] Hn] Ht] Ha]. apply list_elem_of_singleton in Hp.
assert (Hin : challenges (m_now m) s !! id = Some k) by (apply challenges_some; split; [done|by exists c]).
exists k. split; [done|]. split; [done|]. apply map_eq. intros i. apply option_eq. intros q.
rewrite lookup_insert_Some, !challenges_some. unfold count_attempt. cbn. rewrite lookup_alter_Some. split.
- intros ([(-> & k0 & Hk0 & ->)|[Hne Hq]] & c' & Hc' & Hrest).
  + left. split; [done|]. by replace k0 with k by congruence.
  + right. split; [done|]. split; [done|]. by exists c'.
- intros [[<- <-]|[Hne [Hq Hc']]]; [|split; [by right|done]]. split; [left; split; [done|by exists k]|]. exists c. split_and!; done.
Qed.

(** At [t], [g] guesses counted since the start: one challenge is open, or none.
    [c] is what the challenge open at the start may account for; a challenge
    begun since then outlives [until]. *)
Definition within (c until g t : Z) (s : ways) : Prop :=
(exists id k, challenges t s = {[id := k]} /\ 0 <= k_attempts k <= MAX_ATTEMPTS
   /\ ((c = MAX_ATTEMPTS /\ g <= k_attempts k) \/ (g <= c + k_attempts k /\ until <= k_expires k)))
\/ (challenges t s = ∅ /\ g <= c).

Lemma within_later c until g t t' s : t <= t' < until -> within c until g t s -> within c until g t' s.
Proof using Type.
intros Ht [(id & k & Hone & Hk & Hg)|[Hnone Hg]].
- pose proof (one_later t t' s id k ltac:(lia) Hone) as Hl. case_decide as He.
  + left. exists id, k. auto.
  + right. split; [done|]. destruct Hg as [[-> Hg]|[_ Hu]]; lia.
- right. split; [|done]. apply (none_later t); [lia|done].
Qed.
Lemma within_step c t0 g t n s s' :
t0 <= t -> guess_step t s n s' -> within c (t0 + CHALLENGE_TTL) g t s -> within c (t0 + CHALLENGE_TTL) (g + n) t s'.
Proof using Type.
intros Ht [m d s1 token s2 Hm E|cookie m d s1 id s2 Hm E|s1 s2 He] Hin; rewrite ?Z.add_0_r.
- apply begin_leaves in E. rewrite Hm in E. left. eexists _, _. split; [exact E|]. cbn.
  destruct Hin as [(id & k & Hone & Hk & Hg)|[Hnone Hg]]; unfold carried; rewrite ?Hone, ?Hnone.
  + rewrite map_fold_singleton. rewrite Z.add_0_r. split; [done|]. destruct Hg as [Hg|[Hg Hu]]; [by left|right]. split; lia.
  + rewrite map_fold_empty. unfold MAX_ATTEMPTS. split; [lia|]. right. split; lia.
- apply claim_leaves in E as (k & Hk & Ha & E). rewrite Hm in *. left.
  destruct Hin as [(i & q & Hone & Hq & Hg)|[Hnone Hg]]; [|by rewrite Hnone in Hk].
  rewrite Hone, lookup_singleton_Some in Hk. destruct Hk as [-> ->]. rewrite Hone, insert_singleton_eq in E.
  eexists _, _. split; [exact E|]. cbn. split; [lia|]. destruct Hg as [[Hc Hg]|[Hg Hu]]; [left|right]; (split; [done || lia|done || lia]).
- unfold within. by rewrite He.
Qed.

Lemma campaign_within t0 s0 c g t s :
campaign t0 s0 g t s -> within c (t0 + CHALLENGE_TTL) 0 t0 s0 -> t < t0 + CHALLENGE_TTL ->
t0 <= t /\ within c (t0 + CHALLENGE_TTL) g t s.
Proof using Type.
intros Hc Hstart. induction Hc as [|g t s n t' s' Hc IH Ht Hstep]; intros Hend; [split; [lia|done]|].
destruct IH as [Ht0 Hin]; [lia|]. split; [lia|]. eapply within_step; [lia|exact Hstep|]. by apply (within_later _ _ _ t).
Qed.

(** C18 A second factor is guessed at a bounded number of times: while nobody
    answers the challenge of an account, however many sign-ins begin challenges
    anew and however many codes are tried on any of them, fewer than ten minutes
    count at most twenty guesses, and at most ten when no challenge was open at
    the start. *)
Theorem challenge_budget t0 s0 g t s :
campaign t0 s0 g t s -> t < t0 + CHALLENGE_TTL -> Z.of_nat (size (challenges t0 s0)) <= 1 ->
(forall id k, challenges t0 s0 !! id = Some k -> 0 <= k_attempts k <= MAX_ATTEMPTS) ->
g <= 2 * MAX_ATTEMPTS /\ (challenges t0 s0 = ∅ -> g <= MAX_ATTEMPTS).
Proof using Type.
intros Hc Ht Hsize Hk.
assert (Hbound : forall c, within c (t0 + CHALLENGE_TTL) 0 t0 s0 -> g <= c + MAX_ATTEMPTS).
{ intros c Hin. destruct (campaign_within _ _ c _ _ _ Hc Hin Ht) as [_ [(id & k & _ & Hq & [[-> Hg]|[Hg _]])|[_ Hg]]];
    unfold MAX_ATTEMPTS in *; lia. }
split; [|intros Hnone; apply (Hbound 0); by right].
assert (Hin : within MAX_ATTEMPTS (t0 + CHALLENGE_TTL) 0 t0 s0); [|specialize (Hbound _ Hin); lia].
destruct (decide (challenges t0 s0 = ∅)) as [Hnone|Hsome]; [by right|]. left.
destruct (map_choose _ Hsome) as (id & k & Hin).
assert (Hrest : delete id (challenges t0 s0) = ∅) by (apply map_size_empty_inv; rewrite map_size_delete_Some by (by exists k); lia).
exists id, k. split; [by rewrite <- (insert_delete_id _ _ _ Hin), Hrest|]. specialize (Hk id k Hin). split; [done|]. left. lia.
Qed.
End Guesses.

(** ** Witnesses *)

(** Mia is challenged, and one code is tried. *)
Definition challenged : ways := committed (nth_at 1 10) (begin_in 3) sample_ways.
Definition guessed : ways := committed (nth_at 2 20) (claim_attempt "token1") challenged.
Lemma begun : begin_in 3 (at_instant 10) (draws_of 1) (draw_from (draws_of 1) sample_ways) = Ok ("token1", challenged).
Proof.
  assert (Ha : answered (nth_at 1 10) (begin_in 3) sample_ways = Some (Ok "token1")) by (vm_compute; reflexivity).
  exact (committed_draws (nth_at 1 10) (begin_in 3) sample_ways "token1" Ha).
Qed.
Lemma tried :
  claim_attempt "token1" (at_instant 20) (draws_of 2) (draw_from (draws_of 2) challenged) = Ok (Some (1001, Some 3), guessed).
Proof.
  assert (Ha : answered (nth_at 2 20) (claim_attempt "token1") challenged = Some (Ok (Some (1001, Some 3))))
    by (vm_compute; reflexivity).
  exact (committed_draws (nth_at 2 20) (claim_attempt "token1") challenged (Some (1001, Some 3)) Ha).
Qed.
Lemma challenge_budget_witness :
  campaign 3 10 (draw_from (draws_of 1) sample_ways) 1 20 guessed /\ 1 <= MAX_ATTEMPTS.
Proof.
  pose (s0 := draw_from (draws_of 1) sample_ways). pose (s1 := draw_from (draws_of 2) challenged).
  assert (Hc : campaign 3 10 s0 (0 + 0 + 0 + 1) 20 guessed).
  { refine (campaign_goes 3 10 s0 _ 20 s1 1 20 guessed _ (Z.le_refl 20) (guesses 3 20 "token1" (at_instant 20) (draws_of 2) s1 1001 guessed eq_refl tried)).
    refine (campaign_goes 3 10 s0 _ 10 challenged 0 20 s1 _ ltac:(lia) (elsewhere 3 20 challenged s1 (fun t => eq_refl))).
    exact (campaign_goes 3 10 s0 _ 10 s0 0 10 challenged (campaign_starts 3 10 s0) (Z.le_refl 10)
             (begins 3 10 (at_instant 10) (draws_of 1) s0 "token1" challenged eq_refl begun)). }
  split; [exact Hc|].
  assert (Hnone : outstanding 3 10 s0 = ∅) by (vm_compute; reflexivity).
  apply (challenge_budget 3 10 _ _ 20 _ Hc).
  - reflexivity.
  - rewrite Hnone. vm_compute. discriminate.
  - intros id k. rewrite Hnone, lookup_empty. discriminate.
  - exact Hnone.
Defined.

(** Mia has a factor and a recovery code, and answers the challenge with it. *)
Definition coded : ways :=
  on_factors (insert 81 {| f_user := 3; f_secret := []; f_version := 1; f_last := Some 7; f_tries := 4; f_confirmed := Some 0 |})
    (on_codes (insert 91 {| cd_user := 3; cd_hash := code_hash "one-use"; cd_consumed := None |}) challenged).
Definition won : ways := committed (nth_at 3 30) (win_in 1001 81 (ByCode 91)) coded.
Lemma proofs_work_once_witness :
  runs (win_in 1001 81 (ByCode 91)) coded (Ok tt) won /\ forall m, spend m 81 (ByCode 91) won = Ok (false, won).
Proof.
  assert (Hs : sound coded) by (apply sound_checks; vm_compute; reflexivity).
  assert (Hr : runs (win_in 1001 81 (ByCode 91)) coded (Ok tt) won) by (apply committed_runs; vm_compute; reflexivity).
  split; [exact Hr|]. intros m.
  destruct (proofs_work_once SAMPLE_RING true SITE [] coded won [] won [] Hs (List.Forall_nil _) (rtc_refl _ _)) as [Hx _].
  refine (proj1 (Hx 81 (ByCode 91) (ByCode 91) eq_refl (or_introl _) m)). exists 1001, tt. exact Hr.
Defined.
